(* ===== verification/_CoqProject ===== *)
-Q . S2P
Prelude.v
Stream.v
StdMap.v
VBlock.v
Pdu.v
Concrete.v
Proposal.v
BFTState.v
Rules.v
RulesFacts.v
Sync.v
Driver.v
Scenario.v
DriverInv.v
DriverFacts.v
DriverSteps.v
DriverOps.v
Witnesses.v
CertContext.v
CertInv.v
CertFacts.v
CertPool.v
CertSteps.v
CertReach.v
CertWitness.v
Agreement.v
AgreementWitness.v
Node.v
Pacemaker.v
PacemakerSteps.v
PacemakerProps.v
VoteCache.v
TimerPace.v
TimerInv.v
TimerSteps.v
TimerWitness.v
Election.v
StoreBlock.v
StoreProg.v
BlockStore.v
StoreSteps.v
StoreRefine.v
StoreProps.v
StoreWitness.v
AccountAddr.v
TxData.v
AccountObj.v
AccountSpec.v
AccountWf.v
AccountRefine.v
AccountProps.v
RecvCache.v
RecvCacheFacts.v
RecvCacheProps.v
UnconfirmCache.v
UnconfirmProps.v
TxTable.v
TableFacts.v
TableProps.v
TableSafety.v
TxPool.v
TxPoolProps.v
TxPoolWitness.v
StdNum.v
NativeProp.v
Action.v
ConsTx.v
ChainState.v
AccountCtx.v
TxExec.v
CsPara.v
UnitMaker.v
TableMaker.v
ExecInv.v
ExecOps.v
ExecSteps.v
ExecProps.v
ExecFrame.v
TableMakerProps.v
ExecWitness.v
