(* ===== verification/Prelude.v ===== *)
(** * TOP-chain: consensus, block store, transaction pool and execution, verified

    TOP-chain is a sharded blockchain node.  Its core is the xBFT engine
    (src/src/xtopcom/xBFT): the layers a node runs, for each account, to agree
    with the other nodes of its group on the next block.  This development is
    a model of that engine, of what stands around it (the clock, the election
    of leaders, the block store, the transaction pool, the execution of
    transactions and the making of blocks) and of the data and byte streams of
    the base library (src/src/xtopcom/xbase) they work on, with the theorems
    that make them correct.

    ** The program

    The layers form a chain; events go up and down between neighbours:
<<
      upper layers  <->  pacemaker  <->  context  <->  driver  <->  network
                     xclockcert_view   xBFTcontext_t  xBFTdriver_t
>>
    - The driver (xconsdriver.cpp, over xconsync.cpp, over xconsrules.cpp: one
      object, three classes) runs the rounds.  As leader it signs and
      broadcasts a proposal, collects votes and broadcasts the certificate; as
      replica it checks a proposal against the voting rule and signs it; it
      fetches blocks it misses.  Its state is the locked block, the certified
      blocks and the proposals over the lock, the highest view and height it
      voted for and the requests for missing blocks.  Signatures are verified
      on worker threads.
    - The context (xconscontext.cpp) keeps the certified blocks above the last
      commit as a forest, applies the three-chain rule, announces committed
      blocks upwards and the lock downwards.
    - The pacemaker (xpacemaker.cpp, class in xclockcertview.h) computes the
      current view from the global clock and the latest block certificate,
      announces it, stamps packets and stops those of another view.
    - The clock the pacemaker reads is itself agreed on: the members of the
      beacon committee run the timer pacemaker (xtimercertview.cpp) under the
      account object of xtimer_picker.cpp; every ten seconds each signs the
      block of the tick, and a quorum of signatures certifies it.
    - Who leads a view is drawn from the elected members of the group, weighted
      by stake (xleader_election.cpp over xcommon/xfts.h).
    - The block store keeps, per account, the blocks in a cache over a database
      (xblockstore/src/xvblockhub.cpp): it takes certified blocks in any order,
      links them, locks and commits them by the three-chain rule, marks those
      connected to genesis and executes them in order.
    - The transaction pool (xtxpool) holds what waits for the next block.  The
      pool (xtxpool.cpp) has a table for every zone and table number
      (xtxpool_table.cpp), found by the address of an account
      (xbase/xvledger.h); a table has an object for every account with waiting
      transactions (xaccountobj.cpp), a cache of the receipts its committed
      blocks consumed (xtransaction_recv_cache.cpp), a cache of the transfers
      not confirmed yet (xunconfirm_sendtx_cache.cpp) and the locks of accounts
      with uncommitted units (xtxpool_lock_mgr.cpp).  The leader takes batches
      from it, a backup checks a proposed batch against it, committed blocks
      update it, and a timer sends receipts again.
    - Execution (xtxexecutor) runs a batch over the state of an account.  A
      transaction is parsed into its actions (xdata/src/xaction_parse.cpp) and
      runs in steps at sender and receiver (xtransaction_context.cpp), with its
      fees (xtransaction_fee.cpp), over an account context
      (xstore/src/xaccount_context.cpp) that collects changes of balances and of
      the native properties (xdata/src/xnative_property.cpp); the executor
      (xtransaction_executor.cpp) runs the batch.  The unit maker
      (xunit_blockmaker.cpp) packs the result into the next unit of the account,
      which changes the account when it is committed (xdata/src/xblockchain.cpp);
      the table maker (xtxpool_block_maker.cpp) packs the units of many accounts
      into a table block, and on a backup makes them again to check the leader's.
    - Messages (xconspdu.h, xconspdu.cpp) are written to byte streams
      (xbase/xmem.h); proposals with their votes are xproposal_t
      (xconsengine.h, xconsengine.cpp).

    ** The files

    - [Prelude]: machine integers with their wrap-around, the monad [prog]
      ([option] over a state: [None] is a null dereference or, in a reader, a
      thrown exception), its rules [wpu] and [Keeps], hints and tactics.
    - [Stream]: the operators and string functions of xbuffer_t.
    - [StdMap]: std::map, std::set and std::multiset as ordered lists, with the class
      [MapKey] for the order of keys.
    - [VBlock]: blocks, certificates, packets, and the store of block objects
      that all layers share (a block is reached by pointer and changed in
      place; its input and output objects may be missing).  The operations of
      xbase that have no body in the repository are
      the classes [XVCert], [XVBlock], [XCertAuth], [XCodec]; what is assumed
      of them is documented behaviour, stated in [XVBlockLaws] and
      [XCodecLaws].
    - [Pdu]: the six messages and their wire format.
    - [Proposal]: xproposal_t and the collection of votes.
    - [BFTState], [Rules], [Sync], [Driver]: the driver.  A job for the worker
      pool is a value in [d_jobs], a call posted back to the driver's thread a
      value in [d_calls]; [run_job] and [run_call] run them.
    - [CertContext]: the context; its nodes (xvbnode_t) have a store of their
      own, and what the base library decides about links is [XVBNode]; its laws
      are the rule that xvblock.h states, height and hash must match ([node_rule]).
    - [Pacemaker]: the pacemaker.
    - [RulesFacts], [DriverInv], [DriverFacts], [DriverSteps], [DriverOps]:
      the proofs about the driver; [CertInv], [CertFacts], [CertPool],
      [CertSteps], [CertReach] those about the context; [PacemakerSteps],
      [PacemakerProps] those about the pacemaker.
    - [VoteCache], [TimerPace]: the clock committee's vote cache, pacemaker and
      account object, with the parameters [XTimerBase] and [XElection];
      [TimerInv], [TimerSteps], [TimerWitness] the proofs.
    - [Election]: the weighted draw and the two leader elections, with
      the random engine as parameter [RNG].
    - [StoreBlock]: the block object as the store uses it, the account's meta
      record and the interfaces [XStoreObj], [XStoreFace], [XStoreEnv] of the
      block methods, the database and the factories; [StoreProg]: the monad of
      its code, which keeps the state also where the code stops; [BlockStore]: every
      operation of an account; [StoreSteps]: the guarded step relation that
      specifies them; [StoreRefine]: each operation refines it; [StoreProps]:
      what follows; [StoreWitness]: a run.
    - [AccountAddr]: addresses, ids and table numbers of accounts, with the
      string functions of xbase as the class [XStringUtl].
    - [TxData]: transactions, error codes and expiry; [AccountObj]: the account
      object; [AccountSpec]: the abstract queue it implements; [AccountWf],
      [AccountRefine], [AccountProps]: the proofs.
    - [RecvCache] and [UnconfirmCache]: the two caches of receipts, with the
      block store and clock of a call as [cache_env] and [unit_env];
      [RecvCacheFacts], [RecvCacheProps], [UnconfirmProps]: the proofs.
    - [TxTable]: the pool of a table; [TableFacts],
      [TableProps]: its invariant through every operation; [TableSafety]: what
      follows.  [TxPool]: all tables and the timer; [TxPoolProps]: the
      proofs; [TxPoolWitness]: concrete runs.
    - [StdNum]: std::to_string and std::stoull; [NativeProp]: property sets
      over a heap of shared objects and the finite map they implement;
      [Action]: the actions of a transaction and their bytes; [ConsTx]:
      transactions with receipts and execution state; [ChainState]: the account
      and what units do to it; [AccountCtx]: the account context; [TxExec]: fees,
      the sixteen kinds of transactions and the executor, with contract engine,
      keys and stored accounts as [ExecWorld] and the governance parameters as
      [ExecConfig]; [CsPara]: the consensus parameters of a table
      block and the cached total of locked tokens; [UnitMaker], [TableMaker]: the
      makers.
    - [ExecInv]: the invariant of a context, its assets modulo 2^64; [ExecOps],
      [ExecSteps]: each operation and step keeps it; [ExecProps]: what follows for
      a transaction and a unit; [ExecFrame]: what execution never changes;
      [TableMakerProps]: leader and backup; [ExecWitness]: concrete runs.
    - [Agreement]: the steps that sign, and many nodes together.
    - [Node]: driver and context over the same blocks.
    - [Concrete] instantiates every parameter with an executable function;
      [Scenario], [Witnesses], [CertWitness], [AgreementWitness] and the [*Witness] modules run
      the model and apply the theorems to those runs.

    ** What the theorems show

    - Voting ([DriverSteps], [RulesFacts]): a node signs at most once per
      view, in every interleaving of packets, jobs and calls; each vote obeys
      the rule written out in [vote_allowed], and the check in the code is
      exactly that rule; the lock and the vote counters never move back; a
      new lock drops exactly the proposals and certificates not over it and
      reports each dropped proposal once; with a lock known no handler
      dereferences null, without one a proposal packet does.
    - Agreement ([Agreement]): the two places that sign, with the
      lock each signature rests on; from these and quorum intersection, over
      all runs of a network with faulty nodes: a block committed by a
      three-chain is an ancestor of every certified block two or more above
      it whose ancestors are stored and certified.  The hypotheses on the
      network are the fields of [network_ok]: besides honest drivers and
      intersecting quorums, what the layers above may lock and propose on, and
      that a hash stands for one block.
    - Certificates ([Proposal], [DriverOps]): a finished vote has, of either
      role, as many votes of pairwise different accounts as that role's
      threshold asks, all of them delivered, and a block the
      leader announces as certified carries verified merged signatures.
    - Single operations ([DriverOps]): view changes, refused proposals and
      repeated requests, on every branch.
    - The context ([CertReach]): the three-chain rule, what enters the pool
      and what leaves it and with which events, one certified block per view,
      commit and lock only move forward, every event is handled to the end
      while the hashes of pool blocks stay ([hashes_stable]).
    - The node ([Node]): whatever order the handlers of driver and context run
      in, each layer stays in states it reaches on its own, so that its
      theorems hold in the node.
    - The pacemaker ([PacemakerProps]): only verified certificates count, each
      view is announced once, the view never decreases and stays above what
      the certificates ask, votes of another view stop, the nonce that binds a
      proposal to a clock certificate is accepted by the replica.
    - The clock ([TimerSteps]): certified ticks strictly increase,
      none is certified without the verified votes of a quorum for exactly
      that tick, a quorum of votes in any order for the block the node makes
      of the tick certifies it, and which packets the handlers do not survive.
    - Leaders ([Election]): the draw always ends with a member, a long-standing
      one if there is one; auditors and validators whose caches hold the same
      sets come to the same leader, by parity of the view or by the node that
      the last certificate names.
    - The block store ([StoreProps]): whatever calls
      an account receives, returned or stopped anywhere, it moves by guarded
      steps; no height of its record goes back; a block is committed only under
      a chain of descendants, unless it was supplied as committed during the run;
      blocks are executed in hash order, none twice unless a write was refused
      during the run; the one-pass query agrees with the separate ones; a saved
      record is loaded again after a restart, and one whose write was refused is
      taken for saved.
    - Addresses ([AccountAddr]): zone and table of an address are read back as
      they were written.
    - Account objects ([AccountProps]): every sequence of calls behaves as an
      abstract queue of consecutive nonces; what a leader is handed, and when a
      backup accepts it; a replacement's reference is not checked, and a
      committed transaction takes its successors with it.
    - Receipts ([RecvCacheProps], [UnconfirmProps]): a receipt that passes was
      not consumed in the cached section, but older blocks are never loaded
      into it, and after the genesis block alone the section has a gap
      ([genesis_gap_passes]); the unconfirmed transfers are exactly those outstanding on the
      chain; what the retry timer sends and when.
    - Tables and pool ([TableSafety], [TxPoolProps]): every object is typed,
      counted and in the table of its address; batches taken and accepted are
      valid against the chain, and none is taken for an account with a unit in
      the certified or locked block; the admission limits; every table is visited
      once in sixteen fires of the timer; the leader's check can lock a mutex
      twice.
    - Properties ([NativeProp]): any operations on a property set answer as on a
      finite map; copies share the objects they had.
    - Execution ([ExecProps], [ExecFrame], [ExecWitness]): a checked transaction
      under the conditions of [about_to_run] returns and neither makes nor loses
      TOP tokens, modulo 2^64, but for what it carries and burns and for [minted],
      what several due locks create; and so does its unit when it is added to the
      account; a transfer of the TOP token does not overdraw.  What the code gets
      wrong: a deposit is taken though less is left and the balance wraps around,
      and a unit holds the failed transactions of a batch.  At concrete inputs also:
      a failed transfer that is paid out, locks released twice, votes without
      tokens.
    - Blocks ([TableMakerProps], [ExecWitness]): a backup that accepts a block has
      executed every unit of it itself, over its own chain, and the block's
      predecessor leads to a committed block; the block of an honest
      leader is accepted by a backup at the same point ([table_agreed]), through all
      the bytes in between; but not when a transaction was executed on the leader
      before; the units read back from the bytes in a block are those the leader
      made and have the hashes the block signs.
    - Messages ([Pdu]): every message whose fields fit comes back field for
      field; a longer error detail is cut modulo 256.

    ** Choices

    - Integers have the width the source gives them; sums that may leave it
      are wrapped ([u64], [u8], ...).  Theorems that need no overflow say so
      ([heights_ok], [heights_unsigned]).
    - The loops that are not over a finite container have fuel.  The walk to
      the ancestors in [commit_ancestors] has the height of the block it
      starts from plus one, and heights decrease by one at each step, so that
      it always ends before the fuel does ([context_handles_every_event]); the
      loop that builds the tree of the draw has the number of candidates, and
      each round halves the nodes ([construct_runs]).
    - Loading and saving in the block store call each other through linking,
      committing and executing; they share one fuel, and stop where it ends as
      they do at a dangling iterator.  A program that stops keeps the state it
      has reached ([StoreProg]), and the theorems are about that state: they
      hold for every fuel and so for every prefix of an execution, however long.
      That a write was refused during a run is read off the database
      ([XWriteLog]).  The runs in [StoreWitness] return.
    - [reachable], [ctx_reachable] and [pm_reachable] are the executions of a
      layer: its handlers, its jobs and calls in any order, and any change the
      rest of the node may make to the shared blocks and the block store.
    - Events fired to other layers are outputs; the answer of another layer is
      a step of its own.  The source calls that layer at once, but no handler
      reads lock, pools or counters after firing, so this affects the order of
      the outputs only.
    - Reference counts are left out: an object somebody holds is not freed.  A
      closed node of the context keeps its links, and its flags of zero hide
      it, as in the source.
    - In the timer the pacemaker and the account object call each other at
      once, as the source does within one thread; what the clocks, the network
      and the block store answer is part of the event that is handled.  A log
      statement is modelled where it reads through a pointer.
    - In the transaction pool the loops over heights have the number of heights
      as fuel, which is what they run; the order in which a hash table or a set
      with the comparison of the source is traversed is an argument.  A table's
      executions follow the block store and the account state as each call
      finds them ([pool_env_ok]): what it loads is of the table's chain, an
      account's units can be loaded ([env_ok], [store_ok]; where one cannot, the
      code dereferences null), and a cache that holds the genesis block only
      meets block 1 next ([no_gap]; [genesis_gap_passes] is what happens
      otherwise).
    - A block's input and output may be missing, and code that reads through them
      is undefined then; [bodies] says that every block has both, as xvblock.h
      demands, and [driver_defined_with_lock] assumes it.
    - Money is counted modulo 2^64 as the unsigned fields do ([ExecInv]); the
      one place that makes tokens, several due locks, is the term [minted] of the
      balance.  The theorems on conservation and the agreement of leader and
      backup are about transactions that do not call the contract engine
      ([calls_vm], [engine_free]); nothing is assumed of the engine.  The divisors
      of [ExecConfig] are positive as configured.
    - Property objects live on a heap, since copies of a set share them; the
      transactions of a call are objects too, found by position.
    - The hashes of blocks, what the base library does with resources and the
      bytes of a transaction are the classes [BlockHash] and [TxCodec]; that a
      transaction is read back as it was written is asked of each transaction sent
      ([inputs_fit]), that a certificate starts without auditor and numbers are
      read back is [base_ok].  The units in a table block are the bytes that
      xblock_resources.cpp writes; the library's own bytes of a header, an input
      and an output inside them are [UnitCodec], that they are read back
      [codec_ok].
    - Assertions and log output are left out (release build), also those on
      empty values in the native properties; the node has a
      block store attached; certificates in the pacemaker are values.

    ** What is not modelled

    The pacemaker is not composed with the other two layers over the shared
    blocks (it sets view and nonce of a leader's block before the driver sees
    it; [received] allows any nonce), nor the block store, the pool and the makers
    with the engine above them: what they ask of each other is their environment.
    In the pool the verification of signatures and of the form of a transaction is
    a parameter ([TxVerify]), threads are not modelled beyond a mutex locked twice,
    and a call runs to its end before the next.  The contract engine (xvm, a Lua
    interpreter and the system contracts) is a parameter of execution
    ([deal_transaction]) of which no law is assumed, and with it
    the string, list and map operations of the account context that only contracts
    call.  The account layer and the event routing of xconsobj.cpp create the
    engine's objects and forward calls; the hub of block store accounts with its
    idle monitor and the clock account (xvunithub.cpp, xvtcaccount.cpp) only
    dispatch to accounts; the database behind the store, the network, the unit
    service's threads, sync, elections, RPC and start-up are input and output
    around the modelled parts.  The manifest lists each with the reason. *)

From stdpp Require Import prelude.
From Stdlib Require Import ZArith Lia Sorting.Sorted Sorting.Permutation.

Declare Scope xbft_scope.
Delimit Scope xbft_scope with xbft.
Global Open Scope Z_scope.
Global Open Scope xbft_scope.

(** ** Machine integers

    A [w]-bit unsigned integer is a [Z]; every arithmetic operation that can
    leave the range is followed by the wrap-around. *)

Definition u8 (x : Z) : Z := x mod 2 ^ 8.
Definition u16 (x : Z) : Z := x mod 2 ^ 16.
Definition u32 (x : Z) : Z := x mod 2 ^ 32.
Definition u64 (x : Z) : Z := x mod 2 ^ 64.

(** Conversion to a signed 32-bit integer (two's complement). *)
Definition i32 (x : Z) : Z := (x + 2 ^ 31) mod 2 ^ 32 - 2 ^ 31.

Definition is_u64 (x : Z) : Prop := 0 <= x < 2 ^ 64.

Lemma u64_small x : is_u64 x -> u64 x = x.
Proof. intros H. apply Z.mod_small, H. Qed.

Lemma u64_range x : is_u64 (u64 x).
Proof. apply Z.mod_pos_bound. lia. Qed.

Lemma i32_small x : - 2 ^ 31 <= x < 2 ^ 31 -> i32 x = x.
Proof. intros H. unfold i32. rewrite Z.mod_small by lia. lia. Qed.

(** Adding a small constant to a 64-bit counter: either the sum is exact or
    it wrapped to a value below the constant. *)
Lemma u64_add_cases x k :
  is_u64 x -> 0 <= k < 2 ^ 64 ->
  (u64 (x + k) = x + k /\ x + k < 2 ^ 64) \/ (u64 (x + k) = x + k - 2 ^ 64 /\ 2 ^ 64 <= x + k).
Proof.
  unfold is_u64, u64. intros Hx Hk.
  destruct (Z_lt_ge_dec (x + k) (2 ^ 64)).
  - left. split; [apply Z.mod_small; lia | lia].
  - right. split; [|lia].
    rewrite <- (Z.mod_small (x + k - 2 ^ 64) (2 ^ 64)) by lia.
    replace (x + k - 2 ^ 64) with (x + k + (-1) * 2 ^ 64) by lia.
    now rewrite Z.mod_add by lia.
Qed.

(** ** The program monad

    [prog S A] is code that runs on a state [S]: it either returns a value
    and the new state, or is undefined ([None]): the source dereferences a
    null or dangling pointer. *)

Definition prog (S A : Type) : Type := S -> option (A * S).

Section Prog.
Context {S : Type}.

Definition ret {A} (a : A) : prog S A := fun s => Some (a, s).
Definition bind {A B} (m : prog S A) (k : A -> prog S B) : prog S B :=
  fun s => match m s with Some (a, s') => k a s' | None => None end.
Definition ub {A} : prog S A := fun _ => None.
Definition get : prog S S := fun s => Some (s, s).
Definition gets {A} (f : S -> A) : prog S A := fun s => Some (f s, s).
Definition modify (f : S -> S) : prog S unit := fun s => Some (tt, f s).

(** A pointer the source dereferences without a null test. *)
Definition nonnull {A} (o : option A) : prog S A :=
  match o with Some a => ret a | None => ub end.

(** A [for] loop over a snapshot of a container. *)
Fixpoint for_each {A} (l : list A) (body : A -> prog S unit) : prog S unit :=
  match l with
  | [] => ret tt
  | x :: l' => bind (body x) (fun _ => for_each l' body)
  end.

(** A loop over a container that erases the elements on which [test]
    answers [false]: what stays and what was erased, both in order. *)
Fixpoint partition_prog {A} (test : A -> prog S bool) (l : list A) : prog S (list A * list A) :=
  match l with
  | [] => ret ([], [])
  | x :: l' =>
      bind (test x) (fun b =>
      bind (partition_prog test l') (fun r =>
      ret (if b then (x :: r.1, r.2) else (r.1, x :: r.2))))
  end.

(** A loop that stops at the first element on which [test] answers [true]. *)
Fixpoint any_prog {A} (test : A -> prog S bool) (l : list A) : prog S bool :=
  match l with
  | [] => ret false
  | x :: l' => bind (test x) (fun b => if b then ret true else any_prog test l')
  end.
Fixpoint find_prog {A} (test : A -> prog S bool) (l : list A) : prog S (option A) :=
  match l with
  | [] => ret None
  | x :: l' => bind (test x) (fun b => if b then ret (Some x) else find_prog test l')
  end.
(** Evaluate [f] on each element, in order. *)
Fixpoint map_prog {A B} (f : A -> prog S B) (l : list A) : prog S (list B) :=
  match l with
  | [] => ret []
  | x :: l' => bind (f x) (fun y => bind (map_prog f l') (fun r => ret (y :: r)))
  end.
End Prog.

Notation "'let*' x := m 'in' k" := (bind m (fun x => k))
  (at level 10, x pattern, m at level 100, k at level 200) : xbft_scope.
Notation "m ';;;' k" := (bind m (fun _ => k))
  (at level 199, k at level 200, right associativity) : xbft_scope.

(** ** Weakest preconditions

    [wpu u m Q s]: from [s], either the code is defined and ends in [Q], or
    it is undefined and [u] holds.  [wp] ([u] false) is total correctness:
    the code is defined; [wlp] ([u] true) is partial correctness. *)

Section WP.
Context {S : Type} (u : Prop).

Definition wpu {A} (m : prog S A) (Q : A -> S -> Prop) (s : S) : Prop :=
  match m s with Some (a, s') => Q a s' | None => u end.

Lemma wpu_bind {A B} (m : prog S A) (k : A -> prog S B) Q s :
  wpu m (fun a s' => wpu (k a) Q s') s -> wpu (bind m k) Q s.
Proof. unfold wpu, bind. by destruct (m s) as [[a s']|]. Qed.

Lemma bind_runs {A B} (m : prog S A) (k : A -> prog S B) a s s' :
  m s = Some (a, s') -> bind m k s = k a s'.
Proof. unfold bind. by intros ->. Qed.

Lemma wpu_mono {A} (m : prog S A) (P Q : A -> S -> Prop) s :
  wpu m P s -> (forall a s', P a s' -> Q a s') -> wpu m Q s.
Proof. unfold wpu. destruct (m s) as [[a s']|]; auto. Qed.

Lemma wpu_mono' {A} (u' : Prop) (m : prog S A) (P Q : A -> S -> Prop) s :
  (u' -> u) -> match m s with Some (a, s') => P a s' | None => u' end ->
  (forall a s', P a s' -> Q a s') -> wpu m Q s.
Proof. unfold wpu. destruct (m s) as [[a s']|]; auto. Qed.

Lemma wpu_ub {A} (Q : A -> S -> Prop) s : u -> wpu ub Q s.
Proof. done. Qed.

Lemma wpu_elim {A} (m : prog S A) Q s a s' : wpu m Q s -> m s = Some (a, s') -> Q a s'.
Proof. unfold wpu. intros H E. by rewrite E in H. Qed.

(** A state predicate that every step of a loop body preserves is
    preserved by the loop. *)
Lemma wpu_for_each {A} (l : list A) (body : A -> prog S unit) (I : S -> Prop) s :
  I s -> (forall x s', x ∈ l -> I s' -> wpu (body x) (fun _ => I) s') ->
  wpu (for_each l body) (fun _ => I) s.
Proof.
  revert s. induction l as [|x l IH]; intros s Hs Hb; [done|].
  cbn. apply wpu_bind. eapply wpu_mono; [apply Hb; [left|done]|].
  intros [] s' Hs'. apply IH; [done|]. intros y s'' Hy. apply Hb. by right.
Qed.

(** The loops whose test only reads: the test's answer is a function [f]
    of the element, and the state does not change. *)
Definition reads {A} (m : prog S A) (a : A) (s : S) : Prop := m s = Some (a, s).

Lemma wpu_reads {A} (m : prog S A) a Q s : reads m a s -> Q a s -> wpu m Q s.
Proof. unfold reads, wpu. by intros ->. Qed.

Lemma reads_partition {A} (test : A -> prog S bool) (f : A -> bool) l s :
  (forall x, x ∈ l -> reads (test x) (f x) s) ->
  reads (partition_prog test l) (List.filter f l, List.filter (fun x => negb (f x)) l) s.
Proof.
  induction l as [|x l IH]; intros Ht; [done|].
  unfold reads in *. cbn. unfold bind at 1. rewrite Ht by left.
  unfold bind. rewrite IH by (intros y Hy; apply Ht; by right).
  cbn. by destruct (f x).
Qed.

Lemma reads_any {A} (test : A -> prog S bool) (f : A -> bool) l s :
  (forall x, x ∈ l -> reads (test x) (f x) s) -> reads (any_prog test l) (existsb f l) s.
Proof.
  induction l as [|x l IH]; intros Ht; [done|].
  unfold reads in *. cbn. unfold bind at 1. rewrite Ht by left.
  destruct (f x); cbn; [done|]. apply IH. intros y Hy. apply Ht. by right.
Qed.

Lemma reads_map {A B} (g : A -> prog S B) (f : A -> B) l s :
  (forall x, x ∈ l -> reads (g x) (f x) s) -> reads (map_prog g l) (f <$> l) s.
Proof.
  induction l as [|x l IH]; intros Ht; [done|].
  unfold reads in *. cbn. unfold bind at 1. rewrite Ht by left.
  unfold bind. rewrite IH by (intros y Hy; apply Ht; by right). done.
Qed.
End WP.

Abbreviation wp := (wpu False).
Abbreviation wlp := (wpu True).

Lemma wp_elim {S A} (m : prog S A) Q s :
  wp m Q s -> exists a s', m s = Some (a, s') /\ Q a s'.
Proof. unfold wpu. destruct (m s) as [[a s']|]; [eauto | done]. Qed.

Lemma wp_wpu {S A} (u : Prop) (m : prog S A) Q s : wp m Q s -> wpu u m Q s.
Proof. unfold wpu. destruct (m s) as [[a s']|]; tauto. Qed.

(** ** Programs that keep an invariant

    [Keeps I R m s Q]: from [s] the code is defined (or else [u] holds),
    re-establishes [I], moves the state along the preorder [R] and ends in
    [Q]. *)

Section Keeps.
Context {S : Type} {u : Prop} (I : S -> Prop) (R : S -> S -> Prop) `{!PreOrder R}.

Definition Keeps {A} (m : prog S A) (s : S) (Q : A -> S -> Prop) : Prop :=
  wpu u m (fun a s' => I s' /\ R s s' /\ Q a s') s.

Lemma Keeps_bind {A B} (m : prog S A) (k : A -> prog S B) s P Q :
  Keeps m s P -> (forall a s1, I s1 -> R s s1 -> P a s1 -> Keeps (k a) s1 Q) -> Keeps (bind m k) s Q.
Proof.
  intros Hm Hk. apply wpu_bind. eapply wpu_mono; [exact Hm|]. intros a s1 (Hi & Hf & HP).
  eapply wpu_mono; [by apply Hk|]. intros b s2 (Hi2 & Hf2 & HQ). split_and!; try done. by etrans.
Qed.
Lemma Keeps_mono {A} (m : prog S A) s (P Q : A -> S -> Prop) :
  Keeps m s P -> (forall a s', I s' -> R s s' -> P a s' -> Q a s') -> Keeps m s Q.
Proof. intros Hm HPQ. eapply wpu_mono; [exact Hm|]. intros a s' (? & ? & ?). split_and!; auto. Qed.
Lemma Keeps_reads {A} (m : prog S A) a s (Q : A -> S -> Prop) : I s -> reads m a s -> Q a s -> Keeps m s Q.
Proof. intros Hi Hr HQ. eapply wpu_reads; [exact Hr|]. split_and!; done. Qed.
Lemma Keeps_ret {A} (a : A) s (Q : A -> S -> Prop) : I s -> Q a s -> Keeps (ret a) s Q.
Proof. intros Hi. by apply Keeps_reads. Qed.
(** Reading first. *)
Lemma Keeps_read_bind {A B} (m : prog S A) (k : A -> prog S B) a s Q :
  reads m a s -> Keeps (k a) s Q -> Keeps (bind m k) s Q.
Proof. intros Hr Hk. apply wpu_bind. by eapply wpu_reads. Qed.
(** Continuing elsewhere. *)
Lemma Keeps_from {A} (m k : prog S A) s s' (Q : A -> S -> Prop) :
  R s s' -> m s = k s' -> Keeps k s' Q -> Keeps m s Q.
Proof.
  intros Hf E. unfold Keeps, wpu. rewrite E. destruct (k s') as [[a t]|]; [|done].
  intros (Hi & Hf' & HQ). split_and!; [done|by etrans|done].
Qed.
Lemma Keeps_assoc {A B C} (m : prog S A) (k : A -> prog S B) (k' : B -> prog S C) s Q :
  Keeps (bind (bind m k) k') s Q -> Keeps (bind m (fun a => bind (k a) k')) s Q.
Proof. unfold Keeps, wpu, bind. by destruct (m s) as [[a s1]|]. Qed.
Lemma Keeps_step {A} (m : prog S A) s a s' (Q : A -> S -> Prop) :
  m s = Some (a, s') -> I s' -> R s s' -> Q a s' -> Keeps m s Q.
Proof. intros E Hi Hf HQ. unfold Keeps, wpu. by rewrite E. Qed.
End Keeps.
Lemma Keeps_defined {S A} {u : Prop} (I : S -> Prop) (R : S -> S -> Prop) (m : prog S A) s (Q : A -> S -> Prop) :
  ~ u -> Keeps (u := u) I R m s Q -> exists a s', m s = Some (a, s') /\ I s' /\ R s s' /\ Q a s'.
Proof. unfold Keeps, wpu. destruct (m s) as [[a s']|]; [|done]. eauto. Qed.

(** Run a statement whose effect is computed by the kernel. *)
Ltac run_simple := erewrite bind_runs by reflexivity; cbv beta.

(** One symbolic step of code under [wpu]. *)
Ltac prog_step :=
  lazymatch goal with
  | |- wpu _ (bind _ _) _ _ => apply wpu_bind
  | |- wpu _ (ret _) _ _ => red; cbn [ret]
  | |- wpu _ (gets _) _ _ => red; cbn [gets]
  | |- wpu _ get _ _ => red; cbn [get]
  | |- wpu _ (modify _) _ _ => red; cbn [modify]
  | |- wpu _ (nonnull (Some _)) _ _ => red; cbn [nonnull ret]
  | |- wpu _ (nonnull None) _ _ => apply wpu_ub
  end.

(** Turn the boolean guards of the source into propositions. *)
Create Rewrite HintDb guards.
#[export] Hint Rewrite Z.eqb_eq Z.eqb_neq Z.ltb_lt Z.ltb_ge Z.leb_le Z.leb_gt
  andb_true_iff andb_false_iff orb_true_iff orb_false_iff negb_true_iff negb_false_iff
  bool_decide_eq_true bool_decide_eq_false : guards.

Ltac guards := autorewrite with guards in *.

(** ** Sorting by a key ([std::sort] with a comparison on one field) *)

Section SortBy.
Context {A : Type} (key : A -> Z).

Fixpoint insert_by (x : A) (l : list A) : list A :=
  match l with
  | [] => [x]
  | y :: l' => if key x <=? key y then x :: y :: l' else y :: insert_by x l'
  end.
Fixpoint sort_by (l : list A) : list A :=
  match l with [] => [] | x :: l' => insert_by x (sort_by l') end.

Lemma insert_by_perm x l : insert_by x l ≡ₚ x :: l.
Proof.
  induction l as [|y l IH]; [done|]. cbn. destruct (_ <=? _); [done|].
  rewrite IH. apply Permutation_swap.
Qed.

Lemma sort_by_perm l : sort_by l ≡ₚ l.
Proof. induction l as [|x l IH]; [done|]. cbn. by rewrite insert_by_perm, IH. Qed.

Definition key_le (x y : A) : Prop := key x <= key y.

Lemma insert_by_sorted x l :
  StronglySorted key_le l -> StronglySorted key_le (insert_by x l).
Proof.
  induction 1 as [|y l Hl IH Hy]; cbn; [repeat constructor|].
  destruct (Z.leb_spec (key x) (key y)).
  - constructor; [by constructor|]. constructor; [done|].
    eapply Forall_impl; [exact Hy|]. unfold key_le. lia.
  - constructor; [done|].
    rewrite insert_by_perm. constructor; [unfold key_le; lia | done].
Qed.

Lemma sort_by_sorted l : StronglySorted key_le (sort_by l).
Proof. induction l; cbn; [constructor | by apply insert_by_sorted]. Qed.

(** Distinct keys make the order strict. *)
Lemma sort_by_strict l :
  NoDup (key <$> l) -> StronglySorted (fun x y => key x < key y) (sort_by l).
Proof.
  intros Hnd. assert (Hnd' : NoDup (key <$> sort_by l)) by by rewrite sort_by_perm.
  pose proof (sort_by_sorted l) as Hs. induction Hs as [|x l' Hs IH Hx]; [constructor|].
  cbn in Hnd'. apply NoDup_cons in Hnd' as [Hnin Hnd'].
  constructor; [auto|]. rewrite Forall_forall in Hx |- *. intros y Hy.
  specialize (Hx y Hy). unfold key_le in Hx.
  assert (key x <> key y); [|lia].
  intros E. apply Hnin. rewrite E. apply list_elem_of_fmap. eauto.
Qed.
End SortBy.
