(* ===== verification/Stream.v ===== *)
(** * The byte stream of the base library ([xbuffer_t], xbase/xmem.h)

    Writers append bytes, readers consume them from the front.  A reader is
    code of the [prog] monad whose state is the unread bytes: [None] is the
    exception [enum_xerror_code_bad_packet] thrown when too few bytes are
    left.  Integers are stored as the host (little-endian) stores them; a
    string is stored behind its length, and the length is cut to the width of
    its field: 8 bits for a tiny string, 16 for a short one, 32 otherwise. *)

From stdpp Require Import prelude strings.
From Stdlib Require Import ZArith Lia Ascii.
From S2P Require Import Prelude.

Local Open Scope string_scope.
Local Open Scope Z_scope.

Abbreviation reader := (prog string).

(** ** Bytes *)

Definition byte_of (x : Z) : Ascii.ascii := Ascii.ascii_of_N (Z.to_N (x mod 256)).
Definition of_byte (c : Ascii.ascii) : Z := Z.of_N (Ascii.N_of_ascii c).

Lemma of_byte_of x : of_byte (byte_of x) = x mod 256.
Proof.
  unfold of_byte, byte_of. assert (0 <= x mod 256 < 256) by (apply Z.mod_pos_bound; lia).
  rewrite Ascii.N_ascii_embedding by lia. lia.
Qed.

Lemma append_cons c (a b : string) : String c a +:+ b = String c (a +:+ b).
Proof. done. Qed.

Lemma append_assoc (a b c : string) : (a +:+ b) +:+ c = a +:+ (b +:+ c).
Proof. induction a as [|x a IH]; [done|]. by rewrite !append_cons, IH. Qed.

Fixpoint str_take (n : nat) (s : string) : string :=
  match n, s with
  | S n', String c s' => String c (str_take n' s')
  | _, _ => ""
  end.

Lemma str_take_all n s : (String.length s <= n)%nat -> str_take n s = s.
Proof. revert n. induction s as [|c s IH]; intros [|n] Hn; cbn in *; try done; [lia|]. rewrite IH by lia. done. Qed.

Lemma str_take_length n s : String.length (str_take n s) = Nat.min n (String.length s).
Proof. revert n. induction s as [|c s IH]; intros [|n]; cbn; auto. Qed.

(** ** Integers: [operator <<] and [operator >>] on an [n]-byte integer *)

Fixpoint write_le (n : nat) (x : Z) : string :=
  match n with
  | O => ""
  | S n' => String (byte_of x) (write_le n' (x / 256))
  end.

Definition read_byte : reader Z :=
  fun s => match s with String c s' => Some (of_byte c, s') | EmptyString => None end.

Fixpoint read_le (n : nat) : reader Z :=
  match n with
  | O => ret 0
  | S n' => let* b := read_byte in let* r := read_le n' in ret (b + 256 * r)
  end.

Definition write_u8 (x : Z) : string := write_le 1 x.
Definition write_u16 (x : Z) : string := write_le 2 x.
Definition write_u32 (x : Z) : string := write_le 4 x.
Definition write_u64 (x : Z) : string := write_le 8 x.
Definition write_i32 (x : Z) : string := write_le 4 x.
Definition read_u8 : reader Z := read_le 1.
Definition read_u16 : reader Z := read_le 2.
Definition read_u32 : reader Z := read_le 4.
Definition read_u64 : reader Z := read_le 8.
Definition read_i32 : reader Z := let* x := read_le 4 in ret (i32 x).

(** ** Strings behind their length *)

Fixpoint read_bytes (n : nat) : reader string :=
  match n with
  | O => ret ""
  | S n' => fun s => match s with
                     | String c s' => (let* r := read_bytes n' in ret (String c r)) s'
                     | EmptyString => None
                     end
  end.

(** [nStrSize = (uintN_t)value.size()], then that many bytes of the value. *)
Definition cut_size (w : nat) (s : string) : Z := Z.of_nat (String.length s) mod 2 ^ (8 * Z.of_nat w).
Definition write_str (w : nat) (s : string) : string :=
  write_le w (cut_size w s) +:+ str_take (Z.to_nat (cut_size w s)) s.
Definition read_str (w : nat) : reader string :=
  let* n := read_le w in read_bytes (Z.to_nat n).

Definition write_tiny_string : string -> string := write_str 1.
Definition read_tiny_string : reader string := read_str 1.
Definition write_short_string : string -> string := write_str 2.
Definition read_short_string : reader string := read_str 2.
Definition write_string : string -> string := write_str 4.
Definition read_string : reader string := read_str 4.

(** ** Reading back what was written *)

Lemma read_le_write n x r :
  read_le n (write_le n x +:+ r) = Some (x mod 2 ^ (8 * Z.of_nat n), r).
Proof.
  revert x. induction n as [|n IH]; intros x.
  { cbn. by rewrite Z.mod_1_r. }
  cbn [read_le write_le]. rewrite append_cons. unfold bind at 1. cbn [read_byte].
  unfold bind. rewrite IH. cbn [ret]. f_equal. f_equal. rewrite of_byte_of.
  replace (2 ^ (8 * Z.of_nat (S n))) with (256 * 2 ^ (8 * Z.of_nat n)).
  - rewrite Z.rem_mul_r by lia. done.
  - replace (8 * Z.of_nat (S n)) with (8 + 8 * Z.of_nat n) by lia.
    rewrite Z.pow_add_r by lia. done.
Qed.

Lemma read_bytes_write s r : read_bytes (String.length s) (s +:+ r) = Some (s, r).
Proof. induction s as [|c s IH]; [done|]. rewrite append_cons. cbn. unfold bind. by rewrite IH. Qed.

(** What a string looks like after the length was cut to [w] bytes. *)
Definition cut_str (w : nat) (s : string) : string := str_take (Z.to_nat (cut_size w s)) s.

Lemma cut_size_bound w s : 0 <= cut_size w s <= Z.of_nat (String.length s).
Proof.
  unfold cut_size. assert (0 < 2 ^ (8 * Z.of_nat w)) by (apply Z.pow_pos_nonneg; lia).
  split; [by apply Z.mod_pos_bound|]. apply Z.mod_le; lia.
Qed.

Lemma cut_str_fits w s : Z.of_nat (String.length s) < 2 ^ (8 * Z.of_nat w) -> cut_str w s = s.
Proof. intros Hs. unfold cut_str, cut_size. rewrite Z.mod_small by lia. apply str_take_all. lia. Qed.

Lemma read_str_write w s r : read_str w (write_str w s +:+ r) = Some (cut_str w s, r).
Proof.
  pose proof (cut_size_bound w s) as Hc.
  assert (0 < 2 ^ (8 * Z.of_nat w)) by (apply Z.pow_pos_nonneg; lia).
  unfold read_str, write_str. rewrite append_assoc. unfold bind. rewrite read_le_write.
  rewrite Z.mod_small by (unfold cut_size; apply Z.mod_pos_bound; lia).
  replace (Z.to_nat (cut_size w s)) with (String.length (str_take (Z.to_nat (cut_size w s)) s)) at 1.
  - apply read_bytes_write.
  - rewrite str_take_length. lia.
Qed.

(** A field of an integer width survives when it is in range. *)
Lemma mod_u16 x : x mod 2 ^ (8 * Z.of_nat 2) = u16 x. Proof. done. Qed.
Lemma mod_u32 x : x mod 2 ^ (8 * Z.of_nat 4) = u32 x. Proof. done. Qed.
Lemma mod_u64 x : x mod 2 ^ (8 * Z.of_nat 8) = u64 x. Proof. done. Qed.

Lemma i32_mod x : i32 (x mod 2 ^ 32) = i32 x.
Proof. unfold i32. by rewrite Zplus_mod_idemp_l. Qed.

(** A run of fields: what a reader in sequence sees. *)
Lemma read_field {A B} (m : reader A) (k : A -> reader B) w r a :
  m (w +:+ r) = Some (a, r) -> bind m k (w +:+ r) = k a r.
Proof. apply bind_runs. Qed.
