(* ===== verification/StdMap.v ===== *)
(** * [std::map], [std::set] and [std::multiset]: the ordered containers of the source

    A map is the list of its entries in key order, so that iteration
    ([begin]..[end], [rbegin]..[rend]) is the list itself or its reverse.
    The order of the keys is a type class with instances for 64-bit integers
    and for strings. *)

From stdpp Require Import prelude strings.
From Stdlib Require Import ZArith Lia Sorting.Sorted.
From S2P Require Import Prelude.

(** ** Key orders *)

Class MapKey (K : Type) := {
  key_eq_dec :: EqDecision K;
  key_ltb : K -> K -> bool;
  key_lt_irrefl : forall k, key_ltb k k = false;
  key_lt_trans : forall a b c, key_ltb a b = true -> key_ltb b c = true -> key_ltb a c = true;
  key_lt_total : forall a b, key_ltb a b = false -> key_ltb b a = false -> a = b;
}.

#[export] Program Instance Z_key : MapKey Z := { key_ltb := Z.ltb }.
Next Obligation. apply Z.ltb_irrefl. Qed.
Next Obligation. intros a b c. rewrite !Z.ltb_lt. lia. Qed.
Next Obligation. intros a b. rewrite !Z.ltb_ge. lia. Qed.

(** [std::string]'s [operator<]: bytes compared from the left. *)
Definition string_ltb (a b : string) : bool :=
  match String.compare a b with Lt => true | _ => false end.

Lemma ascii_compare_N a b :
  Ascii.compare a b = N.compare (Ascii.N_of_ascii a) (Ascii.N_of_ascii b).
Proof. reflexivity. Qed.

Lemma string_compare_refl a : String.compare a a = Eq.
Proof. induction a as [|x a IH]; cbn; [done|]. by rewrite ascii_compare_N, N.compare_refl. Qed.

Lemma string_compare_trans a b c :
  String.compare a b = Lt -> String.compare b c = Lt -> String.compare a c = Lt.
Proof.
  revert b c. induction a as [|x a IH]; intros [|y b] [|z c]; cbn; try done.
  rewrite !ascii_compare_N.
  destruct (N.compare_spec (Ascii.N_of_ascii x) (Ascii.N_of_ascii y)) as [E|E|E]; try done;
  destruct (N.compare_spec (Ascii.N_of_ascii y) (Ascii.N_of_ascii z)) as [F|F|F]; try done; intros Hab Hbc;
  destruct (N.compare_spec (Ascii.N_of_ascii x) (Ascii.N_of_ascii z)) as [G|G|G]; try done; try lia.
  eauto.
Qed.

#[export] Program Instance string_key : MapKey string := { key_ltb := string_ltb }.
Next Obligation. intros k. unfold string_ltb. by rewrite string_compare_refl. Qed.
Next Obligation.
  intros a b c. unfold string_ltb.
  destruct (String.compare a b) eqn:E1; try done.
  destruct (String.compare b c) eqn:E2; try done.
  by rewrite (string_compare_trans _ _ _ E1 E2).
Qed.
Next Obligation.
  intros a b. unfold string_ltb. rewrite (String.compare_antisym a b).
  destruct (String.compare b a) eqn:E; cbn; try done.
  intros _ _. symmetry. by apply String.compare_eq_iff.
Qed.

(** ** Maps *)

Section Map.
Context {K : Type} `{MapKey K} {V : Type}.

Fixpoint map_find (k : K) (m : list (K * V)) : option V :=
  match m with
  | [] => None
  | (k', v) :: m' => if decide (k = k') then Some v else map_find k m'
  end.

(** [m[k] = v]: overwrite or insert at the key's place. *)
Fixpoint map_set (k : K) (v : V) (m : list (K * V)) : list (K * V) :=
  match m with
  | [] => [(k, v)]
  | (k', v') :: m' =>
      if key_ltb k k' then (k, v) :: m
      else if decide (k = k') then (k, v) :: m'
      else (k', v') :: map_set k v m'
  end.

(** [m.emplace(k, v)]: insert unless the key is taken; tells whether it inserted. *)
Definition map_emplace (k : K) (v : V) (m : list (K * V)) : list (K * V) * bool :=
  match map_find k m with
  | Some _ => (m, false)
  | None => (map_set k v m, true)
  end.

Definition map_erase (k : K) (m : list (K * V)) : list (K * V) :=
  List.filter (fun e => negb (bool_decide (k = fst e))) m.

(** The entry [rbegin()] points to. *)
Definition map_last (m : list (K * V)) : option (K * V) := last m.

Definition key_sorted (m : list (K * V)) : Prop :=
  StronglySorted (fun a b => key_ltb a.1 b.1 = true) m.

Lemma map_find_set_eq k v m : map_find k (map_set k v m) = Some v.
Proof.
  induction m as [|[k' v'] m IH]; cbn; [by rewrite decide_True|].
  destruct (key_ltb k k') eqn:E; cbn; [by rewrite decide_True|].
  destruct (decide (k = k')) as [->|Hne]; cbn; [by rewrite decide_True|].
  by rewrite decide_False.
Qed.

Lemma map_find_set_ne k k' v m : k <> k' -> map_find k' (map_set k v m) = map_find k' m.
Proof.
  intros Hne. induction m as [|[k0 v0] m IH]; cbn; [by rewrite decide_False|].
  destruct (key_ltb k k0) eqn:E; cbn; [by rewrite decide_False by done|].
  destruct (decide (k = k0)) as [->|]; cbn; [by rewrite !(decide_False (P := k' = k0)) by done|].
  destruct (decide (k' = k0)); [done|]. apply IH.
Qed.

Lemma map_find_erase_eq k m : map_find k (map_erase k m) = None.
Proof.
  induction m as [|[k' v'] m IH]; cbn; [done|].
  destruct (bool_decide_reflect (k = k')); cbn; [done|]. by rewrite decide_False.
Qed.

Lemma map_find_erase_ne k k' m : k <> k' -> map_find k' (map_erase k m) = map_find k' m.
Proof.
  intros Hne. induction m as [|[k0 v0] m IH]; cbn; [done|].
  destruct (bool_decide_reflect (k = k0)) as [->|]; cbn.
  - rewrite decide_False by done. apply IH.
  - destruct (decide (k' = k0)); [done|]. apply IH.
Qed.

Lemma map_find_Some_in k v m : map_find k m = Some v -> (k, v) ∈ m.
Proof.
  induction m as [|[k0 v0] m IH]; cbn; [done|].
  destruct (decide (k = k0)) as [->|]; [intros [= ->]; left|]. intros E. right. auto.
Qed.

Lemma map_find_in k v m : key_sorted m -> (k, v) ∈ m -> map_find k m = Some v.
Proof.
  induction 1 as [|[k0 v0] m Hs IH Hf]; [by intros ?%elem_of_nil|].
  intros Hin. cbn. apply elem_of_cons in Hin as [[= -> ->]|Hin]; [by rewrite decide_True|].
  rewrite decide_False; [auto|]. intros ->.
  rewrite Forall_forall in Hf. specialize (Hf _ Hin). cbn in Hf.
  by rewrite key_lt_irrefl in Hf.
Qed.

Lemma map_set_in e k v m : e ∈ map_set k v m -> e = (k, v) \/ e ∈ m.
Proof.
  induction m as [|[k0 v0] m IH]; cbn.
  - intros ->%list_elem_of_singleton. by left.
  - destruct (key_ltb k k0); [|destruct (decide (k = k0))];
      intros [->|Hin]%elem_of_cons; auto.
    + right. by right.
    + right. by left.
    + destruct (IH Hin); [by left|]. right. by right.
Qed.

Lemma map_set_sorted k v m : key_sorted m -> key_sorted (map_set k v m).
Proof.
  induction 1 as [|[k0 v0] m Hs IH Hf]; cbn; [repeat constructor|].
  destruct (key_ltb k k0) eqn:E; [|destruct (decide (k = k0)) as [->|Hne]].
  - repeat constructor; auto. eapply Forall_impl; [exact Hf|].
    intros [a b] Ha. eapply key_lt_trans; eauto.
  - constructor; auto.
  - constructor; [done|]. apply Forall_forall. intros e He.
    apply map_set_in in He as [->|He]; [|by rewrite Forall_forall in Hf; apply Hf].
    cbn. destruct (key_ltb k0 k) eqn:E'; [done|]. by destruct Hne; apply key_lt_total.
Qed.

Lemma filter_sorted (f : K * V -> bool) m : key_sorted m -> key_sorted (List.filter f m).
Proof.
  induction 1 as [|e m Hs IH Hf]; cbn; [constructor|].
  destruct (f e); [|done]. constructor; [done|].
  rewrite Forall_forall in Hf |- *. intros x Hx. apply Hf.
  apply list_elem_of_In in Hx. apply List.filter_In in Hx as [Hx _]. by apply list_elem_of_In.
Qed.

Lemma map_erase_sorted k m : key_sorted m -> key_sorted (map_erase k m).
Proof. apply filter_sorted. Qed.

Lemma map_emplace_sorted k v m : key_sorted m -> key_sorted (map_emplace k v m).1.
Proof. unfold map_emplace. destruct (map_find k m); cbn; [done|]. apply map_set_sorted. Qed.

(** No key of a sorted map is above [rbegin]'s. *)
Lemma map_last_max k v m k' v' :
  key_sorted m -> map_last m = Some (k, v) -> map_find k' m = Some v' ->
  k' = k \/ key_ltb k' k = true.
Proof.
  intros Hs Hl Hf%map_find_Some_in. unfold map_last in Hl.
  apply last_Some in Hl as [m' ->].
  apply elem_of_app in Hf as [Hin|Hin].
  - right. clear -Hs Hin. induction m' as [|e m' IH]; [by apply elem_of_nil in Hin|].
    inversion_clear Hs as [|? ? Hs' Hf].
    apply elem_of_cons in Hin as [<-|Hin]; [|auto].
    rewrite Forall_forall in Hf. apply (Hf (k, v)), elem_of_app. right. by left.
  - apply list_elem_of_singleton in Hin. left. congruence.
Qed.

Lemma map_last_find k v m : key_sorted m -> map_last m = Some (k, v) -> map_find k m = Some v.
Proof.
  intros Hs [m' ->]%last_Some. apply map_find_in; [done|].
  apply elem_of_app. right. by left.
Qed.
End Map.

(** ** Sets: [std::set] with [emplace], [find] and [erase] *)

Definition set_mem {K} `{MapKey K} (k : K) (s : list K) : bool := bool_decide (k ∈ s).
Definition set_emplace {K} `{MapKey K} (k : K) (s : list K) : list K * bool :=
  if set_mem k s then (s, false) else (k :: s, true).
Definition set_erase {K} `{MapKey K} (k : K) (s : list K) : list K :=
  List.filter (fun x => negb (bool_decide (k = x))) s.

Lemma set_mem_spec {K} `{MapKey K} (k : K) (s : list K) : reflect (k ∈ s) (set_mem k s).
Proof. unfold set_mem. apply bool_decide_reflect. Qed.

Lemma set_erase_elem {K} `{MapKey K} (k j : K) s : j ∈ set_erase k s <-> j ∈ s /\ j <> k.
Proof.
  unfold set_erase. rewrite list_elem_of_In, List.filter_In, negb_true_iff, bool_decide_eq_false, <- list_elem_of_In.
  naive_solver.
Qed.

(** ** Keys *)

Lemma key_sorted_nodup {K} `{MapKey K} {V} (m : list (K * V)) : key_sorted m -> NoDup m.*1.
Proof.
  induction 1 as [|[k v] m Hs IH Hf]; cbn; [constructor|]. apply NoDup_cons. split; [|done].
  intros Hin. apply list_elem_of_fmap in Hin as ([k' v'] & -> & Hin). rewrite Forall_forall in Hf.
  specialize (Hf _ Hin). cbn in Hf. by rewrite key_lt_irrefl in Hf.
Qed.
Lemma map_find_key {K} `{MapKey K} {V} (k : K) (m : list (K * V)) : is_Some (map_find k m) <-> k ∈ m.*1.
Proof.
  induction m as [|[k0 v0] m IH]; cbn; [rewrite elem_of_nil; split; [by intros []|done]|].
  rewrite elem_of_cons. destruct (decide (k = k0)); [naive_solver|]. rewrite IH. naive_solver.
Qed.
Lemma map_find_erase_inv {K} `{MapKey K} {V} (k j : K) (v : V) m :
  map_find j (map_erase k m) = Some v <-> j <> k /\ map_find j m = Some v.
Proof.
  destruct (decide (j = k)) as [->|Hne]; [rewrite map_find_erase_eq; naive_solver|].
  rewrite map_find_erase_ne by done. naive_solver.
Qed.
Lemma map_set_nonempty {K} `{MapKey K} {V} (k : K) (v : V) m : map_set k v m <> [].
Proof. destruct m as [|[k' v'] m]; cbn; [done|]. by destruct (key_ltb k k'), (decide (k = k')). Qed.

Create HintDb stdmap.
#[export] Hint Resolve map_set_sorted map_erase_sorted map_emplace_sorted filter_sorted : stdmap.

(** * [std::multiset]: ordered containers that keep equivalent elements

    A multiset is the list of its elements in iteration order.  [insert] puts
    an element behind the last one it is not less than, [equal_range] is the
    pair of positions that [lower_bound] and [upper_bound] return, and an
    iterator is a position in the list. *)

Section Multiset.
Context {A : Type} (ltb : A -> A -> bool).

Fixpoint mset_insert (x : A) (l : list A) : list A :=
  match l with
  | [] => [x]
  | y :: l' => if ltb x y then x :: l else y :: mset_insert x l'
  end.

Fixpoint lower_bound (x : A) (l : list A) : nat :=
  match l with
  | [] => 0
  | y :: l' => if ltb y x then S (lower_bound x l') else 0
  end.

Fixpoint upper_bound (x : A) (l : list A) : nat :=
  match l with
  | [] => 0
  | y :: l' => if ltb x y then 0 else S (upper_bound x l')
  end.

(** The first position of [lo .. hi) whose element satisfies [p]. *)
Definition find_in_range (p : A -> bool) (lo hi : nat) (l : list A) : option nat :=
  (fun e => lo + fst e)%nat <$> list_find (fun x => p x = true) (take (hi - lo) (drop lo l)).

(** No element is less than one before it. *)
Definition mset_sorted (l : list A) : Prop := StronglySorted (fun x y => ltb y x = false) l.

Class StrictWeakOrder := {
  swo_irrefl : forall x, ltb x x = false;
  swo_trans : forall x y z, ltb x y = true -> ltb y z = true -> ltb x z = true;
  swo_comparable : forall x y z, ltb x y = false -> ltb y z = false -> ltb x z = false;
}.

Lemma mset_insert_perm x l : mset_insert x l ≡ₚ x :: l.
Proof.
  induction l as [|y l IH]; cbn; [done|]. destruct (ltb x y); [done|]. rewrite IH. by constructor.
Qed.

Lemma mset_insert_elem x y l : y ∈ mset_insert x l <-> y = x \/ y ∈ l.
Proof. by rewrite (mset_insert_perm x l), elem_of_cons. Qed.

Lemma length_mset_insert x l : length (mset_insert x l) = S (length l).
Proof. by rewrite (mset_insert_perm x l). Qed.

Lemma mset_insert_sorted `{!StrictWeakOrder} x l : mset_sorted l -> mset_sorted (mset_insert x l).
Proof.
  induction 1 as [|y l Hs IH Hf]; cbn; [repeat constructor|]. destruct (ltb x y) eqn:E.
  - constructor; [by constructor|]. constructor.
    + destruct (ltb y x) eqn:E'; [|done]. by rewrite <- (swo_irrefl x), (swo_trans _ _ _ E E').
    + eapply Forall_impl; [exact Hf|]. intros z Hz. cbn in Hz |- *. destruct (ltb z x) eqn:E'; [|done].
      by rewrite <- Hz, (swo_trans _ _ _ E' E).
  - constructor; [done|]. rewrite (mset_insert_perm x l). by constructor.
Qed.

(** An element that is less than none goes to the end. *)
Lemma mset_insert_last x l : Forall (fun y => ltb x y = false) l -> mset_insert x l = l ++ [x].
Proof. induction 1 as [|y l E Hf IH]; cbn; [done|]. by rewrite E, IH. Qed.

(** In an order in which every element before [i] is less than [x] and every one
    behind it greater, the range equal to the element at [i] is that position. *)
Lemma bounds_at x l i y :
  l !! i = Some y -> ltb y x = false -> ltb x y = false ->
  (forall j z, (j < i)%nat -> l !! j = Some z -> ltb z x = true /\ ltb x z = false) ->
  (forall j z, (i < j)%nat -> l !! j = Some z -> ltb x z = true) ->
  lower_bound x l = i /\ upper_bound x l = S i.
Proof.
  revert i. induction l as [|z l IH]; intros [|i] Hi E1 E2 Hlo Hhi; cbn in *; try done.
  - simplify_eq. rewrite E1, E2. split; [done|]. f_equal. destruct l as [|w l]; [done|]. cbn.
    by rewrite (Hhi 1%nat w) by (done || lia).
  - destruct (Hlo 0%nat z) as [-> ->]; [lia|done|]. destruct (IH i Hi E1 E2) as [-> ->]; [| |done].
    + intros j w Hj Hw. apply (Hlo (S j)); [lia|done].
    + intros j w Hj Hw. apply (Hhi (S j)); [lia|done].
Qed.

(** In a sorted multiset the range of the elements equivalent to [x] is found by the bounds. *)
Lemma equal_range_elem `{!StrictWeakOrder} x l i y :
  mset_sorted l -> l !! i = Some y -> ltb x y = false -> ltb y x = false ->
  (lower_bound x l <= i < upper_bound x l)%nat.
Proof.
  intros Hs. revert i. induction Hs as [|z l Hs IH Hf]; intros [|i] Hi E1 E2; cbn in *; try done.
  - simplify_eq. rewrite E1, E2. lia.
  - rewrite Forall_forall in Hf. pose proof (Hf y (list_elem_of_lookup_2 _ _ _ Hi)) as Hy. cbn in Hy.
    specialize (IH i Hi E1 E2). destruct (ltb x z) eqn:E3.
    + exfalso. assert (ltb x z = false) by (eapply swo_comparable; [exact E1|exact Hy]). congruence.
    + destruct (ltb z x); lia.
Qed.

Lemma find_in_range_Some p lo hi l i :
  find_in_range p lo hi l = Some i ->
  (lo <= i < hi)%nat /\ exists x, l !! i = Some x /\ p x = true.
Proof.
  unfold find_in_range. destruct (list_find _ _) as [[j x]|] eqn:E; cbn; [|done]. intros [= <-].
  apply list_find_Some in E as (Hj & Hp & _). apply lookup_take_Some in Hj as [Hj Hlt].
  rewrite lookup_drop in Hj. split; [lia|eauto].
Qed.

Lemma find_in_range_unique p lo hi l i x :
  l !! i = Some x -> p x = true -> (lo <= i < hi)%nat ->
  (forall j y, l !! j = Some y -> p y = true -> j = i) ->
  find_in_range p lo hi l = Some i.
Proof.
  intros Hi Hp Hr Hu. unfold find_in_range.
  assert (list_find (fun x => p x = true) (take (hi - lo) (drop lo l)) = Some ((i - lo)%nat, x)) as ->.
  { apply list_find_Some. split_and!; [| done |].
    - apply lookup_take_Some. split; [|lia]. rewrite lookup_drop. by replace (lo + (i - lo))%nat with i by lia.
    - intros j y Hj Hlt Hpy. apply lookup_take_Some in Hj as [Hj _]. rewrite lookup_drop in Hj.
      specialize (Hu _ _ Hj Hpy). lia. }
  cbn. f_equal. lia.
Qed.
End Multiset.
