(* ===== verification/VBlock.v ===== *)
(** * Blocks, certificates, packets and the shared object store

    The data of [xbase/xvblock.h], [xbase/xbase.h] and [xbase/xdata.h] that
    the consensus engine reads and writes, with the getters those headers
    define inline.  The bodies of the other methods of [xvblock_t],
    [xvqcert_t], [xvcertauth_t] and of the message codecs are not in the
    repository: they are the operations of the classes [XVCert], [XVBlock],
    [XCertAuth] and [XCodec], arguments of every definition that uses them. *)

From stdpp Require Import prelude gmap strings.
From Stdlib Require Import ZArith Lia.
From S2P Require Import Prelude StdMap.

(** ** Network addresses *)

Record xvip2 := Xvip2 { low_addr : Z; high_addr : Z }.

#[export] Instance xvip2_eq_dec : EqDecision xvip2.
Proof. solve_decision. Defined.

Definition is_xip2_equal (a b : xvip2) : bool :=
  (low_addr a =? low_addr b) && (high_addr a =? high_addr b).
Definition is_xip2_empty (a : xvip2) : bool := (low_addr a =? 0) && (high_addr a =? 0).
Definition get_node_id_from_xip2 (a : xvip2) : Z := Z.land (low_addr a) 0x3FF.

(** [xvip2_compare]: the strict order of the vote maps. *)
Definition xvip2_ltb (a b : xvip2) : bool :=
  if is_xip2_equal a b then false
  else if high_addr b <? high_addr a then false
  else if (high_addr a =? high_addr b) && (low_addr b <=? low_addr a) then false
  else true.

Lemma is_xip2_equal_spec a b : is_xip2_equal a b = true <-> a = b.
Proof.
  unfold is_xip2_equal. guards. destruct a, b; cbn. split; [intros [-> ->]; done | by intros [= -> ->]].
Qed.

Lemma xvip2_ltb_spec a b :
  xvip2_ltb a b = true <-> high_addr a < high_addr b \/ (high_addr a = high_addr b /\ low_addr a < low_addr b).
Proof.
  unfold xvip2_ltb, is_xip2_equal. destruct a as [la ha], b as [lb hb]; cbn.
  destruct (Z.eqb_spec la lb), (Z.eqb_spec ha hb), (Z.ltb_spec hb ha), (Z.leb_spec lb la);
    cbn; split; intros; try done; lia.
Qed.

#[export] Program Instance xvip2_key : MapKey xvip2 := { key_ltb := xvip2_ltb }.
Next Obligation.
  intros k. destruct (xvip2_ltb k k) eqn:E; [|done]. apply xvip2_ltb_spec in E. lia.
Qed.
Next Obligation. intros a b c. rewrite !xvip2_ltb_spec. lia. Qed.
Next Obligation.
  intros a b Ha Hb.
  assert (Ha' : ~ xvip2_ltb a b = true) by congruence.
  assert (Hb' : ~ xvip2_ltb b a = true) by congruence.
  rewrite xvip2_ltb_spec in Ha', Hb'. destruct a as [la ha], b as [lb hb]; cbn in *.
  f_equal; lia.
Qed.

(** The address every member of the group listens on. *)
Definition broadcast_addr : xvip2 := Xvip2 (u64 (-1)) (u64 (-1)).

(** ** Flags *)

Definition enum_xvblock_flag_connected : Z := 0x0100.
Definition enum_xvblock_flag_authenticated : Z := 0x1000.
Definition enum_xvblock_flag_locked : Z := 0x2000.
Definition enum_xvblock_flag_committed : Z := 0x4000.
Definition enum_xvblock_flags_mask : Z := 0xFF00.

Definition set_unit_flag (flags flag : Z) : Z := u16 (Z.lor flags flag).
Definition reset_unit_flag (flags flag : Z) : Z := u16 (Z.land flags (Z.lnot flag)).
Definition check_unit_flag (flags flag : Z) : bool := negb (Z.land flags flag =? 0).

(** ** Certificates and blocks *)

Record xvqcert := XVQCert {
  c_nonce : Z; c_clock : Z; c_viewid : Z; c_viewtoken : Z;
  c_validator : xvip2; c_auditor : xvip2;
  c_header_hash : string; c_output_root_hash : string; c_justify_cert_hash : string;
  c_verify_signature : string; c_audit_signature : string;
  c_flags : Z
}.

#[export] Instance xvqcert_eq_dec : EqDecision xvqcert.
Proof. solve_decision. Defined.

Inductive enum_xvblock_level :=
  | level_unit | level_table | level_book | level_zone | level_chain | level_root.

#[export] Instance level_eq_dec : EqDecision enum_xvblock_level.
Proof. solve_decision. Defined.

Record xvheader := XVHeader {
  h_level : enum_xvblock_level; h_chainid : Z; h_height : Z;
  h_account : string; h_last_block_hash : string
}.

#[export] Instance xvheader_eq_dec : EqDecision xvheader.
Proof. solve_decision. Defined.

Definition ptr := positive.

(** What the code reads of [xvinput_t] and [xvoutput_t]. *)
Record xvinput := XVInput {
  in_proposal : string;          (* get_proposal() *)
  in_resources : string          (* get_resources_data() *)
}.
Record xvoutput := XVOutput { out_resources : string }.

Record xvblock := MkBlock {
  b_header : xvheader;
  b_cert : xvqcert;
  b_cert_hash : string;          (* m_cert_hash *)
  b_flags : Z;                   (* m_obj_flags *)
  b_prev : option ptr;           (* m_prev_block *)
  b_next_next_cert : option xvqcert;
  b_input : option xvinput;      (* get_input(), might be nullptr *)
  b_output : option xvoutput     (* get_output(), might be nullptr *)
}.

(** The getters [xvblock.h] defines inline. *)
Definition get_viewid (b : xvblock) : Z := c_viewid (b_cert b).
Definition get_viewtoken (b : xvblock) : Z := c_viewtoken (b_cert b).
Definition get_clock (b : xvblock) : Z := c_clock (b_cert b).
Definition get_height (b : xvblock) : Z := h_height (b_header b).
Definition get_chainid (b : xvblock) : Z := h_chainid (b_header b).
Definition get_account (b : xvblock) : string := h_account (b_header b).
Definition get_block_level (b : xvblock) : enum_xvblock_level := h_level (b_header b).
Definition get_last_block_hash (b : xvblock) : string := h_last_block_hash (b_header b).
Definition get_justify_cert_hash (b : xvblock) : string := c_justify_cert_hash (b_cert b).
Definition get_output_root_hash (b : xvblock) : string := c_output_root_hash (b_cert b).
Definition get_block_hash (b : xvblock) : string := b_cert_hash b.
Definition get_block_flags (b : xvblock) : Z := Z.land (b_flags b) enum_xvblock_flags_mask.

Definition with_cert (b : xvblock) (c : xvqcert) : xvblock :=
  MkBlock (b_header b) c (b_cert_hash b) (b_flags b) (b_prev b) (b_next_next_cert b)
    (b_input b) (b_output b).
Definition with_input (b : xvblock) (i : xvinput) : xvblock :=
  MkBlock (b_header b) (b_cert b) (b_cert_hash b) (b_flags b) (b_prev b) (b_next_next_cert b)
    (Some i) (b_output b).
(** [get_input()->set_proposal(proposal)]; [None] when there is no input object. *)
Definition set_input_proposal (b : xvblock) (proposal : string) : option xvblock :=
  i ← b_input b; Some (with_input b (XVInput proposal (in_resources i))).
Definition with_cert_flags (c : xvqcert) (f : Z) : xvqcert :=
  XVQCert (c_nonce c) (c_clock c) (c_viewid c) (c_viewtoken c) (c_validator c) (c_auditor c)
    (c_header_hash c) (c_output_root_hash c) (c_justify_cert_hash c)
    (c_verify_signature c) (c_audit_signature c) f.

(** ** Operations of the base library *)

Class XVCert := {
  cert_is_deliver : xvqcert -> bool;
  cert_is_equal : xvqcert -> xvqcert -> bool;
  is_validator : xvqcert -> Z -> bool;
  is_auditor : xvqcert -> Z -> bool;
  is_validator2 : xvqcert -> xvip2 -> bool;      (* the overloads on xvip2_t *)
  is_auditor2 : xvqcert -> xvip2 -> bool;
  get_validator_threshold : xvqcert -> Z;
  get_auditor_threshold : xvqcert -> Z;
  cert_hash : xvqcert -> string -> string;
  build_block_hash : xvqcert -> string;
  cert_reset_block_flags : xvqcert -> xvqcert;
  set_viewid : xvqcert -> Z -> xvqcert;
  set_clock : xvqcert -> Z -> xvqcert;
  set_nonce : xvqcert -> Z -> xvqcert;
  set_justify_cert_hash : xvqcert -> string -> xvqcert;
}.

Class XVBlock := {
  is_valid : xvblock -> bool -> bool;
  is_deliver : xvblock -> bool -> bool;
  is_input_ready : xvblock -> bool -> bool;
  is_output_ready : xvblock -> bool -> bool;
  check_block_flag : xvblock -> Z -> bool;
  set_block_flag : xvblock -> Z -> xvblock;
  reset_block_flags : xvblock -> xvblock;
  set_verify_signature : xvblock -> string -> xvblock;
  set_audit_signature : xvblock -> string -> xvblock;
  set_next_next_cert : xvblock -> xvqcert -> xvblock;
  set_input_resources : xvblock -> string -> option xvblock;   (* [None]: returns false *)
  set_output_resources : xvblock -> string -> option xvblock;
  merge_cert : xvblock -> xvqcert -> option xvblock;
  load_block_input : xvblock -> xvblock;        (* the block store's, filling in the block *)
  load_block_output : xvblock -> xvblock;
}.

Class XCertAuth := {
  get_signer : xvip2 -> string;
  do_sign : xvip2 -> xvqcert -> Z -> string;
  verify_sign_cert : xvip2 -> xvqcert -> string -> bool;
  verify_sign_block : xvip2 -> xvblock -> bool;
  verify_muti_sign_cert : xvqcert -> string -> bool;
  verify_muti_sign_block : xvblock -> bool;
  merge_muti_sign : list (xvip2 * string) -> xvblock -> string;
}.

(** The part of a block that identifies it: header and view. *)
Definition same_pos (b b' : xvblock) : Prop :=
  b_header b' = b_header b /\ get_viewid b' = get_viewid b.
(** Input and output objects are there ("it must be valid at all time, even a
    empty input", xvblock.h). *)
Definition has_body (b : xvblock) : Prop := b_input b <> None /\ b_output b <> None.
#[export] Instance has_body_dec b : Decision (has_body b).
Proof.
  unfold has_body. destruct (b_input b), (b_output b); (by left) || (right; naive_solver).
Defined.
(** ... and its link to its parent; it does not lose its input or output. *)
Definition same_id (b b' : xvblock) : Prop :=
  same_pos b b' /\ b_prev b' = b_prev b /\ (has_body b -> has_body b').

#[export] Instance same_pos_preorder : PreOrder same_pos.
Proof. split; [done|]. intros ? ? ? [? ?] [? ?]. split; congruence. Qed.
#[export] Instance same_id_preorder : PreOrder same_id.
Proof. split; [done|]. intros ? ? ? (? & ? & ?) (? & ? & ?). split_and!; [by etrans|congruence|auto]. Qed.

Lemma same_pos_height b b' : same_pos b b' -> get_height b' = get_height b.
Proof. intros [E _]. unfold get_height. by rewrite E. Qed.
Lemma same_pos_last b b' : same_pos b b' -> get_last_block_hash b' = get_last_block_hash b.
Proof. intros [E _]. unfold get_last_block_hash. by rewrite E. Qed.

(** What the headers document: setting a flag is visible to the test,
    keeps the flags already set and touches no other bit; signatures, flags and resources are not part
    of the header, of the view or of the link to the parent; the hash of a
    block is that of its certificate ("hash(vqcert_bin)"), of which its marks as
    locked or committed and the certificate after next are no part; [merge_cert] "do
    check first before merge" against the logically equal certificate. *)
Class XVBlockLaws `{XVCert} `{XVBlock} : Prop := {
  check_set_flag : forall b f, f <> 0 -> check_block_flag (set_block_flag b f) f = true;
  check_set_flag_mono : forall b f g,
    check_block_flag b g = true -> check_block_flag (set_block_flag b f) g = true;
  check_set_flag_other : forall b f g,
    Z.land f g = 0 -> check_block_flag (set_block_flag b f) g = check_block_flag b g;
  check_set_nnc : forall b c f, check_block_flag (set_next_next_cert b c) f = check_block_flag b f;
  set_flag_id : forall b f, same_id b (set_block_flag b f);
  set_nnc_id : forall b c, same_id b (set_next_next_cert b c);
  set_mark_hash : forall b f, f = enum_xvblock_flag_locked \/ f = enum_xvblock_flag_committed ->
    get_block_hash (set_block_flag b f) = get_block_hash b;
  set_nnc_hash : forall b c, get_block_hash (set_next_next_cert b c) = get_block_hash b;
  reset_flags_id : forall b, same_id b (reset_block_flags b);
  set_verify_id : forall b s, same_id b (set_verify_signature b s);
  set_audit_id : forall b s, same_id b (set_audit_signature b s);
  set_input_id : forall b s b', set_input_resources b s = Some b' -> same_id b b';
  set_output_id : forall b s b', set_output_resources b s = Some b' -> same_id b b';
  merge_cert_id : forall b c b', merge_cert b c = Some b' -> same_id b b';
  load_input_id : forall b, same_id b (load_block_input b);
  load_output_id : forall b, same_id b (load_block_output b);
  set_justify_viewid : forall c h, c_viewid (set_justify_cert_hash c h) = c_viewid c;
}.

Create HintDb ids.
#[export] Hint Resolve set_flag_id set_nnc_id reset_flags_id set_verify_id set_audit_id
  set_input_id set_output_id merge_cert_id load_input_id load_output_id : ids.

(** ** Packets *)

Record xcspdu := XCspdu {
  pdu_class : Z; pdu_msg_type : Z; pdu_nonce : Z; pdu_body : string;
  pdu_chainid : Z; pdu_account : string; pdu_height : Z; pdu_block_clock : Z;
  pdu_viewid : Z; pdu_viewtoken : Z;
  pdu_vblock_cert : string; pdu_xclock_cert : string
}.

(** ** The store of block objects and the node's environment

    Blocks are reached through pointers that several layers hold at once, so
    their contents live in one store.  [w_latest_*], [w_load] and [w_query] are
    the answers the block store gives at present; the environment may change
    them between steps. *)

Record world := World {
  w_blocks : gmap ptr xvblock;
  w_next : ptr;
  w_now : Z;                                  (* get_time_now() *)
  w_rand : Z;                                 (* xtime_utl::get_fast_random64() *)
  w_latest_locked : option ptr;               (* get_latest_locked_block(account) *)
  w_latest_cert : option ptr;                 (* get_latest_cert_block(account) *)
  w_load : Z -> option ptr;                   (* load_block_object(account, height) *)
  w_query : Z -> string -> option ptr;        (* query_block(account, height, hash) *)
  w_uninit : Z                                (* what an uninitialised 64-bit field holds *)
}.

Definition with_blocks (w : world) (m : gmap ptr xvblock) : world :=
  World m (w_next w) (w_now w) (w_rand w) (w_latest_locked w) (w_latest_cert w) (w_load w) (w_query w) (w_uninit w).
Definition world_alloc (w : world) (b : xvblock) : world * ptr :=
  (World (<[w_next w := b]> (w_blocks w)) (Pos.succ (w_next w)) (w_now w) (w_rand w)
     (w_latest_locked w) (w_latest_cert w) (w_load w) (w_query w) (w_uninit w), w_next w).

(** What a layer holds beside its own fields. *)
Record cstate (C E : Type) := CState {
  cs_world : world;
  cs_st : C;
  cs_out : list E;        (* events and packets fired, oldest first *)
  cs_self : xvip2;        (* get_xip2_addr() *)
  cs_parent : bool        (* get_parent_node() != NULL *)
}.
Arguments CState {C E} _ _ _ _ _.
Arguments cs_world {C E} _.
Arguments cs_st {C E} _.
Arguments cs_out {C E} _.
Arguments cs_self {C E} _.
Arguments cs_parent {C E} _.

Section Layer.
Context {C E : Type}.
Abbreviation P := (prog (cstate C E)).

Definition upd_world (f : world -> world) (s : cstate C E) : cstate C E :=
  CState (f (cs_world s)) (cs_st s) (cs_out s) (cs_self s) (cs_parent s).
Definition upd_st (f : C -> C) (s : cstate C E) : cstate C E :=
  CState (cs_world s) (f (cs_st s)) (cs_out s) (cs_self s) (cs_parent s).
Definition add_out (e : E) (s : cstate C E) : cstate C E :=
  CState (cs_world s) (cs_st s) (cs_out s ++ [e]) (cs_self s) (cs_parent s).

Definition block_at (p : ptr) (s : cstate C E) : option xvblock := w_blocks (cs_world s) !! p.

(** [*p] and [*p = b]. *)
Definition deref (p : ptr) : P xvblock :=
  fun s => match block_at p s with Some b => Some (b, s) | None => None end.
Definition store (p : ptr) (b : xvblock) : P unit :=
  modify (upd_world (fun w => with_blocks w (<[p := b]> (w_blocks w)))).
Definition update_block (p : ptr) (f : xvblock -> xvblock) : P unit :=
  let* b := deref p in store p (f b).
Definition alloc (b : xvblock) : P ptr :=
  fun s => let '(w, p) := world_alloc (cs_world s) b in
           Some (p, upd_world (fun _ => w) s).

Definition st_get {A} (f : C -> A) : P A := gets (fun s => f (cs_st s)).
Definition st_mod (f : C -> C) : P unit := modify (upd_st f).
Definition emit (e : E) : P unit := modify (add_out e).
(** [fire_*_event] and [fire_pdu_event_up]: only when attached to a parent. *)
Definition fire (e : E) : P unit :=
  fun s => if cs_parent s then emit e s else Some (tt, s).
End Layer.

(** The blocks a list of pointers refers to. *)
Definition allocated {C E} (s : cstate C E) (p : ptr) : Prop := is_Some (block_at p s).
