(* ===== verification/Pdu.v ===== *)
(** * Consensus messages and their wire format (xconspdu.h, xconspdu.cpp)

    The six messages of the xBFT engine with the fields [do_write] puts on
    the stream and [do_read] takes from it.  The envelope a message travels
    in ([xdataunit_t::serialize_to/from]) and the serialisation of blocks and
    certificates belong to the base library: operations of [XCodec]. *)

From stdpp Require Import prelude gmap strings.
From Stdlib Require Import ZArith Lia Ascii.
From S2P Require Import Prelude Stream StdMap VBlock.

(** ** Message types *)

Definition msg_type_view : Z := 1.
Definition msg_type_proposal : Z := 2.
Definition msg_type_vote : Z := 3.
Definition msg_type_commit : Z := 4.
Definition msg_type_sync_reqt : Z := 5.
Definition msg_type_sync_resp : Z := 6.
Definition msg_type_vote_report : Z := 7.

Definition enum_xsync_target_block_object : Z := 0x01.
Definition enum_xsync_target_block_input : Z := 0x02.
Definition enum_xsync_target_block_output : Z := 0x04.

(** ** Messages *)

Record xproposal_msg := XProposalMsg {
  pm_expired_ms : Z; pm_last_block_cert : string; pm_block_object : string;
  pm_input_proposal : string; pm_input_resource : string; pm_output_resource : string
}.
Record xvote_msg := XVoteMsg { vm_justify_source : string }.
Record xvote_report := XVoteReport {
  vr_error_code : Z; vr_error_detail : string;
  vr_cert_height : Z; vr_cert_viewid : Z; vr_cert_hash : string;
  vr_lock_height : Z; vr_lock_hash : string;
  vr_commit_height : Z; vr_commit_hash : string
}.
Record xcommit_msg := XCommitMsg {
  cm_error_code : Z; cm_proof_cert_height : Z; cm_error_reason : string;
  cm_proof_certificate : string; cm_commit_output : string
}.
Record xsync_request_msg := XSyncRequestMsg {
  sq_targets : Z; sq_reserved : Z; sq_cookie : Z; sq_height : Z; sq_hash : string
}.
Record xsync_respond_msg := XSyncRespondMsg {
  sr_targets : Z; sr_reserved : Z; sr_cookie : Z; sr_block_object : string;
  sr_input : string; sr_output : string
}.

(** ** [do_write] and [do_read] *)

Definition write_proposal (m : xproposal_msg) : string :=
  write_u16 (pm_expired_ms m) +:+ write_short_string (pm_last_block_cert m) +:+
  write_string (pm_block_object m) +:+ write_string (pm_input_proposal m) +:+
  write_string (pm_input_resource m) +:+ write_string (pm_output_resource m).
Definition read_proposal : reader xproposal_msg :=
  let* expired := read_u16 in
  let* cert := read_short_string in
  let* block := read_string in
  let* proposal := read_string in
  let* input := read_string in
  let* output := read_string in
  ret (XProposalMsg expired cert block proposal input output).

Definition write_vote (m : xvote_msg) : string := write_short_string (vm_justify_source m).
Definition read_vote : reader xvote_msg := let* s := read_short_string in ret (XVoteMsg s).

Definition write_report (m : xvote_report) : string :=
  write_i32 (vr_error_code m) +:+ write_tiny_string (vr_error_detail m) +:+
  write_u64 (vr_cert_height m) +:+ write_u64 (vr_cert_viewid m) +:+ write_tiny_string (vr_cert_hash m) +:+
  write_u64 (vr_lock_height m) +:+ write_tiny_string (vr_lock_hash m) +:+
  write_u64 (vr_commit_height m) +:+ write_tiny_string (vr_commit_hash m).
Definition read_report : reader xvote_report :=
  let* code := read_i32 in
  let* detail := read_tiny_string in
  let* ch := read_u64 in
  let* cv := read_u64 in
  let* chash := read_tiny_string in
  let* lh := read_u64 in
  let* lhash := read_tiny_string in
  let* mh := read_u64 in
  let* mhash := read_tiny_string in
  ret (XVoteReport code detail ch cv chash lh lhash mh mhash).

Definition write_commit (m : xcommit_msg) : string :=
  write_i32 (cm_error_code m) +:+ write_u64 (cm_proof_cert_height m) +:+
  write_tiny_string (cm_error_reason m) +:+ write_short_string (cm_proof_certificate m) +:+
  write_string (cm_commit_output m).
Definition read_commit : reader xcommit_msg :=
  let* code := read_i32 in
  let* height := read_u64 in
  let* reason := read_tiny_string in
  let* cert := read_short_string in
  let* output := read_string in
  ret (XCommitMsg code height reason cert output).

Definition write_sync_request (m : xsync_request_msg) : string :=
  write_u16 (sq_targets m) +:+ write_u16 (sq_reserved m) +:+ write_u32 (sq_cookie m) +:+
  write_u64 (sq_height m) +:+ write_tiny_string (sq_hash m).
Definition read_sync_request : reader xsync_request_msg :=
  let* targets := read_u16 in
  let* reserved := read_u16 in
  let* cookie := read_u32 in
  let* height := read_u64 in
  let* hash := read_tiny_string in
  ret (XSyncRequestMsg targets reserved cookie height hash).

Definition write_sync_respond (m : xsync_respond_msg) : string :=
  write_u16 (sr_targets m) +:+ write_u16 (sr_reserved m) +:+ write_u32 (sr_cookie m) +:+
  write_short_string (sr_block_object m) +:+ write_string (sr_input m) +:+ write_string (sr_output m).
Definition read_sync_respond : reader xsync_respond_msg :=
  let* targets := read_u16 in
  let* reserved := read_u16 in
  let* cookie := read_u32 in
  let* block := read_short_string in
  let* input := read_string in
  let* output := read_string in
  ret (XSyncRespondMsg targets reserved cookie block input output).

(** ** The base library's part *)

Class XCodec := {
  data_pack : string -> string;                 (* serialize_to: header and object *)
  data_unpack : string -> option string;        (* serialize_from; [None]: an error *)
  cert_to_string : xvqcert -> string;
  create_qcert_object : string -> option xvqcert;
  block_to_string : xvblock -> string;
  create_block_object : string -> option xvblock;
  cert_is_valid : xvqcert -> bool;
  xstring_tostring : Z -> string;               (* xstring_utl::tostring(uint64_t) *)
}.

(** [serialize_from] documents reading back what [serialize_to] wrote; a
    block made from bytes is not linked to a parent object. *)
Class XCodecLaws `{XCodec} : Prop := {
  unpack_pack : forall s, data_unpack (data_pack s) = Some s;
  create_block_unlinked : forall s b, create_block_object s = Some b -> b_prev b = None;
  create_block_body : forall s b, create_block_object s = Some b -> has_body b;
}.

Section Codec.
Context `{XCodec}.

(** [serialize_to_string] and [serialize_from_string]: [None] when no bytes
    are read or a field is missing. *)
Definition decode {A} (r : reader A) (s : string) : option A :=
  data_unpack s ≫= fun body => fst <$> r body.

Definition enc_proposal (m : xproposal_msg) : string := data_pack (write_proposal m).
Definition dec_proposal : string -> option xproposal_msg := decode read_proposal.
Definition enc_vote (m : xvote_msg) : string := data_pack (write_vote m).
Definition dec_vote : string -> option xvote_msg := decode read_vote.
Definition enc_vote_report (m : xvote_report) : string := data_pack (write_report m).
Definition dec_vote_report : string -> option xvote_report := decode read_report.
Definition enc_commit (m : xcommit_msg) : string := data_pack (write_commit m).
Definition dec_commit : string -> option xcommit_msg := decode read_commit.
Definition enc_sync_request (m : xsync_request_msg) : string := data_pack (write_sync_request m).
Definition dec_sync_request : string -> option xsync_request_msg := decode read_sync_request.
Definition enc_sync_respond (m : xsync_respond_msg) : string := data_pack (write_sync_respond m).
Definition dec_sync_respond : string -> option xsync_respond_msg := decode read_sync_respond.

(** ** Constructors *)

(** [xproposal_msg_t(proposal, last_block_cert)]; [set_expired_ms] takes 16
    bits.  [None]: the proposal has no input object, which is dereferenced. *)
Definition new_proposal_msg (proposal : xvblock) (last_block_cert : option xvqcert) (expired_ms : Z)
    : option xproposal_msg :=
  i ← b_input proposal;
  Some (XProposalMsg (u16 expired_ms)
    match last_block_cert with Some c => cert_to_string c | None => EmptyString end
    (block_to_string proposal) (in_proposal i) EmptyString EmptyString).

(** [xvote_msg_t(cert)]: empty unless the certificate is valid and signed. *)
Definition new_vote_msg (cert : xvqcert) : xvote_msg :=
  XVoteMsg (if cert_is_valid cert
            then if negb (bool_decide (c_verify_signature cert = EmptyString))
                    || negb (bool_decide (c_audit_signature cert = EmptyString))
                 then cert_to_string cert else EmptyString
            else EmptyString).

Definition new_vote_report (code : Z) (detail : string) : xvote_report :=
  XVoteReport code detail 0 0 EmptyString 0 EmptyString 0 EmptyString.
Definition set_latest_cert_block (b : option xvblock) (m : xvote_report) : xvote_report :=
  match b with
  | Some b => XVoteReport (vr_error_code m) (vr_error_detail m)
                (get_height b) (get_viewid b) (get_block_hash b)
                (vr_lock_height m) (vr_lock_hash m) (vr_commit_height m) (vr_commit_hash m)
  | None => m
  end.
Definition set_latest_lock_block (b : option xvblock) (m : xvote_report) : xvote_report :=
  match b with
  | Some b => XVoteReport (vr_error_code m) (vr_error_detail m)
                (vr_cert_height m) (vr_cert_viewid m) (vr_cert_hash m)
                (get_height b) (get_block_hash b) (vr_commit_height m) (vr_commit_hash m)
  | None => m
  end.
Definition set_latest_commit_block (b : option xvblock) (m : xvote_report) : xvote_report :=
  match b with
  | Some b => XVoteReport (vr_error_code m) (vr_error_detail m)
                (vr_cert_height m) (vr_cert_viewid m) (vr_cert_hash m)
                (vr_lock_height m) (vr_lock_hash m) (get_height b) (get_block_hash b)
  | None => m
  end.

(** [xcommit_msg_t(code)] with [set_proof_certificate(std::string(), height)]. *)
Definition new_commit_msg (code height : Z) : xcommit_msg :=
  XCommitMsg code height EmptyString EmptyString EmptyString.
Definition new_sync_request (targets cookie height : Z) (hash : string) : xsync_request_msg :=
  XSyncRequestMsg (u16 targets) 0 cookie height hash.
End Codec.

(** ** What arrives: every integer at its width, every string cut to the
    width of its length field *)

Definition cut_proposal (m : xproposal_msg) : xproposal_msg :=
  XProposalMsg (u16 (pm_expired_ms m)) (cut_str 2 (pm_last_block_cert m)) (cut_str 4 (pm_block_object m))
    (cut_str 4 (pm_input_proposal m)) (cut_str 4 (pm_input_resource m)) (cut_str 4 (pm_output_resource m)).
Definition cut_vote (m : xvote_msg) : xvote_msg := XVoteMsg (cut_str 2 (vm_justify_source m)).
Definition cut_report (m : xvote_report) : xvote_report :=
  XVoteReport (i32 (vr_error_code m)) (cut_str 1 (vr_error_detail m))
    (u64 (vr_cert_height m)) (u64 (vr_cert_viewid m)) (cut_str 1 (vr_cert_hash m))
    (u64 (vr_lock_height m)) (cut_str 1 (vr_lock_hash m)) (u64 (vr_commit_height m)) (cut_str 1 (vr_commit_hash m)).
Definition cut_commit (m : xcommit_msg) : xcommit_msg :=
  XCommitMsg (i32 (cm_error_code m)) (u64 (cm_proof_cert_height m)) (cut_str 1 (cm_error_reason m))
    (cut_str 2 (cm_proof_certificate m)) (cut_str 4 (cm_commit_output m)).
Definition cut_sync_request (m : xsync_request_msg) : xsync_request_msg :=
  XSyncRequestMsg (u16 (sq_targets m)) (u16 (sq_reserved m)) (u32 (sq_cookie m)) (u64 (sq_height m))
    (cut_str 1 (sq_hash m)).
Definition cut_sync_respond (m : xsync_respond_msg) : xsync_respond_msg :=
  XSyncRespondMsg (u16 (sr_targets m)) (u16 (sr_reserved m)) (u32 (sr_cookie m))
    (cut_str 2 (sr_block_object m)) (cut_str 4 (sr_input m)) (cut_str 4 (sr_output m)).

(** Step a reader over the field at the front of the stream. *)
Lemma read_i32_write x r : read_i32 (write_i32 x +:+ r) = Some (i32 x, r).
Proof.
  unfold read_i32, write_i32. rewrite (bind_runs _ _ _ _ _ (read_le_write 4 x r)).
  unfold ret. by rewrite <- (i32_mod x).
Qed.

Ltac read_fields :=
  rewrite ?append_assoc;
  repeat (first
    [ erewrite bind_runs by apply read_i32_write
    | erewrite bind_runs by apply read_str_write
    | erewrite bind_runs by apply read_le_write ]; cbv beta).

Lemma append_nil_r s : s +:+ EmptyString = s.
Proof. induction s as [|c s IH]; [done|]. by rewrite append_cons, IH. Qed.

(** The last field of a message has nothing behind it. *)
Ltac read_message r w :=
  rewrite <- (append_nil_r (w _)); unfold r, w; read_fields; reflexivity.

Lemma read_proposal_write m : read_proposal (write_proposal m) = Some (cut_proposal m, EmptyString).
Proof. read_message read_proposal write_proposal. Qed.
Lemma read_vote_write m : read_vote (write_vote m) = Some (cut_vote m, EmptyString).
Proof. read_message read_vote write_vote. Qed.
Lemma read_report_write m : read_report (write_report m) = Some (cut_report m, EmptyString).
Proof. read_message read_report write_report. Qed.
Lemma read_commit_write m : read_commit (write_commit m) = Some (cut_commit m, EmptyString).
Proof. read_message read_commit write_commit. Qed.
Lemma read_sync_request_write m : read_sync_request (write_sync_request m) = Some (cut_sync_request m, EmptyString).
Proof. read_message read_sync_request write_sync_request. Qed.
Lemma read_sync_respond_write m : read_sync_respond (write_sync_respond m) = Some (cut_sync_respond m, EmptyString).
Proof. read_message read_sync_respond write_sync_respond. Qed.

(** ** Properties *)

(** The messages whose integers and strings fit their fields. *)
Definition fits (w : nat) (s : string) : Prop := Z.of_nat (String.length s) < 2 ^ (8 * Z.of_nat w).
Definition is_i32 (x : Z) : Prop := - 2 ^ 31 <= x < 2 ^ 31.
Definition proposal_fits (m : xproposal_msg) : Prop :=
  0 <= pm_expired_ms m < 2 ^ 16 /\ fits 2 (pm_last_block_cert m) /\ fits 4 (pm_block_object m) /\
  fits 4 (pm_input_proposal m) /\ fits 4 (pm_input_resource m) /\ fits 4 (pm_output_resource m).
Definition report_fits (m : xvote_report) : Prop :=
  is_i32 (vr_error_code m) /\ fits 1 (vr_error_detail m) /\
  is_u64 (vr_cert_height m) /\ is_u64 (vr_cert_viewid m) /\ fits 1 (vr_cert_hash m) /\
  is_u64 (vr_lock_height m) /\ fits 1 (vr_lock_hash m) /\ is_u64 (vr_commit_height m) /\ fits 1 (vr_commit_hash m).
Definition commit_fits (m : xcommit_msg) : Prop :=
  is_i32 (cm_error_code m) /\ is_u64 (cm_proof_cert_height m) /\ fits 1 (cm_error_reason m) /\
  fits 2 (cm_proof_certificate m) /\ fits 4 (cm_commit_output m).
Definition sync_request_fits (m : xsync_request_msg) : Prop :=
  0 <= sq_targets m < 2 ^ 16 /\ 0 <= sq_reserved m < 2 ^ 16 /\ 0 <= sq_cookie m < 2 ^ 32 /\
  is_u64 (sq_height m) /\ fits 1 (sq_hash m).
Definition sync_respond_fits (m : xsync_respond_msg) : Prop :=
  0 <= sr_targets m < 2 ^ 16 /\ 0 <= sr_reserved m < 2 ^ 16 /\ 0 <= sr_cookie m < 2 ^ 32 /\
  fits 2 (sr_block_object m) /\ fits 4 (sr_input m) /\ fits 4 (sr_output m).

Lemma u16_small x : 0 <= x < 2 ^ 16 -> u16 x = x.
Proof. apply Z.mod_small. Qed.
Lemma u32_small x : 0 <= x < 2 ^ 32 -> u32 x = x.
Proof. apply Z.mod_small. Qed.

Create Rewrite HintDb fit.
#[export] Hint Rewrite u16_small u32_small u64_small i32_small cut_str_fits using done : fit.
Ltac fit m := destruct m; intros; unfold is_i32, fits in *; cbn in *; destruct_and?; f_equal; by autorewrite with fit.

Lemma cut_proposal_fits m : proposal_fits m -> cut_proposal m = m.
Proof. unfold proposal_fits, cut_proposal. fit m. Qed.
Lemma cut_report_fits m : report_fits m -> cut_report m = m.
Proof. unfold report_fits, cut_report. fit m. Qed.
Lemma cut_commit_fits m : commit_fits m -> cut_commit m = m.
Proof. unfold commit_fits, cut_commit. fit m. Qed.
Lemma cut_sync_request_fits m : sync_request_fits m -> cut_sync_request m = m.
Proof. unfold sync_request_fits, cut_sync_request. fit m. Qed.
Lemma cut_sync_respond_fits m : sync_respond_fits m -> cut_sync_respond m = m.
Proof. unfold sync_respond_fits, cut_sync_respond. fit m. Qed.

Lemma decode_pack `{XCodecLaws} {A} (r : reader A) s a rest :
  r s = Some (a, rest) -> decode r (data_pack s) = Some a.
Proof. intros E. unfold decode. rewrite unpack_pack. cbn. by rewrite E. Qed.

(** C15. Round trip of the wire format: every consensus message whose
    integers and strings fit their fields is read back, field for field, from
    the bytes [do_write] produced. *)
Theorem messages_roundtrip `{XCodecLaws}
    (p : xproposal_msg) (v : xvote_msg) (r : xvote_report) (c : xcommit_msg)
    (q : xsync_request_msg) (a : xsync_respond_msg)
    (Hp : proposal_fits p) (Hv : fits 2 (vm_justify_source v)) (Hr : report_fits r)
    (Hc : commit_fits c) (Hq : sync_request_fits q) (Ha : sync_respond_fits a) :
  dec_proposal (enc_proposal p) = Some p /\ dec_vote (enc_vote v) = Some v /\
  dec_vote_report (enc_vote_report r) = Some r /\ dec_commit (enc_commit c) = Some c /\
  dec_sync_request (enc_sync_request q) = Some q /\ dec_sync_respond (enc_sync_respond a) = Some a.
Proof.
  split_and!; eapply decode_pack.
  - rewrite read_proposal_write. by rewrite cut_proposal_fits.
  - rewrite read_vote_write. unfold cut_vote. rewrite cut_str_fits by done. by destruct v.
  - rewrite read_report_write. by rewrite cut_report_fits.
  - rewrite read_commit_write. by rewrite cut_commit_fits.
  - rewrite read_sync_request_write. by rewrite cut_sync_request_fits.
  - rewrite read_sync_respond_write. by rewrite cut_sync_respond_fits.
Qed.

(** A string that does not fit is cut silently: of an error detail of
    length [n], a report delivers only the first [n mod 256] bytes, so a
    detail of exactly 256 bytes arrives empty; every other field arrives. *)
Theorem report_detail_cut `{XCodecLaws} (r : xvote_report)
    (Hr : report_fits (XVoteReport (vr_error_code r) EmptyString (vr_cert_height r) (vr_cert_viewid r)
            (vr_cert_hash r) (vr_lock_height r) (vr_lock_hash r) (vr_commit_height r) (vr_commit_hash r))) :
  dec_vote_report (enc_vote_report r) =
    Some (XVoteReport (vr_error_code r)
      (str_take (String.length (vr_error_detail r) mod 256) (vr_error_detail r))
      (vr_cert_height r) (vr_cert_viewid r) (vr_cert_hash r) (vr_lock_height r) (vr_lock_hash r)
      (vr_commit_height r) (vr_commit_hash r)).
Proof.
  eapply decode_pack. rewrite read_report_write.
  f_equal. f_equal. pose proof (cut_report_fits _ Hr) as Hc. destruct r; unfold cut_report in *; cbn in *.
  injection Hc as -> -> -> -> -> -> -> ->. f_equal.
  unfold cut_str, cut_size. do 2 f_equal.
  change (2 ^ (8 * Z.of_nat 1)) with (Z.of_nat 256). rewrite <- Nat2Z.inj_mod. apply Nat2Z.id.
Qed.
