(* ===== verification/Concrete.v ===== *)
(** * A concrete base library

    One executable implementation of the operations the development takes as
    arguments.  It is used only to evaluate the model on concrete inputs: it
    shows that the laws assumed of the base library can hold and that the
    hypotheses of the theorems are met by real executions. *)

From stdpp Require Import prelude gmap strings pretty.
From Stdlib Require Import ZArith Lia.
From S2P Require Import Prelude Stream StdMap VBlock Pdu.

Module Demo.

Definition same_group (a : xvip2) (low : Z) : bool :=
  Z.shiftr (low_addr a) 10 =? Z.shiftr low 10.
Definition upd_cert (c : xvqcert) (nonce clock viewid : Z) (justify : string) : xvqcert :=
  XVQCert nonce clock viewid (c_viewtoken c) (c_validator c) (c_auditor c) (c_header_hash c)
    (c_output_root_hash c) justify (c_verify_signature c) (c_audit_signature c) (c_flags c).
Definition upd_sigs (c : xvqcert) (v a : string) : xvqcert :=
  XVQCert (c_nonce c) (c_clock c) (c_viewid c) (c_viewtoken c) (c_validator c) (c_auditor c)
    (c_header_hash c) (c_output_root_hash c) (c_justify_cert_hash c) v a (c_flags c).
Definition upd_block (b : xvblock) (c : xvqcert) (hash : string) (flags : Z) : xvblock :=
  MkBlock (b_header b) c hash flags (b_prev b) (b_next_next_cert b)
    (b_input b) (b_output b).

#[export] Instance demo_cert : XVCert := {
  cert_is_deliver c := negb (bool_decide (c_verify_signature c = EmptyString));
  cert_is_equal c d := (c_viewid c =? c_viewid d) && (c_viewtoken c =? c_viewtoken d)
                       && bool_decide (c_header_hash c = c_header_hash d);
  is_validator c low := same_group (c_validator c) low;
  is_auditor c low := same_group (c_auditor c) low;
  is_validator2 c a := same_group (c_validator c) (low_addr a);
  is_auditor2 c a := same_group (c_auditor c) (low_addr a);
  get_validator_threshold _ := 2;
  get_auditor_threshold _ := 0;
  cert_hash _ s := s;
  build_block_hash c := c_header_hash c;
  cert_reset_block_flags c := with_cert_flags c 0;
  set_viewid c v := upd_cert c (c_nonce c) (c_clock c) v (c_justify_cert_hash c);
  set_clock c v := upd_cert c (c_nonce c) v (c_viewid c) (c_justify_cert_hash c);
  set_nonce c v := upd_cert c v (c_clock c) (c_viewid c) (c_justify_cert_hash c);
  set_justify_cert_hash c h := upd_cert c (c_nonce c) (c_clock c) (c_viewid c) h;
}.

#[export] Instance demo_block : XVBlock := {
  is_valid _ _ := true;
  is_deliver b _ := check_unit_flag (b_flags b) enum_xvblock_flag_authenticated;
  is_input_ready _ _ := true;
  is_output_ready _ _ := true;
  check_block_flag b f := check_unit_flag (b_flags b) f;
  set_block_flag b f :=
    upd_block b (b_cert b) (if f =? enum_xvblock_flag_authenticated then c_header_hash (b_cert b) else b_cert_hash b)
      (Z.lor (b_flags b) f);
  reset_block_flags b := upd_block b (with_cert_flags (b_cert b) 0) (b_cert_hash b) 0;
  set_verify_signature b s := upd_block b (upd_sigs (b_cert b) s (c_audit_signature (b_cert b))) (b_cert_hash b) (b_flags b);
  set_audit_signature b s := upd_block b (upd_sigs (b_cert b) (c_verify_signature (b_cert b)) s) (b_cert_hash b) (b_flags b);
  set_next_next_cert b c :=
    MkBlock (b_header b) (b_cert b) (b_cert_hash b) (b_flags b) (b_prev b) (Some c)
      (b_input b) (b_output b);
  set_input_resources b s := Some b;
  set_output_resources b s := Some b;
  merge_cert b c := if c_viewid c =? c_viewid (b_cert b)
                    then Some (upd_block b c (c_header_hash c) (b_flags b)) else None;
  load_block_input b := b;
  load_block_output b := b;
}.

#[export] Instance demo_auth : XCertAuth := {
  get_signer a := pretty (low_addr a);
  do_sign a c r := String.append "sig" (pretty (low_addr a));
  verify_sign_cert _ _ _ := true;
  verify_sign_block _ _ := true;
  verify_muti_sign_cert _ _ := true;
  verify_muti_sign_block _ := true;
  merge_muti_sign _ _ := "merged"%string;
}.

(** A block of account "T1" with the given height, view and links. *)
Definition mk_cert (view : Z) (hash justify : string) : xvqcert :=
  XVQCert 0 10 view 7 (Xvip2 0x1401 0) (Xvip2 0 0) hash "root" justify "sig" "" 0.
Definition mk_block (height view : Z) (hash last justify : string) (flags : Z) : xvblock :=
  MkBlock (XVHeader level_unit 1 height "T1" last) (mk_cert view hash justify) hash flags
    None None (Some (XVInput "" "")) (Some (XVOutput "")).

(** A codec that reads objects from a table of known strings. *)
Definition demo_codec (cert_of : string -> option xvqcert) (block_of : string -> option xvblock) : XCodec := {|
  data_pack s := s;
  data_unpack s := Some s;
  cert_to_string c := c_header_hash c;
  create_qcert_object := cert_of;
  block_to_string b := c_header_hash (b_cert b);
  create_block_object := block_of;
  cert_is_valid _ := true;
  xstring_tostring z := pretty z;
|}.

Lemma demo_codec_laws cert_of block_of :
  (forall s b, block_of s = Some b -> b_prev b = None /\ has_body b) -> @XCodecLaws (demo_codec cert_of block_of).
Proof. intros Hb. split; [done|..]; intros s b E; apply (Hb s b E). Qed.

Lemma check_lor flags f : f <> 0 -> check_unit_flag (Z.lor flags f) f = true.
Proof.
  intros Hf. unfold check_unit_flag. apply negb_true_iff, Z.eqb_neq.
  rewrite Z.land_lor_distr_l, Z.land_diag. intros E. apply Z.lor_eq_0_iff in E. lia.
Qed.

Lemma check_lor_mono flags f g :
  check_unit_flag flags g = true -> check_unit_flag (Z.lor flags f) g = true.
Proof.
  unfold check_unit_flag. rewrite !negb_true_iff, !Z.eqb_neq, Z.land_lor_distr_l.
  intros H E. apply Z.lor_eq_0_iff in E. lia.
Qed.

Lemma check_lor_other flags f g :
  Z.land f g = 0 -> check_unit_flag (Z.lor flags f) g = check_unit_flag flags g.
Proof. intros E. unfold check_unit_flag. by rewrite Z.land_lor_distr_l, E, Z.lor_0_r. Qed.

#[export] Instance demo_block_laws : XVBlockLaws.
Proof.
  split; intros; try done; cbn in *;
    [by apply check_lor | by apply check_lor_mono | by apply check_lor_other
    | by match goal with H : _ \/ _ |- _ => destruct H as [-> | ->] end | by simplify_eq..|].
  destruct (Z.eqb_spec (c_viewid c) (c_viewid (b_cert b))); by simplify_eq.
Qed.

End Demo.
