(* ===== verification/Proposal.v ===== *)
(** * Proposals and the collection of votes ([xproposal_t], xconsengine)

    A proposal wraps the block under vote and counts the votes of validators
    and auditors.  The theorems: no node account is counted twice and no
    signature is accepted twice, the two counters are the sizes of the vote
    maps, and a finished vote means that many distinct accounts signed. *)

From stdpp Require Import prelude gmap strings.
From Stdlib Require Import ZArith Lia.
From S2P Require Import Prelude StdMap VBlock Concrete.

Definition enum_xconsensus_error_fail : Z := -1.

Record xproposal := XProposal {
  p_block : ptr;                                  (* xvbnode_t::m_block *)
  p_last_block_cert : option xvqcert;
  p_bind_clock_cert : option xvqcert;
  p_expired_ms : Z;
  p_is_leader : bool;
  p_is_voted : bool;
  p_result : Z;                                   (* m_result_verify_proposal *)
  p_validators_count : Z;                         (* atomic<int32_t> *)
  p_auditors_count : Z;
  p_all_votors : list string;
  p_all_voted_cert : list string;
  p_voted_validators : list (xvip2 * string);
  p_voted_auditors : list (xvip2 * string)
}.

(** Both constructors: a block and, when known, its parent's certificate. *)
Definition new_proposal (block : ptr) (parent_cert : option xvqcert) : xproposal :=
  XProposal block parent_cert None (u64 (-1)) false false enum_xconsensus_error_fail
    0 0 [] [] [] [].

(** The copy constructor; [m_all_votors] is not in its list. *)
Definition copy_proposal (p : xproposal) : xproposal :=
  XProposal (p_block p) (p_last_block_cert p) (p_bind_clock_cert p) (p_expired_ms p)
    (p_is_leader p) (p_is_voted p) (p_result p) (p_validators_count p) (p_auditors_count p)
    [] (p_all_voted_cert p) (p_voted_validators p) (p_voted_auditors p).

Definition with_flags (p : xproposal) (leader voted : bool) (result : Z) : xproposal :=
  XProposal (p_block p) (p_last_block_cert p) (p_bind_clock_cert p) (p_expired_ms p)
    leader voted result (p_validators_count p) (p_auditors_count p)
    (p_all_votors p) (p_all_voted_cert p) (p_voted_validators p) (p_voted_auditors p).
Definition mark_leader (p : xproposal) : xproposal := with_flags p true (p_is_voted p) (p_result p).
Definition mark_voted (p : xproposal) : xproposal := with_flags p (p_is_leader p) true (p_result p).
Definition set_result_of_verify_proposal (p : xproposal) (r : Z) : xproposal :=
  with_flags p (p_is_leader p) (p_is_voted p) r.
Definition set_expired_ms (p : xproposal) (t : Z) : xproposal :=
  XProposal (p_block p) (p_last_block_cert p) (p_bind_clock_cert p) t
    (p_is_leader p) (p_is_voted p) (p_result p) (p_validators_count p) (p_auditors_count p)
    (p_all_votors p) (p_all_voted_cert p) (p_voted_validators p) (p_voted_auditors p).
Definition set_bind_clock_cert (p : xproposal) (c : option xvqcert) : xproposal :=
  XProposal (p_block p) (p_last_block_cert p) c (p_expired_ms p)
    (p_is_leader p) (p_is_voted p) (p_result p) (p_validators_count p) (p_auditors_count p)
    (p_all_votors p) (p_all_voted_cert p) (p_voted_validators p) (p_voted_auditors p).

(** [xproposal_t::is_valid_packet]: the packet is about this block. *)
Definition is_valid_packet (b : xvblock) (packet : xcspdu) : bool :=
  negb (negb (get_height b =? pdu_height packet)
        || negb (get_chainid b =? pdu_chainid packet)
        || negb (get_viewid b =? pdu_viewid packet)
        || negb (get_viewtoken b =? pdu_viewtoken packet)
        || negb (bool_decide (get_account b = pdu_account packet))).

Section Votes.
Context `{XVCert} `{XCertAuth}.
(** [get_cert()]: the certificate of the block under vote. *)
Variable cert : xvqcert.

Definition is_validators_finish_vote (p : xproposal) : bool :=
  i32 (get_validator_threshold cert) <=? p_validators_count p.
Definition is_auditors_finish_vote (p : xproposal) : bool :=
  i32 (get_auditor_threshold cert) <=? p_auditors_count p.
Definition is_vote_finish (p : xproposal) : bool :=
  is_validators_finish_vote p && is_auditors_finish_vote p.

Definition with_votes (p : xproposal) (nv na : Z) (votors certs : list string)
    (vv va : list (xvip2 * string)) : xproposal :=
  XProposal (p_block p) (p_last_block_cert p) (p_bind_clock_cert p) (p_expired_ms p)
    (p_is_leader p) (p_is_voted p) (p_result p) nv na votors certs vv va.

Definition add_voted_cert (p : xproposal) (voter : xvip2) (qcert : option xvqcert)
    : xproposal * bool :=
  match qcert with
  | None => (p, false)
  | Some q =>
      if is_xip2_empty voter then (p, false)
      else
        let account := get_signer voter in
        if bool_decide (account = EmptyString) then (p, false)
        else if set_mem account (p_all_votors p) then (p, false)
        else if is_validator2 cert voter then
          let '(certs, fresh) := set_emplace (c_verify_signature q) (p_all_voted_cert p) in
          if fresh then
            let '(vv, inserted) := map_emplace voter (c_verify_signature q) (p_voted_validators p) in
            if inserted
            then (with_votes p (i32 (p_validators_count p + 1)) (p_auditors_count p)
                    (set_emplace account (p_all_votors p)).1 certs vv (p_voted_auditors p), true)
            else (with_votes p (p_validators_count p) (p_auditors_count p)
                    (p_all_votors p) certs (p_voted_validators p) (p_voted_auditors p), false)
          else (p, false)
        else if is_auditor2 cert voter then
          let '(certs, fresh) := set_emplace (c_audit_signature q) (p_all_voted_cert p) in
          if fresh then
            let '(va, inserted) := map_emplace voter (c_audit_signature q) (p_voted_auditors p) in
            if inserted
            then (with_votes p (p_validators_count p) (i32 (p_auditors_count p + 1))
                    (set_emplace account (p_all_votors p)).1 certs (p_voted_validators p) va, true)
            else (with_votes p (p_validators_count p) (p_auditors_count p)
                    (p_all_votors p) certs (p_voted_validators p) (p_voted_auditors p), false)
          else (p, false)
        else (p, false)
  end.

(** ** The invariant of the vote collection *)

Definition votes (p : xproposal) : list (xvip2 * string) :=
  p_voted_validators p ++ p_voted_auditors p.

Record votes_ok (p : xproposal) : Prop := {
  vo_validators : p_validators_count p = i32 (Z.of_nat (length (p_voted_validators p)));
  vo_auditors : p_auditors_count p = i32 (Z.of_nat (length (p_voted_auditors p)));
  vo_accounts : ((fun e => get_signer e.1) <$> votes p) ≡ₚ p_all_votors p;
  vo_nodup : NoDup (p_all_votors p);
  vo_sigs : NoDup (snd <$> votes p);
  vo_sigs_in : forall e, e ∈ votes p -> e.2 ∈ p_all_voted_cert p;
  vo_roles : Forall (fun e => is_validator2 cert e.1 = true) (p_voted_validators p) /\
             Forall (fun e => is_auditor2 cert e.1 = true) (p_voted_auditors p);
}.

Lemma new_proposal_votes_ok b c : votes_ok (new_proposal b c).
Proof.
  split; cbn; try done; try constructor; try constructor. by intros e ?%elem_of_nil.
Qed.

(** Inserting a fresh key adds exactly that entry. *)
Lemma map_set_perm k (v : string) (m : list (xvip2 * string)) :
  map_find k m = None -> map_set k v m ≡ₚ (k, v) :: m.
Proof.
  induction m as [|[k0 v0] m IH]; cbn; [done|].
  destruct (decide (k = k0)); [done|]. intros Hf.
  destruct (xvip2_ltb k k0); [done|]. rewrite IH by done. apply Permutation_swap.
Qed.

Lemma length_map_set k (v : string) (m : list (xvip2 * string)) :
  map_find k m = None -> length (map_set k v m) = S (length m).
Proof. intros Hf. by rewrite (Permutation_length (map_set_perm _ _ _ Hf)). Qed.

Lemma i32_succ n : i32 (i32 (Z.of_nat n) + 1) = i32 (Z.of_nat (S n)).
Proof.
  unfold i32. rewrite Nat2Z.inj_succ.
  replace ((Z.of_nat n + 2 ^ 31) mod 2 ^ 32 - 2 ^ 31 + 1 + 2 ^ 31)
    with ((Z.of_nat n + 2 ^ 31) mod 2 ^ 32 + 1) by lia.
  rewrite Zplus_mod_idemp_l. f_equal. f_equal. lia.
Qed.

(** What one call can do: refuse (at most remembering the signature),
    accept a validator's vote, or accept an auditor's vote. *)
Inductive vote_effect (p : xproposal) (voter : xvip2) : xproposal * bool -> Prop :=
| vote_refused certs :
    p_all_voted_cert p ⊆ certs ->
    vote_effect p voter
      (with_votes p (p_validators_count p) (p_auditors_count p) (p_all_votors p) certs
         (p_voted_validators p) (p_voted_auditors p), false)
| vote_validator sig :
    is_validator2 cert voter = true ->
    get_signer voter ∉ p_all_votors p -> sig ∉ p_all_voted_cert p ->
    map_find voter (p_voted_validators p) = None ->
    vote_effect p voter
      (with_votes p (i32 (p_validators_count p + 1)) (p_auditors_count p)
         (get_signer voter :: p_all_votors p) (sig :: p_all_voted_cert p)
         (map_set voter sig (p_voted_validators p)) (p_voted_auditors p), true)
| vote_auditor sig :
    is_auditor2 cert voter = true ->
    get_signer voter ∉ p_all_votors p -> sig ∉ p_all_voted_cert p ->
    map_find voter (p_voted_auditors p) = None ->
    vote_effect p voter
      (with_votes p (p_validators_count p) (i32 (p_auditors_count p + 1))
         (get_signer voter :: p_all_votors p) (sig :: p_all_voted_cert p)
         (p_voted_validators p) (map_set voter sig (p_voted_auditors p)), true).

Lemma refused_same p voter : vote_effect p voter (p, false).
Proof. destruct p. by apply (vote_refused (XProposal _ _ _ _ _ _ _ _ _ _ _ _ _)). Qed.
#[local] Hint Resolve refused_same : core.

Lemma add_voted_cert_effect p voter q : vote_effect p voter (add_voted_cert p voter q).
Proof.
  unfold add_voted_cert, set_emplace, map_emplace. destruct q as [q|]; [|done].
  destruct (is_xip2_empty voter); [done|].
  destruct (bool_decide _); [done|].
  destruct (set_mem_spec (get_signer voter) (p_all_votors p)) as [|Hacc]; [done|].
  destruct (is_validator2 cert voter) eqn:Hv; [|destruct (is_auditor2 cert voter) eqn:Ha; [|done]].
  - destruct (set_mem_spec (c_verify_signature q) (p_all_voted_cert p)) as [|Hs]; [done|].
    destruct (map_find _ _) eqn:Hf; [apply vote_refused; set_solver|].
    by apply vote_validator.
  - destruct (set_mem_spec (c_audit_signature q) (p_all_voted_cert p)) as [|Hs]; [done|].
    destruct (map_find _ _) eqn:Hf; [apply vote_refused; set_solver|].
    by apply vote_auditor.
Qed.

(** The two accepting cases share this step of the invariant. *)
Lemma votes_ok_accept p p' voter sig :
  votes_ok p -> get_signer voter ∉ p_all_votors p -> sig ∉ p_all_voted_cert p ->
  votes p' ≡ₚ (voter, sig) :: votes p ->
  p_all_votors p' = get_signer voter :: p_all_votors p ->
  p_all_voted_cert p' = sig :: p_all_voted_cert p ->
  p_validators_count p' = i32 (Z.of_nat (length (p_voted_validators p'))) ->
  p_auditors_count p' = i32 (Z.of_nat (length (p_voted_auditors p'))) ->
  Forall (fun e => is_validator2 cert e.1 = true) (p_voted_validators p') ->
  Forall (fun e => is_auditor2 cert e.1 = true) (p_voted_auditors p') ->
  votes_ok p'.
Proof.
  intros [? ? Hac Hnd Hsg Hin ?] Hnv Hns Hp Hv Hc ? ? ? ?. split; try done.
  - rewrite Hp, Hv. cbn. by rewrite Hac.
  - rewrite Hv. by constructor.
  - rewrite Hp. cbn. constructor; [|done].
    intros (e & -> & He)%list_elem_of_fmap. by apply Hns, Hin.
  - intros e. rewrite Hp, Hc. intros [->|He]%elem_of_cons; [by left|]. right. auto.
Qed.

(** A vote accepted or refused leaves the collection consistent. *)
Lemma add_voted_cert_ok p voter q :
  votes_ok p -> votes_ok (add_voted_cert p voter q).1.
Proof.
  intros Hok. pose proof Hok as [Hvc Hac ? ? ? Hin [Hrv Hra]].
  destruct (add_voted_cert_effect p voter q) as [certs Hsub|sig Hr Hacc Hs Hf|sig Hr Hacc Hs Hf]; cbn.
  - split; cbn; try done. intros e He. apply Hsub, Hin, He.
  - eapply (votes_ok_accept _ _ voter sig); cbn; try done; unfold votes; cbn.
    + by rewrite map_set_perm.
    + by rewrite Hvc, i32_succ, length_map_set.
    + rewrite map_set_perm by done. by constructor.
  - eapply (votes_ok_accept _ _ voter sig); cbn; try done; unfold votes; cbn.
    + by rewrite map_set_perm, Permutation_middle.
    + by rewrite Hac, i32_succ, length_map_set.
    + rewrite map_set_perm by done. by constructor.
Qed.

(** The part of the invariant that does not depend on the certificate under
    vote: the counters count the votes, and as many different accounts are
    recorded as there are votes. *)
Record votes_wf (p : xproposal) : Prop := {
  wf_validators : p_validators_count p = i32 (Z.of_nat (length (p_voted_validators p)));
  wf_auditors : p_auditors_count p = i32 (Z.of_nat (length (p_voted_auditors p)));
  wf_size : length (p_all_votors p) = length (votes p);
  wf_nodup : NoDup (p_all_votors p);
}.
Lemma new_proposal_wf b c : votes_wf (new_proposal b c).
Proof. split; try done. constructor. Qed.
Lemma add_voted_cert_wf p voter q : votes_wf p -> votes_wf (add_voted_cert p voter q).1.
Proof.
  intros [Hvc Hac Hs Hnd]. unfold votes in *. rewrite length_app in Hs.
  destruct (add_voted_cert_effect p voter q) as [certs Hsub|sig Hr Hacc Hsg Hf|sig Hr Hacc Hsg Hf];
    split; unfold votes; cbn; rewrite ?Hvc, ?Hac, ?i32_succ, ?length_app, ?length_map_set by done; try done; try lia;
    by constructor.
Qed.

(** A finished vote has as many different accounts behind it as the
    thresholds ask for; the wrap-around of the counters only makes it later. *)
Lemma i32_le x : 0 <= x -> i32 x <= x.
Proof. intros Hx. unfold i32. pose proof (Z.mod_le (x + 2 ^ 31) (2 ^ 32)). lia. Qed.
Lemma finished_quorum p :
  votes_wf p -> is_vote_finish p = true ->
  i32 (get_validator_threshold cert) + i32 (get_auditor_threshold cert) <= Z.of_nat (length (p_all_votors p)).
Proof.
  intros [Hvc Hac Hs _] Hf. unfold is_vote_finish, is_validators_finish_vote, is_auditors_finish_vote in Hf. guards.
  rewrite Hs. unfold votes. rewrite length_app.
  pose proof (i32_le (Z.of_nat (length (p_voted_validators p)))). pose proof (i32_le (Z.of_nat (length (p_voted_auditors p)))). lia.
Qed.

(** All the votes a proposal receives in its life. *)
Fixpoint collect (p : xproposal) (l : list (xvip2 * option xvqcert)) : xproposal :=
  match l with
  | [] => p
  | (voter, q) :: l' => collect (add_voted_cert p voter q).1 l'
  end.

Lemma collect_ok l p : votes_ok p -> votes_ok (collect p l).
Proof.
  revert p. induction l as [|[voter q] l IH]; intros p Hp; [done|].
  cbn. by apply IH, add_voted_cert_ok.
Qed.

Lemma collect_length l p : (length (votes (collect p l)) <= length (votes p) + length l)%nat.
Proof.
  revert p. induction l as [|[voter q] l IH]; intros p; cbn; [lia|].
  etrans; [apply IH|].
  destruct (add_voted_cert_effect p voter q) as [| | ]; cbn; unfold votes; cbn;
    rewrite ?length_app, ?length_map_set by done; lia.
Qed.

(** Where a recorded vote comes from. *)
Lemma emplace_origin voter (sig : string) (m : list (xvip2 * string)) e :
  e ∈ (map_emplace voter sig m).1 -> e ∈ m \/ e = (voter, sig).
Proof.
  unfold map_emplace. destruct (map_find voter m) eqn:Hf; cbn; [by left|].
  rewrite map_set_perm by done. intros [->|He]%elem_of_cons; [by right|by left].
Qed.
Lemma add_voted_cert_origin p voter q e :
  (e ∈ p_voted_validators (add_voted_cert p voter q).1 ->
     e ∈ p_voted_validators p \/ exists c, q = Some c /\ e = (voter, c_verify_signature c)) /\
  (e ∈ p_voted_auditors (add_voted_cert p voter q).1 ->
     e ∈ p_voted_auditors p \/ exists c, q = Some c /\ e = (voter, c_audit_signature c)).
Proof.
  unfold add_voted_cert. destruct q as [c|]; [|cbn; tauto].
  pose proof (emplace_origin voter (c_verify_signature c) (p_voted_validators p) e) as Hv.
  pose proof (emplace_origin voter (c_audit_signature c) (p_voted_auditors p) e) as Ha.
  destruct (map_emplace voter (c_verify_signature c) _) as [vv iv], (map_emplace voter (c_audit_signature c) _) as [va ia].
  repeat (case_match; cbn in *; try tauto); simplify_eq; cbn in *; naive_solver.
Qed.
Lemma collect_origin l p e :
  (e ∈ p_voted_validators (collect p l) ->
     e ∈ p_voted_validators p \/ exists c, (e.1, Some c) ∈ l /\ e.2 = c_verify_signature c) /\
  (e ∈ p_voted_auditors (collect p l) ->
     e ∈ p_voted_auditors p \/ exists c, (e.1, Some c) ∈ l /\ e.2 = c_audit_signature c).
Proof.
  revert p. induction l as [|[voter q] l IH]; intros p; cbn [collect]; [tauto|].
  destruct (IH (add_voted_cert p voter q).1) as [IHv IHa].
  destruct (add_voted_cert_origin p voter q e) as [Hv Ha]. split; intros He.
  - destruct (IHv He) as [Hp|(c & Hin & Es)]; [|right; exists c; split; [by right|done]].
    destruct (Hv Hp) as [?|(c & -> & ->)]; [by left|right]. exists c. split; [by left|done].
  - destruct (IHa He) as [Hp|(c & Hin & Es)]; [|right; exists c; split; [by right|done]].
    destruct (Ha Hp) as [?|(c & -> & ->)]; [by left|right]. exists c. split; [by left|done].
Qed.
End Votes.

(** C13. A finished vote means enough different node accounts signed, role by
    role: for any votes delivered to a new proposal in any order (fewer than
    2^31, and thresholds below 2^31), once [is_vote_finish] answers true there
    are at least as many votes of validators as the validator threshold and at
    least as many of auditors as the auditor threshold, each of them among the
    votes delivered, from an address the certificate accepts in that role and
    with that role's signature; all of them, over both roles, are of different
    accounts and carry different signatures. *)
Theorem vote_finish_quorum `{XVCert} `{XCertAuth} (cert : xvqcert) (b : ptr) (pc : option xvqcert)
    (l : list (xvip2 * option xvqcert)) (p : xproposal)
    (Hp : p = collect cert (new_proposal b pc) l)
    (Hv : 0 <= get_validator_threshold cert < 2 ^ 31)
    (Ha : 0 <= get_auditor_threshold cert < 2 ^ 31)
    (Hl : Z.of_nat (length l) < 2 ^ 31)
    (Hfin : is_vote_finish cert p = true) :
  exists validators auditors : list (xvip2 * string),
    get_validator_threshold cert <= Z.of_nat (length validators) /\
    get_auditor_threshold cert <= Z.of_nat (length auditors) /\
    (forall e, e ∈ validators ->
       is_validator2 cert e.1 = true /\ exists q, (e.1, Some q) ∈ l /\ e.2 = c_verify_signature q) /\
    (forall e, e ∈ auditors ->
       is_auditor2 cert e.1 = true /\ exists q, (e.1, Some q) ∈ l /\ e.2 = c_audit_signature q) /\
    NoDup ((fun e => get_signer e.1) <$> validators ++ auditors) /\
    NoDup (snd <$> validators ++ auditors).
Proof.
  pose proof (collect_ok cert l _ (new_proposal_votes_ok cert b pc)) as Hok.
  pose proof (collect_length cert l (new_proposal b pc)) as Hlen.
  pose proof (fun e => collect_origin cert l (new_proposal b pc) e) as Ho. rewrite <- Hp in Hok, Hlen, Ho.
  destruct Hok as [Hvc Hac Hacc Hnd Hsg _ [Hrv Hra]].
  unfold is_vote_finish, is_validators_finish_vote, is_auditors_finish_vote in Hfin. guards.
  unfold votes in *. cbn in Hlen. rewrite length_app in Hlen.
  rewrite Hvc, Hac, !i32_small in Hfin by lia.
  rewrite Forall_forall in Hrv, Hra.
  exists (p_voted_validators p), (p_voted_auditors p). split_and!; [lia|lia| | |by rewrite Hacc|done].
  - intros e He. split; [by apply Hrv|]. by destruct (proj1 (Ho e) He) as [?%elem_of_nil|].
  - intros e He. split; [by apply Hra|]. by destruct (proj2 (Ho e) He) as [?%elem_of_nil|].
Qed.

(** The copy constructor loses the record of who voted: an account whose
    vote a proposal already counted is refused by that proposal, but the copy
    accepts another vote of the same account (from a second address of the
    node, with a second signature) and counts it. *)
Theorem copy_proposal_double_count `{XVCert} `{XCertAuth} (cert q : xvqcert) (p : xproposal) (voter : xvip2)
    (Hvoted : get_signer voter ∈ p_all_votors p)
    (Hne : is_xip2_empty voter = false /\ get_signer voter <> EmptyString)
    (Hrole : is_validator2 cert voter = true)
    (Hnew : (c_verify_signature q ∉ p_all_voted_cert p) /\ map_find voter (p_voted_validators p) = None) :
  add_voted_cert cert p voter (Some q) = (p, false) /\
  (add_voted_cert cert (copy_proposal p) voter (Some q)).2 = true /\
  p_validators_count (add_voted_cert cert (copy_proposal p) voter (Some q)).1
    = i32 (p_validators_count p + 1).
Proof.
  destruct Hne as [He Ha], Hnew as [Hs Hf].
  unfold add_voted_cert, set_emplace, map_emplace. cbn. rewrite He, Hrole.
  rewrite bool_decide_eq_false_2 by done.
  destruct (set_mem_spec (get_signer voter) (p_all_votors p)); [|done].
  destruct (set_mem_spec (c_verify_signature q) (p_all_voted_cert p)); [done|].
  by rewrite Hf.
Qed.

Module ProposalWitness.
Import Concrete.Demo.

(** The leader 0x1401 and the replica 0x1402 sign; two votes reach the threshold. *)
Definition cert0 : xvqcert := mk_cert 5 "h5" "h3".
Definition signed (s : string) : xvqcert := upd_sigs cert0 s "".
Definition votes0 : list (xvip2 * option xvqcert) :=
  [(Xvip2 0x1401 0, Some (signed "a")); (Xvip2 0x1402 0, Some (signed "b"))].

Lemma vote_finish_quorum_witness :
  is_vote_finish cert0 (collect cert0 (new_proposal 1%positive None) votes0) = true /\
  exists validators auditors : list (xvip2 * string),
    2 <= Z.of_nat (length validators) /\ get_auditor_threshold cert0 <= Z.of_nat (length auditors) /\
    NoDup ((fun e => get_signer e.1) <$> validators ++ auditors).
Proof.
  split; [by vm_compute|].
  destruct (vote_finish_quorum cert0 1%positive None votes0 _ eq_refl ltac:(by split; vm_compute)
              ltac:(by split; vm_compute) ltac:(by vm_compute) ltac:(by vm_compute))
    as (vs & us & Hv & Ha & _ & _ & Hnd & _).
  exists vs, us. split; [exact Hv|]. split; [exact Ha|exact Hnd].
Defined.

(** The same low address twice: one account, two addresses. *)
Lemma copy_proposal_double_count_witness :
  let p := collect cert0 (new_proposal 1%positive None) votes0 in
  add_voted_cert cert0 p (Xvip2 0x1402 9) (Some (signed "c")) = (p, false) /\
  p_validators_count (add_voted_cert cert0 (copy_proposal p) (Xvip2 0x1402 9) (Some (signed "c"))).1 = 3.
Proof.
  intros p.
  destruct (copy_proposal_double_count cert0 (signed "c") p (Xvip2 0x1402 9)) as (H1 & H2 & H3).
  - apply (bool_decide_unpack _). by vm_compute.
  - split; [by vm_compute|]. by vm_compute.
  - by vm_compute.
  - split; [|by vm_compute]. apply (bool_decide_unpack _). by vm_compute.
  - split; [exact H1|]. rewrite H3. by vm_compute.
Defined.
End ProposalWitness.
