(* ===== verification/BFTState.v ===== *)
(** * Events, messages and the state of the BFT driver

    The state of [xBFTRules], [xBFTSyncdrv] and [xBFTdriver_t] (one object,
    three classes), the events of
    [xconsevent.h] and the jobs the driver hands to the worker pool and gets
    back as calls on its own thread. *)

From stdpp Require Import prelude gmap strings.
From Stdlib Require Import ZArith Lia.
From S2P Require Import Prelude Stream StdMap VBlock Pdu Proposal.

(** ** Result codes *)

Definition enum_xconsensus_code_need_data : Z := 3.
Definition enum_xconsensus_code_successful : Z := 0.
Definition enum_xconsensus_error_outofdate : Z := -2.
Definition enum_xconsensus_error_cancel : Z := -3.
Definition enum_xconsensus_error_timeout : Z := -4.
Definition enum_xconsensus_error_duplicated : Z := -5.
Definition enum_xconsensus_error_not_found : Z := -13.
Definition enum_xconsensus_error_not_authorized : Z := -14.
Definition enum_xconsensus_error_bad_packet : Z := -21.
Definition enum_xconsensus_error_bad_block : Z := -27.
Definition enum_xconsensus_error_bad_proposal : Z := -28.
Definition enum_xconsensus_error_bad_vote : Z := -31.
Definition enum_xconsensus_error_bad_commit : Z := -32.
Definition enum_xconsensus_error_bad_clock_cert : Z := -34.
Definition enum_xconsensus_error_wrong_view : Z := -40.

(** [xcsobject_t::get_xclock_account_address]: the account of the global clock. *)
Definition xclock_account : string := "Tt00013axZ3Gy8nzi7oNYhTBDb9XMb8KHdqYhw4Kx"%string.

(** ** Events the layers fire *)

Inductive xevent :=
  | EvProposalFinish (err : Z) (detail : string)
      (target commit lock cert proposal : option ptr)
  | EvConsensusCommit (target commit lock cert : option ptr)
  | EvConsensusUpdateUp (commit lock cert : option ptr)
  | EvConsensusUpdateDown (commit lock cert : option ptr)
  | EvReplicateFinish (target : ptr)
  | EvCertificateFinish (cert : xvqcert)
  | EvPdu (from to : xvip2) (packet : xcspdu)
  | EvView (account : string) (viewid clock : Z).

(** A received packet on its way down ([xcspdu_fire]): the pacemaker adds its
    view as cookie, its clock and the certificates it has decoded. *)
Record xcspdu_fire := XCspduFire {
  ev_from : xvip2; ev_to : xvip2; ev_packet : xcspdu;
  ev_cookie : Z; ev_clock : Z;
  ev_vblock_cert : option xvqcert; ev_xclock_cert : option xvqcert
}.

(** ** Work handed to the pool, and calls that come back to the driver's thread *)

Inductive job :=
  | JVerifyProposal (leader replica : xvip2) (prop : ptr) (nonce : Z) (from to : xvip2)
  | JVerifyVote (replica : xvip2) (cert : xvqcert) (prop : ptr)
  | JVerifyCommit (block : ptr) (paired : option xvqcert)
  | JVerifySyncBlock (block : ptr) (paired : option xvqcert)
  | JVerifyCert (cert : xvqcert).

Inductive call :=
  | KAfterVerifyProposal (prop : ptr) (nonce : Z) (from to : xvip2)
  | KAfterVerifyVote (prop : ptr)
  | KAfterVerifyCommit (block : ptr)
  | KAfterVerifySyncBlock (block : ptr)
  | KAfterVerifyCert (cert : xvqcert)
  | KFireProposalFinish (err : Z) (detail : string) (block : ptr)
  | KFireConsensusUpdate.

(** ** The driver *)

Record xsyn_request := XSynRequest {
  target_height : Z; expired_clock : Z; expired_viewid : Z; sync_trycount : Z
}.

Record xBFTdriver := XBFTdriver {
  m_latest_lock_block : option ptr;
  m_certified_blocks : list (Z * ptr);        (* view# -> block *)
  m_proposal_blocks : list (Z * ptr);         (* view# -> proposal object *)
  m_latest_voted_height : Z;
  m_latest_voted_viewid : Z;
  m_syncing_requests : list (string * xsyn_request);
  d_account : string;                         (* xvaccount_t::get_account() *)
  d_closed : bool;                            (* is_close() *)
  d_props : gmap ptr xproposal;               (* the proposal objects *)
  d_next : ptr;
  d_jobs : list job;
  d_calls : list call
}.

Definition set_lock (v : option ptr) (d : xBFTdriver) : xBFTdriver :=
  XBFTdriver v (m_certified_blocks d) (m_proposal_blocks d) (m_latest_voted_height d)
    (m_latest_voted_viewid d) (m_syncing_requests d) (d_account d) (d_closed d) (d_props d) (d_next d) (d_jobs d) (d_calls d).
Definition set_certs (v : list (Z * ptr)) (d : xBFTdriver) : xBFTdriver :=
  XBFTdriver (m_latest_lock_block d) v (m_proposal_blocks d) (m_latest_voted_height d)
    (m_latest_voted_viewid d) (m_syncing_requests d) (d_account d) (d_closed d) (d_props d) (d_next d) (d_jobs d) (d_calls d).
Definition set_proposals (v : list (Z * ptr)) (d : xBFTdriver) : xBFTdriver :=
  XBFTdriver (m_latest_lock_block d) (m_certified_blocks d) v (m_latest_voted_height d)
    (m_latest_voted_viewid d) (m_syncing_requests d) (d_account d) (d_closed d) (d_props d) (d_next d) (d_jobs d) (d_calls d).
(** "always increase": both counters move to the maximum of old and new. *)
Definition raise_voted (height viewid : Z) (d : xBFTdriver) : xBFTdriver :=
  XBFTdriver (m_latest_lock_block d) (m_certified_blocks d) (m_proposal_blocks d)
    (Z.max (m_latest_voted_height d) height) (Z.max (m_latest_voted_viewid d) viewid)
    (m_syncing_requests d) (d_account d) (d_closed d) (d_props d) (d_next d) (d_jobs d) (d_calls d).
Definition set_syncing (v : list (string * xsyn_request)) (d : xBFTdriver) : xBFTdriver :=
  XBFTdriver (m_latest_lock_block d) (m_certified_blocks d) (m_proposal_blocks d) (m_latest_voted_height d)
    (m_latest_voted_viewid d) v (d_account d) (d_closed d) (d_props d) (d_next d) (d_jobs d) (d_calls d).
Definition set_props (v : gmap ptr xproposal) (next : ptr) (d : xBFTdriver) : xBFTdriver :=
  XBFTdriver (m_latest_lock_block d) (m_certified_blocks d) (m_proposal_blocks d) (m_latest_voted_height d)
    (m_latest_voted_viewid d) (m_syncing_requests d) (d_account d) (d_closed d) v next (d_jobs d) (d_calls d).
Definition add_job (j : job) (d : xBFTdriver) : xBFTdriver :=
  XBFTdriver (m_latest_lock_block d) (m_certified_blocks d) (m_proposal_blocks d) (m_latest_voted_height d)
    (m_latest_voted_viewid d) (m_syncing_requests d) (d_account d) (d_closed d) (d_props d) (d_next d) (d_jobs d ++ [j]) (d_calls d).
Definition add_call (c : call) (d : xBFTdriver) : xBFTdriver :=
  XBFTdriver (m_latest_lock_block d) (m_certified_blocks d) (m_proposal_blocks d) (m_latest_voted_height d)
    (m_latest_voted_viewid d) (m_syncing_requests d) (d_account d) (d_closed d) (d_props d) (d_next d) (d_jobs d) (d_calls d ++ [c]).

Definition set_jobs (v : list job) (d : xBFTdriver) : xBFTdriver :=
  XBFTdriver (m_latest_lock_block d) (m_certified_blocks d) (m_proposal_blocks d) (m_latest_voted_height d)
    (m_latest_voted_viewid d) (m_syncing_requests d) (d_account d) (d_closed d) (d_props d) (d_next d) v (d_calls d).
Definition set_calls (v : list call) (d : xBFTdriver) : xBFTdriver :=
  XBFTdriver (m_latest_lock_block d) (m_certified_blocks d) (m_proposal_blocks d) (m_latest_voted_height d)
    (m_latest_voted_viewid d) (m_syncing_requests d) (d_account d) (d_closed d) (d_props d) (d_next d) (d_jobs d) v.

Definition new_driver (account : string) : xBFTdriver :=
  XBFTdriver None [] [] 0 0 [] account false ∅ 1%positive [] [].

Abbreviation dstate := (cstate xBFTdriver xevent).
Abbreviation DP := (prog dstate).

(** ** Proposal objects *)

Definition prop_deref (p : ptr) : DP xproposal :=
  fun s => match d_props (cs_st s) !! p with Some x => Some (x, s) | None => None end.
Definition prop_store (p : ptr) (x : xproposal) : DP unit :=
  st_mod (fun d => set_props (<[p := x]> (d_props d)) (d_next d) d).
(** [new xproposal_t(...)] *)
Definition prop_alloc (x : xproposal) : DP ptr :=
  fun s => let d := cs_st s in
    Some (d_next d, upd_st (set_props (<[d_next d := x]> (d_props d)) (Pos.succ (d_next d))) s).
(** [_proposal->get_block()] dereferenced. *)
Definition prop_block (p : ptr) : DP xvblock :=
  let* x := prop_deref p in deref (p_block x).

(** ** Packets sent upwards *)

(** [enum_xpdu_type_consensus_xbft]. *)
Definition pdu_class_xbft : Z := 139.

(** [fire_pdu_event_up]: the header fields describe [for_block]. *)
Definition fire_pdu_event_up (msg_type : Z) (content : string) (nonce : Z) (from to : xvip2)
    (for_block : xvblock) (vblock_cert : string) : DP unit :=
  fire (EvPdu from to
    (XCspdu pdu_class_xbft msg_type (u16 nonce) content (get_chainid for_block) (get_account for_block)
       (get_height for_block) (get_clock for_block) (get_viewid for_block) (get_viewtoken for_block)
       vblock_cert EmptyString)).

Definition fire_proposal_finish_event (err : Z) (detail : string)
    (target commit lock cert proposal : option ptr) : DP unit :=
  fire (EvProposalFinish err detail target commit lock cert proposal).
