(* ===== verification/Rules.v ===== *)
(** * Safety rules of the BFT driver ([xBFTRules], xconsrules.cpp)

    Definitions translate [xconsrules.cpp], the container helpers of
    [xconsdriver.h] and the override of [set_lock_block] in [xconsync.cpp],
    which is the one a virtual call reaches.  Log output and reference counts
    are left out: a pointer the driver holds is never freed. *)

From stdpp Require Import prelude gmap strings pretty.
From Stdlib Require Import ZArith Lia Sorting.Sorted.
From S2P Require Import Prelude Stream StdMap VBlock Pdu Proposal BFTState.

(** ** Container helpers ([block_helper]) *)

Definition add_block (viewid : Z) (p : ptr) (m : list (Z * ptr)) : list (Z * ptr) * bool :=
  match map_find viewid m with
  | Some q => if decide (q = p) then (m, true) else (map_set viewid p m, true)
  | None => (map_set viewid p m, true)
  end.
Definition remove_block (viewid : Z) (m : list (Z * ptr)) : list (Z * ptr) * bool :=
  match map_find viewid m with
  | Some _ => (map_erase viewid m, true)
  | None => (m, false)
  end.
Definition clean_blocks (m : list (Z * ptr)) : list (Z * ptr) * bool := ([], true).
Definition find_block (viewid : Z) (m : list (Z * ptr)) : option ptr := map_find viewid m.
Definition get_latest_block (m : list (Z * ptr)) : option ptr := snd <$> map_last m.

Section Rules.
Context `{XVBlock}.

(** ** The minimal rule for a block, against a given lock block *)

Definition block_over_lock (lock b : xvblock) : bool :=
  negb ((get_viewid b <? get_height b)
        || (get_height b <=? get_height lock)
        || (get_viewid b <=? get_viewid lock)
        || negb (get_chainid b =? get_chainid lock)
        || negb (bool_decide (get_account b = get_account lock))).

Definition safe_check_with (lock b : option ptr) : DP bool :=
  match b, lock with
  | Some p, Some l =>
      let* bb := deref p in let* lb := deref l in ret (block_over_lock lb bb)
  | _, _ => ret false
  end.

Definition get_latest_proposal_block : DP (option ptr) :=
  let* m := st_get m_proposal_blocks in
  match get_latest_block m with
  | Some p => let* x := prop_deref p in ret (Some (p_block x))
  | None => ret None
  end.
Definition get_latest_cert_block : DP (option ptr) :=
  let* m := st_get m_certified_blocks in ret (get_latest_block m).
Definition latest_cert_value : DP (option xvblock) :=
  let* c := get_latest_cert_block in
  match c with Some p => let* b := deref p in ret (Some b) | None => ret None end.

(** [dump]: the state as text, in a buffer of 256 bytes that [snprintf]
    fills with at most 255 characters. *)
Definition show_view (b : xvblock) : string :=
  "height=" +:+ pretty (get_height b) +:+ ",viewid=" +:+ pretty (get_viewid b) +:+
  ",viewtoken=" +:+ pretty (get_viewtoken b).
Definition dump_text (lock cert commit : option xvblock) (hviewid : Z) : string :=
  match lock, cert with
  | None, _ => "{nil locked-block,hviewid=" +:+ pretty hviewid +:+ "}"
  | Some l, None =>
      "{locked={" +:+ show_view l +:+ ",clock=" +:+ pretty (get_clock l) +:+
      "} <--nil hqc <-- hviewid=" +:+ pretty hviewid +:+ "}"
  | Some l, Some c =>
      "{commited={" +:+ match commit with Some b => show_view b | None => "nil" end +:+
      "} <-- locked={" +:+ show_view l +:+ "} <-- hqc={" +:+ show_view c +:+
      "} <-- hviewid=" +:+ pretty hviewid +:+ "}"
  end%string.
Definition dump : DP string :=
  let* cert := latest_cert_value in
  let* l := st_get m_latest_lock_block in
  let* lock := match l with Some p => let* b := deref p in ret (Some b) | None => ret None end in
  let* commit := match lock, cert with
                 | Some b, Some _ =>
                     match b_prev b with
                     | Some q => let* c := deref q in ret (Some c)
                     | None => ret None
                     end
                 | _, _ => ret None
                 end in
  let* hviewid := st_get m_latest_voted_viewid in
  ret (str_take 255 (dump_text lock cert commit hviewid)).

(** ** Locking *)

(** Called while [m_latest_lock_block] is set or about to be replaced, so
    [get_lock_block()] inside it is the field itself. *)
Definition safe_check_for_lock_block (lock_block : option ptr) : DP bool :=
  match lock_block with
  | None => ret false
  | Some p =>
      let* cur := st_get m_latest_lock_block in
      let* over := match cur with
                   | Some _ => safe_check_with cur lock_block
                   | None => ret true
                   end in
      if negb over then ret false
      else let* b := deref p in
           if negb (is_deliver b false) then ret false else ret true
  end.

(** Drop the blocks that are not over the lock any more. *)
Definition recheck_block (lock : option ptr) (m : list (Z * ptr)) : DP (list (Z * ptr)) :=
  let* r := partition_prog (fun e => safe_check_with lock (Some e.2)) m in ret r.1.

(** Proposals in the order [sort_proposal] puts them. *)
Definition sort_proposals (l : list (Z * ptr)) : DP (list ptr) :=
  let* keyed := map_prog (fun e => let* b := prop_block e.2 in ret (get_viewid b, e.2)) l in
  ret (snd <$> sort_by fst keyed).

Definition notify_outofdate (p : ptr) : DP unit :=
  let* x := prop_deref p in
  let* lock := st_get m_latest_lock_block in
  let* cert := get_latest_cert_block in
  let* prop := get_latest_proposal_block in
  fire_proposal_finish_event enum_xconsensus_error_outofdate EmptyString
    (Some (p_block x)) None lock cert prop.

(** The update branch of [set_lock_block]. *)
Definition replace_lock (p : ptr) : DP bool :=
  let* b := deref p in
  st_mod (set_lock (Some p)) ;;;
  st_mod (raise_voted (get_height b) (get_viewid b)) ;;;
  let* certs := st_get m_certified_blocks in
  let* certs' := recheck_block (Some p) certs in
  st_mod (set_certs certs') ;;;
  let* props := st_get m_proposal_blocks in
  let* kr := partition_prog (fun e =>
      let* x := prop_deref e.2 in safe_check_with (Some p) (Some (p_block x))) props in
  st_mod (set_proposals kr.1) ;;;
  let* removed := sort_proposals kr.2 in
  for_each removed notify_outofdate ;;;
  ret true.

(** Same height and view but another object that is flagged as locked. *)
Definition same_lock_object (cur latest : option ptr) : DP bool :=
  match cur, latest with
  | Some c, Some l =>
      let* cb := deref c in let* lb := deref l in
      ret ((get_height cb =? get_height lb) && (get_viewid cb =? get_viewid lb)
           && check_block_flag lb enum_xvblock_flag_locked)
  | _, _ => ret false
  end.

Definition rules_set_lock_block (latest : option ptr) : DP bool :=
  let* cur := st_get m_latest_lock_block in
  if bool_decide (cur <> None) && bool_decide (cur = latest) then ret true
  else
    let* same := same_lock_object cur latest in
    if same then st_mod (set_lock latest) ;;; ret true
    else
      let* ok := safe_check_for_lock_block latest in
      if negb ok then ret false
      else match latest with
           | Some p => if bool_decide (cur <> Some p) then replace_lock p else ret false
           | None => ret false
           end.

(** [xBFTSyncdrv::set_lock_block]: also drops requests for far-away blocks. *)
Definition set_lock_block (latest : option ptr) : DP bool :=
  let* ok := rules_set_lock_block latest in
  if ok then
    let* reqs := st_get m_syncing_requests in
    match reqs with
    | [] => ret true
    | _ =>
        let* p := nonnull latest in
        let* b := deref p in
        st_mod (set_syncing (List.filter
          (fun e => negb (u64 (target_height e.2 + 32) <? get_height b)) reqs)) ;;;
        ret true
    end
  else ret false.

Definition get_lock_block : DP (option ptr) :=
  let* cur := st_get m_latest_lock_block in
  match cur with
  | Some _ => ret cur
  | None =>
      let* loaded := gets (fun s => w_latest_locked (cs_world s)) in
      match loaded with
      | Some _ => set_lock_block loaded ;;; st_get m_latest_lock_block
      | None => ret cur
      end
  end.

(** [get_lock_block()->...]: a null lock block is dereferenced. *)
Definition lock_block : DP xvblock :=
  let* l := get_lock_block in let* p := nonnull l in deref p.

Definition safe_check_for_block (b : option ptr) : DP bool :=
  let* l := get_lock_block in safe_check_with l b.

(** ** Proposals *)

Definition add_proposal_obj (p : ptr) : DP bool :=
  let* b := prop_block p in
  st_mod (raise_voted (get_height b) (get_viewid b)) ;;;
  let* m := st_get m_proposal_blocks in
  let r := add_block (get_viewid b) p m in
  st_mod (set_proposals r.1) ;;;
  ret r.2.

(** The overload that wraps a raw block; [add_block] never refuses. *)
Definition add_proposal (proposal : option ptr) (parent_cert : option xvqcert) (expired_ms : Z)
    : DP (option ptr) :=
  match proposal with
  | None => ret None
  | Some b =>
      let* now := gets (fun s => w_now (cs_world s)) in
      let* p := prop_alloc (set_expired_ms (new_proposal b parent_cert) (u64 (now + expired_ms))) in
      let* ok := add_proposal_obj p in
      if ok then ret (Some p) else ret None
  end.

Definition remove_proposal (viewid : Z) : DP bool :=
  let* m := st_get m_proposal_blocks in
  let r := remove_block viewid m in
  st_mod (set_proposals r.1) ;;; ret r.2.
Definition clean_proposals : DP bool :=
  let* m := st_get m_proposal_blocks in
  let '(m', r) := clean_blocks m in st_mod (set_proposals m') ;;; ret r.
Definition find_proposal (viewid : Z) : DP (option ptr) :=
  st_get (fun d => find_block viewid (m_proposal_blocks d)).

(** ** The locked branch: 1 on it, -1 forked, 0 too far away to tell *)

Definition follow_branch (lock b : xvblock) : Z :=
  let h := get_height lock in
  if get_height b =? u64 (h - 1) then
    if bool_decide (get_block_hash b <> get_last_block_hash lock) then -1 else 1
  else if get_height b =? h then
    if bool_decide (get_block_hash b <> get_block_hash lock) then -1 else 1
  else if get_height b =? u64 (h + 1) then
    if bool_decide (get_last_block_hash b <> get_block_hash lock) then -1 else 1
  else if get_height b =? u64 (h + 2) then
    if bool_decide (get_block_level b = level_unit) then
      if bool_decide (get_justify_cert_hash b <> get_block_hash lock) then -1 else 1
    else
      if bool_decide (get_justify_cert_hash b <> get_output_root_hash lock) then -1 else 1
  else 0.

Definition safe_check_follow_locked_branch (b : option ptr) : DP Z :=
  match b with
  | None => ret (-1)
  | Some p =>
      let* lb := lock_block in let* bb := deref p in ret (follow_branch lb bb)
  end.

(** ** Certified blocks *)

Definition add_cert_block (target : option ptr) : DP bool :=
  match target with
  | None => ret false
  | Some p =>
      let* l := get_lock_block in
      let* forked := match l with
                     | Some _ => let* r := safe_check_follow_locked_branch target in ret (r <? 0)
                     | None => ret false
                     end in
      if forked then ret false
      else
        let* b := deref p in
        let* m := st_get m_certified_blocks in
        let r := map_emplace (get_viewid b) p m in
        st_mod (set_certs r.1) ;;; ret r.2
  end.
Definition remove_cert_block (viewid : Z) : DP bool :=
  let* m := st_get m_certified_blocks in
  let r := remove_block viewid m in
  st_mod (set_certs r.1) ;;; ret r.2.
Definition clean_cert_blocks : DP bool :=
  let* m := st_get m_certified_blocks in
  let '(m', r) := clean_blocks m in st_mod (set_certs m') ;;; ret r.
Definition find_cert_block (viewid : Z) : DP (option ptr) :=
  st_get (fun d => find_block viewid (m_certified_blocks d)).

(** ** Rules for packets *)

Definition packet_over_lock (lock : xvblock) (packet : xcspdu) : bool :=
  negb ((pdu_viewid packet <? pdu_height packet)
        || (pdu_viewid packet <=? get_viewid lock)
        || (pdu_height packet <=? get_height lock)
        || negb (pdu_chainid packet =? get_chainid lock)
        || negb (bool_decide (pdu_account packet = get_account lock))).
Definition packet_of_chain (lock : xvblock) (packet : xcspdu) : bool :=
  negb (negb (pdu_chainid packet =? get_chainid lock)
        || negb (bool_decide (pdu_account packet = get_account lock))).

(** [if(NULL == lock_block) return false; ... test]. *)
Definition with_lock (test : xvblock -> bool) : DP bool :=
  let* l := get_lock_block in
  match l with
  | None => ret false
  | Some p => let* b := deref p in ret (test b)
  end.

Definition safe_check_for_packet (packet : xcspdu) : DP bool :=
  with_lock (fun lb => packet_over_lock lb packet).

Section Packets.
Context `{XCodec}.

Definition safe_check_for_proposal_packet (packet : xcspdu) : DP (option xproposal_msg) :=
  let* ok := with_lock (fun lb => packet_of_chain lb packet) in
  if negb ok then ret None
  else match dec_proposal (pdu_body packet) with
       | None => ret None
       | Some msg => if bool_decide (pm_block_object msg = EmptyString) then ret None
                     else ret (Some msg)
       end.

Definition safe_check_for_vote_packet (packet : xcspdu) : DP (option xvote_msg) :=
  let* ok := safe_check_for_packet packet in
  if negb ok then ret None
  else match dec_vote (pdu_body packet) with
       | None => ret None
       | Some msg => if bool_decide (vm_justify_source msg = EmptyString) then ret None
                     else ret (Some msg)
       end.

Definition safe_check_for_commit_packet (packet : xcspdu) : DP (option xcommit_msg) :=
  let* ok := safe_check_for_packet packet in
  if negb ok then ret None else ret (dec_commit (pdu_body packet)).

Definition safe_check_for_sync_request_packet (packet : xcspdu) : DP (option xsync_request_msg) :=
  let* ok := with_lock (fun lb => packet_of_chain lb packet) in
  if negb ok then ret None
  else match dec_sync_request (pdu_body packet) with
       | None => ret None
       | Some msg => if bool_decide (sq_hash msg = EmptyString) then ret None
                     else ret (Some msg)
       end.

Definition safe_check_for_sync_respond_packet (packet : xcspdu) : DP (option xsync_respond_msg) :=
  let* ok := with_lock (fun lb => negb (pdu_viewid packet <? pdu_height packet)
                                  && packet_of_chain lb packet) in
  if negb ok then ret None
  else match dec_sync_respond (pdu_body packet) with
       | None => ret None
       | Some msg => if bool_decide (sr_block_object msg = EmptyString) then ret None
                     else ret (Some msg)
       end.
End Packets.

(** ** Rules for blocks *)

Definition safe_check_for_proposal_block (b : option ptr) : DP bool :=
  let* ok := safe_check_for_block b in
  if negb ok then ret false
  else
    let* p := nonnull b in
    let* bb := deref p in
    if negb (is_input_ready bb false) then ret false
    else if negb (get_block_flags bb =? 0) then ret false
    else if negb (bool_decide (get_block_hash bb = EmptyString)) then ret false
    else if negb (is_valid bb true) then ret false
    else ret true.

(** [(v <= other.viewid) || (h <= other.height)]: behind another block. *)
Definition behind (b other : xvblock) : bool :=
  (get_viewid b <=? get_viewid other) || (get_height b <=? get_height other).
Definition behind_ptr (b : xvblock) (other : option ptr) : DP bool :=
  match other with
  | None => ret false
  | Some q => let* ob := deref q in ret (behind b ob)
  end.

Definition safe_precheck_for_voting (b : option ptr) : DP bool :=
  let* ok := safe_check_for_proposal_block b in
  if negb ok then ret false
  else
    let* p := nonnull b in
    let* bb := deref p in
    let* voted_viewid := st_get m_latest_voted_viewid in
    let* voted_height := st_get m_latest_voted_height in
    if (get_viewid bb <=? voted_viewid) || (get_height bb <? voted_height) then ret false
    else
      let* cert := get_latest_cert_block in
      let* behind_cert := behind_ptr bb cert in
      if behind_cert then ret false
      else
        let* prop := get_latest_proposal_block in
        let* behind_prop := behind_ptr bb prop in
        if behind_prop then ret false
        else
          let* r := safe_check_follow_locked_branch b in
          if r <? 0 then ret false else ret true.

(** Safe rule 5: the parent certificate is held and its parent is the lock. *)
Definition hqc_connects (lock b : xvblock) (e : Z * ptr) : DP bool :=
  let* c := deref e.2 in
  ret ((get_height b =? u64 (get_height c + 1))
       && bool_decide (get_last_block_hash b = get_block_hash c)
       && bool_decide (get_block_hash lock = get_last_block_hash c)).

Definition safe_finalcheck_for_voting (b : option ptr) : DP bool :=
  let* l := get_lock_block in
  match b, l with
  | Some p, Some lp =>
      let* bb := deref p in
      let* lb := deref lp in
      if (get_height bb <=? get_height lb) || (get_viewid bb <=? get_viewid lb) then ret false
      else
        let* cert := get_latest_cert_block in
        let* behind_cert := behind_ptr bb cert in
        if behind_cert then ret false
        else
          let* r := safe_check_follow_locked_branch b in
          if 0 <? r then
            if get_height bb =? u64 (get_height lb + 2) then
              let* certs := st_get m_certified_blocks in
              any_prog (hqc_connects lb bb) (rev certs)
            else ret true
          else ret false
  | _, _ => ret false
  end.

Definition safe_check_for_sync_block (b : option ptr) : DP bool :=
  let* r := safe_check_follow_locked_branch b in
  if r <? 0 then ret false
  else
    let* p := nonnull b in
    let* bb := deref p in
    if negb (is_input_ready bb true) then ret false
    else if negb (is_output_ready bb true) then ret false
    else if negb (is_deliver bb true) then ret false
    else ret true.
End Rules.
