(* ===== verification/RulesFacts.v ===== *)
(** * What the safety rules guarantee

    The invariant of the driver's containers, the order in which the lock and
    the vote counters may move, and the exact effect of [set_lock_block].
    Everything is stated with [wpu u]: with [u] false the rule also never
    dereferences a null or dangling pointer. *)

From stdpp Require Import prelude gmap strings.
From Stdlib Require Import ZArith Lia Sorting.Sorted.
From S2P Require Import Prelude Stream StdMap VBlock Pdu Proposal BFTState Rules.

(** ** Positions of blocks: height and view grow together *)

Definition pos_le (b b' : xvblock) : Prop :=
  (get_height b = get_height b' /\ get_viewid b = get_viewid b') \/
  (get_height b < get_height b' /\ get_viewid b < get_viewid b').

#[export] Instance pos_le_preorder : PreOrder pos_le.
Proof. split; unfold pos_le; [intros ?; lia | intros ???; lia]. Qed.

Definition lock_of (s : dstate) : option xvblock :=
  m_latest_lock_block (cs_st s) ≫= fun p => block_at p s.

(** A block a proposal object wraps. *)
Definition prop_block_of (s : dstate) (p : ptr) : option xvblock :=
  d_props (cs_st s) !! p ≫= fun x => block_at (p_block x) s.

(** ** The invariant *)

Record drv_inv (s : dstate) : Prop := {
  di_lock : forall l, m_latest_lock_block (cs_st s) = Some l -> exists b,
    block_at l s = Some b /\
    get_height b <= m_latest_voted_height (cs_st s) /\ get_viewid b <= m_latest_voted_viewid (cs_st s);
  di_store : forall l, w_latest_locked (cs_world s) = Some l -> allocated s l;
  di_certs : key_sorted (m_certified_blocks (cs_st s));
  di_certs_at : forall v p, (v, p) ∈ m_certified_blocks (cs_st s) ->
    exists b, block_at p s = Some b /\ get_viewid b = v;
  di_props : key_sorted (m_proposal_blocks (cs_st s));
  di_props_at : forall v p, (v, p) ∈ m_proposal_blocks (cs_st s) -> exists b,
    prop_block_of s p = Some b /\ get_viewid b = v /\
    v <= m_latest_voted_viewid (cs_st s) /\ get_height b <= m_latest_voted_height (cs_st s);
}.

(** ** How a rule may change the driver *)

(** The views of the packets that carry a signature of this node: its votes
    and its own proposals. *)
Definition signed_view (e : xevent) : list Z :=
  match e with
  | EvPdu _ _ packet =>
      if (pdu_msg_type packet =? msg_type_vote) || (pdu_msg_type packet =? msg_type_proposal)
      then [pdu_viewid packet] else []
  | _ => []
  end.
Definition signed (s : dstate) : list Z := cs_out s ≫= signed_view.

Record dle (s s' : dstate) : Prop := {
  dle_world : cs_world s' = cs_world s;
  dle_self : cs_self s' = cs_self s;
  dle_parent : cs_parent s' = cs_parent s;
  dle_voted_h : m_latest_voted_height (cs_st s) <= m_latest_voted_height (cs_st s');
  dle_voted_v : m_latest_voted_viewid (cs_st s) <= m_latest_voted_viewid (cs_st s');
  dle_lock : forall b, lock_of s = Some b -> exists b', lock_of s' = Some b' /\ pos_le b b';
  dle_props : d_props (cs_st s') = d_props (cs_st s);
  dle_next : d_next (cs_st s') = d_next (cs_st s);
  dle_jobs : d_jobs (cs_st s') = d_jobs (cs_st s);
  dle_calls : d_calls (cs_st s') = d_calls (cs_st s);
  dle_nil : m_proposal_blocks (cs_st s) = [] -> m_proposal_blocks (cs_st s') = [];
  dle_out : cs_out s `prefix_of` cs_out s';
  dle_signed : signed s' = signed s;
}.

#[export] Instance dle_preorder : PreOrder dle.
Proof.
  split.
  - intros s. split; try done. intros b Hb. exists b. by split.
  - intros s1 s2 s3 H1 H2. destruct H1, H2. split; try congruence; try lia; eauto.
    + intros b Hb. destruct (dle_lock0 b Hb) as (b' & Hb' & Hle).
      destruct (dle_lock1 b' Hb') as (b'' & Hb'' & Hle'). exists b''. split; [done|]. by etrans.
    + by etrans.
Qed.

Lemma dle_block s s' p : dle s s' -> block_at p s' = block_at p s.
Proof. intros [Hw]. unfold block_at. by rewrite Hw. Qed.

Create HintDb bft.
#[export] Hint Resolve di_certs di_props dle_block : bft.
#[export] Hint Extern 0 (dle ?s ?s) => reflexivity : bft.

(** ** Reading *)

Lemma deref_reads (p : ptr) (b : xvblock) (s : dstate) : block_at p s = Some b -> reads (deref p) b s.
Proof. unfold reads, deref. by intros ->. Qed.

Lemma wpu_deref u p b Q (s : dstate) : block_at p s = Some b -> Q b s -> wpu u (deref p) Q s.
Proof. intros Hb. by apply wpu_reads, deref_reads. Qed.

Lemma prop_deref_reads p x (s : dstate) : d_props (cs_st s) !! p = Some x -> reads (prop_deref p) x s.
Proof. unfold reads, prop_deref. by intros ->. Qed.

Lemma prop_block_reads p b s : prop_block_of s p = Some b -> reads (prop_block p) b s.
Proof.
  unfold prop_block_of, reads, prop_block, bind, prop_deref, deref.
  destruct (d_props _ !! p) as [x|]; [|done]. cbn. by intros ->.
Qed.

(** Bind a read. *)
Lemma wpu_bind_reads {A B} u (m : DP A) (k : A -> DP B) a Q s :
  reads m a s -> wpu u (k a) Q s -> wpu u (bind m k) Q s.
Proof. intros Hr Hk. apply wpu_bind. by eapply wpu_reads. Qed.

Lemma reads_bind {A B} (m : DP A) (k : A -> DP B) a b s :
  reads m a s -> reads (k a) b s -> reads (bind m k) b s.
Proof. unfold reads, bind. by intros ->. Qed.

Lemma reads_ret {A} (a : A) (s : dstate) : reads (ret a) a s.
Proof. done. Qed.

Lemma reads_st_get {A} (f : xBFTdriver -> A) (s : dstate) : reads (st_get f) (f (cs_st s)) s.
Proof. done. Qed.

Lemma reads_gets {A} (f : dstate -> A) (s : dstate) : reads (gets f) (f s) s.
Proof. done. Qed.
#[export] Hint Resolve deref_reads prop_deref_reads prop_block_reads reads_ret reads_st_get reads_gets : bft.

Section Facts.
Context `{XVBlock}.

Definition over_ptr (s : dstate) (lb : xvblock) (p : ptr) : bool :=
  match block_at p s with Some b => block_over_lock lb b | None => false end.
Definition prop_over (s : dstate) (lb : xvblock) (p : ptr) : bool :=
  match prop_block_of s p with Some b => block_over_lock lb b | None => false end.

Lemma block_over_lock_spec lb b :
  block_over_lock lb b = true <->
  get_height b <= get_viewid b /\ get_height lb < get_height b /\ get_viewid lb < get_viewid b /\
  get_chainid b = get_chainid lb /\ get_account b = get_account lb.
Proof. unfold block_over_lock. guards. tauto. Qed.

Lemma safe_check_with_reads l p lb b s :
  block_at l s = Some lb -> block_at p s = Some b ->
  reads (safe_check_with (Some l) (Some p)) (block_over_lock lb b) s.
Proof. intros Hl Hp. cbn. eauto 6 using reads_bind with bft. Qed.

Lemma latest_cert_reads s :
  reads get_latest_cert_block (get_latest_block (m_certified_blocks (cs_st s))) s.
Proof. done. Qed.

Lemma get_latest_block_in m p : get_latest_block m = Some p -> exists v, (v, p) ∈ m.
Proof.
  unfold get_latest_block, map_last. destruct (last m) as [[v q]|] eqn:E; [|done].
  cbn. intros [= ->]. exists v. apply last_Some in E as [m' ->]. apply elem_of_app. right. by left.
Qed.

Definition latest_prop_of (s : dstate) : option ptr :=
  get_latest_block (m_proposal_blocks (cs_st s)) ≫= fun p => p_block <$> d_props (cs_st s) !! p.

Lemma latest_prop_reads s : drv_inv s -> reads get_latest_proposal_block (latest_prop_of s) s.
Proof.
  intros Hi. unfold get_latest_proposal_block, latest_prop_of.
  eapply reads_bind; [apply reads_st_get|].
  destruct (get_latest_block _) as [p|] eqn:E; [|done].
  apply get_latest_block_in in E as [v Hin].
  destruct (di_props_at _ Hi _ _ Hin) as (b & Hb & _). unfold prop_block_of in Hb.
  destruct (d_props _ !! p) as [x|] eqn:Ex; [|done]. cbn. rewrite Ex. cbn.
  eauto using reads_bind with bft.
Qed.

(** ** The lock moves forward *)

(** The state after [replace_lock], before the removed proposals are reported. *)
Definition locked_st (s : dstate) (p : ptr) (lb : xvblock) (d : xBFTdriver) : xBFTdriver :=
  set_proposals (List.filter (fun e => prop_over s lb e.2) (m_proposal_blocks d))
    (set_certs (List.filter (fun e => over_ptr s lb e.2) (m_certified_blocks d))
      (raise_voted (get_height lb) (get_viewid lb) (set_lock (Some p) d))).

Lemma locked_st_inv s p lb :
  drv_inv s -> block_at p s = Some lb -> drv_inv (upd_st (locked_st s p lb) s).
Proof.
  intros [Hl Hst Hc Hca Hp Hpa] Hb. split; cbn.
  - intros l [= <-]. exists lb. split; [exact Hb|]. lia.
  - exact Hst.
  - by apply filter_sorted.
  - intros v q Hin. apply list_elem_of_In, List.filter_In in Hin as [Hin _].
    by apply Hca, list_elem_of_In.
  - by apply filter_sorted.
  - intros v q Hin. apply list_elem_of_In, List.filter_In in Hin as [Hin _].
    apply list_elem_of_In, Hpa in Hin as (b & ? & ? & ? & ?).
    exists b. repeat split; try done; lia.
Qed.

(** The proposals [replace_lock] drops, by view#. *)
Definition stale_props (s : dstate) (lb : xvblock) : list ptr :=
  snd <$> sort_by fst (List.filter (fun e => negb (prop_over s lb e.2)) (m_proposal_blocks (cs_st s))).

Lemma sort_proposals_reads s m :
  (forall v p, (v, p) ∈ m -> exists b, prop_block_of s p = Some b /\ get_viewid b = v) ->
  reads (sort_proposals m) (snd <$> sort_by fst m) s.
Proof.
  intros Hm. unfold sort_proposals.
  assert (E : m = (fun e : Z * ptr => e) <$> m) by (symmetry; apply list_fmap_id).
  rewrite E at 2. eapply reads_bind; [|apply reads_ret].
  apply reads_map. intros [v p] Hin. destruct (Hm _ _ Hin) as (b & Hb & <-).
  eapply reads_bind; [by apply prop_block_reads|]. done.
Qed.

(** The report on a dropped proposal. *)
Definition outofdate_event (s : dstate) (p : ptr) : xevent :=
  EvProposalFinish enum_xconsensus_error_outofdate EmptyString
    (p_block <$> d_props (cs_st s) !! p) None (m_latest_lock_block (cs_st s))
    (get_latest_block (m_certified_blocks (cs_st s))) (latest_prop_of s).

Definition add_outs (l : list xevent) (s : dstate) : dstate :=
  CState (cs_world s) (cs_st s) (if cs_parent s then cs_out s ++ l else cs_out s)
    (cs_self s) (cs_parent s).

Lemma add_outs_nil s : add_outs [] s = s.
Proof. destruct s as [? ? ? ? []]; unfold add_outs; cbn; by rewrite ?app_nil_r. Qed.

Lemma fire_runs e s : fire e s = Some (tt, add_outs [e] s).
Proof. unfold fire, emit, modify, add_out, add_outs. by destruct (cs_parent s) eqn:E; destruct s; cbn in *; subst. Qed.

Lemma add_outs_inv l s : drv_inv s -> drv_inv (add_outs l s).
Proof. by intros [? ? ? ? ? ?]. Qed.

Lemma add_outs_dle l s :
  Forall (fun e => signed_view e = []) l -> dle s (add_outs l s).
Proof.
  intros Hl. split; try done.
  - intros b Hb. exists b. by split.
  - cbn. destruct (cs_parent s); [by apply prefix_app_r|done].
  - unfold signed. cbn. destruct (cs_parent s); [|done]. rewrite bind_app.
    replace (l ≫= signed_view) with (@nil Z); [by rewrite app_nil_r|].
    clear -Hl. induction Hl as [|e l He _ IH]; [done|]. cbn. by rewrite He.
Qed.

Lemma notify_runs s p : drv_inv s -> is_Some (d_props (cs_st s) !! p) ->
  notify_outofdate p s = Some (tt, add_outs [outofdate_event s p] s).
Proof.
  intros Hi [x Hx]. unfold notify_outofdate, outofdate_event.
  rewrite Hx, (bind_runs _ _ _ _ _ (prop_deref_reads _ _ _ Hx)). do 2 run_simple.
  rewrite (bind_runs _ _ _ _ _ (latest_prop_reads _ Hi)). apply fire_runs.
Qed.

Lemma notify_all_runs l s : drv_inv s -> (forall p, p ∈ l -> is_Some (d_props (cs_st s) !! p)) ->
  for_each l notify_outofdate s = Some (tt, add_outs (outofdate_event s <$> l) s).
Proof.
  revert s. induction l as [|p l IH]; intros s Hi Hl; [cbn; by rewrite add_outs_nil|].
  cbn. unfold bind. rewrite notify_runs; [|done|apply Hl; left].
  rewrite IH; [|by apply add_outs_inv|intros q Hq; apply Hl; by right].
  f_equal. f_equal. unfold add_outs. cbn. destruct (cs_parent s); [|done].
  by rewrite <- app_assoc.
Qed.

(** [replace_lock] computed: the lock is the new block, the counters cover
    it, exactly the certified blocks and proposals over it stay, and every
    dropped proposal is reported once, in view order. *)
Lemma replace_lock_runs s p lb :
  drv_inv s -> block_at p s = Some lb ->
  replace_lock p s = Some (true,
    let s' := upd_st (locked_st s p lb) s in
    add_outs (outofdate_event s' <$> stale_props s lb) s').
Proof.
  intros Hi Hb. unfold replace_lock.
  rewrite (bind_runs _ _ _ _ _ (deref_reads _ _ _ Hb)). do 3 run_simple.
  erewrite bind_runs; cycle 1.
  { unfold recheck_block. eapply reads_bind; [|apply reads_ret].
    apply (reads_partition _ (fun e => over_ptr s lb e.2)). intros [v q] Hin.
    destruct (di_certs_at _ Hi _ _ Hin) as (b & Hq & _).
    unfold over_ptr. cbn [snd]. rewrite Hq. by apply safe_check_with_reads. }
  do 2 run_simple.
  erewrite bind_runs; cycle 1.
  { apply (reads_partition _ (fun e => prop_over s lb e.2)).
    intros [v q] Hin. destruct (di_props_at _ Hi _ _ Hin) as (b & Hq & _).
    unfold prop_over. cbn [snd]. rewrite Hq. unfold prop_block_of in Hq.
    destruct (d_props (cs_st s) !! q) as [x|] eqn:Hx; [|done]. cbn in Hq.
    eapply reads_bind; [by apply prop_deref_reads|]. by apply safe_check_with_reads. }
  run_simple. cbn [fst snd].
  pose proof (locked_st_inv _ _ _ Hi Hb) as Hi'.
  erewrite bind_runs; cycle 1.
  { apply sort_proposals_reads. intros v q Hin.
    apply list_elem_of_In, List.filter_In in Hin as [Hin _].
    apply list_elem_of_In in Hin. destruct (di_props_at _ Hi _ _ Hin) as (b & ? & ? & _). eauto. }
  erewrite bind_runs; [reflexivity|].
  apply notify_all_runs; [exact Hi'|].
  intros q Hq. apply list_elem_of_fmap in Hq as ([v q'] & -> & Hin).
  rewrite sort_by_perm in Hin. apply list_elem_of_In, List.filter_In in Hin as [Hin _].
  apply list_elem_of_In, (di_props_at _ Hi) in Hin as (b & Hb' & _).
  unfold prop_block_of in Hb'. cbn. by destruct (d_props (cs_st s) !! q').
Qed.

(** ** [set_lock_block], all branches *)

Definition advanced (s : dstate) (l : ptr) (lb : xvblock) : dstate :=
  let s' := upd_st (locked_st s l lb) s in
  add_outs (outofdate_event s' <$> stale_props s lb) s'.

Inductive lock_effect (s : dstate) (latest : option ptr) : bool -> dstate -> Prop :=
| lock_refused : lock_effect s latest false s
| lock_same l : latest = Some l -> m_latest_lock_block (cs_st s) = Some l -> lock_effect s latest true s
| lock_object l cb lb :
    latest = Some l -> lock_of s = Some cb -> block_at l s = Some lb ->
    get_height cb = get_height lb -> get_viewid cb = get_viewid lb ->
    check_block_flag lb enum_xvblock_flag_locked = true ->
    lock_effect s latest true (upd_st (set_lock (Some l)) s)
| lock_advanced l lb :
    latest = Some l -> block_at l s = Some lb -> is_deliver lb false = true ->
    (forall cb, lock_of s = Some cb -> block_over_lock cb lb = true) ->
    lock_effect s latest true (advanced s l lb).

Lemma lock_of_inv s l :
  drv_inv s -> m_latest_lock_block (cs_st s) = Some l ->
  exists b, block_at l s = Some b /\ lock_of s = Some b.
Proof.
  intros Hi Hl. destruct (di_lock _ Hi _ Hl) as (b & Hb & _). exists b.
  unfold lock_of. by rewrite Hl.
Qed.

Lemma same_lock_object_reads s latest :
  drv_inv s -> (forall l, latest = Some l -> allocated s l) -> exists r,
  reads (same_lock_object (m_latest_lock_block (cs_st s)) latest) r s /\
  (r = true -> exists l cb lb, latest = Some l /\ lock_of s = Some cb /\ block_at l s = Some lb /\
     get_height cb = get_height lb /\ get_viewid cb = get_viewid lb /\
     check_block_flag lb enum_xvblock_flag_locked = true).
Proof.
  intros Hi Ha. destruct (m_latest_lock_block (cs_st s)) as [c|] eqn:Hc; [|by exists false].
  destruct latest as [l|]; [|by exists false].
  destruct (lock_of_inv _ _ Hi Hc) as (cb & Hcb & Hlk). destruct (Ha l eq_refl) as [lb Hlb].
  eexists. split; [cbn; eauto 8 using reads_bind with bft|]. guards.
  intros [[? ?] ?]. exists l, cb, lb. by repeat split.
Qed.

Lemma safe_check_for_lock_reads s l lb :
  drv_inv s -> block_at l s = Some lb -> exists r,
  reads (safe_check_for_lock_block (Some l)) r s /\
  (r = true <-> is_deliver lb false = true /\ forall cb, lock_of s = Some cb -> block_over_lock cb lb = true).
Proof.
  intros Hi Hlb.
  assert (Ht : exists o, reads (match m_latest_lock_block (cs_st s) with
                | Some c => safe_check_with (Some c) (Some l) | None => ret true end) o s /\
            (o = true <-> forall cb, lock_of s = Some cb -> block_over_lock cb lb = true)).
  { destruct (m_latest_lock_block (cs_st s)) as [c|] eqn:Hc.
    - destruct (lock_of_inv _ _ Hi Hc) as (cb & Hcb & Hlk).
      exists (block_over_lock cb lb). split; [by apply safe_check_with_reads|].
      rewrite Hlk. split; [by intros ? ? [= <-]|]. intros Hq. by apply Hq.
    - exists true. split; [done|]. unfold lock_of. by rewrite Hc. }
  destruct Ht as (o & Hr & Ho). exists (o && is_deliver lb false). split.
  - eapply reads_bind; [apply reads_st_get|].
    eapply reads_bind; [destruct (m_latest_lock_block (cs_st s)); exact Hr|].
    destruct o; [|done]. eapply reads_bind; [by apply deref_reads|].
    by destruct (is_deliver lb false).
  - rewrite andb_true_iff, Ho. tauto.
Qed.

Lemma rules_set_lock_effect s latest :
  drv_inv s -> (forall l, latest = Some l -> allocated s l) ->
  exists r s', rules_set_lock_block latest s = Some (r, s') /\ lock_effect s latest r s'.
Proof.
  intros Hi Ha. unfold rules_set_lock_block. run_simple.
  destruct (_ && _) eqn:Hsame; guards.
  { destruct Hsame as [Hn He]. destruct latest as [l|]; [|congruence].
    exists true, s. split; [done|]. by eapply lock_same. }
  destruct (same_lock_object_reads s latest Hi Ha) as (r & Hr & Hobj).
  rewrite (bind_runs _ _ _ _ _ Hr). destruct r.
  { destruct (Hobj eq_refl) as (l & cb & lb & -> & ? & ? & ? & ? & ?). run_simple.
    eexists _, _. split; [reflexivity|]. by eapply lock_object. }
  destruct latest as [l|]; [|eexists _, _; split; [reflexivity|]; constructor].
  destruct (Ha l eq_refl) as [lb Hlb].
  destruct (safe_check_for_lock_reads s l lb Hi Hlb) as (r & Hr' & Hsafe).
  rewrite (bind_runs _ _ _ _ _ Hr'). destruct r; cbn;
    [|eexists _, _; split; [reflexivity|]; constructor].
  destruct (proj1 Hsafe eq_refl) as [Hd Hov].
  destruct (bool_decide_reflect (m_latest_lock_block (cs_st s) <> Some l)) as [Hne|He].
  - rewrite (replace_lock_runs _ _ _ Hi Hlb). eexists _, _. split; [reflexivity|].
    by eapply lock_advanced.
  - eexists _, _. split; [reflexivity|]. constructor.
Qed.

(** A refused lock changes nothing; an accepted one never moves back. *)
Lemma lock_effect_ok s latest r s' :
  drv_inv s -> lock_effect s latest r s' ->
  drv_inv s' /\ dle s s' /\ (r = true -> m_latest_lock_block (cs_st s') = latest /\ latest <> None).
Proof.
  intros Hi [|l ? Hl|l cb lb -> Hlk Hlb Hh Hv Hf|l lb -> Hlb Hd Hov]; subst; try done.
  - repeat split; try done; try apply Hi.
    + intros l' [= <-]. exists lb. split; [done|]. cbn.
      unfold lock_of in Hlk. destruct (m_latest_lock_block (cs_st s)) as [c|] eqn:Hc; [|done].
      destruct (di_lock _ Hi _ Hc) as (b & Hb & ? & ?). cbn in Hlk.
      assert (b = cb) by congruence. subst. lia.
    + intros b Hb. exists lb. split; [exact Hlb|]. assert (b = cb) by congruence. subst. left. by split.
  - split; [by apply add_outs_inv, locked_st_inv|]. split; [|done].
    etrans; [|apply add_outs_dle, Forall_forall; by intros e (? & -> & _)%list_elem_of_fmap].
    split; try done; cbn; try lia; [|by intros ->].
    intros b Hb. exists lb. split; [exact Hlb|].
    specialize (Hov _ Hb). apply block_over_lock_spec in Hov. right. lia.
Qed.

(** Fields that only [xBFTSyncdrv] reads do not matter to the rules. *)
Lemma set_syncing_inv v s : drv_inv s -> drv_inv (upd_st (set_syncing v) s).
Proof. by intros [? ? ? ? ? ?]. Qed.
Lemma set_syncing_dle v s : dle s (upd_st (set_syncing v) s).
Proof. split; try done. intros b Hb. exists b. by split. Qed.

Lemma set_lock_block_spec s latest :
  drv_inv s -> (forall l, latest = Some l -> allocated s l) ->
  exists r s', set_lock_block latest s = Some (r, s') /\ drv_inv s' /\ dle s s' /\
    (r = true -> m_latest_lock_block (cs_st s') = latest /\ latest <> None) /\
    (r = false -> s' = s).
Proof.
  intros Hi Ha. destruct (rules_set_lock_effect s latest Hi Ha) as (r & s1 & Hr & He).
  pose proof (lock_effect_ok _ _ _ _ Hi He) as (Hi1 & Hle & Hlk).
  unfold set_lock_block. rewrite (bind_runs _ _ _ _ _ Hr). destruct r; cycle 1.
  { exists false, s1. split_and!; try done. intros _. by inversion He. }
  destruct (Hlk eq_refl) as [Hl1 Hne]. run_simple.
  destruct (m_syncing_requests (cs_st s1)) eqn:Hq.
  { exists true, s1. split_and!; done. }
  destruct latest as [l1|]; [|done]. destruct (Ha l1 eq_refl) as [lb Hlb].
  rewrite <- (dle_block _ _ l1 Hle) in Hlb. run_simple.
  rewrite (bind_runs _ _ _ _ _ (deref_reads _ _ _ Hlb)). run_simple.
  eexists _, _. split; [reflexivity|]. split; [by apply set_syncing_inv|].
  split; [etrans; [exact Hle|apply set_syncing_dle]|]. by split.
Qed.

Lemma get_lock_block_spec s :
  drv_inv s -> exists r s', get_lock_block s = Some (r, s') /\ drv_inv s' /\ dle s s' /\
    r = m_latest_lock_block (cs_st s') /\ (m_latest_lock_block (cs_st s) <> None -> s' = s).
Proof.
  intros Hi. unfold get_lock_block. run_simple.
  destruct (m_latest_lock_block (cs_st s)) as [l|] eqn:Hl.
  { eexists _, s. split; [reflexivity|]. split_and!; done. }
  run_simple. destruct (w_latest_locked (cs_world s)) as [l|] eqn:Hw; cycle 1.
  { eexists _, s. split; [reflexivity|]. split_and!; done. }
  destruct (set_lock_block_spec s (Some l) Hi) as (r & s' & Hr & Hi' & Hle & Ht & Hf).
  { intros l' [= <-]. by apply (di_store _ Hi). }
  rewrite (bind_runs _ _ _ _ _ Hr).
  eexists _, s'. split; [reflexivity|]. split_and!; done.
Qed.

(** ** Reading with a lock in place *)

Lemma get_lock_reads s l : m_latest_lock_block (cs_st s) = Some l -> reads get_lock_block (Some l) s.
Proof. intros Hl. unfold reads, get_lock_block. run_simple. by rewrite Hl. Qed.

Lemma lock_block_reads s lb : lock_of s = Some lb -> reads lock_block lb s.
Proof.
  unfold lock_of. destruct (m_latest_lock_block (cs_st s)) as [l|] eqn:Hl; [|done]. intros Hb.
  eapply reads_bind; [by apply get_lock_reads|]. eapply reads_bind; [done|]. by apply deref_reads.
Qed.

Lemma lock_of_ptr s lb : lock_of s = Some lb ->
  exists l, m_latest_lock_block (cs_st s) = Some l /\ block_at l s = Some lb.
Proof. unfold lock_of. destruct (m_latest_lock_block (cs_st s)) as [l|]; [eauto|done]. Qed.

Lemma safe_check_for_block_reads s lb p b :
  lock_of s = Some lb -> block_at p s = Some b ->
  reads (safe_check_for_block (Some p)) (block_over_lock lb b) s.
Proof.
  intros (l & Hl & Hlb)%lock_of_ptr Hb.
  eapply reads_bind; [by apply get_lock_reads|]. by apply safe_check_with_reads.
Qed.

Lemma follow_reads s lb p b :
  lock_of s = Some lb -> block_at p s = Some b ->
  reads (safe_check_follow_locked_branch (Some p)) (follow_branch lb b) s.
Proof.
  intros Hl Hb. eapply reads_bind; [by apply lock_block_reads|].
  eapply reads_bind; [by apply deref_reads|]. done.
Qed.

Lemma with_lock_reads s lb test : lock_of s = Some lb -> reads (with_lock test) (test lb) s.
Proof.
  intros (l & Hl & Hlb)%lock_of_ptr. eapply reads_bind; [by apply get_lock_reads|].
  eapply reads_bind; [by apply deref_reads|]. done.
Qed.

(** ** The voting rules as boolean functions of the state *)

Definition behind_opt (s : dstate) (b : xvblock) (o : option ptr) : bool :=
  match o ≫= fun p => block_at p s with Some ob => behind b ob | None => false end.

Definition proposal_block_ok (lb b : xvblock) : bool :=
  block_over_lock lb b && is_input_ready b false && (get_block_flags b =? 0)
  && bool_decide (get_block_hash b = EmptyString) && is_valid b true.

Definition precheck (s : dstate) (lb b : xvblock) : bool :=
  proposal_block_ok lb b
  && negb ((get_viewid b <=? m_latest_voted_viewid (cs_st s)) || (get_height b <? m_latest_voted_height (cs_st s)))
  && negb (behind_opt s b (get_latest_block (m_certified_blocks (cs_st s))))
  && negb (behind_opt s b (latest_prop_of s))
  && (0 <=? follow_branch lb b).

Definition hqc_ok (s : dstate) (lb b : xvblock) (e : Z * ptr) : bool :=
  match block_at e.2 s with
  | Some c => (get_height b =? u64 (get_height c + 1))
              && bool_decide (get_last_block_hash b = get_block_hash c)
              && bool_decide (get_block_hash lb = get_last_block_hash c)
  | None => false
  end.

Definition finalcheck (s : dstate) (lb b : xvblock) : bool :=
  negb ((get_height b <=? get_height lb) || (get_viewid b <=? get_viewid lb))
  && negb (behind_opt s b (get_latest_block (m_certified_blocks (cs_st s))))
  && (0 <? follow_branch lb b)
  && (if get_height b =? u64 (get_height lb + 2)
      then existsb (hqc_ok s lb b) (rev (m_certified_blocks (cs_st s))) else true).

Lemma behind_reads s b o :
  (forall p, o = Some p -> allocated s p) -> reads (behind_ptr b o) (behind_opt s b o) s.
Proof.
  intros Ha. destruct o as [p|]; [|done]. destruct (Ha p eq_refl) as [ob Hob].
  unfold behind_opt. cbn. rewrite Hob. eapply reads_bind; [by apply deref_reads|]. done.
Qed.

Lemma latest_cert_alloc s p :
  drv_inv s -> get_latest_block (m_certified_blocks (cs_st s)) = Some p -> allocated s p.
Proof.
  intros Hi [v Hin]%get_latest_block_in. destruct (di_certs_at _ Hi _ _ Hin) as (b & Hb & _).
  by exists b.
Qed.

Lemma latest_prop_alloc s p : drv_inv s -> latest_prop_of s = Some p -> allocated s p.
Proof.
  intros Hi. unfold latest_prop_of. destruct (get_latest_block _) as [q|] eqn:E; [|done].
  apply get_latest_block_in in E as [v Hin].
  destruct (di_props_at _ Hi _ _ Hin) as (b & Hb & _). unfold prop_block_of in Hb. cbn.
  destruct (d_props (cs_st s) !! q) as [x|]; [|done]. cbn in *. intros [= <-]. by exists b.
Qed.

Lemma proposal_block_reads s lb p b :
  lock_of s = Some lb -> block_at p s = Some b ->
  reads (safe_check_for_proposal_block (Some p)) (proposal_block_ok lb b) s.
Proof.
  intros Hl Hb. unfold proposal_block_ok.
  eapply reads_bind; [by apply safe_check_for_block_reads|].
  destruct (block_over_lock lb b); [|done]. cbn [negb andb].
  eapply reads_bind; [done|]. eapply reads_bind; [by apply deref_reads|].
  destruct (is_input_ready b false); [|done]. destruct (get_block_flags b =? 0); [|done].
  destruct (bool_decide _); [|done]. by destruct (is_valid b true).
Qed.

Lemma precheck_reads s lb p b :
  drv_inv s -> lock_of s = Some lb -> block_at p s = Some b ->
  reads (safe_precheck_for_voting (Some p)) (precheck s lb b) s.
Proof.
  intros Hi Hl Hb. unfold precheck.
  eapply reads_bind; [by apply proposal_block_reads|].
  destruct (proposal_block_ok lb b); [|done]. cbn [negb andb].
  eapply reads_bind; [done|]. eapply reads_bind; [by apply deref_reads|].
  do 2 (eapply reads_bind; [apply reads_st_get|]).
  destruct (_ || _); [done|]. cbn [negb andb].
  eapply reads_bind; [apply latest_cert_reads|].
  eapply reads_bind; [apply behind_reads; eauto using latest_cert_alloc|].
  destruct (behind_opt _ _ _); [done|]. cbn [negb andb].
  eapply reads_bind; [by apply latest_prop_reads|].
  eapply reads_bind; [apply behind_reads; eauto using latest_prop_alloc|].
  destruct (behind_opt _ _ _); [done|]. cbn [negb andb].
  eapply reads_bind; [by apply follow_reads|].
  destruct (Z.ltb_spec (follow_branch lb b) 0), (Z.leb_spec 0 (follow_branch lb b)); try lia; done.
Qed.

Lemma finalcheck_reads s lb p b :
  drv_inv s -> lock_of s = Some lb -> block_at p s = Some b ->
  reads (safe_finalcheck_for_voting (Some p)) (finalcheck s lb b) s.
Proof.
  intros Hi Hl Hb. unfold finalcheck.
  destruct (lock_of_ptr _ _ Hl) as (l & Hlp & Hlb).
  eapply reads_bind; [by apply get_lock_reads|].
  eapply reads_bind; [by apply deref_reads|]. eapply reads_bind; [by apply deref_reads|].
  destruct (_ || _); [done|]. cbn [negb andb].
  eapply reads_bind; [apply latest_cert_reads|].
  eapply reads_bind; [apply behind_reads; eauto using latest_cert_alloc|].
  destruct (behind_opt _ _ _); [done|]. cbn [negb andb].
  eapply reads_bind; [by apply follow_reads|].
  destruct (0 <? _); [|done]. destruct (_ =? _); [|done]. cbn [andb].
  eapply reads_bind; [apply reads_st_get|]. apply reads_any. intros [v q] Hin.
  assert (Hin' : (v, q) ∈ m_certified_blocks (cs_st s)).
  { apply list_elem_of_In, in_rev, list_elem_of_In. exact Hin. }
  destruct (di_certs_at _ Hi _ _ Hin') as (c & Hc & _).
  unfold hqc_ok. cbn [snd]. rewrite Hc. eapply reads_bind; [by apply deref_reads|]. done.
Qed.
End Facts.

(** ** Properties *)

Section Properties.
Context `{XVBlock}.

(** [if(x != y) return -1; return 1;] *)
Lemma sign_iff (x y : string) : (0 <? (if bool_decide (x <> y) then -1 else 1)) = true <-> x = y.
Proof. destruct (bool_decide_reflect (x <> y)) as [|Hn]; cbn; split; try done. intros _. by apply dec_stable. Qed.

Lemma follow_branch_over lb b :
  0 <= get_height lb -> get_height lb + 2 < 2 ^ 64 ->
  get_height lb < get_height b -> get_height b + 1 < 2 ^ 64 ->
  (0 <? follow_branch lb b) = true <->
  (get_height b = get_height lb + 1 /\ get_last_block_hash b = get_block_hash lb) \/
  (get_height b = get_height lb + 2 /\
   get_justify_cert_hash b = (if bool_decide (get_block_level b = level_unit)
                              then get_block_hash lb else get_output_root_hash lb)).
Proof.
  intros Hu Hs Hlt Hb. unfold follow_branch.
  rewrite !(u64_small (_ + _)) by (unfold is_u64; lia).
  assert (E1 : (get_height b =? u64 (get_height lb - 1)) = false).
  { apply Z.eqb_neq. destruct (Z.eq_dec (get_height lb) 0) as [E|E].
    - rewrite E. change (u64 (0 - 1)) with (2 ^ 64 - 1). lia.
    - rewrite u64_small by (unfold is_u64; lia). lia. }
  rewrite E1.
  destruct (Z.eqb_spec (get_height b) (get_height lb)); [lia|].
  destruct (Z.eqb_spec (get_height b) (get_height lb + 1)).
  { rewrite sign_iff. split; [by left|]. intros [[_ ?]|[? _]]; [done|lia]. }
  destruct (Z.eqb_spec (get_height b) (get_height lb + 2)); [|cbn; split; [done|lia]].
  destruct (bool_decide (get_block_level b = level_unit)); rewrite sign_iff;
    (split; [by right|]; intros [[? _]|[_ ?]]; [lia|done]).
Qed.

(** The certified blocks held, as blocks. *)
Definition held_cert (s : dstate) (c : xvblock) : Prop :=
  exists v q, (v, q) ∈ m_certified_blocks (cs_st s) /\ block_at q s = Some c.

Definition heights_ok (s : dstate) : Prop :=
  forall p b, block_at p s = Some b -> 0 <= get_height b /\ get_height b + 2 < 2 ^ 64.

(** What the final check requires of a block before a vote leaves the node. *)
Definition vote_allowed (s : dstate) (lb b : xvblock) : Prop :=
  get_height lb < get_height b /\ get_viewid lb < get_viewid b /\
  (forall q c, get_latest_block (m_certified_blocks (cs_st s)) = Some q -> block_at q s = Some c ->
     get_viewid c < get_viewid b /\ get_height c < get_height b) /\
  ((get_height b = get_height lb + 1 /\ get_last_block_hash b = get_block_hash lb) \/
   (get_height b = get_height lb + 2 /\
    get_justify_cert_hash b = (if bool_decide (get_block_level b = level_unit)
                               then get_block_hash lb else get_output_root_hash lb) /\
    exists c, held_cert s c /\ get_height b = get_height c + 1 /\
      get_last_block_hash b = get_block_hash c /\ get_last_block_hash c = get_block_hash lb)).

Lemma behind_opt_spec s b o :
  (forall p, o = Some p -> allocated s p) ->
  behind_opt s b o = false <->
  forall q c, o = Some q -> block_at q s = Some c -> get_viewid c < get_viewid b /\ get_height c < get_height b.
Proof.
  intros Ha. unfold behind_opt. destruct o as [p|]; [|by split]. destruct (Ha p eq_refl) as [c Hc].
  cbn. rewrite Hc. unfold behind. guards. split.
  - intros ? q c' [= <-] Hc'. assert (c' = c) by congruence. subst. lia.
  - intros Hq. destruct (Hq p c eq_refl Hc). lia.
Qed.

Lemma hqc_exists s lb b :
  drv_inv s -> heights_ok s ->
  existsb (hqc_ok s lb b) (rev (m_certified_blocks (cs_st s))) = true <->
  exists c, held_cert s c /\ get_height b = get_height c + 1 /\
    get_last_block_hash b = get_block_hash c /\ get_last_block_hash c = get_block_hash lb.
Proof.
  intros Hi Hh. rewrite existsb_exists. split.
  - intros ([v q] & Hin & Hok). apply in_rev, list_elem_of_In in Hin. unfold hqc_ok in Hok. cbn [snd] in Hok.
    destruct (block_at q s) as [c|] eqn:Hc; [|done]. guards. destruct Hok as [[E1 E2] E3].
    destruct (Hh _ _ Hc). rewrite u64_small in E1 by (unfold is_u64; lia).
    exists c. split; [exists v, q; by split|]. split_and!; done.
  - intros (c & (v & q & Hin & Hc) & E1 & E2 & E3). exists (v, q).
    split; [by apply (proj1 (in_rev _ _)), list_elem_of_In|]. unfold hqc_ok. cbn [snd]. rewrite Hc.
    destruct (Hh _ _ Hc). rewrite u64_small by (unfold is_u64; lia). guards. split_and!; done.
Qed.
(** The final check as a rule. *)
Lemma finalcheck_spec s p lb b :
  drv_inv s -> heights_ok s -> lock_of s = Some lb -> block_at p s = Some b ->
  finalcheck s lb b = true <-> vote_allowed s lb b.
Proof.
  intros Hi Hh Hl Hb.
  destruct (lock_of_ptr _ _ Hl) as (l & _ & Hlb). destruct (Hh _ _ Hb), (Hh _ _ Hlb).
  unfold finalcheck, vote_allowed. rewrite !andb_true_iff, !negb_true_iff, orb_false_iff, !Z.leb_gt.
  rewrite behind_opt_spec by eauto using latest_cert_alloc.
  rewrite u64_small by (unfold is_u64; lia).
  split.
  - intros [[[[? ?] ?] Hf] Hq]. split_and!; try done.
    apply follow_branch_over in Hf as [[? ?]|[E ?]]; [by left| |lia..].
    right. rewrite E, Z.eqb_refl in Hq. apply hqc_exists in Hq; [|done..].
    split_and!; done.
  - intros (? & ? & ? & Hbr). split_and!; try done.
    + apply follow_branch_over; [lia..|]. destruct Hbr as [?|(? & ? & _)]; [by left|by right].
    + destruct Hbr as [[E _]|(E & _ & Hc)].
      * by rewrite (proj2 (Z.eqb_neq _ _)) by lia.
      * destruct (_ =? _); [|done]. by apply hqc_exists.
Qed.
End Properties.

(** The rule a vote must pass, exactly: with a lock block in place, the
    final check answers true for a block if and only if the block is above
    the lock and above the latest certified block in both height and view,
    and either is the lock's child or is the lock's grandchild whose parent
    is a certified block held by the node that itself links to the lock.  The
    check changes nothing and is defined. *)
Theorem safe_finalcheck_spec `{XVBlock} (s : dstate) (p : ptr) (lb b : xvblock)
    (Hi : drv_inv s) (Hh : heights_ok s) (Hl : lock_of s = Some lb) (Hb : block_at p s = Some b) :
  exists r, safe_finalcheck_for_voting (Some p) s = Some (r, s) /\ (r = true <-> vote_allowed s lb b).
Proof.
  exists (finalcheck s lb b). split; [by apply finalcheck_reads|]. by eapply finalcheck_spec.
Qed.

(** The lock never moves back: whatever block the upper layers or the
    block store offer, [set_lock_block] is defined, keeps the driver's
    invariant, never lowers the vote counters, and leaves a lock whose height
    and view are both those of the old lock or both strictly greater; when it
    answers false nothing changed. *)
Theorem set_lock_block_monotone `{XVBlock} (s : dstate) (latest : option ptr)
    (Hi : drv_inv s) (Ha : forall l, latest = Some l -> allocated s l) :
  exists r s', set_lock_block latest s = Some (r, s') /\
    drv_inv s' /\
    m_latest_voted_height (cs_st s) <= m_latest_voted_height (cs_st s') /\
    m_latest_voted_viewid (cs_st s) <= m_latest_voted_viewid (cs_st s') /\
    (forall b, lock_of s = Some b -> exists b', lock_of s' = Some b' /\ pos_le b b') /\
    (r = true -> m_latest_lock_block (cs_st s') = latest /\ latest <> None) /\
    (r = false -> s' = s).
Proof.
  destruct (set_lock_block_spec s latest Hi Ha) as (r & s' & Hr & Hi' & Hle & Ht & Hf).
  exists r, s'. split_and!; try done; apply Hle.
Qed.

(** The elements a filter keeps. *)
Lemma in_filter {A} (f : A -> bool) (l : list A) e : e ∈ List.filter f l <-> e ∈ l /\ f e = true.
Proof. rewrite !list_elem_of_In. apply List.filter_In. Qed.

(** Advancing the lock prunes exactly: a delivered block over the old
    lock (or any delivered block when there is none) becomes the lock, of the
    certified blocks and proposals exactly those over the new lock stay, and
    when the driver is attached each dropped proposal is reported once as out
    of date, in increasing view order. *)
Theorem set_lock_block_prunes `{XVBlock} (s : dstate) (l : ptr) (lb : xvblock)
    (Hi : drv_inv s) (Hb : block_at l s = Some lb) (Hd : is_deliver lb false = true)
    (Hnew : m_latest_lock_block (cs_st s) <> Some l)
    (Hov : forall cb, lock_of s = Some cb -> block_over_lock cb lb = true) :
  exists s', rules_set_lock_block (Some l) s = Some (true, s') /\
    m_latest_lock_block (cs_st s') = Some l /\
    (forall e, e ∈ m_certified_blocks (cs_st s') <->
       e ∈ m_certified_blocks (cs_st s) /\ over_ptr s lb e.2 = true) /\
    (forall e, e ∈ m_proposal_blocks (cs_st s') <->
       e ∈ m_proposal_blocks (cs_st s) /\ prop_over s lb e.2 = true) /\
    exists gone : list (Z * ptr),
      gone ≡ₚ List.filter (fun e => negb (prop_over s lb e.2)) (m_proposal_blocks (cs_st s)) /\
      StronglySorted (fun a b => a.1 < b.1) gone /\
      (cs_parent s = true -> cs_out s' = cs_out s ++ (outofdate_event s' <$> (snd <$> gone))).
Proof.
  assert (Hruns : rules_set_lock_block (Some l) s = Some (true, advanced s l lb)).
  { unfold rules_set_lock_block. run_simple.
    rewrite (bool_decide_false (_ = Some l)) by done. rewrite andb_false_r.
    destruct (same_lock_object_reads s (Some l) Hi) as (r & Hr & Hobj).
    { intros l' [= <-]. by exists lb. }
    rewrite (bind_runs _ _ _ _ _ Hr). destruct r.
    { destruct (Hobj eq_refl) as (l' & cb & lb' & [= <-] & Hcb & Hb' & ? & _).
      specialize (Hov _ Hcb). apply block_over_lock_spec in Hov. assert (lb' = lb) by congruence. subst. lia. }
    destruct (safe_check_for_lock_reads s l lb Hi Hb) as (r & Hr' & Hsafe).
    rewrite (bind_runs _ _ _ _ _ Hr'). rewrite (proj2 Hsafe) by done. cbn [negb].
    rewrite bool_decide_true by done. by apply replace_lock_runs. }
  eexists. split; [exact Hruns|].
  split_and!; [done|intros e; apply (in_filter (fun e => over_ptr s lb e.2))
    |intros e; apply (in_filter (fun e => prop_over s lb e.2))|].
  exists (sort_by fst (List.filter (fun e => negb (prop_over s lb e.2)) (m_proposal_blocks (cs_st s)))).
  split_and!; [by rewrite sort_by_perm| |].
  - apply sort_by_strict, key_sorted_nodup. by apply filter_sorted, Hi.
  - unfold advanced, add_outs. cbn. intros ->. done.
Qed.
