(* ===== verification/Sync.v ===== *)
(** * Block synchronisation ([xBFTSyncdrv], xconsync.cpp)

    Requests for missing blocks, the answers to other nodes' requests, and
    the admission of a received block: checked, handed to a worker that
    verifies its certificate, and taken up as a certified block.  Assertions
    and log output are left out. *)

From stdpp Require Import prelude gmap strings.
From Stdlib Require Import ZArith Lia.
From S2P Require Import Prelude Stream StdMap VBlock Pdu Proposal BFTState Rules.

(** ** Expiry of pending requests *)

(** [xsyn_request(height, clock, trycount)]: the constructor leaves
    [expired_viewid] as it finds it. *)
Definition new_syn_request (uninit height clock trycount : Z) : xsyn_request :=
  XSynRequest height clock uninit (u8 trycount).

Definition expired_at_view (viewid clock : Z) (r : xsyn_request) : bool :=
  if negb (expired_viewid r =? 0) then expired_viewid r <=? viewid
  else if negb (expired_clock r =? 0) then expired_clock r <=? clock
  else false.
Definition expired_at_clock (clock_height : Z) (r : xsyn_request) : bool :=
  negb (expired_clock r =? 0) && (expired_clock r <=? clock_height).

Definition sync_on_view_fire (viewid clock : Z) : DP bool :=
  st_mod (fun d => set_syncing
    (List.filter (fun e => negb (expired_at_view viewid clock e.2)) (m_syncing_requests d)) d) ;;;
  ret true.
Definition sync_on_clock_fire (clock_height : Z) : DP bool :=
  st_mod (fun d => set_syncing
    (List.filter (fun e => negb (expired_at_clock clock_height e.2)) (m_syncing_requests d)) d) ;;;
  ret true.

Section Sync.
Context `{XVCert} `{XVBlock} `{XCertAuth} `{XCodec}.

(** ** Requests *)

Definition sync_key (hash : string) (height : Z) : string := hash +:+ xstring_tostring height.

Definition sync_targets_all : Z :=
  Z.lor enum_xsync_target_block_object
    (Z.lor enum_xsync_target_block_input enum_xsync_target_block_output).

Definition retried (r : xsyn_request) : xsyn_request :=
  XSynRequest (target_height r) (expired_clock r) (expired_viewid r) (u8 (sync_trycount r + 1)).

Definition send_sync_request (from to : xvip2) (height : Z) (hash : string)
    (proof_viewid proof_viewtoken proof_height expired_at chainid : Z) : DP bool :=
  let* parent := gets (fun s => cs_parent s) in
  if negb (parent && (0 <? height)) then ret false
  else
    let* cookie := gets (fun s => u32 (w_rand (cs_world s))) in
    let* uninit := gets (fun s => w_uninit (cs_world s)) in
    let key := sync_key hash height in
    let* reqs := st_get m_syncing_requests in
    let* send := match map_find key reqs with
                 | Some r =>
                     st_mod (set_syncing (map_set key (retried r) reqs)) ;;;
                     ret (negb (2 <? sync_trycount (retried r)))
                 | None =>
                     st_mod (set_syncing (map_set key (new_syn_request uninit height expired_at 1) reqs)) ;;;
                     ret true
                 end in
    if negb send then ret true
    else
      let* account := st_get d_account in
      fire (EvPdu from to
        (XCspdu pdu_class_xbft msg_type_sync_reqt 0
           (enc_sync_request (new_sync_request sync_targets_all cookie height hash))
           chainid account proof_height 0 proof_viewid proof_viewtoken EmptyString EmptyString)) ;;;
      ret true.

Definition send_sync_request_cert (from to : xvip2) (height : Z) (hash : string)
    (proof : xvqcert) (proof_height expired_at chainid : Z) : DP bool :=
  send_sync_request from to height hash (c_viewid proof) (c_viewtoken proof) proof_height expired_at chainid.

(** ** Answering a request *)

Definition load_block (height : Z) : DP (option ptr) :=
  gets (fun s => w_load (cs_world s) height).
Definition query_block (height : Z) (hash : string) : DP (option ptr) :=
  gets (fun s => w_query (cs_world s) height hash).

Definition same_view (packet : xcspdu) (b : xvblock) : bool :=
  (get_viewid b =? pdu_viewid packet) && (get_viewtoken b =? pdu_viewtoken packet).

(** The requester proves membership by the view and token of a block
    near this node's lock. *)
Definition is_proof_check_pass (packet : xcspdu) : DP bool :=
  let* lb := lock_block in
  if get_height lb <? pdu_height packet then
    let* certs := st_get m_certified_blocks in
    any_prog (fun e => let* c := deref e.2 in
                       ret ((get_height c =? pdu_height packet) && same_view packet c)) (rev certs)
  else if pdu_height packet =? get_height lb then ret (same_view packet lb)
  else if u64 (get_height lb - pdu_height packet) <? 128 then
    let* q := load_block (pdu_height packet) in
    match q with
    | Some q => let* b := deref q in ret (same_view packet b)
    | None => ret false
    end
  else ret false.

Definition wants (targets bit : Z) : bool := negb (Z.land targets bit =? 0).

(** The block asked for, or the code of an early return. *)
Definition sync_target_block (msg : xsync_request_msg) : DP (Z + ptr) :=
  let height := sq_height msg in
  let* lb := lock_block in
  if get_height lb <? height then
    let* certs := st_get m_certified_blocks in
    let* found := find_prog (fun e => let* c := deref e.2 in
      ret ((get_height c =? height) && bool_decide (get_block_hash c = sq_hash msg))) (rev certs) in
    match found with
    | Some e => ret (inr e.2)
    | None =>
        let* q := query_block height (sq_hash msg) in
        match q with
        | None => ret (inl enum_xconsensus_error_not_found)
        | Some p => add_cert_block (Some p) ;;; ret (inr p)
        end
    end
  else if height =? get_height lb then
    let* l := get_lock_block in let* p := nonnull l in ret (inr p)
  else if u64 (get_height lb - height) <? 128 then
    let* q := load_block height in
    match q with
    | None => ret (inl enum_xconsensus_error_not_found)
    | Some p =>
        let* b := deref p in
        if bool_decide (sq_hash msg <> get_block_hash b) then ret (inl enum_xconsensus_error_bad_packet)
        else
          (if wants (sq_targets msg) enum_xsync_target_block_input && negb (is_input_ready b true)
           then update_block p load_block_input else ret tt) ;;;
          let* b' := deref p in
          (if wants (sq_targets msg) enum_xsync_target_block_output && negb (is_output_ready b' true)
           then update_block p load_block_output else ret tt) ;;;
          ret (inr p)
    end
  else ret (inl enum_xconsensus_error_outofdate).

(** The answer; [None]: a part asked for has no object, which is dereferenced. *)
Definition respond_msg (msg : xsync_request_msg) (b : xvblock) : option xsync_respond_msg :=
  input ← (if wants (sq_targets msg) enum_xsync_target_block_input then in_resources <$> b_input b else Some EmptyString);
  output ← (if wants (sq_targets msg) enum_xsync_target_block_output then out_resources <$> b_output b else Some EmptyString);
  Some (XSyncRespondMsg (sq_targets msg) 0 (sq_cookie msg) (block_to_string b) input output).

Definition handle_sync_request_msg (ev : xcspdu_fire) : DP Z :=
  let packet := ev_packet ev in
  let* checked := safe_check_for_sync_request_packet packet in
  match checked with
  | None => ret enum_xconsensus_error_bad_packet
  | Some msg =>
      let* pass := is_proof_check_pass packet in
      if negb pass then ret enum_xconsensus_error_not_authorized
      else
        let* target := sync_target_block msg in
        match target with
        | inl code => ret code
        | inr p =>
            let* b := deref p in
            let* respond := nonnull (respond_msg msg b) in
            fire_pdu_event_up msg_type_sync_resp (enc_sync_respond respond)
              (pdu_nonce packet + 1) (ev_to ev) (ev_from ev) b EmptyString ;;;
            ret enum_xconsensus_code_successful
        end
  end.

(** ** Taking up an answer *)

(** [packet] and the certified block of its view disagree. *)
Definition packet_unmatched (b : xvblock) (packet : xcspdu) : bool :=
  negb (get_height b =? pdu_height packet) || negb (get_chainid b =? pdu_chainid packet)
  || negb (get_viewid b =? pdu_viewid packet) || negb (bool_decide (get_account b = pdu_account packet)).

Definition fire_verify_syncblock_job (target : option ptr) (paired : option xvqcert) : DP bool :=
  match target with
  | None => ret false
  | Some p =>
      let* b := deref p in
      if negb (is_valid b true) then ret false
      else st_mod (add_job (JVerifySyncBlock p paired)) ;;; ret true
  end.

(** The received block, with its resources filled in. *)
Definition sync_block_of (msg : xsync_respond_msg) : option xvblock :=
  match create_block_object (sr_block_object msg) with
  | None => None
  | Some b => if negb (is_valid b false) then None
              else set_input_resources b (sr_input msg) ≫= fun b1 => set_output_resources b1 (sr_output msg)
  end.

Definition handle_sync_respond_msg (ev : xcspdu_fire) : DP Z :=
  let packet := ev_packet ev in
  let* checked := safe_check_for_sync_respond_packet packet in
  match checked with
  | None => ret enum_xconsensus_error_bad_packet
  | Some msg =>
      let* local := find_cert_block (pdu_viewid packet) in
      match local with
      | Some q =>
          let* c := deref q in
          ret (if packet_unmatched c packet then enum_xconsensus_error_bad_packet
               else enum_xconsensus_code_successful)
      | None =>
          match sync_block_of msg with
          | None => ret enum_xconsensus_error_bad_block
          | Some b =>
              let key := sync_key (get_block_hash b) (get_height b) in
              let* reqs := st_get m_syncing_requests in
              match map_find key reqs with
              | None => ret enum_xconsensus_error_bad_packet
              | Some _ =>
                  let* p := alloc b in
                  let* safe := safe_check_for_sync_block (Some p) in
                  (if safe then
                     update_block p reset_block_flags ;;;
                     st_mod (fun d => set_syncing (map_erase key (m_syncing_requests d)) d) ;;;
                     fire_verify_syncblock_job (Some p) None ;;; ret tt
                   else ret tt) ;;;
                  ret enum_xconsensus_code_successful
              end
          end
      end
  end.

(** ** On the worker, and back on the driver's thread *)

(** The verified certificate and block are flagged. *)
Definition authenticate (b : xvblock) : xvblock :=
  set_block_flag
    (with_cert b (with_cert_flags (b_cert b) (set_unit_flag (c_flags (b_cert b)) enum_xvblock_flag_authenticated)))
    enum_xvblock_flag_authenticated.

(** The body of the worker function of a commit or a sync block: merge the
    paired certificate, verify the multi-signature, call back. *)
Definition verify_block_work (p : ptr) (paired : option xvqcert) (callback : ptr -> call) : DP unit :=
  let* closed := st_get d_closed in
  if closed then ret tt
  else
    let* b := deref p in
    match (match paired with Some c => merge_cert b c | None => Some b end) with
    | None => ret tt
    | Some b1 =>
        store p b1 ;;;
        if verify_muti_sign_block b1 then
          store p (authenticate b1) ;;;
          st_mod (add_call (callback p))
        else ret tt
    end.

Definition work_verify_syncblock (p : ptr) (paired : option xvqcert) : DP unit :=
  verify_block_work p paired KAfterVerifySyncBlock.

Definition after_verify_syncblock (p : ptr) : DP unit :=
  let* added := add_cert_block (Some p) in
  if added then
    let* b := deref p in
    let* removed := remove_proposal (get_viewid b) in
    if removed then
      let* lock := get_lock_block in
      let* cert := get_latest_cert_block in
      let* prop := get_latest_proposal_block in
      fire_proposal_finish_event enum_xconsensus_code_successful EmptyString (Some p) None lock cert prop
    else fire (EvReplicateFinish p)
  else ret tt.
End Sync.
