(* ===== verification/Driver.v ===== *)
(** * The BFT driver ([xBFTdriver_t], xconsdriver.cpp)

    Handlers run on the driver's thread.  What the source hands to the worker
    pool is a [job] left in [d_jobs], and what a worker or the driver itself
    sends back to the driver's thread is a [call] left in [d_calls]; both are
    run by [run_job] and [run_call].  Each handler returns the code the
    source returns.  [None] is a null dereference, which the source commits
    where it writes [get_lock_block()->...] and no lock is known. *)

From stdpp Require Import prelude gmap strings.
From Stdlib Require Import ZArith Lia.
From S2P Require Import Prelude Stream StdMap VBlock Pdu Proposal BFTState Rules Sync.

(** [xproposal_start]: the event that starts a round. *)
Record xproposal_start := XProposalStart {
  ps_proposal : option ptr; ps_lock : option ptr; ps_commit : option ptr; ps_cert : option ptr;
  ps_expired_ms : Z
}.

(** The application's check of a proposal, reached through the parent layers;
    it may fill in the block's resources. *)
Class XVerifier := {
  verify_proposal : xvblock -> option xvqcert -> Z * xvblock;
}.

Class XVerifierLaws `{XVerifier} : Prop := {
  verify_proposal_id : forall b c, same_id b (verify_proposal b c).2;
}.

Definition get_leader_address (b : xvblock) : xvip2 :=
  if negb (get_node_id_from_xip2 (c_validator (b_cert b)) =? 0x3FF)
  then c_validator (b_cert b) else c_auditor (b_cert b).

Definition self : DP xvip2 := gets (fun s => cs_self s).
Definition prop_update (p : ptr) (f : xproposal -> xproposal) : DP unit :=
  let* x := prop_deref p in prop_store p (f x).

(** [get_parent_node()->push_event_up]: no null test. *)
Definition push_up (e : xevent) : DP unit :=
  fun s => if cs_parent s then emit e s else None.

Section Driver.
Context `{XVCert} `{XVBlock} `{XCertAuth} `{XCodec} `{XVerifier}.

(** ** Events deferred to the driver's own thread *)

Definition async_fire_proposal_finish_event (err : Z) (detail : string) (proposal : option ptr) : DP bool :=
  match proposal with
  | None => ret false
  | Some p => st_mod (add_call (KFireProposalFinish err detail p)) ;;; ret true
  end.
Definition after_fire_proposal_finish (err : Z) (detail : string) (p : ptr) : DP unit :=
  let* cert := get_latest_cert_block in
  fire_proposal_finish_event err detail (Some p) None None cert None.
Definition async_fire_consensus_update_event : DP bool :=
  st_mod (add_call KFireConsensusUpdate) ;;; ret true.
Definition after_fire_consensus_update : DP unit :=
  let* cert := get_latest_cert_block in fire (EvConsensusUpdateUp None None cert).

(** ** Certificates on their own *)

Definition fire_verify_cert_job (cert : option xvqcert) : DP bool :=
  match cert with
  | None => ret false
  | Some c => if negb (cert_is_deliver c) then ret false
              else st_mod (add_job (JVerifyCert c)) ;;; ret true
  end.
Definition flagged (c : xvqcert) : xvqcert :=
  with_cert_flags c (set_unit_flag (c_flags c) enum_xvblock_flag_authenticated).
Definition is_flagged (c : xvqcert) : bool := check_unit_flag (c_flags c) enum_xvblock_flag_authenticated.
Definition work_verify_cert (c : xvqcert) : DP unit :=
  let* closed := st_get d_closed in
  if closed then ret tt
  else
    let* account := st_get d_account in
    if verify_muti_sign_cert c account then st_mod (add_call (KAfterVerifyCert (flagged c))) else ret tt.
Definition after_verify_cert (c : xvqcert) : DP unit :=
  if is_flagged c then fire (EvCertificateFinish c) else ret tt.

(** ** Starting a round *)

Definition on_consensus_update (lock : option ptr) : DP bool :=
  set_lock_block lock ;;; ret true.

(** Step 1: take over the lock and the certified block of the upper layer. *)
Definition take_start_state (ev : xproposal_start) : DP unit :=
  let latest := match ps_lock ev with Some l => Some l | None => ps_commit ev end in
  match latest with
  | Some l =>
      let* ok := set_lock_block (Some l) in
      if ok then ret tt else (deref l ;;; lock_block ;;; ret tt)
  | None => ret tt
  end ;;;
  match ps_cert ev with
  | Some c => add_cert_block (Some c) ;;; ret tt
  | None => ret tt
  end.

(** Step 2: the proposal hangs on a delivered parent. *)
Definition parent_ok (b : xvblock) : DP bool :=
  match b_prev b with
  | None => ret false
  | Some q =>
      let* prev := deref q in
      ret (negb (negb (get_height b =? u64 (get_height prev + 1))
                 || negb (bool_decide (get_last_block_hash b = get_block_hash prev))
                 || negb (is_deliver prev false)))
  end.

Definition leader_block_ok (b : xvblock) : bool :=
  negb (negb (is_input_ready b true) || negb (is_output_ready b true) || negb (is_valid b true)
        || negb (bool_decide (get_block_hash b = EmptyString))
        || check_block_flag b enum_xvblock_flag_authenticated).

Definition justify (lb b : xvblock) : xvblock :=
  with_cert b (set_justify_cert_hash (b_cert b)
    (if bool_decide (get_block_level b = level_unit) then get_block_hash lb else get_output_root_hash lb)).

(** Step 4: sign as validator or as auditor. *)
Definition sign_block (who : xvip2) (rand : Z) (b : xvblock) : xvblock :=
  let signature := do_sign who (b_cert b) rand in
  if is_validator (b_cert b) (low_addr who)
  then set_verify_signature b signature else set_audit_signature b signature.

(** Steps 4 and 5: sign, remember and broadcast the proposal. *)
Definition launch_proposal (p : ptr) (expired_ms : Z) : DP unit :=
  let* me := self in
  let* rand := gets (fun s => w_rand (cs_world s)) in
  update_block p (sign_block me rand) ;;;
  let* b := deref p in
  let* q := nonnull (b_prev b) in
  let* prev := deref q in
  let* added := add_proposal (Some p) (Some (b_cert prev)) expired_ms in
  let* o := nonnull added in
  prop_update o (fun x => set_result_of_verify_proposal (mark_voted (mark_leader
    (add_voted_cert (b_cert b) x me (Some (b_cert b))).1)) enum_xconsensus_code_successful) ;;;
  let* msg := nonnull (new_proposal_msg b None (u32 (expired_ms * 2))) in
  fire_pdu_event_up msg_type_proposal (enc_proposal msg) 0 me broadcast_addr b
    (cert_to_string (b_cert prev)).

Definition start_proposal (p : ptr) (expired_ms : Z) : DP unit :=
  let refuse code := (async_fire_proposal_finish_event code EmptyString (Some p) ;;; ret tt) in
  let* b := deref p in
  let* ok := parent_ok b in
  if negb ok then refuse enum_xconsensus_error_bad_proposal
  else
    let* lb := lock_block in
    if u64 (get_height lb + 2) <? get_height b then refuse enum_xconsensus_error_bad_proposal
    else
      update_block p (justify lb) ;;;
      let* b1 := deref p in
      if negb (leader_block_ok b1) then refuse enum_xconsensus_error_bad_proposal
      else
        let* safe := safe_precheck_for_voting (Some p) in
        if negb safe then refuse enum_xconsensus_error_outofdate
        else launch_proposal p expired_ms.

Definition on_proposal_start (ev : xproposal_start) : DP bool :=
  take_start_state ev ;;;
  match ps_proposal ev with
  | Some p => start_proposal p (ps_expired_ms ev) ;;; ret true
  | None => ret true
  end.

(** ** A proposal arrives at a replica *)

(** "checking local first": the code of an early return, if any. *)
Definition proposal_known (packet : xcspdu) : DP (option Z) :=
  let* local := find_proposal (pdu_viewid packet) in
  match local with
  | Some o =>
      let* b := prop_block o in
      if is_valid_packet b packet then ret (Some enum_xconsensus_error_bad_packet)
      else if is_input_ready b false && is_valid b false then ret (Some enum_xconsensus_error_duplicated)
      else if is_deliver b false then ret (Some enum_xconsensus_code_successful)
      else ret None
  | None =>
      let* cert := find_cert_block (pdu_viewid packet) in
      match cert with
      | Some q =>
          let* c := deref q in
          ret (Some (if packet_unmatched c packet then enum_xconsensus_error_bad_packet
                     else enum_xconsensus_code_successful))
      | None => ret None
      end
  end.

(** The certificate of the parent, decoded here unless the pacemaker did. *)
Definition peer_prev_cert (ev : xcspdu_fire) : option xvqcert :=
  match ev_vblock_cert ev with
  | Some c => Some c
  | None => cert_reset_block_flags <$> create_qcert_object (pdu_vblock_cert (ev_packet ev))
  end.

(** The proposed block, decoded and compared with the packet; [inl] is an
    early return, [None] a block without input object. *)
Definition peer_block_of (ev : xcspdu_fire) (me : xvip2) (msg : xproposal_msg) : option (Z + xvblock) :=
  let packet := ev_packet ev in
  match create_block_object (pm_block_object msg) with
  | None => Some (inl enum_xconsensus_error_bad_proposal)
  | Some b0 =>
      if negb (is_valid b0 false) then Some (inl enum_xconsensus_error_bad_proposal)
      else
        let b1 := reset_block_flags b0 in
        if is_xip2_equal (get_leader_address b1) (ev_to ev) then Some (inl enum_xconsensus_error_bad_proposal)
        else if negb (is_validator (b_cert b1) (low_addr me)) && negb (is_auditor (b_cert b1) (low_addr me))
        then Some (inl enum_xconsensus_error_bad_proposal)
        else
          b ← set_input_proposal b1 (pm_input_proposal msg);
          if negb (get_height b =? pdu_height packet) || negb (get_chainid b =? pdu_chainid packet)
             || negb (bool_decide (get_account b = pdu_account packet))
             || negb (get_viewid b =? pdu_viewid packet) || negb (get_viewtoken b =? pdu_viewtoken packet)
             || negb (is_input_ready b false) || negb (is_output_ready b false)
          then Some (inl enum_xconsensus_error_bad_proposal)
          else Some (inr b)
  end.

Definition sync_from_peer (ev : xcspdu_fire) (height : Z) (hash : string) (proof : xvqcert)
    (proof_height chainid : Z) : DP bool :=
  send_sync_request_cert (ev_to ev) (ev_from ev) height hash proof proof_height
    (u64 (ev_clock ev + 2)) chainid.

(** Step 3: the blocks below the proposal must be here; [true] when one is
    missing and was asked for. *)
Definition sync_missed_cert (ev : xcspdu_fire) (b : xvblock) (proof : xvqcert) : DP bool :=
  let* lb := lock_block in
  if u64 (get_height lb + 1) <? get_height b then
    let* certs := st_get m_certified_blocks in
    let* found := find_prog (fun e => let* c := deref e.2 in
      ret ((get_height b =? u64 (get_height c + 1))
           && bool_decide (get_last_block_hash b = get_block_hash c))) (rev certs) in
    match found with
    | None =>
        sync_from_peer ev (u64 (get_height b - 1)) (get_last_block_hash b) proof
          (u64 (get_height b - 1)) (get_chainid b) ;;;
        ret true
    | Some e =>
        if negb (get_height b =? u64 (get_height lb + 2)) then
          let* prev := deref e.2 in
          sync_from_peer ev (u64 (get_height prev - 1)) (get_last_block_hash prev) proof
            (u64 (get_height b - 1)) (get_chainid b) ;;;
          ret true
        else ret false
    end
  else ret false.
Definition sync_missed_commit (ev : xcspdu_fire) (b : xvblock) (proof : xvqcert) : DP bool :=
  let* lb := lock_block in
  if 1 <? get_height lb then
    match b_prev lb with
    | Some _ => ret false
    | None =>
        let* q := load_block (u64 (get_height lb - 1)) in
        match q with
        | Some _ => ret false
        | None =>
            sync_from_peer ev (u64 (get_height lb - 1)) (get_last_block_hash lb) proof
              (u64 (get_height b - 1)) (get_chainid lb) ;;;
            ret true
        end
    end
  else ret false.

(** The last steps: view alignment, voting rules, and the job. *)
Definition accept_proposal (ev : xcspdu_fire) (me : xvip2) (msg : xproposal_msg) (b : xvblock)
    (prev_cert : xvqcert) : DP Z :=
  let packet := ev_packet ev in
  if negb (ev_cookie ev =? pdu_viewid packet) then ret enum_xconsensus_error_wrong_view
  else
    let* p := alloc b in
    let* safe := safe_precheck_for_voting (Some p) in
    if negb safe then ret enum_xconsensus_error_outofdate
    else
      let* now := gets (fun s => w_now (cs_world s)) in
      let* o := prop_alloc (set_bind_clock_cert
        (set_expired_ms (new_proposal p (Some prev_cert)) (u64 (now + pm_expired_ms msg)))
        (ev_xclock_cert ev)) in
      add_proposal_obj o ;;;
      st_mod (add_job (JVerifyProposal (ev_from ev) me o (u16 (pdu_nonce packet + 1)) (ev_from ev) (ev_to ev))) ;;;
      ret enum_xconsensus_code_successful.

Definition handle_proposal_msg (ev : xcspdu_fire) : DP Z :=
  let* checked := safe_check_for_proposal_packet (ev_packet ev) in
  match checked with
  | None => ret enum_xconsensus_error_bad_packet
  | Some msg =>
      let* known := proposal_known (ev_packet ev) in
      match known with
      | Some code => ret code
      | None =>
          match peer_prev_cert ev with
          | None => ret enum_xconsensus_error_bad_proposal
          | Some prev_cert =>
              let* me := self in
              let* peer := nonnull (peer_block_of ev me msg) in
              match peer with
              | inl code => ret code
              | inr b =>
                  let* missed := sync_missed_cert ev b prev_cert in
                  if missed then ret enum_xconsensus_code_need_data
                  else
                    let* missed' := sync_missed_commit ev b prev_cert in
                    if missed' then ret enum_xconsensus_code_need_data
                    else accept_proposal ev me msg b prev_cert
              end
          end
      end
  end.

(** *** On the worker: verify the proposal and sign it *)

Definition check_clock_cert (c : xvqcert) : xvqcert :=
  if is_flagged c then c
  else if verify_muti_sign_cert c xclock_account then flagged c else c.

Definition replica_sign (replica : xvip2) (rand : Z) (b : xvblock) : xvblock :=
  let b1 := set_audit_signature (set_verify_signature b EmptyString) EmptyString in
  let signature := do_sign replica (b_cert b1) rand in
  if is_validator (b_cert b1) (low_addr replica) then set_verify_signature b1 signature
  else if is_auditor (b_cert b1) (low_addr replica) then set_audit_signature b1 signature
  else b1.

Definition work_verify_proposal (leader replica : xvip2) (o : ptr) (nonce : Z) (from to : xvip2) : DP unit :=
  let* closed := st_get d_closed in
  if closed then ret tt
  else
    let* x := prop_deref o in
    let* b := deref (p_block x) in
    if check_unit_flag (b_flags b) enum_xvblock_flag_authenticated then ret tt
    else
      let bind_cert := check_clock_cert <$> p_bind_clock_cert x in
      prop_update o (fun x => set_bind_clock_cert x bind_cert) ;;;
      if verify_sign_block leader b then
        let '(result, b1) := verify_proposal b bind_cert in
        store (p_block x) b1 ;;;
        prop_update o (fun x => set_result_of_verify_proposal x result) ;;;
        (if result =? enum_xconsensus_code_successful then
           prop_update o (fun x => (add_voted_cert (b_cert b1) x leader (Some (b_cert b1))).1) ;;;
           let* rand := gets (fun s => w_rand (cs_world s)) in
           store (p_block x) (replica_sign replica rand b1)
         else ret tt) ;;;
        st_mod (add_call (KAfterVerifyProposal o nonce from to))
      else ret tt.

(** *** Back on the driver's thread: the vote *)

Definition after_verify_proposal (o : ptr) (nonce : Z) (from to : xvip2) : DP unit :=
  let* x := prop_deref o in
  if p_result x =? enum_xconsensus_code_successful then
    let* safe := safe_finalcheck_for_voting (Some (p_block x)) in
    if safe then
      prop_update o mark_voted ;;;
      let* last_cert := nonnull (p_last_block_cert x) in
      (if is_flagged last_cert then fire (EvCertificateFinish last_cert) else ret tt) ;;;
      let* b := deref (p_block x) in
      fire_pdu_event_up msg_type_vote (enc_vote (new_vote_msg (b_cert b))) nonce to from b EmptyString
    else ret tt
  else
    let* b := deref (p_block x) in
    remove_proposal (get_viewid b) ;;;
    fire_proposal_finish_event (p_result x) EmptyString (Some (p_block x)) None None None None.
(** ** A vote arrives at the leader *)

Definition handle_vote_msg (ev : xcspdu_fire) : DP Z :=
  let packet := ev_packet ev in
  let* checked := safe_check_for_vote_packet packet in
  match checked with
  | None => ret enum_xconsensus_error_bad_packet
  | Some msg =>
      let* local := find_proposal (pdu_viewid packet) in
      match local with
      | None => ret enum_xconsensus_error_bad_vote
      | Some o =>
          let* x := prop_deref o in
          let* b := deref (p_block x) in
          if negb (is_valid_packet b packet) then ret enum_xconsensus_error_bad_vote
          else if negb (is_xip2_equal (get_leader_address b) (ev_to ev)) then ret enum_xconsensus_error_bad_packet
          else if is_vote_finish (b_cert b) x then ret enum_xconsensus_code_successful
          else
            match create_qcert_object (vm_justify_source msg) with
            | None => ret enum_xconsensus_error_bad_vote
            | Some c =>
                let voted := cert_reset_block_flags c in
                if negb (cert_is_equal voted (b_cert b)) then ret enum_xconsensus_error_bad_vote
                else st_mod (add_job (JVerifyVote (ev_from ev) voted o)) ;;;
                     ret enum_xconsensus_code_successful
            end
      end
  end.

(** *** On the worker: count the vote; the last one builds the certificate *)

Definition merge_signatures (x : xproposal) (b : xvblock) : xvblock :=
  let b1 := match p_voted_validators x with
            | [] => b
            | l => set_verify_signature b (merge_muti_sign l b)
            end in
  match p_voted_auditors x with
  | [] => b1
  | l => set_audit_signature b1 (merge_muti_sign l b1)
  end.

Definition finish_vote (o : ptr) (x : xproposal) (b : xvblock) : DP unit :=
  let b1 := merge_signatures x b in
  store (p_block x) b1 ;;;
  if verify_muti_sign_block b1 then
    store (p_block x) (authenticate b1) ;;;
    st_mod (add_call (KAfterVerifyVote o))
  else ret tt.

Definition work_verify_vote (replica : xvip2) (cert : xvqcert) (o : ptr) : DP unit :=
  let* closed := st_get d_closed in
  if closed then ret tt
  else
    let* x := prop_deref o in
    let* b := deref (p_block x) in
    if is_vote_finish (b_cert b) x then ret tt
    else if negb (verify_sign_cert replica cert (get_account b)) then ret tt
    else
      let '(x1, added) := add_voted_cert (b_cert b) x replica (Some cert) in
      prop_store o x1 ;;;
      if added && is_vote_finish (b_cert b) x1 then finish_vote o x1 b else ret tt.

(** *** Back on the driver's thread: the block is certified *)

Definition after_verify_vote (o : ptr) : DP unit :=
  let* x := prop_deref o in
  let* b := deref (p_block x) in
  if check_block_flag b enum_xvblock_flag_authenticated then
    remove_proposal (get_viewid b) ;;;
    let* added := add_cert_block (Some (p_block x)) in
    if added then
      let* me := self in
      fire_proposal_finish_event enum_xconsensus_code_successful EmptyString (Some (p_block x))
        None None None None ;;;
      fire_pdu_event_up msg_type_commit
        (enc_commit (new_commit_msg enum_xconsensus_code_successful (get_height b))) 1 me broadcast_addr b
        (cert_to_string (b_cert b))
    else ret tt
  else ret tt.

(** ** A commit arrives at a replica *)

Definition commit_known (packet : xcspdu) : DP (option Z) :=
  let* cert := find_cert_block (pdu_viewid packet) in
  match cert with
  | Some q =>
      let* c := deref q in
      ret (Some (if packet_unmatched c packet then enum_xconsensus_error_bad_packet
                 else enum_xconsensus_code_successful))
  | None => ret None
  end.

(** The local proposal of that view: [inl] is an early return, [inr (Some p)]
    the proposal's block when the commit is about it. *)
Definition match_local_proposal (packet : xcspdu) (from : xvip2) : DP (Z + option ptr) :=
  let* local := find_proposal (pdu_viewid packet) in
  match local with
  | None => ret (inr None)
  | Some o =>
      let* x := prop_deref o in
      let* b := deref (p_block x) in
      if is_deliver b false then ret (inl enum_xconsensus_code_successful)
      else
        let matched := is_valid_packet b packet && is_output_ready b true in
        if negb (is_xip2_equal (get_leader_address b) from) then ret (inl enum_xconsensus_error_bad_packet)
        else ret (inr (if matched then Some (p_block x) else None))
  end.

Definition fire_verify_commit_job (target : option ptr) (paired : option xvqcert) : DP bool :=
  match target with
  | None => ret false
  | Some p =>
      let* b := deref p in
      if negb (is_valid b true) then ret false
      else st_mod (add_job (JVerifyCommit p paired)) ;;; ret true
  end.

Definition commit_success (ev : xcspdu_fire) (msg : xcommit_msg) (cert : xvqcert) (hash : string)
    (matched : option ptr) : DP Z :=
  let packet := ev_packet ev in
  if negb (c_viewid cert =? pdu_viewid packet) || negb (c_viewtoken cert =? pdu_viewtoken packet)
  then ret enum_xconsensus_error_bad_commit
  else match matched with
       | Some p =>
           let* b := deref p in
           if negb (cert_is_equal cert (b_cert b)) then ret enum_xconsensus_error_bad_commit
           else fire_verify_commit_job (Some p) (Some cert) ;;; ret enum_xconsensus_code_successful
       | None =>
           sync_from_peer ev (cm_proof_cert_height msg) hash cert (cm_proof_cert_height msg)
             (pdu_chainid packet) ;;;
           ret enum_xconsensus_code_successful
       end.

Definition commit_failure (ev : xcspdu_fire) (msg : xcommit_msg) (cert : xvqcert) (hash : string)
    (matched : option ptr) : DP Z :=
  match matched with
  | Some p =>
      let* b := deref p in
      remove_proposal (get_viewid b) ;;;
      let* latest := get_latest_cert_block in
      fire_proposal_finish_event (cm_error_code msg) (cm_error_reason msg) (Some p) None None latest None ;;;
      ret enum_xconsensus_code_successful
  | None =>
      let* lb := lock_block in
      (if get_viewid lb <? c_viewid cert then
         let* local := find_cert_block (c_viewid cert) in
         match local with
         | None => sync_from_peer ev (cm_proof_cert_height msg) hash cert (cm_proof_cert_height msg)
                     (pdu_chainid (ev_packet ev)) ;;; ret tt
         | Some _ => ret tt
         end
       else ret tt) ;;;
      ret enum_xconsensus_code_successful
  end.

Definition handle_commit_msg (ev : xcspdu_fire) : DP Z :=
  let packet := ev_packet ev in
  let* checked := safe_check_for_commit_packet packet in
  match checked with
  | None => ret enum_xconsensus_error_bad_packet
  | Some msg =>
      let* known := commit_known packet in
      match known with
      | Some code => ret code
      | None =>
          let* local := match_local_proposal packet (ev_from ev) in
          match local with
          | inl code => ret code
          | inr matched =>
              match create_qcert_object (pdu_vblock_cert packet) with
              | None => ret enum_xconsensus_error_bad_commit
              | Some c =>
                  let hash := cert_hash c (pdu_vblock_cert packet) in
                  let cert := cert_reset_block_flags c in
                  if negb (cert_is_deliver cert) then ret enum_xconsensus_error_bad_commit
                  else if cm_error_code msg =? enum_xconsensus_code_successful
                  then commit_success ev msg cert hash matched
                  else commit_failure ev msg cert hash matched
              end
          end
      end
  end.

Definition work_verify_commit (p : ptr) (paired : option xvqcert) : DP unit :=
  verify_block_work p paired KAfterVerifyCommit.

Definition after_verify_commit (p : ptr) : DP unit :=
  let* added := add_cert_block (Some p) in
  if added then
    let* b := deref p in
    remove_proposal (get_viewid b) ;;;
    fire_proposal_finish_event enum_xconsensus_code_successful EmptyString (Some p) None None None None
  else ret tt.

(** ** A replica reports why it did not vote *)

(** Each of the three tests reads the lock anew. *)
Definition report_sync (ev : xcspdu_fire) (height : Z) (hash : string) (behind : xvblock -> bool) : DP unit :=
  let* lb := lock_block in
  if behind lb then
    sync_from_peer ev height hash (b_cert lb) (get_height lb) (pdu_chainid (ev_packet ev)) ;;; ret tt
  else ret tt.

Definition handle_votereport_msg (ev : xcspdu_fire) : DP Z :=
  match dec_vote_report (pdu_body (ev_packet ev)) with
  | Some r =>
      report_sync ev (vr_commit_height r) (vr_commit_hash r)
        (fun lb => get_height lb <? u64 (vr_commit_height r + 1)) ;;;
      report_sync ev (vr_lock_height r) (vr_lock_hash r) (fun lb => get_height lb <? vr_lock_height r) ;;;
      let* cert := latest_cert_value in
      (if (0 <? vr_cert_viewid r)
          && match cert with None => true | Some c => get_viewid c <? vr_cert_viewid r end
       then report_sync ev (vr_cert_height r) (vr_cert_hash r) (fun _ => true)
       else ret tt) ;;;
      ret enum_xconsensus_code_successful
  | None => ret enum_xconsensus_code_successful
  end.

(** ** Clock and view changes *)

Definition notify_timeout (stream cert : string) (o : ptr) : DP unit :=
  let* x := prop_deref o in
  let* b := deref (p_block x) in
  (if p_is_leader x then
     let* me := self in
     fire_pdu_event_up msg_type_commit stream 0 me broadcast_addr b cert
   else ret tt) ;;;
  fire_proposal_finish_event enum_xconsensus_error_timeout EmptyString (Some (p_block x)) None None None None.
Definition notify_cancel (o : ptr) : DP unit :=
  let* x := prop_deref o in
  fire_proposal_finish_event enum_xconsensus_error_cancel EmptyString (Some (p_block x)) None None None None.

(** The latest certified block, or else the lock. *)
Definition highest_cert_block : DP xvblock :=
  let* c := get_latest_cert_block in
  match c with Some p => deref p | None => lock_block end.

Definition notify_proposal_fail (timeout outofdate : list (Z * ptr)) : DP bool :=
  match timeout, outofdate with
  | [], [] => ret true
  | _, _ =>
      let* h := highest_cert_block in
      let stream := enc_commit (new_commit_msg enum_xconsensus_error_timeout (get_height h)) in
      let* sorted := sort_proposals timeout in
      for_each sorted (notify_timeout stream (cert_to_string (b_cert h))) ;;;
      let* sorted' := sort_proposals outofdate in
      for_each sorted' notify_cancel ;;;
      ret true
  end.

(** While proposals are held the lock is known, so the test inside the loop
    only reads and the container can be taken as a snapshot. *)
Definition on_clock_fire (clock_height : Z) : DP bool :=
  sync_on_clock_fire clock_height ;;;
  let* props := st_get m_proposal_blocks in
  let* kr := partition_prog (fun e =>
      let* x := prop_deref e.2 in safe_check_for_block (Some (p_block x))) props in
  st_mod (set_proposals kr.1) ;;;
  notify_proposal_fail [] kr.2.

Definition on_view_fire (viewid clock : Z) : DP bool :=
  sync_on_view_fire viewid clock ;;;
  let* props := st_get m_proposal_blocks in
  let* kt := partition_prog (fun e =>
      let* b := prop_block e.2 in ret (negb (get_viewid b <? viewid))) props in
  let* kr := partition_prog (fun e =>
      let* x := prop_deref e.2 in safe_check_for_block (Some (p_block x))) kt.1 in
  st_mod (set_proposals kr.1) ;;;
  notify_proposal_fail kt.2 kr.2.

(** ** Packets in *)

(** The report a node sends back: its latest certified, locked and committed blocks. *)
Definition build_report (result : Z) : DP xvote_report :=
  let* text := dump in
  let* cert := latest_cert_value in
  let* lb := lock_block in
  let* commit := match b_prev lb with
                 | Some q => let* b := deref q in ret (Some b)
                 | None => ret None
                 end in
  ret (set_latest_commit_block commit (set_latest_lock_block (Some lb)
        (set_latest_cert_block cert (new_vote_report result text)))).

Definition on_proposal_msg_recv (ev : xcspdu_fire) : DP bool :=
  let* result := handle_proposal_msg ev in
  if negb (result =? enum_xconsensus_code_successful) then
    let packet := ev_packet ev in
    let* report := build_report result in
    push_up (EvPdu (ev_to ev) (ev_from ev)
      (XCspdu pdu_class_xbft msg_type_vote_report (u16 (pdu_nonce packet + 1)) (enc_vote_report report)
         (pdu_chainid packet) (pdu_account packet) (pdu_height packet) (pdu_block_clock packet)
         (pdu_viewid packet) (pdu_viewtoken packet) EmptyString EmptyString)) ;;;
    ret false
  else ret true.

Definition send_report (result : Z) (from to : xvip2) : DP bool :=
  let* report := build_report result in
  let* lb := lock_block in
  let* account := st_get d_account in
  push_up (EvPdu from to
    (XCspdu pdu_class_xbft msg_type_vote_report 1 (enc_vote_report report)
       (get_chainid lb) account 0 0 0 0 EmptyString EmptyString)) ;;;
  ret true.

Definition on_msg_recv (handle : xcspdu_fire -> DP Z) (ev : xcspdu_fire) : DP bool :=
  let* result := handle ev in ret (result =? enum_xconsensus_code_successful).

Definition on_pdu_event_down (ev : xcspdu_fire) : DP bool :=
  if is_xip2_equal (ev_from ev) (ev_to ev) then ret true
  else if negb (pdu_class (ev_packet ev) =? pdu_class_xbft) then ret false
  else
    let t := pdu_msg_type (ev_packet ev) in
    if t =? msg_type_proposal then on_proposal_msg_recv ev
    else if t =? msg_type_vote then on_msg_recv handle_vote_msg ev
    else if t =? msg_type_commit then on_msg_recv handle_commit_msg ev
    else if t =? msg_type_sync_reqt then on_msg_recv handle_sync_request_msg ev
    else if t =? msg_type_sync_resp then on_msg_recv handle_sync_respond_msg ev
    else if t =? msg_type_vote_report then handle_votereport_msg ev ;;; ret true
    else ret false.

(** ** Running what was deferred *)

Definition run_job (j : job) : DP unit :=
  match j with
  | JVerifyProposal leader replica o nonce from to => work_verify_proposal leader replica o nonce from to
  | JVerifyVote replica cert o => work_verify_vote replica cert o
  | JVerifyCommit p paired => work_verify_commit p paired
  | JVerifySyncBlock p paired => work_verify_syncblock p paired
  | JVerifyCert c => work_verify_cert c
  end.

Definition run_call (c : call) : DP unit :=
  match c with
  | KAfterVerifyProposal o nonce from to => after_verify_proposal o nonce from to
  | KAfterVerifyVote o => after_verify_vote o
  | KAfterVerifyCommit p => after_verify_commit p
  | KAfterVerifySyncBlock p => after_verify_syncblock p
  | KAfterVerifyCert c => after_verify_cert c
  | KFireProposalFinish err detail p => after_fire_proposal_finish err detail p
  | KFireConsensusUpdate => after_fire_consensus_update
  end.
End Driver.
