(* ===== verification/Scenario.v ===== *)
(** * A concrete run of the driver

    One node with a locked block in its store, one proposal on top of it, and
    the codec tables that decode the packets of that round: the inputs at
    which the theorems about the driver are instantiated. *)

From stdpp Require Import prelude gmap strings pretty.
From Stdlib Require Import ZArith Lia.
From S2P Require Import Prelude Stream StdMap VBlock Pdu Concrete Proposal BFTState Rules Sync Driver.

Module Scenario.
Import Concrete.Demo.

Definition leader : xvip2 := Xvip2 0x1401 0.
Definition replica : xvip2 := Xvip2 0x1402 0.
Definition other : xvip2 := Xvip2 0x1403 0.

(** The locked block and a proposal that links to it. *)
Definition locked : xvblock := mk_block 5 10 "L" "K" "J" 0x7000.
Definition proposed : xvblock :=
  MkBlock (XVHeader level_unit 1 6 "T1" "L") (mk_cert 12 "B" "K") EmptyString 0 None None
    (Some (XVInput "" "")) (Some (XVOutput "")).
(** The same proposal as its leader holds it, linked to its parent. *)
Definition proposed_linked : xvblock :=
  MkBlock (XVHeader level_unit 1 6 "T1" "L") (mk_cert 12 "B" "K") EmptyString 0 (Some 1%positive) None
    (Some (XVInput "" "")) (Some (XVOutput "")).

Definition block_table (s : string) : option xvblock :=
  if bool_decide (s = "B"%string) then Some proposed else None.
Definition cert_table (s : string) : option xvqcert :=
  if bool_decide (s = "L"%string) then Some (b_cert locked)
  else if bool_decide (s = "B"%string) then Some (mk_cert 12 "B" "K") else None.

#[export] Instance codec : XCodec := demo_codec cert_table block_table.
#[export] Instance codec_laws : XCodecLaws.
Proof.
  apply demo_codec_laws. intros s b. unfold block_table. case_bool_decide; by intros [= <-].
Qed.

#[export] Instance verifier : XVerifier := { verify_proposal b _ := (enum_xconsensus_code_successful, b) }.
#[export] Instance verifier_laws : XVerifierLaws.
Proof. by split. Qed.

(** The store answers with the locked block. *)
Definition world0 : world :=
  World {[ 1%positive := locked; 2%positive := proposed_linked ]} 3%positive 1000 77
    (Some 1%positive) (Some 1%positive) (fun _ => Some 1%positive) (fun _ _ => None) 0.
Definition start_at (me : xvip2) : dstate := CState world0 (new_driver "T1") [] me true.
Definition s0 : dstate := start_at replica.

Definition proposal_packet : xcspdu :=
  XCspdu pdu_class_xbft msg_type_proposal 0
    (enc_proposal (XProposalMsg 1000 EmptyString "B" EmptyString EmptyString EmptyString))
    1 "T1" 6 10 12 7 "L" EmptyString.
Definition proposal_event : xcspdu_fire := XCspduFire leader replica proposal_packet 12 20 None None.

(** The state a run ends in; the start state where it is undefined. *)
Definition after {A} (m : DP A) (s : dstate) : dstate :=
  match m s with Some (_, s') => s' | None => s end.

(** A replica that has received the proposal, then verified it. *)
Definition s_accepted : dstate := after (on_pdu_event_down proposal_event) s0.

End Scenario.
