(* ===== verification/DriverInv.v ===== *)
(** * Memory safety and progress of the driver: the proof rules

    [dinv u] is the invariant of the whole driver: the containers of the
    rules, the validity of every pointer a job, a call or the block store can
    hand out, and the condition under which the source may dereference null
    (no lock known, or no parent attached), named by [u].  [Safe u m s Q]: run
    from [s] the code [m] keeps the invariant, only moves the driver forward
    ([dmono]) and ends in [Q]; with [u] false it is also defined. *)

From stdpp Require Import prelude gmap strings.
From Stdlib Require Import ZArith Lia Sorting.Sorted.
From S2P Require Import Prelude Stream StdMap VBlock Pdu Proposal BFTState Rules RulesFacts Sync Driver.

(** ** Views still to be voted on *)

Definition prop_view (s : dstate) (o : ptr) : Z :=
  match prop_block_of s o with Some b => get_viewid b | None => 0 end.
Definition job_views (s : dstate) (j : job) : list Z :=
  match j with JVerifyProposal _ _ o _ _ _ => [prop_view s o] | _ => [] end.
Definition call_views (s : dstate) (c : call) : list Z :=
  match c with KAfterVerifyProposal o _ _ _ => [prop_view s o] | _ => [] end.
Definition pending (s : dstate) : list Z :=
  (d_jobs (cs_st s) ≫= job_views s) ++ (d_calls (cs_st s) ≫= call_views s).

(** ** Pointers *)

Definition prop_known (s : dstate) (o : ptr) : Prop :=
  exists x, d_props (cs_st s) !! o = Some x /\ p_last_block_cert x <> None.
Definition job_ok (s : dstate) (j : job) : Prop :=
  match j with
  | JVerifyProposal _ _ o _ _ _ | JVerifyVote _ _ o => prop_known s o
  | JVerifyCommit p _ | JVerifySyncBlock p _ => allocated s p
  | JVerifyCert _ => True
  end.
Definition call_ok (s : dstate) (c : call) : Prop :=
  match c with
  | KAfterVerifyProposal o _ _ _ | KAfterVerifyVote o => prop_known s o
  | KAfterVerifyCommit p | KAfterVerifySyncBlock p | KFireProposalFinish _ _ p => allocated s p
  | KAfterVerifyCert _ | KFireConsensusUpdate => True
  end.

Record heap_inv (s : dstate) : Prop := {
  hi_blocks : forall p, allocated s p -> (p < w_next (cs_world s))%positive;
  hi_prev : forall p b q, block_at p s = Some b -> b_prev b = Some q -> allocated s q;
  hi_load : forall h q, w_load (cs_world s) h = Some q -> allocated s q;
  hi_query : forall h x q, w_query (cs_world s) h x = Some q -> allocated s q;
  hi_props : forall o x, d_props (cs_st s) !! o = Some x ->
    allocated s (p_block x) /\ p_last_block_cert x <> None /\ (o < d_next (cs_st s))%positive /\ votes_wf x;
  hi_jobs : Forall (job_ok s) (d_jobs (cs_st s));
  hi_calls : Forall (call_ok s) (d_calls (cs_st s));
  hi_lock : m_proposal_blocks (cs_st s) <> [] -> m_latest_lock_block (cs_st s) <> None;
}.

(** Every block has its input and output objects. *)
Definition bodies (s : dstate) : Prop := forall p b, block_at p s = Some b -> has_body b.

Record dinv (u : Prop) (s : dstate) : Prop := {
  dv_drv : drv_inv s;
  dv_heap : heap_inv s;
  dv_ub : m_latest_lock_block (cs_st s) = None \/ cs_parent s = false \/ ~ bodies s -> u;
}.

(** ** Moving forward *)

Record dmono (s s' : dstate) : Prop := {
  dm_blocks : forall p b, block_at p s = Some b -> exists b', block_at p s' = Some b' /\ same_pos b b';
  dm_self : cs_self s' = cs_self s;
  dm_parent : cs_parent s' = cs_parent s;
  dm_voted_h : m_latest_voted_height (cs_st s) <= m_latest_voted_height (cs_st s');
  dm_voted_v : m_latest_voted_viewid (cs_st s) <= m_latest_voted_viewid (cs_st s');
  dm_lock : forall b, lock_of s = Some b -> exists b', lock_of s' = Some b' /\ pos_le b b';
  dm_props : forall o x, d_props (cs_st s) !! o = Some x -> exists x',
    d_props (cs_st s') !! o = Some x' /\ p_block x' = p_block x /\ p_last_block_cert x' = p_last_block_cert x;
  dm_out : cs_out s `prefix_of` cs_out s';
  dm_signed : signed s' = signed s;
  dm_pending : pending s' = pending s;
}.

#[export] Instance dmono_preorder : PreOrder dmono.
Proof.
  split.
  - intros s. split; try done; eauto.
    + intros p b Hb. exists b. by split.
    + intros b Hb. exists b. by split.
  - intros s1 s2 s3 H1 H2. destruct H1, H2. split; try congruence; try lia.
    + intros p b Hb. destruct (dm_blocks0 p b Hb) as (b' & Hb' & ?).
      destruct (dm_blocks1 p b' Hb') as (b'' & ? & ?). exists b''. split; [done|]. by etrans.
    + intros b Hb. destruct (dm_lock0 b Hb) as (b' & Hb' & ?).
      destruct (dm_lock1 b' Hb') as (b'' & ? & ?). exists b''. split; [done|]. by etrans.
    + intros o x Hx. destruct (dm_props0 o x Hx) as (x' & Hx' & ? & ?).
      destruct (dm_props1 o x' Hx') as (x'' & ? & ? & ?). exists x''. split_and!; congruence.
    + by etrans.
Qed.

(** A step that may also sign. *)
Record dfwd (s s' : dstate) : Prop := {
  df_blocks : forall p b, block_at p s = Some b -> exists b', block_at p s' = Some b' /\ same_pos b b';
  df_parent : cs_parent s' = cs_parent s;
  df_voted_h : m_latest_voted_height (cs_st s) <= m_latest_voted_height (cs_st s');
  df_voted_v : m_latest_voted_viewid (cs_st s) <= m_latest_voted_viewid (cs_st s');
  df_lock : forall b, lock_of s = Some b -> exists b', lock_of s' = Some b' /\ pos_le b b';
  df_out : cs_out s `prefix_of` cs_out s';
}.

Lemma dmono_dfwd s s' : dmono s s' -> dfwd s s'.
Proof. by intros []. Qed.

#[export] Instance dfwd_preorder : PreOrder dfwd.
Proof.
  split.
  - intros s. by apply dmono_dfwd.
  - intros s1 s2 s3 H1 H2. destruct H1, H2. split; try congruence; try lia.
    + intros p b Hb. destruct (df_blocks0 p b Hb) as (b' & Hb' & ?).
      destruct (df_blocks1 p b' Hb') as (b'' & ? & ?). exists b''. split; [done|]. by etrans.
    + intros b Hb. destruct (df_lock0 b Hb) as (b' & Hb' & ?).
      destruct (df_lock1 b' Hb') as (b'' & ? & ?). exists b''. split; [done|]. by etrans.
    + by etrans.
Qed.

(** Everything signed or about to be signed. *)
Definition views (s : dstate) : list Z := signed s ++ pending s.

(** What a step may do to [views]: drop some, and add one above every view
    voted on before. *)
Definition views_step (s s' : dstate) : Prop :=
  views s' ⊆+ views s \/
  exists v, views s' ⊆+ v :: views s /\
    m_latest_voted_viewid (cs_st s) < v <= m_latest_voted_viewid (cs_st s').

Lemma pos_le_same b b' : same_pos b b' -> pos_le b b'.
Proof. intros [Hh Hv]. left. unfold get_height. by rewrite Hh. Qed.

Lemma dm_alloc s s' p : dmono s s' -> allocated s p -> allocated s' p.
Proof. intros Hm [b Hb]. destruct (dm_blocks _ _ Hm p b Hb) as (b' & ? & _). by exists b'. Qed.

Lemma dm_known s s' o : dmono s s' -> prop_known s o -> prop_known s' o.
Proof.
  intros Hm (x & Hx & Hc). destruct (dm_props _ _ Hm o x Hx) as (x' & ? & _ & E).
  exists x'. split; [done|]. by rewrite E.
Qed.

Create HintDb safe.
#[export] Hint Resolve dm_alloc dm_known : safe.

(** Jobs and calls keep their views when blocks keep their position. *)
Section PendingKept.
Context (s s' : dstate).
Context (Hp : forall o x, d_props (cs_st s) !! o = Some x -> exists x',
           d_props (cs_st s') !! o = Some x' /\ p_block x' = p_block x).
Context (Hb : forall p b, block_at p s = Some b -> exists b', block_at p s' = Some b' /\ same_pos b b').
Context (Ha : forall o x, d_props (cs_st s) !! o = Some x -> allocated s (p_block x)).

Lemma prop_view_kept o : prop_known s o -> prop_view s' o = prop_view s o.
Proof.
  intros (x & Hx & _). unfold prop_view, prop_block_of. destruct (Ha o x Hx) as [b Hbx].
  destruct (Hp o x Hx) as (x' & Hx' & E). destruct (Hb _ _ Hbx) as (b' & Hb' & [_ Hv]).
  rewrite Hx, Hx'. cbn. by rewrite E, Hbx, Hb'.
Qed.

Lemma bind_ext {A} (f g : A -> list Z) (l : list A) (P : A -> Prop) :
  Forall P l -> (forall x, P x -> f x = g x) -> l ≫= f = l ≫= g.
Proof. induction 1 as [|x l Hx _ IH]; intros E; [done|]. cbn. by rewrite (E x Hx), IH. Qed.

Lemma pending_kept js cs :
  Forall (job_ok s) js -> Forall (call_ok s) cs ->
  (js ≫= job_views s') ++ (cs ≫= call_views s') = (js ≫= job_views s) ++ (cs ≫= call_views s).
Proof.
  intros Hj Hc. f_equal.
  - eapply bind_ext; [exact Hj|]. intros [] Hx; try done. cbn. by rewrite prop_view_kept.
  - eapply bind_ext; [exact Hc|]. intros [] Hx; try done. cbn. by rewrite prop_view_kept.
Qed.
End PendingKept.

(** ** The rules' own steps are steps of the driver *)

Lemma dle_dmono s s' : dle s s' -> dmono s s'.
Proof.
  intros Hle. assert (Hb : forall p, block_at p s' = block_at p s) by eauto using dle_block.
  split; try apply Hle.
  - intros p b Hp. exists b. by rewrite Hb.
  - intros o x Hx. exists x. by rewrite (dle_props _ _ Hle).
  - unfold pending, job_views, call_views, prop_view, prop_block_of.
    rewrite (dle_jobs _ _ Hle), (dle_calls _ _ Hle). unfold block_at in *.
    rewrite (dle_world _ _ Hle), (dle_props _ _ Hle). done.
Qed.

(** A known lock stays known. *)
Lemma lock_kept s s' :
  drv_inv s -> (forall b, lock_of s = Some b -> exists b', lock_of s' = Some b' /\ pos_le b b') ->
  m_latest_lock_block (cs_st s) <> None -> m_latest_lock_block (cs_st s') <> None.
Proof.
  intros Hi Hl Hne. destruct (m_latest_lock_block (cs_st s)) as [l|] eqn:El; [|done].
  destruct (di_lock _ Hi _ El) as (b & Hb & _).
  destruct (Hl b) as (b' & Hb' & _); [unfold lock_of; by rewrite El|].
  unfold lock_of in Hb'. by destruct (m_latest_lock_block (cs_st s')).
Qed.

Lemma dle_heap s s' : drv_inv s -> heap_inv s -> dle s s' -> heap_inv s'.
Proof.
  intros Hi Hh Hle. assert (Hb : forall p, block_at p s' = block_at p s) by eauto using dle_block.
  assert (Ha : forall p, allocated s' p <-> allocated s p) by (intros p; unfold allocated; by rewrite Hb).
  assert (Hk : forall o, prop_known s o -> prop_known s' o).
  { intros o. unfold prop_known. by rewrite (dle_props _ _ Hle). }
  split.
  - intros p. rewrite Ha, (dle_world _ _ Hle). apply Hh.
  - intros p b q. rewrite Hb, Ha. apply Hh.
  - intros h q. rewrite Ha, (dle_world _ _ Hle). apply Hh.
  - intros h x q. rewrite Ha, (dle_world _ _ Hle). apply Hh.
  - intros o x. rewrite Ha, (dle_props _ _ Hle), (dle_next _ _ Hle). apply Hh.
  - rewrite (dle_jobs _ _ Hle). eapply Forall_impl; [apply Hh|]. intros [] Hx; cbn in *; try done; auto; by apply Ha.
  - rewrite (dle_calls _ _ Hle). eapply Forall_impl; [apply Hh|]. intros [] Hx; cbn in *; try done; auto; by apply Ha.
  - intros Hne. eapply lock_kept; [exact Hi|apply Hle|]. apply Hh.
    intros E. by apply Hne, (dle_nil _ _ Hle).
Qed.

(** ** Safe code *)

Definition Safe (u : Prop) {A} (m : DP A) (s : dstate) (Q : A -> dstate -> Prop) : Prop :=
  wpu u m (fun a s' => dinv u s' /\ dmono s s' /\ Q a s') s.

Lemma bodies_same s s' : cs_world s' = cs_world s -> bodies s -> bodies s'.
Proof. intros E Hb p b. unfold block_at. rewrite E. apply Hb. Qed.

Section SafeRules.
Context {u : Prop}.

Lemma dinv_next s s' :
  dinv u s -> drv_inv s' -> heap_inv s' -> dmono s s' -> (bodies s -> bodies s') -> dinv u s'.
Proof.
  intros [Hd Hh Hu] Hd' Hh' Hm Hb. split; [done..|]. intros Hc. apply Hu.
  destruct Hc as [Hn|[Hp|Hn]]; [|right; left; by rewrite <- (dm_parent _ _ Hm)|right; right; auto].
  left. destruct (m_latest_lock_block (cs_st s)) eqn:El; [|done].
  exfalso. eapply lock_kept; [exact Hd|apply Hm|by rewrite El|done].
Qed.

Lemma Safe_bind {A B} (m : DP A) (k : A -> DP B) s P Q :
  Safe u m s P -> (forall a s1, dinv u s1 -> dmono s s1 -> P a s1 -> Safe u (k a) s1 Q) ->
  Safe u (bind m k) s Q.
Proof.
  intros Hm Hk. apply wpu_bind. eapply wpu_mono; [exact Hm|]. intros a s1 (Hi & Hle & HP).
  eapply wpu_mono; [by apply Hk|]. intros b s2 (Hi2 & Hle2 & HQ). split_and!; try done. by etrans.
Qed.

Lemma Safe_mono {A} (m : DP A) s (P Q : A -> dstate -> Prop) :
  Safe u m s P -> (forall a s', dinv u s' -> dmono s s' -> P a s' -> Q a s') -> Safe u m s Q.
Proof. intros Hm HPQ. eapply wpu_mono; [exact Hm|]. intros a s' (? & ? & ?). split_and!; auto. Qed.

(** Code that only reads. *)
Lemma Safe_reads {A} (m : DP A) a s Q : dinv u s -> reads m a s -> Q a s -> Safe u m s Q.
Proof. intros Hi Hr HQ. eapply wpu_reads; [exact Hr|]. split_and!; try done. Qed.

Lemma Safe_ret {A} (a : A) s Q : dinv u s -> Q a s -> Safe u (ret a) s Q.
Proof. intros Hi. by apply Safe_reads. Qed.
Lemma Safe_st_get {A} (f : xBFTdriver -> A) s : dinv u s -> Safe u (st_get f) s (fun a s' => s' = s /\ a = f (cs_st s)).
Proof. intros Hi. by eapply Safe_reads. Qed.
Lemma Safe_gets {A} (f : dstate -> A) s : dinv u s -> Safe u (gets f) s (fun a s' => s' = s /\ a = f s).
Proof. intros Hi. by eapply Safe_reads. Qed.
Lemma Safe_deref p s : dinv u s -> allocated s p ->
  Safe u (deref p) s (fun b s' => s' = s /\ block_at p s = Some b).
Proof. intros Hi [b Hb]. eapply Safe_reads; [done|by apply deref_reads|done]. Qed.
Lemma Safe_prop_deref o s : dinv u s -> prop_known s o ->
  Safe u (prop_deref o) s (fun x s' => s' = s /\ d_props (cs_st s) !! o = Some x /\
     allocated s (p_block x) /\ p_last_block_cert x <> None).
Proof.
  intros Hi (x & Hx & _). eapply Safe_reads; [done|by apply prop_deref_reads|].
  destruct (hi_props _ (dv_heap _ _ Hi) _ _ Hx) as (? & ? & _). done.
Qed.
(** A part of a block that is there when every block has its objects. *)
Lemma Safe_body {A} (o : option A) p b s0 s :
  dinv u s0 -> block_at p s0 = Some b -> (has_body b -> o <> None) -> dinv u s ->
  Safe u (nonnull o) s (fun a s' => s' = s /\ o = Some a).
Proof.
  intros Hi0 Hb Ho Hi. destruct o; [by eapply Safe_reads|]. unfold Safe, wpu. cbn. apply (dv_ub _ _ Hi0). right. right.
  intros Hbd. by apply Ho; [eapply Hbd|].
Qed.
Lemma Safe_nonnull {A} (o : option A) s : dinv u s -> o <> None ->
  Safe u (nonnull o) s (fun a s' => s' = s /\ o = Some a).
Proof. intros Hi Hne. destruct o; [|done]. by eapply Safe_reads. Qed.

(** From a [dle] step to a driver step. *)
Lemma Safe_dle {A} (m : DP A) s a s' (Q : A -> dstate -> Prop) :
  dinv u s -> m s = Some (a, s') -> drv_inv s' -> dle s s' -> Q a s' -> Safe u m s Q.
Proof.
  intros Hi E Hd Hle HQ. unfold Safe, wpu. rewrite E.
  assert (dmono s s') by by apply dle_dmono. split_and!; try done.
  apply (dinv_next s); [done|done| |done|by apply bodies_same, Hle]. apply (dle_heap s); [apply Hi|apply Hi|done].
Qed.

(** ** Writing *)

Lemma store_at p b (s : dstate) q : block_at q (upd_world (fun w => with_blocks w (<[p := b]> (w_blocks w))) s)
  = if decide (q = p) then Some b else block_at q s.
Proof.
  unfold block_at, upd_world, with_blocks. cbn. destruct (decide (q = p)) as [->|Hne].
  - apply lookup_insert_eq.
  - by apply lookup_insert_ne.
Qed.

(** A block is replaced by one with the same identity, or blocks are added. *)
Record world_step (s s' : dstate) : Prop := {
  ws_st : cs_st s' = cs_st s;
  ws_self : cs_self s' = cs_self s;
  ws_parent : cs_parent s' = cs_parent s;
  ws_out : cs_out s' = cs_out s;
  ws_locked : w_latest_locked (cs_world s') = w_latest_locked (cs_world s);
  ws_load : w_load (cs_world s') = w_load (cs_world s);
  ws_query : w_query (cs_world s') = w_query (cs_world s);
  ws_blocks : forall p b, block_at p s = Some b -> exists b', block_at p s' = Some b' /\ same_pos b b';
  ws_fresh : forall p, allocated s' p -> (p < w_next (cs_world s'))%positive;
  ws_prev : forall p b q, block_at p s' = Some b -> b_prev b = Some q -> allocated s' q;
}.

Lemma ws_alloc s s' p : world_step s s' -> allocated s p -> allocated s' p.
Proof. intros Hw [b Hb]. destruct (ws_blocks _ _ Hw p b Hb) as (b' & ? & _). by exists b'. Qed.

Lemma world_step_drv s s' : drv_inv s -> world_step s s' -> drv_inv s'.
Proof.
  intros Hi Hw. pose proof (ws_blocks _ _ Hw) as Hb.
  assert (Hg : forall b b', same_pos b b' -> get_height b' = get_height b /\ get_viewid b' = get_viewid b).
  { intros b b' [Hh Hv]. unfold get_height. by rewrite Hh. }
  split; rewrite ?(ws_st _ _ Hw), ?(ws_locked _ _ Hw); try apply Hi.
  - intros l Hl. destruct (di_lock _ Hi l Hl) as (b & Hlb & ? & ?).
    destruct (Hb l b Hlb) as (b' & ? & [E1 E2]%Hg). exists b'. by rewrite E1, E2.
  - intros l Hl. eapply ws_alloc; [done|]. by apply Hi.
  - intros v p Hin. destruct (di_certs_at _ Hi v p Hin) as (b & Hpb & <-).
    destruct (Hb p b Hpb) as (b' & ? & [? ?]%Hg). by exists b'.
  - intros v o Hin. destruct (di_props_at _ Hi v o Hin) as (b & Hob & Hv & ? & ?).
    unfold prop_block_of in *. rewrite (ws_st _ _ Hw). destruct (d_props (cs_st s) !! o) as [x|]; [|done].
    cbn in *. destruct (Hb _ b Hob) as (b' & ? & [E1 E2]%Hg). exists b'. rewrite E1, E2. done.
Qed.

Lemma world_step_dmono s s' : dinv u s -> world_step s s' -> dmono s s'.
Proof.
  intros Hi Hw. pose proof (ws_blocks _ _ Hw) as Hb.
  split; rewrite ?(ws_st _ _ Hw), ?(ws_out _ _ Hw); try done; try apply Hw.
  - unfold lock_of. rewrite (ws_st _ _ Hw). intros b. destruct (m_latest_lock_block (cs_st s)) as [l|]; [|done].
    cbn. intros Hl. destruct (Hb l b Hl) as (b' & ? & ?). exists b'. split; [done|]. by apply pos_le_same.
  - eauto.
  - unfold signed. by rewrite (ws_out _ _ Hw).
  - unfold pending. rewrite (ws_st _ _ Hw). apply pending_kept; try apply Hi; try done.
    rewrite (ws_st _ _ Hw). eauto.
Qed.

Lemma job_ok_mono s s' j : dmono s s' -> job_ok s j -> job_ok s' j.
Proof. destruct j; cbn; eauto with safe. Qed.
Lemma call_ok_mono s s' c : dmono s s' -> call_ok s c -> call_ok s' c.
Proof. destruct c; cbn; eauto with safe. Qed.

Lemma world_step_heap s s' : dinv u s -> world_step s s' -> heap_inv s'.
Proof.
  intros Hi Hw. pose proof (world_step_dmono _ _ Hi Hw) as Hm. pose proof (dv_heap _ _ Hi) as Hh.
  split; rewrite ?(ws_st _ _ Hw), ?(ws_load _ _ Hw), ?(ws_query _ _ Hw); try apply Hw.
  - intros h q Hq. eapply dm_alloc; [done|]. by eapply (hi_load _ Hh).
  - intros h x q Hq. eapply dm_alloc; [done|]. by eapply (hi_query _ Hh).
  - intros o x Hx. destruct (hi_props _ Hh _ _ Hx) as (? & ? & ? & ?). split_and!; eauto with safe.
  - eapply Forall_impl; [apply Hh|]. intros j. by apply job_ok_mono.
  - eapply Forall_impl; [apply Hh|]. intros j. by apply call_ok_mono.
  - apply Hh.
Qed.

Lemma Safe_world {A} (m : DP A) s a s' (Q : A -> dstate -> Prop) :
  dinv u s -> m s = Some (a, s') -> world_step s s' -> (bodies s -> bodies s') -> Q a s' -> Safe u m s Q.
Proof.
  intros Hi E Hw Hbd HQ. unfold Safe, wpu. rewrite E.
  pose proof (world_step_dmono _ _ Hi Hw). split_and!; try done.
  apply (dinv_next s); try done; [eapply world_step_drv; [apply Hi|done]|by apply (world_step_heap s)].
Qed.

Lemma Safe_store p b b' s :
  dinv u s -> block_at p s = Some b -> same_id b b' ->
  Safe u (store p b') s (fun _ s' => cs_st s' = cs_st s /\ forall q, block_at q s' = if decide (q = p) then Some b' else block_at q s).
Proof.
  intros Hi Hb (Hid & Hprev & Hbody). eapply Safe_world; [done|reflexivity| | |split; [done|intros q; apply store_at]].
  2: { intros Hbd q b0. rewrite store_at. destruct (decide (q = p)) as [->|]; [|apply Hbd]. intros [= <-]. eauto. }
  assert (Ha : forall q, allocated (upd_world (fun w => with_blocks w (<[p := b']> (w_blocks w))) s) q <-> allocated s q).
  { intros q. unfold allocated. rewrite store_at. destruct (decide (q = p)) as [->|]; [|done]. by rewrite Hb. }
  split; try done.
  - intros q b0 Hq. rewrite store_at. destruct (decide (q = p)) as [->|]; [|by exists b0].
    exists b'. split; [done|]. by simplify_eq.
  - intros q. rewrite Ha. apply (hi_blocks _ (dv_heap _ _ Hi)).
  - intros q b0 r. rewrite store_at, Ha. destruct (decide (q = p)) as [->|].
    + intros [= <-] Hr. rewrite Hprev in Hr. by eapply (hi_prev _ (dv_heap _ _ Hi)).
    + apply (hi_prev _ (dv_heap _ _ Hi)).
Qed.

Lemma Safe_update_block p f s :
  dinv u s -> allocated s p -> (forall b, same_id b (f b)) ->
  Safe u (update_block p f) s (fun _ s' => cs_st s' = cs_st s /\
    forall q, block_at q s' = if decide (q = p) then f <$> block_at p s else block_at q s).
Proof.
  intros Hi Hp Hf. eapply Safe_bind; [by apply Safe_deref|]. intros b s1 Hi1 _ [-> Hb].
  eapply Safe_mono; [eapply Safe_store; [done|exact Hb|apply Hf]|].
  intros [] s2 _ _ [Hst Hq]. split; [done|]. intros q. rewrite Hq, Hb. done.
Qed.

Lemma Safe_alloc b s :
  dinv u s -> b_prev b = None -> has_body b ->
  Safe u (alloc b) s (fun p s' => cs_st s' = cs_st s /\ block_at p s' = Some b).
Proof.
  intros Hi Hprev Hbody.
  assert (Hat : forall q, block_at q (upd_world (fun _ => (world_alloc (cs_world s) b).1) s)
    = if decide (q = w_next (cs_world s)) then Some b else block_at q s).
  { intros q. unfold block_at. cbn. destruct (decide (q = w_next (cs_world s))) as [->|];
      [apply lookup_insert_eq|by apply lookup_insert_ne]. }
  assert (Hold : forall q b0, block_at q s = Some b0 -> q <> w_next (cs_world s)).
  { intros q b0 Hq ->. assert (allocated s (w_next (cs_world s))) as Hn%(hi_blocks _ (dv_heap _ _ Hi)) by by exists b0. lia. }
  eapply Safe_world; [done|reflexivity| | |split; [done|]].
  - split; try done.
    + intros q b0 Hq. rewrite Hat, decide_False by eauto. by exists b0.
    + intros q [b0 Hq]. rewrite Hat in Hq. cbn. destruct (decide (q = w_next (cs_world s))); [lia|].
      assert (allocated s q) as Hn%(hi_blocks _ (dv_heap _ _ Hi)) by by exists b0. lia.
    + intros q b0 r. rewrite Hat. destruct (decide _) as [->|]; [intros [= <-]; congruence|].
      intros Hq Hr. assert (allocated s r) as [b1 Hr1] by by eapply (hi_prev _ (dv_heap _ _ Hi)).
      exists b1. rewrite Hat, decide_False by eauto. done.
  - intros Hbd q b0. rewrite Hat. destruct (decide _); [by intros [= <-]|apply Hbd].
  - change (block_at (w_next (cs_world s)) (upd_world (fun _ => (world_alloc (cs_world s) b).1) s) = Some b).
    by rewrite Hat, decide_True.
Qed.

(** Steps that leave blocks, lock, containers and counters alone. *)
Record st_step (s s' : dstate) : Prop := {
  ss_world : cs_world s' = cs_world s;
  ss_self : cs_self s' = cs_self s;
  ss_parent : cs_parent s' = cs_parent s;
  ss_lock : m_latest_lock_block (cs_st s') = m_latest_lock_block (cs_st s);
  ss_certs : m_certified_blocks (cs_st s') = m_certified_blocks (cs_st s);
  ss_proposals : m_proposal_blocks (cs_st s') = m_proposal_blocks (cs_st s);
  ss_voted_h : m_latest_voted_height (cs_st s') = m_latest_voted_height (cs_st s);
  ss_voted_v : m_latest_voted_viewid (cs_st s') = m_latest_voted_viewid (cs_st s);
  ss_props : forall o x, d_props (cs_st s) !! o = Some x -> exists x',
    d_props (cs_st s') !! o = Some x' /\ p_block x' = p_block x /\ p_last_block_cert x' = p_last_block_cert x;
  ss_props_ok : forall o x, d_props (cs_st s') !! o = Some x ->
    allocated s (p_block x) /\ p_last_block_cert x <> None /\ (o < d_next (cs_st s'))%positive /\ votes_wf x;
  ss_jobs : exists js, d_jobs (cs_st s') = d_jobs (cs_st s) ++ js /\ Forall (job_ok s') js /\ js ≫= job_views s' = [];
  ss_calls : exists cs, d_calls (cs_st s') = d_calls (cs_st s) ++ cs /\ Forall (call_ok s') cs /\ cs ≫= call_views s' = [];
  ss_out : exists es, cs_out s' = cs_out s ++ es /\ es ≫= signed_view = [];
}.

Lemma st_step_block s s' p : st_step s s' -> block_at p s' = block_at p s.
Proof. intros Hs. unfold block_at. by rewrite (ss_world _ _ Hs). Qed.

Lemma st_step_dmono s s' : dinv u s -> st_step s s' -> dmono s s'.
Proof.
  intros Hi Hs. assert (Hb : forall p, block_at p s' = block_at p s) by eauto using st_step_block.
  destruct (ss_out _ _ Hs) as (es & Eo & Es).
  destruct (ss_jobs _ _ Hs) as (js & Ej & _ & Ejv). destruct (ss_calls _ _ Hs) as (cs & Ec & _ & Ecv).
  split; try apply Hs.
  - intros p b. rewrite Hb. intros ->. by exists b.
  - by rewrite (ss_voted_h _ _ Hs).
  - by rewrite (ss_voted_v _ _ Hs).
  - unfold lock_of. rewrite (ss_lock _ _ Hs). intros b. destruct (m_latest_lock_block (cs_st s)); [|done].
    cbn. rewrite Hb. intros ->. by exists b.
  - rewrite Eo. by apply prefix_app_r.
  - unfold signed. by rewrite Eo, bind_app, Es, app_nil_r.
  - unfold pending. rewrite Ej, Ec, !bind_app, Ejv, Ecv, !app_nil_r.
    apply pending_kept; try apply Hi.
    + intros o x Hx. destruct (ss_props _ _ Hs o x Hx) as (x' & ? & ? & _). eauto.
    + intros p b. rewrite Hb. intros ->. by exists b.
Qed.

Lemma st_step_drv s s' : drv_inv s -> st_step s s' -> drv_inv s'.
Proof.
  intros Hi Hs. assert (Hb : forall p, block_at p s' = block_at p s) by eauto using st_step_block.
  split; rewrite ?(ss_lock _ _ Hs), ?(ss_world _ _ Hs), ?(ss_certs _ _ Hs), ?(ss_proposals _ _ Hs),
    ?(ss_voted_h _ _ Hs), ?(ss_voted_v _ _ Hs); try apply Hi.
  - intros l. rewrite Hb. apply Hi.
  - intros l. unfold allocated. rewrite Hb. apply Hi.
  - intros v p. rewrite Hb. apply Hi.
  - intros v o Hin. destruct (di_props_at _ Hi v o Hin) as (b & Hob & ? & ? & ?).
    exists b. split; [|done]. unfold prop_block_of in *.
    destruct (d_props (cs_st s) !! o) as [x|] eqn:Hx; [|done].
    destruct (ss_props _ _ Hs o x Hx) as (x' & -> & E & _). cbn in *. by rewrite E, Hb.
Qed.

Lemma st_step_heap s s' : dinv u s -> st_step s s' -> heap_inv s'.
Proof.
  intros Hi Hs. pose proof (dv_heap _ _ Hi) as Hh. pose proof (st_step_dmono _ _ Hi Hs) as Hm.
  assert (Hb : forall p, block_at p s' = block_at p s) by eauto using st_step_block.
  assert (Ha : forall p, allocated s' p <-> allocated s p) by (intros p; unfold allocated; by rewrite Hb).
  destruct (ss_jobs _ _ Hs) as (js & Ej & Hj & _). destruct (ss_calls _ _ Hs) as (cs & Ec & Hc & _).
  split; rewrite ?(ss_world _ _ Hs), ?(ss_lock _ _ Hs), ?(ss_proposals _ _ Hs), ?Ej, ?Ec.
  - intros p. rewrite Ha. apply Hh.
  - intros p b q. rewrite Hb, Ha. apply Hh.
  - intros h q. rewrite Ha. apply Hh.
  - intros h x q. rewrite Ha. apply Hh.
  - intros o x Hx. rewrite Ha. by apply (ss_props_ok _ _ Hs).
  - apply Forall_app. split; [|done]. eapply Forall_impl; [apply Hh|]. intros j. by apply job_ok_mono.
  - apply Forall_app. split; [|done]. eapply Forall_impl; [apply Hh|]. intros j. by apply call_ok_mono.
  - apply Hh.
Qed.

Lemma Safe_st {A} (m : DP A) s a s' (Q : A -> dstate -> Prop) :
  dinv u s -> m s = Some (a, s') -> st_step s s' -> Q a s' -> Safe u m s Q.
Proof.
  intros Hi E Hs HQ. unfold Safe, wpu. rewrite E.
  pose proof (st_step_dmono _ _ Hi Hs). split_and!; try done.
  apply (dinv_next s); try done; [eapply st_step_drv; [apply Hi|done]|by apply (st_step_heap s)|by apply bodies_same, Hs].
Qed.

Lemma st_step_refl s : dinv u s -> st_step s s.
Proof.
  intros Hi. split; try done; eauto.
  - apply Hi.
  - exists []. by rewrite app_nil_r.
  - exists []. by rewrite app_nil_r.
  - exists []. by rewrite app_nil_r.
Qed.

Lemma Safe_fire e s :
  dinv u s -> signed_view e = [] -> Safe u (fire e) s (fun _ s' => cs_st s' = cs_st s /\ cs_world s' = cs_world s).
Proof.
  intros Hi He. eapply Safe_st; [done|apply fire_runs| |done].
  destruct (st_step_refl s Hi). split; try done. unfold add_outs. cbn.
  destruct (cs_parent s); [|by exists []; rewrite app_nil_r].
  exists [e]. split; [done|]. cbn. by rewrite He.
Qed.

Lemma Safe_push_up e s : dinv u s -> signed_view e = [] -> Safe u (push_up e) s (fun _ _ => True).
Proof.
  intros Hi He. destruct (cs_parent s) eqn:Ep.
  - apply (Safe_st _ s tt (add_out e s) (fun _ _ => True)); try done.
    + unfold push_up. by rewrite Ep.
    + destruct (st_step_refl s Hi). split; try done. exists [e]. split; [done|]. cbn. by rewrite He.
  - unfold Safe, wpu, push_up. rewrite Ep. apply (dv_ub _ _ Hi). by right; left.
Qed.

Lemma Safe_set_syncing f s :
  dinv u s -> Safe u (st_mod (fun d => set_syncing (f d) d)) s (fun _ s' => m_proposal_blocks (cs_st s') = m_proposal_blocks (cs_st s)).
Proof.
  intros Hi. eapply Safe_st; [done|reflexivity| |done]. by destruct (st_step_refl s Hi).
Qed.

Lemma Safe_add_job j s :
  dinv u s -> job_ok s j -> job_views s j = [] -> Safe u (st_mod (add_job j)) s (fun _ _ => True).
Proof.
  intros Hi Hj Hv. eapply Safe_st; [done|reflexivity| |done]. destruct (st_step_refl s Hi). split; try done.
  exists [j]. split_and!; [done| |cbn].
  - constructor; [|done]. by destruct j.
  - destruct j; done.
Qed.
Lemma Safe_add_call c s :
  dinv u s -> call_ok s c -> call_views s c = [] -> Safe u (st_mod (add_call c)) s (fun _ _ => True).
Proof.
  intros Hi Hj Hv. eapply Safe_st; [done|reflexivity| |done]. destruct (st_step_refl s Hi). split; try done.
  exists [c]. split_and!; [done| |cbn].
  - constructor; [|done]. by destruct c.
  - destruct c; done.
Qed.

Lemma Safe_prop_store o x x1 s :
  dinv u s -> d_props (cs_st s) !! o = Some x ->
  p_block x1 = p_block x -> p_last_block_cert x1 = p_last_block_cert x -> (votes_wf x -> votes_wf x1) ->
  Safe u (prop_store o x1) s (fun _ s' => cs_world s' = cs_world s /\ d_props (cs_st s') !! o = Some x1).
Proof.
  intros Hi Hx E1 E2 E3. destruct (hi_props _ (dv_heap _ _ Hi) _ _ Hx) as (? & ? & ? & ?).
  eapply Safe_st; [done|reflexivity| |split; [done|apply lookup_insert_eq]].
  destruct (st_step_refl s Hi).
  split; try done; cbn; try (exists []; rewrite app_nil_r; split_and!; done).
  - intros o' x'. destruct (decide (o' = o)) as [->|]; [|rewrite lookup_insert_ne by done; eauto].
    rewrite lookup_insert_eq. intros ?; simplify_eq. eauto.
  - intros o' x'. destruct (decide (o' = o)) as [->|]; [|rewrite lookup_insert_ne by done; eauto].
    rewrite lookup_insert_eq. intros [= <-]. rewrite E1, E2. split_and!; auto.
Qed.

Lemma Safe_prop_update o f s :
  dinv u s -> prop_known s o ->
  (forall x, p_block (f x) = p_block x /\ p_last_block_cert (f x) = p_last_block_cert x /\ (votes_wf x -> votes_wf (f x))) ->
  Safe u (prop_update o f) s (fun _ s' => cs_world s' = cs_world s).
Proof.
  intros Hi Ho Hf. eapply Safe_bind; [by apply Safe_prop_deref|].
  intros x s1 Hi1 _ (-> & Hx & _). destruct (Hf x) as (E1 & E2 & E3).
  eapply Safe_mono; [by eapply Safe_prop_store|]. by intros [] s2 _ _ [? _].
Qed.

Lemma Safe_prop_alloc x s :
  dinv u s -> allocated s (p_block x) -> p_last_block_cert x <> None -> votes_wf x ->
  Safe u (prop_alloc x) s (fun o s' => d_props (cs_st s') !! o = Some x /\ cs_world s' = cs_world s /\
    m_proposal_blocks (cs_st s') = m_proposal_blocks (cs_st s)).
Proof.
  intros Hi Ha Hc Hwf.
  assert (Hf : forall o y, d_props (cs_st s) !! o = Some y -> o <> d_next (cs_st s)).
  { intros o y Hy ->. destruct (hi_props _ (dv_heap _ _ Hi) _ _ Hy) as (_ & _ & ? & _). lia. }
  eapply Safe_st; [done|reflexivity| |split_and!; [apply lookup_insert_eq|done..]].
  destruct (st_step_refl s Hi).
  split; try done; cbn; try (exists []; rewrite app_nil_r; split_and!; done).
  - intros o y Hy. rewrite lookup_insert_ne by (symmetry; eauto). eauto.
  - intros o y. destruct (decide (o = d_next (cs_st s))) as [->|].
    + rewrite lookup_insert_eq. intros [= <-]. split_and!; try done. lia.
    + rewrite lookup_insert_ne by done. intros Hy. destruct (ss_props_ok0 _ _ Hy) as (? & ? & ? & ?).
      split_and!; try done. lia.
Qed.
End SafeRules.

(** ** The rules as safe code *)

Section RuleOps.
Context `{XVBlock} {u : Prop}.

Lemma Safe_get_lock_block s :
  dinv u s -> Safe u get_lock_block s (fun l s' => l = m_latest_lock_block (cs_st s') /\ dle s s' /\
    (m_latest_lock_block (cs_st s) <> None -> s' = s)).
Proof.
  intros Hi. destruct (get_lock_block_spec s (dv_drv _ _ Hi)) as (r & s' & E & Hd & Hle & Hr & Hs).
  by eapply Safe_dle.
Qed.

Lemma lock_alloc s l : drv_inv s -> m_latest_lock_block (cs_st s) = Some l -> allocated s l.
Proof. intros Hi Hl. destruct (di_lock _ Hi l Hl) as (b & ? & _). by exists b. Qed.

Lemma Safe_lock_block s :
  dinv u s -> Safe u lock_block s (fun lb s' => lock_of s' = Some lb /\ dle s s').
Proof.
  intros Hi. unfold lock_block. eapply Safe_bind; [by apply Safe_get_lock_block|].
  intros l s1 Hi1 _ (-> & Hle & _). destruct (m_latest_lock_block (cs_st s1)) as [l|] eqn:El.
  - eapply Safe_bind; [by apply Safe_nonnull|]. intros l' s2 Hi2 _ [-> [= <-]].
    eapply Safe_mono; [apply Safe_deref; [done|apply (lock_alloc _ _ (dv_drv _ _ Hi1) El)]|].
    intros b s3 _ _ [-> Hb]. split; [|done]. unfold lock_of. by rewrite El.
  - unfold Safe, wpu. cbn. apply (dv_ub _ _ Hi1). by left.
Qed.

Lemma Safe_set_lock_block latest s :
  dinv u s -> (forall l, latest = Some l -> allocated s l) ->
  Safe u (set_lock_block latest) s (fun _ s' => dle s s').
Proof.
  intros Hi Ha. destruct (set_lock_block_spec s latest (dv_drv _ _ Hi) Ha) as (r & s' & E & Hd & Hle & _).
  by eapply Safe_dle.
Qed.

Lemma Safe_with_lock test s : dinv u s -> Safe u (with_lock test) s (fun _ s' => dle s s').
Proof.
  intros Hi. eapply Safe_bind; [by apply Safe_get_lock_block|]. intros l s1 Hi1 _ (-> & Hle & _).
  destruct (m_latest_lock_block (cs_st s1)) as [l|] eqn:El; [|by apply Safe_ret].
  eapply Safe_bind; [apply Safe_deref; [done|apply (lock_alloc _ _ (dv_drv _ _ Hi1) El)]|].
  intros b s2 Hi2 _ [-> _]. by apply Safe_ret.
Qed.

Lemma Safe_safe_check_with l p s :
  dinv u s -> (forall q, l = Some q -> allocated s q) -> allocated s p ->
  Safe u (safe_check_with l (Some p)) s (fun _ s' => s' = s).
Proof.
  intros Hi Hl Hp. destruct l as [l|]; [|by apply Safe_ret].
  destruct (Hl l eq_refl) as [lb Hlb], Hp as [b Hb].
  eapply Safe_reads; [done|by apply safe_check_with_reads|done].
Qed.

Lemma Safe_safe_check_for_block p s :
  dinv u s -> allocated s p -> Safe u (safe_check_for_block (Some p)) s (fun _ s' => dle s s').
Proof.
  intros Hi Hp. eapply Safe_bind; [by apply Safe_get_lock_block|]. intros l s1 Hi1 Hm (-> & Hle & _).
  eapply Safe_mono; [apply Safe_safe_check_with; eauto using lock_alloc, dv_drv with safe|].
  by intros b s2 _ _ ->.
Qed.

Lemma Safe_follow p s :
  dinv u s -> allocated s p ->
  Safe u (safe_check_follow_locked_branch (Some p)) s (fun _ s' => dle s s').
Proof.
  intros Hi Hp. eapply Safe_bind; [by apply Safe_lock_block|]. intros lb s1 Hi1 Hm (_ & Hle).
  eapply Safe_bind; [apply Safe_deref; eauto with safe|]. intros b s2 Hi2 _ [-> _]. by apply Safe_ret.
Qed.

(** Containers: what stays is sorted and valid. *)
Lemma set_certs_step m s :
  drv_inv s -> key_sorted m ->
  (forall v p, (v, p) ∈ m -> exists b, block_at p s = Some b /\ get_viewid b = v) ->
  drv_inv (upd_st (set_certs m) s) /\ dle s (upd_st (set_certs m) s).
Proof.
  intros Hi Hs Hm. split; split; try done; try apply Hi. intros b Hb. by exists b.
Qed.

Lemma set_proposals_step m s :
  drv_inv s -> key_sorted m ->
  (forall v p, (v, p) ∈ m -> (v, p) ∈ m_proposal_blocks (cs_st s)) ->
  drv_inv (upd_st (set_proposals m) s) /\ dle s (upd_st (set_proposals m) s).
Proof.
  intros Hi Hs Hm. split; split; try done; try apply Hi.
  - intros v p Hin. by apply (di_props_at _ Hi), Hm.
  - intros b Hb. by exists b.
  - cbn. intros E. destruct m as [|[v p] m]; [done|]. specialize (Hm v p). rewrite E in Hm.
    exfalso. eapply not_elem_of_nil, Hm. left.
Qed.

Lemma erase_in (v : Z) (m : list (Z * ptr)) e : e ∈ map_erase v m -> e ∈ m.
Proof. intros Hin. apply list_elem_of_In, List.filter_In in Hin as [Hin _]. by apply list_elem_of_In. Qed.

Lemma Safe_set_proposals m s :
  dinv u s -> key_sorted m -> (forall v p, (v, p) ∈ m -> (v, p) ∈ m_proposal_blocks (cs_st s)) ->
  Safe u (st_mod (set_proposals m)) s (fun _ s' => s' = upd_st (set_proposals m) s /\ dle s s').
Proof.
  intros Hi Hs Hm. destruct (set_proposals_step m s (dv_drv _ _ Hi) Hs Hm) as [? ?].
  by eapply Safe_dle.
Qed.

Lemma Safe_remove_proposal v s :
  dinv u s -> Safe u (remove_proposal v) s (fun _ s' => dle s s').
Proof.
  intros Hi. unfold remove_proposal. eapply Safe_bind; [by apply Safe_st_get|]. intros m s1 Hi1 _ [-> ->].
  eapply Safe_bind; [apply Safe_set_proposals; [done| |]|].
  - unfold remove_block. destruct (map_find _ _); [apply map_erase_sorted|]; apply (dv_drv _ _ Hi).
  - unfold remove_block. destruct (map_find _ _); [|done]. intros w q. apply erase_in.
  - intros [] s2 Hi2 _ [_ Hle]. by apply Safe_ret.
Qed.

Lemma Safe_add_cert_block p s :
  dinv u s -> allocated s p -> Safe u (add_cert_block (Some p)) s (fun _ s' => dle s s').
Proof.
  intros Hi Hp. unfold add_cert_block. eapply Safe_bind; [by apply Safe_get_lock_block|].
  intros l s1 Hi1 Hm1 (-> & Hle & _).
  eapply (Safe_bind _ _ _ (fun _ s' => dle s1 s')).
  { destruct (m_latest_lock_block (cs_st s1)); [|by apply Safe_ret].
    eapply Safe_bind; [apply Safe_follow; eauto with safe|]. intros r s2 Hi2 _ Hle2. by apply Safe_ret. }
  intros forked s2 Hi2 Hm2 Hle2. destruct forked; [apply Safe_ret; [done|by etrans]|].
  eapply Safe_bind; [apply Safe_deref; eauto with safe|]. intros b s3 Hi3 _ [-> Hb].
  eapply Safe_bind; [by apply Safe_st_get|]. intros m s3 _ _ [-> ->].
  destruct (set_certs_step (map_emplace (get_viewid b) p (m_certified_blocks (cs_st s2))).1 s2 (dv_drv _ _ Hi2))
    as [Hd Hle3].
  { apply map_emplace_sorted, (dv_drv _ _ Hi2). }
  { intros v q. unfold map_emplace. destruct (map_find _ _); [apply (dv_drv _ _ Hi2)|].
    intros [[= -> ->]|Hin]%map_set_in; [by exists b|by apply (dv_drv _ _ Hi2)]. }
  eapply Safe_bind; [by eapply (Safe_dle _ s2 tt _ (fun _ s' => dle s2 s'))|].
  intros [] s4 Hi4 _ Hle4. apply Safe_ret; [done|]. by do 2 (etrans; [done|]).
Qed.

(** ** Looking things up *)

Lemma cert_alloc s v p : dinv u s -> (v, p) ∈ m_certified_blocks (cs_st s) -> allocated s p.
Proof. intros Hi Hin. destruct (di_certs_at _ (dv_drv _ _ Hi) _ _ Hin) as (b & ? & _). by exists b. Qed.

Lemma prop_in_known s v o : dinv u s -> (v, o) ∈ m_proposal_blocks (cs_st s) -> prop_known s o.
Proof.
  intros Hi Hin. destruct (di_props_at _ (dv_drv _ _ Hi) _ _ Hin) as (b & Hb & _).
  unfold prop_block_of in Hb. destruct (d_props (cs_st s) !! o) as [x|] eqn:Hx; [|done].
  exists x. split; [done|]. by destruct (hi_props _ (dv_heap _ _ Hi) _ _ Hx) as (_ & ? & _).
Qed.

Lemma Safe_find_proposal v s :
  dinv u s -> Safe u (find_proposal v) s (fun o s' => s' = s /\ forall p, o = Some p -> prop_known s p).
Proof.
  intros Hi. eapply Safe_mono; [by apply Safe_st_get|]. intros o s' _ _ [-> ->]. split; [done|].
  intros p Hp%map_find_Some_in. by eapply prop_in_known.
Qed.

Lemma Safe_find_cert_block v s :
  dinv u s -> Safe u (find_cert_block v) s (fun o s' => s' = s /\ forall p, o = Some p -> allocated s p).
Proof.
  intros Hi. eapply Safe_mono; [by apply Safe_st_get|]. intros o s' _ _ [-> ->]. split; [done|].
  intros p Hp%map_find_Some_in. by eapply cert_alloc.
Qed.

Lemma Safe_latest_cert s :
  dinv u s -> Safe u get_latest_cert_block s (fun o s' => s' = s /\ forall p, o = Some p -> allocated s p).
Proof.
  intros Hi. eapply Safe_reads; [done|apply latest_cert_reads|]. split; [done|].
  intros p [v Hin]%get_latest_block_in. by eapply cert_alloc.
Qed.

Lemma Safe_latest_prop s :
  dinv u s -> Safe u get_latest_proposal_block s (fun o s' => s' = s /\ forall p, o = Some p -> allocated s p).
Proof.
  intros Hi. eapply Safe_reads; [done|apply latest_prop_reads, Hi|]. split; [done|].
  intros p Hp. by eapply latest_prop_alloc; [apply Hi|].
Qed.

Lemma Safe_prop_block o s :
  dinv u s -> prop_known s o -> Safe u (prop_block o) s (fun b s' => s' = s /\ prop_block_of s o = Some b).
Proof.
  intros Hi Ho. eapply Safe_bind; [by apply Safe_prop_deref|]. intros x s1 Hi1 _ (-> & Hx & Ha & _).
  eapply Safe_mono; [by apply Safe_deref|]. intros b s2 _ _ [-> Hb]. split; [done|].
  unfold prop_block_of. by rewrite Hx.
Qed.

(** Loops that only read. *)
Lemma Safe_find_prog {A} (test : A -> DP bool) l s :
  dinv u s -> (forall x, x ∈ l -> Safe u (test x) s (fun _ s' => s' = s)) ->
  Safe u (find_prog test l) s (fun r s' => s' = s /\ forall x, r = Some x -> x ∈ l).
Proof.
  intros Hi. induction l as [|x l IH]; intros Ht; [by apply Safe_ret|].
  cbn. eapply Safe_bind; [apply Ht; left|]. intros [] s1 Hi1 _ ->.
  - apply Safe_ret; [done|]. split; [done|]. intros y [= <-]. left.
  - eapply Safe_mono; [apply IH; intros y Hy; apply Ht; by right|].
    intros r s2 _ _ [-> Hr]. split; [done|]. intros y Hy. right. by apply Hr.
Qed.
Lemma Safe_any_prog {A} (test : A -> DP bool) l s :
  dinv u s -> (forall x, x ∈ l -> Safe u (test x) s (fun _ s' => s' = s)) ->
  Safe u (any_prog test l) s (fun _ s' => s' = s).
Proof.
  intros Hi. induction l as [|x l IH]; intros Ht; [by apply Safe_ret|].
  cbn. eapply Safe_bind; [apply Ht; left|]. intros [] s1 Hi1 _ ->; [by apply Safe_ret|].
  apply IH. intros y Hy. apply Ht. by right.
Qed.
End RuleOps.
