(* ===== verification/DriverFacts.v ===== *)
(** * Every handler of the driver keeps the invariant

    One lemma per handler, job and callback.  The handlers that sign anything
    (start a proposal, accept one, vote) come last, with what they do to the
    list of signed and pending views. *)

From stdpp Require Import prelude gmap strings.
From Stdlib Require Import ZArith Lia Sorting.Sorted.
From S2P Require Import Prelude Stream StdMap VBlock Pdu Proposal BFTState Rules RulesFacts Sync Driver DriverInv.

#[export] Hint Resolve Safe_ret Safe_st_get Safe_gets Safe_deref Safe_prop_deref Safe_nonnull Safe_fire
  Safe_push_up Safe_set_syncing Safe_get_lock_block Safe_lock_block Safe_with_lock
  Safe_safe_check_for_block Safe_follow Safe_remove_proposal Safe_add_cert_block Safe_find_proposal
  Safe_find_cert_block Safe_latest_cert Safe_latest_prop Safe_prop_block Safe_update_block : safe.
#[export] Hint Resolve cert_alloc prop_in_known : safe.

(** Run one statement with a lemma of the database; what it tells about the
    result and the new state goes into the context. *)
Ltac safe_bind_as v :=
  eapply Safe_bind; [solve [eauto 7 with safe]|];
  let t := fresh "t" in let Hi := fresh "Ht" in let Hm := fresh "Hm" in
  let Hp := fresh "Hp" in intros v t Hi Hm Hp; cbv beta in Hp; destruct_and?; simplify_eq; cbv beta.
Tactic Notation "safe_bind" ident(v) := safe_bind_as v.
Tactic Notation "safe_bind" := let v := fresh "v" in safe_bind_as v.
Ltac safe_run :=
  repeat lazymatch goal with
  | |- Safe _ (bind _ _) _ _ => safe_bind
  | |- Safe _ (ret _) _ _ => apply Safe_ret; [done|]
  | |- Safe _ (match ?x with _ => _ end) _ _ => destruct x eqn:?
  end.

Section Handlers.
Context `{HL : XVBlockLaws} `{HA : XCertAuth} `{HC : XCodecLaws} `{HV : XVerifierLaws}.
Context {u : Prop}.

Abbreviation quiet m := (forall s, dinv u s -> Safe u m s (fun _ _ => True)).

(** ** Synchronisation *)

Lemma Safe_set_syncing_to v s : dinv u s -> Safe u (st_mod (set_syncing v)) s (fun _ _ => True).
Proof. intros Hi. eapply Safe_mono; [by apply (Safe_set_syncing (fun _ => v))|done]. Qed.
Hint Resolve Safe_set_syncing_to : safe.

Lemma Safe_send_sync_request from to h hash pv pt ph ex ch :
  quiet (send_sync_request from to h hash pv pt ph ex ch).
Proof.
  intros s Hi. unfold send_sync_request. safe_bind. destruct (negb _); [by apply Safe_ret|].
  do 3 safe_bind. eapply (Safe_bind _ _ _ (fun _ _ => True)).
  { destruct (map_find _ _); safe_run; done. }
  intros send s1 Hi1 _ _. safe_run; done.
Qed.

Lemma Safe_sync_from_peer ev h hash c ph ch : quiet (sync_from_peer ev h hash c ph ch).
Proof. intros s Hi. apply Safe_send_sync_request. done. Qed.
Hint Resolve Safe_sync_from_peer : safe.

Lemma Safe_load_block h s :
  dinv u s -> Safe u (load_block h) s (fun o s' => s' = s /\ forall q, o = Some q -> allocated s q).
Proof.
  intros Hi. eapply Safe_mono; [by apply Safe_gets|]. intros o s' _ _ [-> ->]. split; [done|].
  apply (hi_load _ (dv_heap _ _ Hi)).
Qed.
Lemma Safe_query_block h x s :
  dinv u s -> Safe u (query_block h x) s (fun o s' => s' = s /\ forall q, o = Some q -> allocated s q).
Proof.
  intros Hi. eapply Safe_mono; [by apply Safe_gets|]. intros o s' _ _ [-> ->]. split; [done|].
  apply (hi_query _ (dv_heap _ _ Hi)).
Qed.
Hint Resolve Safe_load_block Safe_query_block : safe.

Lemma Safe_check_sync_request packet : quiet (safe_check_for_sync_request_packet packet).
Proof. intros s Hi. unfold safe_check_for_sync_request_packet. safe_run; done. Qed.
Lemma Safe_check_sync_respond packet : quiet (safe_check_for_sync_respond_packet packet).
Proof. intros s Hi. unfold safe_check_for_sync_respond_packet. safe_run; done. Qed.
Lemma Safe_check_proposal_packet packet : quiet (safe_check_for_proposal_packet packet).
Proof. intros s Hi. unfold safe_check_for_proposal_packet. safe_run; done. Qed.
Lemma Safe_check_vote_packet packet : quiet (safe_check_for_vote_packet packet).
Proof. intros s Hi. unfold safe_check_for_vote_packet, safe_check_for_packet. safe_run; done. Qed.
Lemma Safe_check_commit_packet packet : quiet (safe_check_for_commit_packet packet).
Proof. intros s Hi. unfold safe_check_for_commit_packet, safe_check_for_packet. safe_run; done. Qed.
Hint Resolve Safe_check_sync_request Safe_check_sync_respond Safe_check_proposal_packet
  Safe_check_vote_packet Safe_check_commit_packet : safe.

(** Searching the certified blocks from the latest down. *)
Lemma in_rev_certs s v p : dinv u s -> (v, p) ∈ rev (m_certified_blocks (cs_st s)) -> allocated s p.
Proof. intros Hi Hin. eapply cert_alloc; [done|]. apply list_elem_of_In, in_rev, list_elem_of_In, Hin. Qed.

Lemma Safe_cert_test (f : xvblock -> bool) (e : Z * ptr) s :
  dinv u s -> e ∈ rev (m_certified_blocks (cs_st s)) ->
  Safe u (let* c := deref e.2 in ret (f c)) s (fun _ s' => s' = s).
Proof.
  destruct e as [v p]. intros Hi Hin%in_rev_certs; [|done]. cbn. safe_bind. by apply Safe_ret.
Qed.

Lemma Safe_any_cert f s :
  dinv u s -> Safe u (any_prog (fun e => let* c := deref e.2 in ret (f c)) (rev (m_certified_blocks (cs_st s)))) s
    (fun _ s' => s' = s).
Proof. intros Hi. apply Safe_any_prog; [done|]. intros e He. by apply Safe_cert_test. Qed.
Lemma Safe_find_cert f s :
  dinv u s -> Safe u (find_prog (fun e => let* c := deref e.2 in ret (f c)) (rev (m_certified_blocks (cs_st s)))) s
    (fun r s' => s' = s /\ forall e, r = Some e -> allocated s e.2).
Proof.
  intros Hi. eapply Safe_mono; [apply Safe_find_prog; [done|]; intros e He; by apply Safe_cert_test|].
  intros r s' _ _ [-> Hr]. split; [done|]. intros [v p] He. by eapply in_rev_certs; [|apply Hr].
Qed.

Lemma Safe_is_proof_check_pass packet : quiet (is_proof_check_pass packet).
Proof.
  intros s Hi. unfold is_proof_check_pass. safe_bind. destruct (_ <? _).
  - safe_bind. eapply Safe_mono; [by eapply Safe_any_cert|done].
  - safe_run; done.
Qed.
Hint Resolve Safe_is_proof_check_pass : safe.

Lemma alloc_update_block (s s' : dstate) p q f :
  (forall r, block_at r s' = if decide (r = q) then f <$> block_at q s else block_at r s) ->
  allocated s p -> allocated s' p.
Proof.
  intros E [b Hb]. unfold allocated. rewrite E. destruct (decide (p = q)) as [->|]; rewrite Hb; by eexists.
Qed.

Lemma Safe_sync_target_block msg s :
  dinv u s -> Safe u (sync_target_block msg) s (fun r s' => forall p, r = inr p -> allocated s' p).
Proof.
  intros Hi. unfold sync_target_block. safe_bind. destruct (_ <? _).
  { safe_bind. eapply Safe_bind; [by eapply Safe_find_cert|]. intros r s1 Hi1 _ [-> Hr].
    destruct r as [e|]; [apply Safe_ret; [done|]; intros p [= <-]; by apply Hr|].
    safe_bind o. destruct o as [q|]; [|by apply Safe_ret]. safe_bind.
    apply Safe_ret; [done|]. intros p [= <-]. eauto with safe. }
  destruct (_ =? _).
  { eapply Safe_bind; [by apply Safe_get_lock_block|]. intros l s1 Hi1 _ (-> & _ & _).
    destruct (m_latest_lock_block (cs_st s1)) as [l|] eqn:El.
    - safe_bind. apply Safe_ret; [done|]. intros p [= <-]. eapply lock_alloc; [apply Hi1|done].
    - unfold Safe, wpu. cbn. apply (dv_ub _ _ Hi1). by left. }
  destruct (_ <? _); [|by apply Safe_ret].
  safe_bind o. destruct o as [q|]; [|by apply Safe_ret]. safe_bind.
  destruct (bool_decide _); [by apply Safe_ret|].
  eapply (Safe_bind _ _ _ (fun _ s' => allocated s' q)).
  { destruct (_ && _); [|apply Safe_ret; eauto].
    eapply Safe_mono; [apply Safe_update_block; eauto with ids|].
    intros [] s1 _ _ [_ E]. eapply alloc_update_block; [exact E|]. eauto. }
  intros [] s1 Hi1 _ Hq. safe_bind.
  eapply (Safe_bind _ _ _ (fun _ s' => allocated s' q)).
  { destruct (_ && _); [|by apply Safe_ret].
    eapply Safe_mono; [apply Safe_update_block; eauto with ids|].
    intros [] s2 _ _ [_ E]. by eapply alloc_update_block. }
  intros [] s2 Hi2 _ Hq2. apply Safe_ret; [done|]. by intros p [= <-].
Qed.

Lemma Safe_fire_pdu t content nonce from to b cert s :
  dinv u s -> (t =? msg_type_vote) || (t =? msg_type_proposal) = false ->
  Safe u (fire_pdu_event_up t content nonce from to b cert) s (fun _ _ => True).
Proof. intros Hi Ht. eapply Safe_mono; [apply Safe_fire; [done|]|done]. cbn. by rewrite Ht. Qed.
Lemma Safe_finish_event err d a b c e f : quiet (fire_proposal_finish_event err d a b c e f).
Proof. intros s Hi. eapply Safe_mono; [by apply Safe_fire|done]. Qed.
Hint Resolve Safe_fire_pdu Safe_finish_event Safe_sync_target_block : safe.

Lemma respond_msg_body msg b : has_body b -> respond_msg msg b <> None.
Proof.
  intros [Hin Hout]. unfold respond_msg. destruct (b_input b); [|done]. destruct (b_output b); [|done].
  by destruct (wants _ _), (wants _ _).
Qed.
Lemma Safe_handle_sync_request_msg ev : quiet (handle_sync_request_msg ev).
Proof.
  intros s Hi. unfold handle_sync_request_msg. safe_bind msg. destruct msg; [|by apply Safe_ret].
  safe_bind pass. destruct (negb pass); [by apply Safe_ret|].
  safe_bind target. destruct target as [|p]; [by apply Safe_ret|].
  eapply Safe_bind; [apply Safe_deref; eauto with safe|]. intros b s1 Hi1 _ [-> Hb].
  eapply Safe_bind; [by eapply Safe_body, Hi1; [..|apply respond_msg_body]|]. intros a s2 Hi2 _ [-> _]. safe_run. done.
Qed.

Lemma Safe_add_quiet_job j s :
  dinv u s -> job_ok s j -> job_views s j = [] -> Safe u (st_mod (add_job j)) s (fun _ _ => True).
Proof. apply Safe_add_job. Qed.

Lemma Safe_fire_verify_syncblock_job p paired s :
  dinv u s -> allocated s p -> Safe u (fire_verify_syncblock_job (Some p) paired) s (fun _ _ => True).
Proof.
  intros Hi Hp. unfold fire_verify_syncblock_job. safe_bind. destruct (negb _); [by apply Safe_ret|].
  eapply Safe_bind; [by apply Safe_add_job|]. intros. by apply Safe_ret.
Qed.

Lemma Safe_sync_block_check p s :
  dinv u s -> allocated s p -> Safe u (safe_check_for_sync_block (Some p)) s (fun _ _ => True).
Proof. intros Hi Hp. unfold safe_check_for_sync_block. safe_run; done. Qed.

Lemma sync_block_unlinked msg b : sync_block_of msg = Some b -> b_prev b = None /\ has_body b.
Proof.
  unfold sync_block_of. destruct (create_block_object _) as [b0|] eqn:E0; [|done].
  destruct (negb _); [done|]. destruct (set_input_resources _ _) as [b1|] eqn:E1; [|done]. cbn. intros E2.
  apply set_input_id in E1 as (_ & E1 & B1). apply set_output_id in E2 as (_ & E2 & B2).
  pose proof (create_block_body _ _ E0). apply create_block_unlinked in E0. split; [congruence|auto].
Qed.

Lemma Safe_handle_sync_respond_msg ev : quiet (handle_sync_respond_msg ev).
Proof.
  intros s Hi. unfold handle_sync_respond_msg. safe_bind msg. destruct msg as [msg|]; [|by apply Safe_ret].
  safe_bind local. destruct local as [q|]; [safe_run; done|].
  destruct (sync_block_of msg) as [b|] eqn:Eb; [|by apply Safe_ret]. apply sync_block_unlinked in Eb as [Eb Ebd].
  safe_bind. destruct (map_find _ _); [|by apply Safe_ret].
  eapply Safe_bind; [by apply Safe_alloc|]. intros p s1 Hi1 _ [_ Hp].
  assert (allocated s1 p) by by exists b.
  eapply Safe_bind; [by apply Safe_sync_block_check|]. intros safe s2 Hi2 Hm2 _.
  eapply (Safe_bind _ _ _ (fun _ _ => True)).
  - destruct safe; [|by apply Safe_ret].
    eapply Safe_bind; [apply Safe_update_block; eauto with safe ids|]. intros [] s3 Hi3 Hm3 _.
    safe_bind. eapply Safe_bind; [apply Safe_fire_verify_syncblock_job; eauto with safe|].
    intros. by apply Safe_ret.
  - intros. by apply Safe_ret.
Qed.

(** ** Workers and callbacks on blocks *)

Lemma authenticate_id b : same_id b (authenticate b).
Proof. unfold authenticate. etrans; [|apply set_flag_id]. done. Qed.

Lemma Safe_verify_block_work p paired k s :
  dinv u s -> allocated s p -> (forall s', allocated s' p -> call_ok s' (k p) /\ call_views s' (k p) = []) ->
  Safe u (verify_block_work p paired k) s (fun _ _ => True).
Proof.
  intros Hi Hp Hk. unfold verify_block_work. safe_bind. destruct (d_closed _); [by apply Safe_ret|].
  eapply Safe_bind; [by apply Safe_deref|]. intros b s1 Hi1 _ [-> Hb].
  destruct (match paired with Some c => merge_cert b c | None => Some b end) as [b1|] eqn:E; [|by apply Safe_ret].
  assert (Hid : same_id b b1) by (destruct paired; [by eapply merge_cert_id|by simplify_eq]).
  eapply Safe_bind; [by eapply Safe_store|]. intros [] s2 Hi2 _ [_ E2].
  destruct (verify_muti_sign_block b1); [|by apply Safe_ret].
  assert (Hb1 : block_at p s2 = Some b1) by by rewrite E2, decide_True.
  eapply Safe_bind; [eapply Safe_store; [done|exact Hb1|apply authenticate_id]|].
  intros [] s3 Hi3 Hm3 _. destruct (Hk s3) as [? ?]; [eapply dm_alloc; [done|by exists b1]|].
  by apply Safe_add_call.
Qed.

Lemma Safe_after_verify_syncblock p s :
  dinv u s -> allocated s p -> Safe u (after_verify_syncblock p) s (fun _ _ => True).
Proof.
  intros Hi Hp. unfold after_verify_syncblock. safe_bind added. destruct added; [|by apply Safe_ret].
  safe_bind b. safe_bind removed. destruct removed.
  - safe_bind. safe_bind. safe_bind. by apply Safe_finish_event.
  - eapply Safe_mono; [by apply Safe_fire|done].
Qed.

Lemma Safe_after_verify_commit p s :
  dinv u s -> allocated s p -> Safe u (after_verify_commit p) s (fun _ _ => True).
Proof.
  intros Hi Hp. unfold after_verify_commit. safe_bind added. destruct added; [|by apply Safe_ret].
  safe_bind b. safe_bind. by apply Safe_finish_event.
Qed.

(** ** Votes *)

Lemma add_voted_cert_block c x voter q :
  p_block (add_voted_cert c x voter q).1 = p_block x /\
  p_last_block_cert (add_voted_cert c x voter q).1 = p_last_block_cert x /\
  (votes_wf x -> votes_wf (add_voted_cert c x voter q).1).
Proof.
  split_and!; [..|apply add_voted_cert_wf];
    unfold add_voted_cert; destruct q as [q|]; try done; repeat (case_match; try done).
Qed.

Lemma known_of s o x : dinv u s -> d_props (cs_st s) !! o = Some x -> prop_known s o.
Proof. intros Hi Hx. exists x. by destruct (hi_props _ (dv_heap _ _ Hi) _ _ Hx) as (_ & ? & _). Qed.
Hint Resolve known_of : safe.

Lemma Safe_handle_vote_msg ev : quiet (handle_vote_msg ev).
Proof.
  intros s Hi. unfold handle_vote_msg. safe_bind msg. destruct msg as [msg|]; [|by apply Safe_ret].
  safe_bind local. destruct local as [o|]; [|by apply Safe_ret]. assert (prop_known t o) by auto.
  safe_bind x. safe_bind b. repeat (case_match; [by apply Safe_ret|]).
  case_match; [|by apply Safe_ret]. case_match; [by apply Safe_ret|].
  eapply Safe_bind; [by apply Safe_add_job|]. intros. by apply Safe_ret.
Qed.

Lemma merge_signatures_id x b : same_id b (merge_signatures x b).
Proof.
  unfold merge_signatures. destruct (p_voted_validators x), (p_voted_auditors x);
    [done|apply set_audit_id|apply set_verify_id|].
  etrans; [apply set_verify_id|apply set_audit_id].
Qed.

Lemma Safe_finish_vote o x b s :
  dinv u s -> d_props (cs_st s) !! o = Some x -> block_at (p_block x) s = Some b ->
  Safe u (finish_vote o x b) s (fun _ _ => True).
Proof.
  intros Hi Hx Hb. unfold finish_vote.
  eapply Safe_bind; [eapply Safe_store; [done|exact Hb|apply merge_signatures_id]|].
  intros [] s1 Hi1 Hm1 [_ E]. destruct (verify_muti_sign_block _); [|by apply Safe_ret].
  eapply Safe_bind; [eapply Safe_store; [done|by rewrite E, decide_True|apply authenticate_id]|].
  intros [] s2 Hi2 Hm2 _. apply Safe_add_call; [done| |done].
  eapply dm_known; [done|]. eapply dm_known; [done|]. by eapply known_of.
Qed.

Lemma Safe_work_verify_vote replica c o s :
  dinv u s -> prop_known s o -> Safe u (work_verify_vote replica c o) s (fun _ _ => True).
Proof.
  intros Hi Ho. unfold work_verify_vote. safe_bind. destruct (d_closed _); [by apply Safe_ret|].
  eapply Safe_bind; [by apply Safe_prop_deref|]. intros x s1 Hi1 _ (-> & Hx & Ha & _).
  eapply Safe_bind; [by apply Safe_deref|]. intros b s2 Hi2 _ [-> Hb].
  destruct (is_vote_finish _ _); [by apply Safe_ret|]. destruct (negb _); [by apply Safe_ret|].
  destruct (add_voted_cert_block (b_cert b) x replica (Some c)) as (E1 & E2 & E3).
  destruct (add_voted_cert _ _ _ _) as [x1 added]. cbn in E1, E2.
  eapply Safe_bind; [by eapply Safe_prop_store|]. intros [] s3 Hi3 _ [Ew Hx1].
  destruct (added && _); [|by apply Safe_ret]. apply Safe_finish_vote; [done..|].
  rewrite E1. unfold block_at in *. by rewrite Ew.
Qed.

Lemma Safe_after_verify_vote o s :
  dinv u s -> prop_known s o -> Safe u (after_verify_vote o) s (fun _ _ => True).
Proof.
  intros Hi Ho. unfold after_verify_vote. safe_bind x. safe_bind b.
  destruct (check_block_flag _ _); [|by apply Safe_ret]. safe_bind. safe_bind added.
  destruct added; [|by apply Safe_ret]. unfold self. safe_bind. safe_bind. by apply Safe_fire_pdu.
Qed.

(** ** Commits *)

Lemma Safe_commit_known packet : quiet (commit_known packet).
Proof. intros s Hi. unfold commit_known. safe_bind o. destruct o; safe_run; done. Qed.

Lemma Safe_match_local_proposal packet from s :
  dinv u s -> Safe u (match_local_proposal packet from) s (fun r s' => forall p, r = inr (Some p) -> allocated s' p).
Proof.
  intros Hi. unfold match_local_proposal. safe_bind o. destruct o as [o|]; [|by apply Safe_ret].
  assert (prop_known s o) by auto. safe_bind x. safe_bind b.
  destruct (is_deliver _ _); [by apply Safe_ret|]. destruct (negb _); [by apply Safe_ret|].
  apply Safe_ret; [done|]. intros p. by destruct (_ && _); intros [= <-].
Qed.

Lemma Safe_fire_verify_commit_job p paired s :
  dinv u s -> allocated s p -> Safe u (fire_verify_commit_job (Some p) paired) s (fun _ _ => True).
Proof.
  intros Hi Hp. unfold fire_verify_commit_job. safe_bind. destruct (negb _); [by apply Safe_ret|].
  eapply Safe_bind; [by apply Safe_add_job|]. intros. by apply Safe_ret.
Qed.
Hint Resolve Safe_fire_verify_commit_job Safe_match_local_proposal Safe_commit_known : safe.

Lemma Safe_commit_success ev msg c hash matched s :
  dinv u s -> (forall p, matched = Some p -> allocated s p) ->
  Safe u (commit_success ev msg c hash matched) s (fun _ _ => True).
Proof.
  intros Hi Hp. unfold commit_success. destruct (_ || _); [by apply Safe_ret|].
  destruct matched as [p|]; [assert (allocated s p) by auto|]; safe_run; done.
Qed.

Lemma Safe_commit_failure ev msg c hash matched s :
  dinv u s -> (forall p, matched = Some p -> allocated s p) ->
  Safe u (commit_failure ev msg c hash matched) s (fun _ _ => True).
Proof.
  intros Hi Hp. unfold commit_failure. destruct matched as [p|]; [assert (allocated s p) by auto; safe_run; done|].
  safe_bind lb. eapply (Safe_bind _ _ _ (fun _ _ => True)); [|intros; by apply Safe_ret].
  destruct (_ <? _); [|by apply Safe_ret]. safe_bind o. destruct o; safe_run; done.
Qed.

Lemma Safe_handle_commit_msg ev : quiet (handle_commit_msg ev).
Proof.
  intros s Hi. unfold handle_commit_msg. safe_bind msg. destruct msg as [msg|]; [|by apply Safe_ret].
  safe_bind known. destruct known; [by apply Safe_ret|].
  safe_bind local. destruct local as [|matched]; [by apply Safe_ret|].
  assert (forall p, matched = Some p -> allocated t1 p) by (intros p ->; auto).
  destruct (create_qcert_object _); [|by apply Safe_ret].
  destruct (negb _); [by apply Safe_ret|].
  destruct (_ =? _); [by apply Safe_commit_success|by apply Safe_commit_failure].
Qed.

(** ** Reports *)

Lemma Safe_report_sync ev h hash f : quiet (report_sync ev h hash f).
Proof. intros s Hi. unfold report_sync. safe_run; done. Qed.

Definition latest_cert_of (s : dstate) : option xvblock :=
  get_latest_block (m_certified_blocks (cs_st s)) ≫= (fun p => block_at p s).
Definition prev_of (s : dstate) (b : xvblock) : option xvblock := b_prev b ≫= (fun q => block_at q s).

Lemma latest_cert_value_reads s : drv_inv s -> reads latest_cert_value (latest_cert_of s) s.
Proof.
  intros Hi. eapply reads_bind; [apply latest_cert_reads|]. unfold latest_cert_of.
  destruct (get_latest_block _) as [p|] eqn:E; [|done].
  destruct (latest_cert_alloc _ _ Hi E) as [b Hb]. cbn. rewrite Hb.
  eapply reads_bind; [by apply deref_reads|done].
Qed.
Lemma Safe_latest_cert_value : quiet latest_cert_value.
Proof. intros s Hi. by eapply Safe_reads; [|apply latest_cert_value_reads, Hi|]. Qed.

Lemma prev_reads s lb :
  dinv u s -> lock_of s = Some lb ->
  reads match b_prev lb with Some q => let* b := deref q in ret (Some b) | None => ret None end (prev_of s lb) s.
Proof.
  intros Hi (l & _ & Hl)%lock_of_ptr. unfold prev_of. destruct (b_prev lb) as [q|] eqn:Hq; [|done].
  destruct (hi_prev _ (dv_heap _ _ Hi) _ _ _ Hl Hq) as [c Hc]. cbn. rewrite Hc.
  eapply reads_bind; [by apply deref_reads|done].
Qed.

(** The text of [dump] never exceeds 255 characters. *)
Definition dump_of (s : dstate) : string :=
  str_take 255 (dump_text (lock_of s) (latest_cert_of s)
    match lock_of s, latest_cert_of s with Some lb, Some _ => prev_of s lb | _, _ => None end
    (m_latest_voted_viewid (cs_st s))).
Lemma dump_of_length s : (String.length (dump_of s) <= 255)%nat.
Proof. unfold dump_of. rewrite str_take_length. lia. Qed.
Lemma dump_reads s : dinv u s -> reads dump (dump_of s) s.
Proof.
  intros Hi. unfold dump. eapply reads_bind; [apply latest_cert_value_reads, Hi|].
  eapply reads_bind; [apply reads_st_get|].
  eapply (reads_bind _ _ (lock_of s)).
  { unfold lock_of. destruct (m_latest_lock_block (cs_st s)) as [l|] eqn:El; [|done].
    destruct (di_lock _ (dv_drv _ _ Hi) _ El) as (lb & Hlb & _). cbn. rewrite Hlb.
    eapply reads_bind; [by apply deref_reads|apply reads_ret]. }
  eapply (reads_bind _ _ match lock_of s, latest_cert_of s with Some lb, Some _ => prev_of s lb | _, _ => None end).
  - destruct (lock_of s) eqn:El, (latest_cert_of s); try done. by apply prev_reads.
  - eapply reads_bind; [apply reads_st_get|done].
Qed.
Lemma Safe_dump : quiet dump.
Proof. intros s Hi. by eapply Safe_reads; [|apply dump_reads|]. Qed.
Hint Resolve Safe_report_sync Safe_latest_cert_value Safe_dump : safe.

Lemma Safe_handle_votereport_msg ev : quiet (handle_votereport_msg ev).
Proof.
  intros s Hi. unfold handle_votereport_msg. destruct (dec_vote_report _); [|by apply Safe_ret].
  safe_bind. safe_bind. safe_bind c. eapply (Safe_bind _ _ _ (fun _ _ => True)); [|intros; by apply Safe_ret].
  destruct (_ && _); [by apply Safe_report_sync|by apply Safe_ret].
Qed.

Lemma Safe_build_report result : quiet (build_report result).
Proof.
  intros s Hi. unfold build_report. safe_bind. safe_bind c. safe_bind lb.
  eapply (Safe_bind _ _ _ (fun _ _ => True)); [|intros; by apply Safe_ret].
  by eapply Safe_reads; [|apply prev_reads|].
Qed.
Hint Resolve Safe_build_report : safe.

Lemma Safe_send_report result from to : quiet (send_report result from to).
Proof. intros s Hi. unfold send_report. safe_run; done. Qed.

(** ** Clock and view *)

Lemma Safe_for_each {A} (body : A -> DP unit) (P : A -> dstate -> Prop) l s :
  (forall x t t', dmono t t' -> P x t -> P x t') ->
  (forall x t, dinv u t -> P x t -> Safe u (body x) t (fun _ _ => True)) ->
  dinv u s -> (forall x, x ∈ l -> P x s) -> Safe u (for_each l body) s (fun _ _ => True).
Proof.
  intros Hst Hb. revert s. induction l as [|x l IH]; intros s Hi Hl; [by apply Safe_ret|].
  cbn. eapply Safe_bind; [apply Hb; [done|apply Hl; left]|]. intros [] s1 Hi1 Hm1 _.
  apply IH; [done|]. intros y Hy. eapply Hst; [done|]. apply Hl. by right.
Qed.

Lemma Safe_map_prog {A B} (f : A -> DP B) (R : A -> B -> Prop) l s :
  dinv u s -> (forall x, x ∈ l -> Safe u (f x) s (fun y s' => s' = s /\ R x y)) ->
  Safe u (map_prog f l) s (fun r s' => s' = s /\ Forall2 R l r).
Proof.
  intros Hi. induction l as [|x l IH]; intros Hl; [by apply Safe_ret|]. cbn.
  eapply Safe_bind; [apply Hl; left|]. intros y s1 Hi1 _ [-> Hy].
  eapply Safe_bind; [apply IH; intros z Hz; apply Hl; by right|]. intros r s2 Hi2 _ [-> Hr].
  apply Safe_ret; [done|]. split; [done|]. by constructor.
Qed.

Lemma Safe_sort_proposals l s :
  dinv u s -> (forall v o, (v, o) ∈ l -> prop_known s o) ->
  Safe u (sort_proposals l) s (fun r s' => s' = s /\ forall o, o ∈ r -> prop_known s o).
Proof.
  intros Hi Hl. unfold sort_proposals.
  eapply Safe_bind; [apply (Safe_map_prog _ (fun e k => k.2 = e.2)); [done|]|].
  - intros [v o] Hin. eapply Safe_bind; [apply Safe_prop_block; eauto|]. intros b s1 Hi1 _ [-> _].
    by apply Safe_ret.
  - intros keyed s1 Hi1 _ [-> Hk]. apply Safe_ret; [done|]. split; [done|].
    intros o (k & -> & Hin)%list_elem_of_fmap. rewrite sort_by_perm in Hin.
    apply list_elem_of_lookup in Hin as [i Hki].
    destruct (Forall2_lookup_r _ _ _ _ _ Hk Hki) as ([v o] & Hin & ->).
    cbn. eapply Hl. by eapply list_elem_of_lookup_2.
Qed.

Lemma Safe_notify_timeout stream c o s :
  dinv u s -> prop_known s o -> Safe u (notify_timeout stream c o) s (fun _ _ => True).
Proof.
  intros Hi Ho. unfold notify_timeout. safe_bind x. safe_bind b.
  eapply (Safe_bind _ _ _ (fun _ _ => True)); [|intros; by apply Safe_finish_event].
  destruct (p_is_leader x); [|by apply Safe_ret]. unfold self. safe_bind. by apply Safe_fire_pdu.
Qed.

Lemma Safe_notify_cancel o s :
  dinv u s -> prop_known s o -> Safe u (notify_cancel o) s (fun _ _ => True).
Proof. intros Hi Ho. unfold notify_cancel. safe_bind x. by apply Safe_finish_event. Qed.

Lemma Safe_highest_cert_block : quiet highest_cert_block.
Proof.
  intros s Hi. unfold highest_cert_block. safe_bind o. destruct o as [p|].
  - eapply Safe_mono; [by apply Safe_deref; [|auto]|done].
  - eapply Safe_mono; [by apply Safe_lock_block|done].
Qed.

Lemma Safe_notify_proposal_fail timeout outofdate s :
  dinv u s -> (forall v o, (v, o) ∈ timeout ++ outofdate -> prop_known s o) ->
  Safe u (notify_proposal_fail timeout outofdate) s (fun _ _ => True).
Proof.
  intros Hi Hl. assert (Hgo : Safe u (
    let* h := highest_cert_block in
    let stream := enc_commit (new_commit_msg enum_xconsensus_error_timeout (get_height h)) in
    let* sorted := sort_proposals timeout in
    for_each sorted (notify_timeout stream (cert_to_string (b_cert h))) ;;;
    let* sorted' := sort_proposals outofdate in
    for_each sorted' notify_cancel ;;;
    ret true) s (fun _ _ => True)); [|by destruct timeout, outofdate; [apply Safe_ret|..]].
  eapply Safe_bind; [by apply Safe_highest_cert_block|]. intros h s1 Hi1 Hm1 _. cbv zeta.
  eapply Safe_bind; [apply Safe_sort_proposals; [done|]|].
  { intros v o Hin. eapply dm_known; [done|]. eapply Hl, elem_of_app. by left. }
  intros r s2 Hi2 _ [-> Hr].
  eapply Safe_bind; [apply (Safe_for_each _ (fun o t => prop_known t o)); eauto using Safe_notify_timeout with safe|].
  intros [] s3 Hi3 Hm3 _. eapply Safe_bind; [apply Safe_sort_proposals; [done|]|].
  { intros v o Hin. do 2 (eapply dm_known; [done|]). eapply Hl, elem_of_app. by right. }
  intros r' s4 Hi4 _ [-> Hr'].
  eapply Safe_bind; [apply (Safe_for_each _ (fun o t => prop_known t o)); eauto using Safe_notify_cancel with safe|].
  intros. by apply Safe_ret.
Qed.

(** The proposals a loop keeps and erases. *)
Lemma Safe_partition_over l s :
  dinv u s -> (forall e, e ∈ l -> e ∈ m_proposal_blocks (cs_st s)) ->
  Safe u (partition_prog (fun e => let* x := prop_deref e.2 in safe_check_for_block (Some (p_block x))) l) s
    (fun r s' => s' = s /\ exists f, r = (List.filter f l, List.filter (fun e => negb (f e)) l)).
Proof.
  intros Hi Hl. destruct l as [|e l]; [apply Safe_ret; [done|]; split; [done|by exists (fun _ => true)]|].
  assert (Hlk : m_latest_lock_block (cs_st s) <> None).
  { apply (hi_lock _ (dv_heap _ _ Hi)). intros E. specialize (Hl e (list_elem_of_here _ _)).
    rewrite E in Hl. by apply elem_of_nil in Hl. }
  destruct (m_latest_lock_block (cs_st s)) as [k|] eqn:Ek; [|done].
  destruct (di_lock _ (dv_drv _ _ Hi) _ Ek) as (lb & Hlb & _).
  assert (Hlo : lock_of s = Some lb) by (unfold lock_of; by rewrite Ek).
  eapply Safe_reads; [done|apply (reads_partition _ (fun e => prop_over s lb e.2))|eauto].
  intros [v o] Hin%Hl. destruct (di_props_at _ (dv_drv _ _ Hi) _ _ Hin) as (b & Hb & _).
  unfold prop_over. cbn [snd]. rewrite Hb. unfold prop_block_of in Hb.
  destruct (d_props (cs_st s) !! o) as [x|] eqn:Hx; [|done]. cbn in Hb.
  eapply reads_bind; [by apply prop_deref_reads|]. by apply safe_check_for_block_reads.
Qed.

Lemma Safe_partition_view viewid s :
  dinv u s ->
  Safe u (partition_prog (fun e => let* b := prop_block e.2 in ret (negb (get_viewid b <? viewid)))
            (m_proposal_blocks (cs_st s))) s
    (fun r s' => s' = s /\ exists f, r = (List.filter f (m_proposal_blocks (cs_st s)),
                                         List.filter (fun e => negb (f e)) (m_proposal_blocks (cs_st s)))).
Proof.
  intros Hi. eapply Safe_reads; [done|apply (reads_partition _ (fun e => negb (prop_view s e.2 <? viewid)))|eauto].
  intros [v o] Hin. destruct (di_props_at _ (dv_drv _ _ Hi) _ _ Hin) as (b & Hb & _).
  unfold prop_view. cbn [snd]. rewrite Hb. eapply reads_bind; [by apply prop_block_reads|done].
Qed.

Lemma Safe_on_clock_fire h : quiet (on_clock_fire h).
Proof.
  intros s Hi. unfold on_clock_fire, sync_on_clock_fire.
  eapply (Safe_bind _ _ _ (fun _ _ => True)); [safe_run; done|]. intros _ s1 Hi1 _ _.
  eapply Safe_bind; [by apply Safe_st_get|]. intros m s2 _ _ [-> ->].
  eapply Safe_bind; [by apply Safe_partition_over|]. intros kr s2 _ _ (-> & f & ->). cbn [fst snd].
  eapply Safe_bind; [apply Safe_set_proposals; [done|apply filter_sorted, Hi1|]|].
  { intros v p Hin. by apply (in_filter f) in Hin as [? _]. }
  intros [] s2 Hi2 Hm2 _. apply Safe_notify_proposal_fail; [done|].
  intros v o Hin. eapply dm_known; [done|]. apply in_filter in Hin as [Hin _]. by eapply prop_in_known.
Qed.

Lemma Safe_on_view_fire viewid clock : quiet (on_view_fire viewid clock).
Proof.
  intros s Hi. unfold on_view_fire, sync_on_view_fire.
  eapply (Safe_bind _ _ _ (fun _ _ => True)); [safe_run; done|]. intros _ s1 Hi1 _ _.
  eapply Safe_bind; [by apply Safe_st_get|]. intros m s2 _ _ [-> ->].
  eapply Safe_bind; [by apply Safe_partition_view|]. intros kt s2 _ _ (-> & f & ->). cbn [fst snd].
  eapply Safe_bind; [apply Safe_partition_over; [done|]|].
  { intros e Hin. by apply (in_filter f) in Hin as [? _]. }
  intros kr s2 _ _ (-> & g & ->). cbn [fst snd].
  eapply Safe_bind; [apply Safe_set_proposals; [done|by apply filter_sorted, filter_sorted, Hi1|]|].
  { intros v p Hin. apply (in_filter g) in Hin as [Hin _]. by apply (in_filter f) in Hin as [? _]. }
  intros [] s2 Hi2 Hm2 _. apply Safe_notify_proposal_fail; [done|].
  intros v o Hin. eapply dm_known; [done|]. eapply (prop_in_known _ v); [done|].
  apply elem_of_app in Hin as [Hin|Hin]; apply in_filter in Hin as [Hin _]; [done|].
  by apply in_filter in Hin as [? _].
Qed.

(** ** Deferred events, certificates, the start of a round *)

Lemma Safe_after_fire_proposal_finish err d p : quiet (after_fire_proposal_finish err d p).
Proof. intros s Hi. unfold after_fire_proposal_finish. safe_bind. by apply Safe_finish_event. Qed.
Lemma Safe_after_fire_consensus_update : quiet after_fire_consensus_update.
Proof. intros s Hi. unfold after_fire_consensus_update. safe_bind. eapply Safe_mono; [by apply Safe_fire|done]. Qed.
Lemma Safe_work_verify_cert c : quiet (work_verify_cert c).
Proof.
  intros s Hi. unfold work_verify_cert. safe_bind. destruct (d_closed _); [by apply Safe_ret|].
  safe_bind. destruct (verify_muti_sign_cert _ _); [by apply Safe_add_call|by apply Safe_ret].
Qed.
Lemma Safe_after_verify_cert c : quiet (after_verify_cert c).
Proof.
  intros s Hi. unfold after_verify_cert. destruct (is_flagged c); [|by apply Safe_ret].
  eapply Safe_mono; [by apply Safe_fire|done].
Qed.

Lemma Safe_on_consensus_update lock s :
  dinv u s -> (forall l, lock = Some l -> allocated s l) -> Safe u (on_consensus_update lock) s (fun _ _ => True).
Proof.
  intros Hi Hl. unfold on_consensus_update. eapply Safe_bind; [by apply Safe_set_lock_block|].
  intros. by apply Safe_ret.
Qed.

Definition start_ok (s : dstate) (ev : xproposal_start) : Prop :=
  forall p, ps_proposal ev = Some p \/ ps_lock ev = Some p \/ ps_commit ev = Some p \/ ps_cert ev = Some p ->
  allocated s p.

Lemma Safe_take_start_state ev s :
  dinv u s -> start_ok s ev -> Safe u (take_start_state ev) s (fun _ _ => True).
Proof.
  intros Hi Hev. unfold take_start_state.
  eapply (Safe_bind _ _ _ (fun _ _ => True)).
  - destruct (match ps_lock ev with Some l => Some l | None => ps_commit ev end) as [l|] eqn:El; [|by apply Safe_ret].
    assert (allocated s l) by (apply Hev; destruct (ps_lock ev); simplify_eq; auto).
    eapply Safe_bind; [apply Safe_set_lock_block; [done|by intros l' [= <-]]|].
    intros ok s1 Hi1 Hm1 _. destruct ok; [by apply Safe_ret|]. safe_run. done.
  - intros [] s1 Hi1 Hm1 _. destruct (ps_cert ev) as [c|] eqn:Ec; [|by apply Safe_ret].
    assert (allocated s c) by (apply Hev; auto). safe_bind. by apply Safe_ret.
Qed.

(** ** Voting checks *)

(** Asking for the lock twice is asking once. *)
Lemma relock s l s1 :
  get_lock_block s = Some (l, s1) -> l = m_latest_lock_block (cs_st s1) ->
  m_latest_lock_block (cs_st s1) <> None -> get_lock_block s = get_lock_block s1.
Proof.
  intros E -> Hne. rewrite E. destruct (m_latest_lock_block (cs_st s1)) as [l|] eqn:El; [|done].
  by rewrite (get_lock_reads s1 l El).
Qed.

Lemma bind_same {A B} (m : DP A) (k : A -> DP B) s s1 : m s = m s1 -> bind m k s = bind m k s1.
Proof. unfold bind. by intros ->. Qed.

(** A check that starts by asking for the lock: either there is none and it
    answers false, or it is the check with the lock in place. *)
Lemma Safe_locked_check (m : DP bool) (f : dstate -> xvblock -> bool) s :
  dinv u s ->
  (forall s1, get_lock_block s = get_lock_block s1 -> m s = m s1) ->
  (forall s1, get_lock_block s = Some (None, s1) -> m s = Some (false, s1)) ->
  (forall s1 lb, dinv u s1 -> dle s s1 -> lock_of s1 = Some lb -> reads m (f s1 lb) s1) ->
  Safe u m s (fun r s' => dle s s' /\ (r = true -> exists lb, lock_of s' = Some lb /\ f s' lb = true)).
Proof.
  intros Hi Hsame Hnone Hf.
  destruct (get_lock_block_spec s (dv_drv _ _ Hi)) as (l & s1 & E & Hd & Hle & Hr & _).
  assert (Hi1 : dinv u s1).
  { apply (dinv_next s); [done|done| |by apply dle_dmono|by apply bodies_same, Hle]. apply (dle_heap s); [apply Hi|apply Hi|done]. }
  destruct (m_latest_lock_block (cs_st s1)) as [k|] eqn:Ek.
  - destruct (di_lock _ Hd _ Ek) as (lb & Hlb & _).
    assert (Hlo : lock_of s1 = Some lb) by (unfold lock_of; by rewrite Ek).
    eapply Safe_dle; [done| |exact Hd|done|].
    + rewrite (Hsame s1); [by apply Hf|]. by eapply relock; [|rewrite Ek|rewrite Ek].
    + split; [done|]. intros Hr'. by exists lb.
  - subst l. eapply Safe_dle; [done|by apply Hnone|exact Hd|done|]. split; [done|]. by intros [=].
Qed.

Lemma Safe_precheck p b s :
  dinv u s -> block_at p s = Some b ->
  Safe u (safe_precheck_for_voting (Some p)) s
    (fun r s' => dle s s' /\ (r = true -> exists lb, lock_of s' = Some lb /\ precheck s' lb b = true)).
Proof.
  intros Hi Hb. apply (Safe_locked_check _ (fun s1 lb => precheck s1 lb b)); [done|..].
  - intros s1 E. unfold safe_precheck_for_voting, safe_check_for_proposal_block, safe_check_for_block.
    by do 3 apply bind_same.
  - intros s1 E. unfold safe_precheck_for_voting, safe_check_for_proposal_block, safe_check_for_block, bind.
    rewrite E. reflexivity.
  - intros s1 lb Hi1 Hle Hl. apply precheck_reads; [apply Hi1|done|]. by rewrite (dle_block _ _ p Hle).
Qed.

Lemma Safe_finalcheck p b s :
  dinv u s -> block_at p s = Some b ->
  Safe u (safe_finalcheck_for_voting (Some p)) s
    (fun r s' => dle s s' /\ (r = true -> exists lb, lock_of s' = Some lb /\ finalcheck s' lb b = true)).
Proof.
  intros Hi Hb. apply (Safe_locked_check _ (fun s1 lb => finalcheck s1 lb b)); [done|..].
  - intros s1 E. by apply bind_same.
  - intros s1 E. unfold safe_finalcheck_for_voting, bind. by rewrite E.
  - intros s1 lb Hi1 Hle Hl. apply finalcheck_reads; [apply Hi1|done|]. by rewrite (dle_block _ _ p Hle).
Qed.

(** ** Signing *)

Definition Signs {A} (m : DP A) (s : dstate) (Q : A -> dstate -> Prop) : Prop :=
  wpu u m (fun a s' => dinv u s' /\ dfwd s s' /\ Q a s') s.

Lemma Signs_bind {A B} (m : DP A) (k : A -> DP B) s P Q :
  Safe u m s P -> (forall a s1, dinv u s1 -> dmono s s1 -> P a s1 -> Signs (k a) s1 Q) -> Signs (bind m k) s Q.
Proof.
  intros Hm Hk. apply wpu_bind. eapply wpu_mono; [exact Hm|]. intros a s1 (Hi & Hle & HP).
  eapply wpu_mono; [by apply Hk|]. intros b s2 (Hi2 & Hle2 & HQ). split_and!; try done.
  etrans; [by apply dmono_dfwd|done].
Qed.
Lemma Signs_mono {A} (m : DP A) s (P Q : A -> dstate -> Prop) :
  Signs m s P -> (forall a s', dfwd s s' -> P a s' -> Q a s') -> Signs m s Q.
Proof. intros Hm HPQ. eapply wpu_mono; [exact Hm|]. intros a s' (? & ? & ?). split_and!; auto. Qed.
Lemma Signs_safe {A} (m : DP A) s (Q : A -> dstate -> Prop) :
  Safe u m s (fun _ _ => True) -> (forall a s', dmono s s' -> Q a s') -> Signs m s Q.
Proof.
  intros Hm HQ. eapply wpu_mono; [exact Hm|]. intros a s' (? & Hle & _).
  split_and!; auto. by apply dmono_dfwd.
Qed.

(** A packet signed by this node leaves. *)
Lemma Signs_fire e s :
  dinv u s ->
  Signs (fire e) s (fun _ s' => cs_st s' = cs_st s /\ pending s' = pending s /\
    signed s' = signed s ++ (if cs_parent s then signed_view e else [])).
Proof.
  intros Hi. unfold Signs, wpu. rewrite fire_runs.
  assert (Hs : signed (add_outs [e] s) = signed s ++ (if cs_parent s then signed_view e else [])).
  { unfold signed, add_outs. cbn. destruct (cs_parent s); [|by rewrite app_nil_r].
    rewrite bind_app. cbn. by rewrite app_nil_r. }
  split_and!; [|split; cbn|done|done|exact Hs].
  - destruct Hi as [Hd Hh Hu]. split; [by apply add_outs_inv| |done]. by destruct Hh.
  - intros p b Hb. exists b. by split.
  - done.
  - done.
  - done.
  - intros b Hb. exists b. by split.
  - destruct (cs_parent s); [by apply prefix_app_r|done].
Qed.

Lemma map_set_ne {V} (v : Z) (x : V) m : map_set v x m <> [].
Proof. destruct m as [|[k y] m]; cbn; [done|]. by repeat case_match. Qed.

(** A proposal enters the table: the counters cover its position. *)
Lemma Safe_add_proposal_obj o b s :
  dinv u s -> prop_block_of s o = Some b -> prop_known s o -> m_latest_lock_block (cs_st s) <> None ->
  Safe u (add_proposal_obj o) s (fun r s' => r = true /\ cs_world s' = cs_world s /\
    d_props (cs_st s') = d_props (cs_st s) /\ get_viewid b <= m_latest_voted_viewid (cs_st s')).
Proof.
  intros Hi Hb Ho Hl. unfold add_proposal_obj, Safe, wpu.
  rewrite (bind_runs _ _ _ _ _ (prop_block_reads _ _ _ Hb)). do 2 run_simple. cbn [bind].
  set (s1 := upd_st (raise_voted (get_height b) (get_viewid b)) s).
  set (r := add_block (get_viewid b) o (m_proposal_blocks (cs_st s1))).
  assert (Hr : r.1 = m_proposal_blocks (cs_st s) \/ r.1 = map_set (get_viewid b) o (m_proposal_blocks (cs_st s))).
  { unfold r, add_block. cbn. repeat case_match; auto. }
  run_simple. cbn [ret]. set (s2 := upd_st (set_proposals r.1) s1).
  assert (Hd : drv_inv s2).
  { pose proof (dv_drv _ _ Hi) as [H3 H4 H5 H6 H7 H8]. split; try done.
    - intros l El. destruct (H3 l El) as (lb & ? & ? & ?). exists lb. cbn. split; [done|]. lia.
    - change (key_sorted r.1). destruct Hr as [->| ->]; [done|by apply map_set_sorted].
    - intros v q Hin.
      assert (Hc : (v, q) = (get_viewid b, o) \/ (v, q) ∈ m_proposal_blocks (cs_st s)).
      { change ((v, q) ∈ r.1) in Hin. destruct Hr as [E|E]; rewrite E in Hin; [by right|by apply map_set_in]. }
      destruct Hc as [[= -> ->]|Hc].
      + exists b. cbn. split_and!; [exact Hb|done|lia..].
      + destruct (H8 v q Hc) as (b' & ? & ? & ? & ?). exists b'. cbn. split_and!; [done..|lia|lia]. }
  assert (Hm : dmono s s2).
  { split; try done; cbn; try lia.
    - intros p b' Hp. exists b'. by split.
    - intros lb Hlb. exists lb. by split.
    - eauto. }
  split_and!; [apply (dinv_next s); [done..| |done|by apply bodies_same]|done| |done|done|cbn; lia].
  - destruct (dv_heap _ _ Hi). by split.
  - unfold r, add_block. by repeat case_match.
Qed.

Lemma views_quiet s s' : dmono s s' -> views s' = views s.
Proof. intros Hm. unfold views. by rewrite (dm_signed _ _ Hm), (dm_pending _ _ Hm). Qed.

(** Relations between the states before and after a step that a quiet step
    before or after does not disturb. *)
Class StepRel (R : dstate -> dstate -> Prop) : Prop := {
  sr_quiet : forall s s', dmono s s' -> R s s';
  sr_pre : forall s s1 s', dmono s s1 -> R s1 s' -> R s s';
  sr_post : forall s s1 s', R s s1 -> dmono s1 s' -> R s s';
}.

#[export] Instance views_step_rel : StepRel views_step.
Proof.
  split.
  - intros s s' Hm. left. by rewrite (views_quiet _ _ Hm).
  - intros s s1 s' Hm Hv. pose proof (dm_voted_v _ _ Hm). unfold views_step in *. rewrite (views_quiet _ _ Hm) in Hv.
    destruct Hv as [?|(v & ? & ?)]; [by left|right]. exists v. split; [done|lia].
  - intros s s1 s' Hv Hm. unfold views_step in *. rewrite (views_quiet _ _ Hm). pose proof (dm_voted_v _ _ Hm).
    destruct Hv as [?|(v & ? & ?)]; [by left|right]. exists v. split; [done|lia].
Qed.

(** A step after which a view may wait for this node's vote; nothing signed leaves. *)
Definition accept_step (s s' : dstate) : Prop := views_step s s' /\ signed s' = signed s.

#[export] Instance accept_step_rel : StepRel accept_step.
Proof.
  split.
  - intros s s' Hm. split; [by apply sr_quiet|apply Hm].
  - intros s s1 s' Hm [Hv Hs]. split; [by eapply sr_pre|]. by rewrite Hs, (dm_signed _ _ Hm).
  - intros s s1 s' [Hv Hs] Hm. split; [by eapply sr_post|]. by rewrite (dm_signed _ _ Hm).
Qed.

(** A quiet step, then a signing one. *)
Lemma Signs_views `{!StepRel R} {A B} (m : DP A) (k : A -> DP B) s P :
  Safe u m s P ->
  (forall a s1, dinv u s1 -> dmono s s1 -> P a s1 -> Signs (k a) s1 (fun _ s' => R s1 s')) ->
  Signs (bind m k) s (fun _ s' => R s s').
Proof.
  intros Hm Hk. eapply Signs_bind; [exact Hm|]. intros a s1 Hi1 Hm1 HP.
  eapply Signs_mono; [by apply Hk|]. intros b s' _ Hr. by eapply (sr_pre (R := R)).
Qed.

Lemma Signs_quiet `{!StepRel R} {A} (m : DP A) s :
  Safe u m s (fun _ _ => True) -> Signs m s (fun _ s' => R s s').
Proof. intros Hm. apply Signs_safe; [done|]. intros a s'. by apply sr_quiet. Qed.

Lemma Signs_then `{!StepRel R} {A B} (m : DP A) (k : A -> DP B) s :
  Signs m s (fun _ s' => R s s') ->
  (forall a s1, dinv u s1 -> Safe u (k a) s1 (fun _ _ => True)) ->
  Signs (bind m k) s (fun _ s' => R s s').
Proof.
  intros Hm Hk. apply wpu_bind. eapply wpu_mono; [exact Hm|]. intros a s1 (Hi1 & Hf1 & Hv).
  eapply wpu_mono; [by apply Hk|]. intros b s2 (Hi2 & Hm2 & _). split_and!; [done| |].
  - etrans; [done|by apply dmono_dfwd].
  - by eapply sr_post.
Qed.

Lemma justify_id lb b : same_id b (justify lb b).
Proof. unfold justify. split_and!; [split|..]; try done. apply set_justify_viewid. Qed.
Lemma sign_block_id who rand b : same_id b (sign_block who rand b).
Proof. unfold sign_block. cbv zeta. case_match; [apply set_verify_id|apply set_audit_id]. Qed.

Lemma same_pos_viewid b b' : same_pos b b' -> get_viewid b' = get_viewid b.
Proof. by intros [_ ?]. Qed.

Lemma new_proposal_body b c ms : has_body b -> new_proposal_msg b c ms <> None.
Proof. intros [Hin _]. unfold new_proposal_msg. by destruct (b_input b). Qed.

(** The leader's own proposal. *)
Lemma Signs_launch_proposal p b ms s :
  dinv u s -> block_at p s = Some b -> b_prev b <> None -> m_latest_lock_block (cs_st s) <> None ->
  m_latest_voted_viewid (cs_st s) < get_viewid b ->
  Signs (launch_proposal p ms) s (fun _ s' => views_step s s').
Proof.
  intros Hi Hb Hprev Hlock Hview. unfold launch_proposal, self.
  eapply Signs_bind; [by apply Safe_gets|]. intros me s1 _ _ [-> ->].
  eapply Signs_bind; [by apply Safe_gets|]. intros rand s1 _ _ [-> ->].
  eapply Signs_bind; [apply Safe_update_block; [done|by exists b|intros; apply sign_block_id]|].
  intros [] s1 Hi1 Hm1 [Est E]. pose proof (sign_block_id (cs_self s) (w_rand (cs_world s)) b) as ((Hh & Hv) & Hp & _).
  set (b1 := sign_block (cs_self s) (w_rand (cs_world s)) b) in *.
  assert (Hb1 : block_at p s1 = Some b1) by (rewrite E, decide_True by done; by rewrite Hb).
  eapply Signs_bind; [apply Safe_deref; [done|by exists b1]|]. intros b' s2 _ _ [-> Hb']. simplify_eq.
  eapply Signs_bind; [apply Safe_nonnull; [done|congruence]|]. intros q s2 _ _ [-> Hq].
  assert (allocated s1 q) by by eapply (hi_prev _ (dv_heap _ _ Hi1)).
  eapply Signs_bind; [by apply Safe_deref|]. intros prev s2 _ _ [-> Hprev1].
  eapply (Signs_bind _ _ _ (fun r s' => r <> None /\ (forall o, r = Some o -> prop_known s' o) /\
    get_viewid b1 <= m_latest_voted_viewid (cs_st s'))).
  { unfold add_proposal. eapply Safe_bind; [by apply Safe_gets|]. intros now s2 _ _ [-> ->].
    eapply Safe_bind; [apply Safe_prop_alloc; [done|by exists b1|done|by destruct (new_proposal_wf p (Some (b_cert prev)))]|]. intros o s2 Hi2 Hm2 (Hx & Ew & _).
    assert (Ho : prop_block_of s2 o = Some b1).
    { unfold prop_block_of. rewrite Hx. cbn. unfold block_at in *. by rewrite Ew. }
    eapply Safe_bind; [apply (Safe_add_proposal_obj _ b1); [done|exact Ho|by eapply known_of|]|].
    { eapply lock_kept; [apply Hi1|apply Hm2|]. by rewrite Est. }
    intros r s3 Hi3 Hm3 (-> & _ & Epr & Hmax). apply Safe_ret; [done|]. split_and!; [done| |done].
    intros o' [= <-]. eapply known_of; [done|]. by rewrite Epr. }
  intros r s2 Hi2 Hm2 (Hr & Hk & Hmax).
  eapply Signs_bind; [by apply Safe_nonnull|]. intros o s3 _ _ [-> ->].
  eapply Signs_bind; [apply Safe_prop_update; [done|by apply Hk|]|].
  { intros x. destruct (add_voted_cert_block (b_cert b1) x (cs_self s) (Some (b_cert b1))) as (E1 & E2 & E3).
    split_and!; [done|done|]. intros Hwf. by destruct (E3 Hwf). }
  intros [] s3 Hi3 Hm3 _.
  eapply Signs_bind; [eapply (Safe_body _ p b1 s1); [done..|apply new_proposal_body|done]|]. intros msg s3' _ _ [-> _].
  eapply Signs_mono; [by apply Signs_fire|].
  intros [] s4 _ (Est4 & Ep4 & Es4). right. exists (get_viewid b1).
  pose proof (dm_voted_v _ _ Hm3). rewrite Est4, Hv in *. split; [|lia].
  assert (Hvs : views s3 = views s) by (apply views_quiet; by do 2 (etrans; [done|])).
  unfold views in *. rewrite <- Hvs, Ep4, Es4. cbn.
  destruct (cs_parent s3); [|rewrite app_nil_r; by apply submseteq_cons].
  rewrite <- app_assoc. cbn. rewrite ?Hv. by rewrite Permutation_middle.
Qed.

Lemma Safe_parent_ok p b s :
  dinv u s -> block_at p s = Some b ->
  Safe u (parent_ok b) s (fun r s' => s' = s /\ (r = true -> b_prev b <> None)).
Proof.
  intros Hi Hb. unfold parent_ok. destruct (b_prev b) as [q|] eqn:Eq; [|by apply Safe_ret].
  assert (allocated s q) by by eapply (hi_prev _ (dv_heap _ _ Hi)).
  eapply Safe_bind; [by apply Safe_deref|]. intros c s1 Hi1 _ [-> _]. by apply Safe_ret.
Qed.

Lemma Safe_refuse code p s :
  dinv u s -> allocated s p ->
  Safe u (async_fire_proposal_finish_event code EmptyString (Some p) ;;; ret tt) s (fun _ _ => True).
Proof.
  intros Hi Hp. unfold async_fire_proposal_finish_event.
  eapply (Safe_bind _ _ _ (fun _ _ => True)); [|intros; by apply Safe_ret].
  eapply Safe_bind; [by apply Safe_add_call|]. intros. by apply Safe_ret.
Qed.

Lemma precheck_view s lb b : precheck s lb b = true -> m_latest_voted_viewid (cs_st s) < get_viewid b.
Proof. unfold precheck. guards. lia. Qed.

Lemma lock_of_known s lb : lock_of s = Some lb -> m_latest_lock_block (cs_st s) <> None.
Proof. unfold lock_of. by destruct (m_latest_lock_block (cs_st s)). Qed.

Lemma Signs_start_proposal p ms s :
  dinv u s -> allocated s p -> Signs (start_proposal p ms) s (fun _ s' => views_step s s').
Proof.
  intros Hi Hp. unfold start_proposal. cbv zeta.
  eapply Signs_views; [by apply Safe_deref|]. intros b s1 _ _ [-> Hb].
  eapply Signs_views; [by eapply Safe_parent_ok|]. intros ok s1 _ _ [-> Hok].
  destruct ok; cbn [negb]; [|by apply Signs_quiet, Safe_refuse]. specialize (Hok eq_refl).
  eapply Signs_views; [by apply Safe_lock_block|]. intros lb s1 Hi1 Hm1 [Hlk Hle].
  destruct (_ <? _); [apply Signs_quiet, Safe_refuse; eauto with safe|].
  eapply Signs_views; [apply Safe_update_block; [done|eauto with safe|intros; apply justify_id]|].
  intros [] s2 Hi2 Hm2 [Est E].
  assert (Hb2 : block_at p s2 = Some (justify lb b)).
  { rewrite E, decide_True by done. rewrite (dle_block _ _ p Hle), Hb. done. }
  assert (allocated s2 p) by by eexists.
  eapply Signs_views; [by apply Safe_deref|]. intros b1 s3 _ _ [-> Hb1]. simplify_eq.
  destruct (negb _); [by apply Signs_quiet, Safe_refuse|].
  eapply Signs_views; [by eapply Safe_precheck|]. intros safe s3 Hi3 Hm3 [Hle3 Hsafe].
  destruct safe; cbn [negb]; [|apply Signs_quiet, Safe_refuse; eauto with safe].
  destruct (Hsafe eq_refl) as (lb' & Hlb' & Hpre).
  apply (Signs_launch_proposal _ (justify lb b)); [done| |by destruct (justify_id lb b) as (_ & -> & _)| |].
  - by rewrite (dle_block _ _ p Hle3).
  - by eapply lock_of_known.
  - by eapply precheck_view.
Qed.

Lemma Signs_on_proposal_start ev s :
  dinv u s -> start_ok s ev -> Signs (on_proposal_start ev) s (fun _ s' => views_step s s').
Proof.
  intros Hi Hev. unfold on_proposal_start.
  eapply Signs_views; [by apply Safe_take_start_state|]. intros [] s1 Hi1 Hm1 _.
  destruct (ps_proposal ev) as [p|] eqn:Ep; [|by apply Signs_quiet, Safe_ret].
  apply Signs_then; [|intros; by apply Safe_ret].
  apply Signs_start_proposal; [done|]. eapply dm_alloc; [done|]. apply Hev. by left.
Qed.

(** ** A replica accepts a proposal *)

Lemma Safe_proposal_known packet : quiet (proposal_known packet).
Proof.
  intros s Hi. unfold proposal_known. safe_bind o. destruct o as [o|].
  - assert (prop_known s o) by auto. safe_bind b. repeat (case_match; [by apply Safe_ret|]). by apply Safe_ret.
  - safe_bind o. destruct o; safe_run; done.
Qed.

Lemma Safe_sync_missed_cert ev b c : quiet (sync_missed_cert ev b c).
Proof.
  intros s Hi. unfold sync_missed_cert. safe_bind lb. destruct (_ <? _); [|by apply Safe_ret].
  safe_bind. eapply Safe_bind; [by eapply Safe_find_cert|]. intros r s1 Hi1 _ [-> Hr].
  destruct r as [e|]; [|safe_run; done]. destruct (negb _); [|by apply Safe_ret].
  assert (allocated t e.2) by auto. safe_run; done.
Qed.

Lemma Safe_sync_missed_commit ev b c : quiet (sync_missed_commit ev b c).
Proof.
  intros s Hi. unfold sync_missed_commit. safe_bind lb. destruct (_ <? _); [|by apply Safe_ret].
  destruct (b_prev lb); [by apply Safe_ret|]. safe_bind o. destruct o; safe_run; done.
Qed.

(** A block read from a packet has its objects, so its input is never missed. *)
Lemma peer_block_unlinked ev me msg :
  exists r, peer_block_of ev me msg = Some r /\ forall b, r = inr b -> b_prev b = None /\ has_body b.
Proof.
  unfold peer_block_of. destruct (create_block_object _) as [b0|] eqn:E0; [|by eexists].
  pose proof (create_block_body _ _ E0) as Hb. apply create_block_unlinked in E0.
  destruct (reset_flags_id b0) as (_ & Ep & Hb1). specialize (Hb1 Hb). rewrite E0 in Ep.
  unfold set_input_proposal. destruct Hb1 as [Hin Hout]. destruct (b_input (reset_block_flags b0)) as [i|]; [|done]. cbn [mbind option_bind].
  repeat (case_match; [by eexists|]). eexists. split; [done|]. by intros b [= <-].
Qed.

(** A job to verify a proposal: one more view is pending. *)
Lemma Signs_add_proposal_job leader replica o nonce from to s :
  dinv u s -> prop_known s o ->
  Signs (st_mod (add_job (JVerifyProposal leader replica o nonce from to))) s
    (fun _ s' => views s' ≡ₚ prop_view s o :: views s /\
       m_latest_voted_viewid (cs_st s') = m_latest_voted_viewid (cs_st s) /\ signed s' = signed s).
Proof.
  intros Hi Ho. unfold Signs, wpu. cbn [st_mod modify]. split_and!; try done.
  - destruct Hi as [Hd [] Hu]. split; [by destruct Hd| |done]. split; try done.
    cbn. apply Forall_app. split; [done|]. by constructor.
  - split; try done; [intros p b Hb; exists b; by split|intros b Hb; exists b; by split].
  - unfold views, pending. cbn. rewrite bind_app. cbn. rewrite <- app_assoc. cbn.
    change (job_views (upd_st (add_job (JVerifyProposal leader replica o nonce from to)) s)) with (job_views s).
    change (call_views (upd_st (add_job (JVerifyProposal leader replica o nonce from to)) s)) with (call_views s).
    change (signed (upd_st (add_job (JVerifyProposal leader replica o nonce from to)) s)) with (signed s).
    change (prop_view (upd_st (add_job (JVerifyProposal leader replica o nonce from to)) s) o) with (prop_view s o).
    rewrite !(app_assoc (signed s)), Permutation_middle. by rewrite <- !(app_assoc (signed s)).
Qed.

Lemma Signs_accept_proposal ev me msg b c s :
  dinv u s -> b_prev b = None -> has_body b -> Signs (accept_proposal ev me msg b c) s (fun _ s' => accept_step s s').
Proof.
  intros Hi Hprev Hbody. unfold accept_proposal. cbv zeta. destruct (negb _); [by apply Signs_quiet, Safe_ret|].
  eapply Signs_views; [by apply Safe_alloc|]. intros p s1 Hi1 Hm1 [_ Hb].
  eapply Signs_views; [by eapply Safe_precheck|]. intros safe s2 Hi2 Hm2 [Hle Hsafe].
  destruct safe; cbn [negb]; [|by apply Signs_quiet, Safe_ret].
  destruct (Hsafe eq_refl) as (lb & Hlb & Hpre). rewrite <- (dle_block _ _ p Hle) in Hb.
  eapply Signs_bind; [by apply Safe_gets|]. intros now s3 _ _ [-> ->].
  eapply Signs_bind; [apply Safe_prop_alloc; [done|by exists b|done|by destruct (new_proposal_wf p (Some c))]|]. intros o s3 Hi3 Hm3 (Hx & Ew & _).
  assert (Ho : prop_block_of s3 o = Some b).
  { unfold prop_block_of. rewrite Hx. cbn. unfold block_at in *. by rewrite Ew. }
  assert (Hkn : prop_known s3 o) by by eapply known_of.
  eapply Signs_bind; [apply (Safe_add_proposal_obj _ b); [done|exact Ho|done|]|].
  { eapply lock_kept; [apply Hi2|apply Hm3|by eapply lock_of_known]. }
  intros r s4 Hi4 Hm4 (_ & Ew4 & Ep4 & Hmax).
  assert (Hov : prop_view s4 o = get_viewid b).
  { unfold prop_view, prop_block_of in *. rewrite Ep4, Hx in *. cbn in *. unfold block_at in *. by rewrite Ew4, Ho. }
  apply wpu_bind. eapply wpu_mono; [apply Signs_add_proposal_job; [done|by eapply dm_known]|].
  intros [] s5 (Hi5 & Hf5 & Hv5 & Hvv5 & Hs5). cbn [ret wpu]. split_and!; [done|done|].
  split; [|by rewrite Hs5, (dm_signed _ _ Hm4), (dm_signed _ _ Hm3)].
  right. exists (get_viewid b). apply precheck_view in Hpre. rewrite Hvv5. split; [|lia].
  rewrite Hv5, Hov. by rewrite (views_quiet s2 s4) by (by etrans).
Qed.

Lemma Signs_handle_proposal_msg ev s :
  dinv u s -> Signs (handle_proposal_msg ev) s (fun _ s' => accept_step s s').
Proof.
  intros Hi. unfold handle_proposal_msg, self.
  eapply Signs_views; [by apply Safe_check_proposal_packet|]. intros msg s1 Hi1 _ _.
  destruct msg as [msg|]; [|by apply Signs_quiet, Safe_ret].
  eapply Signs_views; [by apply Safe_proposal_known|]. intros known s2 Hi2 _ _.
  destruct known; [by apply Signs_quiet, Safe_ret|].
  destruct (peer_prev_cert ev) as [c|]; [|by apply Signs_quiet, Safe_ret].
  eapply Signs_views; [by apply Safe_gets|]. intros me s3 _ _ [-> ->].
  destruct (peer_block_unlinked ev (cs_self s2) msg) as (r & -> & Hr).
  eapply Signs_views; [by apply Safe_nonnull|]. intros r' s3 _ _ [-> [= <-]].
  destruct r as [|b]; [by apply Signs_quiet, Safe_ret|]. destruct (Hr b eq_refl) as [Eb Hbody].
  eapply Signs_views; [by apply Safe_sync_missed_cert|]. intros missed s3 Hi3 _ _.
  destruct missed; [by apply Signs_quiet, Safe_ret|].
  eapply Signs_views; [by apply Safe_sync_missed_commit|]. intros missed s4 Hi4 _ _.
  destruct missed; [by apply Signs_quiet, Safe_ret|]. by apply Signs_accept_proposal.
Qed.

Lemma Signs_on_proposal_msg_recv ev s :
  dinv u s -> Signs (on_proposal_msg_recv ev) s (fun _ s' => accept_step s s').
Proof.
  intros Hi. unfold on_proposal_msg_recv. apply Signs_then; [by apply Signs_handle_proposal_msg|].
  intros r s1 Hi1. destruct (negb _); [|by apply Safe_ret]. safe_bind. safe_bind. by apply Safe_ret.
Qed.

(** ** The worker verifies, the driver votes *)

Lemma replica_sign_id who rand b : same_id b (replica_sign who rand b).
Proof.
  unfold replica_sign. cbv zeta.
  assert (He : same_id b (set_audit_signature (set_verify_signature b EmptyString) EmptyString)).
  { etrans; [apply set_verify_id|apply set_audit_id]. }
  case_match; [etrans; [exact He|apply set_verify_id]|].
  case_match; [etrans; [exact He|apply set_audit_id]|done].
Qed.

Lemma prop_view_mono s s' o : dinv u s -> prop_known s o -> dmono s s' -> prop_view s' o = prop_view s o.
Proof.
  intros Hi Ho Hm. apply prop_view_kept; [..|done].
  - intros o' x Hx. destruct (dm_props _ _ Hm o' x Hx) as (x' & ? & ? & _). eauto.
  - apply Hm.
  - intros o' x Hx. by destruct (hi_props _ (dv_heap _ _ Hi) _ _ Hx).
Qed.

(** A callback to vote: the pending view moves from the job to the call. *)
Lemma Signs_add_proposal_call o nonce from to s :
  dinv u s -> prop_known s o ->
  Signs (st_mod (add_call (KAfterVerifyProposal o nonce from to))) s
    (fun _ s' => signed s' = signed s /\ pending s' = pending s ++ [prop_view s o]).
Proof.
  intros Hi Ho. unfold Signs, wpu. cbn [st_mod modify]. split_and!.
  - destruct Hi as [Hd [] Hu]. split; [by destruct Hd| |done]. split; try done.
    cbn. apply Forall_app. split; [done|]. by constructor.
  - split; try done; [intros p b Hb; exists b; by split|intros b Hb; exists b; by split].
  - done.
  - unfold pending. cbn. rewrite bind_app, app_assoc. done.
Qed.

Definition view_moves (s s' : dstate) (o : ptr) : Prop :=
  signed s' = signed s /\ (pending s' = pending s \/ pending s' = pending s ++ [prop_view s o]).

Lemma view_moves_quiet s s' o : dmono s s' -> view_moves s s' o.
Proof. intros Hm. split; [apply Hm|left; apply Hm]. Qed.

Lemma Signs_moves {A B} (m : DP A) (k : A -> DP B) s P o :
  dinv u s -> prop_known s o -> Safe u m s P ->
  (forall a s1, dinv u s1 -> dmono s s1 -> P a s1 -> Signs (k a) s1 (fun _ s' => view_moves s1 s' o)) ->
  Signs (bind m k) s (fun _ s' => view_moves s s' o).
Proof.
  intros Hi Ho Hm Hk. eapply Signs_bind; [exact Hm|]. intros a s1 Hi1 Hm1 HP.
  eapply Signs_mono; [by apply Hk|]. intros b s' _ [Hs Hp]. unfold view_moves.
  rewrite Hs, <- (dm_signed _ _ Hm1), <- (dm_pending _ _ Hm1). split; [done|].
  by rewrite <- (prop_view_mono s s1 o).
Qed.

Lemma Signs_work_verify_proposal leader replica o nonce from to s :
  dinv u s -> prop_known s o ->
  Signs (work_verify_proposal leader replica o nonce from to) s (fun _ s' => view_moves s s' o).
Proof.
  intros Hi Ho. unfold work_verify_proposal.
  assert (Hstop : forall s1, dinv u s1 -> Signs (ret tt) s1 (fun _ s' => view_moves s1 s' o)).
  { intros s1 Hi1. apply Signs_safe; [by apply Safe_ret|]. intros _ s'. by apply view_moves_quiet. }
  eapply Signs_moves; [done..|by apply Safe_st_get|]. intros closed s1 _ _ [-> ->].
  destruct (d_closed _); [by apply Hstop|].
  eapply Signs_moves; [done..|by apply Safe_prop_deref|]. intros x s1 _ _ (-> & Hx & Ha & _).
  eapply Signs_moves; [done..|by apply Safe_deref|]. intros b s1 _ _ [-> Hb].
  destruct (check_unit_flag _ _); [by apply Hstop|].
  eapply Signs_moves; [done..|apply Safe_prop_update; [done..|by intros y; split_and!; try done; intros []]|]. intros [] s1 Hi1 Hm1 Ew1.
  assert (Ho1 : prop_known s1 o) by eauto with safe.
  assert (Hb1 : block_at (p_block x) s1 = Some b) by (unfold block_at in *; by rewrite Ew1).
  destruct (verify_sign_block _ _); [|by apply Hstop].
  destruct (verify_proposal b _) as [result b1] eqn:Ev.
  assert (Hid : same_id b b1) by (pose proof (verify_proposal_id b (check_clock_cert <$> p_bind_clock_cert x)) as Hq; by rewrite Ev in Hq).
  eapply Signs_moves; [done..|by eapply Safe_store|]. intros [] s2 Hi2 Hm2 [_ E2].
  assert (Hb2 : block_at (p_block x) s2 = Some b1) by by rewrite E2, decide_True.
  assert (Ho2 : prop_known s2 o) by eauto with safe.
  eapply Signs_moves; [done..|apply Safe_prop_update; [done..|by intros y; split_and!; try done; intros []]|]. intros [] s3 Hi3 Hm3 Ew3.
  assert (Ho3 : prop_known s3 o) by eauto with safe.
  assert (Hb3 : block_at (p_block x) s3 = Some b1) by (unfold block_at in *; by rewrite Ew3).
  eapply (Signs_moves _ _ _ (fun _ _ => True)); [done..| |].
  - destruct (_ =? _); [|by apply Safe_ret].
    eapply Safe_bind; [apply Safe_prop_update; [done..|intros; apply add_voted_cert_block]|].
    intros [] s4 Hi4 Hm4 Ew4. eapply Safe_bind; [by apply Safe_gets|]. intros rand s5 _ _ [-> ->].
    eapply Safe_mono; [eapply Safe_store; [done| |apply replica_sign_id]|done].
    unfold block_at in *. by rewrite Ew4.
  - intros [] s4 Hi4 Hm4 _. eapply Signs_mono; [apply Signs_add_proposal_call; eauto with safe|].
    intros [] s' _ [? ?]. split; auto.
Qed.

(** The vote: sent only when the final check passes in the state of that moment. *)
Definition voted_by_rule (s s' : dstate) (o : ptr) : Prop :=
  pending s' = pending s /\
  (signed s' = signed s \/
   signed s' = signed s ++ [prop_view s o] /\
   exists s1 lb b, dle s s1 /\ dinv u s1 /\ lock_of s1 = Some lb /\ prop_block_of s1 o = Some b /\
     finalcheck s1 lb b = true).

Lemma Signs_after_verify_proposal o nonce from to s :
  dinv u s -> prop_known s o ->
  Signs (after_verify_proposal o nonce from to) s (fun _ s' => voted_by_rule s s' o).
Proof.
  intros Hi Ho. unfold after_verify_proposal.
  assert (Hq : forall s1 s', dmono s s1 -> dmono s1 s' -> voted_by_rule s s' o).
  { intros s1 s' Hm1 Hm2. assert (Hm : dmono s s') by by etrans. split; [apply Hm|left; apply Hm]. }
  eapply Signs_bind; [by apply Safe_prop_deref|]. intros x s1 _ _ (-> & Hx & [b Hb] & Hc).
  destruct (_ =? _).
  - eapply Signs_bind; [by eapply Safe_finalcheck|]. intros safe s1 Hi1 Hm1 [Hle Hsafe].
    destruct safe; [|apply Signs_safe; [by apply Safe_ret|]; eauto].
    destruct (Hsafe eq_refl) as (lb & Hlb & Hfin).
    assert (Hpb : prop_block_of s1 o = Some b).
    { unfold prop_block_of. rewrite (dle_props _ _ Hle), Hx. cbn. by rewrite (dle_block _ _ _ Hle). }
    eapply Signs_bind; [apply Safe_prop_update; [done|eauto with safe|by intros y; split_and!; try done; intros []]|]. intros [] s2 Hi2 Hm2 _.
    eapply Signs_bind; [by apply Safe_nonnull|]. intros c s3 _ _ [-> _].
    eapply (Signs_bind _ _ _ (fun _ _ => True)).
    { destruct (is_flagged c); [|by apply Safe_ret]. eapply Safe_mono; [by apply Safe_fire|done]. }
    intros [] s3 Hi3 Hm3 _.
    assert (Hm : dmono s s3) by (do 2 (etrans; [done|]); done).
    destruct (dm_blocks _ _ Hm _ _ Hb) as (b3 & Hb3 & [_ Hv3]).
    eapply Signs_bind; [apply Safe_deref; [done|by exists b3]|]. intros b4 s4 _ _ [-> Hb4]. simplify_eq.
    eapply Signs_mono; [by apply Signs_fire|]. intros [] s4 _ (_ & Ep & Es). split; [rewrite Ep; apply Hm|].
    assert (Epv : prop_view s o = get_viewid b) by (unfold prop_view, prop_block_of; rewrite Hx; cbn; by rewrite Hb).
    rewrite Es, (dm_signed _ _ Hm). cbn. destruct (cs_parent s3); [right|left; by rewrite app_nil_r].
    rewrite Hv3, Epv. split; [done|]. by exists s1, lb, b.
  - eapply Signs_bind; [apply Safe_deref; [done|by exists b]|]. intros b' s1 _ _ [-> _].
    eapply Signs_bind; [by apply Safe_remove_proposal|]. intros r s1 Hi1 Hm1 _.
    apply Signs_safe; [by apply Safe_finish_event|]. eauto.
Qed.

(** ** Packets, jobs and calls *)

Lemma Signs_on_pdu_event_down ev s :
  dinv u s -> Signs (on_pdu_event_down ev) s (fun _ s' => accept_step s s').
Proof.
  intros Hi. unfold on_pdu_event_down. cbv zeta.
  do 2 (case_match; [by apply Signs_quiet, Safe_ret|]). case_match; [by apply Signs_on_proposal_msg_recv|].
  apply Signs_quiet. unfold on_msg_recv.
  repeat case_match; try by apply Safe_ret.
  all: eapply (Safe_bind _ _ _ (fun _ _ => True)); [|intros; by apply Safe_ret].
  - by apply Safe_handle_vote_msg.
  - by apply Safe_handle_commit_msg.
  - by apply Safe_handle_sync_request_msg.
  - by apply Safe_handle_sync_respond_msg.
  - by apply Safe_handle_votereport_msg.
Qed.
End Handlers.
