(* ===== verification/DriverSteps.v ===== *)
(** * The driver as a state machine

    Steps: a packet, an event of the upper layers, a clock or view change, a
    job run by a worker, a call run on the driver's thread, or a change made
    by the rest of the node (block store, upper layers).  Jobs and calls run
    in any order, so what holds of all executions holds of the order the
    worker pool chooses. *)

From stdpp Require Import prelude gmap strings.
From Stdlib Require Import ZArith Lia Sorting.Sorted.
From S2P Require Import Prelude Stream StdMap VBlock Pdu Concrete Proposal BFTState Rules RulesFacts Sync Driver.
From S2P Require Import Scenario DriverInv DriverFacts.

(** What the rest of the node may do: allocate blocks, change flags, links
    and signatures of blocks, move its clock, answer differently.  It never
    changes the header or the view of a block it shares. *)
Record env_step (s s' : dstate) : Prop := {
  es_st : cs_st s' = cs_st s;
  es_self : cs_self s' = cs_self s;
  es_parent : cs_parent s' = cs_parent s;
  es_out : cs_out s' = cs_out s;
  es_blocks : forall p b, block_at p s = Some b -> exists b', block_at p s' = Some b' /\ same_pos b b';
  es_fresh : forall p, allocated s' p -> (p < w_next (cs_world s'))%positive;
  es_prev : forall p b q, block_at p s' = Some b -> b_prev b = Some q -> allocated s' q;
  es_locked : forall l, w_latest_locked (cs_world s') = Some l -> allocated s' l;
  es_load : forall h q, w_load (cs_world s') h = Some q -> allocated s' q;
  es_query : forall h x q, w_query (cs_world s') h x = Some q -> allocated s' q;
}.

Section Steps.
Context `{HL : XVBlockLaws} `{HA : XCertAuth} `{HC : XCodecLaws} `{HV : XVerifierLaws}.

Definition take_job (i : nat) (s : dstate) : dstate :=
  upd_st (fun d => set_jobs (base.delete i (d_jobs d)) d) s.
Definition take_call (i : nat) (s : dstate) : dstate :=
  upd_st (fun d => set_calls (base.delete i (d_calls d)) d) s.

Inductive dstep (s : dstate) : dstate -> Prop :=
| ds_pdu ev r s' : on_pdu_event_down ev s = Some (r, s') -> dstep s s'
| ds_start ev r s' : start_ok s ev -> on_proposal_start ev s = Some (r, s') -> dstep s s'
| ds_update lock r s' : (forall l, lock = Some l -> allocated s l) ->
    on_consensus_update lock s = Some (r, s') -> dstep s s'
| ds_clock h r s' : on_clock_fire h s = Some (r, s') -> dstep s s'
| ds_view v c r s' : on_view_fire v c s = Some (r, s') -> dstep s s'
| ds_job i j s' : d_jobs (cs_st s) !! i = Some j -> run_job j (take_job i s) = Some (tt, s') -> dstep s s'
| ds_call i c s' : d_calls (cs_st s) !! i = Some c -> run_call c (take_call i s) = Some (tt, s') -> dstep s s'
| ds_env s' : env_step s s' -> dstep s s'.

(** ** Taking a job or a call *)

Lemma delete_split {A} (l : list A) i x :
  l !! i = Some x -> exists l1 l2, l = l1 ++ x :: l2 /\ base.delete i l = l1 ++ l2.
Proof.
  intros E. exists (take i l), (drop (S i) l). split; [by rewrite take_drop_middle|apply delete_take_drop].
Qed.

Lemma take_job_ok {u} i j s :
  dinv u s -> d_jobs (cs_st s) !! i = Some j ->
  dinv u (take_job i s) /\ job_ok (take_job i s) j /\ dfwd s (take_job i s) /\
  views s ≡ₚ job_views s j ++ views (take_job i s).
Proof.
  intros Hi Hj. destruct (delete_split _ _ _ Hj) as (l1 & l2 & E & Ed).
  assert (Hall : Forall (job_ok s) (l1 ++ j :: l2)) by (rewrite <- E; apply Hi).
  apply Forall_app in Hall as [H1' [Hj' H2']%Forall_cons]. split_and!.
  - destruct Hi as [Hd [] Hu]. split; [by destruct Hd| |done]. split; try done.
    cbn. rewrite Ed. apply Forall_app. split; eapply Forall_impl; try done; by intros [].
  - by destruct j.
  - split; try done; [intros p b Hb; exists b; by split|intros b Hb; exists b; by split].
  - unfold views, pending. cbn. rewrite Ed, E.
    change (job_views (take_job i s)) with (job_views s). change (call_views (take_job i s)) with (call_views s).
    change (signed (take_job i s)) with (signed s). rewrite !bind_app. cbn. solve_Permutation.
Qed.

Lemma take_call_ok {u} i c s :
  dinv u s -> d_calls (cs_st s) !! i = Some c ->
  dinv u (take_call i s) /\ call_ok (take_call i s) c /\ dfwd s (take_call i s) /\
  views s ≡ₚ call_views s c ++ views (take_call i s).
Proof.
  intros Hi Hj. destruct (delete_split _ _ _ Hj) as (l1 & l2 & E & Ed).
  assert (Hall : Forall (call_ok s) (l1 ++ c :: l2)) by (rewrite <- E; apply Hi).
  apply Forall_app in Hall as [H1' [Hj' H2']%Forall_cons]. split_and!.
  - destruct Hi as [Hd [] Hu]. split; [by destruct Hd| |done]. split; try done.
    cbn. rewrite Ed. apply Forall_app. split; eapply Forall_impl; try done; by intros [].
  - by destruct c.
  - split; try done; [intros p b Hb; exists b; by split|intros b Hb; exists b; by split].
  - unfold views, pending. cbn. rewrite Ed, E.
    change (job_views (take_call i s)) with (job_views s). change (call_views (take_call i s)) with (call_views s).
    change (signed (take_call i s)) with (signed s). rewrite !bind_app. cbn. solve_Permutation.
Qed.

(** ** Every step keeps the invariant *)

Definition step_ok (u : Prop) (s s' : dstate) : Prop := dinv u s' /\ dfwd s s' /\ views_step s s'.

Lemma Signs_step {u} {A} (m : DP A) s a s' :
  Signs (u := u) m s (fun _ s' => views_step s s') -> m s = Some (a, s') -> step_ok u s s'.
Proof. intros Hm E. unfold Signs, wpu in Hm. by rewrite E in Hm. Qed.

Lemma Safe_step {u} {A} (m : DP A) s a s' :
  Safe u m s (fun _ _ => True) -> m s = Some (a, s') -> step_ok u s s'.
Proof. intros Hm. by apply Signs_step, Signs_quiet. Qed.

(** A step that starts by taking a job or call whose views are [vs]. *)
Lemma taken_step {u} vs s s1 s' :
  dfwd s s1 -> views s ≡ₚ vs ++ views s1 -> dinv u s' -> dfwd s1 s' -> views s' ⊆+ vs ++ views s1 -> step_ok u s s'.
Proof. intros Hf Hv Hi Hf' Hv'. split_and!; [done|by etrans|]. left. by rewrite Hv. Qed.

Lemma run_quiet {u} (m : DP unit) vs s s1 s' :
  dfwd s s1 -> views s ≡ₚ vs ++ views s1 -> Safe u m s1 (fun _ _ => True) -> m s1 = Some (tt, s') -> step_ok u s s'.
Proof.
  intros Hf Hv Hm E. unfold Safe, wpu in Hm. rewrite E in Hm. destruct Hm as (Hi & Hmo & _).
  eapply taken_step; [done..|by apply dmono_dfwd|]. rewrite (views_quiet _ _ Hmo). by apply submseteq_inserts_l.
Qed.

Lemma job_step {u} i j s s' :
  dinv u s -> d_jobs (cs_st s) !! i = Some j -> run_job j (take_job i s) = Some (tt, s') -> step_ok u s s'.
Proof.
  intros Hi Hj E. destruct (take_job_ok _ _ _ Hi Hj) as (Hi1 & Hok & Hf & Hv).
  destruct j as [leader replica o nonce from to|replica c o|p c|p c|c]; cbn in Hok; cbn [run_job] in E.
  - pose proof (Signs_work_verify_proposal leader replica o nonce from to _ Hi1 Hok) as Hs.
    unfold Signs, wpu in Hs. rewrite E in Hs. destruct Hs as (Hi' & Hf' & Hs & Hp).
    apply (taken_step _ _ _ _ Hf Hv); [done..|]. unfold views. rewrite Hs. cbn.
    change (prop_view (take_job i s) o) with (prop_view s o) in Hp.
    destruct Hp as [->| ->]; [by apply submseteq_cons|].
    rewrite Permutation_middle. apply Permutation_submseteq. solve_Permutation.
  - refine (run_quiet _ _ _ _ _ Hf Hv _ E). by apply Safe_work_verify_vote.
  - refine (run_quiet _ _ _ _ _ Hf Hv _ E). by apply Safe_verify_block_work.
  - refine (run_quiet _ _ _ _ _ Hf Hv _ E). by apply Safe_verify_block_work.
  - refine (run_quiet _ _ _ _ _ Hf Hv _ E). by apply Safe_work_verify_cert.
Qed.

Lemma call_step {u} i c s s' :
  dinv u s -> d_calls (cs_st s) !! i = Some c -> run_call c (take_call i s) = Some (tt, s') -> step_ok u s s'.
Proof.
  intros Hi Hc E. destruct (take_call_ok _ _ _ Hi Hc) as (Hi1 & Hok & Hf & Hv).
  destruct c as [o nonce from to|o|p|p|c|err d p|]; cbn in Hok; cbn [run_call] in E.
  - pose proof (Signs_after_verify_proposal o nonce from to _ Hi1 Hok) as Hs.
    unfold Signs, wpu in Hs. rewrite E in Hs. destruct Hs as (Hi' & Hf' & Hp & Hs).
    apply (taken_step _ _ _ _ Hf Hv); [done..|]. unfold views. rewrite Hp. cbn.
    change (prop_view (take_call i s) o) with (prop_view s o) in Hs.
    destruct Hs as [->|[-> _]]; [by apply submseteq_cons|].
    apply Permutation_submseteq. solve_Permutation.
  - refine (run_quiet _ _ _ _ _ Hf Hv _ E). by apply Safe_after_verify_vote.
  - refine (run_quiet _ _ _ _ _ Hf Hv _ E). by apply Safe_after_verify_commit.
  - refine (run_quiet _ _ _ _ _ Hf Hv _ E). by apply Safe_after_verify_syncblock.
  - refine (run_quiet _ _ _ _ _ Hf Hv _ E). by apply Safe_after_verify_cert.
  - refine (run_quiet _ _ _ _ _ Hf Hv _ E). by apply Safe_after_fire_proposal_finish.
  - refine (run_quiet _ _ _ _ _ Hf Hv _ E). by apply Safe_after_fire_consensus_update.
Qed.

Lemma env_step_ok s s' : dinv True s -> env_step s s' -> step_ok True s s'.
Proof.
  intros Hi He.
  (* the same step with the old answers of the store is a [world_step] *)
  set (w' := cs_world s'). set (w := cs_world s).
  set (s0 := upd_world (fun _ => World (w_blocks w') (w_next w') (w_now w') (w_rand w') (w_latest_locked w)
               (w_latest_cert w') (w_load w) (w_query w) (w_uninit w')) s).
  assert (Hw : world_step s s0) by (split; try done; apply He).
  pose proof (world_step_dmono _ _ Hi Hw) as Hm. pose proof (world_step_drv _ _ (dv_drv _ _ Hi) Hw) as Hd.
  pose proof (world_step_heap _ _ Hi Hw) as Hh.
  assert (Hb : forall p, block_at p s' = block_at p s0) by done.
  assert (Ek : forall o, prop_known s0 o -> prop_known s' o) by (intros o; unfold prop_known; by rewrite (es_st _ _ He)).
  assert (Hv : views s' = views s0).
  { unfold views, signed, pending, job_views, call_views, prop_view, prop_block_of, block_at.
    by rewrite (es_st _ _ He), (es_out _ _ He). }
  split_and!.
  - split.
    + destruct Hd. split; rewrite ?(es_st _ _ He); try done; [apply He|].
      intros v p Hin. destruct (di_props_at v p Hin) as (b & Hb' & ?). exists b. split; [|done].
      unfold prop_block_of in *. by rewrite (es_st _ _ He).
    + destruct Hh. split; rewrite ?(es_st _ _ He); try done; try apply He.
      * eapply Forall_impl; [exact hi_jobs|]. intros []; cbn; auto.
      * eapply Forall_impl; [exact hi_calls|]. intros []; cbn; auto.
    + done.
  - destruct (dmono_dfwd _ _ Hm). split; rewrite ?(es_st _ _ He), ?(es_parent _ _ He), ?(es_out _ _ He); try done.
    unfold lock_of. rewrite (es_st _ _ He). done.
  - left. by rewrite Hv, (views_quiet _ _ Hm).
Qed.

Lemma dstep_ok s s' : dinv True s -> dstep s s' -> step_ok True s s'.
Proof.
  intros Hi [ev r t E|ev r t Hev E|lock r t Hl E|h r t E|v c r t E|i j t Hj E|i c t Hc E|t He].
  - eapply Signs_step, E. eapply Signs_mono; [by apply Signs_on_pdu_event_down|]. by intros ? ? _ [].
  - by eapply Signs_step, E; apply Signs_on_proposal_start.
  - by eapply Safe_step, E; apply Safe_on_consensus_update.
  - by eapply Safe_step, E; apply Safe_on_clock_fire.
  - by eapply Safe_step, E; apply Safe_on_view_fire.
  - by eapply job_step.
  - by eapply call_step.
  - by apply env_step_ok.
Qed.

(** ** Executions *)

(** No view was signed twice or is pending twice, and none is above the counter. *)
Definition views_inv (s : dstate) : Prop :=
  NoDup (views s) /\ Forall (fun v => v <= m_latest_voted_viewid (cs_st s)) (views s).

Lemma submseteq_NoDup (l k : list Z) : l ⊆+ k -> NoDup k -> NoDup l.
Proof. intros [r ->]%submseteq_Permutation. by intros [? _]%NoDup_app. Qed.
Lemma submseteq_Forall (P : Z -> Prop) (l k : list Z) : l ⊆+ k -> Forall P k -> Forall P l.
Proof. intros [r ->]%submseteq_Permutation. by intros [? _]%Forall_app. Qed.

Lemma views_step_inv s s' :
  views_inv s -> dfwd s s' -> views_step s s' -> views_inv s'.
Proof.
  intros [Hnd Hall] Hf Hv. pose proof (df_voted_v _ _ Hf) as Hle.
  assert (Hall' : Forall (fun v => v <= m_latest_voted_viewid (cs_st s')) (views s))
    by (eapply Forall_impl; [exact Hall|]; cbn; lia).
  destruct Hv as [Hs|(v & Hs & Hlt & Hle')].
  - split; [by eapply submseteq_NoDup|by eapply submseteq_Forall].
  - assert (Hnd' : NoDup (v :: views s)).
    { constructor; [|done]. intros Hin. rewrite Forall_forall in Hall. specialize (Hall v Hin). lia. }
    split; [by eapply submseteq_NoDup|]. eapply submseteq_Forall; [done|by constructor].
Qed.

Lemma dsteps_ok s s' :
  dinv True s -> views_inv s -> rtc dstep s s' -> dinv True s' /\ views_inv s' /\ dfwd s s'.
Proof.
  intros Hi Hv Hr. induction Hr as [s|s s1 s' Hs Hr IH]; [by split_and!|].
  destruct (dstep_ok s s1 Hi Hs) as (Hi1 & Hf1 & Hs1).
  destruct IH as (Hi' & Hv' & Hf'); [done|by eapply views_step_inv|]. split_and!; try done. by etrans.
Qed.
End Steps.

(** ** Properties of executions *)

(** A driver just created, in a node whose store hands out valid pointers. *)
Record initial (s : dstate) : Prop := {
  in_st : exists account, cs_st s = new_driver account;
  in_out : cs_out s = [];
  in_env : env_step s s;
}.

Lemma env_refl_blocks (s : dstate) : forall p b, block_at p s = Some b -> exists b', block_at p s = Some b' /\ same_pos b b'.
Proof. intros p b Hb. by exists b. Qed.

Lemma initial_inv s : initial s -> dinv True s /\ views_inv s.
Proof.
  intros [[account Hst] Hout He]. split.
  - split; [| |done].
    + split; rewrite ?Hst; try done; try (by constructor); try apply He; intros v p Hin; by apply elem_of_nil in Hin.
    + split; rewrite ?Hst; try done; try apply He; try (by constructor).
  - unfold views_inv, views, signed, pending. rewrite Hout, Hst. cbn. split; constructor.
Qed.

Definition reachable `{XVCert} `{XVBlock} `{XCertAuth} `{XCodec} `{XVerifier}
    (s : dstate) : Prop :=
  exists s0, initial s0 /\ rtc (dstep) s0 s.

Section Reachable.
Context `{HL : XVBlockLaws} `{HA : XCertAuth} `{HC : XCodecLaws} `{HV : XVerifierLaws}.

Lemma reachable_inv s : reachable s -> dinv True s /\ views_inv s.
Proof.
  intros (s0 & Hin & Hr). destruct (initial_inv s0 Hin) as [Hi Hv].
  by destruct (dsteps_ok s0 s Hi Hv Hr) as (? & ? & _).
Qed.

(** With the lock known and a parent attached nothing excuses a null dereference. *)
Lemma reachable_defined s :
  reachable s -> m_latest_lock_block (cs_st s) <> None -> cs_parent s = true -> bodies s -> dinv False s.
Proof.
  intros Hr Hl Hp Hb. destruct (reachable_inv s Hr) as [[Hd Hh _] _]. split; [done..|].
  intros [?|[?|?]]; [congruence..|done].
Qed.

Lemma Safe_defined {A} (m : DP A) s Q : Safe False m s Q -> exists r s', m s = Some (r, s').
Proof. unfold Safe, wpu. destruct (m s) as [[r s']|]; [eauto|done]. Qed.
Lemma Signs_defined {A} (m : DP A) s Q : Signs (u := False) m s Q -> exists r s', m s = Some (r, s').
Proof. unfold Signs, wpu. destruct (m s) as [[r s']|]; [eauto|done]. Qed.

Lemma job_defined i j s :
  dinv False s -> d_jobs (cs_st s) !! i = Some j -> exists s', run_job j (take_job i s) = Some (tt, s').
Proof.
  intros Hi Hj. destruct (take_job_ok _ _ _ Hi Hj) as (Hi1 & Hok & _).
  assert (Hd : exists r s', run_job j (take_job i s) = Some (r, s')); [|destruct Hd as ([] & s' & E); eauto].
  destruct j; cbn in Hok; cbn [run_job].
  - by eapply Signs_defined, Signs_work_verify_proposal.
  - by eapply Safe_defined, Safe_work_verify_vote.
  - by eapply Safe_defined, Safe_verify_block_work.
  - by eapply Safe_defined, Safe_verify_block_work.
  - by eapply Safe_defined, Safe_work_verify_cert.
Qed.

Lemma call_defined i c s :
  dinv False s -> d_calls (cs_st s) !! i = Some c -> exists s', run_call c (take_call i s) = Some (tt, s').
Proof.
  intros Hi Hj. destruct (take_call_ok _ _ _ Hi Hj) as (Hi1 & Hok & _).
  assert (Hd : exists r s', run_call c (take_call i s) = Some (r, s')); [|destruct Hd as ([] & s' & E); eauto].
  destruct c; cbn in Hok; cbn [run_call].
  - by eapply Signs_defined, Signs_after_verify_proposal.
  - by eapply Safe_defined, Safe_after_verify_vote.
  - by eapply Safe_defined, Safe_after_verify_commit.
  - by eapply Safe_defined, Safe_after_verify_syncblock.
  - by eapply Safe_defined, Safe_after_verify_cert.
  - by eapply Safe_defined, Safe_after_fire_proposal_finish.
  - by eapply Safe_defined, Safe_after_fire_consensus_update.
Qed.
End Reachable.

(** C2. One signature per view: in every execution of the driver, with
    packets, jobs and callbacks in any order and any behaviour of its
    environment, the packets that carry this node's signature (its votes and
    its own proposals) are all for different views. *)
Theorem one_signature_per_view `{HL : XVBlockLaws} `{HA : XCertAuth} `{HC : XCodecLaws} `{HV : XVerifierLaws}
    (s : dstate) (Hr : reachable s) :
  NoDup (signed s) /\ Forall (fun v => v <= m_latest_voted_viewid (cs_st s)) (signed s).
Proof.
  destruct (reachable_inv s Hr) as [_ [Hnd Hall]]. unfold views in *.
  split; [by apply NoDup_app in Hnd as [? _]|by apply Forall_app in Hall as [? _]].
Qed.

(** The driver only moves forward: along any execution the lock stays at
    its position or moves to a block with greater height and greater view,
    the vote counters never decrease, and nothing already sent is retracted. *)
Theorem driver_moves_forward `{HL : XVBlockLaws} `{HA : XCertAuth} `{HC : XCodecLaws} `{HV : XVerifierLaws}
    (s s' : dstate) (Hr : reachable s) (Hs : rtc (dstep) s s') :
  (forall b, lock_of s = Some b -> exists b', lock_of s' = Some b' /\ pos_le b b') /\
  m_latest_voted_height (cs_st s) <= m_latest_voted_height (cs_st s') /\
  m_latest_voted_viewid (cs_st s) <= m_latest_voted_viewid (cs_st s') /\
  cs_out s `prefix_of` cs_out s'.
Proof.
  destruct (reachable_inv s Hr) as [Hi Hv].
  destruct (dsteps_ok s s' Hi Hv Hs) as (_ & _ & Hf). destruct Hf. done.
Qed.

(** C14. No null dereference once the lock is known: in every reachable state
    with a lock block and a parent layer in which every block has the input
    and output objects that xvblock.h demands "at all time", every packet,
    every start of a proposal with valid pointers, every clock or view change,
    every pending job and every pending callback is handled without
    dereferencing a null or dangling pointer; among these are the inputs and
    outputs that packets ask for and those of blocks read from packets. *)
Theorem driver_defined_with_lock `{HL : XVBlockLaws} `{HA : XCertAuth} `{HC : XCodecLaws} `{HV : XVerifierLaws}
    (s : dstate) (Hr : reachable s)
    (Hl : m_latest_lock_block (cs_st s) <> None) (Hp : cs_parent s = true) (Hb : bodies s) :
  (forall ev, exists r s', on_pdu_event_down ev s = Some (r, s')) /\
  (forall ev, start_ok s ev -> exists r s', on_proposal_start ev s = Some (r, s')) /\
  (forall h, exists r s', on_clock_fire h s = Some (r, s')) /\
  (forall v c, exists r s', on_view_fire v c s = Some (r, s')) /\
  (forall i j, d_jobs (cs_st s) !! i = Some j -> exists s', run_job j (take_job i s) = Some (tt, s')) /\
  (forall i c, d_calls (cs_st s) !! i = Some c -> exists s', run_call c (take_call i s) = Some (tt, s')).
Proof.
  pose proof (reachable_defined s Hr Hl Hp Hb) as Hi. split_and!.
  - intros ev. by eapply Signs_defined, Signs_on_pdu_event_down.
  - intros ev Hev. by eapply Signs_defined, Signs_on_proposal_start.
  - intros h. by eapply Safe_defined, Safe_on_clock_fire.
  - intros v c. by eapply Safe_defined, Safe_on_view_fire.
  - intros i j. by apply job_defined.
  - intros i c. by apply call_defined.
Qed.

(** Without a lock the driver crashes: a driver with no lock whose block
    store knows none dereferences null on any proposal packet that reaches
    it, because the failure report reads the lock's parent. *)
Theorem proposal_without_lock_undefined `{XVCert} `{XVBlock} `{XCertAuth} `{XCodec} `{XVerifier}
    (s : dstate) (ev : xcspdu_fire)
    (Hl : m_latest_lock_block (cs_st s) = None) (Hw : w_latest_locked (cs_world s) = None)
    (Hc : m_certified_blocks (cs_st s) = [])
    (Ha : is_xip2_equal (ev_from ev) (ev_to ev) = false)
    (Hk : pdu_class (ev_packet ev) = pdu_class_xbft) (Ht : pdu_msg_type (ev_packet ev) = msg_type_proposal) :
  on_pdu_event_down ev s = None.
Proof.
  assert (Hg : get_lock_block s = Some (None, s)).
  { unfold get_lock_block, bind. cbn. by rewrite Hl, Hw. }
  unfold on_pdu_event_down. rewrite Ha, Hk, Ht. cbn [negb Z.eqb].
  change (on_proposal_msg_recv ev s = None). unfold on_proposal_msg_recv.
  assert (Hh : handle_proposal_msg ev s = Some (enum_xconsensus_error_bad_packet, s)).
  { unfold handle_proposal_msg, safe_check_for_proposal_packet, with_lock, bind. rewrite Hg. done. }
  rewrite (bind_runs _ _ _ _ _ Hh). change (negb (_ =? _)) with true. cbv iota.
  assert (Hlb : lock_block s = None) by (unfold lock_block, bind; by rewrite Hg).
  assert (Hlc : latest_cert_value s = Some (None, s)).
  { unfold latest_cert_value, get_latest_cert_block, bind, st_get, gets. by rewrite Hc. }
  assert (Hdump : exists t, dump s = Some (t, s)).
  { eexists. unfold dump, bind, st_get, gets. by rewrite Hlc, Hl. }
  destruct Hdump as [t Hdump]. unfold build_report, bind. by rewrite Hdump, Hlc, Hlb.
Qed.

(** C3. Every vote obeys the voting rule: when the callback that votes sends
    a signature, then in the state of that moment, with the lock [lb] known
    then, the block it signs is above the lock and above the latest
    certified block, and is the lock's child or its grandchild through a
    certified block the node holds. *)
Theorem vote_obeys_rule `{HL : XVBlockLaws} `{HA : XCertAuth} `{HC : XCodecLaws} `{HV : XVerifierLaws}
    (s s' : dstate) (i : nat) (o : ptr) (nonce : Z) (from to : xvip2)
    (Hr : reachable s) (Hh : heights_ok s)
    (Hc : d_calls (cs_st s) !! i = Some (KAfterVerifyProposal o nonce from to))
    (Hrun : after_verify_proposal o nonce from to (take_call i s) = Some (tt, s'))
    (Hsent : signed s' <> signed s) :
  exists s1 lb b, dle (take_call i s) s1 /\ lock_of s1 = Some lb /\ prop_block_of s1 o = Some b /\
    signed s' = signed s ++ [get_viewid b] /\ vote_allowed s1 lb b.
Proof.
  destruct (reachable_inv s Hr) as [Hi _]. destruct (take_call_ok _ _ _ Hi Hc) as (Hi1 & Hok & _).
  pose proof (Signs_after_verify_proposal o nonce from to _ Hi1 Hok) as Hs.
  unfold Signs, wpu in Hs. rewrite Hrun in Hs. destruct Hs as (_ & _ & _ & [E|[E Hex]]); [done|].
  destruct Hex as (s1 & lb & b & Hle & Hd & Hlk & Hpb & Hfin). exists s1, lb, b. split_and!; try done.
  - rewrite E. change (signed (take_call i s)) with (signed s). do 2 f_equal.
    rewrite <- (prop_view_mono _ s1 o Hi1 Hok) by by apply dle_dmono. unfold prop_view. by rewrite Hpb.
  - unfold prop_block_of in Hpb. destruct (d_props (cs_st s1) !! o) as [x|]; [|done].
    eapply finalcheck_spec; [apply Hd| |done|exact Hpb|done].
    intros p b'. rewrite (dle_block _ _ p Hle). apply (Hh p).
Qed.

(** ** The theorems at a concrete run *)

Module StepsWitness.
Import Concrete.Demo Scenario.Scenario.

Lemma s0_initial me : initial (start_at me).
Proof.
  assert (Hb : forall p b, block_at p (start_at me) = Some b -> p = 1%positive \/ p = 2%positive).
  { intros p b Hp. unfold block_at in Hp. cbn in Hp.
    apply lookup_insert_Some in Hp as [[<- _]|[_ Hp]]; [by left|].
    apply lookup_singleton_Some in Hp as [<- _]. by right. }
  assert (H1 : allocated (start_at me) 1%positive) by by eexists.
  split; [by eexists|done|]. split; try done.
  - apply env_refl_blocks.
  - intros p [b Hp]. destruct (Hb p b Hp) as [-> | ->]; vm_compute; reflexivity.
  - intros p b q Hp Hq. destruct (Hb p b Hp) as [-> | ->]; vm_compute in Hp; injection Hp as <-; [done|].
    injection Hq as <-. exact H1.
  - intros l [= <-]. exact H1.
  - intros h q [= <-]. exact H1.
Qed.

(** The replica receives the proposal, verifies it on a worker, and votes. *)
Definition s_verified : dstate := after (run_job (JVerifyProposal leader replica 1%positive 1 leader replica)) (take_job 0 s_accepted).
Definition s_voted : dstate := after (run_call (KAfterVerifyProposal 1%positive 1 leader replica)) (take_call 0 s_verified).

Lemma accepted_step : rtc (dstep) s0 s_accepted.
Proof. apply rtc_once. eapply (ds_pdu s0 proposal_event true). vm_compute. reflexivity. Qed.
Lemma verified_step : rtc (dstep) s_accepted s_verified.
Proof. apply rtc_once. eapply (ds_job s_accepted 0); [vm_compute; reflexivity|]. vm_compute. reflexivity. Qed.
Lemma voted_step : rtc (dstep) s_verified s_voted.
Proof. apply rtc_once. eapply (ds_call s_verified 0); [vm_compute; reflexivity|]. vm_compute. reflexivity. Qed.

Lemma reach_verified : reachable s_verified.
Proof. exists s0. split; [apply s0_initial|]. etrans; [apply accepted_step|apply verified_step]. Qed.
Lemma reach_voted : reachable s_voted.
Proof. destruct reach_verified as (s & Hi & Hr). exists s. split; [done|]. etrans; [exact Hr|apply voted_step]. Qed.

Lemma one_signature_per_view_witness :
  signed s_voted = [12] /\ NoDup (signed s_voted) /\
  Forall (fun v => v <= m_latest_voted_viewid (cs_st s_voted)) (signed s_voted).
Proof. split; [by vm_compute|]. apply (one_signature_per_view s_voted reach_voted). Defined.

Lemma driver_moves_forward_witness :
  lock_of s_verified = Some locked /\ m_latest_voted_viewid (cs_st s_verified) = 12 /\
  m_latest_voted_viewid (cs_st s_verified) <= m_latest_voted_viewid (cs_st s_voted).
Proof.
  split_and!; [by vm_compute..|]. apply (driver_moves_forward s_verified s_voted reach_verified voted_step).
Defined.

Lemma bodies_verified : bodies s_verified.
Proof.
  assert (Hall : map_Forall (fun _ b => has_body b) (w_blocks (cs_world s_verified))).
  { apply (bool_decide_unpack _). vm_compute. exact I. }
  intros p b Hp. exact (Hall p b Hp).
Qed.

Lemma driver_defined_with_lock_witness :
  (exists r s', on_view_fire 13 30 s_verified = Some (r, s')) /\
  (exists r s', on_pdu_event_down proposal_event s_verified = Some (r, s')) /\
  (exists s', run_call (KAfterVerifyProposal 1%positive 1 leader replica) (take_call 0 s_verified) = Some (tt, s')).
Proof.
  destruct (driver_defined_with_lock s_verified reach_verified ltac:(by vm_compute) ltac:(by vm_compute) bodies_verified)
    as (Hpdu & _ & _ & Hview & _ & Hcall).
  split_and!; [apply Hview|apply Hpdu|apply Hcall; by vm_compute].
Defined.

Lemma proposal_without_lock_undefined_witness :
  on_pdu_event_down proposal_event
    (CState (World ∅ 1%positive 0 0 None None (fun _ => None) (fun _ _ => None) 0) (new_driver "T1") [] replica true) = None.
Proof.
  apply (proposal_without_lock_undefined
    (CState (World ∅ 1%positive 0 0 None None (fun _ => None) (fun _ _ => None) 0) (new_driver "T1") [] replica true)
    proposal_event eq_refl eq_refl eq_refl eq_refl eq_refl eq_refl).
Defined.

(** The heights of the run are far from the limit. *)
Lemma heights_small : heights_ok s_verified.
Proof.
  assert (Hall : map_Forall (fun _ b => 0 <= get_height b /\ get_height b + 2 < 2 ^ 64) (w_blocks (cs_world s_verified))).
  { apply (bool_decide_unpack _). vm_compute. exact I. }
  intros p b Hp. exact (Hall p b Hp).
Qed.

Lemma vote_obeys_rule_witness :
  exists s1 lb b, dle (take_call 0 s_verified) s1 /\ lock_of s1 = Some lb /\ prop_block_of s1 1%positive = Some b /\
    signed s_voted = signed s_verified ++ [get_viewid b] /\ vote_allowed s1 lb b.
Proof.
  apply (vote_obeys_rule s_verified s_voted 0 1%positive 1 leader replica reach_verified heights_small);
    by vm_compute.
Defined.
End StepsWitness.
