(* ===== verification/DriverOps.v ===== *)
(** * Single operations of the driver

    What one view change, one vote, one refused proposal and one request for
    a missing block do, on every branch. *)

From stdpp Require Import prelude gmap strings.
From Stdlib Require Import ZArith Lia Sorting.Sorted.
From S2P Require Import Prelude Stream StdMap VBlock Pdu Concrete Proposal BFTState Rules RulesFacts Sync Driver.
From S2P Require Import Scenario DriverInv DriverFacts DriverSteps.

Section ViewChange.
Context `{HB : XVBlock} `{HC : XCodec}.

(** ** A new view *)

(** The events about a proposal that timed out: its leader tells the others,
    with the highest certified block [h] it knows. *)
Definition timeout_events (s : dstate) (h : xvblock) (o : ptr) : list xevent :=
  match d_props (cs_st s) !! o with
  | None => []
  | Some x =>
      (match block_at (p_block x) s with
       | Some b =>
           if p_is_leader x
           then [EvPdu (cs_self s) broadcast_addr
                   (XCspdu pdu_class_xbft msg_type_commit (u16 0)
                      (enc_commit (new_commit_msg enum_xconsensus_error_timeout (get_height h))) (get_chainid b) (get_account b)
                      (get_height b) (get_clock b) (get_viewid b) (get_viewtoken b) (cert_to_string (b_cert h)) EmptyString)]
           else []
       | None => []
       end)
      ++ [EvProposalFinish enum_xconsensus_error_timeout EmptyString (Some (p_block x)) None None None None]
  end.
Definition cancel_events (s : dstate) (o : ptr) : list xevent :=
  match d_props (cs_st s) !! o with
  | None => []
  | Some x => [EvProposalFinish enum_xconsensus_error_cancel EmptyString (Some (p_block x)) None None None None]
  end.

Lemma add_outs_app l l' s : add_outs l' (add_outs l s) = add_outs (l ++ l') s.
Proof. unfold add_outs. cbn. destruct (cs_parent s); [|done]. by rewrite app_assoc. Qed.

Lemma notify_timeout_runs s h o x b :
  d_props (cs_st s) !! o = Some x -> block_at (p_block x) s = Some b ->
  notify_timeout (enc_commit (new_commit_msg enum_xconsensus_error_timeout (get_height h))) (cert_to_string (b_cert h)) o s
  = Some (tt, add_outs (timeout_events s h o) s).
Proof.
  intros Hx Hb. unfold notify_timeout, timeout_events. rewrite Hx, Hb.
  rewrite (bind_runs _ _ _ _ _ (prop_deref_reads _ _ _ Hx)), (bind_runs _ _ _ _ _ (deref_reads _ _ _ Hb)).
  destruct (p_is_leader x).
  - erewrite (bind_runs _ _ tt); [|erewrite bind_runs by reflexivity; apply fire_runs].
    unfold fire_proposal_finish_event. by rewrite fire_runs, add_outs_app.
  - rewrite (bind_runs _ _ tt s s) by done. apply fire_runs.
Qed.
Lemma notify_cancel_runs s o x :
  d_props (cs_st s) !! o = Some x -> notify_cancel o s = Some (tt, add_outs (cancel_events s o) s).
Proof.
  intros Hx. unfold notify_cancel, cancel_events. rewrite Hx, (bind_runs _ _ _ _ _ (prop_deref_reads _ _ _ Hx)). apply fire_runs.
Qed.

(** A loop whose body only appends events that depend on blocks and proposals. *)
Lemma for_each_outs (body : ptr -> DP unit) (ev : dstate -> ptr -> list xevent) l s :
  (forall o t, o ∈ l -> cs_st t = cs_st s -> cs_world t = cs_world s -> cs_self t = cs_self s ->
     body o t = Some (tt, add_outs (ev s o) t)) ->
  for_each l body s = Some (tt, add_outs (l ≫= ev s) s).
Proof.
  intros Hb. assert (Hg : forall l1 l0, (forall o, o ∈ l1 -> o ∈ l) ->
    for_each l1 body (add_outs l0 s) = Some (tt, add_outs (l0 ++ (l1 ≫= ev s)) s)).
  { induction l1 as [|o l1 IH]; intros l0 Hl; cbn; [by rewrite app_nil_r|].
    rewrite (bind_runs _ _ _ _ _ (Hb o (add_outs l0 s) (Hl o ltac:(left)) eq_refl eq_refl eq_refl)), add_outs_app.
    rewrite IH by (intros o' Ho'; apply Hl; by right). by rewrite app_assoc. }
  pose proof (Hg l [] ltac:(auto)) as E. by rewrite add_outs_nil in E.
Qed.

(** The latest certified block, or else the lock. *)
Definition highest_of (s : dstate) (lb : xvblock) : xvblock :=
  match latest_cert_of s with Some c => c | None => lb end.
Lemma highest_reads s lb : drv_inv s -> lock_of s = Some lb -> reads highest_cert_block (highest_of s lb) s.
Proof.
  intros Hi Hl. unfold highest_cert_block, highest_of, latest_cert_of. eapply reads_bind; [apply latest_cert_reads|].
  destruct (get_latest_block _) as [p|] eqn:E; [|by apply lock_block_reads].
  destruct (latest_cert_alloc _ _ Hi E) as [b Hb]. cbn. rewrite Hb. by apply deref_reads.
Qed.

Definition in_order (l : list (Z * ptr)) : list ptr := snd <$> sort_by fst l.

Lemma notify_fail_runs timeout cancel s lb :
  drv_inv s -> lock_of s = Some lb ->
  (forall v o, (v, o) ∈ timeout ++ cancel -> exists b, prop_block_of s o = Some b /\ get_viewid b = v) ->
  notify_proposal_fail timeout cancel s = Some (true,
    add_outs ((in_order timeout ≫= timeout_events s (highest_of s lb)) ++ (in_order cancel ≫= cancel_events s)) s).
Proof.
  intros Hi Hl Hp. destruct (decide (timeout = [] /\ cancel = [])) as [[-> ->]|Hne]; [cbn; by rewrite add_outs_nil|].
  assert (Hsplit : forall (A : Type) (a b : A), match timeout, cancel with [], [] => a | _, _ => b end = b).
  { intros A a b. destruct timeout, cancel; try done. by destruct Hne. }
  unfold notify_proposal_fail. rewrite Hsplit, (bind_runs _ _ _ _ _ (highest_reads _ _ Hi Hl)).
  assert (Hs1 : reads (sort_proposals timeout) (in_order timeout) s).
  { apply sort_proposals_reads. intros v o Hin. apply Hp, elem_of_app. by left. }
  rewrite (bind_runs _ _ _ _ _ Hs1).
  assert (Hx : forall l o, (forall v o, (v, o) ∈ l -> (v, o) ∈ timeout ++ cancel) -> o ∈ in_order l ->
            exists x b, d_props (cs_st s) !! o = Some x /\ block_at (p_block x) s = Some b).
  { intros l o Hsub Ho. unfold in_order in Ho. rewrite sort_by_perm in Ho. apply list_elem_of_fmap in Ho as ([v o'] & -> & Hin).
    destruct (Hp v o' (Hsub _ _ Hin)) as (b & Hb & _). cbn. unfold prop_block_of in Hb.
    destruct (d_props (cs_st s) !! o') as [x|] eqn:Ex; [|done]. by exists x, b. }
  erewrite (bind_runs _ _ tt).
  2: { apply (for_each_outs _ (fun s => timeout_events s (highest_of s lb))). intros o t Ho E1 E2 E3.
       destruct (Hx timeout o) as (x & b & Ex & Eb); [intros v o' Hin; apply elem_of_app; by left|done|].
       rewrite (notify_timeout_runs t (highest_of s lb) o x b); [|congruence|unfold block_at in *; congruence].
       unfold timeout_events, block_at. by rewrite E1, E2, E3. }
  set (t1 := add_outs _ s). assert (Hs2 : reads (sort_proposals cancel) (in_order cancel) t1).
  { apply sort_proposals_reads. intros v o Hin. apply (Hp v o), elem_of_app. by right. }
  rewrite (bind_runs _ _ _ _ _ Hs2). erewrite (bind_runs _ _ tt).
  2: { apply (for_each_outs _ cancel_events). intros o t Ho E1 _ _.
       destruct (Hx cancel o) as (x & b & Ex & Eb); [intros v o' Hin; apply elem_of_app; by right|done|].
       rewrite (notify_cancel_runs t o x); [|by rewrite E1]. unfold cancel_events. by rewrite E1. }
  unfold t1. rewrite add_outs_app. done.
Qed.
End ViewChange.

Lemma filter_filter {A} (f g : A -> bool) l : List.filter g (List.filter f l) = List.filter (fun x => f x && g x) l.
Proof. induction l as [|x l IH]; cbn; [done|]. destruct (f x); cbn; [|done]. destruct (g x); by rewrite IH. Qed.

Section ViewFire.
Context `{HB : XVBlock} `{HC : XCodec}.

Lemma kept_props_inv (f : Z * ptr -> bool) s :
  drv_inv s -> drv_inv (upd_st (set_proposals (List.filter f (m_proposal_blocks (cs_st s)))) s).
Proof.
  intros []. split; try done; [by apply filter_sorted|]. intros v p [Hin _]%in_filter. exact (di_props_at v p Hin).
Qed.

Lemma on_view_fire_runs viewid clock s lb :
  drv_inv s -> lock_of s = Some lb ->
  let late e := e.1 <? viewid in
  let keep e := negb (late e) && prop_over s lb e.2 in
  let cancel e := negb (late e) && negb (prop_over s lb e.2) in
  let props := m_proposal_blocks (cs_st s) in
  on_view_fire viewid clock s = Some (true,
    add_outs ((in_order (List.filter late props) ≫= timeout_events s (highest_of s lb))
              ++ (in_order (List.filter cancel props) ≫= cancel_events s))
      (upd_st (fun d => set_proposals (List.filter keep props)
         (set_syncing (List.filter (fun e => negb (expired_at_view viewid clock e.2)) (m_syncing_requests d)) d)) s)).
Proof.
  intros Hi Hl late keep cancel props.
  set (s1 := upd_st (fun d => set_syncing
    (List.filter (fun e => negb (expired_at_view viewid clock e.2)) (m_syncing_requests d)) d) s).
  assert (Hi1 : drv_inv s1) by by apply set_syncing_inv.
  unfold on_view_fire. rewrite (bind_runs _ _ true s s1) by done. rewrite (bind_runs _ _ _ s1 s1 eq_refl).
  assert (Hat : forall v o, (v, o) ∈ props -> exists b, prop_block_of s1 o = Some b /\ get_viewid b = v).
  { intros v o Hin. destruct (di_props_at _ Hi v o Hin) as (b & Hb & Ev & _). by exists b. }
  assert (Hp1 : reads (partition_prog (fun e => let* b := prop_block e.2 in ret (negb (get_viewid b <? viewid))) props)
                  (List.filter (fun e => negb (late e)) props, List.filter (fun e => negb (negb (late e))) props) s1).
  { apply (reads_partition _ (fun e => negb (late e))). intros [v o] Hin. destruct (Hat v o Hin) as (b & Hb & <-).
    eapply reads_bind; [by apply prop_block_reads|done]. }
  rewrite (bind_runs _ _ _ _ _ Hp1). cbn [fst snd].
  assert (Hp2 : reads (partition_prog (fun e => let* x := prop_deref e.2 in safe_check_for_block (Some (p_block x)))
                         (List.filter (fun e => negb (late e)) props))
                  (List.filter (fun e => prop_over s lb e.2) (List.filter (fun e => negb (late e)) props),
                   List.filter (fun e => negb (prop_over s lb e.2)) (List.filter (fun e => negb (late e)) props)) s1).
  { apply (reads_partition _ (fun e => prop_over s lb e.2)). intros [v o] [Hin _]%in_filter.
    destruct (Hat v o Hin) as (b & Hb & _). unfold prop_over. cbn [snd].
    change (prop_block_of s o) with (prop_block_of s1 o). rewrite Hb. unfold prop_block_of in Hb.
    destruct (d_props (cs_st s1) !! o) as [x|] eqn:Hx; [|done]. cbn in Hb.
    eapply reads_bind; [by apply prop_deref_reads|]. by apply safe_check_for_block_reads. }
  rewrite (bind_runs _ _ _ _ _ Hp2). cbn [fst snd]. rewrite !filter_filter.
  fold keep cancel. set (s2 := upd_st (set_proposals (List.filter keep props)) s1).
  rewrite (bind_runs _ _ tt s1 s2) by done.
  assert (Elate : List.filter (fun e => negb (negb (late e))) props = List.filter late props).
  { apply List.filter_ext. intros e. apply negb_involutive. }
  rewrite Elate, (notify_fail_runs _ _ s2 lb); [done|exact (kept_props_inv keep s1 Hi1)|done|].
  intros v o Hin. apply (Hat v o). by apply elem_of_app in Hin as [[? _]%in_filter|[? _]%in_filter].
Qed.
End ViewFire.

(** A view change closes the old rounds: with a lock in place, of the
    proposals held exactly those of this view or later that are over the lock
    stay; every proposal of an earlier view is reported as timed out (its
    leader also broadcasts the timeout with the highest certified block it
    knows) and every other dropped one as cancelled, each group by strictly
    increasing view; requests for blocks that expired are forgotten; lock,
    certified blocks and vote counters stay as they are. *)
Theorem view_change_spec `{HB : XVBlock} `{HC : XCodec} (s : dstate) (viewid clock : Z) (lb : xvblock)
    (Hi : drv_inv s) (Hl : lock_of s = Some lb) (Hp : cs_parent s = true) :
  exists s' (late gone : list (Z * ptr)),
    on_view_fire viewid clock s = Some (true, s') /\
    (forall e, e ∈ late <-> e ∈ m_proposal_blocks (cs_st s) /\ e.1 < viewid) /\
    (forall e, e ∈ gone <-> e ∈ m_proposal_blocks (cs_st s) /\ viewid <= e.1 /\ prop_over s lb e.2 = false) /\
    StronglySorted (fun a b => a.1 < b.1) late /\ StronglySorted (fun a b => a.1 < b.1) gone /\
    (forall e, e ∈ m_proposal_blocks (cs_st s') <->
       e ∈ m_proposal_blocks (cs_st s) /\ viewid <= e.1 /\ prop_over s lb e.2 = true) /\
    (forall e, e ∈ m_syncing_requests (cs_st s') <->
       e ∈ m_syncing_requests (cs_st s) /\ expired_at_view viewid clock e.2 = false) /\
    m_latest_lock_block (cs_st s') = m_latest_lock_block (cs_st s) /\
    m_certified_blocks (cs_st s') = m_certified_blocks (cs_st s) /\
    m_latest_voted_viewid (cs_st s') = m_latest_voted_viewid (cs_st s) /\
    cs_out s' = cs_out s ++ ((snd <$> late) ≫= timeout_events s (highest_of s lb)) ++ ((snd <$> gone) ≫= cancel_events s).
Proof.
  set (props := m_proposal_blocks (cs_st s)).
  set (l1 := sort_by fst (List.filter (fun e => e.1 <? viewid) props)).
  set (l2 := sort_by fst (List.filter (fun e => negb (e.1 <? viewid) && negb (prop_over s lb e.2)) props)).
  assert (Hsorted : forall f, StronglySorted (fun a b : Z * ptr => a.1 < b.1) (sort_by fst (List.filter f props))).
  { intros f. apply sort_by_strict, key_sorted_nodup, filter_sorted, Hi. }
  eexists _, l1, l2. split; [by apply on_view_fire_runs|]. split_and!; try done; try apply Hsorted.
  - intros e. unfold l1. rewrite sort_by_perm, in_filter. guards. done.
  - intros e. unfold l2. rewrite sort_by_perm, in_filter. guards. tauto.
  - intros e. cbn. rewrite in_filter. guards. tauto.
  - intros e. cbn. rewrite in_filter. guards. done.
  - unfold add_outs. cbn. by rewrite Hp.
Qed.

(** ** Votes *)

Section Vote.
Context `{HL : XVBlockLaws} `{HA : XCertAuth} `{HC : XCodecLaws} `{HV : XVerifierLaws}.

Lemma certify_call s s' replica cert o x b :
  d_props (cs_st s) !! o = Some x -> block_at (p_block x) s = Some b ->
  work_verify_vote replica cert o s = Some (tt, s') -> d_calls (cs_st s') <> d_calls (cs_st s) ->
  let x1 := (add_voted_cert (b_cert b) x replica (Some cert)).1 in
  verify_sign_cert replica cert (get_account b) = true /\ is_vote_finish (b_cert b) x1 = true /\
  verify_muti_sign_block (merge_signatures x1 b) = true /\
  d_calls (cs_st s') = d_calls (cs_st s) ++ [KAfterVerifyVote o] /\
  d_props (cs_st s') !! o = Some x1 /\ block_at (p_block x) s' = Some (authenticate (merge_signatures x1 b)).
Proof.
  intros Hx Hb. unfold work_verify_vote. rewrite (bind_runs _ _ _ s s eq_refl).
  destruct (d_closed (cs_st s)); [by intros [= <-]|].
  rewrite (bind_runs _ _ _ _ _ (prop_deref_reads _ _ _ Hx)), (bind_runs _ _ _ _ _ (deref_reads _ _ _ Hb)).
  destruct (is_vote_finish (b_cert b) x); [by intros [= <-]|].
  destruct (verify_sign_cert replica cert (get_account b)); cbn [negb]; [|by intros [= <-]].
  destruct (add_voted_cert_block (b_cert b) x replica (Some cert)) as [Ep _].
  destruct (add_voted_cert (b_cert b) x replica (Some cert)) as [x1 added]. cbn [fst] in Ep.
  run_simple. destruct (added && is_vote_finish (b_cert b) x1) eqn:Ef; [|by intros [= <-]].
  apply andb_true_iff in Ef as [_ Ef]. unfold finish_vote. run_simple.
  destruct (verify_muti_sign_block (merge_signatures x1 b)) eqn:Em; [|by intros [= <-]].
  rewrite Ep. intros [= <-] _. cbn. split_and!; try done; [by rewrite lookup_insert_eq|].
  unfold block_at. cbn. by rewrite lookup_insert_eq.
Qed.
End Vote.

(** C12. A leader certifies only with a quorum: in every execution, when the
    worker that counts votes announces a proposal as certified, the vote it
    just counted had a valid signature, the accounts recorded for the
    proposal are pairwise different and at least as many as both thresholds
    of its certificate together, and the merged signatures verified on the
    block, which is then marked as authenticated. *)
Theorem leader_certifies_with_quorum `{HL : XVBlockLaws} `{HA : XCertAuth} `{HC : XCodecLaws} `{HV : XVerifierLaws}
    (s s' : dstate) (i : nat) (replica : xvip2) (cert : xvqcert) (o : ptr)
    (Hr : reachable s) (Hj : d_jobs (cs_st s) !! i = Some (JVerifyVote replica cert o))
    (Hrun : run_job (JVerifyVote replica cert o) (take_job i s) = Some (tt, s'))
    (Hpost : d_calls (cs_st s') <> d_calls (cs_st s)) :
  d_calls (cs_st s') = d_calls (cs_st s) ++ [KAfterVerifyVote o] /\
  exists b x b1, prop_block_of s o = Some b /\ d_props (cs_st s') !! o = Some x /\
    verify_sign_cert replica cert (get_account b) = true /\
    NoDup (p_all_votors x) /\
    i32 (get_validator_threshold (b_cert b)) + i32 (get_auditor_threshold (b_cert b)) <= Z.of_nat (length (p_all_votors x)) /\
    verify_muti_sign_block b1 = true /\ block_at (p_block x) s' = Some (authenticate b1).
Proof.
  destruct (reachable_inv s Hr) as [Hi _]. destruct (take_job_ok _ _ _ Hi Hj) as (Hi1 & (x & Hx & _) & _).
  destruct (hi_props _ (dv_heap _ _ Hi1) _ _ Hx) as ([b Hb] & _ & _ & Hwf).
  destruct (certify_call _ _ _ _ _ _ _ Hx Hb Hrun Hpost) as (Hs & Hf & Hm & Hc & Hx' & Hb').
  destruct (add_voted_cert_block (b_cert b) x replica (Some cert)) as (Ep & _ & Hwf1).
  set (x1 := (add_voted_cert (b_cert b) x replica (Some cert)).1) in *.
  split; [done|]. exists b, x1, (merge_signatures x1 b). split_and!; try done.
  - unfold prop_block_of. change (d_props (cs_st s) !! o) with (d_props (cs_st (take_job i s)) !! o). by rewrite Hx.
  - by apply Hwf1.
  - by apply finished_quorum; [apply Hwf1|].
  - by rewrite Ep.
Qed.

(** ** A refused proposal *)

(** The report: result, state of this node, and its latest certified, locked
    and committed blocks. *)
Definition report_of (s : dstate) (lb : xvblock) (code : Z) : xvote_report :=
  set_latest_commit_block (prev_of s lb) (set_latest_lock_block (Some lb)
    (set_latest_cert_block (latest_cert_of s) (new_vote_report code (dump_of s)))).

Lemma build_report_reads `{XVBlock} {u} s lb code : dinv u s -> lock_of s = Some lb -> reads (build_report code) (report_of s lb code) s.
Proof.
  intros Hi Hl. unfold build_report. eapply reads_bind; [by eapply dump_reads|].
  eapply reads_bind; [apply latest_cert_value_reads, Hi|]. eapply reads_bind; [by apply lock_block_reads|].
  eapply reads_bind; [by eapply prev_reads|]. done.
Qed.

(** A refused proposal is answered: in every execution of a driver with a
    lock, a parent layer and blocks with input and output objects, a proposal packet that is not accepted makes the
    node send exactly one report back to the sender, after whatever the
    checks sent; it says why, names the node's lock, and its text fits the
    255 bytes the message can carry. *)
Theorem refused_proposal_reported `{HL : XVBlockLaws} `{HA : XCertAuth} `{HC : XCodecLaws} `{HV : XVerifierLaws}
    (s s1 : dstate) (ev : xcspdu_fire) (code : Z)
    (Hr : reachable s) (Hl : m_latest_lock_block (cs_st s) <> None) (Hp : cs_parent s = true) (Hb : bodies s)
    (Hh : handle_proposal_msg ev s = Some (code, s1)) (Hc : code <> enum_xconsensus_code_successful) :
  exists lb r,
    lock_of s1 = Some lb /\ vr_error_code r = code /\ vr_lock_height r = get_height lb /\
    vr_lock_hash r = get_block_hash lb /\ (String.length (vr_error_detail r) <= 255)%nat /\
    on_proposal_msg_recv ev s = Some (false,
      add_out (EvPdu (ev_to ev) (ev_from ev)
        (XCspdu pdu_class_xbft msg_type_vote_report (u16 (pdu_nonce (ev_packet ev) + 1)) (enc_vote_report r)
           (pdu_chainid (ev_packet ev)) (pdu_account (ev_packet ev)) (pdu_height (ev_packet ev))
           (pdu_block_clock (ev_packet ev)) (pdu_viewid (ev_packet ev)) (pdu_viewtoken (ev_packet ev))
           EmptyString EmptyString)) s1).
Proof.
  pose proof (reachable_defined s Hr Hl Hp Hb) as Hi.
  pose proof (Signs_handle_proposal_msg ev s Hi) as Hs. unfold Signs, wpu in Hs. rewrite Hh in Hs.
  destruct Hs as (Hi1 & Hf & _).
  destruct (m_latest_lock_block (cs_st s1)) as [l|] eqn:El; [|destruct (dv_ub _ _ Hi1); by left].
  destruct (di_lock _ (dv_drv _ _ Hi1) l El) as (lb & Hlb & _).
  assert (Hlo : lock_of s1 = Some lb) by (unfold lock_of; by rewrite El).
  assert (Hp1 : cs_parent s1 = true).
  { destruct (cs_parent s1) eqn:Ep; [done|]. destruct (dv_ub _ _ Hi1). by right; left. }
  exists lb, (report_of s1 lb code). split_and!; [done|..].
  - unfold report_of. by destruct (prev_of s1 lb), (latest_cert_of s1).
  - unfold report_of. by destruct (prev_of s1 lb), (latest_cert_of s1).
  - unfold report_of. by destruct (prev_of s1 lb), (latest_cert_of s1).
  - assert (E : vr_error_detail (report_of s1 lb code) = dump_of s1).
    { unfold report_of. by destruct (prev_of s1 lb), (latest_cert_of s1). }
    rewrite E. apply dump_of_length.
  - unfold on_proposal_msg_recv. rewrite (bind_runs _ _ _ _ _ Hh), (proj2 (Z.eqb_neq _ _) Hc). cbn [negb].
    rewrite (bind_runs _ _ _ _ _ (build_report_reads s1 lb code Hi1 Hlo)).
    unfold push_up, bind. by rewrite Hp1.
Qed.

(** ** Repeated requests for a block *)

(** Repeated requests are damped, but the counter wraps: a request for a
    block that is already pending is counted in 8 bits and sent again only
    while the new count is at most 2; so of the requests following the first
    only the next one goes out, until after 256 of them the count is back at
    zero and three more are sent. *)
Theorem sync_request_retries `{HCt : XVCert} `{HB : XVBlock} `{HA : XCertAuth} `{HC : XCodec}
    (s : dstate) (from to : xvip2) (height pv pt ph ex ch : Z) (hash : string) (r : xsyn_request)
    (Hp : cs_parent s = true) (Hh : 0 < height)
    (Hf : map_find (sync_key hash height) (m_syncing_requests (cs_st s)) = Some r)
    (Ht : 0 <= sync_trycount r < 256) :
  exists s' pkt, send_sync_request from to height hash pv pt ph ex ch s = Some (true, s') /\
    map_find (sync_key hash height) (m_syncing_requests (cs_st s')) = Some (retried r) /\
    sync_trycount (retried r) = (if sync_trycount r =? 255 then 0 else sync_trycount r + 1) /\
    cs_out s' = cs_out s ++
      (if (sync_trycount r <=? 1) || (sync_trycount r =? 255) then [EvPdu from to pkt] else []).
Proof.
  assert (Ec : sync_trycount (retried r) = if sync_trycount r =? 255 then 0 else sync_trycount r + 1).
  { unfold retried, u8. cbn. destruct (Z.eqb_spec (sync_trycount r) 255) as [->|]; [done|]. apply Z.mod_small. lia. }
  unfold send_sync_request. run_simple. rewrite Hp, (proj2 (Z.ltb_lt _ _) Hh). cbn [andb negb].
  do 3 run_simple. rewrite Hf. rewrite (bind_runs _ _ (negb (2 <? sync_trycount (retried r))) s
    (upd_st (set_syncing (map_set (sync_key hash height) (retried r) (m_syncing_requests (cs_st s)))) s)) by done.
  rewrite negb_involutive. destruct (Z.ltb_spec 2 (sync_trycount (retried r))) as [Hlt|Hle].
  - eexists _, (XCspdu 0 0 0 "" 0 "" 0 0 0 0 "" ""). split; [done|]. cbn. rewrite map_find_set_eq.
    split_and!; [done|done|]. rewrite Ec in Hlt. destruct (Z.eqb_spec (sync_trycount r) 255); [lia|].
    rewrite (proj2 (Z.leb_gt _ _)) by lia. by rewrite app_nil_r.
  - run_simple. rewrite (bind_runs _ _ _ _ _ (fire_runs _ _)). eexists _, _. split; [done|]. unfold add_outs. cbn. rewrite Hp.
    rewrite map_find_set_eq. split_and!; [done|done|]. rewrite Ec in Hle.
    destruct (Z.eqb_spec (sync_trycount r) 255); [by rewrite orb_true_r|].
    by rewrite (proj2 (Z.leb_le _ _)) by lia.
Qed.

(** The test against the proposal already held is inverted: a packet that
    matches the held proposal of its view in height, chain, view, token and
    account is answered as a bad packet, while one that does not match is
    taken for a duplicate once the held block has its input. *)
Theorem matching_duplicate_is_bad_packet `{HB : XVBlock} (s : dstate) (packet : xcspdu) (o : ptr) (b : xvblock)
    (Hf : find_block (pdu_viewid packet) (m_proposal_blocks (cs_st s)) = Some o) (Hb : prop_block_of s o = Some b)
    (Hin : is_input_ready b false = true) (Hv : is_valid b false = true) :
  proposal_known packet s =
    Some (Some (if is_valid_packet b packet then enum_xconsensus_error_bad_packet
                else enum_xconsensus_error_duplicated), s).
Proof.
  unfold proposal_known, find_proposal. rewrite (bind_runs _ _ (Some o) s s).
  - rewrite (bind_runs _ _ _ _ _ (prop_block_reads _ _ _ Hb)), Hin, Hv. by destruct (is_valid_packet b packet).
  - unfold st_get, gets. by rewrite Hf.
Qed.

(** ** At concrete states *)

Module OpsWitness.
Import Concrete.Demo Scenario.Scenario StepsWitness.

Lemma reach_accepted : reachable s_accepted.
Proof. exists s0. split; [apply s0_initial|apply accepted_step]. Qed.

Lemma view_change_spec_witness :
  exists s' (late gone : list (Z * ptr)), on_view_fire 13 30 s_accepted = Some (true, s') /\ (12, 1%positive) ∈ late /\
    cs_out s' = cs_out s_accepted ++ ((snd <$> late) ≫= timeout_events s_accepted (highest_of s_accepted locked))
                 ++ ((snd <$> gone) ≫= cancel_events s_accepted).
Proof.
  destruct (view_change_spec s_accepted 13 30 locked (dv_drv _ _ (proj1 (reachable_inv _ reach_accepted)))
              ltac:(by vm_compute) ltac:(by vm_compute))
    as (s' & late & gone & E & Hl & _ & _ & _ & _ & _ & _ & _ & _ & Ho).
  exists s', late, gone. split_and!; [done| |done]. apply Hl. split; [|done]. by apply (bool_decide_unpack _); vm_compute.
Defined.

(** The leader starts a round and gets the second vote it needs. *)
Definition start_ev : xproposal_start := XProposalStart (Some 2%positive) None (Some 1%positive) None 1000.
Definition vote_ev : xcspdu_fire :=
  XCspduFire replica leader
    (XCspdu pdu_class_xbft msg_type_vote 1 (enc_vote (XVoteMsg "B")) 1 "T1" 6 10 12 7 "" "") 12 20 None None.
Definition l1 : dstate := after (on_proposal_start start_ev) (start_at leader).
Definition l2 : dstate := after (on_pdu_event_down vote_ev) l1.
Definition l3 : dstate := after (run_job (JVerifyVote replica (mk_cert 12 "B" "K") 1%positive)) (take_job 0 l2).

Lemma reach_l2 : reachable l2.
Proof.
  exists (start_at leader). split; [apply s0_initial|]. eapply rtc_l; [|apply rtc_once].
  - eapply (ds_start (start_at leader) start_ev true l1); [|by vm_compute].
    intros p [[= <-]|[[=]|[[= <-]|[=]]]]; by eexists.
  - eapply (ds_pdu l1 vote_ev true). by vm_compute.
Qed.

Lemma leader_certifies_with_quorum_witness : d_calls (cs_st l3) = d_calls (cs_st l2) ++ [KAfterVerifyVote 1%positive].
Proof.
  apply (leader_certifies_with_quorum l2 l3 0 replica (mk_cert 12 "B" "K") 1%positive reach_l2); by vm_compute.
Defined.

Lemma bodies_accepted : bodies s_accepted.
Proof.
  assert (Hall : map_Forall (fun _ b => has_body b) (w_blocks (cs_world s_accepted))).
  { apply (bool_decide_unpack _). vm_compute. exact I. }
  intros p b Hp. exact (Hall p b Hp).
Qed.
(** The same proposal packet again: refused, and reported. *)
Lemma refused_proposal_reported_witness :
  exists s1 r, handle_proposal_msg proposal_event s_accepted = Some (enum_xconsensus_error_bad_packet, s1) /\
    vr_error_code r = enum_xconsensus_error_bad_packet.
Proof.
  destruct (handle_proposal_msg proposal_event s_accepted) as [[c s1]|] eqn:E; [|by vm_compute in E].
  assert (Ec : c = enum_xconsensus_error_bad_packet).
  { transitivity (match handle_proposal_msg proposal_event s_accepted with Some (c, _) => c | None => 0 end);
      [by rewrite E|by vm_compute]. }
  subst c.
  destruct (refused_proposal_reported s_accepted s1 proposal_event _ reach_accepted ltac:(by vm_compute) ltac:(by vm_compute)
              bodies_accepted E ltac:(done)) as (lb & r & _ & Hr & _).
  by exists s1, r.
Defined.

Definition pending255 : dstate :=
  upd_st (set_syncing [(sync_key "H" 5, XSynRequest 5 0 0 255)]) s0.
Lemma sync_request_retries_witness :
  exists s' pkt, send_sync_request replica leader 5 "H" 1 1 4 9 1 pending255 = Some (true, s') /\
    cs_out s' = cs_out pending255 ++ [EvPdu replica leader pkt].
Proof.
  destruct (sync_request_retries pending255 replica leader 5 1 1 4 9 1 "H" (XSynRequest 5 0 0 255)
              eq_refl ltac:(done) ltac:(by vm_compute) ltac:(done)) as (s' & pkt & E & _ & _ & Ho).
  by exists s', pkt.
Defined.

Lemma matching_duplicate_is_bad_packet_witness :
  proposal_known proposal_packet s_accepted = Some (Some enum_xconsensus_error_bad_packet, s_accepted).
Proof.
  apply (matching_duplicate_is_bad_packet s_accepted proposal_packet 1%positive
    (match prop_block_of s_accepted 1%positive with Some b => b | None => locked end)); by vm_compute.
Defined.
End OpsWitness.
