(* ===== verification/Witnesses.v ===== *)
(** * The theorems on rules and messages at concrete inputs *)

From stdpp Require Import prelude gmap strings pretty.
From Stdlib Require Import ZArith Lia Sorting.Sorted.
From S2P Require Import Prelude Stream StdMap VBlock Pdu Concrete Proposal BFTState Rules RulesFacts Sync Driver.
From S2P Require Import Scenario DriverInv DriverFacts DriverSteps.

Module RulesWitness.
Import Concrete.Demo Scenario.Scenario DriverSteps.StepsWitness.

Lemma verified_inv : drv_inv s_verified.
Proof. apply (reachable_inv _ reach_verified). Qed.

Lemma safe_finalcheck_spec_witness :
  exists r, safe_finalcheck_for_voting (Some 3%positive) s_verified = Some (r, s_verified) /\
    (r = true <-> vote_allowed s_verified locked (default proposed (block_at 3%positive s_verified))).
Proof.
  apply (safe_finalcheck_spec s_verified 3%positive locked
    (default proposed (block_at 3%positive s_verified)) verified_inv heights_small);
    vm_compute; reflexivity.
Defined.

(** The block store gains a delivered block over the lock. *)
Definition child : xvblock := mk_block 6 13 "C" "L" "L" 0x7000.
Definition s_child : dstate :=
  upd_world (fun w => World (<[4%positive := child]> (w_blocks w)) 5%positive (w_now w) (w_rand w) (w_latest_locked w)
    (w_latest_cert w) (w_load w) (w_query w) (w_uninit w)) s_verified.

Lemma child_inv : drv_inv s_child.
Proof.
  assert (Hb : forall p b, block_at p s_verified = Some b -> block_at p s_child = Some b).
  { intros p b Hp. unfold block_at. cbn. rewrite lookup_insert_ne; [done|].
    intros <-. vm_compute in Hp. discriminate. }
  assert (Hst : cs_st s_child = cs_st s_verified) by reflexivity.
  assert (Hloc : w_latest_locked (cs_world s_child) = w_latest_locked (cs_world s_verified)) by reflexivity.
  destruct verified_inv as [H1' H2' H3' H4' H5' H6'].
  split; unfold prop_block_of; rewrite ?Hst, ?Hloc; [| |exact H3'| |exact H5'|].
  - intros l Hl. destruct (H1' l Hl) as (b & ? & ?). exists b. split; [by apply Hb|assumption].
  - intros l Hl. destruct (H2' l Hl) as [b ?]. exists b. by apply Hb.
  - intros v p Hp. destruct (H4' v p Hp) as (b & ? & ?). exists b. split; [by apply Hb|assumption].
  - intros v p Hp. destruct (H6' v p Hp) as (b & Hpb & Hr). exists b. split; [|exact Hr].
    unfold prop_block_of in Hpb. destruct (d_props (cs_st s_verified) !! p); [|discriminate]. by apply Hb.
Qed.

Lemma set_lock_block_monotone_witness :
  exists r s', set_lock_block (Some 4%positive) s_child = Some (r, s') /\ drv_inv s' /\
    forall b, lock_of s_child = Some b -> exists b', lock_of s' = Some b' /\ pos_le b b'.
Proof.
  assert (Ha : forall l, Some 4%positive = Some l -> allocated s_child l).
  { intros l [= <-]. exists child. vm_compute. reflexivity. }
  destruct (set_lock_block_monotone s_child (Some 4%positive) child_inv Ha) as (r & s' & E & Hi & _ & _ & Hl & _).
  exists r, s'. by split_and!.
Defined.

(** The proposal of view 12 leaves the pool and is reported. *)
Lemma set_lock_block_prunes_witness :
  exists s', rules_set_lock_block (Some 4%positive) s_child = Some (true, s') /\
    m_latest_lock_block (cs_st s') = Some 4%positive /\
    (forall e, e ∈ m_proposal_blocks (cs_st s') <->
       e ∈ m_proposal_blocks (cs_st s_child) /\ prop_over s_child child e.2 = true) /\
    m_proposal_blocks (cs_st s_child) = [(12, 1%positive)] /\ prop_over s_child child 1%positive = false.
Proof.
  destruct (set_lock_block_prunes s_child 4%positive child child_inv) as (s' & E & Hl & _ & Hp & _);
    [vm_compute; reflexivity..|vm_compute; discriminate| |].
  - intros cb Hcb. vm_compute in Hcb. injection Hcb as <-. vm_compute. reflexivity.
  - exists s'. split_and!; try done; vm_compute; reflexivity.
Defined.
End RulesWitness.

Module PduWitness.
Import Concrete.Demo Scenario.Scenario.

Definition demo_proposal : xproposal_msg := XProposalMsg 1000 "parent" "block" "in" "res" "out".
Definition demo_vote : xvote_msg := XVoteMsg "signature".
Definition demo_report : xvote_report := XVoteReport 13 "rejected" 6 12 "C" 5 "L" 4 "K".
Definition demo_commit : xcommit_msg := XCommitMsg 0 6 "" "cert" "out".
Definition demo_request : xsync_request_msg := XSyncRequestMsg 7 0 99 6 "B".
Definition demo_respond : xsync_respond_msg := XSyncRespondMsg 7 0 99 "block" "in" "out".

Lemma messages_roundtrip_witness :
  dec_proposal (enc_proposal demo_proposal) = Some demo_proposal /\
  dec_vote (enc_vote demo_vote) = Some demo_vote /\
  dec_vote_report (enc_vote_report demo_report) = Some demo_report /\
  dec_commit (enc_commit demo_commit) = Some demo_commit /\
  dec_sync_request (enc_sync_request demo_request) = Some demo_request /\
  dec_sync_respond (enc_sync_respond demo_respond) = Some demo_respond.
Proof.
  apply (messages_roundtrip demo_proposal demo_vote demo_report demo_commit demo_request demo_respond);
    repeat split; vm_compute; congruence.
Defined.

(** A detail of 256 bytes arrives empty. *)
Fixpoint repeat_char (n : nat) : string :=
  match n with O => EmptyString | S n => String (Ascii.ascii_of_nat 120) (repeat_char n) end.
Definition long_report : xvote_report := XVoteReport 13 (repeat_char 256) 6 12 "C" 5 "L" 4 "K".

Lemma report_detail_cut_witness :
  dec_vote_report (enc_vote_report long_report) = Some (XVoteReport 13 "" 6 12 "C" 5 "L" 4 "K").
Proof.
  apply (report_detail_cut long_report). repeat split; vm_compute; congruence.
Defined.
End PduWitness.
