(* ===== verification/CertContext.v ===== *)
(** * The context layer ([xBFTcontext_t], xconscontext.cpp)

    The context keeps the certified blocks above the last commit as a forest
    of nodes, applies the three-chain rule to them, tells the layers above
    which blocks are committed and the driver below which block is locked.
    A node ([xvbnode_t], of the base library) holds a block, the nodes before
    and after it and flags; flags of zero mark a node that left the pool.
    Nodes live in a store of their own, as blocks do; reference counts are
    left out. *)

From stdpp Require Import prelude gmap strings.
From Stdlib Require Import ZArith Lia Sorting.Sorted.
From S2P Require Import Prelude Stream StdMap VBlock Pdu Proposal BFTState.

Record vbnode := VBNode {
  n_block : ptr; n_parent : option ptr; n_child : option ptr; n_flags : Z
}.

Record xBFTcontext := XBFTcontext {
  x_latest_commit_block : option ptr;
  x_latest_lock_block : option ptr;
  m_hash_pool : list (string * ptr);          (* block hash -> node *)
  m_view_pool : list Z;                       (* views that have a certified block *)
  x_nodes : gmap ptr vbnode;
  x_next : ptr;
  x_child : bool                              (* get_child_node() != NULL *)
}.

(** What the nodes of the base library decide: whether the constructor keeps
    the parent it is given, and whether [reset_parent] and [reset_child]
    accept a node, by the blocks of the two nodes (the upper one first). *)
Class XVBNode := {
  new_vbnode_ok : xvblock -> xvblock -> bool;
  reset_parent_ok : xvblock -> xvblock -> bool;
  reset_child_ok : xvblock -> xvblock -> bool;
}.

(** The rule documented for [xvbnode_t]: "parent_node'height must = it'height -
    1, parent'hash must = it'last_block_hash"; what the constructor and
    [reset_parent] accept obeys it, and [reset_child] accepts what obeys it. *)
Definition node_rule (p c : xvblock) : Prop :=
  get_height c = get_height p + 1 /\ get_last_block_hash c = get_block_hash p.
Class XVBNodeLaws `{XVBNode} : Prop := {
  new_vbnode_rule : forall p c, new_vbnode_ok p c = true -> node_rule p c;
  reset_parent_rule : forall p c, reset_parent_ok p c = true -> node_rule p c;
  reset_child_rule : forall p c, node_rule p c -> reset_child_ok p c = true;
}.

Definition set_ctx_commit (v : option ptr) (c : xBFTcontext) : xBFTcontext :=
  XBFTcontext v (x_latest_lock_block c) (m_hash_pool c) (m_view_pool c) (x_nodes c) (x_next c) (x_child c).
Definition set_ctx_lock (v : option ptr) (c : xBFTcontext) : xBFTcontext :=
  XBFTcontext (x_latest_commit_block c) v (m_hash_pool c) (m_view_pool c) (x_nodes c) (x_next c) (x_child c).
Definition set_views (v : list Z) (c : xBFTcontext) : xBFTcontext :=
  XBFTcontext (x_latest_commit_block c) (x_latest_lock_block c) (m_hash_pool c) v (x_nodes c) (x_next c) (x_child c).
Definition set_nodes (v : gmap ptr vbnode) (c : xBFTcontext) : xBFTcontext :=
  XBFTcontext (x_latest_commit_block c) (x_latest_lock_block c) (m_hash_pool c) (m_view_pool c) v (x_next c) (x_child c).
Definition insert_node (hash : string) (x : vbnode) (c : xBFTcontext) : xBFTcontext :=
  XBFTcontext (x_latest_commit_block c) (x_latest_lock_block c) (map_set hash (x_next c) (m_hash_pool c))
    (m_view_pool c) (<[x_next c := x]> (x_nodes c)) (Pos.succ (x_next c)) (x_child c).
Definition with_node_flags (f : Z -> Z) (x : vbnode) : vbnode :=
  VBNode (n_block x) (n_parent x) (n_child x) (f (n_flags x)).
Definition with_node_parent (p : option ptr) (x : vbnode) : vbnode :=
  VBNode (n_block x) p (n_child x) (n_flags x).
Definition with_node_child (c : option ptr) (x : vbnode) : vbnode :=
  VBNode (n_block x) (n_parent x) c (n_flags x).
(** A node leaves the pool: its flags are cleared and its view is free again. *)
Definition drop_node (hash : string) (n : ptr) (view : Z) (c : xBFTcontext) : xBFTcontext :=
  XBFTcontext (x_latest_commit_block c) (x_latest_lock_block c) (map_erase hash (m_hash_pool c))
    (set_erase view (m_view_pool c)) (alter (with_node_flags (fun _ => 0)) n (x_nodes c)) (x_next c) (x_child c).

Definition new_context : xBFTcontext := XBFTcontext None None [] [] ∅ 1%positive true.

Abbreviation xstate := (cstate xBFTcontext xevent).
Abbreviation XP := (prog xstate).

Definition node_deref (n : ptr) : XP vbnode :=
  fun s => match x_nodes (cs_st s) !! n with Some x => Some (x, s) | None => None end.
Definition node_update (n : ptr) (f : vbnode -> vbnode) : XP unit :=
  let* x := node_deref n in st_mod (fun c => set_nodes (<[n := f x]> (x_nodes c)) c).
Definition node_block (n : ptr) : XP xvblock :=
  let* x := node_deref n in deref (n_block x).
(** [fire_consensus_update_event_down]: only with a child layer attached. *)
Definition fire_down (e : xevent) : XP unit :=
  let* child := st_get x_child in if child then emit e else ret tt.

Definition set_obj_flag (flag : Z) : vbnode -> vbnode := with_node_flags (fun f => Z.lor f flag).

Section Context.
Context `{XVCert} `{XVBlock} `{XVBNode}.

(** ** The latest locked and committed blocks *)

(** The new block is on the same chain and above in view and height. *)
Definition advances (old new : xvblock) : bool :=
  (get_viewid old <? get_viewid new) && (get_height old <? get_height new)
  && (get_chainid new =? get_chainid old) && bool_decide (get_account new = get_account old).

Definition update_lock_block (new_lock : option ptr) : XP bool :=
  match new_lock with
  | None => ret false
  | Some p =>
      let* b := deref p in
      if negb (check_block_flag b enum_xvblock_flag_locked) && negb (check_block_flag b enum_xvblock_flag_committed)
      then ret false
      else
        let* cur := st_get x_latest_lock_block in
        match cur with
        | None => st_mod (set_ctx_lock (Some p)) ;;; ret true
        | Some l =>
            if decide (l = p) then ret false
            else
              let* lb := deref l in
              if advances lb b then st_mod (set_ctx_lock (Some p)) ;;; ret true else ret false
        end
  end.

Definition update_commit_block (new_commit : option ptr) : XP bool :=
  match new_commit with
  | None => ret false
  | Some p =>
      let* b := deref p in
      if negb (check_block_flag b enum_xvblock_flag_committed) || negb (check_block_flag b enum_xvblock_flag_authenticated)
      then ret false
      else
        let* cur := st_get x_latest_commit_block in
        match cur with
        | None => st_mod (set_ctx_commit (Some p)) ;;; update_lock_block (Some p) ;;; ret true
        | Some l =>
            if decide (l = p) then ret false
            else
              let* lb := deref l in
              if advances lb b then st_mod (set_ctx_commit (Some p)) ;;; ret true else ret false
        end
  end.

(** ** Which blocks may enter *)

Definition context_check_for_block (block : option ptr) : XP bool :=
  match block with
  | None => ret false
  | Some p => let* b := deref p in ret (is_deliver b false)
  end.

Definition safe_check_for_cert_block (block : option ptr) : XP bool :=
  match block with
  | None => ret false
  | Some p =>
      let* b := deref p in
      if check_block_flag b enum_xvblock_flag_committed then ret false
      else
        let* lock := st_get x_latest_lock_block in
        match lock with
        | Some l =>
            let* lb := deref l in
            if (get_height b <=? get_height lb) || (get_viewid b <=? get_viewid lb)
               || negb (get_chainid b =? get_chainid lb)
               || negb (bool_decide (get_account b = get_account lb))
            then ret false else context_check_for_block block
        | None => context_check_for_block block
        end
  end.

(** ** The three-chain rule *)

Definition reset_child (n c : ptr) : XP unit :=
  let* nb := node_block n in
  let* cb := node_block c in
  if reset_child_ok nb cb then node_update n (with_node_child (Some c)) else ret tt.

(** [parent] as the rule sees it: absent, or gone from the pool. *)
Definition live (o : option ptr) : XP (option ptr) :=
  match o with
  | None => ret None
  | Some n => let* x := node_deref n in ret (if n_flags x =? 0 then None else Some n)
  end.

(** The loop over the ancestors of the committed node.  Heights decrease along
    it, so the height of its first node bounds the number of rounds. *)
Fixpoint commit_ancestors (fuel : nat) (last : ptr) (it : option ptr) : XP unit :=
  match fuel with
  | O => ub
  | S fuel' =>
      let* it := live it in
      match it with
      | None => ret tt
      | Some n =>
          let* x := node_deref n in
          update_block (n_block x) (fun b => set_block_flag b enum_xvblock_flag_committed) ;;;
          node_update n (set_obj_flag enum_xvblock_flag_committed) ;;;
          reset_child n last ;;;
          let* y := node_deref last in
          let* c := nonnull (n_child y) in
          let* cb := node_block c in
          update_block (n_block x) (fun b => set_next_next_cert b (b_cert cb)) ;;;
          commit_ancestors fuel' n (n_parent x)
      end
  end.

(** Step 3: the grandparent [g] of the new node [n] is committed, with
    everything below it; [p] is the node between. *)
Definition commit_node (n p g : ptr) : XP unit :=
  let* x := node_deref g in
  update_block (n_block x) (fun b => set_block_flag b enum_xvblock_flag_locked) ;;;
  update_block (n_block x) (fun b => set_block_flag b enum_xvblock_flag_committed) ;;;
  node_update g (set_obj_flag enum_xvblock_flag_committed) ;;;
  let* nb := node_block n in
  update_block (n_block x) (fun b => set_next_next_cert b (b_cert nb)) ;;;
  reset_child g p ;;;
  update_commit_block (Some (n_block x)) ;;;
  let* gb := deref (n_block x) in
  commit_ancestors (S (Z.to_nat (get_height gb))) g (n_parent x).

Definition do_execute (new_node : option ptr) : XP bool :=
  match new_node with
  | None => ret false
  | Some n =>
      let* x := node_deref n in
      if n_flags x =? 0 then ret false
      else
        let* parent := live (n_parent x) in
        match parent with
        | None => ret false
        | Some p =>
            let* y := node_deref p in
            update_block (n_block y) (fun b => set_block_flag b enum_xvblock_flag_locked) ;;;
            node_update p (set_obj_flag enum_xvblock_flag_locked) ;;;
            reset_child p n ;;;
            update_lock_block (Some (n_block y)) ;;;
            let* grand := live (n_parent y) in
            match grand with
            | None => ret true
            | Some g => commit_node n p g ;;; ret true
            end
        end
  end.

(** ** Entering the pool *)

(** Step 1: a node for the block, linked to its parent when that is here. *)
Definition new_node (p : ptr) (b : xvblock) : XP unit :=
  let* pool := st_get m_hash_pool in
  let* n := st_get x_next in
  match map_find (get_last_block_hash b) pool with
  | Some q =>
      let* qb := node_block q in
      let parent := if new_vbnode_ok qb b then Some q else None in
      st_mod (insert_node (get_block_hash b) (VBNode p parent None enum_xvblock_flag_authenticated)) ;;;
      do_execute (Some n) ;;; ret tt
  | None => st_mod (insert_node (get_block_hash b) (VBNode p None None enum_xvblock_flag_authenticated))
  end.

(** Step 2: adopt a node that waited for its parent; tells whether it did. *)
Definition adopt (parent : ptr) (height : Z) (e : string * ptr) : XP bool :=
  let* x := node_deref e.2 in
  match n_parent x with
  | Some _ => ret false
  | None =>
      let* b := deref (n_block x) in
      if get_height b =? u64 (height + 1) then
        let* pb := node_block parent in
        if reset_parent_ok pb b then node_update e.2 (with_node_parent (Some parent)) ;;; ret true
        else ret false
      else ret false
  end.

Definition do_update (new_block : option ptr) : XP bool :=
  let* ok := safe_check_for_cert_block new_block in
  if negb ok then ret false
  else
    let* p := nonnull new_block in
    let* b := deref p in
    let* pool := st_get m_hash_pool in
    match map_find (get_block_hash b) pool with
    | Some _ => ret false
    | None =>
        let* views := st_get m_view_pool in
        let '(views', fresh) := set_emplace (get_viewid b) views in
        if negb fresh then ret false
        else
          let* n := st_get x_next in
          st_mod (set_views views') ;;;
          new_node p b ;;;
          let* pool' := st_get m_hash_pool in
          let* adopted := map_prog (adopt n (get_height b)) pool' in
          (if existsb (fun r => r) adopted
           then for_each pool' (fun e => do_execute (Some e.2) ;;; ret tt) else ret tt) ;;;
          ret true
    end.

(** ** Leaving the pool *)

(** The nodes a loop took out, ordered by view. *)
Definition sort_nodes (l : list (string * ptr)) : XP (list ptr) :=
  let* keyed := map_prog (fun e => let* b := node_block e.2 in ret (get_viewid b, e.2)) l in
  ret (snd <$> sort_by fst keyed).

(** [false] when the node was taken out. *)
Definition take_committed (e : string * ptr) : XP bool :=
  let* b := node_block e.2 in
  if check_block_flag b enum_xvblock_flag_committed
  then st_mod (drop_node e.1 e.2 (get_viewid b)) ;;; ret false
  else ret true.

Definition submit_node (highest_cert : option ptr) (n : ptr) : XP unit :=
  let* x := node_deref n in
  let* next := match n_child x with
               | None => ret None
               | Some c =>
                   let* y := node_deref c in
                   match n_child y with
                   | None => ret None
                   | Some d => let* z := node_deref d in ret (Some (n_block y, n_block z))
                   end
               end in
  match next with
  | Some (lock, hqc) => fire (EvConsensusCommit (Some (n_block x)) (Some (n_block x)) (Some lock) (Some hqc))
  | None =>
      let* lock := st_get x_latest_lock_block in
      fire (EvConsensusCommit (Some (n_block x)) (Some (n_block x)) lock highest_cert)
  end.

Definition do_submit (highest_cert : option ptr) : XP bool :=
  let* pool := st_get m_hash_pool in
  let* taken := partition_prog take_committed pool in
  let* to_commit := sort_nodes taken.2 in
  let* commit := st_get x_latest_commit_block in
  let* lock := st_get x_latest_lock_block in
  fire_down (EvConsensusUpdateDown commit lock None) ;;;
  for_each to_commit (submit_node highest_cert) ;;;
  ret true.

(** A link to a node that left the pool, or to a committed block, is cut. *)
Definition cut_parent (n : ptr) (x : vbnode) : XP unit :=
  match n_parent x with
  | None => ret tt
  | Some q =>
      let* y := node_deref q in
      if n_flags y =? 0 then node_update n (with_node_parent None)
      else
        let* qb := deref (n_block y) in
        if check_block_flag qb enum_xvblock_flag_committed then node_update n (with_node_parent None) else ret tt
  end.

(** Behind the commit, below the lock, or beside it at its height. *)
Definition outdated (commit lock : option xvblock) (b : xvblock) : XP bool :=
  match commit with
  | None => ret true
  | Some cb =>
      if (get_height b <=? get_height cb) || (get_viewid b <=? get_viewid cb) then ret true
      else
        let* lb := nonnull lock in
        ret ((get_height b <? get_height lb)
             || ((get_height b =? get_height lb) && negb (get_viewid b =? get_viewid lb)))
  end.

(** [false] when the node was taken out. *)
Definition clean_node (commit lock : option xvblock) (e : string * ptr) : XP bool :=
  let* x := node_deref e.2 in
  cut_parent e.2 x ;;;
  let* b := deref (n_block x) in
  let* old := outdated commit lock b in
  if old then st_mod (drop_node e.1 e.2 (get_viewid b)) ;;; ret false else ret true.

Definition deref_opt (o : option ptr) : XP (option xvblock) :=
  match o with None => ret None | Some p => let* b := deref p in ret (Some b) end.

Definition cancel_node (n : ptr) : XP unit :=
  let* x := node_deref n in
  fire (EvProposalFinish enum_xconsensus_error_cancel EmptyString (Some (n_block x)) None None None None).

Definition do_clean : XP bool :=
  let* commit := st_get x_latest_commit_block in
  let* cb := deref_opt commit in
  let* lock := st_get x_latest_lock_block in
  let* lb := deref_opt lock in
  let* pool := st_get m_hash_pool in
  let* taken := partition_prog (clean_node cb lb) pool in
  let* to_clean := sort_nodes taken.2 in
  for_each to_clean cancel_node ;;;
  ret true.

(** ** Events *)

(** What an event carries through the layers; the context fills in the latest
    commit and lock before it passes the event on. *)
Record xcsevent := XCsevent {
  xe_error : Z; xe_target : option ptr; xe_commit : option ptr; xe_lock : option ptr; xe_cert : option ptr
}.
Definition fill_latest (ev : xcsevent) : XP xcsevent :=
  let* commit := st_get x_latest_commit_block in
  let* lock := st_get x_latest_lock_block in
  ret (XCsevent (xe_error ev) (xe_target ev) commit lock (xe_cert ev)).

(** A block the upper layers know enters the pool unless its view is there. *)
Definition enter_known (block : option ptr) : XP unit :=
  match block with
  | None => ret tt
  | Some p =>
      let* b := deref p in
      let* views := st_get m_view_pool in
      if set_mem (get_viewid b) views then ret tt else do_update (Some p) ;;; ret tt
  end.

Definition sync_latest (ev : xcsevent) : XP unit :=
  enter_known (xe_cert ev) ;;;
  enter_known (xe_lock ev) ;;;
  let* lock_ok := context_check_for_block (xe_lock ev) in
  let* changed := if lock_ok then update_lock_block (xe_lock ev) else ret false in
  let* commit_ok := context_check_for_block (xe_commit ev) in
  let* changed' := if commit_ok then update_commit_block (xe_commit ev) else ret false in
  if changed || changed' then do_clean ;;; ret tt else ret tt.

(** Each handler returns whether the event stops here, and the event. *)
Definition context_on_proposal_start (ev : xcsevent) : XP (bool * xcsevent) :=
  sync_latest ev ;;;
  let* ev' := fill_latest ev in ret (false, ev').

Definition context_on_consensus_update (down : bool) (ev : xcsevent) : XP (bool * xcsevent) :=
  (if down then sync_latest ev else ret tt) ;;;
  let* ev' := fill_latest ev in ret (false, ev').

(** A new certified block; [false] when it was not taken. *)
Definition enter_certified (ev : xcsevent) : XP bool :=
  let* ok := context_check_for_block (xe_target ev) in
  if negb ok then ret false
  else
    let* entered := do_update (xe_target ev) in
    if entered then do_submit (xe_cert ev) ;;; do_clean ;;; ret true else ret false.

Definition context_on_proposal_finish (ev : xcsevent) : XP (bool * xcsevent) :=
  let* pass := if xe_error ev =? enum_xconsensus_code_successful then enter_certified ev else ret true in
  if pass then let* ev' := fill_latest ev in ret (false, ev') else ret (true, ev).

Definition context_on_replicate_finish (ev : xcsevent) : XP (bool * xcsevent) :=
  match xe_target ev with
  | None => ret (true, ev)
  | Some _ =>
      if xe_error ev =? enum_xconsensus_code_successful then
        let* pass := enter_certified ev in
        if pass then let* ev' := fill_latest ev in ret (false, ev') else ret (true, ev)
      else ret (true, ev)
  end.
End Context.
