(* ===== verification/CertInv.v ===== *)
(** * The invariant of the context layer

    The pool and the set of views describe the same blocks, one per view; a
    node's parent is one height below it; the commit and the lock are blocks
    that exist, and both are known as soon as one block is committed.  Every
    operation keeps this, is defined, and moves commit and lock only upwards. *)

From stdpp Require Import prelude gmap strings.
From Stdlib Require Import ZArith Lia Sorting.Sorted.
From S2P Require Import Prelude Stream StdMap VBlock Pdu Proposal BFTState Rules RulesFacts CertContext.

Definition blk (s : xstate) (n : ptr) : option xvblock :=
  x_nodes (cs_st s) !! n ≫= fun x => block_at (n_block x) s.
Definition commit_of (s : xstate) : option xvblock := x_latest_commit_block (cs_st s) ≫= fun p => block_at p s.
Definition ctx_lock_of (s : xstate) : option xvblock := x_latest_lock_block (cs_st s) ≫= fun p => block_at p s.

(** A block keeps its identity and its hash. *)
Definition same_blk (b b' : xvblock) : Prop := same_id b b' /\ get_block_hash b' = get_block_hash b.
#[export] Instance same_blk_preorder : PreOrder same_blk.
Proof. split; [done|]. intros ? ? ? [? ?] [? ?]. split; [by etrans|congruence]. Qed.

(** Whether the other layers leave the hash of the blocks alone that nodes of
    the context hold.  What needs it is stated under it: that the links
    between nodes agree on hashes, and so that no child is missing. *)
Class HashesKept : Type := hashes_kept : Prop.
Definition hashes_stable : HashesKept := True.
Definition hashes_any : HashesKept := False.

Section Invariant.
Context `{HK : HashesKept}.

(** Node [q] is one height below node [n] and its block the predecessor. *)
Definition below (s : xstate) (q n : ptr) : Prop :=
  exists c b, blk s q = Some c /\ blk s n = Some b /\ get_height b = get_height c + 1 /\
    (hashes_kept -> get_last_block_hash b = get_block_hash c).

Record xinv (s : xstate) : Prop := {
  xi_height : forall p b, block_at p s = Some b -> 0 <= get_height b;
  xi_commit : forall p, x_latest_commit_block (cs_st s) = Some p -> allocated s p;
  xi_lock : forall p, x_latest_lock_block (cs_st s) = Some p -> allocated s p;
  xi_both : x_latest_commit_block (cs_st s) <> None -> x_latest_lock_block (cs_st s) <> None;
  xi_fresh : forall n, is_Some (x_nodes (cs_st s) !! n) -> (n < x_next (cs_st s))%positive;
  xi_block : forall n x, x_nodes (cs_st s) !! n = Some x -> allocated s (n_block x);
  xi_parent : forall n x q, x_nodes (cs_st s) !! n = Some x -> n_parent x = Some q -> below s q n;
  xi_child : forall n x c, x_nodes (cs_st s) !! n = Some x -> n_child x = Some c -> is_Some (x_nodes (cs_st s) !! c);
  xi_sorted : key_sorted (m_hash_pool (cs_st s));
  xi_pool : forall h n, (h, n) ∈ m_hash_pool (cs_st s) ->
    exists x, x_nodes (cs_st s) !! n = Some x /\ n_flags x <> 0;
  xi_views : forall v, v ∈ m_view_pool (cs_st s) <->
    exists h n b, (h, n) ∈ m_hash_pool (cs_st s) /\ blk s n = Some b /\ get_viewid b = v;
  xi_inj : forall h n b h' n' b', (h, n) ∈ m_hash_pool (cs_st s) -> (h', n') ∈ m_hash_pool (cs_st s) ->
    blk s n = Some b -> blk s n' = Some b' -> get_viewid b = get_viewid b' -> (h, n) = (h', n');
}.

(** Blocks keep their identity, nodes their block; nothing is retracted. *)
Record xfwd (s s' : xstate) : Prop := {
  xf_blocks : forall p, option_Forall2 same_blk (block_at p s) (block_at p s');
  xf_world : cs_world s' = with_blocks (cs_world s) (w_blocks (cs_world s'));
  xf_nodes : forall n x, x_nodes (cs_st s) !! n = Some x ->
    exists x', x_nodes (cs_st s') !! n = Some x' /\ n_block x' = n_block x;
  xf_commit : forall b, commit_of s = Some b -> exists b', commit_of s' = Some b' /\ pos_le b b';
  xf_lock : forall b, ctx_lock_of s = Some b -> exists b', ctx_lock_of s' = Some b' /\ pos_le b b';
  xf_self : cs_self s' = cs_self s;
  xf_up : cs_parent s' = cs_parent s;
  xf_down : x_child (cs_st s') = x_child (cs_st s);
  xf_out : cs_out s `prefix_of` cs_out s';
}.

Lemma pos_le_same_id b b' : same_blk b b' -> pos_le b b'.
Proof. intros [[[E1 E2] _] _]. left. unfold get_height. by rewrite E1, E2. Qed.
Lemma same_id_height b b' : same_blk b b' -> get_height b' = get_height b.
Proof. intros [[[E _] _] _]. unfold get_height. by rewrite E. Qed.
Lemma same_id_view b b' : same_blk b b' -> get_viewid b' = get_viewid b.
Proof. by intros [[[_ E] _] _]. Qed.
Lemma same_id_hash b b' : same_blk b b' -> get_last_block_hash b' = get_last_block_hash b.
Proof. intros [[[E _] _] _]. unfold get_last_block_hash. by rewrite E. Qed.

#[export] Instance xfwd_preorder : PreOrder xfwd.
Proof.
  split.
  - intros s. split; try done; try (by eexists). by destruct s as [[] ? ? ? ?].
  - intros s1 s2 s3 H1 H2. split.
    + intros p. by etrans; [apply (xf_blocks _ _ H1)|apply (xf_blocks _ _ H2)].
    + rewrite (xf_world _ _ H2), (xf_world _ _ H1). done.
    + intros n x Hx. destruct (xf_nodes _ _ H1 n x Hx) as (x1 & Hx1 & E1).
      destruct (xf_nodes _ _ H2 n x1 Hx1) as (x2 & Hx2 & E2). exists x2. split; [done|congruence].
    + intros b Hb. destruct (xf_commit _ _ H1 b Hb) as (b1 & Hb1 & L1).
      destruct (xf_commit _ _ H2 b1 Hb1) as (b2 & Hb2 & L2). exists b2. split; [done|by etrans].
    + intros b Hb. destruct (xf_lock _ _ H1 b Hb) as (b1 & Hb1 & L1).
      destruct (xf_lock _ _ H2 b1 Hb1) as (b2 & Hb2 & L2). exists b2. split; [done|by etrans].
    + by rewrite (xf_self _ _ H2), (xf_self _ _ H1).
    + by rewrite (xf_up _ _ H2), (xf_up _ _ H1).
    + by rewrite (xf_down _ _ H2), (xf_down _ _ H1).
    + by etrans; [apply (xf_out _ _ H1)|apply (xf_out _ _ H2)].
Qed.

Lemma xfwd_block s s' p b :
  xfwd s s' -> block_at p s = Some b -> exists b', block_at p s' = Some b' /\ same_blk b b'.
Proof.
  intros Hf Hb. pose proof (xf_blocks _ _ Hf p) as Hp. rewrite Hb in Hp. inversion Hp; subst. eauto.
Qed.
Lemma xfwd_block_inv s s' p b :
  xfwd s s' -> block_at p s' = Some b -> exists b', block_at p s = Some b' /\ same_blk b' b.
Proof.
  intros Hf Hb. pose proof (xf_blocks _ _ Hf p) as Hp. rewrite Hb in Hp. inversion Hp; subst. eauto.
Qed.
Lemma xfwd_alloc s s' p : xfwd s s' -> allocated s p -> allocated s' p.
Proof. intros Hf [b Hb]. destruct (xfwd_block _ _ _ _ Hf Hb) as (b' & Hb' & _). by exists b'. Qed.
Lemma xfwd_known s s' n : xfwd s s' -> is_Some (x_nodes (cs_st s) !! n) -> is_Some (x_nodes (cs_st s') !! n).
Proof. intros Hf [x Hx]. destruct (xf_nodes _ _ Hf n x Hx) as (x' & Hx' & _). by exists x'. Qed.
Lemma xfwd_blk s s' n b :
  xfwd s s' -> blk s n = Some b -> exists b', blk s' n = Some b' /\ same_blk b b'.
Proof.
  unfold blk. intros Hf Hb. destruct (x_nodes (cs_st s) !! n) as [x|] eqn:Hx; [|done].
  destruct (xf_nodes _ _ Hf n x Hx) as (x' & -> & E). cbn in *. rewrite E. by eapply xfwd_block.
Qed.
Lemma below_fwd s s' q n : xfwd s s' -> below s q n -> below s' q n.
Proof.
  intros Hf (c & b & Hc & Hb & E & Eh).
  destruct (xfwd_blk _ _ _ _ Hf Hc) as (c' & Hc' & Ic), (xfwd_blk _ _ _ _ Hf Hb) as (b' & Hb' & Ib).
  exists c', b'. rewrite (same_id_height _ _ Ic), (same_id_height _ _ Ib), (same_id_hash _ _ Ib). destruct Ic as [_ ->]. done.
Qed.

(** ** Programs that keep the invariant *)

Definition XSafe {A} (m : XP A) (s : xstate) (Q : A -> xstate -> Prop) : Prop :=
  Keeps (u := ~ hashes_kept) xinv xfwd m s Q.

Lemma XSafe_bind {A B} (m : XP A) (k : A -> XP B) s P Q :
  XSafe m s P -> (forall a s1, xinv s1 -> xfwd s s1 -> P a s1 -> XSafe (k a) s1 Q) -> XSafe (bind m k) s Q.
Proof. apply Keeps_bind; apply _. Qed.
Lemma XSafe_mono {A} (m : XP A) s (P Q : A -> xstate -> Prop) :
  XSafe m s P -> (forall a s', xinv s' -> xfwd s s' -> P a s' -> Q a s') -> XSafe m s Q.
Proof. apply Keeps_mono. Qed.
Lemma XSafe_reads {A} (m : XP A) a s (Q : A -> xstate -> Prop) : xinv s -> reads m a s -> Q a s -> XSafe m s Q.
Proof. apply Keeps_reads; apply _. Qed.
Lemma XSafe_ret {A} (a : A) s (Q : A -> xstate -> Prop) : xinv s -> Q a s -> XSafe (ret a) s Q.
Proof. apply Keeps_ret; apply _. Qed.
Lemma XSafe_defined {A} (m : XP A) s (Q : A -> xstate -> Prop) :
  hashes_kept -> XSafe m s Q -> exists a s', m s = Some (a, s') /\ xinv s' /\ xfwd s s' /\ Q a s'.
Proof. intros Hk. apply Keeps_defined. tauto. Qed.
Lemma XSafe_run {A} (m : XP A) s a s' (Q : A -> xstate -> Prop) :
  m s = Some (a, s') -> XSafe m s Q -> xinv s' /\ xfwd s s' /\ Q a s'.
Proof. intros E Hm. exact (wpu_elim _ _ _ _ _ _ Hm E). Qed.
Lemma XSafe_ub {A} s (Q : A -> xstate -> Prop) : ~ hashes_kept -> XSafe ub s Q.
Proof. done. Qed.
Lemma XSafe_read_bind {A B} (m : XP A) (k : A -> XP B) a s Q :
  reads m a s -> XSafe (k a) s Q -> XSafe (bind m k) s Q.
Proof. apply Keeps_read_bind. Qed.
Lemma XSafe_from {A} (m k : XP A) s s' (Q : A -> xstate -> Prop) :
  xfwd s s' -> m s = k s' -> XSafe k s' Q -> XSafe m s Q.
Proof. apply Keeps_from; apply _. Qed.
Lemma XSafe_assoc {A B C} (m : XP A) (k : A -> XP B) (k' : B -> XP C) s Q :
  XSafe (bind (bind m k) k') s Q -> XSafe (bind m (fun a => bind (k a) k')) s Q.
Proof. apply Keeps_assoc. Qed.

Lemma node_deref_reads n x (s : xstate) : x_nodes (cs_st s) !! n = Some x -> reads (node_deref n) x s.
Proof. unfold reads, node_deref. by intros ->. Qed.
Lemma xderef_reads p b (s : xstate) : block_at p s = Some b -> reads (deref p) b s.
Proof. unfold reads, deref. by intros ->. Qed.
Lemma node_block_reads n b s : blk s n = Some b -> reads (node_block n) b s.
Proof.
  unfold blk, reads, node_block, bind, node_deref. destruct (x_nodes (cs_st s) !! n); [|done].
  cbn. intros Hb. unfold deref. by rewrite Hb.
Qed.
Lemma xst_get_reads {A} (f : xBFTcontext -> A) (s : xstate) : reads (st_get f) (f (cs_st s)) s.
Proof. done. Qed.
Lemma known_blk s n : xinv s -> is_Some (x_nodes (cs_st s) !! n) -> exists b, blk s n = Some b.
Proof.
  intros Hi [x Hx]. destruct (xi_block _ Hi n x Hx) as [b Hb]. exists b. unfold blk. by rewrite Hx.
Qed.
Lemma pool_blk s h n : xinv s -> (h, n) ∈ m_hash_pool (cs_st s) -> exists b, blk s n = Some b.
Proof. intros Hi Hin. destruct (xi_pool _ Hi h n Hin) as (x & Hx & _). apply known_blk; [done|by exists x]. Qed.

(** ** Steps that change blocks and nodes in place *)

Definition node_kept (x x' : vbnode) : Prop := n_block x' = n_block x /\ (n_flags x' = 0 <-> n_flags x = 0).

Record quiet_step (s s' : xstate) : Prop := {
  qs_blocks : forall p, option_Forall2 same_blk (block_at p s) (block_at p s');
  qs_world : cs_world s' = with_blocks (cs_world s) (w_blocks (cs_world s'));
  qs_nodes : forall n, option_Forall2 node_kept (x_nodes (cs_st s) !! n) (x_nodes (cs_st s') !! n);
  qs_parent : forall n x q, x_nodes (cs_st s') !! n = Some x -> n_parent x = Some q -> below s q n;
  qs_child : forall n x c, x_nodes (cs_st s') !! n = Some x -> n_child x = Some c -> is_Some (x_nodes (cs_st s) !! c);
  qs_pool : m_hash_pool (cs_st s') = m_hash_pool (cs_st s);
  qs_views : m_view_pool (cs_st s') = m_view_pool (cs_st s);
  qs_next : x_next (cs_st s') = x_next (cs_st s);
  qs_down : x_child (cs_st s') = x_child (cs_st s);
  qs_commit : forall p, x_latest_commit_block (cs_st s') = Some p -> allocated s p;
  qs_lock : forall p, x_latest_lock_block (cs_st s') = Some p -> allocated s p;
  qs_both : x_latest_commit_block (cs_st s') <> None -> x_latest_lock_block (cs_st s') <> None;
  qs_commit_le : forall b, commit_of s = Some b ->
    exists p b', x_latest_commit_block (cs_st s') = Some p /\ block_at p s = Some b' /\ pos_le b b';
  qs_lock_le : forall b, ctx_lock_of s = Some b ->
    exists p b', x_latest_lock_block (cs_st s') = Some p /\ block_at p s = Some b' /\ pos_le b b';
  qs_self : cs_self s' = cs_self s;
  qs_up : cs_parent s' = cs_parent s;
  qs_out : cs_out s `prefix_of` cs_out s';
}.

Lemma option_Forall2_Some_l {A B} (R : A -> B -> Prop) o o' a :
  option_Forall2 R o o' -> o = Some a -> exists b, o' = Some b /\ R a b.
Proof. intros [] [= <-]; eauto. Qed.
Lemma option_Forall2_Some_r {A B} (R : A -> B -> Prop) o o' b :
  option_Forall2 R o o' -> o' = Some b -> exists a, o = Some a /\ R a b.
Proof. intros [] [= <-]; eauto. Qed.

Lemma quiet_fwd s s' : quiet_step s s' -> xfwd s s'.
Proof.
  intros Hq. split; try apply Hq.
  - intros n x Hx. destruct (option_Forall2_Some_l _ _ _ _ (qs_nodes _ _ Hq n) Hx) as (x' & Hx' & E & _). eauto.
  - intros b Hb. destruct (qs_commit_le _ _ Hq b Hb) as (p & b1 & Hp & Hb1 & Hle).
    destruct (option_Forall2_Some_l _ _ _ _ (qs_blocks _ _ Hq p) Hb1) as (b2 & Hb2 & Hid).
    exists b2. unfold commit_of. rewrite Hp. split; [done|]. etrans; [exact Hle|by apply pos_le_same_id].
  - intros b Hb. destruct (qs_lock_le _ _ Hq b Hb) as (p & b1 & Hp & Hb1 & Hle).
    destruct (option_Forall2_Some_l _ _ _ _ (qs_blocks _ _ Hq p) Hb1) as (b2 & Hb2 & Hid).
    exists b2. unfold ctx_lock_of. rewrite Hp. split; [done|]. etrans; [exact Hle|by apply pos_le_same_id].
Qed.

Lemma quiet_blk_inv s s' n b : quiet_step s s' -> blk s' n = Some b -> exists b0, blk s n = Some b0 /\ same_blk b0 b.
Proof.
  intros Hq. unfold blk. destruct (x_nodes (cs_st s') !! n) as [x'|] eqn:Hx'; [|done].
  destruct (option_Forall2_Some_r _ _ _ _ (qs_nodes _ _ Hq n) Hx') as (x & -> & E & _). cbn. rewrite E.
  intros Hb. by apply (option_Forall2_Some_r _ _ _ _ (qs_blocks _ _ Hq (n_block x))).
Qed.

Lemma quiet_inv s s' : xinv s -> quiet_step s s' -> xinv s'.
Proof.
  intros Hi Hq. pose proof (quiet_fwd _ _ Hq) as Hf. split.
  - intros p b Hb. destruct (xfwd_block_inv _ _ _ _ Hf Hb) as (b0 & Hb0 & Hid).
    rewrite (same_id_height _ _ Hid). by eapply xi_height.
  - intros p Hp. eapply xfwd_alloc; [exact Hf|]. by eapply qs_commit.
  - intros p Hp. eapply xfwd_alloc; [exact Hf|]. by eapply qs_lock.
  - apply Hq.
  - intros n [x' Hx']. rewrite (qs_next _ _ Hq). apply (xi_fresh _ Hi).
    destruct (option_Forall2_Some_r _ _ _ _ (qs_nodes _ _ Hq n) Hx') as (x & Hx & _). by exists x.
  - intros n x' Hx'. destruct (option_Forall2_Some_r _ _ _ _ (qs_nodes _ _ Hq n) Hx') as (x & Hx & E & _).
    rewrite E. eapply xfwd_alloc; [exact Hf|]. by eapply xi_block.
  - intros n x q Hx Hp. eapply below_fwd; [exact Hf|]. by eapply qs_parent.
  - intros n x c Hx Hc. eapply xfwd_known; [exact Hf|]. by eapply qs_child.
  - rewrite (qs_pool _ _ Hq). apply Hi.
  - intros h n. rewrite (qs_pool _ _ Hq). intros Hin. destruct (xi_pool _ Hi h n Hin) as (x & Hx & Hfl).
    destruct (option_Forall2_Some_l _ _ _ _ (qs_nodes _ _ Hq n) Hx) as (x' & Hx' & _ & E).
    exists x'. split; [done|]. by rewrite E.
  - intros v. rewrite (qs_pool _ _ Hq), (qs_views _ _ Hq), (xi_views _ Hi). split.
    + intros (h & n & b & Hin & Hb & <-). destruct (xfwd_blk _ _ _ _ Hf Hb) as (b' & Hb' & Hid).
      exists h, n, b'. split_and!; try done. by apply same_id_view.
    + intros (h & n & b' & Hin & Hb' & <-). destruct (quiet_blk_inv _ _ _ _ Hq Hb') as (b & Hb & Hid).
      exists h, n, b. split_and!; try done. symmetry. by apply same_id_view.
  - intros h n b h' n' b'. rewrite (qs_pool _ _ Hq). intros Hin Hin' Hb Hb' E.
    destruct (quiet_blk_inv _ _ _ _ Hq Hb) as (b0 & Hb0 & Hid), (quiet_blk_inv _ _ _ _ Hq Hb') as (b0' & Hb0' & Hid').
    eapply (xi_inj _ Hi); try done. by rewrite <- (same_id_view _ _ Hid), <- (same_id_view _ _ Hid').
Qed.

Lemma XSafe_quiet {A} (m : XP A) a s s' (Q : A -> xstate -> Prop) :
  xinv s -> m s = Some (a, s') -> quiet_step s s' -> Q a s' -> XSafe m s Q.
Proof.
  intros Hi E Hq HQ. unfold XSafe, Keeps, wpu. rewrite E. split_and!; [by eapply quiet_inv|by apply quiet_fwd|done].
Qed.
End Invariant.
