(* ===== verification/CertFacts.v ===== *)
(** * The operations of the context layer: what each one does *)

From stdpp Require Import prelude gmap strings.
From Stdlib Require Import ZArith Lia Sorting.Sorted Sorting.Permutation.
From S2P Require Import Prelude Stream StdMap VBlock Pdu Proposal BFTState Rules RulesFacts CertContext CertInv.

(** ** Marking blocks

    [marks s s' C L]: of the blocks' flags exactly the committed flag of the
    blocks in [C] and the locked flag of the blocks in [L] were added, and
    the forest of nodes kept its shape. *)

Definition node_same (x x' : vbnode) : Prop :=
  n_block x' = n_block x /\ n_parent x' = n_parent x /\ (n_flags x' = 0 <-> n_flags x = 0) /\
  (n_child x <> None -> n_child x' <> None).

#[export] Instance node_same_refl : Reflexive node_same.
Proof. done. Qed.
#[export] Instance node_kept_refl : Reflexive node_kept.
Proof. done. Qed.

Section Marks.
Context `{XVBlock}.

Definition marked (c l : Prop) (b b' : xvblock) : Prop :=
  same_blk b b' /\
  (check_block_flag b' enum_xvblock_flag_committed = true <->
     check_block_flag b enum_xvblock_flag_committed = true \/ c) /\
  (check_block_flag b' enum_xvblock_flag_locked = true <->
     check_block_flag b enum_xvblock_flag_locked = true \/ l).

Record marks (s s' : xstate) (C L : ptr -> Prop) : Prop := {
  mk_blocks : forall p, option_Forall2 (marked (C p) (L p)) (block_at p s) (block_at p s');
  mk_nodes : forall n, option_Forall2 node_same (x_nodes (cs_st s) !! n) (x_nodes (cs_st s') !! n);
  mk_pool : m_hash_pool (cs_st s') = m_hash_pool (cs_st s);
  mk_views : m_view_pool (cs_st s') = m_view_pool (cs_st s);
  mk_out : cs_out s' = cs_out s;
}.

Definition none : ptr -> Prop := fun _ => False.
Definition only (p : ptr) : ptr -> Prop := fun q => q = p.

Lemma marked_ext (c l c' l' : Prop) b b' : (c <-> c') -> (l <-> l') -> marked c l b b' -> marked c' l' b b'.
Proof. intros Hc Hl (H1 & H2 & H3). unfold marked. by rewrite <- Hc, <- Hl. Qed.
Lemma marked_refl b : marked False False b b.
Proof. split_and!; [done|tauto..]. Qed.
Lemma marked_trans c1 l1 c2 l2 b1 b2 b3 :
  marked c1 l1 b1 b2 -> marked c2 l2 b2 b3 -> marked (c1 \/ c2) (l1 \/ l2) b1 b3.
Proof. intros (? & E1 & E2) (? & E3 & E4). split_and!; [by etrans|rewrite E3, E1; tauto|rewrite E4, E2; tauto]. Qed.

Lemma marks_ext s s' C L C' L' :
  (forall p, C p <-> C' p) -> (forall p, L p <-> L' p) -> marks s s' C L -> marks s s' C' L'.
Proof.
  intros HC HL [Hb ? ? ? ?]. split; try done. intros p.
  destruct (Hb p); constructor. eapply marked_ext; [apply HC|apply HL|done].
Qed.
Lemma marks_refl s : marks s s none none.
Proof.
  split; try done. intros p. destruct (block_at p s); constructor. apply marked_refl.
Qed.
Lemma marks_trans s1 s2 s3 C1 L1 C2 L2 :
  marks s1 s2 C1 L1 -> marks s2 s3 C2 L2 ->
  marks s1 s3 (fun p => C1 p \/ C2 p) (fun p => L1 p \/ L2 p).
Proof.
  intros [Hb1 Hn1 E1 E2 E3] [Hb2 Hn2 E4 E5 E6]. split; [| |congruence..].
  - intros p. specialize (Hb1 p). specialize (Hb2 p). destruct Hb1; inversion Hb2; subst; constructor.
    by eapply marked_trans.
  - intros n. specialize (Hn1 n). specialize (Hn2 n).
    destruct Hn1 as [x y (Ea & Eb & Ec & Ed)|]; inversion Hn2 as [? z (Ea' & Eb' & Ec' & Ed')|]; subst; constructor.
    split_and!; [congruence..|by rewrite Ec', Ec|auto].
Qed.

Lemma marks_after s1 s2 s3 C L : marks s1 s2 C L -> marks s2 s3 none none -> marks s1 s3 C L.
Proof. intros H1 H2. eapply marks_ext; [| |exact (marks_trans _ _ _ _ _ _ _ H1 H2)]; unfold none; tauto. Qed.

(** ** Ancestors in the pool *)

(** [m] is reached from [o] along parents that are all in the pool. *)
Inductive live_anc (s : xstate) : option ptr -> ptr -> Prop :=
  | la_here n x : x_nodes (cs_st s) !! n = Some x -> n_flags x <> 0 -> live_anc s (Some n) n
  | la_up n x m : x_nodes (cs_st s) !! n = Some x -> n_flags x <> 0 ->
      live_anc s (n_parent x) m -> live_anc s (Some n) m.

(** The blocks of these nodes. *)
Definition anc_blocks (s : xstate) (o : option ptr) (p : ptr) : Prop :=
  exists m x, live_anc s o m /\ x_nodes (cs_st s) !! m = Some x /\ n_block x = p.

Lemma live_anc_marks s s' C L o m : marks s s' C L -> live_anc s o m -> live_anc s' o m.
Proof.
  intros Hm. induction 1 as [n x Hx Hf|n x m Hx Hf _ IH];
    destruct (option_Forall2_Some_l _ _ _ _ (mk_nodes _ _ _ _ Hm n) Hx) as (x' & Hx' & _ & Ep & Ef & _).
  - eapply la_here; [done|]. by rewrite Ef.
  - eapply la_up; [done|by rewrite Ef|]. by rewrite Ep.
Qed.
Lemma live_anc_unmarks s s' C L o m : marks s s' C L -> live_anc s' o m -> live_anc s o m.
Proof.
  intros Hm. induction 1 as [n x' Hx Hf|n x' m Hx Hf _ IH];
    destruct (option_Forall2_Some_r _ _ _ _ (mk_nodes _ _ _ _ Hm n) Hx) as (x & Hx' & _ & Ep & Ef & _).
  - eapply la_here; [done|]. by rewrite <- Ef.
  - eapply la_up; [done|by rewrite <- Ef|]. by rewrite <- Ep.
Qed.
Lemma anc_blocks_marks s s' C L o p : marks s s' C L -> anc_blocks s' o p <-> anc_blocks s o p.
Proof.
  intros Hm. split; intros (m & x & Ha & Hx & E).
  - destruct (option_Forall2_Some_r _ _ _ _ (mk_nodes _ _ _ _ Hm m) Hx) as (x' & Hx' & Eb & _).
    exists m, x'. split_and!; [by eapply live_anc_unmarks|done|congruence].
  - destruct (option_Forall2_Some_l _ _ _ _ (mk_nodes _ _ _ _ Hm m) Hx) as (x' & Hx' & Eb & _).
    exists m, x'. split_and!; [by eapply live_anc_marks|done|congruence].
Qed.
End Marks.

Section Execute.
Context `{HL : XVBlockLaws} `{HN : XVBNodeLaws} `{HK : HashesKept}.

(** ** Single steps *)

Lemma store_block_at p q b (s : xstate) :
  block_at q (upd_world (fun w => with_blocks w (<[p := b]> (w_blocks w))) s) =
  if decide (p = q) then Some b else block_at q s.
Proof. unfold block_at. cbn. by rewrite lookup_insert. Qed.

Lemma store_quiet p b b' s :
  xinv s -> block_at p s = Some b -> same_blk b b' ->
  quiet_step s (upd_world (fun w => with_blocks w (<[p := b']> (w_blocks w))) s).
Proof.
  intros Hi Hb Hid. split; try done; try apply Hi.
  - intros q. rewrite store_block_at. case_decide as E; [subst q; rewrite Hb; by constructor|].
    destruct (block_at q s); by constructor.
  - intros b0 Hb0. unfold commit_of in Hb0. destruct (x_latest_commit_block (cs_st s)) as [q|] eqn:E; [|done]. exists q, b0. by split_and!.
  - intros b0 Hb0. unfold ctx_lock_of in Hb0. destruct (x_latest_lock_block (cs_st s)) as [q|] eqn:E; [|done]. exists q, b0. by split_and!.
Qed.

(** Changing a block in place: the change [f] adds the flags [c] and [l]. *)
Lemma XSafe_update_block p f c l s :
  xinv s -> allocated s p -> (forall b, marked c l b (f b)) ->
  XSafe (update_block p f) s (fun _ s' => marks s s' (fun q => q = p /\ c) (fun q => q = p /\ l)).
Proof.
  intros Hi [b Hb] Hf. eapply XSafe_quiet; [done| |by eapply store_quiet; [|exact Hb|apply Hf]|].
  - unfold update_block, bind, deref. by rewrite Hb.
  - split; try done. intros q. rewrite store_block_at. case_decide as E.
    + subst q. rewrite Hb. constructor. eapply marked_ext; [| |apply Hf]; tauto.
    + destruct (block_at q s); constructor. eapply marked_ext; [| |apply marked_refl]; intuition congruence.
Qed.

Lemma marked_lock b : marked False True b (set_block_flag b enum_xvblock_flag_locked).
Proof.
  split_and!; [split; [apply set_flag_id|apply set_mark_hash; by left]|rewrite check_set_flag_other by done; tauto|].
  rewrite check_set_flag by done. tauto.
Qed.
Lemma marked_commit b : marked True False b (set_block_flag b enum_xvblock_flag_committed).
Proof.
  split_and!; [split; [apply set_flag_id|apply set_mark_hash; by right]| |rewrite check_set_flag_other by done; tauto].
  rewrite check_set_flag by done. tauto.
Qed.
Lemma marked_nnc b c : marked False False b (set_next_next_cert b c).
Proof. split_and!; [split; [apply set_nnc_id|apply set_nnc_hash]|rewrite check_set_nnc; tauto..]. Qed.

(** Changing a node in place. *)
Lemma nodes_quiet n x x' s :
  xinv s -> x_nodes (cs_st s) !! n = Some x -> node_kept x x' ->
  (forall q, n_parent x' = Some q -> below s q n) ->
  (forall c, n_child x' = Some c -> is_Some (x_nodes (cs_st s) !! c)) ->
  quiet_step s (upd_st (fun c => set_nodes (<[n := x']> (x_nodes c)) c) s).
Proof.
  intros Hi Hx Hk Hp Hc. split; try done; try apply Hi.
  - by destruct s as [[] ? ? ? ?].
  - intros m. cbn. destruct (decide (n = m)) as [<-|Hne].
    + rewrite lookup_insert_eq, Hx. by constructor.
    + rewrite lookup_insert_ne by done. by destruct (x_nodes (cs_st s) !! m); constructor.
  - intros m y q. cbn. intros [[<- <-]|[_ Hy]]%lookup_insert_Some; [apply Hp|]. by eapply (xi_parent _ Hi).
  - intros m y q. cbn. intros [[<- <-]|[_ Hy]]%lookup_insert_Some; [apply Hc|]. by eapply (xi_child _ Hi).
  - intros b0 Hb0. unfold commit_of in Hb0. destruct (x_latest_commit_block (cs_st s)) as [q|] eqn:E; [|done]. exists q, b0. by split_and!.
  - intros b0 Hb0. unfold ctx_lock_of in Hb0. destruct (x_latest_lock_block (cs_st s)) as [q|] eqn:E; [|done]. exists q, b0. by split_and!.
Qed.

Lemma XSafe_node_update n x f s :
  xinv s -> x_nodes (cs_st s) !! n = Some x -> node_kept x (f x) ->
  (forall q, n_parent (f x) = Some q -> below s q n) ->
  (forall c, n_child (f x) = Some c -> is_Some (x_nodes (cs_st s) !! c)) ->
  XSafe (node_update n f) s (fun _ s' => s' = upd_st (fun c => set_nodes (<[n := f x]> (x_nodes c)) c) s).
Proof.
  intros Hi Hx Hk Hp Hc. eapply XSafe_quiet; [done| |by eapply nodes_quiet|done].
  unfold node_update, bind. by rewrite (node_deref_reads _ _ _ Hx).
Qed.

(** ... keeping its parent. *)
Lemma XSafe_node_mark n x f s :
  xinv s -> x_nodes (cs_st s) !! n = Some x -> node_same x (f x) ->
  (forall c, n_child (f x) = Some c -> is_Some (x_nodes (cs_st s) !! c)) ->
  XSafe (node_update n f) s (fun _ s' => marks s s' none none /\ x_nodes (cs_st s') !! n = Some (f x)).
Proof.
  intros Hi Hx (E1 & E2 & E3 & E4) Hc. eapply XSafe_mono; [eapply XSafe_node_update; try done|].
  - intros q. rewrite E2. by eapply (xi_parent _ Hi).
  - intros [] s' _ _ ->. split; [|cbn; by rewrite lookup_insert_eq]. split; try done.
    + intros p. destruct (block_at p s) eqn:E; unfold block_at in *; cbn; rewrite E; constructor. apply marked_refl.
    + intros m. cbn. destruct (decide (n = m)) as [<-|Hne].
      * rewrite lookup_insert_eq, Hx. by constructor.
      * rewrite lookup_insert_ne by done. by destruct (x_nodes (cs_st s) !! m); constructor.
Qed.

Lemma lor_zero a b : Z.lor a b = 0 <-> a = 0 /\ b = 0.
Proof. apply Z.lor_eq_0_iff. Qed.
Lemma set_obj_flag_same x flag : n_flags x <> 0 -> node_same x (set_obj_flag flag x).
Proof. intros Hf. split_and!; try done. cbn. rewrite lor_zero. naive_solver. Qed.

(** Marks do not change who is whose parent, so facts on nodes survive. *)
Lemma marks_node s s' C L n x :
  marks s s' C L -> x_nodes (cs_st s) !! n = Some x -> exists x', x_nodes (cs_st s') !! n = Some x' /\ node_same x x'.
Proof. intros Hm. apply (option_Forall2_Some_l _ _ _ _ (mk_nodes _ _ _ _ Hm n)). Qed.

Lemma XSafe_reset_child n c s :
  xinv s -> below s n c ->
  XSafe (reset_child n c) s (fun _ s' => marks s s' none none /\
    exists x, x_nodes (cs_st s') !! n = Some x /\ (hashes_kept -> n_child x = Some c)).
Proof.
  intros Hi (nb & cb & Hn & Hc & Eh & Elink). unfold reset_child.
  eapply XSafe_read_bind; [by apply node_block_reads|]. eapply XSafe_read_bind; [by apply node_block_reads|].
  unfold blk in Hn. destruct (x_nodes (cs_st s) !! n) as [x|] eqn:Hx; [|done].
  destruct (reset_child_ok nb cb) eqn:Er.
  2: { apply XSafe_ret; [done|]. split; [apply marks_refl|]. exists x. split; [done|]. intros Hk.
       by rewrite reset_child_rule in Er by (split; auto). }
  eapply XSafe_mono; [eapply XSafe_node_mark; try done|].
  - intros c' [= <-]. unfold blk in Hc. destruct (x_nodes (cs_st s) !! c); [by eexists|done].
  - intros [] s' _ _ [Hm Hx']. split; [done|]. eexists. split; [exact Hx'|done].
Qed.

(** [live] as a function of the state. *)
Definition live_of (s : xstate) (o : option ptr) : option ptr :=
  n ← o; x ← x_nodes (cs_st s) !! n; if n_flags x =? 0 then None else Some n.

Lemma live_reads s o :
  (forall m, o = Some m -> is_Some (x_nodes (cs_st s) !! m)) -> reads (live o) (live_of s o) s.
Proof.
  intros Ho. destruct o as [m|]; [|done]. destruct (Ho m eq_refl) as [x Hx].
  unfold live, live_of, reads, bind. cbn. by rewrite (node_deref_reads _ _ _ Hx), Hx.
Qed.
Lemma live_of_Some s o n :
  live_of s o = Some n -> o = Some n /\ exists x, x_nodes (cs_st s) !! n = Some x /\ n_flags x <> 0.
Proof.
  unfold live_of. destruct o as [m|]; [|done]. cbn. destruct (x_nodes (cs_st s) !! m) as [x|] eqn:Hx; [|done]. cbn.
  destruct (Z.eqb_spec (n_flags x) 0); [done|]. intros [= <-]. eauto.
Qed.
Lemma live_of_live s n x : x_nodes (cs_st s) !! n = Some x -> n_flags x <> 0 -> live_of s (Some n) = Some n.
Proof. intros Hx Hf. unfold live_of. cbn. rewrite Hx. cbn. by destruct (Z.eqb_spec (n_flags x) 0). Qed.
Lemma anc_blocks_None s o p : live_of s o = None -> ~ anc_blocks s o p.
Proof.
  intros E (m & x & Ha & _ & _). destruct Ha as [n y Hy Hf|n y m Hy Hf _]; by rewrite (live_of_live s n y) in E.
Qed.
Lemma anc_blocks_Some s n x p :
  x_nodes (cs_st s) !! n = Some x -> n_flags x <> 0 ->
  anc_blocks s (Some n) p <-> p = n_block x \/ anc_blocks s (n_parent x) p.
Proof.
  intros Hx Hf. split.
  - intros (m & y & Ha & Hy & <-). inversion Ha as [? y' Hy'|? y' ? Hy' _ Hup]; subst.
    + left. congruence.
    + right. exists m, y. split_and!; try done. congruence.
  - intros [->|(m & y & Ha & Hy & <-)].
    + exists n, x. split_and!; try done. by eapply la_here.
    + exists m, y. split_and!; try done. by eapply la_up.
Qed.

Lemma below_known s q n : below s q n -> is_Some (x_nodes (cs_st s) !! q) /\ is_Some (x_nodes (cs_st s) !! n).
Proof.
  intros (c & b & Hc & Hb & _). unfold blk in *.
  destruct (x_nodes (cs_st s) !! q), (x_nodes (cs_st s) !! n); done.
Qed.

(** ** The lock and the commit *)

Lemma ptr_quiet f s :
  xinv s -> m_hash_pool (f (cs_st s)) = m_hash_pool (cs_st s) -> m_view_pool (f (cs_st s)) = m_view_pool (cs_st s) ->
  x_nodes (f (cs_st s)) = x_nodes (cs_st s) -> x_next (f (cs_st s)) = x_next (cs_st s) ->
  x_child (f (cs_st s)) = x_child (cs_st s) ->
  (forall p, x_latest_commit_block (f (cs_st s)) = Some p -> allocated s p) ->
  (forall p, x_latest_lock_block (f (cs_st s)) = Some p -> allocated s p) ->
  (x_latest_commit_block (f (cs_st s)) <> None -> x_latest_lock_block (f (cs_st s)) <> None) ->
  (forall b, commit_of s = Some b -> exists p b',
     x_latest_commit_block (f (cs_st s)) = Some p /\ block_at p s = Some b' /\ pos_le b b') ->
  (forall b, ctx_lock_of s = Some b -> exists p b',
     x_latest_lock_block (f (cs_st s)) = Some p /\ block_at p s = Some b' /\ pos_le b b') ->
  quiet_step s (upd_st f s) /\ marks s (upd_st f s) none none.
Proof.
  intros Hi E1 E2 E3 E4 E5 Hc Hl Hb Hc' Hl'. split.
  - split; try done; cbn; rewrite ?E3; try apply Hi.
    + by destruct s as [[] ? ? ? ?].
    + intros n. reflexivity.
  - split; try done; cbn; rewrite ?E3.
    + apply (mk_blocks _ _ _ _ (marks_refl s)).
    + intros n. reflexivity.
Qed.

Lemma advances_pos old new : advances old new = true -> pos_le old new.
Proof. unfold advances. rewrite !andb_true_iff, !Z.ltb_lt. intros [[[? ?] _] _]. right. lia. Qed.

(** Replacing the commit or the lock by a block [p] that exists and, where
    there is one already, is above it. *)
Lemma set_lock_quiet p b s :
  xinv s -> block_at p s = Some b -> (forall lb, ctx_lock_of s = Some lb -> pos_le lb b) ->
  quiet_step s (upd_st (set_ctx_lock (Some p)) s) /\ marks s (upd_st (set_ctx_lock (Some p)) s) none none.
Proof.
  intros Hi Hb Hle. apply ptr_quiet; try done; try apply Hi; cbn.
  - intros ? [= <-]. by exists b.
  - intros b0 Hb0. unfold commit_of in Hb0. destruct (x_latest_commit_block (cs_st s)) as [q|] eqn:E; [|done].
    exists q, b0. by split_and!.
  - intros b0 Hb0. exists p, b. split_and!; try done. auto.
Qed.
Lemma set_commit_quiet p b s :
  xinv s -> block_at p s = Some b -> x_latest_lock_block (cs_st s) <> None ->
  (forall cb, commit_of s = Some cb -> pos_le cb b) ->
  quiet_step s (upd_st (set_ctx_commit (Some p)) s) /\ marks s (upd_st (set_ctx_commit (Some p)) s) none none.
Proof.
  intros Hi Hb Hl Hle. apply ptr_quiet; try done; try apply Hi; cbn.
  - intros ? [= <-]. by exists b.
  - intros b0 Hb0. exists p, b. split_and!; try done. auto.
  - intros b0 Hb0. unfold ctx_lock_of in Hb0. destruct (x_latest_lock_block (cs_st s)) as [q|] eqn:E; [|done].
    exists q, b0. by split_and!.
Qed.

Lemma XSafe_set (f : xBFTcontext -> xBFTcontext) (r : bool) s (Q : bool -> xstate -> Prop) :
  xinv s -> quiet_step s (upd_st f s) -> Q r (upd_st f s) -> XSafe (st_mod f ;;; ret r) s Q.
Proof. intros Hi Hq HQ. by eapply XSafe_quiet. Qed.

Lemma XSafe_update_lock o s :
  xinv s -> (forall p, o = Some p -> allocated s p) ->
  XSafe (update_lock_block o) s (fun _ s' => marks s s' none none).
Proof.
  intros Hi Ho. unfold update_lock_block. destruct o as [p|]; [|apply XSafe_ret, marks_refl; done].
  destruct (Ho p eq_refl) as [b Hb]. eapply XSafe_read_bind; [by apply xderef_reads|].
  destruct (_ && _); [apply XSafe_ret, marks_refl; done|].
  eapply XSafe_read_bind; [apply xst_get_reads|]. destruct (x_latest_lock_block (cs_st s)) as [l|] eqn:El.
  - destruct (decide (l = p)); [apply XSafe_ret, marks_refl; done|].
    destruct (xi_lock _ Hi l El) as [lb Hlb]. eapply XSafe_read_bind; [by apply xderef_reads|].
    destruct (advances lb b) eqn:Ha; [|apply XSafe_ret, marks_refl; done].
    destruct (set_lock_quiet p b s) as [Hq Hm]; [done..| |by apply XSafe_set].
    intros lb'. unfold ctx_lock_of. rewrite El. cbn. rewrite Hlb. intros [= <-]. by apply advances_pos.
  - destruct (set_lock_quiet p b s) as [Hq Hm]; [done..| |by apply XSafe_set].
    intros lb'. unfold ctx_lock_of. by rewrite El.
Qed.

(** The first commit also becomes the lock when there is none. *)
Lemma first_commit_runs p b s :
  block_at p s = Some b -> check_block_flag b enum_xvblock_flag_committed = true ->
  x_latest_lock_block (cs_st s) = None ->
  update_lock_block (Some p) (upd_st (set_ctx_commit (Some p)) s) =
    Some (true, upd_st (fun c => set_ctx_lock (Some p) (set_ctx_commit (Some p) c)) s).
Proof.
  intros Hb Hc El. unfold update_lock_block, bind at 1. rewrite (xderef_reads p b) by done.
  rewrite Hc, andb_false_r. unfold bind at 1, st_get, gets. cbn. by rewrite El.
Qed.

Lemma XSafe_update_commit o s :
  xinv s -> (forall p, o = Some p -> allocated s p) ->
  XSafe (update_commit_block o) s (fun _ s' => marks s s' none none).
Proof.
  intros Hi Ho. unfold update_commit_block. destruct o as [p|]; [|apply XSafe_ret, marks_refl; done].
  destruct (Ho p eq_refl) as [b Hb]. eapply XSafe_read_bind; [by apply xderef_reads|].
  destruct (check_block_flag b enum_xvblock_flag_committed) eqn:Hc; [|apply XSafe_ret, marks_refl; done].
  destruct (_ || _); [apply XSafe_ret, marks_refl; done|].
  eapply XSafe_read_bind; [apply xst_get_reads|]. destruct (x_latest_commit_block (cs_st s)) as [l|] eqn:El.
  - destruct (decide (l = p)); [apply XSafe_ret, marks_refl; done|].
    destruct (xi_commit _ Hi l El) as [lb Hlb]. eapply XSafe_read_bind; [by apply xderef_reads|].
    destruct (advances lb b) eqn:Ha; [|apply XSafe_ret, marks_refl; done].
    destruct (set_commit_quiet p b s) as [Hq Hm]; [done..| | |by apply XSafe_set].
    + apply (xi_both _ Hi). by rewrite El.
    + intros lb'. unfold commit_of. rewrite El. cbn. rewrite Hlb. intros [= <-]. by apply advances_pos.
  - assert (Hnc : forall cb, commit_of s = Some cb -> pos_le cb b) by (unfold commit_of; by rewrite El).
    destruct (x_latest_lock_block (cs_st s)) as [q|] eqn:Eq.
    + destruct (set_commit_quiet p b s) as [Hq Hm]; [done..|by rewrite Eq|done|].
      eapply (XSafe_bind _ _ _ (fun _ s' => marks s s' none none)); [by eapply XSafe_quiet|].
      intros [] s1 Hi1 Hf1 Hm1. eapply XSafe_bind; [apply XSafe_update_lock; [done|]|].
      { intros ? [= <-]. eapply xfwd_alloc; [done|]. by exists b. }
      intros r s2 Hi2 Hf2 Hm2. apply XSafe_ret; [done|].
      by eapply marks_after.
    + destruct (ptr_quiet (fun c => set_ctx_lock (Some p) (set_ctx_commit (Some p) c)) s) as [Hq Hm];
        [done|reflexivity..| | |done| | |].
      * intros q [= <-]. by exists b.
      * intros q [= <-]. by exists b.
      * unfold commit_of. by rewrite El.
      * unfold ctx_lock_of. by rewrite Eq.
      * eapply XSafe_quiet; [done| |exact Hq|exact Hm].
        rewrite (bind_runs _ _ tt s (upd_st (set_ctx_commit (Some p)) s)) by done.
        by rewrite (bind_runs _ _ _ _ _ (first_commit_runs p b s Hb Hc Eq)).
Qed.

(** ** The ancestors of a committed node *)

Ltac xread t := eapply XSafe_read_bind; [t|].

Lemma XSafe_commit_ancestors fuel last it s b0 :
  xinv s -> (forall m, it = Some m -> below s m last) ->
  (exists y, x_nodes (cs_st s) !! last = Some y /\ (hashes_kept -> n_child y <> None)) ->
  blk s last = Some b0 -> (Z.to_nat (get_height b0) < fuel)%nat ->
  XSafe (commit_ancestors fuel last it) s (fun _ s' => marks s s' (anc_blocks s it) none).
Proof.
  revert last it s b0. induction fuel as [|fuel IH]; intros last it s b0 Hi Hit (y & Hy & Hch) Hb0 Hfuel; [lia|].
  cbn [commit_ancestors]. xread ltac:(apply live_reads).
  { intros m ->. by destruct (below_known _ _ _ (Hit m eq_refl)). }
  destruct (live_of s it) as [n|] eqn:Elive.
  2: { apply XSafe_ret; [done|]. eapply marks_ext; [| |apply marks_refl]; [|done].
       intros p. split; [done|]. by apply anc_blocks_None. }
  apply live_of_Some in Elive as (-> & x & Hx & Hfl). specialize (Hit n eq_refl).
  eapply XSafe_read_bind; [by apply node_deref_reads|].
  eapply XSafe_bind; [apply XSafe_update_block; [done|by eapply xi_block|apply marked_commit]|].
  intros [] s1 Hi1 Hf1 Hm1. destruct (marks_node _ _ _ _ _ _ Hm1 Hx) as (x1 & Hx1 & Hs1).
  eapply XSafe_bind; [eapply XSafe_node_mark; [done|exact Hx1| |]|].
  { apply set_obj_flag_same. destruct Hs1 as (_ & _ & E & _). by rewrite E. }
  { intros c Hc. by eapply (xi_child _ Hi1 n x1). }
  intros [] s2 Hi2 Hf2 [Hm2 _]. pose proof (marks_after _ _ _ _ _ Hm1 Hm2) as Hm12.
  eapply XSafe_bind; [apply XSafe_reset_child; [done|eapply below_fwd; [|exact Hit]; by etrans]|].
  intros [] s3 Hi3 Hf3 (Hm3 & x3 & Hx3 & Hc3). pose proof (marks_after _ _ _ _ _ Hm12 Hm3) as Hm13.
  destruct (marks_node _ _ _ _ _ _ Hm13 Hy) as (y3 & Hy3 & (_ & _ & _ & Hchy)).
  eapply XSafe_read_bind; [by apply node_deref_reads|].
  destruct (n_child y3) as [c|] eqn:Ec; [|by apply XSafe_ub; intros Hk; apply Hchy, eq_refl; auto]. cbn [nonnull]. xread ltac:(done).
  destruct (known_blk s3 c Hi3) as [cb Hcb]; [by eapply (xi_child _ Hi3)|].
  xread ltac:(by apply node_block_reads).
  eapply XSafe_bind; [apply XSafe_update_block; [done| |intros b; apply marked_nnc]|].
  { eapply (xfwd_alloc s); [|by eapply (xi_block _ Hi)]. by etrans; [exact Hf1|etrans]. }
  intros [] s4 Hi4 Hf4 Hm4. pose proof (marks_trans _ _ _ _ _ _ _ Hm13 Hm4) as Hm14.
  assert (Hf14 : xfwd s s4) by (by etrans; [exact Hf1|etrans; [exact Hf2|etrans]]).
  destruct Hit as (nb & lb & Hnb & Hlb & Eh & _). rewrite Hb0 in Hlb. injection Hlb as <-.
  destruct (xfwd_blk _ _ _ _ Hf14 Hnb) as (nb4 & Hnb4 & Hid4).
  assert (0 <= get_height nb).
  { unfold blk in Hnb. rewrite Hx in Hnb. by eapply (xi_height _ Hi). }
  eapply XSafe_mono; [eapply (IH n (n_parent x) s4 nb4)|]; try done.
  - intros m Hm. eapply below_fwd; [exact Hf14|]. by eapply (xi_parent _ Hi).
  - destruct (marks_node _ _ _ _ _ _ Hm4 Hx3) as (x4 & Hx4 & (_ & _ & _ & E)).
    exists x4. split; [done|]. intros Hk. apply E. by rewrite (Hc3 Hk).
  - rewrite (same_id_height _ _ Hid4). lia.
  - intros [] s5 _ _ Hm5. eapply marks_ext; [| |eapply marks_trans; [exact Hm14|exact Hm5]].
    + intros p. rewrite (anc_blocks_Some _ _ _ _ Hx Hfl), (anc_blocks_marks _ _ _ _ _ _ Hm14).
      unfold none. intuition.
    + unfold none. intuition.
Qed.

Lemma XSafe_commit_node n p g x s :
  xinv s -> below s p n -> below s g p -> x_nodes (cs_st s) !! g = Some x -> n_flags x <> 0 ->
  XSafe (commit_node n p g) s (fun _ s' =>
    marks s s' (fun q => q = n_block x \/ anc_blocks s (n_parent x) q) (only (n_block x))).
Proof.
  intros Hi Hpn Hgp Hx Hfl. unfold commit_node. eapply XSafe_read_bind; [by apply node_deref_reads|].
  pose proof (xi_block _ Hi _ _ Hx) as Hal.
  eapply XSafe_bind; [apply XSafe_update_block; [done|done|apply marked_lock]|]. intros [] s1 Hi1 Hf1 Hm1.
  eapply XSafe_bind; [apply XSafe_update_block; [done|by eapply xfwd_alloc|apply marked_commit]|].
  intros [] s2 Hi2 Hf2 Hm2. pose proof (marks_trans _ _ _ _ _ _ _ Hm1 Hm2) as Hm12.
  destruct (marks_node _ _ _ _ _ _ Hm12 Hx) as (x2 & Hx2 & Hs2).
  eapply XSafe_bind; [eapply XSafe_node_mark; [done|exact Hx2| |]|].
  { apply set_obj_flag_same. destruct Hs2 as (_ & _ & E & _). by rewrite E. }
  { intros c Hc. by eapply (xi_child _ Hi2 g x2). }
  intros [] s3 Hi3 Hf3 [Hm3 _]. pose proof (marks_after _ _ _ _ _ Hm12 Hm3) as Hm13.
  assert (Hf13 : xfwd s s3) by (by etrans; [exact Hf1|etrans]).
  destruct (below_fwd _ _ _ _ Hf13 Hpn) as (pb & nb & _ & Hnb & _).
  eapply XSafe_read_bind; [by apply node_block_reads|].
  eapply XSafe_bind; [apply XSafe_update_block; [done|by eapply (xfwd_alloc s)|intros b; apply marked_nnc]|].
  intros [] s4 Hi4 Hf4 Hm4. pose proof (marks_trans _ _ _ _ _ _ _ Hm13 Hm4) as Hm14.
  assert (Hf14 : xfwd s s4) by (by etrans; [exact Hf13|]).
  eapply XSafe_bind; [apply XSafe_reset_child; [done|by eapply below_fwd]|].
  intros [] s5 Hi5 Hf5 (Hm5 & x5 & Hx5 & Hc5). pose proof (marks_after _ _ _ _ _ Hm14 Hm5) as Hm15.
  assert (Hf15 : xfwd s s5) by (by etrans; [exact Hf14|]).
  eapply XSafe_bind; [apply XSafe_update_commit; [done|]|].
  { intros q [= <-]. by eapply (xfwd_alloc s). }
  intros r s6 Hi6 Hf6 Hm6. pose proof (marks_after _ _ _ _ _ Hm15 Hm6) as Hm16.
  assert (Hf16 : xfwd s s6) by (by etrans; [exact Hf15|]).
  destruct (xf_nodes _ _ Hf16 g x Hx) as (x6 & Hx6 & E6).
  destruct (xfwd_alloc _ _ _ Hf16 Hal) as [gb Hgb]. eapply XSafe_read_bind; [by apply xderef_reads|].
  eapply XSafe_mono; [eapply (XSafe_commit_ancestors _ g (n_parent x) s6 gb)|]; try done.
  - intros m Hm. eapply below_fwd; [exact Hf16|]. by eapply (xi_parent _ Hi).
  - destruct (marks_node _ _ _ _ _ _ Hm6 Hx5) as (x6' & Hx6' & (_ & _ & _ & E)).
    exists x6'. split; [done|]. intros Hk. apply E. by rewrite (Hc5 Hk).
  - unfold blk. rewrite Hx6. cbn. by rewrite E6.
  - lia.
  - intros [] s7 _ _ Hm7. eapply marks_ext; [| |eapply marks_trans; [exact Hm16|exact Hm7]]; intros q;
      unfold none, only; cbv beta; rewrite ?(anc_blocks_marks _ _ _ _ _ _ Hm16); tauto.
Qed.

(** What [do_execute n] commits and locks. *)
Definition exec_parent (s : xstate) (n : ptr) (y : vbnode) : Prop :=
  exists x p, x_nodes (cs_st s) !! n = Some x /\ n_flags x <> 0 /\ live_of s (n_parent x) = Some p /\
    x_nodes (cs_st s) !! p = Some y.
Definition exec_commits (s : xstate) (n q : ptr) : Prop :=
  exists y, exec_parent s n y /\ anc_blocks s (n_parent y) q.
Definition exec_locks (s : xstate) (n q : ptr) : Prop :=
  exists y, exec_parent s n y /\
    (q = n_block y \/ exists g z, live_of s (n_parent y) = Some g /\ x_nodes (cs_st s) !! g = Some z /\ q = n_block z).

Lemma exec_parent_inj s n y y' : exec_parent s n y -> exec_parent s n y' -> y = y'.
Proof. intros (x & p & ? & _ & ? & ?) (x' & p' & ? & _ & ? & ?). congruence. Qed.

Lemma parent_known s n x : xinv s -> x_nodes (cs_st s) !! n = Some x ->
  forall m, n_parent x = Some m -> is_Some (x_nodes (cs_st s) !! m).
Proof. intros Hi Hx m Hm. by destruct (below_known _ _ _ (xi_parent _ Hi n x m Hx Hm)). Qed.

Lemma live_of_marks s s' C L o : marks s s' C L -> live_of s' o = live_of s o.
Proof.
  intros Hm. destruct o as [m|]; [|done]. unfold live_of. cbn. pose proof (mk_nodes _ _ _ _ Hm m) as Hn.
  destruct Hn as [x x' (_ & _ & E & _)|]; [|done]. cbn.
  destruct (Z.eqb_spec (n_flags x) 0), (Z.eqb_spec (n_flags x') 0); tauto || done.
Qed.

Lemma XSafe_do_execute n s :
  xinv s -> is_Some (x_nodes (cs_st s) !! n) ->
  XSafe (do_execute (Some n)) s (fun r s' =>
    marks s s' (exec_commits s n) (exec_locks s n) /\ (r = true <-> exists y, exec_parent s n y)).
Proof.
  intros Hi [x Hx].
  assert (Hno : (forall y, ~ exec_parent s n y) ->
    marks s s (exec_commits s n) (exec_locks s n) /\ (false = true <-> exists y, exec_parent s n y)).
  { intros Hy. split; [|split; [done|intros [y Hy']; by destruct (Hy y)]].
    eapply marks_ext; [| |apply marks_refl]; intros q; split; [done|intros (y & Hp & _); by destruct (Hy y)|done|].
    intros (y & Hp & _); by destruct (Hy y). }
  unfold do_execute. eapply XSafe_read_bind; [by apply node_deref_reads|].
  destruct (Z.eqb_spec (n_flags x) 0) as [E0|E0].
  { apply XSafe_ret; [done|]. apply Hno. intros y (x' & p & Hx' & Hfl & _). congruence. }
  eapply XSafe_read_bind; [apply live_reads; by eapply parent_known|].
  destruct (live_of s (n_parent x)) as [p|] eqn:Ep.
  2: { apply XSafe_ret; [done|]. apply Hno. intros y (x' & p & Hx' & _ & Hp & _). congruence. }
  pose proof (live_of_Some _ _ _ Ep) as (Epar & y & Hy & Hfl).
  assert (Hyp : exec_parent s n y) by (exists x, p; by split_and!).
  pose proof (xi_parent _ Hi _ _ _ Hx Epar) as Hpn.
  eapply XSafe_read_bind; [by apply node_deref_reads|].
  eapply XSafe_bind; [apply XSafe_update_block; [done|by eapply xi_block|apply marked_lock]|].
  intros [] s1 Hi1 Hf1 Hm1. destruct (marks_node _ _ _ _ _ _ Hm1 Hy) as (y1 & Hy1 & Hs1).
  eapply XSafe_bind; [eapply XSafe_node_mark; [done|exact Hy1| |]|].
  { apply set_obj_flag_same. destruct Hs1 as (_ & _ & E & _). by rewrite E. }
  { intros c Hc. by eapply (xi_child _ Hi1 p y1). }
  intros [] s2 Hi2 Hf2 [Hm2 _]. pose proof (marks_after _ _ _ _ _ Hm1 Hm2) as Hm12.
  eapply XSafe_bind; [apply XSafe_reset_child; [done|eapply below_fwd; [|exact Hpn]; by etrans]|].
  intros [] s3 Hi3 Hf3 (Hm3 & _). pose proof (marks_after _ _ _ _ _ Hm12 Hm3) as Hm13.
  assert (Hf13 : xfwd s s3) by (by etrans; [exact Hf1|etrans]).
  eapply XSafe_bind; [apply XSafe_update_lock; [done|]|].
  { intros q [= <-]. eapply (xfwd_alloc s); [done|]. by eapply (xi_block _ Hi). }
  intros r s4 Hi4 Hf4 Hm4. pose proof (marks_after _ _ _ _ _ Hm13 Hm4) as Hm14.
  assert (Hf14 : xfwd s s4) by (by etrans; [exact Hf13|]).
  eapply XSafe_read_bind; [apply live_reads|].
  { intros m Hm. eapply (xfwd_known s); [done|]. by eapply (parent_known s p y). }
  rewrite (live_of_marks _ _ _ _ _ Hm14).
  assert (Htrue : true = true <-> exists y, exec_parent s n y) by (split; [by exists y|done]).
  destruct (live_of s (n_parent y)) as [g|] eqn:Eg.
  - pose proof (live_of_Some _ _ _ Eg) as (Egp & z & Hz & Hzf).
    destruct (marks_node _ _ _ _ _ _ Hm14 Hz) as (z4 & Hz4 & (Eb & Eq & Ef & _)).
    eapply XSafe_bind; [apply (XSafe_commit_node n p g z4); try done|].
    { by eapply below_fwd. }
    { eapply below_fwd; [done|]. by eapply (xi_parent _ Hi). }
    { by rewrite Ef. }
    intros [] s5 Hi5 Hf5 Hm5. apply XSafe_ret; [done|]. split; [|done].
    eapply marks_ext; [| |exact (marks_trans _ _ _ _ _ _ _ Hm14 Hm5)]; intros q; unfold only; rewrite ?Eb, ?Eq.
    + rewrite (anc_blocks_marks _ _ _ _ _ _ Hm14). split.
      * intros Hq. exists y. split; [done|]. rewrite Egp. apply (anc_blocks_Some _ _ _ _ Hz Hzf). tauto.
      * intros (y' & Hy' & Ha). rewrite <- (exec_parent_inj _ _ _ _ Hyp Hy') in Ha. rewrite Egp in Ha.
        apply (anc_blocks_Some _ _ _ _ Hz Hzf) in Ha. tauto.
    + split.
      * intros [[? _]| ->]; exists y; (split; [done|]); [by left|right; by exists g, z].
      * intros (y' & Hy' & Hq). rewrite <- (exec_parent_inj _ _ _ _ Hyp Hy') in Hq.
        destruct Hq as [?|(g' & z' & Hg' & Hz' & ->)]; [by left|right; congruence].
  - apply XSafe_ret; [done|]. split; [|done]. eapply marks_ext; [| |exact Hm14]; intros q; split.
    + tauto.
    + intros (y' & Hy' & Ha). rewrite <- (exec_parent_inj _ _ _ _ Hyp Hy') in Ha. by apply anc_blocks_None in Ha.
    + intros [-> _]. exists y. split; [done|by left].
    + intros (y' & Hy' & Hq). rewrite <- (exec_parent_inj _ _ _ _ Hyp Hy') in Hq.
      destruct Hq as [?|(g' & z' & Hg' & _)]; [done|congruence].
Qed.
End Execute.
