(* ===== verification/CertPool.v ===== *)
(** * The pool of certified blocks: entering, submitting, cleaning *)

From stdpp Require Import prelude gmap strings.
From Stdlib Require Import ZArith Lia Sorting.Sorted Sorting.Permutation.
From S2P Require Import Prelude Stream StdMap VBlock Pdu Proposal BFTState Rules RulesFacts.
From S2P Require Import CertContext CertInv CertFacts.

(** ** Loops *)

(** What the loops over nodes leave alone. *)
Record same_pools (s s' : xstate) : Prop := {
  sp_pool : m_hash_pool (cs_st s') = m_hash_pool (cs_st s);
  sp_views : m_view_pool (cs_st s') = m_view_pool (cs_st s);
  sp_out : cs_out s' = cs_out s;
}.
#[export] Instance same_pools_preorder : PreOrder same_pools.
Proof. split; [done|]. intros ? ? ? [] []. split; congruence. Qed.
Lemma marks_pools `{XVBlock} s s' C L : marks s s' C L -> same_pools s s'.
Proof. by intros []. Qed.

Section Loops.
Context `{HK : HashesKept} {A : Type} (R : xstate -> xstate -> Prop) `{!PreOrder R}.

Lemma XSafe_for_each (body : A -> XP unit) l s :
  (forall x t, x ∈ l -> xinv t -> xfwd s t -> XSafe (body x) t (fun _ t' => R t t')) ->
  xinv s -> XSafe (for_each l body) s (fun _ t' => R s t').
Proof.
  intros Hb Hi. assert (Hg : forall t, xinv t -> xfwd s t -> R s t -> XSafe (for_each l body) t (fun _ t' => R s t')).
  { induction l as [|x l IH]; intros t Ht Hf Hr; [by apply XSafe_ret|]. cbn.
    eapply XSafe_bind; [apply Hb; [left|done..]|]. intros [] t1 Ht1 Hf1 Hr1. apply IH; [|done|by etrans..].
    intros y t2 Hy. apply Hb. by right. }
  by apply Hg.
Qed.

Lemma XSafe_map_prog {B} (f : A -> XP B) l s :
  (forall x t, x ∈ l -> xinv t -> xfwd s t -> XSafe (f x) t (fun _ t' => R t t')) ->
  xinv s -> XSafe (map_prog f l) s (fun _ t' => R s t').
Proof.
  intros Hb Hi. assert (Hg : forall t, xinv t -> xfwd s t -> R s t -> XSafe (map_prog f l) t (fun _ t' => R s t')).
  { induction l as [|x l IH]; intros t Ht Hf Hr; [by apply XSafe_ret|]. cbn.
    eapply XSafe_bind; [apply Hb; [left|done..]|]. intros y t1 Ht1 Hf1 Hr1.
    eapply XSafe_bind; [apply IH; [|done|by etrans..]|].
    { intros z t2 Hz. apply Hb. by right. }
    intros r t2 Ht2 Hf2 Hr2. by apply XSafe_ret. }
  by apply Hg.
Qed.
End Loops.

(** ** A block enters *)

Lemma map_set_elem {K V} `{MapKey K} (k : K) (v : V) m :
  key_sorted m -> map_find k m = None -> forall e, e ∈ map_set k v m <-> e = (k, v) \/ e ∈ m.
Proof.
  intros Hs Hn e. split; [apply map_set_in|]. intros [->|He].
  - apply map_find_Some_in, map_find_set_eq.
  - destruct e as [k' v']. apply map_find_Some_in. rewrite map_find_set_ne; [by apply map_find_in|].
    intros ->. by rewrite (map_find_in _ _ _ Hs He) in Hn.
Qed.

Section Enter.
Context `{HL : XVBlockLaws} `{HN : XVBNodeLaws} `{HK : HashesKept}.

(** The state with a node for the block [p] in the pool. *)
Definition entered (p : ptr) (b : xvblock) (parent : option ptr) (s : xstate) : xstate :=
  upd_st (fun c => insert_node (get_block_hash b) (VBNode p parent None enum_xvblock_flag_authenticated)
                     (set_views (get_viewid b :: m_view_pool c) c)) s.

Lemma entered_blk p b parent s n :
  xinv s -> block_at p s = Some b ->
  blk (entered p b parent s) n = if decide (n = x_next (cs_st s)) then Some b else blk s n.
Proof.
  intros Hi Hb. unfold blk. cbn. destruct (decide (n = x_next (cs_st s))) as [->|Hne].
  - by rewrite lookup_insert_eq.
  - by rewrite lookup_insert_ne.
Qed.

Lemma next_unknown s : xinv s -> x_nodes (cs_st s) !! x_next (cs_st s) = None.
Proof.
  intros Hi. destruct (x_nodes (cs_st s) !! x_next (cs_st s)) eqn:E; [|done].
  pose proof (xi_fresh _ Hi (x_next (cs_st s)) (mk_is_Some _ _ E)). lia.
Qed.

Lemma blk_known s n b : blk s n = Some b -> is_Some (x_nodes (cs_st s) !! n).
Proof. unfold blk. destruct (x_nodes (cs_st s) !! n); [by eexists|done]. Qed.

Lemma blk_not_next s n b : xinv s -> blk s n = Some b -> n <> x_next (cs_st s).
Proof. intros Hi Hb ->. destruct (blk_known _ _ _ Hb) as [x Hx]. by rewrite next_unknown in Hx. Qed.

Lemma entered_fwd p b parent s : xinv s -> xfwd s (entered p b parent s).
Proof.
  intros Hi. split; try done.
  - by destruct s as [[] ? ? ? ?].
  - intros n x Hx. exists x. split; [|done]. cbn. rewrite lookup_insert_ne; [done|].
    intros <-. by rewrite next_unknown in Hx.
  - intros b0 Hb0. by exists b0.
  - intros b0 Hb0. by exists b0.
Qed.

Lemma entered_inv p b parent s :
  xinv s -> block_at p s = Some b -> map_find (get_block_hash b) (m_hash_pool (cs_st s)) = None ->
  get_viewid b ∉ m_view_pool (cs_st s) ->
  (forall q, parent = Some q -> exists c, blk s q = Some c /\ get_height b = get_height c + 1 /\
     (hashes_kept -> get_last_block_hash b = get_block_hash c)) ->
  xinv (entered p b parent s).
Proof.
  intros Hi Hb Hh Hv Hpar. pose proof (entered_fwd p b parent s Hi) as Hf.
  set (n := x_next (cs_st s)).
  assert (Hnew : blk (entered p b parent s) n = Some b) by (by rewrite entered_blk, decide_True).
  assert (Hold : forall m c, blk s m = Some c -> blk (entered p b parent s) m = Some c).
  { intros m c Hc. rewrite entered_blk by done. rewrite decide_False; [done|]. by eapply blk_not_next. }
  assert (Hin : forall e, e ∈ m_hash_pool (cs_st (entered p b parent s)) <->
                          e = (get_block_hash b, n) \/ e ∈ m_hash_pool (cs_st s)).
  { apply map_set_elem; [apply Hi|done]. }
  split; try apply Hi.
  - intros m [y Hy]. cbn in Hy. apply lookup_insert_Some in Hy as [[<- _]|[_ Hy]]; cbn; [lia|].
    pose proof (xi_fresh _ Hi m (mk_is_Some _ _ Hy)). lia.
  - intros m y Hy. cbn in Hy. apply lookup_insert_Some in Hy as [[_ <-]|[_ Hy]]; [by exists b|].
    by eapply (xi_block _ Hi).
  - intros m y q Hy Hq. cbn in Hy. apply lookup_insert_Some in Hy as [[<- <-]|[_ Hy]].
    + destruct (Hpar q Hq) as (c & Hc & Eh & El). exists c, b. split_and!; [by apply Hold|done..].
    + eapply below_fwd; [done|]. by eapply (xi_parent _ Hi).
  - intros m y c Hy Hc. cbn in Hy. apply lookup_insert_Some in Hy as [[<- <-]|[_ Hy]]; [done|].
    eapply xfwd_known; [done|]. by eapply (xi_child _ Hi).
  - cbn. apply map_set_sorted, Hi.
  - intros h m [[= -> ->]|He]%Hin.
    + cbn. rewrite lookup_insert_eq. by eexists.
    + destruct (xi_pool _ Hi h m He) as (y & Hy & Hfl). exists y. split; [|done]. cbn.
      rewrite lookup_insert_ne; [done|]. intros E. unfold n in *. rewrite <- E, next_unknown in Hy by done. done.
  - intros v. cbn [entered upd_st cs_st insert_node set_views m_view_pool]. rewrite elem_of_cons, (xi_views _ Hi). split.
    + intros [->|(h & m & c & He & Hc & <-)].
      * exists (get_block_hash b), n, b. split_and!; [apply Hin; by left|done|done].
      * exists h, m, c. split_and!; [apply Hin; by right|by apply Hold|done].
    + intros (h & m & c & [[= -> ->]|He]%Hin & Hc & <-); [left; congruence|].
      right. destruct (pool_blk _ _ _ Hi He) as [c' Hc']. rewrite (Hold _ _ Hc') in Hc. injection Hc as <-. eauto 10.
  - assert (Hnv : forall h m c, (h, m) ∈ m_hash_pool (cs_st s) -> blk (entered p b parent s) m = Some c ->
                                get_viewid c <> get_viewid b).
    { intros h m c He Hc E. destruct (pool_blk _ _ _ Hi He) as [c' Hc']. rewrite (Hold _ _ Hc') in Hc.
      injection Hc as <-. apply Hv, (xi_views _ Hi). eauto 10. }
    intros h m c h' m' c' [[= -> ->]|He]%Hin [[= -> ->]|He']%Hin Hc Hc' E; [done| | |].
    + rewrite Hnew in Hc. injection Hc as <-. by destruct (Hnv _ _ _ He' Hc').
    + rewrite Hnew in Hc'. injection Hc' as <-. by destruct (Hnv _ _ _ He Hc).
    + destruct (pool_blk _ _ _ Hi He) as [d Hd], (pool_blk _ _ _ Hi He') as [d' Hd'].
      rewrite (Hold _ _ Hd) in Hc. rewrite (Hold _ _ Hd') in Hc'. simplify_eq. by eapply (xi_inj _ Hi).
Qed.

(** The pools after the block has entered, whatever the flags became. *)
Record enters (b : xvblock) (s s' : xstate) : Prop := {
  en_pool : m_hash_pool (cs_st s') = map_set (get_block_hash b) (x_next (cs_st s)) (m_hash_pool (cs_st s));
  en_views : m_view_pool (cs_st s') = get_viewid b :: m_view_pool (cs_st s);
  en_out : cs_out s' = cs_out s;
}.
Lemma enters_trans b s s1 s2 : enters b s s1 -> same_pools s1 s2 -> enters b s s2.
Proof. intros [] []. split; congruence. Qed.

Lemma XSafe_new_node p b s :
  xinv s -> block_at p s = Some b -> map_find (get_block_hash b) (m_hash_pool (cs_st s)) = None ->
  get_viewid b ∉ m_view_pool (cs_st s) ->
  XSafe (st_mod (set_views (get_viewid b :: m_view_pool (cs_st s))) ;;; new_node p b) s
    (fun _ s' => enters b s s' /\ is_Some (x_nodes (cs_st s') !! x_next (cs_st s))).
Proof.
  intros Hi Hb Hh Hv.
  assert (Hen : forall parent, enters b s (entered p b parent s)) by done.
  assert (Hn : forall parent, is_Some (x_nodes (cs_st (entered p b parent s)) !! x_next (cs_st s))).
  { intros parent. cbn. rewrite lookup_insert_eq. by eexists. }
  destruct (map_find (get_last_block_hash b) (m_hash_pool (cs_st s))) as [q|] eqn:Eq.
  - destruct (pool_blk s (get_last_block_hash b) q Hi) as [qb Hqb]; [by apply map_find_Some_in|].
    set (parent := if new_vbnode_ok qb b then Some q else None).
    assert (Hi1 : xinv (entered p b parent s)).
    { apply entered_inv; try done. intros q'. unfold parent. destruct (new_vbnode_ok qb b) eqn:E; [|done].
      intros [= <-]. exists qb. split; [done|]. by destruct (new_vbnode_rule _ _ E). }
    eapply (XSafe_from _ (do_execute (Some (x_next (cs_st s))) ;;; ret tt) s (entered p b parent s)).
    + by apply entered_fwd.
    + rewrite (bind_runs _ _ tt s (upd_st (set_views (get_viewid b :: m_view_pool (cs_st s))) s)) by done.
      unfold new_node. rewrite (bind_runs _ _ _ _ _ (xst_get_reads m_hash_pool _)).
      rewrite (bind_runs _ _ _ _ _ (xst_get_reads x_next _)). cbn [upd_st cs_st set_views m_hash_pool]. rewrite Eq.
      rewrite (bind_runs _ _ qb _ (upd_st (set_views (get_viewid b :: m_view_pool (cs_st s))) s))
        by (by apply node_block_reads). done.
    + eapply XSafe_bind; [apply XSafe_do_execute; [done|apply Hn]|].
      intros r s1 Hi2 Hf2 [Hm _]. apply XSafe_ret; [done|]. split.
      * eapply enters_trans; [apply Hen|]. by eapply marks_pools.
      * by eapply xfwd_known.
  - eapply (XSafe_from _ (ret tt) s (entered p b None s)); [by apply entered_fwd| |].
    + rewrite (bind_runs _ _ tt s (upd_st (set_views (get_viewid b :: m_view_pool (cs_st s))) s)) by done.
      unfold new_node. rewrite (bind_runs _ _ _ _ _ (xst_get_reads m_hash_pool _)).
      rewrite (bind_runs _ _ _ _ _ (xst_get_reads x_next _)). cbn [upd_st cs_st set_views m_hash_pool]. by rewrite Eq.
    + apply XSafe_ret; [|done]. by apply entered_inv.
Qed.

Lemma XSafe_adopt n h e s :
  xinv s -> is_Some (x_nodes (cs_st s) !! n) -> is_Some (x_nodes (cs_st s) !! e.2) ->
  XSafe (adopt n h e) s (fun _ s' => same_pools s s').
Proof.
  intros Hi Hn [x Hx]. unfold adopt. eapply XSafe_read_bind; [by apply node_deref_reads|].
  destruct (n_parent x) eqn:Ep; [by apply XSafe_ret|].
  destruct (xi_block _ Hi _ _ Hx) as [b Hb]. eapply XSafe_read_bind; [by apply xderef_reads|].
  destruct (_ =? _); [|by apply XSafe_ret].
  destruct (known_blk s n Hi Hn) as [pb Hpb]. eapply XSafe_read_bind; [by apply node_block_reads|].
  destruct (reset_parent_ok pb b) eqn:Er; [|by apply XSafe_ret].
  eapply XSafe_bind; [eapply XSafe_node_update; [done|done|done| |]|].
  - intros q [= <-]. exists pb, b. destruct (reset_parent_rule _ _ Er). split_and!; try done. unfold blk. by rewrite Hx.
  - intros c Hc. by eapply (xi_child _ Hi).
  - intros [] s1 Hi1 _ ->. by apply XSafe_ret.
Qed.

(** ** The checks *)

Lemma context_check_reads o s :
  (forall p, o = Some p -> allocated s p) ->
  exists r, reads (context_check_for_block o) r s.
Proof.
  intros Ho. destruct o as [p|]; [|by eexists]. destruct (Ho p eq_refl) as [b Hb].
  eexists. unfold context_check_for_block, reads, bind. by rewrite (xderef_reads _ _ _ Hb).
Qed.

(** [safe_check_for_cert_block] as a predicate. *)
Definition may_enter (lock : option xvblock) (b : xvblock) : bool :=
  negb (check_block_flag b enum_xvblock_flag_committed)
  && match lock with
     | Some lb => negb ((get_height b <=? get_height lb) || (get_viewid b <=? get_viewid lb)
                        || negb (get_chainid b =? get_chainid lb)
                        || negb (bool_decide (get_account b = get_account lb)))
     | None => true
     end
  && is_deliver b false.

Lemma cert_check_reads p b s :
  xinv s -> block_at p s = Some b ->
  reads (safe_check_for_cert_block (Some p)) (may_enter (ctx_lock_of s) b) s.
Proof.
  intros Hi Hb. assert (Hd : reads (context_check_for_block (Some p)) (is_deliver b false) s).
  { unfold context_check_for_block, reads, bind. by rewrite (xderef_reads _ _ _ Hb). }
  unfold safe_check_for_cert_block, reads, may_enter. rewrite (bind_runs _ _ _ _ _ (xderef_reads _ _ _ Hb)).
  destruct (check_block_flag _ _); [done|]. rewrite (bind_runs _ _ _ _ _ (xst_get_reads _ _)).
  unfold ctx_lock_of. destruct (x_latest_lock_block (cs_st s)) as [l|] eqn:El; [|exact Hd].
  destruct (xi_lock _ Hi l El) as [lb Hlb]. cbn. rewrite Hlb, (bind_runs _ _ _ _ _ (xderef_reads _ _ _ Hlb)).
  destruct (_ || _); [done|exact Hd].
Qed.

(** A block enters when it may, its hash is new and its view is free. *)
Definition accepts (s : xstate) (b : xvblock) : bool :=
  may_enter (ctx_lock_of s) b
  && negb (bool_decide (is_Some (map_find (get_block_hash b) (m_hash_pool (cs_st s)))))
  && negb (set_mem (get_viewid b) (m_view_pool (cs_st s))).

Lemma XSafe_do_update p b s :
  xinv s -> block_at p s = Some b ->
  XSafe (do_update (Some p)) s (fun r s' =>
    r = accepts s b /\ (r = true -> enters b s s') /\ (r = false -> s' = s)).
Proof.
  intros Hi Hb. unfold do_update, accepts. eapply XSafe_read_bind; [by apply cert_check_reads|].
  destruct (may_enter _ _); [|by apply XSafe_ret]. cbn [negb andb nonnull].
  eapply XSafe_read_bind; [done|]. eapply XSafe_read_bind; [by apply xderef_reads|].
  eapply XSafe_read_bind; [apply xst_get_reads|].
  destruct (map_find (get_block_hash b) _) eqn:Eh.
  { apply XSafe_ret; [done|]. split_and!; [|done|done]. by rewrite bool_decide_true by (by eexists). }
  eapply XSafe_read_bind; [apply xst_get_reads|]. unfold set_emplace.
  rewrite (bool_decide_false (is_Some None)) by (by intros [? ?]).
  destruct (set_mem_spec (get_viewid b) (m_view_pool (cs_st s))) as [Hv|Hv]; [by apply XSafe_ret|]. cbn [negb andb].
  eapply XSafe_read_bind; [apply xst_get_reads|].
  apply (XSafe_from _ ((st_mod (set_views (get_viewid b :: m_view_pool (cs_st s))) ;;; new_node p b) ;;;
    (let* pool' := st_get m_hash_pool in
     let* adopted := map_prog (adopt (x_next (cs_st s)) (get_height b)) pool' in
     (if existsb (fun r => r) adopted
      then for_each pool' (fun e => do_execute (Some e.2) ;;; ret tt) else ret tt) ;;;
     ret true)) s s); [done|done|].
  eapply XSafe_bind; [by apply XSafe_new_node|]. intros [] s1 Hi1 Hf1 [Hen Hn].
  eapply XSafe_read_bind; [apply xst_get_reads|].
  assert (Hknown : forall e t, e ∈ m_hash_pool (cs_st s1) -> xfwd s1 t -> is_Some (x_nodes (cs_st t) !! e.2)).
  { intros [h m] t He Hf. eapply xfwd_known; [done|]. destruct (xi_pool _ Hi1 h m He) as (y & Hy & _). by exists y. }
  eapply XSafe_bind; [apply (XSafe_map_prog same_pools); [|done]|].
  { intros e t He Ht Hft. apply XSafe_adopt; [done|by eapply xfwd_known|by apply Hknown]. }
  intros adopted s2 Hi2 Hf2 Hp2.
  eapply (XSafe_bind _ _ _ (fun _ s3 => same_pools s2 s3)).
  { destruct (existsb _ _); [|by apply XSafe_ret]. apply (XSafe_for_each same_pools); [|done].
    intros e t He Ht Hft. eapply XSafe_bind; [apply XSafe_do_execute; [done|apply Hknown; [done|by etrans]]|].
    intros r t1 Ht1 _ [Hm _]. apply XSafe_ret; [done|]. by eapply marks_pools. }
  intros [] s3 Hi3 Hf3 Hp3. apply XSafe_ret; [done|]. split_and!; [done|intros _|done].
  eapply enters_trans; [exact Hen|]. by etrans; [exact Hp2|].
Qed.
End Enter.

(** ** Nodes leave *)

Lemma map_erase_elem {K V} `{MapKey K} (k : K) (m : list (K * V)) e : e ∈ map_erase k m <-> e ∈ m /\ e.1 <> k.
Proof.
  unfold map_erase. rewrite in_filter, negb_true_iff, bool_decide_eq_false. intuition congruence.
Qed.
Definition dropped (e : string * ptr) (b : xvblock) (s : xstate) : xstate :=
  upd_st (drop_node e.1 e.2 (get_viewid b)) s.

Lemma dropped_node e b s n :
  x_nodes (cs_st (dropped e b s)) !! n =
  (if decide (n = e.2) then with_node_flags (fun _ => 0) <$> x_nodes (cs_st s) !! n else x_nodes (cs_st s) !! n).
Proof.
  cbn. destruct (decide (n = e.2)) as [->|Hne]; [by rewrite lookup_alter_eq|by rewrite lookup_alter_ne].
Qed.
Lemma dropped_blk e b s n : blk (dropped e b s) n = blk s n.
Proof.
  unfold blk. rewrite dropped_node. destruct (decide _); [|done]. by destruct (x_nodes (cs_st s) !! n).
Qed.
Lemma dropped_fwd e b s : xfwd s (dropped e b s).
Proof.
  split; try done.
  - by destruct s as [[] ? ? ? ?].
  - intros n x Hx. rewrite dropped_node, Hx. destruct (decide _); by eexists.
  - intros b0 Hb0. by exists b0.
  - intros b0 Hb0. by exists b0.
Qed.

Lemma dropped_inv `{HK : HashesKept} e b s :
  xinv s -> e ∈ m_hash_pool (cs_st s) -> blk s e.2 = Some b -> xinv (dropped e b s).
Proof.
  intros Hi Hin Hb. pose proof (dropped_fwd e b s) as Hf.
  assert (Hpool : forall e', e' ∈ m_hash_pool (cs_st (dropped e b s)) <-> e' ∈ m_hash_pool (cs_st s) /\ e' <> e).
  { intros e'. cbn. rewrite map_erase_elem. split; intros [He' Hne]; (split; [done|]); [congruence|].
    intros E. apply Hne. destruct e as [h n], e' as [h' n']. cbn in E. subst h'. f_equal.
    pose proof (map_find_in _ _ _ (xi_sorted _ Hi) Hin). pose proof (map_find_in _ _ _ (xi_sorted _ Hi) He').
    congruence. }
  assert (Hother : forall h n c, (h, n) ∈ m_hash_pool (cs_st s) -> (h, n) <> e -> blk s n = Some c ->
                     n <> e.2 /\ get_viewid c <> get_viewid b).
  { intros h n c Hn Hne Hc. destruct e as [h0 n0]. cbn in *.
    assert (get_viewid c <> get_viewid b) by (intros E; by eapply Hne, (xi_inj _ Hi)).
    split; [|done]. intros ->. rewrite Hb in Hc. congruence. }
  split; try apply Hi.
  - intros n [x Hx]. apply (xi_fresh _ Hi). rewrite dropped_node in Hx. destruct (decide _); [|by exists x].
    apply fmap_Some in Hx as (y & Hy & _). by exists y.
  - intros n x Hx. rewrite dropped_node in Hx. destruct (decide _); [|by eapply (xi_block _ Hi)].
    apply fmap_Some in Hx as (y & Hy & ->). exact (xi_block _ Hi _ _ Hy).
  - intros n x q Hx Hq. eapply below_fwd; [done|]. rewrite dropped_node in Hx.
    destruct (decide _); [|by eapply (xi_parent _ Hi)].
    apply fmap_Some in Hx as (y & Hy & ->). exact (xi_parent _ Hi _ _ _ Hy Hq).
  - intros n x q Hx Hq. eapply xfwd_known; [done|]. rewrite dropped_node in Hx.
    destruct (decide _); [|by eapply (xi_child _ Hi)].
    apply fmap_Some in Hx as (y & Hy & ->). exact (xi_child _ Hi _ _ _ Hy Hq).
  - apply map_erase_sorted, Hi.
  - intros h n [Hn Hne]%Hpool. destruct (xi_pool _ Hi h n Hn) as (x & Hx & Hfl). exists x. split; [|done].
    destruct (pool_blk _ _ _ Hi Hn) as [c Hc]. destruct (Hother h n c Hn Hne Hc) as [? _].
    rewrite dropped_node. by rewrite decide_False.
  - intros v. cbn [dropped upd_st cs_st drop_node m_view_pool]. rewrite set_erase_elem, (xi_views _ Hi). split.
    + intros [(h & n & c & Hn & Hc & <-) Hne]. exists h, n, c. rewrite dropped_blk. split_and!; try done.
      apply Hpool. split; [done|]. intros <-. cbn in Hb. congruence.
    + intros (h & n & c & [Hn Hne]%Hpool & Hc & <-). rewrite dropped_blk in Hc.
      split; [by exists h, n, c|]. by eapply Hother.
  - intros h n c h' n' c' [Hn _]%Hpool [Hn' _]%Hpool. rewrite !dropped_blk. by apply (xi_inj _ Hi).
Qed.

(** What the loops that take nodes out leave alone. *)
Record took (s s' : xstate) : Prop := {
  tk_world : cs_world s' = cs_world s;
  tk_commit : x_latest_commit_block (cs_st s') = x_latest_commit_block (cs_st s);
  tk_lock : x_latest_lock_block (cs_st s') = x_latest_lock_block (cs_st s);
  tk_nodes : forall n, (fun x => (n_block x, n_child x)) <$> x_nodes (cs_st s') !! n =
                       (fun x => (n_block x, n_child x)) <$> x_nodes (cs_st s) !! n;
  tk_out : cs_out s' = cs_out s;
}.
#[export] Instance took_preorder : PreOrder took.
Proof.
  split; [done|]. intros ? ? ? [W1 C1 L1 N1 O1] [W2 C2 L2 N2 O2].
  split; [congruence..| |congruence]. intros n. by rewrite N2.
Qed.
Lemma tk_blk s s' n : took s s' -> blk s' n = blk s n.
Proof.
  intros Ht. pose proof (tk_nodes _ _ Ht n) as E. unfold blk, block_at. rewrite (tk_world _ _ Ht).
  destruct (x_nodes (cs_st s') !! n), (x_nodes (cs_st s) !! n); try done. cbn in *. by injection E as -> _.
Qed.
Lemma dropped_took e b s : took s (dropped e b s).
Proof.
  split; try done. intros n. rewrite dropped_node. destruct (decide _); [|done]. by destruct (x_nodes (cs_st s) !! n).
Qed.

Section TakeLoop.
Context `{HK : HashesKept}.
Variables (test : string * ptr -> XP bool) (keep : xvblock -> bool) (s0 : xstate).
Hypothesis Htest : forall e t b, xinv t -> took s0 t -> e ∈ m_hash_pool (cs_st t) -> blk t e.2 = Some b ->
  XSafe (test e) t (fun r t' => r = keep b /\ took t t' /\
    m_hash_pool (cs_st t') = if r then m_hash_pool (cs_st t) else map_erase e.1 (m_hash_pool (cs_st t))).

Definition keeps (s : xstate) (e : string * ptr) : bool :=
  match blk s e.2 with Some b => keep b | None => true end.

Lemma XSafe_take_loop l s :
  xinv s -> took s0 s -> (forall e, e ∈ l -> e ∈ m_hash_pool (cs_st s)) -> NoDup (fst <$> l) ->
  XSafe (partition_prog test l) s (fun r s' =>
    r = (List.filter (keeps s) l, List.filter (fun e => negb (keeps s e)) l) /\ took s s' /\
    forall e, e ∈ m_hash_pool (cs_st s') <-> e ∈ m_hash_pool (cs_st s) /\ ~ (e ∈ l /\ keeps s e = false)).
Proof.
  revert s. induction l as [|e l IH]; intros s Hi Hs Hl Hnd.
  { apply XSafe_ret; [done|]. split_and!; try done. intros e. split; [|by intros [? _]].
    intros He. split; [done|]. intros [Hin _]. by apply elem_of_nil in Hin. }
  cbn [partition_prog]. apply NoDup_cons in Hnd as [Hne Hnd].
  destruct (pool_blk s e.1 e.2 Hi) as [b Hb]; [destruct e; apply Hl; left|].
  eapply XSafe_bind; [apply (Htest e s b); try done; apply Hl; left|].
  intros r s1 Hi1 Hf1 (-> & Ht & Hp).
  assert (Hk : keeps s e = keep b) by (unfold keeps; by rewrite Hb).
  assert (Hkeeps : forall x, keeps s1 x = keeps s x) by (intros x; unfold keeps; by rewrite (tk_blk _ _ _ Ht)).
  assert (Hfil : forall g h : string * ptr -> bool, (forall x, g x = h x) -> List.filter g l = List.filter h l).
  { intros g h Hgh. by apply List.filter_ext. }
  assert (Hpool : forall x, x ∈ m_hash_pool (cs_st s1) <-> x ∈ m_hash_pool (cs_st s) /\ ~ (x = e /\ keep b = false)).
  { intros x. rewrite Hp. destruct (keep b); [intuition congruence|]. rewrite map_erase_elem. split.
    - intros [Hx Hxe]. split; [done|]. intros [-> _]. done.
    - intros [Hx Hxe]. split; [done|]. intros E. apply Hxe. split; [|done]. destruct x as [h n], e as [h' n']. cbn in E.
      subst h'. f_equal. assert (He : (h, n') ∈ m_hash_pool (cs_st s)) by (apply Hl; left).
      pose proof (map_find_in _ _ _ (xi_sorted _ Hi) Hx). pose proof (map_find_in _ _ _ (xi_sorted _ Hi) He).
      congruence. }
  eapply XSafe_bind; [apply (IH s1); [done|by etrans| |done]|].
  { intros x Hx. apply Hpool. split; [apply Hl; by right|]. intros [-> _]. apply Hne. by apply list_elem_of_fmap_2. }
  intros r s2 Hi2 Hf2 (-> & Ht2 & Hp2). apply XSafe_ret; [done|]. split_and!.
  - cbn [List.filter]. rewrite Hk, (Hfil _ _ Hkeeps), (Hfil (fun x => negb (keeps s1 x)) (fun x => negb (keeps s x)))
      by (intros x; by rewrite Hkeeps). by destruct (keep b).
  - by etrans.
  - intros x. rewrite Hp2, Hpool, elem_of_cons, Hkeeps, <- Hk. split.
    + intros [[Hx H1'] H2']. split; [done|]. intros [[->|?] ?]; intuition.
    + intros [Hx Hno]. split_and!; [done| |]; intuition; subst; auto.
Qed.
End TakeLoop.
