(* ===== verification/CertSteps.v ===== *)
(** * The context layer as a state machine *)

From stdpp Require Import prelude gmap strings.
From Stdlib Require Import ZArith Lia Sorting.Sorted Sorting.Permutation.
From S2P Require Import Prelude Stream StdMap VBlock Pdu Proposal BFTState Rules RulesFacts.
From S2P Require Import CertContext CertInv CertFacts CertPool.

(** ** Events *)

Definition xadd_outs (l : list xevent) (s : xstate) : xstate :=
  CState (cs_world s) (cs_st s) (if cs_parent s then cs_out s ++ l else cs_out s) (cs_self s) (cs_parent s).
Lemma xadd_outs_nil s : xadd_outs [] s = s.
Proof. destruct s as [? ? ? ? []]; unfold xadd_outs; cbn; by rewrite ?app_nil_r. Qed.
Lemma xadd_outs_app l l' s : xadd_outs l' (xadd_outs l s) = xadd_outs (l ++ l') s.
Proof. destruct s as [? ? ? ? []]; unfold xadd_outs; cbn; by rewrite ?app_assoc. Qed.
Lemma xfire_runs e (s : xstate) : fire e s = Some (tt, xadd_outs [e] s).
Proof. unfold fire, emit, modify, add_out, xadd_outs. by destruct (cs_parent s) eqn:E; destruct s; cbn in *; subst. Qed.

(** Appending to the output touches nothing else. *)
Lemma out_fwd (s : xstate) out :
  cs_out s `prefix_of` out ->
  xfwd s (CState (cs_world s) (cs_st s) out (cs_self s) (cs_parent s)).
Proof.
  intros Hp. split; try done; [by destruct s as [[] ? ? ? ?]|..]; intros ? ?; by eexists.
Qed.
Lemma out_inv `{HK : HashesKept} (s : xstate) out : xinv s -> xinv (CState (cs_world s) (cs_st s) out (cs_self s) (cs_parent s)).
Proof. by intros []. Qed.
Lemma xadd_outs_fwd l s : xfwd s (xadd_outs l s).
Proof. apply out_fwd. destruct (cs_parent s); [by eexists|done]. Qed.
Lemma xadd_outs_inv `{HK : HashesKept} l s : xinv s -> xinv (xadd_outs l s).
Proof. apply out_inv. Qed.

Definition down_outs (e : xevent) (s : xstate) : xstate := if x_child (cs_st s) then add_out e s else s.
Lemma fire_down_runs e s : fire_down e s = Some (tt, down_outs e s).
Proof. unfold fire_down, down_outs, bind, st_get, gets. by destruct (x_child (cs_st s)). Qed.
Lemma down_outs_ok `{HK : HashesKept} e s : xinv s -> xinv (down_outs e s) /\ xfwd s (down_outs e s).
Proof.
  intros Hi. unfold down_outs, add_out. destruct (x_child (cs_st s)); [|done].
  split; [by apply out_inv|]. apply out_fwd. by eexists.
Qed.

(** ** Sorting the nodes taken out *)

Definition view_of (s : xstate) (n : ptr) : Z := match blk s n with Some b => get_viewid b | None => 0 end.
Definition sorted_nodes (s : xstate) (l : list (string * ptr)) : list ptr :=
  snd <$> sort_by fst ((fun e => (view_of s e.2, e.2)) <$> l).

Lemma sort_nodes_reads s l :
  (forall e, e ∈ l -> exists b, blk s e.2 = Some b) -> reads (sort_nodes l) (sorted_nodes s l) s.
Proof.
  intros Hl. unfold sort_nodes.
  assert (Hm : reads (map_prog (fun e : string * ptr => let* b := node_block e.2 in ret (get_viewid b, e.2)) l)
                 ((fun e => (view_of s e.2, e.2)) <$> l) s).
  { apply reads_map. intros e He. destruct (Hl e He) as [b Hb]. unfold reads.
    rewrite (bind_runs _ _ _ _ _ (node_block_reads _ _ _ Hb)). unfold view_of. by rewrite Hb. }
  unfold reads. by rewrite (bind_runs _ _ _ _ _ Hm).
Qed.
Lemma sorted_nodes_perm s l : sorted_nodes s l ≡ₚ snd <$> l.
Proof. unfold sorted_nodes. rewrite sort_by_perm, <- list_fmap_compose. done. Qed.

(** Different nodes of the pool have different views, so the order is strict. *)
Lemma sorted_nodes_strict `{HK : HashesKept} s l :
  xinv s -> NoDup l -> (forall e, e ∈ l -> e ∈ m_hash_pool (cs_st s)) ->
  StronglySorted (fun a b => view_of s a < view_of s b) (sorted_nodes s l).
Proof.
  intros Hi Hnd Hl. set (f := fun e : string * ptr => (view_of s e.2, e.2)).
  assert (Hs : StronglySorted (fun x y : Z * ptr => x.1 < y.1) (sort_by fst (f <$> l))).
  { apply sort_by_strict. rewrite <- list_fmap_compose. apply NoDup_fmap_2_strong; [|done].
    intros [h n] [h' n'] He He' E. cbn in E.
    destruct (pool_blk _ _ _ Hi (Hl _ He)) as [b Hb], (pool_blk _ _ _ Hi (Hl _ He')) as [b' Hb'].
    unfold view_of in E. rewrite Hb, Hb' in E. by eapply (xi_inj _ Hi); eauto. }
  assert (Hk : Forall (fun x : Z * ptr => x.1 = view_of s x.2) (sort_by fst (f <$> l))).
  { rewrite Forall_forall. intros x. rewrite sort_by_perm. by intros (e & -> & _)%list_elem_of_fmap. }
  unfold sorted_nodes. fold f. revert Hk. induction Hs as [|x m Hs IH Hx]; cbn; [constructor|].
  intros [Ex Hk]%Forall_cons. constructor; [by apply IH|]. apply Forall_forall.
  rewrite Forall_forall in Hk. pose proof (proj1 (Forall_forall _ _) Hx) as Hx'. clear Hx. rename Hx' into Hx.
  intros y (z & -> & Hz)%list_elem_of_fmap. specialize (Hx z Hz). rewrite Ex, (Hk z Hz) in Hx. done.
Qed.

Lemma pool_nodup `{HK : HashesKept} s : xinv s -> NoDup (fst <$> m_hash_pool (cs_st s)).
Proof.
  intros Hi. pose proof (xi_sorted _ Hi) as Hs. induction Hs as [|e m Hs IH Hf]; cbn; [constructor|].
  apply NoDup_cons. split; [|done]. intros (e' & E & Hin)%list_elem_of_fmap. rewrite Forall_forall in Hf.
  specialize (Hf _ Hin). rewrite E, key_lt_irrefl in Hf. done.
Qed.

Section Pool.
Context `{HL : XVBlockLaws} `{HN : XVBNodeLaws} `{HK : HashesKept}.

(** ** Submitting *)

Definition is_committed (b : xvblock) : bool := check_block_flag b enum_xvblock_flag_committed.

Lemma XSafe_take_committed e t b :
  xinv t -> e ∈ m_hash_pool (cs_st t) -> blk t e.2 = Some b ->
  XSafe (take_committed e) t (fun r t' => r = negb (is_committed b) /\ took t t' /\
    m_hash_pool (cs_st t') = if r then m_hash_pool (cs_st t) else map_erase e.1 (m_hash_pool (cs_st t))).
Proof.
  intros Hi He Hb. unfold take_committed, is_committed. eapply XSafe_read_bind; [by apply node_block_reads|].
  destruct (check_block_flag _ _); [|by apply XSafe_ret].
  apply (XSafe_from _ (ret false) t (dropped e b t)); [apply dropped_fwd|done|].
  apply XSafe_ret; [by apply dropped_inv|]. split_and!; try done. apply dropped_took.
Qed.

(** The event that announces the commit of a node's block: with the blocks of
    the two nodes after it where they are known. *)
Definition next_two (s : xstate) (x : vbnode) : option (ptr * ptr) :=
  c ← n_child x; y ← x_nodes (cs_st s) !! c; d ← n_child y; z ← x_nodes (cs_st s) !! d; Some (n_block y, n_block z).
Definition commit_event (s : xstate) (highest : option ptr) (n : ptr) : xevent :=
  let target := n_block <$> x_nodes (cs_st s) !! n in
  match x_nodes (cs_st s) !! n ≫= next_two s with
  | Some (l, h) => EvConsensusCommit target target (Some l) (Some h)
  | None => EvConsensusCommit target target (x_latest_lock_block (cs_st s)) highest
  end.

Lemma submit_node_runs hc n s :
  xinv s -> is_Some (x_nodes (cs_st s) !! n) -> submit_node hc n s = Some (tt, xadd_outs [commit_event s hc n] s).
Proof.
  intros Hi [x Hx]. unfold submit_node, commit_event.
  rewrite (bind_runs _ _ _ _ _ (node_deref_reads _ _ _ Hx)), Hx. cbn [option_bind mbind].
  erewrite (bind_runs _ _ (next_two s x) s s).
  - destruct (next_two s x) as [[l h]|]; apply xfire_runs.
  - unfold next_two. destruct (n_child x) as [c|] eqn:Ec; [|done]. cbn.
    destruct (xi_child _ Hi _ _ _ Hx Ec) as [y Hy]. rewrite Hy. cbn.
    rewrite (bind_runs _ _ _ _ _ (node_deref_reads _ _ _ Hy)).
    destruct (n_child y) as [d|] eqn:Ed; [|done]. cbn.
    destruct (xi_child _ Hi _ _ _ Hy Ed) as [z Hz]. rewrite Hz. cbn.
    by rewrite (bind_runs _ _ _ _ _ (node_deref_reads _ _ _ Hz)).
Qed.

Lemma commit_event_outs l s hc n : commit_event (xadd_outs l s) hc n = commit_event s hc n.
Proof. done. Qed.

Lemma submit_all_runs hc l s :
  xinv s -> (forall n, n ∈ l -> is_Some (x_nodes (cs_st s) !! n)) ->
  for_each l (submit_node hc) s = Some (tt, xadd_outs (commit_event s hc <$> l) s).
Proof.
  revert s. induction l as [|n l IH]; intros s Hi Hl; cbn.
  { by rewrite xadd_outs_nil. }
  rewrite (bind_runs _ _ _ _ _ (submit_node_runs hc n s Hi (Hl n ltac:(left)))).
  rewrite IH; [|by apply xadd_outs_inv|intros m Hm; apply Hl; by right]. by rewrite xadd_outs_app.
Qed.

(** The nodes of the pool whose block satisfies [f], in view order. *)
Definition leaves (f : xvblock -> bool) (s : xstate) (e : string * ptr) : bool :=
  match blk s e.2 with Some b => f b | None => false end.
Definition pool_where (f : xvblock -> bool) (s : xstate) : list ptr :=
  sorted_nodes s (List.filter (leaves f s) (m_hash_pool (cs_st s))).
(** From [s] to [s'] exactly the nodes whose block satisfies [f] left the pool. *)
Definition pool_without (f : xvblock -> bool) (s s' : xstate) : Prop :=
  forall e, e ∈ m_hash_pool (cs_st s') <-> e ∈ m_hash_pool (cs_st s) /\ leaves f s e = false.

Lemma took_sorted s s' l : took s s' -> sorted_nodes s' l = sorted_nodes s l.
Proof.
  intros Ht. unfold sorted_nodes. do 2 f_equal. apply list_fmap_ext. intros i e _. unfold view_of.
  by rewrite (tk_blk _ _ _ Ht).
Qed.
Lemma keeps_leaves f s e : is_Some (blk s e.2) -> keeps (fun b => negb (f b)) s e = negb (leaves f s e).
Proof. unfold keeps, leaves. by intros [b ->]. Qed.

Lemma pool_where_spec f s :
  xinv s ->
  StronglySorted (fun a b => view_of s a < view_of s b) (pool_where f s) /\
  forall n, n ∈ pool_where f s <-> exists h b, (h, n) ∈ m_hash_pool (cs_st s) /\ blk s n = Some b /\ f b = true.
Proof.
  intros Hi. split.
  - apply sorted_nodes_strict; [done| |by intros e [? _]%in_filter].
    apply NoDup_ListNoDup, List.NoDup_filter, NoDup_ListNoDup. by eapply NoDup_fmap_1, pool_nodup.
  - intros n. unfold pool_where. rewrite sorted_nodes_perm, list_elem_of_fmap. split.
    + intros ([h m] & -> & [Hin Hl]%in_filter). unfold leaves in Hl. cbn in Hl |- *.
      destruct (blk s m) as [b|] eqn:Hb; [|done]. by exists h, b.
    + intros (h & b & Hin & Hb & Hf). exists (h, n). split; [done|]. apply in_filter. split; [done|].
      unfold leaves. cbn. by rewrite Hb.
Qed.

(** The loop over the pool takes out what [f] says, and sorting the nodes it
    took gives [pool_where]. *)
Lemma XSafe_take_pool test f s :
  xinv s ->
  (forall e t b, xinv t -> took s t -> e ∈ m_hash_pool (cs_st t) -> blk t e.2 = Some b ->
    XSafe (test e) t (fun r t' => r = negb (f b) /\ took t t' /\
      m_hash_pool (cs_st t') = if r then m_hash_pool (cs_st t) else map_erase e.1 (m_hash_pool (cs_st t)))) ->
  XSafe (let* taken := partition_prog test (m_hash_pool (cs_st s)) in sort_nodes taken.2) s
    (fun l s' => l = pool_where f s /\ took s s' /\ pool_without f s s').
Proof.
  intros Hi Ht.
  assert (Hblk : forall e, e ∈ m_hash_pool (cs_st s) -> is_Some (blk s e.2)).
  { intros [h n] He. destruct (pool_blk _ _ _ Hi He) as [b Hb]. by exists b. }
  eapply XSafe_bind; [apply (XSafe_take_loop test (fun b => negb (f b)) s Ht _ s); [done|done|done|by apply pool_nodup]|].
  intros r s1 Hi1 Hf1 (-> & Htk & Hp). cbn [snd].
  assert (Hfil : List.filter (fun e => negb (keeps (fun b => negb (f b)) s e)) (m_hash_pool (cs_st s))
                 = List.filter (leaves f s) (m_hash_pool (cs_st s))).
  { apply List.filter_ext_in. intros e He%list_elem_of_In. rewrite keeps_leaves by auto. apply negb_involutive. }
  rewrite Hfil. eapply XSafe_reads; [done|apply sort_nodes_reads|].
  - intros e [He _]%in_filter. rewrite (tk_blk _ _ _ Htk). by destruct (Hblk e He) as [b Hb]; exists b.
  - split_and!; [by rewrite (took_sorted _ _ _ Htk)|done|]. intros e. rewrite Hp. split.
    + intros [He Hn]. split; [done|]. destruct (leaves f s e) eqn:E; [|done]. exfalso. apply Hn. split; [done|].
      rewrite keeps_leaves by auto. by rewrite E.
    + intros [He Hl]. split; [done|]. intros [_ Hk]. rewrite keeps_leaves, Hl in Hk by auto. done.
Qed.

Lemma took_block s s' m : took s s' -> n_block <$> x_nodes (cs_st s') !! m = n_block <$> x_nodes (cs_st s) !! m.
Proof.
  intros Ht. pose proof (tk_nodes _ _ Ht m) as E. destruct (x_nodes (cs_st s') !! m), (x_nodes (cs_st s) !! m); try done.
  cbn in *. by injection E as -> _.
Qed.
Lemma took_commit_event s s' hc n : took s s' -> commit_event s' hc n = commit_event s hc n.
Proof.
  intros Ht. pose proof (fun m => took_block _ _ m Ht) as Hb.
  assert (Hn : x_nodes (cs_st s') !! n ≫= next_two s' = x_nodes (cs_st s) !! n ≫= next_two s).
  { pose proof (tk_nodes _ _ Ht n) as E. destruct (x_nodes (cs_st s') !! n) as [x'|], (x_nodes (cs_st s) !! n) as [x|]; try done.
    cbn in *. injection E as _ Ec. unfold next_two. rewrite Ec. destruct (n_child x) as [c|]; [|done]. cbn.
    pose proof (tk_nodes _ _ Ht c) as E. destruct (x_nodes (cs_st s') !! c) as [y'|], (x_nodes (cs_st s) !! c) as [y|]; try done.
    cbn in *. injection E as -> ->. destruct (n_child y) as [d|]; [|done]. cbn. specialize (Hb d).
    destruct (x_nodes (cs_st s') !! d), (x_nodes (cs_st s) !! d); try done. cbn in *. by injection Hb as ->. }
  unfold commit_event. by rewrite Hb, Hn, (tk_lock _ _ Ht).
Qed.

(** The events of a submission: the driver below hears the new commit and
    lock, the layers above of each committed block, oldest view first. *)
Definition submit_events (hc : option ptr) (s : xstate) : list xevent :=
  (if x_child (cs_st s)
   then [EvConsensusUpdateDown (x_latest_commit_block (cs_st s)) (x_latest_lock_block (cs_st s)) None] else [])
  ++ (if cs_parent s then commit_event s hc <$> pool_where is_committed s else []).

Lemma xadd_outs_out l s : cs_out (xadd_outs l s) = cs_out s ++ (if cs_parent s then l else []).
Proof. unfold xadd_outs. cbn. destruct (cs_parent s); [done|by rewrite app_nil_r]. Qed.

Lemma XSafe_do_submit hc s :
  xinv s ->
  XSafe (do_submit hc) s (fun r s' =>
    r = true /\ pool_without is_committed s s' /\ cs_world s' = cs_world s /\
    x_latest_commit_block (cs_st s') = x_latest_commit_block (cs_st s) /\
    x_latest_lock_block (cs_st s') = x_latest_lock_block (cs_st s) /\
    cs_out s' = cs_out s ++ submit_events hc s).
Proof.
  intros Hi. unfold do_submit. eapply XSafe_read_bind; [apply xst_get_reads|]. apply XSafe_assoc.
  eapply XSafe_bind; [apply (XSafe_take_pool take_committed is_committed); [done|]|].
  { intros e t b Ht _. by apply XSafe_take_committed. }
  intros l s1 Hi1 Hf1 (-> & Ht & Hp). do 2 (eapply XSafe_read_bind; [apply xst_get_reads|]).
  rewrite (tk_commit _ _ Ht), (tk_lock _ _ Ht).
  set (e := EvConsensusUpdateDown _ _ _). destruct (down_outs_ok e s1 Hi1) as [Hi2 Hf2].
  apply (XSafe_from _ (for_each (pool_where is_committed s) (submit_node hc) ;;; ret true) s1 (down_outs e s1));
    [done|by rewrite (bind_runs _ _ _ _ _ (fire_down_runs e s1))|].
  assert (Hnodes : cs_st (down_outs e s1) = cs_st s1) by (unfold down_outs; by destruct (x_child _)).
  apply (XSafe_from _ (ret true) (down_outs e s1)
           (xadd_outs (commit_event (down_outs e s1) hc <$> pool_where is_committed s) (down_outs e s1))).
  - apply xadd_outs_fwd.
  - erewrite (bind_runs _ _ tt); [done|]. apply submit_all_runs; [done|]. intros n Hn. rewrite Hnodes.
    apply (proj2 (pool_where_spec _ _ Hi)) in Hn as (h & b & Hin & _).
    destruct (xi_pool _ Hi _ _ Hin) as (x & Hx & _). eapply xfwd_known; [done|by exists x].
  - apply XSafe_ret; [by apply xadd_outs_inv|]. split_and!; [done|..].
    + intros e'. cbn. rewrite Hnodes. apply Hp.
    + transitivity (cs_world s1); [|apply Ht]. unfold down_outs, xadd_outs. by destruct (x_child _).
    + cbn. rewrite Hnodes. apply Ht.
    + cbn. rewrite Hnodes. apply Ht.
    + rewrite xadd_outs_out. unfold submit_events.
      assert (Ep : cs_parent (down_outs e s1) = cs_parent s).
      { rewrite <- (xf_up _ _ Hf1). unfold down_outs. by destruct (x_child _). }
      assert (Ec : commit_event (down_outs e s1) hc <$> pool_where is_committed s =
                   commit_event s hc <$> pool_where is_committed s).
      { apply list_fmap_ext. intros i n _. rewrite <- (took_commit_event s s1) by done.
        unfold commit_event, next_two. by rewrite Hnodes. }
      rewrite Ep, Ec. unfold down_outs. rewrite (xf_down _ _ Hf1).
      destruct (x_child (cs_st s)); cbn; rewrite (tk_out _ _ Ht); [|done]. by rewrite <- app_assoc.
Qed.

(** ** Cleaning *)

(** [outdated] as a predicate: at or behind the commit, below the lock, or
    beside the lock at its height.  With no commit known every block is. *)
Definition stale (commit lock : option xvblock) (b : xvblock) : bool :=
  match commit with
  | None => true
  | Some cb =>
      (get_height b <=? get_height cb) || (get_viewid b <=? get_viewid cb)
      || match lock with
         | Some lb => (get_height b <? get_height lb)
                      || ((get_height b =? get_height lb) && negb (get_viewid b =? get_viewid lb))
         | None => false
         end
  end.

Lemma outdated_reads commit lock b (s : xstate) :
  (commit <> None -> lock <> None) -> reads (outdated commit lock b) (stale commit lock b) s.
Proof.
  intros Hb. unfold outdated, stale, reads. destruct commit as [cb|]; [|done].
  destruct (_ || _); [done|]. destruct lock as [lb|]; [done|]. by destruct Hb.
Qed.

Lemma XSafe_cut_parent n x s :
  xinv s -> x_nodes (cs_st s) !! n = Some x ->
  XSafe (cut_parent n x) s (fun _ s' => took s s' /\ m_hash_pool (cs_st s') = m_hash_pool (cs_st s)).
Proof.
  intros Hi Hx. unfold cut_parent. destruct (n_parent x) as [q|] eqn:Eq; [|by apply XSafe_ret].
  destruct (parent_known _ _ _ Hi Hx q Eq) as [y Hy]. eapply XSafe_read_bind; [by apply node_deref_reads|].
  assert (Hcut : XSafe (node_update n (with_node_parent None)) s
            (fun _ s' => took s s' /\ m_hash_pool (cs_st s') = m_hash_pool (cs_st s))).
  { eapply XSafe_mono; [eapply XSafe_node_update; try done; cbn; intros c; by eapply (xi_child _ Hi)|].
    intros [] s' _ _ ->. split; [|done]. split; try done. intros m. cbn. destruct (decide (n = m)) as [<-|Hne].
    - by rewrite lookup_insert_eq, Hx.
    - by rewrite lookup_insert_ne. }
  destruct (n_flags y =? 0); [done|]. destruct (xi_block _ Hi _ _ Hy) as [qb Hqb].
  eapply XSafe_read_bind; [by apply xderef_reads|]. destruct (check_block_flag _ _); [done|]. by apply XSafe_ret.
Qed.

Lemma XSafe_clean_node cb lb e t b :
  (cb <> None -> lb <> None) -> xinv t -> e ∈ m_hash_pool (cs_st t) -> blk t e.2 = Some b ->
  XSafe (clean_node cb lb e) t (fun r t' => r = negb (stale cb lb b) /\ took t t' /\
    m_hash_pool (cs_st t') = if r then m_hash_pool (cs_st t) else map_erase e.1 (m_hash_pool (cs_st t))).
Proof.
  intros Hcl Hi He Hb. unfold clean_node. destruct e as [h n]. cbn in Hb |- *.
  destruct (xi_pool _ Hi _ _ He) as (x & Hx & _). eapply XSafe_read_bind; [by apply node_deref_reads|].
  eapply XSafe_bind; [by apply XSafe_cut_parent|]. intros [] t1 Hi1 Hf1 [Ht1 Hp1].
  assert (Hb0 : block_at (n_block x) t = Some b) by (unfold blk in Hb; by rewrite Hx in Hb).
  assert (Hb1 : block_at (n_block x) t1 = Some b) by (unfold block_at in *; by rewrite (tk_world _ _ Ht1)).
  eapply XSafe_read_bind; [by apply xderef_reads|]. eapply XSafe_read_bind; [by apply outdated_reads|].
  destruct (stale cb lb b); [|apply XSafe_ret; [done|]; by split_and!].
  apply (XSafe_from _ (ret false) t1 (dropped (h, n) b t1)); [apply dropped_fwd|done|].
  apply XSafe_ret; [|split_and!; [done|etrans; [exact Ht1|apply dropped_took]|cbn; by rewrite Hp1]].
  apply dropped_inv; [done|by rewrite Hp1|]. cbn. by rewrite (tk_blk _ _ _ Ht1).
Qed.

Definition cancel_event (s : xstate) (n : ptr) : xevent :=
  EvProposalFinish enum_xconsensus_error_cancel EmptyString (n_block <$> x_nodes (cs_st s) !! n) None None None None.

Lemma cancel_all_runs l s :
  (forall n, n ∈ l -> is_Some (x_nodes (cs_st s) !! n)) ->
  for_each l cancel_node s = Some (tt, xadd_outs (cancel_event s <$> l) s).
Proof.
  revert s. induction l as [|n l IH]; intros s Hl; cbn; [by rewrite xadd_outs_nil|].
  destruct (Hl n ltac:(left)) as [x Hx].
  rewrite (bind_runs _ _ tt s (xadd_outs [cancel_event s n] s)).
  - rewrite IH; [|intros m Hm; apply Hl; by right]. by rewrite xadd_outs_app.
  - unfold cancel_node, cancel_event. rewrite (bind_runs _ _ _ _ _ (node_deref_reads _ _ _ Hx)), Hx. apply xfire_runs.
Qed.

Lemma deref_opt_reads o (s : xstate) :
  (forall p, o = Some p -> allocated s p) -> reads (deref_opt o) (o ≫= fun p => block_at p s) s.
Proof.
  intros Ho. destruct o as [p|]; [|done]. destruct (Ho p eq_refl) as [b Hb]. unfold reads, deref_opt.
  rewrite (bind_runs _ _ _ _ _ (xderef_reads _ _ _ Hb)). cbn. by rewrite Hb.
Qed.
Lemma commit_has_lock s : xinv s -> commit_of s <> None -> ctx_lock_of s <> None.
Proof.
  intros Hi. unfold commit_of, ctx_lock_of. pose proof (xi_both _ Hi) as Hb.
  destruct (x_latest_commit_block (cs_st s)) as [p|]; [|done].
  destruct (x_latest_lock_block (cs_st s)) as [l|] eqn:El; [|by destruct Hb].
  destruct (xi_lock _ Hi l El) as [lb Hlb]. cbn. by rewrite Hlb.
Qed.

Definition is_stale (s : xstate) : xvblock -> bool := stale (commit_of s) (ctx_lock_of s).

Lemma XSafe_do_clean s :
  xinv s ->
  XSafe do_clean s (fun r s' =>
    r = true /\ pool_without (is_stale s) s s' /\ cs_world s' = cs_world s /\
    x_latest_commit_block (cs_st s') = x_latest_commit_block (cs_st s) /\
    x_latest_lock_block (cs_st s') = x_latest_lock_block (cs_st s) /\
    cs_out s' = cs_out s ++ (if cs_parent s then cancel_event s <$> pool_where (is_stale s) s else [])).
Proof.
  intros Hi. unfold do_clean. eapply XSafe_read_bind; [apply xst_get_reads|].
  eapply XSafe_read_bind; [apply deref_opt_reads, Hi|]. eapply XSafe_read_bind; [apply xst_get_reads|].
  eapply XSafe_read_bind; [apply deref_opt_reads, Hi|]. eapply XSafe_read_bind; [apply xst_get_reads|]. apply XSafe_assoc.
  eapply XSafe_bind; [apply (XSafe_take_pool _ (is_stale s)); [done|]|].
  { intros e t b Ht _. apply XSafe_clean_node; [by apply commit_has_lock|done]. }
  intros l s1 Hi1 Hf1 (-> & Ht & Hp).
  apply (XSafe_from _ (ret true) s1 (xadd_outs (cancel_event s1 <$> pool_where (is_stale s) s) s1)).
  - apply xadd_outs_fwd.
  - erewrite (bind_runs _ _ tt); [done|]. apply cancel_all_runs. intros n Hn.
    apply (proj2 (pool_where_spec _ _ Hi)) in Hn as (h & b & Hin & _).
    destruct (xi_pool _ Hi _ _ Hin) as (x & Hx & _). eapply xfwd_known; [done|by exists x].
  - apply XSafe_ret; [by apply xadd_outs_inv|]. split_and!; [done|done|apply Ht..|].
    rewrite xadd_outs_out, (tk_out _ _ Ht), (xf_up _ _ Hf1). destruct (cs_parent s); [|done]. f_equal.
    apply list_fmap_ext. intros i n _. unfold cancel_event. by rewrite (took_block _ _ n Ht).
Qed.
End Pool.
