(* ===== verification/CertReach.v ===== *)
(** * The context layer in execution

    The event handlers and the changes made by the rest of the node as steps,
    the invariant over all executions, and the properties of the context:
    the three-chain rule, what enters the pool, what leaves it and which
    events tell of it. *)

From stdpp Require Import prelude gmap strings.
From Stdlib Require Import ZArith Lia Sorting.Sorted.
From S2P Require Import Prelude Stream StdMap VBlock Pdu Concrete Proposal BFTState Rules RulesFacts.
From S2P Require Import CertContext CertInv CertFacts CertPool CertSteps.

(** The pointers an event carries are valid. *)
Definition xev_ok (s : xstate) (ev : xcsevent) : Prop :=
  forall p, Some p ∈ [xe_target ev; xe_commit ev; xe_lock ev; xe_cert ev] -> allocated s p.

Lemma xev_fwd s s' ev : xfwd s s' -> xev_ok s ev -> xev_ok s' ev.
Proof. intros Hf Hev p Hp. eapply xfwd_alloc; [done|by apply Hev]. Qed.

Section Handlers.
Context `{HL : XVBlockLaws} `{HN : XVBNodeLaws} `{HK : HashesKept}.

(** Nothing to say about the result: the invariant and [xfwd] are enough. *)
Definition XOk {A} (m : XP A) (s : xstate) : Prop := XSafe m s (fun _ _ => True).
Lemma XOk_of {A} (m : XP A) s Q : XSafe m s Q -> XOk m s.
Proof. intros Hm. by eapply XSafe_mono. Qed.
Lemma XOk_bind {A B} (m : XP A) (k : A -> XP B) s :
  XOk m s -> (forall a s1, xinv s1 -> xfwd s s1 -> XOk (k a) s1) -> XOk (bind m k) s.
Proof. intros Hm Hk. eapply XSafe_bind; [exact Hm|]. intros a s1 Hi Hf _. by apply Hk. Qed.
Lemma XOk_ret {A} (a : A) s : xinv s -> XOk (ret a) s.
Proof. intros Hi. by apply XSafe_ret. Qed.

Lemma XOk_do_update o s : xinv s -> (forall p, o = Some p -> allocated s p) -> XOk (do_update o) s.
Proof.
  intros Hi Ho. destruct o as [p|]; [|by eapply XSafe_reads].
  destruct (Ho p eq_refl) as [b Hb]. by eapply XOk_of, XSafe_do_update.
Qed.

Lemma XOk_enter_known o s : xinv s -> (forall p, o = Some p -> allocated s p) -> XOk (enter_known o) s.
Proof.
  intros Hi Ho. destruct o as [p|]; [|by apply XOk_ret]. cbn. destruct (Ho p eq_refl) as [b Hb].
  eapply XSafe_read_bind; [by apply xderef_reads|]. eapply XSafe_read_bind; [apply xst_get_reads|].
  destruct (set_mem _ _); [by apply XOk_ret|]. apply XOk_bind; [by apply XOk_do_update|].
  intros r s1 Hi1 _. by apply XOk_ret.
Qed.

Lemma XOk_checked {A} o (f : XP A) (d : A) s :
  xinv s -> (forall p, o = Some p -> allocated s p) -> XOk f s ->
  XOk (let* ok := context_check_for_block o in if ok then f else ret d) s.
Proof.
  intros Hi Ho Hf. destruct (context_check_reads o s Ho) as [r Hr]. eapply XSafe_read_bind; [exact Hr|].
  destruct r; [done|by apply XOk_ret].
Qed.

Lemma XOk_clean s : xinv s -> XOk (do_clean ;;; ret tt) s.
Proof.
  intros Hi. apply XOk_bind; [by eapply XOk_of, XSafe_do_clean|]. intros r s1 Hi1 _. by apply XOk_ret.
Qed.

Lemma XOk_sync_latest ev s : xinv s -> xev_ok s ev -> XOk (sync_latest ev) s.
Proof.
  intros Hi Hev. unfold sync_latest.
  assert (Hal : forall t o, xfwd s t -> o ∈ [xe_target ev; xe_commit ev; xe_lock ev; xe_cert ev] ->
            forall p, o = Some p -> allocated t p).
  { intros t o Hf Ho p ->. by eapply xev_fwd. }
  apply XOk_bind; [apply XOk_enter_known, (Hal s); [done..|set_solver]|]. intros [] s1 Hi1 Hf1.
  apply XOk_bind; [apply XOk_enter_known, (Hal s1); [done..|set_solver]|]. intros [] s2 Hi2 Hf2.
  assert (Hf02 : xfwd s s2) by by etrans.
  apply XSafe_assoc. apply XOk_bind.
  { apply XOk_checked; [done|apply (Hal s2); [done|set_solver]|]. eapply XOk_of, XSafe_update_lock; [done|].
    apply (Hal s2); [done|set_solver]. }
  intros c s3 Hi3 Hf3. assert (Hf03 : xfwd s s3) by by etrans.
  apply XSafe_assoc. apply XOk_bind.
  { apply XOk_checked; [done|apply (Hal s3); [done|set_solver]|]. eapply XOk_of, XSafe_update_commit; [done|].
    apply (Hal s3); [done|set_solver]. }
  intros c' s4 Hi4 Hf4. destruct (c || c'); [by apply XOk_clean|by apply XOk_ret].
Qed.

Lemma XOk_filled (b : bool) ev s :
  xinv s -> XOk (let* ev' := fill_latest ev in (ret (b, ev') : XP (bool * xcsevent))) s.
Proof. intros Hi. by eapply XSafe_reads. Qed.

Lemma XOk_enter_certified ev s : xinv s -> xev_ok s ev -> XOk (enter_certified ev) s.
Proof.
  intros Hi Hev. assert (Ht : forall p, xe_target ev = Some p -> allocated s p).
  { intros p E. apply Hev. rewrite E. left. }
  unfold enter_certified. destruct (context_check_reads _ s Ht) as [r Hr].
  eapply XSafe_read_bind; [exact Hr|]. destruct r; cbn [negb]; [|by apply XOk_ret].
  apply XOk_bind; [by apply XOk_do_update|]. intros [] s1 Hi1 Hf1; [|by apply XOk_ret].
  apply XOk_bind; [by eapply XOk_of, XSafe_do_submit|]. intros r s2 Hi2 Hf2.
  apply XOk_bind; [by eapply XOk_of, XSafe_do_clean|]. intros r' s3 Hi3 Hf3. by apply XOk_ret.
Qed.

(** ** The handlers as steps *)

Inductive ctx_input :=
  | InProposalStart (ev : xcsevent)
  | InProposalFinish (ev : xcsevent)
  | InConsensusUpdate (down : bool) (ev : xcsevent)
  | InReplicateFinish (ev : xcsevent).
Definition in_event (i : ctx_input) : xcsevent :=
  match i with InProposalStart ev | InProposalFinish ev | InConsensusUpdate _ ev | InReplicateFinish ev => ev end.
Definition ctx_handle (i : ctx_input) : XP (bool * xcsevent) :=
  match i with
  | InProposalStart ev => context_on_proposal_start ev
  | InProposalFinish ev => context_on_proposal_finish ev
  | InConsensusUpdate down ev => context_on_consensus_update down ev
  | InReplicateFinish ev => context_on_replicate_finish ev
  end.

Lemma XOk_handle i s : xinv s -> xev_ok s (in_event i) -> XOk (ctx_handle i) s.
Proof.
  intros Hi Hev. destruct i as [ev|ev|down ev|ev]; cbn in Hev; cbn [ctx_handle].
  - apply XOk_bind; [by apply XOk_sync_latest|]. intros [] s1 Hi1 _. by apply XOk_filled.
  - unfold context_on_proposal_finish. apply XOk_bind.
    { destruct (_ =? _); [by apply XOk_enter_certified|by apply XOk_ret]. }
    intros pass s1 Hi1 _. destruct pass; [by apply XOk_filled|by apply XOk_ret].
  - unfold context_on_consensus_update. apply XOk_bind.
    { destruct down; [by apply XOk_sync_latest|by apply XOk_ret]. }
    intros [] s1 Hi1 _. by apply XOk_filled.
  - unfold context_on_replicate_finish. destruct (xe_target ev) eqn:E; [|by apply XOk_ret].
    destruct (_ =? _); [|by apply XOk_ret]. apply XOk_bind; [by apply XOk_enter_certified|].
    intros pass s1 Hi1 _. destruct pass; [by apply XOk_filled|by apply XOk_ret].
Qed.
End Handlers.

(** ** Executions *)

(** What the rest of the node may do: allocate blocks and change anything of
    a block but its header and view; under [hashes_kept] it leaves the hash of
    the blocks alone that nodes hold.  Heights are unsigned. *)
Record xenv_step `{HK : HashesKept} (s s' : xstate) : Prop := {
  xv_st : cs_st s' = cs_st s;
  xv_self : cs_self s' = cs_self s;
  xv_parent : cs_parent s' = cs_parent s;
  xv_out : cs_out s' = cs_out s;
  xv_blocks : forall p b, block_at p s = Some b -> exists b', block_at p s' = Some b' /\ same_pos b b';
  xv_heights : forall p b, block_at p s' = Some b -> 0 <= get_height b;
  xv_hashes : hashes_kept -> forall n b b', blk s n = Some b -> blk s' n = Some b' -> get_block_hash b' = get_block_hash b;
}.

Inductive cstep `{XVCert} `{XVBlock} `{XVBNode} `{HK : HashesKept} (s : xstate) : xstate -> Prop :=
  | ct_handle i r s' : xev_ok s (in_event i) -> ctx_handle i s = Some (r, s') -> cstep s s'
  | ct_env s' : xenv_step s s' -> cstep s s'.

Record ctx_initial (s : xstate) : Prop := {
  ci_st : cs_st s = new_context;
  ci_heights : forall p b, block_at p s = Some b -> 0 <= get_height b;
}.
Definition ctx_reachable `{XVCert} `{XVBlock} `{XVBNode} `{HK : HashesKept} (s : xstate) : Prop :=
  exists s0, ctx_initial s0 /\ rtc cstep s0 s.

(** What an execution never takes back. *)
Record cfwd (s s' : xstate) : Prop := {
  cf_commit : forall b, commit_of s = Some b -> exists b', commit_of s' = Some b' /\ pos_le b b';
  cf_lock : forall b, ctx_lock_of s = Some b -> exists b', ctx_lock_of s' = Some b' /\ pos_le b b';
  cf_out : cs_out s `prefix_of` cs_out s';
}.
#[export] Instance cfwd_preorder : PreOrder cfwd.
Proof.
  split; [by intros s; split; try done; intros b Hb; exists b|]. intros s1 s2 s3 [C1 L1 O1] [C2 L2 O2]. split.
  - intros b Hb. destruct (C1 b Hb) as (b1 & Hb1 & L). destruct (C2 b1 Hb1) as (b2 & Hb2 & L').
    exists b2. split; [done|by etrans].
  - intros b Hb. destruct (L1 b Hb) as (b1 & Hb1 & L). destruct (L2 b1 Hb1) as (b2 & Hb2 & L').
    exists b2. split; [done|by etrans].
  - by etrans.
Qed.
Lemma xfwd_cfwd s s' : xfwd s s' -> cfwd s s'.
Proof. intros []. done. Qed.

Section Executions.
Context `{HL : XVBlockLaws} `{HN : XVBNodeLaws} `{HK : HashesKept}.


Section Env.
Variables (s s' : xstate).
Hypotheses (Hi : xinv s) (He : xenv_step s s').

Lemma env_blk n b : blk s n = Some b -> exists b', blk s' n = Some b' /\ same_pos b b'.
Proof.
  unfold blk. rewrite (xv_st _ _ He). destruct (x_nodes (cs_st s) !! n); [|done]. cbn. apply (xv_blocks _ _ He).
Qed.
Lemma env_blk_inv n b' : blk s' n = Some b' -> exists b, blk s n = Some b /\ same_pos b b'.
Proof.
  intros Hb'. destruct (known_blk s n Hi) as [b Hb].
  { apply blk_known in Hb'. by rewrite (xv_st _ _ He) in Hb'. }
  destruct (env_blk n b Hb) as (b1 & Hb1 & Hs). exists b. split; [done|congruence].
Qed.
Lemma env_alloc p : allocated s p -> allocated s' p.
Proof. intros [b Hb]. destruct (xv_blocks _ _ He p b Hb) as (b' & Hb' & _). by exists b'. Qed.

Lemma env_inv : xinv s'.
Proof.
  pose proof (xv_st _ _ He) as E. split; rewrite ?E; try apply Hi.
  - apply He.
  - intros p Hp. by eapply env_alloc, (xi_commit _ Hi).
  - intros p Hp. by eapply env_alloc, (xi_lock _ Hi).
  - intros n x Hx. by eapply env_alloc, (xi_block _ Hi).
  - intros n x q Hx Hq. destruct (xi_parent _ Hi n x q Hx Hq) as (c & b & Hc & Hb & Eh & El).
    destruct (env_blk _ _ Hc) as (c' & Hc' & Sc), (env_blk _ _ Hb) as (b' & Hb' & Sb).
    exists c', b'. rewrite (same_pos_height _ _ Sc), (same_pos_height _ _ Sb), (same_pos_last _ _ Sb).
    split_and!; try done. intros Hk. rewrite (xv_hashes _ _ He Hk _ _ _ Hc Hc'). auto.
  - intros v. rewrite (xi_views _ Hi). split; intros (h & n & b & Hin & Hb & <-).
    + destruct (env_blk _ _ Hb) as (b' & Hb' & [_ Ev]). by exists h, n, b'.
    + destruct (env_blk_inv _ _ Hb) as (b' & Hb' & [_ Ev]). by exists h, n, b'.
  - intros h n b h' n' b' Hin Hin' Hb Hb' Ev.
    destruct (env_blk_inv _ _ Hb) as (c & Hc & [_ Sc]), (env_blk_inv _ _ Hb') as (c' & Hc' & [_ Sc']).
    eapply (xi_inj _ Hi); try done. congruence.
Qed.

Lemma env_ptr o b : (o ≫= fun p => block_at p s) = Some b -> exists b', (o ≫= fun p => block_at p s') = Some b' /\ pos_le b b'.
Proof.
  destruct o as [p|]; [|done]. cbn. intros Hb. destruct (xv_blocks _ _ He p b Hb) as (b' & Hb' & Hs).
  exists b'. split; [done|]. destruct Hs as [Eh Ev]. left. unfold get_height. by rewrite Eh, Ev.
Qed.
Lemma env_cfwd : cfwd s s'.
Proof.
  split; unfold commit_of, ctx_lock_of; rewrite ?(xv_st _ _ He), ?(xv_out _ _ He); [apply env_ptr..|done].
Qed.
End Env.

Lemma cstep_ok s s' : xinv s -> cstep s s' -> xinv s' /\ cfwd s s'.
Proof.
  intros Hi [i r t Hev E|t He]; [|by split; [eapply env_inv|apply env_cfwd]].
  destruct (XSafe_run _ _ _ _ _ E (XOk_handle i s Hi Hev)) as (Hi' & Hf & _). split; [done|by apply xfwd_cfwd].
Qed.
Lemma csteps_ok s s' : xinv s -> rtc cstep s s' -> xinv s' /\ cfwd s s'.
Proof.
  intros Hi Hr. induction Hr as [s|s s1 s' Hs Hr IH]; [done|].
  destruct (cstep_ok s s1 Hi Hs) as [Hi1 Hf1]. destruct (IH Hi1) as [Hi' Hf']. split; [done|by etrans].
Qed.
Lemma ctx_initial_inv s : ctx_initial s -> xinv s.
Proof.
  intros [E Hh].
  assert (Hno : forall n, x_nodes (cs_st s) !! n = None) by (intros n; rewrite E; apply lookup_empty).
  assert (Hp : forall e, e ∉ m_hash_pool (cs_st s)) by (intros e; rewrite E; apply not_elem_of_nil).
  split.
  - done.
  - by rewrite E.
  - by rewrite E.
  - by rewrite E.
  - intros n [x Hx]. by rewrite Hno in Hx.
  - intros n x Hx. by rewrite Hno in Hx.
  - intros n x q Hx. by rewrite Hno in Hx.
  - intros n x q Hx. by rewrite Hno in Hx.
  - rewrite E. constructor.
  - intros h n Hin. by destruct (Hp (h, n)).
  - intros v. split; [rewrite E; by intros ?%elem_of_nil|]. intros (h & n & b & Hin & _). by destruct (Hp (h, n)).
  - intros h n b h' n' b' Hin. by destruct (Hp (h, n)).
Qed.
Lemma ctx_reachable_inv s : ctx_reachable s -> xinv s.
Proof. intros (s0 & Hin & Hr). by destruct (csteps_ok s0 s (ctx_initial_inv _ Hin) Hr). Qed.
End Executions.

(** ** Properties *)

Section Properties.
Context `{HL : XVBlockLaws} `{HN : XVBNodeLaws} `{HK : HashesKept}.

Lemma block_marks s s' C L p b :
  marks s s' C L -> block_at p s = Some b -> exists b', block_at p s' = Some b' /\ marked (C p) (L p) b b'.
Proof. intros Hm. apply option_Forall2_Some_l, Hm. Qed.

(** What a certified block that was taken leaves behind: no node of the pool
    is committed or outdated. *)
Definition pool_settled (s : xstate) : Prop :=
  forall h n c, (h, n) ∈ m_hash_pool (cs_st s) -> blk s n = Some c ->
    is_committed c = false /\ stale (commit_of s) (ctx_lock_of s) c = false.

Lemma fwd_pool_blk s s' h n c :
  xinv s -> xfwd s s' -> cs_world s' = cs_world s -> (h, n) ∈ m_hash_pool (cs_st s) -> blk s' n = Some c -> blk s n = Some c.
Proof.
  intros Hi Hf Hw Hin. destruct (xi_pool _ Hi h n Hin) as (x & Hx & _).
  destruct (xf_nodes _ _ Hf n x Hx) as (x' & Hx' & E). unfold blk. rewrite Hx, Hx'. cbn. rewrite E.
  unfold block_at. by rewrite Hw.
Qed.

Lemma XSafe_settle hc s : xinv s -> XSafe (do_submit hc ;;; do_clean ;;; ret true) s (fun r s' => r = true /\ pool_settled s').
Proof.
  intros Hi. eapply XSafe_bind; [by apply XSafe_do_submit|].
  intros r s1 Hi1 Hf1 (_ & Hp1 & Hw1 & _). eapply XSafe_bind; [by apply XSafe_do_clean|].
  intros r' s2 Hi2 Hf2 (_ & Hp2 & Hw2 & Hc2 & Hl2 & _). apply XSafe_ret; [done|]. split; [done|].
  intros h n c [Hin Hs]%Hp2 Hc. assert (Hc1 : blk s1 n = Some c) by by eapply fwd_pool_blk.
  pose proof Hin as [Hin0 Hcm]%Hp1. assert (Hc0 : blk s n = Some c) by by eapply fwd_pool_blk.
  unfold leaves in Hs, Hcm. cbn in Hs, Hcm. rewrite Hc1 in Hs. rewrite Hc0 in Hcm. split; [done|].
  unfold is_stale, commit_of, ctx_lock_of, block_at in *. by rewrite Hc2, Hl2, Hw2.
Qed.

Lemma XSafe_enter_certified ev p b s :
  xinv s -> xe_target ev = Some p -> block_at p s = Some b ->
  XSafe (enter_certified ev) s (fun r s' => r = accepts s b /\ if r then pool_settled s' else s' = s).
Proof.
  intros Hi Ht Hb. unfold enter_certified. rewrite Ht.
  assert (Hd : reads (context_check_for_block (Some p)) (is_deliver b false) s).
  { unfold context_check_for_block, reads, bind. by rewrite (xderef_reads _ _ _ Hb). }
  eapply XSafe_read_bind; [exact Hd|]. destruct (is_deliver b false) eqn:Edl; cbn [negb].
  - eapply XSafe_bind; [by apply XSafe_do_update|]. intros r s1 Hi1 Hf1 (-> & _ & Hno).
    destruct (accepts s b); [|apply XSafe_ret; auto].
    eapply XSafe_mono; [by apply XSafe_settle|]. by intros r s2 _ _ [-> ?].
  - apply XSafe_ret; [done|]. unfold accepts, may_enter. rewrite Edl, andb_false_r. done.
Qed.
End Properties.

(** C11. The three-chain rule: handling a certified node marks exactly the
    blocks the rule names.  The block of its parent is locked; if the parent
    has a parent in the pool, that one's block is locked and committed, and so
    is committed the block of every further ancestor still in the pool.  No
    other block gains or loses either mark, none changes its header, view,
    hash or parent, nothing is announced, and the rule never fails: in a state
    where nodes are linked by height and hash no child is missing. *)
Theorem three_chain_rule `{HL : XVBlockLaws} `{HN : XVBNodeLaws} (s : xstate) (n : ptr)
    (Hi : xinv (HK := hashes_stable) s) (Hn : is_Some (x_nodes (cs_st s) !! n)) :
  exists r s', do_execute (Some n) s = Some (r, s') /\ xinv (HK := hashes_stable) s' /\ cs_out s' = cs_out s /\
    (r = true <-> exists y, exec_parent s n y) /\
    forall p b, block_at p s = Some b -> exists b', block_at p s' = Some b' /\ same_blk b b' /\
      (check_block_flag b' enum_xvblock_flag_committed = true <->
         check_block_flag b enum_xvblock_flag_committed = true \/ exec_commits s n p) /\
      (check_block_flag b' enum_xvblock_flag_locked = true <->
         check_block_flag b enum_xvblock_flag_locked = true \/ exec_locks s n p).
Proof.
  destruct (XSafe_defined (HK := hashes_stable) _ _ _ I (XSafe_do_execute n s Hi Hn)) as (r & s' & E & Hi' & _ & Hm & Hr).
  exists r, s'. split_and!; try done; [apply Hm|]. intros p b Hb.
  destruct (block_marks _ _ _ _ _ _ Hm Hb) as (b' & Hb' & ?). by exists b'.
Qed.

(** What enters the pool: a certified block is taken exactly when it is
    not committed, is above the lock in height and in view on the same chain,
    is deliverable, and neither its hash nor its view is in the pool.  A block
    taken adds one node and one view; a block refused changes nothing. *)
Theorem do_update_spec `{HL : XVBlockLaws} `{HN : XVBNodeLaws} (s : xstate) (p : ptr) (b : xvblock)
    (Hi : xinv (HK := hashes_stable) s) (Hb : block_at p s = Some b) :
  exists s', do_update (Some p) s = Some (accepts s b, s') /\ xinv (HK := hashes_stable) s' /\
    if accepts s b
    then m_hash_pool (cs_st s') = map_set (get_block_hash b) (x_next (cs_st s)) (m_hash_pool (cs_st s)) /\
         m_view_pool (cs_st s') = get_viewid b :: m_view_pool (cs_st s) /\ cs_out s' = cs_out s
    else s' = s.
Proof.
  destruct (XSafe_defined (HK := hashes_stable) _ _ _ I (XSafe_do_update p b s Hi Hb)) as (r & s' & E & Hi' & _ & -> & Ht & Hf).
  exists s'. split_and!; [done..|]. destruct (accepts s b); [destruct (Ht eq_refl); done|by apply Hf].
Qed.

(** What a submission announces: the driver is told the latest commit and
    lock, then the layers above hear of every committed block of the pool,
    each once, by strictly increasing view; exactly those nodes leave the
    pool, and commit, lock and blocks stay as they are. *)
Theorem do_submit_spec `{HL : XVBlockLaws} `{HN : XVBNodeLaws} (s : xstate) (hc : option ptr) (Hi : xinv (HK := hashes_stable) s) :
  exists s' l, do_submit hc s = Some (true, s') /\ xinv (HK := hashes_stable) s' /\
    (forall n, n ∈ l <-> exists h b, (h, n) ∈ m_hash_pool (cs_st s) /\ blk s n = Some b /\ is_committed b = true) /\
    StronglySorted (fun a b => view_of s a < view_of s b) l /\
    pool_without is_committed s s' /\ cs_world s' = cs_world s /\
    commit_of s' = commit_of s /\ ctx_lock_of s' = ctx_lock_of s /\
    cs_out s' = cs_out s
      ++ (if x_child (cs_st s)
          then [EvConsensusUpdateDown (x_latest_commit_block (cs_st s)) (x_latest_lock_block (cs_st s)) None] else [])
      ++ (if cs_parent s then commit_event s hc <$> l else []).
Proof.
  destruct (XSafe_defined (HK := hashes_stable) _ _ _ I (XSafe_do_submit hc s Hi)) as (r & s' & E & Hi' & _ & -> & Hp & Hw & Hc & Hl & Ho).
  destruct (pool_where_spec is_committed s Hi) as [Hs Hin].
  exists s', (pool_where is_committed s).
  unfold commit_of, ctx_lock_of, block_at. rewrite Hc, Hl, Hw. by split_and!.
Qed.

(** What cleaning removes: exactly the nodes at or behind the commit in
    height or view, below the lock, or beside the lock at its height leave
    the pool, and each is reported as cancelled, by strictly increasing view.
    While no commit is known this is every node of the pool. *)
Theorem do_clean_spec `{HL : XVBlockLaws} `{HN : XVBNodeLaws} (s : xstate) (Hi : xinv (HK := hashes_stable) s) :
  exists s' l, do_clean s = Some (true, s') /\ xinv (HK := hashes_stable) s' /\
    (forall n, n ∈ l <-> exists h b, (h, n) ∈ m_hash_pool (cs_st s) /\ blk s n = Some b /\
                          stale (commit_of s) (ctx_lock_of s) b = true) /\
    StronglySorted (fun a b => view_of s a < view_of s b) l /\
    pool_without (stale (commit_of s) (ctx_lock_of s)) s s' /\
    (commit_of s = None -> m_hash_pool (cs_st s') = []) /\
    cs_world s' = cs_world s /\ commit_of s' = commit_of s /\ ctx_lock_of s' = ctx_lock_of s /\
    cs_out s' = cs_out s ++ (if cs_parent s then cancel_event s <$> l else []).
Proof.
  destruct (XSafe_defined (HK := hashes_stable) _ _ _ I (XSafe_do_clean s Hi)) as (r & s' & E & Hi' & _ & -> & Hp & Hw & Hc & Hl & Ho).
  destruct (pool_where_spec (is_stale s) s Hi) as [Hs Hin].
  exists s', (pool_where (is_stale s) s). split_and!; try done.
  - intros Hn. destruct (m_hash_pool (cs_st s')) as [|[h n] m] eqn:Em; [done|exfalso].
    assert (He : (h, n) ∈ m_hash_pool (cs_st s')) by (rewrite Em; left). apply Hp in He as [He Hst].
    destruct (pool_blk _ _ _ Hi He) as [b Hb]. unfold leaves, is_stale, stale in Hst. cbn in Hst. by rewrite Hb, Hn in Hst.
  - unfold commit_of, block_at. by rewrite Hc, Hw.
  - unfold ctx_lock_of, block_at. by rewrite Hl, Hw.
Qed.

(** C16. At most one certified block per view: in every reachable state of the
    context, whatever the other layers do to the blocks' certificates, two
    nodes of the pool with the same view are the same node, and the set of
    views is exactly the views of the pool. *)
Theorem one_certified_block_per_view `{HL : XVBlockLaws} `{HN : XVBNodeLaws} (s : xstate) (Hr : ctx_reachable (HK := hashes_any) s) :
  (forall h n b h' n' b', (h, n) ∈ m_hash_pool (cs_st s) -> (h', n') ∈ m_hash_pool (cs_st s) ->
     blk s n = Some b -> blk s n' = Some b' -> get_viewid b = get_viewid b' -> n = n') /\
  (forall v, v ∈ m_view_pool (cs_st s) <->
     exists h n b, (h, n) ∈ m_hash_pool (cs_st s) /\ blk s n = Some b /\ get_viewid b = v).
Proof.
  pose proof (ctx_reachable_inv s Hr) as Hi. split; [|apply Hi]. intros h n b h' n' b' Hn Hn' Hb Hb' E.
  by injection (xi_inj _ Hi h n b h' n' b' Hn Hn' Hb Hb' E).
Qed.

(** The context only moves forward: along any execution the latest commit
    and the latest lock stay at their position or move to a block with greater
    height and greater view, and no event already fired is taken back. *)
Theorem context_moves_forward `{HL : XVBlockLaws} `{HN : XVBNodeLaws} (s s' : xstate)
    (Hr : ctx_reachable (HK := hashes_any) s) (Hs : rtc (cstep (HK := hashes_any)) s s') :
  (forall b, commit_of s = Some b -> exists b', commit_of s' = Some b' /\ pos_le b b') /\
  (forall b, ctx_lock_of s = Some b -> exists b', ctx_lock_of s' = Some b' /\ pos_le b b') /\
  cs_out s `prefix_of` cs_out s'.
Proof. destruct (csteps_ok s s' (ctx_reachable_inv s Hr) Hs) as [_ []]. done. Qed.

(** C17. The context never dereferences null and its loops end: in every
    state reachable while the other layers leave the hashes of the blocks in
    the pool alone, every event with valid pointers is handled to the end, the
    walk over the ancestors included. *)
Theorem context_handles_every_event `{HL : XVBlockLaws} `{HN : XVBNodeLaws} (s : xstate) (i : ctx_input)
    (Hr : ctx_reachable (HK := hashes_stable) s) (Hev : xev_ok s (in_event i)) :
  exists r s', ctx_handle i s = Some (r, s').
Proof.
  destruct (XSafe_defined (HK := hashes_stable) _ _ _ I (XOk_handle i s (ctx_reachable_inv s Hr) Hev)) as (r & s' & E & _). eauto.
Qed.

(** A certified block at the context: a block the context takes is passed
    to the layers above with the latest commit and lock filled in, and leaves
    no committed and no outdated node in the pool; a block it does not take is
    stopped here, and the state and the event stay as they were. *)
Theorem certified_block_gate `{HL : XVBlockLaws} `{HN : XVBNodeLaws} (s : xstate) (ev : xcsevent) (p : ptr) (b : xvblock)
    (Hr : ctx_reachable (HK := hashes_stable) s) (Ht : xe_target ev = Some p) (Hb : block_at p s = Some b)
    (He : xe_error ev = enum_xconsensus_code_successful) :
  exists ev' s', context_on_proposal_finish ev s = Some ((negb (accepts s b), ev'), s') /\
    context_on_replicate_finish ev s = Some ((negb (accepts s b), ev'), s') /\
    if accepts s b
    then pool_settled s' /\
         ev' = XCsevent (xe_error ev) (Some p) (x_latest_commit_block (cs_st s')) (x_latest_lock_block (cs_st s')) (xe_cert ev)
    else ev' = ev /\ s' = s.
Proof.
  pose proof (ctx_reachable_inv s Hr) as Hi.
  destruct (XSafe_defined (HK := hashes_stable) _ _ _ I (XSafe_enter_certified ev p b s Hi Ht Hb)) as (r & s' & E & _ & _ & -> & Hq).
  unfold context_on_proposal_finish, context_on_replicate_finish. rewrite He, Ht. cbn [Z.eqb enum_xconsensus_code_successful].
  unfold bind. rewrite E. destruct (accepts s b).
  - eexists _, s'. split_and!; [reflexivity..|done|]. by rewrite He, Ht.
  - exists ev, s'. by subst s'.
Qed.
