(* ===== verification/CertWitness.v ===== *)
(** * The theorems of the context layer at a concrete run

    Block 1 is the commit and the lock; blocks 2, 3 and 4 extend it one by
    one.  When block 4 is certified, block 2 is committed and block 3 locked. *)

From stdpp Require Import prelude gmap strings.
From Stdlib Require Import ZArith Lia Sorting.Sorted.
From S2P Require Import Prelude Stream StdMap VBlock Pdu Concrete Proposal BFTState Rules RulesFacts.
From S2P Require Import CertContext CertInv CertFacts CertPool CertSteps CertReach.

Module CertWitness.
Import Concrete.Demo.

Definition links (p c : xvblock) : bool :=
  (get_height c =? get_height p + 1) && bool_decide (get_last_block_hash c = get_block_hash p).
#[export] Instance demo_vbnode : XVBNode := {
  new_vbnode_ok := links;
  reset_parent_ok := links;
  reset_child_ok := links;
}.
#[export] Instance demo_vbnode_laws : XVBNodeLaws.
Proof.
  assert (Hl : forall p c, links p c = true <-> node_rule p c).
  { intros p c. unfold links, node_rule. by rewrite andb_true_iff, Z.eqb_eq, bool_decide_eq_true. }
  split; intros p c; apply Hl.
Qed.

Definition flags_committed : Z := 0x7000.   (* authenticated, locked and committed *)
Definition store : gmap ptr xvblock := list_to_map [
  (1%positive, mk_block 5 10 "A" "Z" "Y" flags_committed);
  (2%positive, mk_block 6 11 "B" "A" "Z" enum_xvblock_flag_authenticated);
  (3%positive, mk_block 7 12 "C" "B" "A" enum_xvblock_flag_authenticated);
  (4%positive, mk_block 8 13 "D" "C" "B" enum_xvblock_flag_authenticated)].
Definition xs0 : xstate :=
  CState (World store 5%positive 0 0 None None (fun _ => None) (fun _ _ => None) 0) new_context [] (Xvip2 0x1401 0) true.

Definition run (i : ctx_input) (s : xstate) : xstate := match ctx_handle i s with Some (_, s') => s' | None => s end.
Definition finish (p : ptr) : ctx_input :=
  InProposalFinish (XCsevent enum_xconsensus_code_successful (Some p) None None (Some p)).
Definition xs1 : xstate :=
  run (InConsensusUpdate true (XCsevent 0 None (Some 1%positive) (Some 1%positive) None)) xs0.
Definition xs2 : xstate := run (finish 2%positive) xs1.
Definition xs3 : xstate := run (finish 3%positive) xs2.
Definition xs4 : xstate := run (finish 4%positive) xs3.

Lemma handled `{HK : HashesKept} i s : bool_decide (is_Some (ctx_handle i s)) = true -> xev_ok s (in_event i) -> cstep s (run i s).
Proof.
  intros [[r s'] E]%bool_decide_eq_true Hev. eapply (ct_handle s i r); [done|]. unfold run. by rewrite E.
Qed.
(** The events of the run carry pointers of the store. *)
Lemma ev_valid s ev :
  forallb (fun o : option ptr => match o with Some p => bool_decide (is_Some (block_at p s)) | None => true end)
    [xe_target ev; xe_commit ev; xe_lock ev; xe_cert ev] = true -> xev_ok s ev.
Proof.
  intros Hall p Hp. rewrite forallb_forall in Hall. apply list_elem_of_In in Hp. specialize (Hall _ Hp).
  cbn in Hall. by apply bool_decide_eq_true in Hall.
Qed.

Lemma reach0 `{HK : HashesKept} : ctx_reachable xs0.
Proof.
  exists xs0. split; [|done]. split; [done|].
  assert (Hall : map_Forall (fun _ b => 0 <= get_height b) store) by (apply (bool_decide_unpack _); vm_compute; exact I).
  intros p b Hb. exact (Hall p b Hb).
Qed.
Lemma reach_next `{HK : HashesKept} s i :
  ctx_reachable s -> bool_decide (is_Some (ctx_handle i s)) = true -> xev_ok s (in_event i) -> ctx_reachable (run i s).
Proof. intros (s0 & Hin & Hr) Hd Hev. exists s0. split; [done|]. eapply rtc_r; [done|by apply handled]. Qed.
Lemma reach1 `{HK : HashesKept} : ctx_reachable xs1.
Proof. apply reach_next; [apply reach0|by vm_compute|by apply ev_valid; vm_compute]. Qed.
Lemma reach2 `{HK : HashesKept} : ctx_reachable xs2.
Proof. apply reach_next; [apply reach1|by vm_compute|by apply ev_valid; vm_compute]. Qed.
Lemma reach3 `{HK : HashesKept} : ctx_reachable xs3.
Proof. apply reach_next; [apply reach2|by vm_compute|by apply ev_valid; vm_compute]. Qed.

(** Block 4 has a node whose parent is the node of block 3; the rule is next. *)
Definition b4 : xvblock := mk_block 8 13 "D" "C" "B" enum_xvblock_flag_authenticated.
Definition mid : xstate := entered 4%positive b4 (Some 2%positive) xs3.
Lemma mid_inv `{HK : HashesKept} : xinv mid.
Proof.
  apply entered_inv; [apply ctx_reachable_inv, reach3|by vm_compute|by vm_compute|by apply (bool_decide_unpack _); vm_compute|].
  intros q [= <-]. eexists. split_and!; [vm_compute; reflexivity..|]. intros _. vm_compute. reflexivity.
Qed.
(** The node of block 4. *)
Definition n4 : ptr := 3%positive.

(** After the rule: block 2 is committed and still in the pool. *)
Definition mid2 : xstate := match do_execute (Some n4) mid with Some (_, s') => s' | None => mid end.
Lemma mid2_inv : xinv (HK := hashes_stable) mid2.
Proof.
  destruct (XSafe_defined _ _ _ I (XSafe_do_execute (HK := hashes_stable) n4 mid mid_inv ltac:(by vm_compute; eexists)))
    as (r & s' & E & Hi & _). unfold mid2. by rewrite E.
Qed.

Lemma three_chain_rule_witness :
  exists r s' b', do_execute (Some n4) mid = Some (r, s') /\ block_at 2%positive s' = Some b' /\
    check_block_flag b' enum_xvblock_flag_committed = true.
Proof.
  destruct (three_chain_rule mid n4 mid_inv ltac:(by vm_compute; eexists)) as (r & s' & E & _ & _ & _ & Hall).
  destruct (Hall 2%positive _ eq_refl) as (b' & Hb' & _ & Hc & _). exists r, s', b'. split_and!; [done|done|].
  apply Hc. right. eexists. split.
  - eexists _, 2%positive. split_and!; vm_compute; [reflexivity|discriminate|reflexivity|reflexivity].
  - eexists 1%positive, _. split_and!; [|vm_compute; reflexivity|reflexivity].
    eapply la_here; [vm_compute; reflexivity|discriminate].
Defined.

Lemma do_update_spec_witness :
  accepts xs3 b4 = true /\
  exists s', do_update (Some 4%positive) xs3 = Some (true, s') /\ m_view_pool (cs_st s') = [13; 12; 11].
Proof.
  split; [by vm_compute|].
  destruct (do_update_spec xs3 4%positive b4 (ctx_reachable_inv _ reach3) ltac:(by vm_compute)) as (s' & E & _ & Hp).
  exists s'. split; [exact E|]. assert (Ha : accepts xs3 b4 = true) by by vm_compute.
  rewrite Ha in Hp. destruct Hp as (_ & -> & _). by vm_compute.
Defined.

Lemma do_submit_spec_witness :
  exists s' l, do_submit (Some 4%positive) mid2 = Some (true, s') /\ 1%positive ∈ l /\
    cs_out s' = cs_out mid2 ++ [EvConsensusUpdateDown (Some 2%positive) (Some 3%positive) None]
                  ++ (commit_event mid2 (Some 4%positive) <$> l).
Proof.
  destruct (do_submit_spec mid2 (Some 4%positive) mid2_inv) as (s' & l & E & _ & Hl & _ & _ & _ & _ & _ & Ho).
  exists s', l. split_and!; [done| |done]. apply Hl. exists "B"%string. eexists.
  split_and!; [|vm_compute; reflexivity|vm_compute; reflexivity]. by apply (bool_decide_unpack _); vm_compute.
Defined.

Lemma do_clean_spec_witness :
  exists s' l, do_clean mid2 = Some (true, s') /\ 1%positive ∈ l /\ cs_out s' = cs_out mid2 ++ (cancel_event mid2 <$> l).
Proof.
  destruct (do_clean_spec mid2 mid2_inv) as (s' & l & E & _ & Hl & _ & _ & _ & _ & _ & _ & Ho).
  exists s', l. split_and!; [done| |done]. apply Hl. exists "B"%string. eexists.
  split_and!; [|vm_compute; reflexivity|vm_compute; reflexivity]. by apply (bool_decide_unpack _); vm_compute.
Defined.

Lemma one_certified_block_per_view_witness :
  12 ∈ m_view_pool (cs_st xs3) /\
  exists h n b, (h, n) ∈ m_hash_pool (cs_st xs3) /\ blk xs3 n = Some b /\ get_viewid b = 12.
Proof.
  assert (Hv : 12 ∈ m_view_pool (cs_st xs3)) by (apply (bool_decide_unpack _); by vm_compute).
  split; [done|]. by apply (one_certified_block_per_view xs3 reach3).
Defined.

Lemma xs3_xs4 `{HK : HashesKept} : rtc cstep xs3 xs4.
Proof. apply rtc_once, handled; [by vm_compute|by apply ev_valid; vm_compute]. Qed.
Lemma context_moves_forward_witness :
  (get_height <$> commit_of xs3) = Some 5 /\ (get_height <$> commit_of xs4) = Some 6 /\
  forall b, commit_of xs3 = Some b -> exists b', commit_of xs4 = Some b' /\ pos_le b b'.
Proof. split_and!; [by vm_compute..|]. apply (context_moves_forward xs3 xs4 reach3 xs3_xs4). Defined.

Lemma context_handles_every_event_witness : exists r s', ctx_handle (finish 4%positive) xs3 = Some (r, s').
Proof. apply (context_handles_every_event xs3 _ reach3). by apply ev_valid; vm_compute. Defined.

Lemma certified_block_gate_witness :
  accepts xs3 b4 = true /\
  exists ev' s', context_on_proposal_finish (XCsevent 0 (Some 4%positive) None None (Some 4%positive)) xs3
                 = Some ((negb (accepts xs3 b4), ev'), s').
Proof.
  split; [by vm_compute|].
  destruct (certified_block_gate xs3 (XCsevent 0 (Some 4%positive) None None (Some 4%positive)) 4%positive b4
              reach3 eq_refl ltac:(by vm_compute) eq_refl) as (ev' & s' & E & _). by exists ev', s'.
Defined.
End CertWitness.
