(* ===== verification/Agreement.v ===== *)
(** * The steps in which a driver signs a block

    A driver signs in two places: the callback that votes for a proposal and
    the start of its own proposal.  For each, the lock of the driver after the
    step and what the signed block has to do with it.  No other step signs. *)

From stdpp Require Import prelude gmap strings.
From Stdlib Require Import ZArith Lia Sorting.Sorted.
From S2P Require Import Prelude Stream StdMap VBlock Pdu Proposal BFTState Rules RulesFacts Sync Driver DriverInv DriverFacts DriverSteps.

Inductive signs `{XVCert} `{XVBlock} `{XCertAuth} `{XCodec} `{XVerifier}
    (s : dstate) (v : xvblock) (s' : dstate) : Prop :=
  | sg_vote i o nonce from to :
      d_calls (cs_st s) !! i = Some (KAfterVerifyProposal o nonce from to) ->
      after_verify_proposal o nonce from to (take_call i s) = Some (tt, s') ->
      signed s' <> signed s -> prop_block_of s' o = Some v -> signs s v s'
  | sg_proposal ev p r :
      start_ok s ev -> ps_proposal ev = Some p -> on_proposal_start ev s = Some (r, s') ->
      signed s' <> signed s -> block_at p s' = Some v -> signs s v s'.

(** The lock a signed block rests on: the block is its child, or its
    grandchild through a block [c] (at [q]) with the property [linked]. *)
Definition rests_on (s : dstate) (lb v : xvblock) (linked : ptr -> xvblock -> Prop) : Prop :=
  (get_height v = get_height lb + 1 /\ get_last_block_hash v = get_block_hash lb) \/
  (get_height v = get_height lb + 2 /\
   exists q c, block_at q s = Some c /\ get_height v = get_height c + 1 /\
     get_last_block_hash v = get_block_hash c /\ linked q c).

(** The parts of the driver the rules read. *)
Record same_rules (s s' : dstate) : Prop := {
  rr_world : cs_world s' = cs_world s;
  rr_lock : m_latest_lock_block (cs_st s') = m_latest_lock_block (cs_st s);
  rr_certs : m_certified_blocks (cs_st s') = m_certified_blocks (cs_st s);
}.

#[export] Instance same_rules_preorder : PreOrder same_rules.
Proof. split; [done|]. intros ? ? ? [] []. split; congruence. Qed.

Lemma bind_inv {S A B} (m : prog S A) (k : A -> prog S B) s r :
  bind m k s = Some r -> exists a s1, m s = Some (a, s1) /\ k a s1 = Some r.
Proof. unfold bind. destruct (m s) as [[a s1]|]; [eauto|done]. Qed.

(** Run the first command of a program that returned. *)
Ltac step_inv H a s1 E := apply bind_inv in H as (a & s1 & E & H).

Section Ballots.
Context `{HL : XVBlockLaws} `{HA : XCertAuth} `{HC : XCodecLaws} `{HV : XVerifierLaws}.

(** What the rules of [Safe] and [Signs] say of a run that returned. *)
Lemma Safe_run {A} (m : DP A) s Q a s' :
  m s = Some (a, s') -> Safe True m s Q -> dinv True s' /\ dmono s s' /\ Q a s'.
Proof. intros E Hm. exact (wpu_elim _ _ _ _ _ _ Hm E). Qed.
Lemma Signs_run {A} (m : DP A) s Q a s' :
  m s = Some (a, s') -> Signs (u := True) m s Q -> dinv True s' /\ dfwd s s' /\ Q a s'.
Proof. intros E Hm. exact (wpu_elim _ _ _ _ _ _ Hm E). Qed.

(** ** Frames *)

Lemma signed_add_outs l s :
  signed (add_outs l s) = signed s ++ (if cs_parent s then l ≫= signed_view else []).
Proof.
  unfold signed, add_outs. cbn. destruct (cs_parent s); [by rewrite bind_app|by rewrite app_nil_r].
Qed.

Lemma fire_frame (e : xevent) s r s' :
  fire e s = Some (r, s') ->
  same_rules s s' /\ d_props (cs_st s') = d_props (cs_st s) /\
  signed s' = signed s ++ (if cs_parent s then signed_view e else []).
Proof.
  rewrite fire_runs. intros [= <- <-]. split_and!; [by split|done|].
  rewrite signed_add_outs. cbn. by rewrite app_nil_r.
Qed.

Lemma prop_update_frame o f s r s' :
  prop_update o f s = Some (r, s') -> (forall x, p_block (f x) = p_block x) ->
  same_rules s s' /\ cs_out s' = cs_out s /\ prop_block_of s' o = prop_block_of s o.
Proof.
  unfold prop_update. intros E Hf. step_inv E x s1 E1. unfold prop_deref in E1.
  destruct (d_props (cs_st s) !! o) as [y|] eqn:Ey; [|done]. injection E1 as <- <-.
  unfold prop_store, st_mod, modify in E. injection E as _ <-. split_and!; [by split|done|].
  unfold prop_block_of. cbn. rewrite Ey, lookup_insert_eq. cbn. by rewrite Hf.
Qed.

Lemma lock_of_frame s s' : same_rules s s' -> lock_of s' = lock_of s.
Proof. intros [Ew El _]. unfold lock_of, block_at. by rewrite Ew, El. Qed.

(** ** The vote *)

Lemma vote_rests i o nonce from to s s' :
  dinv True s -> heights_ok s -> d_calls (cs_st s) !! i = Some (KAfterVerifyProposal o nonce from to) ->
  after_verify_proposal o nonce from to (take_call i s) = Some (tt, s') -> signed s' <> signed s ->
  exists lb v, lock_of s' = Some lb /\ prop_block_of s' o = Some v /\ signed s' = signed s ++ [get_viewid v] /\
    rests_on s' lb v (fun _ c => get_last_block_hash c = get_block_hash lb).
Proof.
  intros Hi Hh Hc E Hsig. destruct (take_call_ok _ _ _ Hi Hc) as (Hi0 & Hok & _).
  change (signed s) with (signed (take_call i s)) in *.
  assert (Hh0 : heights_ok (take_call i s)) by exact Hh. clear Hc Hi Hh.
  set (t := take_call i s) in *. clearbody t. clear s.
  unfold after_verify_proposal in E. step_inv E x t1 E1. unfold prop_deref in E1.
  destruct (d_props (cs_st t) !! o) as [y|] eqn:Ey; [|done]. injection E1 as -> <-.
  destruct (hi_props _ (dv_heap _ _ Hi0) _ _ Ey) as ([b Hb] & _).
  destruct (p_result x =? _).
  - step_inv E safe s1 E1. destruct (Safe_run _ _ _ _ _ E1 (Safe_finalcheck _ _ _ Hi0 Hb)) as (Hi1 & Hm1 & Hle & Hs).
    destruct safe; [|injection E as <-; by rewrite (dm_signed _ _ Hm1) in Hsig].
    destruct (Hs eq_refl) as (lb & Hlb & Hfin).
    step_inv E u2 s2 E2. apply prop_update_frame in E2 as (R2 & O2 & P2); [|done].
    step_inv E c s3 E3. destruct (p_last_block_cert x) as [c0|]; [|done]. injection E3 as <- <-.
    step_inv E u3 s3 E3.
    assert (R3 : same_rules s2 s3 /\ d_props (cs_st s3) = d_props (cs_st s2) /\ signed s3 = signed s2).
    { destruct (is_flagged c0); [|by injection E3 as _ <-]. apply fire_frame in E3 as (? & ? & ->).
      split_and!; [done..|]. cbn. destruct (cs_parent s2); by rewrite app_nil_r. }
    destruct R3 as (R3 & P3 & S3). step_inv E b3 s4 E4. unfold deref in E4.
    destruct (block_at (p_block x) s3) as [b4|] eqn:Hb4; [|done]. injection E4 as -> <-.
    apply fire_frame in E as (R4 & P4 & S4).
    assert (R : same_rules s1 s') by exact (transitivity R2 (transitivity R3 R4)).
    assert (Hw : cs_world s' = cs_world t) by (rewrite (rr_world _ _ R); apply Hle).
    assert (Eb : b3 = b).
    { unfold block_at in *. rewrite <- (rr_world _ _ R4), Hw in Hb4. congruence. }
    subst b3. exists lb, b. split_and!.
    + by rewrite (lock_of_frame _ _ R).
    + unfold prop_block_of in *. rewrite P4, P3. unfold block_at in *.
      rewrite Hw, <- (rr_world _ _ R3), <- (rr_world _ _ R4), Hw in *.
      rewrite P2. rewrite (dle_props _ _ Hle), Ey. cbn. by rewrite (dle_world _ _ Hle).
    + rewrite S4, S3 in *. unfold signed in *. rewrite O2 in *. fold (signed s1) in *.
      rewrite (dm_signed _ _ Hm1) in *. cbn in *. destruct (cs_parent s3); [done|].
      by rewrite app_nil_r in Hsig.
    + eapply finalcheck_spec in Hfin; [|apply Hi1| |done|by rewrite (dle_block _ _ _ Hle)].
      2: { intros q c'. rewrite (dle_block _ _ q Hle). apply Hh0. }
      destruct Hfin as (_ & _ & _ & [?|(? & _ & c' & (v & q & _ & Hq) & ? & ? & ?)]); [by left|right].
      split; [done|]. exists q, c'. unfold block_at in *. rewrite Hw, <- (dle_world _ _ Hle).
      split_and!; auto.
  - exfalso. apply Hsig. step_inv E b1 s1 E1. unfold deref in E1. rewrite Hb in E1. injection E1 as <- <-.
    step_inv E r1 s1 E1. unfold remove_proposal, bind, st_get, gets, st_mod, modify, ret in E1. injection E1 as _ <-.
    apply fire_frame in E as (_ & _ & ->). cbn. case_match; by rewrite app_nil_r.
Qed.

(** ** The leader's own proposal *)

(** [s'] differs from [s] in the block at [p], which is [v] there. *)
Definition only_at (p : ptr) (v : xvblock) (s s' : dstate) : Prop :=
  m_latest_lock_block (cs_st s') = m_latest_lock_block (cs_st s) /\
  forall q, block_at q s' = if decide (q = p) then Some v else block_at q s.

Lemma update_block_frame p f s r s' b :
  update_block p f s = Some (r, s') -> block_at p s = Some b ->
  only_at p (f b) s s' /\ cs_st s' = cs_st s /\ cs_out s' = cs_out s /\ cs_parent s' = cs_parent s /\
  cs_self s' = cs_self s /\ w_rand (cs_world s') = w_rand (cs_world s).
Proof.
  unfold update_block. intros E Hb. step_inv E x s1 E1. unfold deref in E1. rewrite Hb in E1. injection E1 as <- <-.
  unfold store, modify in E. injection E as _ <-. split_and!; try done. split; [done|]. intros q. unfold block_at. cbn.
  case_decide; subst; [by rewrite lookup_insert_eq|by rewrite lookup_insert_ne].
Qed.

Lemma add_proposal_frame b c ms s r s' :
  add_proposal (Some b) c ms s = Some (r, s') ->
  cs_world s' = cs_world s /\ m_latest_lock_block (cs_st s') = m_latest_lock_block (cs_st s) /\
  cs_out s' = cs_out s /\ cs_parent s' = cs_parent s.
Proof.
  unfold add_proposal. intros E. step_inv E now s1 E1. injection E1 as <- <-.
  step_inv E o s1 E1. unfold prop_alloc in E1. injection E1 as <- <-.
  step_inv E ok s2 E2. unfold add_proposal_obj in E2. step_inv E2 x s3 E3.
  unfold prop_block in E3. step_inv E3 y s4 E4. unfold prop_deref in E4. destruct (d_props _ !! _); [|done].
  injection E4 as <- <-. unfold deref in E3. destruct (block_at _ _); [|done]. injection E3 as <- <-.
  unfold bind, st_mod, st_get, gets, modify, ret in E2. injection E2 as <- <-.
  by destruct (snd _); injection E as <- <-.
Qed.

Lemma launch_frame p ms s r s' b :
  launch_proposal p ms s = Some (r, s') -> block_at p s = Some b ->
  exists v, same_id b v /\ only_at p v s s' /\
    signed s' = signed s ++ (if cs_parent s then [get_viewid v] else []).
Proof.
  unfold launch_proposal, self. intros E Hb. step_inv E me s1 E1. injection E1 as <- <-.
  step_inv E rand s1 E1. injection E1 as <- <-. step_inv E u1 s1 E1.
  apply (update_block_frame _ _ _ _ _ _ E1) in Hb as (Ho & Est & Eo & Ep & _).
  exists (sign_block (cs_self s) (w_rand (cs_world s)) b). set (v := sign_block _ _ b) in *.
  split; [apply sign_block_id|].
  step_inv E b1 s2 E2. unfold deref in E2. rewrite (proj2 Ho), decide_True in E2 by done. injection E2 as <- <-.
  step_inv E q s2 E2. destruct (b_prev v) as [q0|]; [|done]. injection E2 as <- <-.
  step_inv E prev s2 E2. unfold deref in E2. destruct (block_at q0 s1) as [prev0|]; [|done]. injection E2 as <- <-.
  step_inv E o s2 E2. apply add_proposal_frame in E2 as (Ew2 & El2 & Eo2 & Ep2).
  step_inv E o1 s3 E3. destruct o as [o2|]; [|done]. injection E3 as <- <-.
  step_inv E u3 s3 E3. unfold prop_update in E3. step_inv E3 y s4 E4. unfold prop_deref in E4.
  destruct (d_props (cs_st s2) !! o2) as [y0|]; [|done]. injection E4 as <- <-.
  unfold prop_store, st_mod, modify in E3. injection E3 as _ <-.
  step_inv E msg s3 E3. destruct (new_proposal_msg _ _ _); [|done]. injection E3 as <- <-.
  apply fire_frame in E as (R & _ & Hs).
  assert (Ew : cs_world s' = cs_world s1) by by rewrite (rr_world _ _ R).
  split.
  - split; [rewrite (rr_lock _ _ R); cbn; by rewrite El2, Est|].
    intros q. rewrite <- (proj2 Ho). unfold block_at. by rewrite Ew.
  - rewrite Hs. cbn. rewrite Ep2, Ep. unfold signed. cbn. by rewrite Eo2, Eo.
Qed.

Lemma refuse_signed code p s r s' :
  (async_fire_proposal_finish_event code EmptyString (Some p) ;;; ret tt) s = Some (r, s') -> signed s' = signed s.
Proof. unfold async_fire_proposal_finish_event, bind, st_mod, modify, ret. by intros [= _ <-]. Qed.

Lemma parent_ok_inv b s ok s1 :
  parent_ok b s = Some (ok, s1) ->
  s1 = s /\ (ok = true -> exists q prev, b_prev b = Some q /\ block_at q s = Some prev /\
    get_height b = u64 (get_height prev + 1) /\ get_last_block_hash b = get_block_hash prev).
Proof.
  unfold parent_ok. destruct (b_prev b) as [q|]; [|by intros [= <- <-]]. intros E. step_inv E prev s2 E2.
  unfold deref in E2. destruct (block_at q s) as [prev0|] eqn:Hq; [|done]. injection E2 as <- <-.
  unfold ret in E. injection E as Eg <-. split; [done|]. intros ->. exists q, prev0. revert Eg. guards.
  intros [[? ?] _]. split_and!; try done.
Qed.

Lemma u64_succ_ne x : x <> u64 (x + 1).
Proof.
  intros E. assert (Hx : is_u64 x) by (rewrite E; apply u64_range). destruct (u64_add_cases x 1) as [?|?]; unfold is_u64 in *; lia.
Qed.

(** Between the check and the signature nothing but the proposal changes. *)
Lemma start_proposal_inv p ms s r s' :
  dinv True s -> start_proposal p ms s = Some (r, s') -> signed s' <> signed s ->
  exists s1 lb b v q prev, lock_of s1 = Some lb /\ block_at p s1 = Some b /\
    same_id b v /\ only_at p v s1 s' /\ signed s' = signed s ++ [get_viewid v] /\ precheck s1 lb b = true /\
    get_height b <= u64 (get_height lb + 2) /\ b_prev b = Some q /\ block_at q s' = Some prev /\
    get_height b = u64 (get_height prev + 1) /\ get_last_block_hash b = get_block_hash prev.
Proof.
  intros Hi E Hsig. unfold start_proposal in E. cbv zeta in E.
  step_inv E b t E1. unfold deref in E1. destruct (block_at p s) as [b0|] eqn:Hb; [|done]. injection E1 as -> <-.
  step_inv E ok t E1. apply parent_ok_inv in E1 as [-> Hok].
  destruct ok; cbn [negb] in E; [|by apply refuse_signed in E].
  destruct (Hok eq_refl) as (q & prev & Eq & Hq & Hhq & Hlq). clear Hok.
  assert (Hqp : q <> p).
  { intros ->. rewrite Hb in Hq. injection Hq as ->. by apply u64_succ_ne in Hhq. }
  step_inv E lb s1 E1. destruct (Safe_run _ _ _ _ _ E1 (Safe_lock_block s Hi)) as (Hi1 & Hm1 & Hlk & Hle). clear E1.
  destruct (Z.ltb_spec (u64 (get_height lb + 2)) (get_height b));
    [apply refuse_signed in E; by rewrite (dm_signed _ _ Hm1) in E|].
  assert (Hb1 : block_at p s1 = Some b) by by rewrite (dle_block _ _ p Hle).
  step_inv E u2 s2 E2. destruct (Safe_run _ _ _ _ _ E2
    (Safe_update_block p (justify lb) s1 Hi1 (ex_intro _ b Hb1) (justify_id lb))) as (Hi2 & _).
  destruct (update_block_frame _ _ _ _ _ _ E2 Hb1) as ([El2 Ho2] & Est2 & Eo2 & Ep2 & _).
  assert (Hs2 : signed s2 = signed s) by (unfold signed; rewrite Eo2; apply (dm_signed _ _ Hm1)).
  step_inv E b1 s3 E3. unfold deref in E3. rewrite Ho2, decide_True in E3 by done. injection E3 as <- <-.
  destruct (negb _); [apply refuse_signed in E; congruence|].
  step_inv E safe s3 E3.
  destruct (lock_of_ptr _ _ Hlk) as (l & Hl & Hlb).
  assert (Hl2 : m_latest_lock_block (cs_st s2) = Some l) by by rewrite El2.
  destruct (di_lock _ (dv_drv _ _ Hi2) _ Hl2) as (lb2 & Hlb2 & _).
  assert (Hlk2 : lock_of s2 = Some lb2) by (unfold lock_of; by rewrite Hl2).
  assert (Hp2 : block_at p s2 = Some (justify lb b)) by by rewrite Ho2, decide_True.
  rewrite (precheck_reads s2 lb2 p _ (dv_drv _ _ Hi2) Hlk2 Hp2) in E3. injection E3 as Epre <-.
  destruct safe; cbn [negb] in E; [|apply refuse_signed in E; congruence].
  destruct (justify_id lb b) as ((Hjh & Hjv) & Hjp & _).
  assert (Hlp : l <> p).
  { intros ->. rewrite Hp2 in Hlb2. injection Hlb2 as <-. revert Epre. unfold precheck, proposal_block_ok, block_over_lock.
    guards. lia. }
  assert (lb2 = lb) as ->.
  { rewrite Ho2, decide_False in Hlb2 by done. congruence. }
  destruct (launch_frame _ _ _ _ _ _ E Hp2) as (v & Hv & Ho & Hsv).
  exists s2, lb, (justify lb b), v, q, prev. unfold get_height, get_last_block_hash in *. rewrite Hjh, Hjp.
  split_and!; try done.
  - rewrite Hsv, Hs2. destruct (cs_parent s2); [done|]. rewrite app_nil_r in Hsv. congruence.
  - destruct Ho as [_ Ho]. rewrite Ho, decide_False by done. rewrite Ho2, decide_False by done.
    by rewrite (dle_block _ _ q Hle).
Qed.

(** A block that passed the check of its leader is a child or a grandchild of the lock. *)
Lemma precheck_rests s lb b :
  heights_ok s -> (exists p, block_at p s = Some lb) -> (exists p, block_at p s = Some b) ->
  precheck s lb b = true -> get_height b <= u64 (get_height lb + 2) ->
  (get_height b = get_height lb + 1 /\ get_last_block_hash b = get_block_hash lb) \/ get_height b = get_height lb + 2.
Proof.
  intros Hh [pl Hl] [pb Hb] Hpre Hle. destruct (Hh _ _ Hl), (Hh _ _ Hb).
  rewrite u64_small in Hle by (unfold is_u64; lia).
  revert Hpre. unfold precheck, proposal_block_ok, block_over_lock. guards. intros Hpre.
  assert (Hgt : get_height lb < get_height b) by lia.
  assert (Hf : 0 <= follow_branch lb b) by lia.
  destruct (Z.eq_dec (get_height b) (get_height lb + 2)); [by right|left].
  assert (E : get_height b = get_height lb + 1) by lia. split; [done|].
  assert (Hp : (0 <? follow_branch lb b) = true).
  { apply Z.ltb_lt. unfold follow_branch in *. rewrite E in *.
    rewrite (u64_small (get_height lb + 1)), Z.eqb_refl in * by (unfold is_u64; lia).
    repeat case_match; lia. }
  apply follow_branch_over in Hp as [[_ ?]|[? _]]; [done|lia..].
Qed.

Lemma proposal_rests ev p r s s' :
  dinv True s -> heights_ok s' -> start_ok s ev -> ps_proposal ev = Some p ->
  on_proposal_start ev s = Some (r, s') -> signed s' <> signed s ->
  exists lb v, lock_of s' = Some lb /\ block_at p s' = Some v /\ signed s' = signed s ++ [get_viewid v] /\
    rests_on s' lb v (fun q _ => b_prev v = Some q).
Proof.
  intros Hi Hh Hev Ep E Hsig. unfold on_proposal_start in E. step_inv E u1 s1 E1.
  destruct (Safe_run _ _ _ _ _ E1 (Safe_take_start_state ev s Hi Hev)) as (Hi1 & Hm1 & _). rewrite Ep in E. step_inv E u2 s2 E2. unfold ret in E. injection E as _ <-.
  rewrite <- (dm_signed _ _ Hm1) in *.
  destruct (start_proposal_inv _ _ _ _ _ Hi1 E2 Hsig)
    as (t & lb & b & v & q & prev & Hl & Hb & ((Hvh & Hvv) & Hvp & _) & [El Ho] & Hs & Hpre & Hle & Eq & Hq & Hhq & Hlq).
  destruct (lock_of_ptr _ _ Hl) as (l & Hlp & Hlb).
  assert (Hh1 : heights_ok t).
  { intros x c Hx. destruct (decide (x = p)) as [->|Hne].
    - rewrite Hb in Hx. injection Hx as <-. specialize (Hh p v). rewrite Ho, decide_True in Hh by done.
      unfold get_height in *. rewrite Hvh in Hh. by apply Hh.
    - apply (Hh x). by rewrite Ho, decide_False. }
  destruct (Hh1 _ _ Hb), (Hh _ _ Hq). rewrite u64_small in Hhq by (unfold is_u64; lia).
  assert (Hne : l <> p).
  { intros ->. rewrite Hb in Hlb. injection Hlb as ->. revert Hpre. unfold precheck, proposal_block_ok, block_over_lock.
    guards. lia. }
  exists lb, v. split_and!; [|by rewrite Ho, decide_True|done|].
  - unfold lock_of. rewrite El, Hlp. cbn. by rewrite Ho, decide_False.
  - assert (Eh : get_height v = get_height b) by (unfold get_height; by rewrite Hvh).
    assert (Elh : get_last_block_hash v = get_last_block_hash b) by (unfold get_last_block_hash; by rewrite Hvh).
    unfold rests_on. rewrite Eh, Elh, Hvp.
    destruct (precheck_rests t lb b Hh1 (ex_intro _ _ Hlb) (ex_intro _ _ Hb) Hpre Hle) as [?|?]; [by left|right].
    split; [done|]. exists q, prev. auto.
Qed.

(** A step that signs signs one block and adds its view. *)
Lemma signs_view s v s' :
  dinv True s -> heights_ok s -> heights_ok s' -> signs s v s' -> signed s' = signed s ++ [get_viewid v].
Proof.
  intros Hi Hh Hh' [i o nonce from to Hc E Hs Hv|ev p r Hev Ep E Hs Hv].
  - destruct (vote_rests _ _ _ _ _ _ _ Hi Hh Hc E Hs) as (lb & v' & Hl & Hv' & ? & ?). by simplify_eq.
  - destruct (proposal_rests _ _ _ _ _ Hi Hh' Hev Ep E Hs) as (lb & v' & Hl & Hv' & ? & ?). by simplify_eq.
Qed.

Lemma signs_dstep s v s' : signs s v s' -> dstep s s'.
Proof.
  intros [i o nonce from to Hc E _ _|ev p r Hev Ep E _ _]; [by eapply ds_call|by eapply ds_start].
Qed.

(** No other step signs. *)
Lemma dstep_signs s s' :
  dinv True s -> heights_ok s -> heights_ok s' -> dstep s s' -> signed s' = signed s \/ exists v, signs s v s'.
Proof.
  intros Hi Hh Hh' Hd. destruct (decide (signed s' = signed s)) as [|Hne]; [by left|right].
  assert (Hsafe : forall A (m : DP A) t a, signed t = signed s -> Safe True m t (fun _ _ => True) -> m t = Some (a, s') -> False).
  { intros A m t a Et Hm E. destruct (Safe_run _ _ _ _ _ E Hm) as (_ & Hm' & _).
    apply Hne. by rewrite (dm_signed _ _ Hm'). }
  destruct Hd as [ev r t E|ev r t Hev E|lock r t Hl E|h r t E|v c r t E|i j t Hj E|i c t Hc E|t He].
  - by destruct (Signs_run _ _ _ _ _ E (Signs_on_pdu_event_down ev s Hi)) as (_ & _ & _ & ?).
  - destruct (ps_proposal ev) as [p|] eqn:Ep.
    + destruct (proposal_rests ev p r s t) as (lb & v & _ & Hv & _); [done..|]. exists v. by eapply sg_proposal.
    + exfalso. eapply (Hsafe _ (on_proposal_start ev) s); [done| |done].
      unfold on_proposal_start. rewrite Ep. eapply Safe_bind; [by apply Safe_take_start_state|].
      intros. by apply Safe_ret.
  - exfalso. eapply Hsafe; [done| |exact E]. by apply Safe_on_consensus_update.
  - exfalso. eapply Hsafe; [done| |exact E]. by apply Safe_on_clock_fire.
  - exfalso. eapply Hsafe; [done| |exact E]. by apply Safe_on_view_fire.
  - exfalso. destruct (take_job_ok _ _ _ Hi Hj) as (Hi1 & Hok & _). destruct j; cbn in Hok; cbn [run_job] in E.
    + by destruct (Signs_run _ _ _ _ _ E (Signs_work_verify_proposal _ _ _ _ _ _ _ Hi1 Hok)) as (_ & _ & ? & _).
    + eapply Hsafe; [..|exact E]; [done|by apply Safe_work_verify_vote].
    + eapply Hsafe; [..|exact E]; [done|by apply Safe_verify_block_work].
    + eapply Hsafe; [..|exact E]; [done|by apply Safe_verify_block_work].
    + eapply Hsafe; [..|exact E]; [done|by apply Safe_work_verify_cert].
  - destruct (take_call_ok _ _ _ Hi Hc) as (Hi1 & Hok & _). destruct c; cbn in Hok; cbn [run_call] in E.
    { destruct (vote_rests _ _ _ _ _ _ _ Hi Hh Hc E Hne) as (lb & v & _ & Hv & _). exists v. by eapply sg_vote. }
    all: exfalso; eapply Hsafe; [..|exact E]; [done|].
    + by apply Safe_after_verify_vote.
    + by apply Safe_after_verify_commit.
    + by apply Safe_after_verify_syncblock.
    + by apply Safe_after_verify_cert.
    + by apply Safe_after_fire_proposal_finish.
    + by apply Safe_after_fire_consensus_update.
  - exfalso. apply Hne. unfold signed. by rewrite (es_out _ _ He).
Qed.
End Ballots.

(** * Agreement between nodes

    Many nodes run the driver; some may be faulty.  A block is certified when
    a quorum signed it, and two quorums share an honest node.  From what the
    driver of an honest node guarantees (one signature per view, a signed
    block rests on the lock, the lock never moves back) it follows that no
    two blocks at the same height can be committed.

    A run gives, for every honest node and every time, the state of its
    driver and the block it signs in the step from that time to the next. *)

Record network := Network {
  nw_node : Type;
  nw_honest : nw_node -> bool;
  nw_quorum : list nw_node -> Prop;
  nw_run : nat -> nw_node -> dstate;
  nw_ballot : nat -> nw_node -> option xvblock
}.

Section Network.
Context `{HCert : XVCert} `{HBlock : XVBlock} `{HA : XCertAuth} `{HCodec : XCodec} `{HVerif : XVerifier}.
Variable nw : network.

Abbreviation run := (nw_run nw).
Abbreviation honest x := (nw_honest nw x = true).

(** A block some honest node has in its store at some time. *)
Definition in_store (b : xvblock) : Prop :=
  exists x t q, honest x /\ block_at q (run t x) = Some b.

(** Certified by the signatures sent before time [t]: the honest members of a
    quorum signed a block with this header and view.  What the faulty members
    did does not matter. *)
Definition certified_by (t : nat) (c : xvblock) : Prop :=
  exists Q, nw_quorum nw Q /\ forall x, x ∈ Q -> honest x ->
    exists t' v, (t' < t)%nat /\ nw_ballot nw t' x = Some v /\ same_pos v c.
Definition certified (c : xvblock) : Prop := exists t, certified_by t c.

(** [a] is the parent of [b], itself certified. *)
Definition extends (b a : xvblock) : Prop :=
  in_store a /\ certified a /\ get_block_hash a <> EmptyString /\
  get_last_block_hash b = get_block_hash a /\ get_height b = get_height a + 1.

Record network_ok : Prop := {
  (* honest nodes run the driver, and sign only in its steps *)
  no_start : forall x, honest x -> initial (run 0 x);
  no_step : forall x t, honest x ->
    match nw_ballot nw t x with
    | Some v => signs (run t x) v (run (S t) x)
    | None => (dstep (run t x) (run (S t) x) \/ run (S t) x = run t x) /\ signed (run (S t) x) = signed (run t x)
    end;
  no_heights : forall x t, honest x -> heights_ok (run t x);
  (* two quorums share an honest node *)
  no_quorums : forall Q Q', nw_quorum nw Q -> nw_quorum nw Q' -> exists x, x ∈ Q /\ x ∈ Q' /\ honest x;
  (* a block hash stands for one header and view *)
  no_hash : forall b c, in_store b -> in_store c -> get_block_hash b <> EmptyString ->
    get_block_hash b = get_block_hash c -> same_pos b c;
  (* the layers above lock a block only when it has a certified child *)
  no_lock : forall x t lb, honest x -> lock_of (run (S t) x) = Some lb -> 0 < get_height lb ->
    exists m, certified_by t m /\ get_height m = get_height lb + 1 /\ get_last_block_hash m = get_block_hash lb;
  (* they give a leader a parent that extends its lock *)
  no_parent : forall x t ev p r v lb q c, honest x -> nw_ballot nw t x = Some v ->
    ps_proposal ev = Some p -> on_proposal_start ev (run t x) = Some (r, run (S t) x) ->
    block_at p (run (S t) x) = Some v -> lock_of (run (S t) x) = Some lb -> get_height v = get_height lb + 2 ->
    b_prev v = Some q -> block_at q (run (S t) x) = Some c -> get_last_block_hash c = get_block_hash lb;
}.
End Network.

Section Safety.
Context `{HL : XVBlockLaws} `{HA : XCertAuth} `{HC : XCodecLaws} `{HV : XVerifierLaws}.
Variable nw : network.
Hypothesis Hok : network_ok nw.

Abbreviation run := (nw_run nw).
Abbreviation honest x := (nw_honest nw x = true).

(** ** One honest node over time *)

Lemma run_dstep x t : honest x -> rtc dstep (run t x) (run (S t) x).
Proof.
  intros Hx. pose proof (no_step _ Hok x t Hx) as Hs. destruct (nw_ballot nw t x) as [v|].
  - by eapply rtc_once, signs_dstep.
  - destruct Hs as [[?| ->] _]; [by apply rtc_once|done].
Qed.

Lemma run_rtc x t t' : honest x -> (t <= t')%nat -> rtc dstep (run t x) (run t' x).
Proof.
  intros Hx. induction 1 as [|t' _ IH]; [done|]. etrans; [exact IH|by apply run_dstep].
Qed.

Lemma run_reachable x t : honest x -> reachable (run t x).
Proof. intros Hx. exists (run 0 x). split; [by apply Hok|]. apply run_rtc; [done|lia]. Qed.

Lemma run_forward x t t' : honest x -> (t <= t')%nat -> dfwd (run t x) (run t' x).
Proof.
  intros Hx Hle. destruct (reachable_inv _ (run_reachable x t Hx)) as [Hi Hv].
  by destruct (dsteps_ok _ _ Hi Hv (run_rtc x t t' Hx Hle)) as (_ & _ & ?).
Qed.

(** Two locks of one node at the same height have the same view. *)
Lemma lock_view x t t' lb lb' :
  honest x -> lock_of (run t x) = Some lb -> lock_of (run t' x) = Some lb' ->
  get_height lb = get_height lb' -> get_viewid lb = get_viewid lb'.
Proof.
  intros Hx Hl Hl' Hh. destruct (Nat.le_ge_cases t t') as [Hle|Hle].
  - destruct (df_lock _ _ (run_forward x t t' Hx Hle) _ Hl) as (b & Hb & Hp). rewrite Hl' in Hb. injection Hb as <-.
    destruct Hp; lia.
  - destruct (df_lock _ _ (run_forward x t' t Hx Hle) _ Hl') as (b & Hb & Hp). rewrite Hl in Hb. injection Hb as <-.
    destruct Hp; lia.
Qed.

Lemma ballot_view x t v :
  honest x -> nw_ballot nw t x = Some v -> signed (run (S t) x) = signed (run t x) ++ [get_viewid v].
Proof.
  intros Hx Hv. pose proof (no_step _ Hok x t Hx) as Hs. rewrite Hv in Hs.
  destruct (reachable_inv _ (run_reachable x t Hx)) as [Hi _].
  eapply signs_view; [done|by apply Hok..|done].
Qed.

(** Two ballots of one node in the same view are one ballot. *)
Lemma ballot_once x t t' v v' :
  honest x -> nw_ballot nw t x = Some v -> nw_ballot nw t' x = Some v' -> get_viewid v = get_viewid v' -> v = v'.
Proof.
  intros Hx Hv Hv' Ev.
  assert (Hlt : forall a b w w', nw_ballot nw a x = Some w -> nw_ballot nw b x = Some w' ->
    get_viewid w = get_viewid w' -> ~ (a < b)%nat).
  { intros a b w w' Hw Hw' E Hab.
    destruct (reachable_inv _ (run_reachable x (S b) Hx)) as [_ [Hnd _]].
    unfold views in Hnd. apply NoDup_app in Hnd as [Hnd _]. rewrite (ballot_view x b w' Hx Hw') in Hnd.
    apply NoDup_app in Hnd as (_ & Hnd & _). apply (Hnd (get_viewid w)); [|rewrite E; by apply list_elem_of_singleton].
    destruct (df_out _ _ (run_forward x (S a) b Hx Hab)) as [l El]. unfold signed at 1. rewrite El, bind_app.
    apply elem_of_app. left. fold (signed (run (S a) x)). rewrite (ballot_view x a w Hx Hw).
    apply elem_of_app. right. by apply list_elem_of_singleton. }
  destruct (Nat.lt_trichotomy t t') as [?|[->|?]]; [by destruct (Hlt t t' v v' Hv Hv' Ev)|congruence|].
  by destruct (Hlt t' t v' v Hv' Hv (eq_sym Ev)).
Qed.

(** Whoever signs is locked on the parent or the grandparent of what it signs. *)
Lemma ballot_rests x t v :
  honest x -> nw_ballot nw t x = Some v ->
  exists lb, lock_of (run (S t) x) = Some lb /\
    rests_on (run (S t) x) lb v (fun _ c => get_last_block_hash c = get_block_hash lb).
Proof.
  intros Hx Hv. pose proof (no_step _ Hok x t Hx) as Hs. rewrite Hv in Hs.
  destruct (reachable_inv _ (run_reachable x t Hx)) as [Hi _].
  destruct Hs as [i o nonce from to Hc E Hs Hv'|ev p r Hev Ep E Hs Hv'].
  - destruct (vote_rests _ _ _ _ _ _ _ Hi (no_heights _ Hok x t Hx) Hc E Hs) as (lb & w & Hl & Hw & _ & Hr).
    simplify_eq. eauto.
  - destruct (proposal_rests _ _ _ _ _ Hi (no_heights _ Hok x (S t) Hx) Hev Ep E Hs) as (lb & w & Hl & Hw & _ & Hr).
    simplify_eq. exists lb. split; [done|]. destruct Hr as [?|(Hh & q & c & Hq & ? & ? & Hp)]; [by left|right].
    split; [done|]. exists q, c. split_and!; try done. by eapply (no_parent _ Hok).
Qed.

Lemma lock_in_store x t lb : honest x -> lock_of (run t x) = Some lb -> in_store nw lb.
Proof. intros Hx Hl. destruct (lock_of_ptr _ _ Hl) as (l & _ & Hb). by exists x, t, l. Qed.

(** ** A three-chain locks a quorum *)

Lemma honest_all (P : nw_node nw -> Prop) (R : Prop) (Q : list (nw_node nw)) :
  (forall x, x ∈ Q -> honest x -> P x \/ R) -> (forall x, x ∈ Q -> honest x -> P x) \/ R.
Proof.
  induction Q as [|y Q IH]; intros Hall; [left; by intros x ?%elem_of_nil|].
  destruct IH as [IH|]; [intros x Hin; apply Hall; by right| |by right].
  destruct (nw_honest nw y) eqn:Hy.
  - destruct (Hall y) as [Hp|]; [by left|done| |by right]. left. intros x [->|Hin]%elem_of_cons ?; auto.
  - left. intros x [->|Hin]%elem_of_cons Hx; [congruence|auto].
Qed.

(** The honest members of [Q] were locked at the position of [g]. *)
Definition locked_on (Q : list (nw_node nw)) (g : xvblock) : Prop :=
  nw_quorum nw Q /\ forall x, x ∈ Q -> honest x ->
    exists t lb, lock_of (run t x) = Some lb /\ get_height lb = get_height g /\ get_viewid lb = get_viewid g.

(** A signature on a grandchild of [g]: its signer is locked on [g], or the
    parent already had a certified child. *)
Lemma ballot_locks x t v p g :
  honest x -> nw_ballot nw t x = Some v -> extends nw v p -> extends nw p g ->
  (exists t' lb, lock_of (run t' x) = Some lb /\ get_height lb = get_height g /\ get_viewid lb = get_viewid g) \/
  (exists m, certified_by nw t m /\ get_height m = get_height v /\ get_last_block_hash m = get_block_hash p).
Proof.
  intros Hx Hv (Hp & _ & Hpe & Hvp & Hvh) (Hg & _ & Hge & Hpg & Hph).
  destruct (ballot_rests x t v Hx Hv) as (lb & Hl & Hr).
  assert (Hlb : in_store nw lb) by by eapply lock_in_store.
  assert (Hg0 : 0 <= get_height g) by (destruct Hg as (y & u & q & Hy & Hq); by apply (no_heights _ Hok y u Hy q)).
  destruct Hr as [[Hh Hlast]|(Hh & q & c & Hq & Hch & Hcl & Hcg)].
  - right. destruct (no_lock _ Hok x t lb Hx Hl) as (m & Hm & Hmh & Hml); [lia|]. exists m. split_and!; [done|lia|congruence].
  - left. exists (S t), lb.
    assert (Hpc : same_pos p c) by (apply (no_hash _ Hok); [done|by exists x, (S t), q|done|congruence]).
    assert (Hgl : same_pos g lb).
    { apply (no_hash _ Hok); [done..|]. rewrite <- Hpg, <- (same_pos_last _ _ Hpc). done. }
    split_and!; [done|by apply same_pos_height|by apply Hgl].
Qed.

Lemma three_chain_locks t n p g :
  certified_by nw t n -> extends nw n p -> extends nw p g -> exists Q, locked_on Q g.
Proof.
  revert n. induction (lt_wf t) as [t _ IH]. intros n (Q & HQ & Hall) Hnp Hpg.
  destruct (honest_all (fun x => exists t' lb, lock_of (run t' x) = Some lb /\ get_height lb = get_height g /\
      get_viewid lb = get_viewid g)
    (exists t' m, (t' < t)%nat /\ certified_by nw t' m /\ extends nw m p) Q) as [Hl|(t' & m & Hlt & Hm & Hmp)].
  - intros x Hin Hx. destruct (Hall x Hin Hx) as (t' & v & Hlt & Hv & Hpos).
    destruct Hnp as (Hp & Hpc & Hpe & Hnl & Hnh). pose proof (same_pos_height _ _ Hpos). pose proof (same_pos_last _ _ Hpos).
    destruct (ballot_locks x t' v p g Hx Hv) as [?|(m & Hm & Hmh & Hml)]; [|done|by left|right].
    + split_and!; [done..|congruence|lia].
    + exists t', m. split_and!; [done..|]. split_and!; [done..|lia].
  - by exists Q.
  - by eapply IH.
Qed.

(** ** At most one block per view is certified *)

Lemma certified_once c c' : certified nw c -> certified nw c' -> get_viewid c = get_viewid c' -> same_pos c c'.
Proof.
  intros (t & Q & HQ & Hc) (t' & Q' & HQ' & Hc') Hv.
  destruct (no_quorums _ Hok Q Q' HQ HQ') as (x & Hin & Hin' & Hx).
  destruct (Hc x Hin Hx) as (u & b & _ & Hb & Hbc). destruct (Hc' x Hin' Hx) as (u' & b' & _ & Hb' & Hbc').
  assert (b = b') as <-.
  { eapply ballot_once; [done..|]. destruct Hbc as [_ E], Hbc' as [_ E']. congruence. }
  destruct Hbc as [Eh Ev], Hbc' as [Eh' Ev']. split; congruence.
Qed.

(** Two three-chains at the same height have the same lowest block. *)
Lemma three_chains_agree n p g n' p' g' :
  certified nw n -> extends nw n p -> extends nw p g ->
  certified nw n' -> extends nw n' p' -> extends nw p' g' ->
  get_height g = get_height g' -> same_pos g g'.
Proof.
  intros [t Hn] Hnp Hpg [t' Hn'] Hnp' Hpg' Hh.
  destruct (three_chain_locks t n p g Hn Hnp Hpg) as (Q & HQ & Hl).
  destruct (three_chain_locks t' n' p' g' Hn' Hnp' Hpg') as (Q' & HQ' & Hl').
  destruct (no_quorums _ Hok Q Q' HQ HQ') as (x & Hin & Hin' & Hx).
  destruct (Hl x Hin Hx) as (u & lb & Hlb & Eh & Ev). destruct (Hl' x Hin' Hx) as (u' & lb' & Hlb' & Eh' & Ev').
  apply certified_once; [apply Hpg|apply Hpg'|]. rewrite <- Ev, <- Ev'. eapply lock_view; [done..|]. lia.
Qed.

(** A chain reaching two blocks above [a] ends in a three-chain over [a]. *)
Lemma chain_end n a :
  certified nw n -> rtc (extends nw) n a -> get_height a + 2 <= get_height n ->
  exists m q, certified nw m /\ extends nw m q /\ extends nw q a.
Proof.
  intros Hn Hr. revert Hn. induction Hr as [n|n q a Hnq Hqa IH]; [lia|]. intros Hn Hh.
  destruct Hnq as (Hq & Hqc & Hqe & Hnl & Hnh). destruct (decide (get_height a + 2 <= get_height q)); [by apply IH|].
  destruct Hqa as [q|q a' a Hqa Ha]; [lia|]. exists n, q. split; [done|].
  assert (Ha' : forall b c, rtc (extends nw) b c -> b = c \/ get_height c < get_height b).
  { clear. induction 1 as [|b d c (_ & _ & _ & _ & Hb) _ IH]; [by left|right]. destruct IH as [->|?]; lia. }
  destruct (Ha' _ _ Ha) as [->|?]; [by split_and!|]. destruct Hqa as (_ & _ & _ & _ & ?). lia.
Qed.
End Safety.

(** C1. Agreement, under the conditions of [network_ok]: honest nodes start
    fresh, run the driver and sign only in its steps; heights stay below the
    width; two quorums share an honest node; a block hash stands for one header
    and view; the layers above lock only a block with a certified child
    ([no_lock]) and give a leader that proposes two above its lock a parent that
    extends the lock ([no_parent]).  If [g] is committed by a three-chain of
    certified blocks, then every certified block two or more above [g] that has
    a chain of stored, certified ancestors down to the height of [g] has [g]
    there, whatever the faulty nodes do.  In particular no two different blocks
    of one height are committed by three-chains. *)
Theorem agreement `{HL : XVBlockLaws} `{HA : XCertAuth} `{HC : XCodecLaws} `{HV : XVerifierLaws}
    (nw : network) (Hok : network_ok nw) (n p g n' a : xvblock)
    (Hn : certified nw n) (Hnp : extends nw n p) (Hpg : extends nw p g)
    (Hn' : certified nw n') (Ha : rtc (extends nw) n' a)
    (Hh : get_height a = get_height g) (Hh' : get_height g + 2 <= get_height n') :
  same_pos g a.
Proof.
  destruct (chain_end nw n' a Hn' Ha) as (m & q & Hm & Hmq & Hqa); [lia|].
  exact (three_chains_agree nw Hok n p g m q a Hn Hnp Hpg Hm Hmq Hqa (eq_sym Hh)).
Qed.
