(* ===== verification/AgreementWitness.v ===== *)
(** * The agreement theorem at a concrete network

    Two nodes, one of them faulty; a quorum is any set with the honest one.
    The honest node starts from the genesis block, votes for two blocks in a
    row, learns their certificates, locks the first when the second is
    certified, and as the leader of the next view proposes a third block on
    the second. *)

From stdpp Require Import prelude gmap strings.
From Stdlib Require Import ZArith Lia.
From S2P Require Import Prelude Stream StdMap VBlock Pdu Concrete Proposal BFTState Rules RulesFacts Sync Driver Scenario DriverInv DriverFacts.
From S2P Require Import DriverSteps Agreement.

Module AgreementWitness.
Import Concrete.Demo.

Definition me : xvip2 := Scenario.Scenario.replica.
Definition peer : xvip2 := Scenario.Scenario.leader.

Definition genesis : xvblock := mk_block 0 1 "O" "" "" 0x7000.
Definition draft (height view : Z) (hash last justify : string) : xvblock :=
  MkBlock (XVHeader level_unit 1 height "T1" last) (mk_cert view hash justify) EmptyString 0 None None
    (Some (XVInput "" "")) (Some (XVOutput "")).
Definition blockG : xvblock := draft 1 2 "G" "O" "".
Definition blockP : xvblock := draft 2 3 "P" "G" "O".
Definition blockN : xvblock := draft 3 4 "N" "P" "G".

Definition blocks_of (s : string) : option xvblock :=
  if bool_decide (s = "G"%string) then Some blockG
  else if bool_decide (s = "P"%string) then Some blockP
  else if bool_decide (s = "N"%string) then Some blockN else None.
#[export] Instance chain_codec : XCodec := demo_codec (fun _ => Some (b_cert genesis)) blocks_of.
#[export] Instance chain_codec_laws : XCodecLaws.
Proof. apply demo_codec_laws. intros s b. unfold blocks_of. repeat case_bool_decide; by intros [= <-]. Qed.
#[export] Instance accept_all : XVerifier := Scenario.Scenario.verifier.
#[export] Instance accept_all_laws : XVerifierLaws := Scenario.Scenario.verifier_laws.

Definition one : ptr := 1%positive.
Definition st0 : dstate :=
  CState (World {[ one := genesis ]} 2%positive 1000 77 (Some one) (Some one) (fun _ => Some one) (fun _ _ => None) 0)
    (new_driver "T1") [] me true.

Definition proposal_of (height view : Z) (name parent : string) : xcspdu_fire :=
  XCspduFire peer me
    (XCspdu pdu_class_xbft msg_type_proposal 0
      (enc_proposal (XProposalMsg 1000 EmptyString name EmptyString EmptyString EmptyString))
      1 "T1" height 10 view 7 parent EmptyString) view 20 None None.

Abbreviation after := Scenario.Scenario.after.
Definition receive (ev : xcspdu_fire) : dstate -> dstate := after (on_pdu_event_down ev).
Definition verify (o : ptr) (s : dstate) : dstate :=
  after (run_job (JVerifyProposal peer me o 1 peer me)) (take_job 0 s).
Definition vote (o : ptr) (s : dstate) : dstate :=
  after (run_call (KAfterVerifyProposal o 1 peer me)) (take_call 0 s).
(** The other layers change the block at [q]. *)
Definition change (f : xvblock -> xvblock) (q : ptr) : dstate -> dstate := after (update_block q f).
(** Its certificate arrives; it is locked. *)
Definition certify : ptr -> dstate -> dstate := change (fun b => set_block_flag b enum_xvblock_flag_authenticated).
Definition lock : ptr -> dstate -> dstate := change (fun b => set_block_flag b enum_xvblock_flag_locked).
(** They make a block for the node to propose. *)
Definition make (b : xvblock) : dstate -> dstate := after (alloc b).
Definition propose (p : ptr) : dstate -> dstate := after (on_proposal_start (XProposalStart (Some p) None None None 500)).
Definition learn (lock cert : option ptr) : dstate -> dstate :=
  after (on_proposal_start (XProposalStart None lock None cert 0)).

Definition two : ptr := 2%positive.
Definition three : ptr := 3%positive.
Definition four : ptr := 4%positive.
(** Block N as its leader holds it, linked to block P. *)
Definition linkedN : xvblock :=
  MkBlock (b_header blockN) (b_cert blockN) EmptyString 0 (Some three) None (b_input blockN) (b_output blockN).

(** The states of the honest node, in order. *)
Definition steps : list (dstate -> dstate) :=
  [receive (proposal_of 1 2 "G" "O"); verify one; vote one; certify two; learn None (Some two);
   receive (proposal_of 2 3 "P" "G"); verify two; vote two; certify three; lock two; learn (Some two) (Some three);
   make linkedN; propose four].
Fixpoint states_from (s : dstate) (l : list (dstate -> dstate)) : list dstate :=
  match l with [] => [s] | f :: l' => s :: states_from (f s) l' end.
Definition states : list dstate := Eval vm_compute in states_from st0 steps.
Definition state (t : nat) : dstate := nth t states (List.last states st0).

Definition ballot (t : nat) : option xvblock :=
  match t with
  | 2%nat => prop_block_of (state 3) one
  | 7%nat => prop_block_of (state 8) two
  | 12%nat => block_at four (state 13)
  | _ => None
  end.
Definition net : network :=
  Network bool id (fun Q => true ∈ Q) (fun t _ => state t) (fun t x => if x then ballot t else None).

Lemma st0_initial : initial st0.
Proof.
  assert (Hb : forall p b, block_at p st0 = Some b -> p = one /\ b = genesis).
  { intros p b Hp. unfold block_at in Hp. cbn in Hp. by apply lookup_singleton_Some in Hp as [<- <-]. }
  assert (H1 : allocated st0 one) by by eexists.
  split; [by eexists|done|]. split; try done.
  - apply env_refl_blocks.
  - intros p [b Hp]. by destruct (Hb p b Hp) as [-> _].
  - intros p b q Hp Hq. by destruct (Hb p b Hp) as [_ ->].
  - intros l [= <-]. exact H1.
  - intros h q [= <-]. exact H1.
Qed.

Lemma change_env f q b s :
  (forall c, same_id c (f c)) -> dinv True s -> block_at q s = Some b -> env_step s (change f q s).
Proof.
  intros Hid [Hd Hh _] Hb.
  assert (E : change f q s = upd_world (fun w => with_blocks w (<[q := f b]> (w_blocks w))) s).
  { unfold change, Scenario.Scenario.after, update_block, bind, deref. by rewrite Hb. }
  assert (Hat : forall p c, block_at p (change f q s) = Some c -> exists c0, block_at p s = Some c0 /\ same_id c0 c).
  { intros p c. rewrite E. unfold block_at. cbn. intros [[<- <-]|[_ Hp]]%lookup_insert_Some; [by exists b|]. by exists c. }
  assert (Hal : forall p, allocated s p -> allocated (change f q s) p).
  { intros p [c Hp]. rewrite E. unfold allocated, block_at. cbn. destruct (decide (p = q)) as [->|].
    - rewrite lookup_insert_eq. by eexists.
    - rewrite lookup_insert_ne by done. by exists c. }
  split; rewrite ?E; try done.
  - intros p c Hp. destruct (Hal p) as [c' Hp']; [by exists c|]. rewrite E in Hp'.
    destruct (Hat p c') as (c0 & Hp0 & [? _]); [by rewrite E|]. exists c'. split; [done|]. by simplify_eq.
  - intros p [c Hp]. apply (hi_blocks _ Hh). rewrite <- E in Hp. destruct (Hat p c Hp) as (c0 & ? & _). by exists c0.
  - intros p c x Hp Hx. rewrite <- E in *. destruct (Hat p c Hp) as (c0 & Hc0 & (_ & El & _)). apply Hal.
    eapply (hi_prev _ Hh); [exact Hc0|congruence].
  - intros l Hl. rewrite <- E. apply Hal, (di_store _ Hd), Hl.
  - intros h x Hx. rewrite <- E. eapply Hal, (hi_load _ Hh), Hx.
  - intros h y x Hx. rewrite <- E. eapply Hal, (hi_query _ Hh), Hx.
Qed.

Lemma make_env b s :
  dinv True s -> (forall q, b_prev b = Some q -> allocated s q) -> env_step s (make b s).
Proof.
  intros [Hd Hh _] Hprev.
  assert (Hat : forall q, block_at q (make b s) = if decide (q = w_next (cs_world s)) then Some b else block_at q s).
  { intros q. unfold block_at. cbn. destruct (decide _) as [->|]; [apply lookup_insert_eq|by apply lookup_insert_ne]. }
  assert (Hne : forall q, allocated s q -> q <> w_next (cs_world s)) by (intros q Hq%(hi_blocks _ Hh); lia).
  assert (Hal : forall q, allocated s q -> allocated (make b s) q).
  { intros q Hq. unfold allocated. rewrite Hat, decide_False by auto. exact Hq. }
  split; try done.
  - intros p c Hp. exists c. rewrite Hat, decide_False by (apply Hne; by eexists). by split.
  - intros p [c Hp]. rewrite Hat in Hp. cbn. destruct (decide _) as [->|]; [lia|].
    pose proof (hi_blocks _ Hh p (ex_intro _ c Hp)). lia.
  - intros p c q Hp Hq. apply Hal. rewrite Hat in Hp. destruct (decide _); [by simplify_eq; auto|].
    by eapply (hi_prev _ Hh).
  - intros l Hl. apply Hal, (di_store _ Hd), Hl.
  - intros h q Hq. eapply Hal, (hi_load _ Hh), Hq.
  - intros h x q Hq. eapply Hal, (hi_query _ Hh), Hq.
Qed.

(** ** The steps of the run *)

Ltac eval_step := vm_compute; reflexivity.

Lemma recv_step t ev : on_pdu_event_down ev (state t) = Some (true, state (S t)) -> dstep (state t) (state (S t)).
Proof. apply ds_pdu. Qed.
Lemma verify_step t o :
  d_jobs (cs_st (state t)) !! 0%nat = Some (JVerifyProposal peer me o 1 peer me) ->
  run_job (JVerifyProposal peer me o 1 peer me) (take_job 0 (state t)) = Some (tt, state (S t)) ->
  dstep (state t) (state (S t)).
Proof. apply ds_job. Qed.
Lemma learn_step t lock cert :
  (forall p, lock = Some p \/ cert = Some p -> allocated (state t) p) ->
  on_proposal_start (XProposalStart None lock None cert 0) (state t) = Some (true, state (S t)) ->
  dstep (state t) (state (S t)).
Proof. intros Ha. apply ds_start. intros p [?|[?|[?|?]]]; try done; apply Ha; auto. Qed.
Lemma change_step f t q b :
  (forall c, same_id c (f c)) -> reachable (state t) -> block_at q (state t) = Some b ->
  state (S t) = change f q (state t) -> dstep (state t) (state (S t)).
Proof. intros Hid Hr Hb ->. eapply ds_env, change_env; [done|apply (reachable_inv _ Hr)|done]. Qed.
Lemma vote_signs t o v :
  d_calls (cs_st (state t)) !! 0%nat = Some (KAfterVerifyProposal o 1 peer me) ->
  after_verify_proposal o 1 peer me (take_call 0 (state t)) = Some (tt, state (S t)) ->
  bool_decide (signed (state (S t)) = signed (state t)) = false -> prop_block_of (state (S t)) o = Some v ->
  signs (state t) v (state (S t)).
Proof. intros Hc E Hs Hv. eapply sg_vote; [done..| |done]. by apply bool_decide_eq_false in Hs. Qed.

Lemma learn_alloc t (l c : option ptr) :
  match l with Some p => is_Some (block_at p (state t)) | None => True end ->
  match c with Some p => is_Some (block_at p (state t)) | None => True end ->
  forall p, l = Some p \/ c = Some p -> allocated (state t) p.
Proof. intros Hl Hc p [-> | ->]; [exact Hl|exact Hc]. Qed.

(** The ballots of the run: blocks G, P and N. *)
Definition ballotG : xvblock := default genesis (ballot 2).
Definition ballotP : xvblock := default genesis (ballot 7).
Definition ballotN : xvblock := default genesis (ballot 12).

Lemma sign2 : signs (state 2) ballotG (state 3).
Proof. apply (vote_signs 2 one); eval_step. Qed.
Lemma sign7 : signs (state 7) ballotP (state 8).
Proof. apply (vote_signs 7 two); eval_step. Qed.
Lemma sign12 : signs (state 12) ballotN (state 13).
Proof.
  eapply (sg_proposal _ _ _ (XProposalStart (Some four) None None None 500) four true); [|done|eval_step| |eval_step].
  - intros p [[= <-]|[?|[?|?]]]; [|done..]. by eexists.
  - intros E. apply (f_equal length) in E. by vm_compute in E.
Qed.

Lemma ag_reach_next t : reachable (state t) -> dstep (state t) (state (S t)) -> reachable (state (S t)).
Proof. intros (s & Hi & Hr) Hs. exists s. split; [done|]. etrans; [exact Hr|by apply rtc_once]. Qed.

Lemma ag_reach3 : reachable (state 3).
Proof.
  assert (H0 : reachable (state 0)) by (exists st0; split; [apply st0_initial|done]).
  assert (H1 : reachable (state 1)).
  { apply ag_reach_next; [done|]. apply (recv_step 0 (proposal_of 1 2 "G" "O")). eval_step. }
  assert (H2 : reachable (state 2)) by (apply ag_reach_next; [done|]; apply (verify_step 1 one); eval_step).
  apply ag_reach_next; [done|]. apply signs_dstep with ballotG, sign2.
Qed.
Lemma ag_step3 : dstep (state 3) (state 4).
Proof. eapply (change_step (fun b => set_block_flag b enum_xvblock_flag_authenticated) 3 two); [intros; apply set_flag_id|apply ag_reach3|eval_step..]. Qed.
Lemma ag_step4 : dstep (state 4) (state 5).
Proof. apply (learn_step 4 None (Some two)); [apply learn_alloc; [done|by eexists]|eval_step]. Qed.

Lemma ag_reach8 : reachable (state 8).
Proof.
  assert (H5 : reachable (state 5)) by (apply ag_reach_next; [apply ag_reach_next; [apply ag_reach3|apply ag_step3]|apply ag_step4]).
  assert (H6 : reachable (state 6)).
  { apply ag_reach_next; [done|]. apply (recv_step 5 (proposal_of 2 3 "P" "G")). eval_step. }
  assert (H7 : reachable (state 7)) by (apply ag_reach_next; [done|]; apply (verify_step 6 two); eval_step).
  apply ag_reach_next; [done|]. apply signs_dstep with ballotP, sign7.
Qed.
Lemma ag_step8 : dstep (state 8) (state 9).
Proof. eapply (change_step (fun b => set_block_flag b enum_xvblock_flag_authenticated) 8 three); [intros; apply set_flag_id|apply ag_reach8|eval_step..]. Qed.
Lemma ag_reach9 : reachable (state 9).
Proof. apply ag_reach_next; [apply ag_reach8|apply ag_step8]. Qed.
Lemma ag_step9 : dstep (state 9) (state 10).
Proof. eapply (change_step (fun b => set_block_flag b enum_xvblock_flag_locked) 9 two); [intros; apply set_flag_id|apply ag_reach9|eval_step..]. Qed.
Lemma ag_step10 : dstep (state 10) (state 11).
Proof. apply (learn_step 10 (Some two) (Some three)); [apply learn_alloc; by eexists|eval_step]. Qed.
Lemma ag_reach11 : reachable (state 11).
Proof. apply ag_reach_next; [apply ag_reach_next; [apply ag_reach9|apply ag_step9]|apply ag_step10]. Qed.
Lemma ag_step11 : dstep (state 11) (state 12).
Proof.
  assert (E : state 12 = make linkedN (state 11)) by eval_step. rewrite E.
  apply ds_env, make_env; [apply (reachable_inv _ ag_reach11)|]. intros q [= <-]. by eexists.
Qed.

Lemma state_end t : (13 <= t)%nat -> state t = state 13.
Proof.
  intros Ht. destruct (decide (t = 13%nat)) as [->|]; [done|]. unfold state at 1. rewrite nth_overflow; [done|].
  change (length states) with 14%nat. lia.
Qed.

Lemma run_step t :
  match ballot t with
  | Some v => signs (state t) v (state (S t))
  | None => (dstep (state t) (state (S t)) \/ state (S t) = state t) /\ signed (state (S t)) = signed (state t)
  end.
Proof.
  destruct t as [|t]; [split; [left; apply (recv_step 0 (proposal_of 1 2 "G" "O")); eval_step|eval_step]|].
  destruct t as [|t]; [split; [left; apply (verify_step 1 one); eval_step|eval_step]|].
  destruct t as [|t]; [exact sign2|].
  destruct t as [|t]; [split; [left; exact ag_step3|eval_step]|].
  destruct t as [|t]; [split; [left; exact ag_step4|eval_step]|].
  destruct t as [|t]; [split; [left; apply (recv_step 5 (proposal_of 2 3 "P" "G")); eval_step|eval_step]|].
  destruct t as [|t]; [split; [left; apply (verify_step 6 two); eval_step|eval_step]|].
  destruct t as [|t]; [exact sign7|].
  destruct t as [|t]; [split; [left; exact ag_step8|eval_step]|].
  destruct t as [|t]; [split; [left; exact ag_step9|eval_step]|].
  destruct t as [|t]; [split; [left; exact ag_step10|eval_step]|].
  destruct t as [|t]; [split; [left; exact ag_step11|eval_step]|].
  destruct t as [|t]; [exact sign12|].
  assert (E : state (S (13 + t)) = state (13 + t)) by (rewrite (state_end (S (13 + t))), (state_end (13 + t)) by lia; done).
  split; [by right|]. by f_equal.
Qed.

(** ** Every block of every store *)

Definition all_blocks : list xvblock := states ≫= fun s => (map_to_list (w_blocks (cs_world s))).*2.

Lemma state_in t : state t ∈ states.
Proof.
  unfold state. destruct (Nat.lt_ge_cases t (length states)) as [Hlt|Hge].
  - by apply list_elem_of_In, nth_In.
  - rewrite nth_overflow by done. apply list_elem_of_In. vm_compute. tauto.
Qed.
Lemma in_store_all b : in_store net b -> b ∈ all_blocks.
Proof.
  intros (x & t & q & _ & Hb). apply list_elem_of_bind. exists (state t). split; [|apply state_in].
  apply list_elem_of_fmap. exists (q, b). split; [done|]. by apply elem_of_map_to_list.
Qed.

Definition hash_fine (b c : xvblock) : bool :=
  bool_decide (get_block_hash b = EmptyString) || negb (bool_decide (get_block_hash b = get_block_hash c))
  || (bool_decide (b_header c = b_header b) && (get_viewid c =? get_viewid b)).
Lemma hashes_fine : forallb (fun b => forallb (hash_fine b) all_blocks) all_blocks = true.
Proof. eval_step. Qed.
Lemma heights_fine : forallb (fun b => (0 <=? get_height b) && (get_height b + 2 <? 2 ^ 64)) all_blocks = true.
Proof. eval_step. Qed.

Definition storedG : xvblock := default genesis (block_at two (state 13)).
Definition storedP : xvblock := default genesis (block_at three (state 13)).

(** The lock is the genesis block, and block G once P is certified. *)
Lemma lock_table t lb :
  lock_of (state (S t)) = Some lb -> lb = genesis \/ lb = storedG /\ (9 < t)%nat.
Proof.
  do 10 (destruct t as [|t]; [vm_compute; intros [= <-]; by left|]).
  do 3 (destruct t as [|t]; [vm_compute; intros [= <-]; right; split; [reflexivity|lia]|]).
  intros Hl. right. split; [|lia]. assert (E : state (S (13 + t)) = state 13) by (apply state_end; lia).
  change (lock_of (state (S (13 + t))) = Some lb) in Hl. rewrite E in Hl. vm_compute in Hl. by injection Hl as <-.
Qed.

Lemma signed_by t u v c : (t < u)%nat -> ballot t = Some v -> same_pos v c -> certified_by net u c.
Proof.
  intros Hlt Hv Hc. exists [true]. split; [by apply list_elem_of_singleton|].
  intros x ->%list_elem_of_singleton _. by exists t, v.
Qed.

Lemma net_ok : network_ok net.
Proof.
  split; cbn.
  - intros x _. apply st0_initial.
  - intros x t Hx. change (x = true) in Hx. subst x. apply run_step.
  - intros x t Hx q b Hb. assert (Hin : b ∈ all_blocks) by (apply in_store_all; by exists x, t, q).
    apply list_elem_of_In in Hin. pose proof (proj1 (forallb_forall _ _) heights_fine b Hin) as E. cbn in E. lia.
  - intros Q Q' HQ HQ'. by exists true.
  - intros b c Hb Hc Hne He. apply in_store_all, list_elem_of_In in Hb. apply in_store_all, list_elem_of_In in Hc.
    pose proof (proj1 (forallb_forall _ _) hashes_fine b Hb) as E. apply (proj1 (forallb_forall _ _) E) in Hc.
    unfold hash_fine in Hc. rewrite (bool_decide_eq_false_2 _ Hne), (bool_decide_eq_true_2 _ He) in Hc. cbn in Hc.
    apply andb_true_iff in Hc as [Hh Hv]. apply bool_decide_eq_true in Hh. apply Z.eqb_eq in Hv. by split.
  - intros x t lb _ Hl Hh. destruct (lock_table t lb Hl) as [->|[-> Ht]]; [done|].
    exists ballotP. split; [|by split]. by apply (signed_by 7 t ballotP); [lia|..].
  - intros x t ev p r v lb q c Hx Hv _ _ _ Hl Hh Hp Hq. change (x = true) in Hx. subst x. cbn [net nw_run nw_ballot] in *.
    do 12 (destruct t as [|t]; [vm_compute in Hv; simplify_eq; by vm_compute in Hp|]).
    destruct t as [|t]; [|done]. assert (Eb : v = ballotN) by (vm_compute in Hv |- *; congruence). subst v.
    vm_compute in Hp. injection Hp as <-. vm_compute in Hl. injection Hl as <-. vm_compute in Hq. injection Hq as <-.
    reflexivity.
Qed.

(** Block G when it was certified, before it was locked. *)
Definition earlyG : xvblock := default genesis (block_at two (state 5)).

Lemma agreement_witness :
  get_height storedG = 1 /\ signed (state 13) = [2; 3; 4] /\ b_flags earlyG <> b_flags storedG /\ same_pos storedG earlyG.
Proof.
  split; [reflexivity|]. split; [reflexivity|]. split; [by vm_compute|].
  apply (agreement net net_ok ballotN storedP storedG ballotN earlyG).
  - exists 13%nat. by apply (signed_by 12 13 ballotN); [lia|..].
  - split_and!; [by exists true, 13%nat, three| |done..]. exists 8%nat. by apply (signed_by 7 8 ballotP); [lia|..].
  - split_and!; [by exists true, 13%nat, two| |done..]. exists 3%nat. by apply (signed_by 2 3 ballotG); [lia|..].
  - exists 13%nat. by apply (signed_by 12 13 ballotN); [lia|..].
  - eapply (rtc_l _ _ storedP); [|apply rtc_once].
    + split_and!; [by exists true, 13%nat, three| |done..]. exists 8%nat. by apply (signed_by 7 8 ballotP); [lia|..].
    + split_and!; [by exists true, 5%nat, two| |done..]. exists 3%nat. by apply (signed_by 2 3 ballotG); [lia|..].
  - done.
  - done.
Defined.
End AgreementWitness.
