(* ===== verification/Node.v ===== *)
(** * Driver and context over the same blocks

    In a node the driver and the context above it are separate objects that
    share the blocks.  Whatever order their handlers run in, and whichever
    events pass between them, each sees of the other only what its own
    environment was allowed to do; so every theorem about the executions of
    one layer holds in the node. *)

From stdpp Require Import prelude gmap strings.
From Stdlib Require Import ZArith Lia.
From S2P Require Import Prelude Stream StdMap VBlock Pdu Concrete Proposal BFTState Rules RulesFacts Sync Driver.
From S2P Require Import Scenario DriverInv DriverFacts DriverSteps.
From S2P Require Import CertContext CertInv CertFacts CertPool CertSteps CertReach CertWitness.

Definition heights_unsigned {T E} (s : cstate T E) : Prop := forall p b, block_at p s = Some b -> 0 <= get_height b.
Definition in_world {T E} (w : world) (s : cstate T E) : cstate T E := upd_world (fun _ => w) s.

Definition node : Type := xstate * dstate.

(** Nothing is asked of what the driver does to hashes. *)
#[local] Instance node_hashes : HashesKept := hashes_any.

Section Node.
Context `{HL : XVBlockLaws} `{HN : XVBNodeLaws} `{HA : XCertAuth} `{HC : XCodecLaws} `{HV : XVerifierLaws}.

Inductive nstep : node -> node -> Prop :=
  | ns_driver x d d' : dstep d d' -> heights_unsigned d' -> nstep (x, d) (in_world (cs_world d') x, d')
  | ns_context x d i r x' : xev_ok x (in_event i) -> ctx_handle i x = Some (r, x') ->
      nstep (x, d) (x', in_world (cs_world x') d).

Definition node_initial (n : node) : Prop := ctx_initial n.1 /\ initial n.2 /\ cs_world n.1 = cs_world n.2.
Definition node_reachable (n : node) : Prop := exists n0, node_initial n0 /\ rtc nstep n0 n.

(** A step of the context is one the driver's environment may take. *)
Lemma context_env x x' d :
  dinv True d -> cs_world x = cs_world d -> xfwd x x' -> env_step d (in_world (cs_world x') d).
Proof.
  intros Hi Hw Hf. pose proof (dv_heap _ _ Hi) as Hh.
  assert (Hb : forall p, option_Forall2 same_blk (block_at p d) (block_at p (in_world (cs_world x') d))).
  { intros p. unfold block_at. rewrite <- Hw. apply (xf_blocks _ _ Hf). }
  assert (Hal : forall p, allocated d p -> allocated (in_world (cs_world x') d) p).
  { intros p [b E]. destruct (option_Forall2_Some_l _ _ _ _ (Hb p) E) as (b' & E' & _). by exists b'. }
  assert (Ew : forall A (f : world -> A), (forall w m, f (with_blocks w m) = f w) -> f (cs_world x') = f (cs_world d)).
  { intros A f Hfm. by rewrite (xf_world _ _ Hf), Hfm, Hw. }
  split; try done.
  - intros p b E. destruct (option_Forall2_Some_l _ _ _ _ (Hb p) E) as (b' & E' & [[Hs _] _]). by exists b'.
  - intros p [b' E']. cbn. rewrite (Ew _ w_next) by done. apply (hi_blocks _ Hh).
    destruct (option_Forall2_Some_r _ _ _ _ (Hb p) E') as (b & E & _). by exists b.
  - intros p b' q E' Hq. destruct (option_Forall2_Some_r _ _ _ _ (Hb p) E') as (b & E & [(_ & Ep & _) _]).
    apply Hal, (hi_prev _ Hh p b); [done|congruence].
  - intros l. cbn. rewrite (Ew _ w_latest_locked) by done. intros E. by eapply Hal, (di_store _ (dv_drv _ _ Hi)).
  - intros h q. cbn. rewrite (Ew _ w_load) by done. intros E. by eapply Hal, (hi_load _ Hh).
  - intros h y q. cbn. rewrite (Ew _ w_query) by done. intros E. by eapply Hal, (hi_query _ Hh).
Qed.

(** A step of the driver is one the context's environment may take. *)
Lemma driver_env x d d' :
  cs_world x = cs_world d -> dfwd d d' -> heights_unsigned d' -> xenv_step x (in_world (cs_world d') x).
Proof.
  intros Hw Hf Hh. split; try done. intros p b E. apply (df_blocks _ _ Hf). unfold block_at. by rewrite <- Hw.
Qed.

Lemma nstep_ok n n' :
  reachable n.2 -> ctx_reachable n.1 -> cs_world n.1 = cs_world n.2 -> nstep n n' ->
  reachable n'.2 /\ ctx_reachable n'.1 /\ cs_world n'.1 = cs_world n'.2.
Proof.
  intros Hd Hx Hw Hs. destruct (reachable_inv _ Hd) as [Hi _]. pose proof (ctx_reachable_inv _ Hx) as Hxi.
  assert (Hdr : forall d d', reachable d -> dstep d d' -> reachable d').
  { intros d d' (d0 & H0' & Hr) Hs'. exists d0. split; [done|by eapply rtc_r]. }
  assert (Hxr : forall x x', ctx_reachable x -> cstep x x' -> ctx_reachable x').
  { intros x x' (x0 & H0' & Hr) Hs'. exists x0. split; [done|by eapply rtc_r]. }
  destruct Hs as [x d d' Hs Hh|x d i r x' Hev E]; cbn in *.
  - split_and!; [by eapply Hdr| |done]. eapply Hxr; [done|]. apply ct_env, (driver_env x d d'); [done| |done].
    by destruct (dstep_ok d d' Hi Hs) as (_ & ? & _).
  - split_and!; [|eapply Hxr; [done|by eapply ct_handle]|done]. eapply Hdr; [done|]. apply ds_env, (context_env x); [done..|].
    by destruct (XSafe_run _ _ _ _ _ E (XOk_handle i x Hxi Hev)) as (_ & ? & _).
Qed.
End Node.


Module NodeWitness.
Import Concrete.Demo Scenario.Scenario CertWitness.

(** The context learns the locked block, then the replica takes a proposal. *)
Definition x0 : xstate := CState world0 new_context [] replica true.
Definition tell : ctx_input := InConsensusUpdate true (XCsevent 0 None (Some 1%positive) (Some 1%positive) None).
Definition x1 : xstate := run tell x0.
Definition d1 : dstate := in_world (cs_world x1) s0.
Definition d2 : dstate := after (on_pdu_event_down proposal_event) d1.

Lemma unsigned_by (m : gmap ptr xvblock) : bool_decide (map_Forall (fun _ b => 0 <= get_height b) m) = true ->
  forall p b, m !! p = Some b -> 0 <= get_height b.
Proof. by intros Hm%bool_decide_eq_true. Qed.

Lemma node_run : node_reachable (in_world (cs_world d2) x1, d2).
Proof.
  exists (x0, s0). split.
  - split_and!; [|apply StepsWitness.s0_initial|done]. split; [done|]. exact (unsigned_by (w_blocks world0) ltac:(by vm_compute)).
  - eapply rtc_l; [eapply (ns_context x0 s0 tell); [by apply ev_valid; vm_compute|vm_compute; reflexivity]|].
    apply rtc_once. eapply (ns_driver x1 d1 d2); [|exact (unsigned_by (w_blocks (cs_world d2)) ltac:(by vm_compute))].
    eapply (ds_pdu d1 proposal_event true). vm_compute. reflexivity.
Qed.

End NodeWitness.
