(* ===== verification/Pacemaker.v ===== *)
(** * The pacemaker ([xclockcert_view], xpacemaker.cpp)

    The top layer of the engine agrees with the other nodes on the current
    view: from the highest certificate of the global clock and the highest
    certificate of a block it computes the view number, announces each new
    view to the layers below and above, stamps packets on their way and stops
    those of another view.  Certificates that arrive in packets are verified
    on a worker before they count.

    A certificate kept here is only read, and what is read of it (clock, view,
    hash) does not change once it is delivered; so it is a value, and the
    test for the same object is covered by the test on its clock or view that
    follows it.  The node has a block store; the build is a release build. *)

From stdpp Require Import prelude gmap strings.
From Stdlib Require Import ZArith Lia.
From S2P Require Import Prelude Stream StdMap VBlock Pdu Proposal BFTState.

Inductive pm_call :=
  | KFireView (account : string) (viewid clock : Z)
  | KAfterVerifyPdu (ev : xcspdu_fire).

Record xclockcert_view := XClockcertView {
  m_latest_view_id : Z;
  m_latest_clock_cert : option xvqcert;
  m_latest_vblock_cert : option xvqcert;
  pm_account : string;
  pm_closed : bool;
  pm_child : bool;                            (* get_child_node() != NULL *)
  pm_store : string -> option ptr;            (* get_vblockstore()->get_latest_cert_block *)
  pm_jobs : list xcspdu_fire;                 (* handed to the worker pool *)
  pm_calls : list pm_call                     (* calls posted to this thread *)
}.

Definition set_pm_view (v : Z) (c : xclockcert_view) : xclockcert_view :=
  XClockcertView v (m_latest_clock_cert c) (m_latest_vblock_cert c) (pm_account c) (pm_closed c) (pm_child c)
    (pm_store c) (pm_jobs c) (pm_calls c).
Definition set_pm_clock (v : xvqcert) (c : xclockcert_view) : xclockcert_view :=
  XClockcertView (m_latest_view_id c) (Some v) (m_latest_vblock_cert c) (pm_account c) (pm_closed c) (pm_child c)
    (pm_store c) (pm_jobs c) (pm_calls c).
Definition set_pm_vblock (v : xvqcert) (c : xclockcert_view) : xclockcert_view :=
  XClockcertView (m_latest_view_id c) (m_latest_clock_cert c) (Some v) (pm_account c) (pm_closed c) (pm_child c)
    (pm_store c) (pm_jobs c) (pm_calls c).
Definition set_pm_jobs (v : list xcspdu_fire) (c : xclockcert_view) : xclockcert_view :=
  XClockcertView (m_latest_view_id c) (m_latest_clock_cert c) (m_latest_vblock_cert c) (pm_account c) (pm_closed c)
    (pm_child c) (pm_store c) v (pm_calls c).
Definition set_pm_calls (v : list pm_call) (c : xclockcert_view) : xclockcert_view :=
  XClockcertView (m_latest_view_id c) (m_latest_clock_cert c) (m_latest_vblock_cert c) (pm_account c) (pm_closed c)
    (pm_child c) (pm_store c) (pm_jobs c) v.

Definition new_pacemaker (account : string) (answers : string -> option ptr) : xclockcert_view :=
  XClockcertView 0 None None account false true answers [] [].

(** What leaves this layer. *)
Inductive pm_out :=
  | OutViewDown (account : string) (viewid clock : Z)
  | OutViewUp (account : string) (viewid clock : Z)
  | OutPduDown (ev : xcspdu_fire).

Abbreviation pstate := (cstate xclockcert_view pm_out).
Abbreviation PP := (prog pstate).

(** What an event carries through this layer. *)
Record xpmevent := XPmEvent {
  pe_error : Z; pe_target : option ptr; pe_commit : option ptr; pe_lock : option ptr; pe_cert : option ptr;
  pe_clock : option ptr;                      (* the latest clock block *)
  pe_proposal : option ptr;
  pe_clock_cert : option xvqcert              (* set here for the driver *)
}.
Definition with_clock_cert (c : option xvqcert) (ev : xpmevent) : xpmevent :=
  XPmEvent (pe_error ev) (pe_target ev) (pe_commit ev) (pe_lock ev) (pe_cert ev) (pe_clock ev) (pe_proposal ev) c.

Definition with_fire (cookie clock : Z) (ev : xcspdu_fire) : xcspdu_fire :=
  XCspduFire (ev_from ev) (ev_to ev) (ev_packet ev) cookie clock (ev_vblock_cert ev) (ev_xclock_cert ev).
Definition with_fire_xclock (c : option xvqcert) (ev : xcspdu_fire) : xcspdu_fire :=
  XCspduFire (ev_from ev) (ev_to ev) (ev_packet ev) (ev_cookie ev) (ev_clock ev) (ev_vblock_cert ev) c.
Definition with_fire_vblock (c : option xvqcert) (ev : xcspdu_fire) : xcspdu_fire :=
  XCspduFire (ev_from ev) (ev_to ev) (ev_packet ev) (ev_cookie ev) (ev_clock ev) c (ev_xclock_cert ev).

Definition pdu_with_xclock (s : string) (p : xcspdu) : xcspdu :=
  XCspdu (pdu_class p) (pdu_msg_type p) (pdu_nonce p) (pdu_body p) (pdu_chainid p) (pdu_account p) (pdu_height p)
    (pdu_block_clock p) (pdu_viewid p) (pdu_viewtoken p) (pdu_vblock_cert p) s.
Definition pdu_with_clock (v : Z) (p : xcspdu) : xcspdu :=
  XCspdu (pdu_class p) (pdu_msg_type p) (pdu_nonce p) (pdu_body p) (pdu_chainid p) (pdu_account p) (pdu_height p)
    v (pdu_viewid p) (pdu_viewtoken p) (pdu_vblock_cert p) (pdu_xclock_cert p).

(** The hash of the base library behind the nonce of a proposal, and the
    application's check behind [xcspacemaker_t::verify_proposal]. *)
Class XHash64 := { xhash64_digest : string -> Z }.
Class XUpperVerifier := { upper_verify_proposal : xvblock -> option xvqcert -> Z * xvblock }.

Section Pacemaker.
Context `{XVCert} `{XVBlock} `{XCertAuth} `{XCodec} `{XHash64} `{XUpperVerifier}.

(** ** The view *)

Definition view_from (vblock clock : xvqcert) : Z :=
  if c_clock vblock <? c_clock clock
  then u64 (c_viewid vblock + 1 + (c_clock clock - c_clock vblock) / 3)
  else u64 (c_viewid vblock + 1).

Definition update_view : PP bool :=
  let* vblock := st_get m_latest_vblock_cert in
  let* clock := st_get m_latest_clock_cert in
  match vblock, clock with
  | Some vb, Some ck =>
      let new_view_id := view_from vb ck in
      let* view := st_get m_latest_view_id in
      if view <? new_view_id then
        st_mod (set_pm_view new_view_id) ;;;
        let* account := st_get pm_account in
        st_mod (fun c => set_pm_calls (pm_calls c ++ [KFireView account new_view_id (c_clock ck)]) c) ;;;
        ret true
      else ret false
  | _, _ => ret false
  end.

(** The posted call ([fire_view]): down to the context, then up. *)
Definition fire_view (account : string) (viewid clock : Z) : PP unit :=
  let* child := st_get pm_child in
  (if child then emit (OutViewDown account viewid clock) else ret tt) ;;;
  fire (OutViewUp account viewid clock).

Definition init_vblock (account : string) : PP bool :=
  let* clock := st_get m_latest_clock_cert in
  let* vblock := st_get m_latest_vblock_cert in
  match clock, vblock with
  | Some _, Some _ => ret true
  | _, _ =>
      (match vblock with
       | Some _ => ret tt
       | None =>
           let* answers := st_get pm_store in
           match answers account with
           | None => ret tt
           | Some p =>
               let* b := deref p in
               if is_deliver b false then st_mod (set_pm_vblock (b_cert b)) else ret tt
           end
       end) ;;;
      update_view ;;;
      ret true
  end.

Definition get_latest_viewid (account : string) : PP Z :=
  let* view := st_get m_latest_view_id in
  (if view =? 0 then init_vblock account ;;; ret tt else ret tt) ;;;
  st_get m_latest_view_id.

Definition get_latest_xclock_height : PP Z :=
  let* clock := st_get m_latest_clock_cert in
  ret (match clock with None => 0 | Some c => c_clock c end).
Definition get_latest_vblock_viewid : PP Z :=
  let* vblock := st_get m_latest_vblock_cert in
  ret (match vblock with None => 0 | Some c => c_viewid c end).

(** ** Certificates *)

Definition safe_check_clock_cert (cert : option xvqcert) : PP bool :=
  match cert with
  | None => ret false
  | Some c =>
      let* clock := st_get m_latest_clock_cert in
      match clock with
      | Some k =>
          if (c_clock c <=? c_clock k) || (c_viewid c <=? c_viewid k) then ret false else ret (cert_is_deliver c)
      | None => ret (cert_is_deliver c)
      end
  end.
Definition update_clock_cert (cert : option xvqcert) : PP bool :=
  let* ok := safe_check_clock_cert cert in
  if ok then
    let* c := nonnull cert in
    st_mod (set_pm_clock c) ;;; update_view ;;; ret true
  else ret false.
Definition update_clock_block (block : option ptr) : PP bool :=
  match block with
  | None => ret false
  | Some p =>
      let* b := deref p in
      let* clock := st_get m_latest_clock_cert in
      if match clock with
         | Some k => (get_clock b <=? c_clock k) || (get_viewid b <=? c_viewid k)
         | None => false
         end then ret false
      else if negb (bool_decide (get_account b = xclock_account)) then ret false
      else if negb (check_block_flag b enum_xvblock_flag_authenticated) then ret false
      else update_clock_cert (Some (b_cert b))
  end.

Definition safe_check_vblock_cert (cert : option xvqcert) : PP bool :=
  match cert with
  | None => ret false
  | Some c =>
      let* vblock := st_get m_latest_vblock_cert in
      match vblock with
      | Some k => if c_viewid c <=? c_viewid k then ret false else ret (cert_is_deliver c)
      | None => ret (cert_is_deliver c)
      end
  end.
Definition update_vblock_cert (cert : option xvqcert) : PP bool :=
  let* ok := safe_check_vblock_cert cert in
  if ok then
    let* c := nonnull cert in
    st_mod (set_pm_vblock c) ;;; update_view ;;; ret true
  else ret false.
Definition update_vblock_block (block : option ptr) : PP bool :=
  match block with
  | None => ret false
  | Some p =>
      let* b := deref p in
      init_vblock (get_account b) ;;;
      let* vblock := st_get m_latest_vblock_cert in
      if match vblock with Some k => get_viewid b <=? c_viewid k | None => false end then ret false
      else if negb (is_deliver b false) then ret false
      else update_vblock_cert (Some (b_cert b))
  end.

(** ** Packets *)

(** [true]: the packet stops here. *)
Definition pm_on_pdu_event_up (packet : xcspdu) : PP (bool * xcspdu) :=
  let* clock := st_get m_latest_clock_cert in
  match clock with
  | None => ret (true, packet)
  | Some k =>
      let p1 := if (pdu_msg_type packet =? msg_type_proposal) || (pdu_msg_type packet =? msg_type_commit)
                then pdu_with_xclock (cert_to_string k) packet else packet in
      let p2 := if pdu_block_clock p1 =? 0 then pdu_with_clock (c_clock k) p1 else p1 in
      ret (false, p2)
  end.

Definition fire_verify_pduevent_job (ev : xcspdu_fire) : PP bool :=
  st_mod (fun c => set_pm_jobs (pm_jobs c ++ [ev]) c) ;;; ret true.

(** The worker: the flag says what the verification answered, nothing else. *)
Definition verified (account : string) (c : xvqcert) : xvqcert :=
  let c0 := with_cert_flags c (reset_unit_flag (c_flags c) enum_xvblock_flag_authenticated) in
  if verify_muti_sign_cert c0 account
  then with_cert_flags c0 (set_unit_flag (c_flags c0) enum_xvblock_flag_authenticated) else c0.
Definition work_verify_pdu (ev : xcspdu_fire) : PP unit :=
  let* closed := st_get pm_closed in
  if closed then ret tt
  else
    let* account := st_get pm_account in
    let ev1 := with_fire_xclock (verified xclock_account <$> ev_xclock_cert ev) ev in
    let ev2 := with_fire_vblock (verified account <$> ev_vblock_cert ev1) ev1 in
    st_mod (fun c => set_pm_calls (pm_calls c ++ [KAfterVerifyPdu ev2]) c).

Definition cert_flagged (c : xvqcert) : bool := check_unit_flag (c_flags c) enum_xvblock_flag_authenticated.

(** Back on this thread: the certificates count now; the packet goes on. *)
Definition after_verify_pdu (ev : xcspdu_fire) : PP unit :=
  (match ev_xclock_cert ev with
   | Some c => if cert_flagged c then update_clock_cert (Some c) ;;; ret tt else ret tt
   | None => ret tt
   end) ;;;
  (match ev_vblock_cert ev with
   | Some c => if cert_flagged c then update_vblock_cert (Some c) ;;; ret tt else ret tt
   | None => ret tt
   end) ;;;
  let* child := st_get pm_child in
  if child then
    let* view := st_get m_latest_view_id in
    let ev' := with_fire view (ev_clock ev) ev in
    if pdu_viewid (ev_packet ev) =? view then emit (OutPduDown ev')
    else if negb (pdu_msg_type (ev_packet ev) =? msg_type_vote) then emit (OutPduDown ev') else ret tt
  else ret tt.

(** The certificate a packet carries for the clock, with its flags removed. *)
Definition packet_clock_cert (ev : xcspdu_fire) : option xvqcert :=
  let bin := pdu_xclock_cert (ev_packet ev) in
  if bool_decide (bin = EmptyString) then ev_xclock_cert ev
  else match create_qcert_object bin with
       | Some c => let c' := cert_reset_block_flags c in if cert_is_deliver c' then Some c' else ev_xclock_cert ev
       | None => ev_xclock_cert ev
       end.
(** ... and for a block, when it is above the one known here. *)
Definition packet_vblock_cert (known : Z) (ev : xcspdu_fire) : option xvqcert :=
  let bin := pdu_vblock_cert (ev_packet ev) in
  if ((pdu_msg_type (ev_packet ev) =? msg_type_view) || (pdu_msg_type (ev_packet ev) =? msg_type_proposal))
     && negb (bool_decide (bin = EmptyString))
  then match create_qcert_object bin with
       | Some c =>
           let c' := cert_reset_block_flags c in
           if (known <? c_viewid c') && cert_is_deliver c' then Some c' else ev_vblock_cert ev
       | None => ev_vblock_cert ev
       end
  else ev_vblock_cert ev.

Definition pm_on_pdu_event_down (ev : xcspdu_fire) : PP (bool * xcspdu_fire) :=
  let packet := ev_packet ev in
  if is_xip2_equal (ev_from ev) (ev_to ev) then ret (true, ev)
  else
    let* clock := get_latest_xclock_height in
    let* cookie := get_latest_viewid (pdu_account packet) in
    let ev1 := with_fire cookie clock ev in
    let ev2 := with_fire_xclock (packet_clock_cert ev1) ev1 in
    if (pdu_msg_type packet =? msg_type_proposal) && negb (bool_decide (is_Some (ev_xclock_cert ev2)))
    then ret (true, ev2)
    else
      let* view := get_latest_viewid (pdu_account packet) in
      if pdu_viewid packet =? view then ret (false, ev2)
      else
        let* known := get_latest_vblock_viewid in
        let ev3 := with_fire_vblock (packet_vblock_cert known ev2) ev2 in
        if bool_decide (is_Some (ev_xclock_cert ev3)) || bool_decide (is_Some (ev_vblock_cert ev3))
        then fire_verify_pduevent_job ev3 ;;; ret (true, ev3)
        else ret (pdu_msg_type packet =? msg_type_vote, ev3).

(** ** Proposals *)

Definition verifiable_nonce (b : xvblock) (clock : xvqcert) : Z :=
  u64 (xhash64_digest (get_last_block_hash b) + xhash64_digest (build_block_hash clock)).

(** [bind_clock_cert] is dereferenced without a test. *)
Definition pm_verify_proposal (b : xvblock) (bind_clock_cert : xvqcert) : Z * xvblock :=
  if negb (verifiable_nonce b bind_clock_cert =? c_nonce (b_cert b))
  then (enum_xconsensus_error_bad_clock_cert, b)
  else upper_verify_proposal b (Some bind_clock_cert).

Definition update_cert (p : ptr) (f : xvqcert -> xvqcert) : PP unit :=
  update_block p (fun b => with_cert b (f (b_cert b))).

(** A leader's proposal; [true]: it does not start. *)
Definition pm_start_proposal (ev : xpmevent) (p : ptr) : PP (bool * xpmevent) :=
  let* b := deref p in
  (match b_prev b with Some q => update_vblock_block (Some q) ;;; ret tt | None => ret tt end) ;;;
  let* view := get_latest_viewid (get_account b) in
  if negb (get_viewid b =? view) then update_cert p (fun c => set_viewid c view) ;;; ret (true, ev)
  else
    let* height := get_latest_xclock_height in
    (if get_clock b =? 0 then update_cert p (fun c => set_clock c height) else ret tt) ;;;
    if height =? 0 then ret (true, ev)
    else
      let* clock := st_get m_latest_clock_cert in
      let* k := nonnull clock in
      update_cert p (fun c => set_nonce c (verifiable_nonce b k)) ;;;
      ret (false, with_clock_cert clock ev).

Definition pm_on_proposal_start (ev : xpmevent) : PP (bool * xpmevent) :=
  update_clock_block (pe_clock ev) ;;;
  update_vblock_block (pe_cert ev) ;;;
  update_vblock_block (pe_commit ev) ;;;
  match pe_proposal ev with
  | None => ret (false, ev)
  | Some p => pm_start_proposal ev p
  end.

(** ** The other events; [true]: the event stops here. *)

Definition pm_on_clock_fire (block : option ptr) : PP bool :=
  update_clock_block block ;;; ret false.
(** "try all of them, and pick highest one" *)
Definition update_from (ev : xpmevent) : PP unit :=
  update_vblock_block (pe_cert ev) ;;;
  update_vblock_block (pe_lock ev) ;;;
  update_vblock_block (pe_commit ev) ;;;
  ret tt.
Definition pm_on_proposal_finish (ev : xpmevent) : PP bool :=
  (if pe_error ev =? enum_xconsensus_code_successful then update_vblock_block (pe_target ev) ;;; ret tt else ret tt) ;;;
  update_from ev ;;;
  ret false.
Definition pm_on_replicate_finish (ev : xpmevent) : PP bool :=
  (if pe_error ev =? enum_xconsensus_code_successful then update_vblock_block (pe_target ev) ;;; ret tt else ret tt) ;;;
  ret false.
Definition pm_on_certificate_finish (cert : option xvqcert) : PP bool :=
  update_vblock_cert cert ;;; ret true.
Definition pm_on_consensus_commit (ev : xpmevent) : PP bool :=
  update_from ev ;;; ret false.
Definition pm_on_consensus_update (ev : xpmevent) : PP bool :=
  update_clock_block (pe_clock ev) ;;; update_from ev ;;; ret false.
Definition pm_on_join_parent_node : PP bool :=
  let* account := st_get pm_account in init_vblock account ;;; ret true.
End Pacemaker.
