(* ===== verification/PacemakerSteps.v ===== *)
(** * Facts about the pacemaker

    Its invariant, what every operation moves forward, and its executions. *)

From stdpp Require Import prelude gmap strings.
From Stdlib Require Import ZArith Lia.
From S2P Require Import Prelude Stream StdMap VBlock Pdu Concrete Proposal BFTState Pacemaker.

(** The views announced to the driver, and those whose announcement is posted. *)
Definition out_views (o : pm_out) : list Z := match o with OutViewDown _ v _ => [v] | _ => [] end.
Definition pm_call_views (k : pm_call) : list Z := match k with KFireView _ v _ => [v] | _ => [] end.
Definition announced (s : pstate) : list Z := (cs_out s ≫= out_views) ++ (pm_calls (cs_st s) ≫= pm_call_views).

(** A certificate whose signatures were verified for [account], whatever its
    flags are. *)
Definition genuine `{XCertAuth} (account : string) (c : xvqcert) : Prop :=
  exists f, verify_muti_sign_cert (with_cert_flags c f) account = true.

Definition pm_call_ok `{XCertAuth} (account : string) (k : pm_call) : Prop :=
  match k with
  | KFireView _ _ _ => True
  | KAfterVerifyPdu ev =>
      (forall c, ev_xclock_cert ev = Some c -> cert_flagged c = true -> genuine xclock_account c) /\
      (forall c, ev_vblock_cert ev = Some c -> cert_flagged c = true -> genuine account c)
  end.

(** A vote handed to the driver after its certificates were verified is for
    the view it is stamped with. *)
Definition out_ok (o : pm_out) : Prop :=
  match o with
  | OutPduDown ev => pdu_msg_type (ev_packet ev) = msg_type_vote -> pdu_viewid (ev_packet ev) = ev_cookie ev
  | _ => True
  end.

Record pm_inv `{XCertAuth} (s : pstate) : Prop := {
  pv_store : forall a p, pm_store (cs_st s) a = Some p -> allocated s p;
  pv_prev : forall p b q, block_at p s = Some b -> b_prev b = Some q -> allocated s q;
  pv_nodup : NoDup (announced s);
  pv_le : Forall (fun v => v <= m_latest_view_id (cs_st s)) (announced s);
  pv_view : forall vb ck, m_latest_vblock_cert (cs_st s) = Some vb -> m_latest_clock_cert (cs_st s) = Some ck ->
    view_from vb ck <= m_latest_view_id (cs_st s);
  pv_calls : Forall (pm_call_ok (pm_account (cs_st s))) (pm_calls (cs_st s));
  pv_out : Forall out_ok (cs_out s);
}.

Definition clock_fwd (o o' : option xvqcert) : Prop :=
  forall c, o = Some c -> exists c', o' = Some c' /\
    (c' = c \/ (c_clock c < c_clock c' /\ c_viewid c < c_viewid c')).
Definition vblock_fwd (o o' : option xvqcert) : Prop :=
  forall c, o = Some c -> exists c', o' = Some c' /\ (c' = c \/ c_viewid c < c_viewid c').

#[export] Instance clock_fwd_preorder : PreOrder clock_fwd.
Proof.
  split; [intros o c ->; eauto|]. intros o1 o2 o3 H1 H2 c Hc. destruct (H1 c Hc) as (c1 & Hc1 & L1).
  destruct (H2 c1 Hc1) as (c2 & Hc2 & L2). exists c2. split; [done|].
  destruct L1 as [->|[]], L2 as [->|[]]; auto; right; lia.
Qed.
#[export] Instance vblock_fwd_preorder : PreOrder vblock_fwd.
Proof.
  split; [intros o c ->; eauto|]. intros o1 o2 o3 H1 H2 c Hc. destruct (H1 c Hc) as (c1 & Hc1 & L1).
  destruct (H2 c1 Hc1) as (c2 & Hc2 & L2). exists c2. split; [done|].
  destruct L1 as [->|], L2 as [->|]; auto; right; lia.
Qed.

Record pm_fwd (s s' : pstate) : Prop := {
  pf_view : m_latest_view_id (cs_st s) <= m_latest_view_id (cs_st s');
  pf_clock : clock_fwd (m_latest_clock_cert (cs_st s)) (m_latest_clock_cert (cs_st s'));
  pf_vblock : vblock_fwd (m_latest_vblock_cert (cs_st s)) (m_latest_vblock_cert (cs_st s'));
  pf_alloc : forall p, allocated s p -> allocated s' p;
  pf_account : pm_account (cs_st s') = pm_account (cs_st s);
  pf_out : cs_out s `prefix_of` cs_out s';
}.
#[export] Instance pm_fwd_preorder : PreOrder pm_fwd.
Proof.
  split; [done|]. intros s1 s2 s3 [] []. split; [lia|by etrans|by etrans|auto|congruence|by etrans].
Qed.

(** ** Changing certificates and recomputing the view *)

(** [update_view] as a function. *)
Definition view_step (c : xclockcert_view) : xclockcert_view :=
  match m_latest_vblock_cert c, m_latest_clock_cert c with
  | Some vb, Some ck =>
      if m_latest_view_id c <? view_from vb ck
      then set_pm_calls (pm_calls c ++ [KFireView (pm_account c) (view_from vb ck) (c_clock ck)]) (set_pm_view (view_from vb ck) c)
      else c
  | _, _ => c
  end.
Lemma update_view_runs s : exists r, update_view s = Some (r, upd_st view_step s).
Proof.
  unfold update_view, view_step, bind, st_get, gets, upd_st. cbn.
  destruct s as [w c out self par]; cbn. destruct (m_latest_vblock_cert c); [|by eexists].
  destruct (m_latest_clock_cert c); [|by eexists]. destruct (_ <? _); by eexists.
Qed.

(** The same layer with newer certificates. *)
Record certs_fwd (c c' : xclockcert_view) : Prop := {
  cw_view : m_latest_view_id c' = m_latest_view_id c;
  cw_clock : clock_fwd (m_latest_clock_cert c) (m_latest_clock_cert c');
  cw_vblock : vblock_fwd (m_latest_vblock_cert c) (m_latest_vblock_cert c');
  cw_account : pm_account c' = pm_account c;
  cw_store : pm_store c' = pm_store c;
  cw_calls : pm_calls c' = pm_calls c;
}.

(** What a change of certificates does, the view included. *)
Record adopts (s s' : pstate) : Prop := {
  ad_world : cs_world s' = cs_world s;
  ad_out : cs_out s' = cs_out s;
  ad_child : pm_child (cs_st s') = pm_child (cs_st s);
  ad_parent : cs_parent s' = cs_parent s;
  ad_store : pm_store (cs_st s') = pm_store (cs_st s);
  ad_jobs : pm_jobs (cs_st s') = pm_jobs (cs_st s);
}.
#[export] Instance adopts_preorder : PreOrder adopts.
Proof. split; [done|]. intros ? ? ? [] []. split; congruence. Qed.

Section Facts.
Context `{HCt : XVCert} `{HB : XVBlock} `{HA : XCertAuth}.

Lemma view_step_cases c :
  (view_step c = c /\ forall vb ck, m_latest_vblock_cert c = Some vb -> m_latest_clock_cert c = Some ck ->
     view_from vb ck <= m_latest_view_id c) \/
  (exists vb ck, m_latest_vblock_cert c = Some vb /\ m_latest_clock_cert c = Some ck /\
     m_latest_view_id c < view_from vb ck /\
     view_step c = set_pm_calls (pm_calls c ++ [KFireView (pm_account c) (view_from vb ck) (c_clock ck)])
                     (set_pm_view (view_from vb ck) c)).
Proof.
  unfold view_step. destruct (m_latest_vblock_cert c) as [vb|]; [|by left].
  destruct (m_latest_clock_cert c) as [ck|]; [|by left].
  destruct (Z.ltb_spec (m_latest_view_id c) (view_from vb ck)); [right; eauto 10|left].
  split; [done|]. by intros ? ? [= <-] [= <-].
Qed.

Definition pm_put (c : xclockcert_view) (s : pstate) : pstate := upd_st (fun _ => c) s.

Lemma view_step_ok c s :
  pm_inv s -> certs_fwd (cs_st s) c -> pm_inv (pm_put (view_step c) s) /\ pm_fwd s (pm_put (view_step c) s).
Proof.
  intros Hi [Ev Hck Hvb Ea Es Ec]. pose proof (pv_nodup _ Hi) as Hnd. pose proof (pv_le _ Hi) as Hle.
  destruct (view_step_cases c) as [[-> Hv]|(vb & ck & Evb & Eck & Hlt & ->)].
  - split; split; unfold announced in *; cbn; rewrite ?Ev, ?Ea, ?Es, ?Ec in *; try done; apply Hi.
  - assert (Hall : Forall (fun v => v < view_from vb ck) (announced s)).
    { eapply Forall_impl; [exact Hle|]. cbn. lia. }
    assert (Ean : announced (pm_put (set_pm_calls (pm_calls c ++ [KFireView (pm_account c) (view_from vb ck) (c_clock ck)])
                    (set_pm_view (view_from vb ck) c)) s) = announced s ++ [view_from vb ck]).
    { unfold announced. cbn. by rewrite Ec, bind_app, app_assoc. }
    split; split; rewrite ?Ean; cbn; rewrite ?Ea, ?Es, ?Ec; try done; try apply Hi.
    + apply NoDup_app. split_and!; [done| |apply NoDup_singleton]. intros v Hv ->%list_elem_of_singleton.
      rewrite Forall_forall in Hall. specialize (Hall _ Hv). lia.
    + apply Forall_app. split; [|by constructor]. eapply Forall_impl; [exact Hall|]. cbn. lia.
    + rewrite Evb, Eck. by intros ? ? [= <-] [= <-].
    + apply Forall_app. split; [apply Hi|by constructor].
    + lia.
Qed.

Lemma view_step_certs c :
  m_latest_clock_cert (view_step c) = m_latest_clock_cert c /\ m_latest_vblock_cert (view_step c) = m_latest_vblock_cert c /\
  pm_child (view_step c) = pm_child c /\ pm_store (view_step c) = pm_store c /\ pm_jobs (view_step c) = pm_jobs c.
Proof. by destruct (view_step_cases c) as [[-> _]|(vb & ck & _ & _ & _ & ->)]. Qed.

(** ** The operations *)

Abbreviation PSafe := (Keeps (u := False) pm_inv pm_fwd).

(** What an operation on certificates does beside the certificates. *)
Lemma PSafe_adopt {A} (m : PP A) a c s (Q : A -> pstate -> Prop) :
  pm_inv s -> certs_fwd (cs_st s) c -> pm_child c = pm_child (cs_st s) -> pm_jobs c = pm_jobs (cs_st s) ->
  m s = Some (a, pm_put (view_step c) s) ->
  (adopts s (pm_put (view_step c) s) -> Q a (pm_put (view_step c) s)) -> PSafe m s Q.
Proof.
  intros Hi Hc Ech Ej E HQ. destruct (view_step_ok c s Hi Hc) as [Hi' Hf'].
  eapply Keeps_step; [exact E|done..|]. apply HQ. destruct (view_step_certs c) as (_ & _ & E1 & E2 & E3).
  split; try done; cbn; [congruence|rewrite E2; apply Hc|congruence].
Qed.

Lemma update_view_put (c : xclockcert_view) s : exists r, update_view (pm_put c s) = Some (r, pm_put (view_step c) s).
Proof. destruct (update_view_runs (pm_put c s)) as [r E]. exists r. by rewrite E. Qed.

(** *** A clock certificate *)

Definition newer_clock (o : option xvqcert) (c : xvqcert) : bool :=
  match o with Some k => negb ((c_clock c <=? c_clock k) || (c_viewid c <=? c_viewid k)) | None => true end.
Definition newer_vblock (o : option xvqcert) (c : xvqcert) : bool :=
  match o with Some k => negb (c_viewid c <=? c_viewid k) | None => true end.

Lemma newer_clock_fwd o c : newer_clock o c = true -> clock_fwd o (Some c).
Proof.
  intros Hn k ->. exists c. split; [done|]. right. unfold newer_clock in Hn. guards. done.
Qed.
Lemma newer_vblock_fwd o c : newer_vblock o c = true -> vblock_fwd o (Some c).
Proof.
  intros Hn k ->. exists c. split; [done|]. right. unfold newer_vblock in Hn. guards. done.
Qed.

Lemma set_clock_fwd k c : newer_clock (m_latest_clock_cert c) k = true -> certs_fwd c (set_pm_clock k c).
Proof. intros Hn. split; try done. by apply newer_clock_fwd. Qed.
Lemma set_vblock_fwd k c : newer_vblock (m_latest_vblock_cert c) k = true -> certs_fwd c (set_pm_vblock k c).
Proof. intros Hn. split; try done. by apply newer_vblock_fwd. Qed.

(** [update_clock_cert] takes exactly a newer, deliverable certificate. *)
Definition takes_clock (s : pstate) (o : option xvqcert) : bool :=
  match o with Some c => newer_clock (m_latest_clock_cert (cs_st s)) c && cert_is_deliver c | None => false end.
Definition takes_vblock (s : pstate) (o : option xvqcert) : bool :=
  match o with Some c => newer_vblock (m_latest_vblock_cert (cs_st s)) c && cert_is_deliver c | None => false end.

Lemma check_clock_reads o s : reads (safe_check_clock_cert o) (takes_clock s o) s.
Proof.
  unfold reads, safe_check_clock_cert, takes_clock, newer_clock, bind, st_get, gets. destruct o as [c|]; [|done].
  cbn. destruct (m_latest_clock_cert (cs_st s)) as [k|]; [|done]. by destruct (_ || _).
Qed.
Lemma check_vblock_reads o s : reads (safe_check_vblock_cert o) (takes_vblock s o) s.
Proof.
  unfold reads, safe_check_vblock_cert, takes_vblock, newer_vblock, bind, st_get, gets. destruct o as [c|]; [|done].
  cbn. destruct (m_latest_vblock_cert (cs_st s)) as [k|]; [|done]. by destruct (_ <=? _).
Qed.

Lemma PSafe_update_clock_cert o s :
  pm_inv s ->
  PSafe (update_clock_cert o) s (fun r s' => r = takes_clock s o /\ adopts s s' /\
    m_latest_clock_cert (cs_st s') = (if r then o else m_latest_clock_cert (cs_st s)) /\
    m_latest_vblock_cert (cs_st s') = m_latest_vblock_cert (cs_st s) /\ (r = false -> s' = s)).
Proof.
  intros Hi. unfold update_clock_cert. eapply Keeps_read_bind; [apply check_clock_reads|].
  destruct (takes_clock s o) eqn:Et; [|by apply Keeps_ret; try apply _].
  destruct o as [k|]; [|done]. cbn in Et. apply andb_true_iff in Et as [Hn _].
  destruct (update_view_put (set_pm_clock k (cs_st s)) s) as [r E].
  eapply (PSafe_adopt _ true (set_pm_clock k (cs_st s))); [done|by apply set_clock_fwd|done|done| |].
  - rewrite (bind_runs _ _ k s s) by done.
    rewrite (bind_runs _ _ tt s (pm_put (set_pm_clock k (cs_st s)) s)) by done. by rewrite (bind_runs _ _ _ _ _ E).
  - intros Ha. destruct (view_step_certs (set_pm_clock k (cs_st s))) as (Ec & Ev & _). split_and!; try done.
Qed.
Lemma PSafe_update_vblock_cert o s :
  pm_inv s ->
  PSafe (update_vblock_cert o) s (fun r s' => r = takes_vblock s o /\ adopts s s' /\
    m_latest_vblock_cert (cs_st s') = (if r then o else m_latest_vblock_cert (cs_st s)) /\
    m_latest_clock_cert (cs_st s') = m_latest_clock_cert (cs_st s) /\ (r = false -> s' = s)).
Proof.
  intros Hi. unfold update_vblock_cert. eapply Keeps_read_bind; [apply check_vblock_reads|].
  destruct (takes_vblock s o) eqn:Et; [|by apply Keeps_ret; try apply _].
  destruct o as [k|]; [|done]. cbn in Et. apply andb_true_iff in Et as [Hn _].
  destruct (update_view_put (set_pm_vblock k (cs_st s)) s) as [r E].
  eapply (PSafe_adopt _ true (set_pm_vblock k (cs_st s))); [done|by apply set_vblock_fwd|done|done| |].
  - rewrite (bind_runs _ _ k s s) by done.
    rewrite (bind_runs _ _ tt s (pm_put (set_pm_vblock k (cs_st s)) s)) by done. by rewrite (bind_runs _ _ _ _ _ E).
  - intros Ha. destruct (view_step_certs (set_pm_vblock k (cs_st s))) as (Ec & Ev & _). split_and!; try done.
Qed.

(** *** The certificate the block store knows *)

Definition init_certs (account : string) (s : pstate) : xclockcert_view :=
  match m_latest_vblock_cert (cs_st s) with
  | Some _ => cs_st s
  | None =>
      match pm_store (cs_st s) account ≫= fun p => block_at p s with
      | Some b => if is_deliver b false then set_pm_vblock (b_cert b) (cs_st s) else cs_st s
      | None => cs_st s
      end
  end.
Definition pm_init (account : string) (s : pstate) : pstate := pm_put (view_step (init_certs account s)) s.

Lemma init_certs_fwd account s : certs_fwd (cs_st s) (init_certs account s) /\
  pm_child (init_certs account s) = pm_child (cs_st s) /\ pm_jobs (init_certs account s) = pm_jobs (cs_st s) /\
  m_latest_clock_cert (init_certs account s) = m_latest_clock_cert (cs_st s).
Proof.
  unfold init_certs. destruct (m_latest_vblock_cert (cs_st s)) eqn:E; [done|]. destruct (_ ≫= _); [|done].
  destruct (is_deliver _ _); [|done]. split_and!; try done. apply set_vblock_fwd. by rewrite E.
Qed.

Lemma view_step_settled s : pm_inv s -> view_step (cs_st s) = cs_st s.
Proof.
  intros Hi. destruct (view_step_cases (cs_st s)) as [[-> _]|(vb & ck & Evb & Eck & Hlt & _)]; [done|].
  pose proof (pv_view _ Hi vb ck Evb Eck). lia.
Qed.

Lemma pm_put_same s : pm_put (cs_st s) s = s.
Proof. by destruct s. Qed.

Lemma init_vblock_runs account s : pm_inv s -> init_vblock account s = Some (true, pm_init account s).
Proof.
  intros Hi. unfold init_vblock, pm_init. rewrite (bind_runs _ _ _ s s eq_refl), (bind_runs _ _ _ s s eq_refl).
  assert (Htail : forall c, (update_view ;;; ret true) (pm_put c s) = Some (true, pm_put (view_step c) s)).
  { intros c. destruct (update_view_put c s) as [r E]. by rewrite (bind_runs _ _ _ _ _ E). }
  unfold init_certs. destruct (m_latest_vblock_cert (cs_st s)) as [vb|] eqn:Ev.
  { destruct (m_latest_clock_cert (cs_st s)); [by rewrite view_step_settled, pm_put_same by done|].
    rewrite (bind_runs _ _ tt s s) by done. rewrite <- (pm_put_same s) at 1. apply Htail. }
  assert (Hin : (let* answers := st_get pm_store in
                 match answers account with
                 | None => ret tt
                 | Some p => let* b := deref p in
                     if is_deliver b false then st_mod (set_pm_vblock (b_cert b)) else ret tt
                 end) s = Some (tt, pm_put (init_certs account s) s)).
  { rewrite (bind_runs _ _ _ s s eq_refl). unfold init_certs. rewrite Ev. destruct (pm_store (cs_st s) account) as [p|] eqn:Ep.
    - destruct (pv_store _ Hi _ _ Ep) as [b Hb]. cbn. rewrite Hb. unfold bind, deref. rewrite Hb.
      destruct (is_deliver b false); [done|]. by rewrite pm_put_same.
    - cbn. by rewrite pm_put_same. }
  unfold init_certs in Hin. rewrite Ev in Hin.
  destruct (m_latest_clock_cert (cs_st s)); rewrite (bind_runs _ _ _ _ _ Hin); apply Htail.
Qed.

Lemma PSafe_init_vblock account s :
  pm_inv s -> PSafe (init_vblock account) s (fun r s' => s' = pm_init account s /\ adopts s s' /\
    m_latest_clock_cert (cs_st s') = m_latest_clock_cert (cs_st s)).
Proof.
  intros Hi. destruct (init_certs_fwd account s) as (Hf & Ech & Ej & Eck).
  eapply PSafe_adopt; [done|exact Hf|done|done|by apply init_vblock_runs|]. intros Ha. split_and!; try done.
  destruct (view_step_certs (init_certs account s)) as (Ec & _). by cbn; rewrite Ec.
Qed.

(** Initialising again changes nothing. *)
Lemma pm_init_idem account s : pm_inv s -> pm_init account (pm_init account s) = pm_init account s.
Proof.
  intros Hi. destruct (init_certs_fwd account s) as (Hf & _).
  destruct (view_step_ok _ s Hi Hf) as [Hi1 _]. fold (pm_init account s) in Hi1.
  assert (E : init_certs account (pm_init account s) = cs_st (pm_init account s)).
  { unfold init_certs at 1. destruct (m_latest_vblock_cert (cs_st (pm_init account s))) eqn:Ev; [done|].
    destruct (view_step_certs (init_certs account s)) as (_ & E1 & _ & E2 & _).
    cbn in Ev. rewrite E1 in Ev. cbn. rewrite E2, (cw_store _ _ Hf).
    unfold init_certs in Ev |- *. destruct (m_latest_vblock_cert (cs_st s)) eqn:E0; [congruence|].
    change (fun p => block_at p (pm_init account s)) with (fun p => block_at p s).
    destruct (pm_store (cs_st s) account ≫= fun p => block_at p s) as [b|]; [|done]. by destruct (is_deliver b false). }
  unfold pm_init at 1. rewrite E, view_step_settled by done. apply pm_put_same.
Qed.

Lemma PSafe_get_latest_viewid account s :
  pm_inv s -> PSafe (get_latest_viewid account) s (fun v s' =>
    v = m_latest_view_id (cs_st s') /\ (s' = s \/ s' = pm_init account s) /\ adopts s s' /\
    m_latest_clock_cert (cs_st s') = m_latest_clock_cert (cs_st s) /\ get_latest_viewid account s' = Some (v, s')).
Proof.
  intros Hi. unfold get_latest_viewid at 1. eapply Keeps_read_bind; [done|].
  destruct (Z.eqb_spec (m_latest_view_id (cs_st s)) 0) as [E0|E0].
  - eapply (Keeps_bind _ _ _ _ _ (fun _ s' => s' = pm_init account s /\ adopts s s' /\
              m_latest_clock_cert (cs_st s') = m_latest_clock_cert (cs_st s))).
    { eapply Keeps_bind; [apply _|by apply PSafe_init_vblock|]. intros r s1 Hi1 _ (-> & ?). by apply Keeps_ret; try apply _. }
    intros [] s1 Hi1 Hf1 (-> & Ha & Ec). eapply Keeps_reads; [apply _|done|done|]. split_and!; try done; [by right|].
    unfold get_latest_viewid. rewrite (bind_runs _ _ _ _ _ eq_refl). destruct (_ =? _); [|done].
    erewrite bind_runs; [reflexivity|]. unfold bind. rewrite (init_vblock_runs account _ Hi1), pm_init_idem by done. done.
  - eapply Keeps_read_bind; [done|]. eapply Keeps_reads; [apply _|done|done|]. split_and!; try done; [by left|].
    unfold get_latest_viewid. rewrite (bind_runs _ _ _ _ _ eq_refl).
    by rewrite (proj2 (Z.eqb_neq _ _) E0).
Qed.

(** *** Blocks of events *)

Definition pm_ok {A} (m : PP A) (s : pstate) : Prop := PSafe m s (fun _ s' => adopts s s').

Lemma pm_ok_bind {A B} (m : PP A) (k : A -> PP B) s :
  pm_ok m s -> (forall a s1, pm_inv s1 -> pm_fwd s s1 -> pm_ok (k a) s1) -> pm_ok (bind m k) s.
Proof.
  intros Hm Hk. eapply Keeps_bind; [apply _|exact Hm|]. intros a s1 Hi1 Hf1 Ha.
  eapply Keeps_mono; [by apply Hk|]. intros b s2 _ _ Ha2. exact (transitivity Ha Ha2).
Qed.
Lemma pm_ok_ret {A} (a : A) s : pm_inv s -> pm_ok (ret a) s.
Proof. intros Hi. by apply Keeps_ret; try apply _. Qed.

Lemma pm_ok_clock_cert o s : pm_inv s -> pm_ok (update_clock_cert o) s.
Proof. intros Hi. eapply Keeps_mono; [by apply PSafe_update_clock_cert|]. by intros r s' _ _ (_ & ? & _). Qed.
Lemma pm_ok_vblock_cert o s : pm_inv s -> pm_ok (update_vblock_cert o) s.
Proof. intros Hi. eapply Keeps_mono; [by apply PSafe_update_vblock_cert|]. by intros r s' _ _ (_ & ? & _). Qed.
Lemma pm_ok_init account s : pm_inv s -> pm_ok (init_vblock account) s.
Proof. intros Hi. eapply Keeps_mono; [by apply PSafe_init_vblock|]. by intros r s' _ _ (_ & ? & _). Qed.

Definition valid_ptr (s : pstate) (o : option ptr) : Prop := forall p, o = Some p -> allocated s p.

Lemma pm_deref p b (s : pstate) : block_at p s = Some b -> reads (deref p) b s.
Proof. unfold reads, deref. by intros ->. Qed.

Lemma pm_ok_clock_block o s : pm_inv s -> valid_ptr s o -> pm_ok (update_clock_block o) s.
Proof.
  intros Hi Ho. unfold update_clock_block. destruct o as [p|]; [|by apply pm_ok_ret].
  destruct (Ho p eq_refl) as [b Hb]. eapply Keeps_read_bind; [by apply pm_deref|]. eapply Keeps_read_bind; [done|].
  repeat match goal with |- Keeps _ _ (if ?b then _ else _) _ _ => destruct b; [by apply pm_ok_ret|] end.
  by apply pm_ok_clock_cert.
Qed.
Lemma pm_ok_vblock_block o s : pm_inv s -> valid_ptr s o -> pm_ok (update_vblock_block o) s.
Proof.
  intros Hi Ho. unfold update_vblock_block. destruct o as [p|]; [|by apply pm_ok_ret].
  destruct (Ho p eq_refl) as [b Hb]. eapply Keeps_read_bind; [by apply pm_deref|].
  apply pm_ok_bind; [by apply pm_ok_init|]. intros r s1 Hi1 _. eapply Keeps_read_bind; [done|].
  repeat match goal with |- Keeps _ _ (if ?b then _ else _) _ _ => destruct b; [by apply pm_ok_ret|] end.
  by apply pm_ok_vblock_cert.
Qed.

Lemma valid_fwd s s' o : pm_fwd s s' -> valid_ptr s o -> valid_ptr s' o.
Proof. intros Hf Ho p E. by apply (pf_alloc _ _ Hf), Ho. Qed.

(** The pointers of an event. *)
Definition pe_ok (s : pstate) (ev : xpmevent) : Prop :=
  Forall (valid_ptr s) [pe_target ev; pe_commit ev; pe_lock ev; pe_cert ev; pe_clock ev; pe_proposal ev].
Lemma pe_fwd s s' ev : pm_fwd s s' -> pe_ok s ev -> pe_ok s' ev.
Proof. intros Hf Hev. eapply Forall_impl; [exact Hev|]. intros o. by apply valid_fwd. Qed.
Lemma pe_valid s ev : pe_ok s ev ->
  valid_ptr s (pe_target ev) /\ valid_ptr s (pe_commit ev) /\ valid_ptr s (pe_lock ev) /\ valid_ptr s (pe_cert ev) /\
  valid_ptr s (pe_clock ev) /\ valid_ptr s (pe_proposal ev).
Proof. unfold pe_ok. rewrite !Forall_cons. tauto. Qed.

(** Run an update of the certificates, then go on. *)
Lemma pm_ok_then {A} (m : PP bool) (k : PP A) s :
  pm_ok m s -> (forall s1, pm_inv s1 -> pm_fwd s s1 -> pm_ok k s1) -> pm_ok (m ;;; k) s.
Proof. intros Hm Hk. apply pm_ok_bind; [done|]. intros _ s1 Hi1 Hf1. by apply Hk. Qed.

Lemma pm_ok_update_from ev s : pm_inv s -> pe_ok s ev -> pm_ok (update_from ev) s.
Proof.
  intros Hi Hev. unfold update_from.
  apply pm_ok_then; [apply pm_ok_vblock_block; [done|apply (pe_valid s ev Hev)]|]. intros s1 Hi1 Hf1.
  apply pm_ok_then; [apply pm_ok_vblock_block; [done|by apply (pe_valid s1 ev), (pe_fwd s)]|]. intros s2 Hi2 Hf2.
  apply pm_ok_then; [apply pm_ok_vblock_block; [done|by apply (pe_valid s2 ev), (pe_fwd s1), (pe_fwd s)]|].
  intros s3 Hi3 _. by apply pm_ok_ret.
Qed.

Lemma pm_ok_guarded (b : bool) o s :
  pm_inv s -> valid_ptr s o -> pm_ok (if b then update_vblock_block o ;;; ret tt else ret tt) s.
Proof.
  intros Hi Ho. destruct b; [|by apply pm_ok_ret]. apply pm_ok_then; [by apply pm_ok_vblock_block|].
  intros s1 Hi1 _. by apply pm_ok_ret.
Qed.

Lemma pm_ok_certified ev s : pm_inv s -> pe_ok s ev ->
  pm_ok (pm_on_proposal_finish ev) s /\ pm_ok (pm_on_replicate_finish ev) s /\ pm_ok (pm_on_consensus_commit ev) s /\
  pm_ok (pm_on_consensus_update ev) s.
Proof.
  intros Hi Hev. pose proof (pe_valid s ev Hev) as (Ht & _ & _ & _ & Hk & _). split_and!.
  - apply pm_ok_bind; [by apply pm_ok_guarded|]. intros _ s1 Hi1 Hf1.
    apply pm_ok_bind; [apply pm_ok_update_from; [done|by eapply pe_fwd]|]. intros _ s2 Hi2 _. by apply pm_ok_ret.
  - apply pm_ok_bind; [by apply pm_ok_guarded|]. intros _ s1 Hi1 _. by apply pm_ok_ret.
  - apply pm_ok_bind; [by apply pm_ok_update_from|]. intros _ s1 Hi1 _. by apply pm_ok_ret.
  - apply pm_ok_then; [by apply pm_ok_clock_block|]. intros s1 Hi1 Hf1.
    apply pm_ok_bind; [apply pm_ok_update_from; [done|by eapply pe_fwd]|]. intros _ s2 Hi2 _. by apply pm_ok_ret.
Qed.

(** *** The leader's proposal *)

Lemma PSafe_update_cert p b f s :
  pm_inv s -> block_at p s = Some b ->
  PSafe (update_cert p f) s (fun _ s' => cs_st s' = cs_st s /\ block_at p s' = Some (with_cert b (f (b_cert b)))).
Proof.
  intros Hi Hb. set (s' := upd_world (fun w => with_blocks w (<[p := with_cert b (f (b_cert b))]> (w_blocks w))) s).
  assert (Hb' : forall q, block_at q s' = if decide (p = q) then Some (with_cert b (f (b_cert b))) else block_at q s).
  { intros q. unfold block_at. cbn. destruct (decide (p = q)) as [<-|?]; [by rewrite lookup_insert_eq|by rewrite lookup_insert_ne]. }
  assert (Hal : forall q, allocated s q -> allocated s' q).
  { intros q Hq. unfold allocated. rewrite Hb'. destruct (decide _); [by eexists|done]. }
  apply (Keeps_step _ _ _ _ tt s').
  - unfold update_cert, update_block. by rewrite (bind_runs _ _ _ _ _ (pm_deref _ _ _ Hb)).
  - split; try apply Hi.
    + intros a q Hq. by eapply Hal, (pv_store _ Hi).
    + intros q c r. rewrite Hb'. destruct (decide _) as [<-|_].
      * intros [= <-] Hr. by eapply Hal, (pv_prev _ Hi p b).
      * intros Hc Hr. by eapply Hal, (pv_prev _ Hi q c).
  - done.
  - split; [done|]. rewrite Hb'. by rewrite decide_True.
Qed.

(** The setters change the field they name. *)
Class XVCertSetLaws : Prop := {
  set_nonce_nonce : forall c v, c_nonce (set_nonce c v) = v;
  set_nonce_viewid : forall c v, c_viewid (set_nonce c v) = c_viewid c;
  set_clock_viewid : forall c v, c_viewid (set_clock c v) = c_viewid c;
}.
Context `{HHash : XHash64} `{HUp : XUpperVerifier} `{HSet : !XVCertSetLaws}.

(** What a proposal that starts looks like: of this view, bound to the clock
    certificate the driver gets, and accepted by the nonce check with it. *)
Record started (s' : pstate) (ev' : xpmevent) (p : ptr) (b b' : xvblock) : Prop := {
  st_block : block_at p s' = Some b';
  st_header : b_header b' = b_header b;
  st_view : get_viewid b' = m_latest_view_id (cs_st s');
  st_clock : exists k, pe_clock_cert ev' = Some k /\ m_latest_clock_cert (cs_st s') = Some k /\ c_clock k <> 0 /\
    c_nonce (b_cert b') = verifiable_nonce b' k;
}.

Lemma PSafe_pm_start_proposal ev p b s :
  pm_inv s -> block_at p s = Some b ->
  PSafe (pm_start_proposal ev p) s (fun r s' => r.1 = false -> exists b', started s' r.2 p b b').
Proof.
  intros Hi Hb. unfold pm_start_proposal. eapply Keeps_read_bind; [by apply pm_deref|].
  eapply (Keeps_bind _ _ _ _ _ (fun _ s1 => adopts s s1)).
  { destruct (b_prev b) as [q|] eqn:Eq; [|by apply pm_ok_ret]. apply pm_ok_then.
    - apply pm_ok_vblock_block; [done|]. intros ? [= <-]. by eapply (pv_prev _ Hi).
    - intros s1 Hi1 _. by apply pm_ok_ret. }
  intros [] s1 Hi1 _ Ha1. assert (Hb1 : block_at p s1 = Some b) by (unfold block_at; by rewrite (ad_world _ _ Ha1)).
  eapply Keeps_bind; [apply _|by apply PSafe_get_latest_viewid|]. intros v s2 Hi2 _ (-> & _ & Ha2 & _ & _).
  assert (Hb2 : block_at p s2 = Some b) by (unfold block_at; by rewrite (ad_world _ _ Ha2)).
  destruct (Z.eqb_spec (get_viewid b) (m_latest_view_id (cs_st s2))) as [Ev|_]; cbn [negb].
  2: { eapply Keeps_bind; [apply _|by apply PSafe_update_cert|]. intros _ s3 Hi3 _ _. by apply Keeps_ret; try apply _. }
  eapply Keeps_read_bind; [done|].
  set (height := match m_latest_clock_cert (cs_st s2) with None => 0 | Some c => c_clock c end).
  eapply (Keeps_bind _ _ _ _ _ (fun _ s3 => cs_st s3 = cs_st s2 /\
            exists c3, block_at p s3 = Some (with_cert b c3) /\ c_viewid c3 = c_viewid (b_cert b))).
  { destruct (get_clock b =? 0).
    - eapply Keeps_mono; [by apply PSafe_update_cert|]. intros [] s3 _ _ [E1 E2]. split; [done|]. eexists.
      split; [exact E2|]. apply set_clock_viewid.
    - apply Keeps_ret; [apply _|done|]. split; [done|]. exists (b_cert b). by destruct b. }
  intros [] s3 Hi3 _ (Est & c3 & Hb3 & Ev3). fold height. destruct (Z.eqb_spec height 0) as [|Hh]; [by apply Keeps_ret; try apply _|].
  eapply Keeps_read_bind; [done|]. unfold height in Hh. rewrite Est. clear height.
  destruct (m_latest_clock_cert (cs_st s2)) as [k|] eqn:Ek; [|done]. eapply Keeps_read_bind; [done|].
  eapply Keeps_bind; [apply _|by apply PSafe_update_cert|]. intros [] s4 Hi4 _ [Est4 Hb4].
  apply Keeps_ret; [apply _|done|]. intros _. eexists. split; [exact Hb4|done|..]; cbn.
  - unfold get_viewid. cbn. rewrite set_nonce_viewid, Ev3, Est4, Est. exact Ev.
  - exists k. split_and!; [done|by rewrite Est4, Est|done|]. by rewrite set_nonce_nonce.
Qed.

Lemma PSafe_on_proposal_start ev s :
  pm_inv s -> pe_ok s ev ->
  PSafe (pm_on_proposal_start ev) s (fun r s' => r.1 = false -> forall p, pe_proposal ev = Some p ->
    exists b b', block_at p s = Some b /\ started s' r.2 p b b').
Proof.
  intros Hi Hev. unfold pm_on_proposal_start. pose proof (pe_valid s ev Hev) as (_ & Hc & _ & Hce & Hck & Hp).
  eapply Keeps_bind; [apply _|by apply pm_ok_clock_block|]. intros r1 s1 Hi1 Hf1 Ha1.
  eapply Keeps_bind; [apply _|apply pm_ok_vblock_block; [done|by eapply valid_fwd]|]. intros r2 s2 Hi2 Hf2 Ha2.
  eapply Keeps_bind; [apply _|apply pm_ok_vblock_block; [done|]|].
  { eapply valid_fwd; [done|]. by eapply valid_fwd. }
  intros r3 s3 Hi3 Hf3 Ha3. destruct (pe_proposal ev) as [p|] eqn:Ep; [|by apply Keeps_ret; try apply _].
  destruct (Hp p eq_refl) as [b Hb].
  assert (Hb3 : block_at p s3 = Some b).
  { unfold block_at in *. by rewrite (ad_world _ _ Ha3), (ad_world _ _ Ha2), (ad_world _ _ Ha1). }
  eapply Keeps_mono; [by apply PSafe_pm_start_proposal|]. intros [stop ev'] s4 _ _ Hst Hs q [= <-].
  destruct (Hst Hs) as [b' Hb']. eauto.
Qed.
End Facts.

(** * The pacemaker in execution: packets, jobs, calls, and its properties *)

Section Packets.
Context `{HCt : XVCert} `{HB : XVBlock} `{HA : XCertAuth} `{HC : XCodec}.

(** What a packet may change at once: nothing but the job list, and the block
    certificate where the node's own store supplies the first one. *)
Record packet_step (account : string) (s s' : pstate) : Prop := {
  ps_clock : m_latest_clock_cert (cs_st s') = m_latest_clock_cert (cs_st s);
  ps_vblock : m_latest_vblock_cert (cs_st s') = m_latest_vblock_cert (cs_st s) \/
    (m_latest_vblock_cert (cs_st s) = None /\ exists b, pm_store (cs_st s) account ≫= (fun p => block_at p s) = Some b /\
       is_deliver b false = true /\ m_latest_vblock_cert (cs_st s') = Some (b_cert b));
  ps_out : cs_out s' = cs_out s;
}.

Lemma pm_init_vblock account s :
  m_latest_vblock_cert (cs_st (pm_init account s)) = m_latest_vblock_cert (cs_st s) \/
  (m_latest_vblock_cert (cs_st s) = None /\ exists b, pm_store (cs_st s) account ≫= (fun p => block_at p s) = Some b /\
     is_deliver b false = true /\ m_latest_vblock_cert (cs_st (pm_init account s)) = Some (b_cert b)).
Proof.
  destruct (view_step_certs (init_certs account s)) as (_ & E & _). cbn. rewrite E. unfold init_certs.
  destruct (m_latest_vblock_cert (cs_st s)) eqn:Ev; [by left|].
  destruct (pm_store (cs_st s) account ≫= _) as [b|] eqn:Eb; [|by left].
  destruct (is_deliver b false) eqn:Ed; [|by left]. right. eauto.
Qed.

(** What a packet that goes on to the driver carries. *)
Record passes (ev ev' : xcspdu_fire) (s' : pstate) : Prop := {
  pa_packet : ev_packet ev' = ev_packet ev;
  pa_cookie : ev_cookie ev' = m_latest_view_id (cs_st s');
  pa_vote : pdu_msg_type (ev_packet ev) = msg_type_vote -> pdu_viewid (ev_packet ev) = m_latest_view_id (cs_st s');
  pa_clock : pdu_msg_type (ev_packet ev) = msg_type_proposal -> is_Some (ev_xclock_cert ev');
}.

Lemma add_job_ok ev s : pm_inv s ->
  let s' := upd_st (fun c => set_pm_jobs (pm_jobs c ++ [ev]) c) s in pm_inv s' /\ pm_fwd s s'.
Proof. intros []. by split; split. Qed.

Lemma PSafe_on_pdu_event_down ev s :
  pm_inv s ->
  Keeps (u := False) pm_inv pm_fwd (pm_on_pdu_event_down ev) s (fun r s' =>
    packet_step (pdu_account (ev_packet ev)) s s' /\ (r.1 = false -> passes ev r.2 s')).
Proof.
  intros Hi. unfold pm_on_pdu_event_down. destruct (is_xip2_equal _ _).
  { apply Keeps_ret; [apply _|done|]. split; [|done]. split; by try left. }
  eapply Keeps_read_bind; [done|].
  eapply Keeps_bind; [apply _|by apply PSafe_get_latest_viewid|]. intros v s1 Hi1 Hf1 (-> & Hs1 & Ha & Eck & Eget).
  assert (Hps : forall s', cs_st s' = cs_st s1 \/ (exists l, cs_st s' = set_pm_jobs l (cs_st s1)) -> cs_out s' = cs_out s1 ->
                 packet_step (pdu_account (ev_packet ev)) s s').
  { intros s' Hst Ho. assert (E : m_latest_clock_cert (cs_st s') = m_latest_clock_cert (cs_st s1) /\
      m_latest_vblock_cert (cs_st s') = m_latest_vblock_cert (cs_st s1)) by (by destruct Hst as [-> |[l ->]]).
    destruct E as [E1 E2]. split; [congruence| |rewrite Ho; apply Ha]. rewrite E2.
    destruct Hs1 as [-> | ->]; [by left|apply pm_init_vblock]. }
  set (ev2 := with_fire_xclock _ _). destruct (_ && _) eqn:Eprop.
  { apply Keeps_ret; [apply _|done|]. split; [by apply Hps; [left|]|done]. }
  assert (Hclk : pdu_msg_type (ev_packet ev) = msg_type_proposal -> is_Some (ev_xclock_cert ev2)).
  { intros E. rewrite E in Eprop. cbn in Eprop. by apply negb_false_iff, bool_decide_eq_true in Eprop. }
  eapply Keeps_read_bind; [exact Eget|]. destruct (Z.eqb_spec (pdu_viewid (ev_packet ev)) (m_latest_view_id (cs_st s1))) as [Ev|Ev].
  { apply Keeps_ret; [apply _|done|]. split; [by apply Hps; [left|]|done]. }
  eapply Keeps_read_bind; [done|]. set (ev3 := with_fire_vblock _ _). destruct (_ || _).
  - destruct (add_job_ok ev3 s1 Hi1) as [Hi2 Hf2]. eapply Keeps_step; [done|exact Hi2|exact Hf2|].
    split; [|done]. apply Hps; [right; by eexists|done].
  - apply Keeps_ret; [apply _|done|]. split; [by apply Hps; [left|]|]. cbn. intros Hv%Z.eqb_neq. by split.
Qed.

(** ** The worker *)

Lemma set_flags_same c f : with_cert_flags c f = with_cert_flags (with_cert_flags c f) f.
Proof. done. Qed.
Lemma reset_flag_off flags : check_unit_flag (reset_unit_flag flags enum_xvblock_flag_authenticated) enum_xvblock_flag_authenticated = false.
Proof.
  unfold check_unit_flag, reset_unit_flag, u16, enum_xvblock_flag_authenticated. apply negb_false_iff, Z.eqb_eq.
  rewrite <- Z.land_ones by lia. apply Z.bits_inj'. intros n Hn. rewrite !Z.land_spec, Z.lnot_spec, Z.bits_0 by lia.
  destruct (Z.testbit 4096 n); [|by rewrite andb_false_r]. by rewrite andb_false_r.
Qed.
(** The flag is set exactly when the verification succeeded. *)
Lemma verified_genuine account c : cert_flagged (verified account c) = true -> genuine account (verified account c).
Proof.
  unfold verified, cert_flagged, genuine. set (c0 := with_cert_flags c _).
  destruct (verify_muti_sign_cert c0 account) eqn:E; [by exists (c_flags c0)|].
  cbn. by rewrite reset_flag_off.
Qed.

Definition pm_take_job (i : nat) (s : pstate) : pstate := upd_st (fun c => set_pm_jobs (base.delete i (pm_jobs c)) c) s.
Definition pm_take_call (i : nat) (s : pstate) : pstate := upd_st (fun c => set_pm_calls (base.delete i (pm_calls c)) c) s.

Lemma pm_take_job_ok i s : pm_inv s -> pm_inv (pm_take_job i s) /\ pm_fwd s (pm_take_job i s).
Proof. intros []. by split; split. Qed.

Lemma PSafe_work_verify_pdu ev s : pm_inv s -> Keeps (u := False) pm_inv pm_fwd (work_verify_pdu ev) s (fun _ _ => True).
Proof.
  intros Hi. unfold work_verify_pdu. eapply Keeps_read_bind; [done|].
  destruct (pm_closed (cs_st s)); [by apply Keeps_ret; try apply _|]. eapply Keeps_read_bind; [done|]. set (ev2 := with_fire_vblock _ _).
  eapply Keeps_step; [done| | |done].
  - destruct Hi. split; try done; unfold announced in *; cbn; rewrite ?bind_app; cbn; rewrite ?app_nil_r; try done.
    apply Forall_app. split; [done|]. constructor; [|done]. split.
    + cbn. intros c Hc Hf. apply fmap_Some in Hc as (c0 & _ & ->). by apply verified_genuine.
    + cbn. intros c Hc Hf. apply fmap_Some in Hc as (c0 & _ & ->). by apply verified_genuine.
  - by split.
Qed.

(** ** Calls on the pacemaker's thread *)

Lemma pm_take_call_ok i k s :
  pm_inv s -> pm_calls (cs_st s) !! i = Some k ->
  pm_inv (pm_take_call i s) /\ pm_fwd s (pm_take_call i s) /\ pm_call_ok (pm_account (cs_st s)) k /\
  announced s ≡ₚ pm_call_views k ++ announced (pm_take_call i s).
Proof.
  intros Hi Hk.
  pose proof (pv_calls _ Hi) as Hall. rewrite <- (take_drop_middle _ _ _ Hk) in Hall.
  apply Forall_app in Hall as [Hl [Hok Hr]%Forall_cons].
  assert (Hp : announced s ≡ₚ pm_call_views k ++ announced (pm_take_call i s)).
  { unfold announced. cbn. rewrite delete_take_drop. rewrite <- (take_drop_middle _ _ _ Hk) at 1.
    rewrite !bind_app. cbn. solve_Permutation. }
  split_and!; try done. pose proof (pv_nodup _ Hi) as Hnd. pose proof (pv_le _ Hi) as Hle.
  rewrite Hp in Hnd, Hle. apply NoDup_app in Hnd as (_ & _ & Hnd). apply Forall_app in Hle as [_ Hle].
  destruct Hi. split; try done. cbn. rewrite delete_take_drop. by apply Forall_app.
Qed.

(** Firing events that announce no view. *)
Definition push_outs (l : list pm_out) (s : pstate) : pstate :=
  CState (cs_world s) (cs_st s) (cs_out s ++ l) (cs_self s) (cs_parent s).
Lemma push_outs_ok l s :
  pm_inv s -> Forall out_ok l -> NoDup ((l ≫= out_views) ++ announced s) ->
  Forall (fun v => v <= m_latest_view_id (cs_st s)) (l ≫= out_views) ->
  pm_inv (push_outs l s) /\ pm_fwd s (push_outs l s).
Proof.
  intros Hi Ho Hnd Hle.
  assert (Hp : announced (push_outs l s) ≡ₚ (l ≫= out_views) ++ announced s).
  { unfold announced. cbn. rewrite bind_app. solve_Permutation. }
  split; [|split; try done; by eexists]. pose proof (pv_le _ Hi) as Hle'. destruct Hi. split; try done.
  - by rewrite Hp.
  - rewrite Hp. by apply Forall_app.
  - by apply Forall_app.
Qed.

Definition view_outs (account : string) (v clock : Z) (s : pstate) : list pm_out :=
  (if pm_child (cs_st s) then [OutViewDown account v clock] else [])
  ++ (if cs_parent s then [OutViewUp account v clock] else []).
Lemma fire_view_runs account v clock s :
  fire_view account v clock s = Some (tt, push_outs (view_outs account v clock s) s).
Proof.
  unfold fire_view, view_outs, push_outs, fire, emit, modify, add_out, bind, st_get, gets.
  destruct s as [w c out self par]; cbn. destruct (pm_child c), par; cbn; by rewrite ?app_nil_r, <- ?app_assoc.
Qed.

Lemma fire_view_call account v clock i s :
  pm_inv s -> pm_calls (cs_st s) !! i = Some (KFireView account v clock) ->
  Keeps (u := False) pm_inv pm_fwd (fire_view account v clock) (pm_take_call i s) (fun _ _ => True).
Proof.
  intros Hi Hk. destruct (pm_take_call_ok _ _ _ Hi Hk) as (Hi1 & _ & _ & Hp). cbn in Hp.
  pose proof (pv_nodup _ Hi) as Hnd. pose proof (pv_le _ Hi) as Hle. rewrite Hp in Hnd, Hle.
  apply NoDup_cons in Hnd as [Hnin Hnd]. apply Forall_cons in Hle as [Hv _].
  set (s1 := pm_take_call i s) in *.
  assert (Hvs : view_outs account v clock s1 ≫= out_views = if pm_child (cs_st s1) then [v] else []).
  { unfold view_outs. by destruct (pm_child (cs_st s1)), (cs_parent s1). }
  destruct (push_outs_ok (view_outs account v clock s1) s1) as [Hi2 Hf2]; [done| | | |].
  - unfold view_outs. destruct (pm_child _), (cs_parent _); repeat constructor.
  - rewrite Hvs. destruct (pm_child _); [by constructor|done].
  - rewrite Hvs. destruct (pm_child _); by repeat constructor.
  - eapply Keeps_step; [apply fire_view_runs|done..].
Qed.

(** ** After the verification *)

(** A certificate changes only to the one the packet carried, flagged. *)
Definition from_cert (o carried o' : option xvqcert) : Prop :=
  o' = o \/ (o' = carried /\ exists c, carried = Some c /\ cert_flagged c = true).

Lemma PSafe_after_verify_pdu ev s :
  pm_inv s ->
  Keeps (u := False) pm_inv pm_fwd (after_verify_pdu ev) s (fun _ s' =>
    from_cert (m_latest_clock_cert (cs_st s)) (ev_xclock_cert ev) (m_latest_clock_cert (cs_st s')) /\
    from_cert (m_latest_vblock_cert (cs_st s)) (ev_vblock_cert ev) (m_latest_vblock_cert (cs_st s'))).
Proof.
  intros Hi. unfold after_verify_pdu.
  eapply (Keeps_bind _ _ _ _ _ (fun _ s1 => from_cert (m_latest_clock_cert (cs_st s)) (ev_xclock_cert ev) (m_latest_clock_cert (cs_st s1)) /\
            m_latest_vblock_cert (cs_st s1) = m_latest_vblock_cert (cs_st s))).
  { destruct (ev_xclock_cert ev) as [c|]; [|by apply Keeps_ret; [apply _|done|split; [left|]]].
    destruct (cert_flagged c) eqn:Ef; [|by apply Keeps_ret; [apply _|done|split; [left|]]].
    eapply Keeps_bind; [apply _|by apply PSafe_update_clock_cert|]. intros r s1 Hi1 _ (_ & _ & Ec & Ev & _).
    apply Keeps_ret; [apply _|done|]. split; [|done]. destruct r; [right|by left]. split; [done|by exists c]. }
  intros [] s1 Hi1 _ [Hc1 Ev1].
  eapply (Keeps_bind _ _ _ _ _ (fun _ s2 => from_cert (m_latest_clock_cert (cs_st s)) (ev_xclock_cert ev) (m_latest_clock_cert (cs_st s2)) /\
            from_cert (m_latest_vblock_cert (cs_st s)) (ev_vblock_cert ev) (m_latest_vblock_cert (cs_st s2)))).
  { destruct (ev_vblock_cert ev) as [c|]; [|by apply Keeps_ret; [apply _|done|split; [|left]]].
    destruct (cert_flagged c) eqn:Ef; [|by apply Keeps_ret; [apply _|done|split; [|left]]].
    eapply Keeps_bind; [apply _|by apply PSafe_update_vblock_cert|]. intros r s2 Hi2 _ (_ & _ & Ev & Ec & _).
    apply Keeps_ret; [apply _|done|]. split; [by rewrite Ec|]. destruct r; [right|left; congruence]. split; [done|by exists c]. }
  intros [] s2 Hi2 _ Hq. eapply Keeps_read_bind; [done|].
  destruct (pm_child (cs_st s2)); [|by apply Keeps_ret; try apply _]. eapply Keeps_read_bind; [done|].
  set (ev' := with_fire _ _ _).
  assert (Hemit : out_ok (OutPduDown ev') -> Keeps (u := False) pm_inv pm_fwd (emit (OutPduDown ev')) s2 (fun _ s' =>
    from_cert (m_latest_clock_cert (cs_st s)) (ev_xclock_cert ev) (m_latest_clock_cert (cs_st s')) /\
    from_cert (m_latest_vblock_cert (cs_st s)) (ev_vblock_cert ev) (m_latest_vblock_cert (cs_st s')))).
  { intros Ho. destruct (push_outs_ok [OutPduDown ev'] s2) as [Hi3 Hf3]; [done|by constructor|apply Hi2|constructor|].
    by apply (Keeps_step _ _ _ _ tt (push_outs [OutPduDown ev'] s2)). }
  destruct (Z.eqb_spec (pdu_viewid (ev_packet ev)) (m_latest_view_id (cs_st s2))) as [E|_]; [apply Hemit; intros _; exact E|].
  destruct (Z.eqb_spec (pdu_msg_type (ev_packet ev)) msg_type_vote) as [|Hnv]; [by apply Keeps_ret; try apply _|].
  apply Hemit. intros E. by destruct Hnv.
Qed.
End Packets.

(** ** Steps *)

Inductive pm_input :=
  | PmClock (block : option ptr)
  | PmPduUp (packet : xcspdu)
  | PmPduDown (ev : xcspdu_fire)
  | PmProposalStart (ev : xpmevent)
  | PmProposalFinish (ev : xpmevent)
  | PmReplicateFinish (ev : xpmevent)
  | PmCertificateFinish (cert : option xvqcert)
  | PmConsensusCommit (ev : xpmevent)
  | PmConsensusUpdate (ev : xpmevent)
  | PmJoin.

Definition pm_input_ok (s : pstate) (i : pm_input) : Prop :=
  match i with
  | PmClock o => valid_ptr s o
  | PmProposalStart ev | PmProposalFinish ev | PmReplicateFinish ev | PmConsensusCommit ev | PmConsensusUpdate ev => pe_ok s ev
  | _ => True
  end.

Section Steps.
Context `{HCt : XVCert} `{HB : XVBlock} `{HA : XCertAuth} `{HC : XCodec} `{HHash : XHash64} `{HSet : !XVCertSetLaws}.

Definition pm_handle (i : pm_input) : PP unit :=
  match i with
  | PmClock o => pm_on_clock_fire o ;;; ret tt
  | PmPduUp packet => pm_on_pdu_event_up packet ;;; ret tt
  | PmPduDown ev => pm_on_pdu_event_down ev ;;; ret tt
  | PmProposalStart ev => pm_on_proposal_start ev ;;; ret tt
  | PmProposalFinish ev => pm_on_proposal_finish ev ;;; ret tt
  | PmReplicateFinish ev => pm_on_replicate_finish ev ;;; ret tt
  | PmCertificateFinish c => pm_on_certificate_finish c ;;; ret tt
  | PmConsensusCommit ev => pm_on_consensus_commit ev ;;; ret tt
  | PmConsensusUpdate ev => pm_on_consensus_update ev ;;; ret tt
  | PmJoin => pm_on_join_parent_node ;;; ret tt
  end.
Definition pm_run_call (k : pm_call) : PP unit :=
  match k with
  | KFireView account v clock => fire_view account v clock
  | KAfterVerifyPdu ev => after_verify_pdu ev
  end.

(** The rest of the node allocates and changes blocks and answers queries. *)
Record pm_env_step (s s' : pstate) : Prop := {
  pe_st : exists answers, cs_st s' =
    XClockcertView (m_latest_view_id (cs_st s)) (m_latest_clock_cert (cs_st s)) (m_latest_vblock_cert (cs_st s))
      (pm_account (cs_st s)) (pm_closed (cs_st s)) (pm_child (cs_st s)) answers (pm_jobs (cs_st s)) (pm_calls (cs_st s));
  pe_answers : forall a p, pm_store (cs_st s') a = Some p -> allocated s' p;
  pe_prev : forall p b q, block_at p s' = Some b -> b_prev b = Some q -> allocated s' q;
  pe_alloc : forall p, allocated s p -> allocated s' p;
  pe_out : cs_out s' = cs_out s;
}.

Inductive pstep (s : pstate) : pstate -> Prop :=
  | pt_handle i s' : pm_input_ok s i -> pm_handle i s = Some (tt, s') -> pstep s s'
  | pt_job i ev s' : pm_jobs (cs_st s) !! i = Some ev -> work_verify_pdu ev (pm_take_job i s) = Some (tt, s') -> pstep s s'
  | pt_call i k s' : pm_calls (cs_st s) !! i = Some k -> pm_run_call k (pm_take_call i s) = Some (tt, s') -> pstep s s'
  | pt_env s' : pm_env_step s s' -> pstep s s'.

Record pm_initial (s : pstate) : Prop := {
  pi_st : exists account answers, cs_st s = new_pacemaker account answers;
  pi_out : cs_out s = [];
  pi_store : forall a p, pm_store (cs_st s) a = Some p -> allocated s p;
  pi_prev : forall p b q, block_at p s = Some b -> b_prev b = Some q -> allocated s q;
}.
Definition pm_reachable (s : pstate) : Prop := exists s0, pm_initial s0 /\ rtc pstep s0 s.

Lemma pm_ok_unit {A} (m : PP A) s : pm_ok m s -> Keeps (u := False) pm_inv pm_fwd (m ;;; ret tt) s (fun _ _ => True).
Proof.
  intros Hm. eapply Keeps_bind; [apply _|exact Hm|]. intros a s1 Hi1 _ _. by apply Keeps_ret; try apply _.
Qed.

Lemma PSafe_handle i s : pm_inv s -> pm_input_ok s i -> Keeps (u := False) pm_inv pm_fwd (pm_handle i) s (fun _ _ => True).
Proof.
  intros Hi Hok.
  destruct i as [o|packet|ev|ev|ev|ev|c|ev|ev|]; cbn in Hok; cbn [pm_handle];
    try (destruct (pm_ok_certified ev s Hi Hok) as (H1' & H2' & H3' & H4'); by apply pm_ok_unit).
  - apply pm_ok_unit, pm_ok_then; [by apply pm_ok_clock_block|]. intros s1 Hi1 _. by apply pm_ok_ret.
  - apply pm_ok_unit. unfold pm_on_pdu_event_up. eapply Keeps_read_bind; [done|].
    destruct (m_latest_clock_cert (cs_st s)); by apply pm_ok_ret.
  - eapply Keeps_bind; [apply _|by apply PSafe_on_pdu_event_down|]. intros r s1 Hi1 _ _. by apply Keeps_ret; try apply _.
  - eapply Keeps_bind; [apply _|by apply PSafe_on_proposal_start|]. intros r s1 Hi1 _ _. by apply Keeps_ret; try apply _.
  - apply pm_ok_unit, pm_ok_then; [by apply pm_ok_vblock_cert|]. intros s1 Hi1 _. by apply pm_ok_ret.
  - apply pm_ok_unit. eapply Keeps_read_bind; [done|]. apply pm_ok_then; [by apply pm_ok_init|].
    intros s1 Hi1 _. by apply pm_ok_ret.
Qed.

Lemma PSafe_call i k s :
  pm_inv s -> pm_calls (cs_st s) !! i = Some k -> Keeps (u := False) pm_inv pm_fwd (pm_run_call k) (pm_take_call i s) (fun _ _ => True).
Proof.
  intros Hi Hk. destruct k as [a v c|ev]; cbn [pm_run_call]; [by apply fire_view_call|].
  eapply Keeps_mono; [apply PSafe_after_verify_pdu|done]. by destruct (pm_take_call_ok _ _ _ Hi Hk).
Qed.

Lemma pm_env_ok s s' : pm_inv s -> pm_env_step s s' -> pm_inv s' /\ pm_fwd s s'.
Proof.
  intros Hi [[answers E] Ha Hp Hal Ho]. destruct Hi.
  split; split; unfold announced in *; rewrite ?Ho; rewrite ?E in *; try done.
Qed.

Lemma pstep_ok s s' : pm_inv s -> pstep s s' -> pm_inv s' /\ pm_fwd s s'.
Proof.
  assert (Hgo : forall m t t', Keeps (u := False) pm_inv pm_fwd m t (fun _ _ => True) -> m t = Some (tt, t') -> pm_inv t' /\ pm_fwd t t').
  { intros m t t' Hk E. unfold Keeps, wpu in Hk. rewrite E in Hk. by destruct Hk as (? & ? & _). }
  intros Hi [i t Hok E|i ev t Hj E|i k t Hk E|t He].
  - by eapply Hgo, E; apply PSafe_handle.
  - destruct (pm_take_job_ok i s Hi) as [Hi1 Hf1]. destruct (Hgo _ _ _ (PSafe_work_verify_pdu ev _ Hi1) E) as [Hi' Hf'].
    split; [done|by etrans].
  - destruct (pm_take_call_ok _ _ _ Hi Hk) as (_ & Hf1 & _). destruct (Hgo _ _ _ (PSafe_call i k s Hi Hk) E) as [Hi' Hf'].
    split; [done|by etrans].
  - by apply pm_env_ok.
Qed.
Lemma psteps_ok s s' : pm_inv s -> rtc pstep s s' -> pm_inv s' /\ pm_fwd s s'.
Proof.
  intros Hi Hr. induction Hr as [s|s s1 s' Hs Hr IH]; [done|].
  destruct (pstep_ok s s1 Hi Hs) as [Hi1 Hf1]. destruct (IH Hi1) as [Hi' Hf']. split; [done|by etrans].
Qed.
Lemma pm_reachable_inv s : pm_reachable s -> pm_inv s.
Proof.
  intros (s0 & [(account & answers & E) Ho Hs Hp] & Hr). refine (proj1 (psteps_ok s0 s _ Hr)).
  split; unfold announced; rewrite ?Ho; rewrite ?E in *; try done; constructor.
Qed.
End Steps.
