(* ===== verification/PacemakerProps.v ===== *)
(** * Properties of the pacemaker, and a concrete run *)

From stdpp Require Import prelude gmap strings.
From Stdlib Require Import ZArith Lia.
From S2P Require Import Prelude Stream StdMap VBlock Pdu Concrete Proposal BFTState Pacemaker PacemakerSteps.

(** Each view is announced at most once: in every execution of the
    pacemaker, in whatever order posted calls run, the views announced to the
    layers below are pairwise different and none is above the current view. *)
Theorem views_announced_once `{HCt : XVCert} `{HB : XVBlock} `{HA : XCertAuth} `{HC : XCodec} `{HHash : XHash64}
    `{HSet : !XVCertSetLaws} (s : pstate) (Hr : pm_reachable s) :
  NoDup (cs_out s ≫= out_views) /\ Forall (fun v => v <= m_latest_view_id (cs_st s)) (cs_out s ≫= out_views).
Proof.
  pose proof (pm_reachable_inv s Hr) as Hi. pose proof (pv_nodup _ Hi) as Hnd. pose proof (pv_le _ Hi) as Hle.
  unfold announced in *. apply NoDup_app in Hnd as [? _]. by apply Forall_app in Hle as [? _].
Qed.

(** The pacemaker only moves forward: along any execution the view never
    decreases, the clock certificate stays or is replaced by one with greater
    clock and greater view, the block certificate by one with greater view. *)
Theorem pacemaker_moves_forward `{HCt : XVCert} `{HB : XVBlock} `{HA : XCertAuth} `{HC : XCodec} `{HHash : XHash64}
    `{HSet : !XVCertSetLaws} (s s' : pstate) (Hr : pm_reachable s) (Hs : rtc pstep s s') :
  m_latest_view_id (cs_st s) <= m_latest_view_id (cs_st s') /\
  (forall c, m_latest_clock_cert (cs_st s) = Some c -> exists c', m_latest_clock_cert (cs_st s') = Some c' /\
     (c' = c \/ (c_clock c < c_clock c' /\ c_viewid c < c_viewid c'))) /\
  (forall c, m_latest_vblock_cert (cs_st s) = Some c -> exists c', m_latest_vblock_cert (cs_st s') = Some c' /\
     (c' = c \/ c_viewid c < c_viewid c')).
Proof. destruct (psteps_ok s s' (pm_reachable_inv s Hr) Hs) as [_ []]. done. Qed.

(** The view is above every certificate known: with a clock certificate
    and a block certificate the view is at least the block's view plus one
    plus a third of the clocks that passed since the block, as long as that
    sum fits 64 bits. *)
Theorem view_above_certificates `{HCt : XVCert} `{HB : XVBlock} `{HA : XCertAuth} `{HC : XCodec} `{HHash : XHash64}
    `{HSet : !XVCertSetLaws} (s : pstate) (vb ck : xvqcert) (Hr : pm_reachable s)
    (Hvb : m_latest_vblock_cert (cs_st s) = Some vb) (Hck : m_latest_clock_cert (cs_st s) = Some ck)
    (Hfit : is_u64 (c_viewid vb + 1 + Z.max 0 (c_clock ck - c_clock vb) / 3)) (Hpos : 0 <= c_viewid vb) :
  c_viewid vb < m_latest_view_id (cs_st s) /\
  c_viewid vb + 1 + Z.max 0 (c_clock ck - c_clock vb) / 3 <= m_latest_view_id (cs_st s).
Proof.
  pose proof (pv_view _ (pm_reachable_inv s Hr) vb ck Hvb Hck) as Hle.
  assert (E : view_from vb ck = c_viewid vb + 1 + Z.max 0 (c_clock ck - c_clock vb) / 3).
  { unfold view_from. destruct (Z.ltb_spec (c_clock vb) (c_clock ck)).
    - rewrite Z.max_r in * by lia. by apply u64_small.
    - rewrite Z.max_l in * by lia. rewrite Z.div_0_l, Z.add_0_r in * by lia. by apply u64_small. }
  pose proof (Z.div_pos (Z.max 0 (c_clock ck - c_clock vb)) 3). lia.
Qed.

(** C19. Certificates of packets count only once verified: receiving a packet
    changes no certificate, except that the node's own store supplies the
    first block certificate; and when the verification of a packet's
    certificates is done, the pacemaker takes only certificates whose
    signatures were verified, for the global clock's account or its own. *)
Theorem packet_certificates_verified `{HCt : XVCert} `{HB : XVBlock} `{HA : XCertAuth} `{HC : XCodec} `{HHash : XHash64}
    `{HSet : !XVCertSetLaws} (s : pstate) (Hr : pm_reachable s) :
  (forall ev r s', pm_on_pdu_event_down ev s = Some (r, s') ->
     m_latest_clock_cert (cs_st s') = m_latest_clock_cert (cs_st s) /\
     (m_latest_vblock_cert (cs_st s') = m_latest_vblock_cert (cs_st s) \/
      (m_latest_vblock_cert (cs_st s) = None /\ exists b,
         pm_store (cs_st s) (pdu_account (ev_packet ev)) ≫= (fun p => block_at p s) = Some b /\
         is_deliver b false = true /\ m_latest_vblock_cert (cs_st s') = Some (b_cert b)))) /\
  (forall i ev s', pm_calls (cs_st s) !! i = Some (KAfterVerifyPdu ev) ->
     after_verify_pdu ev (pm_take_call i s) = Some (tt, s') ->
     (m_latest_clock_cert (cs_st s') = m_latest_clock_cert (cs_st s) \/
      exists c, m_latest_clock_cert (cs_st s') = Some c /\ genuine xclock_account c) /\
     (m_latest_vblock_cert (cs_st s') = m_latest_vblock_cert (cs_st s) \/
      exists c, m_latest_vblock_cert (cs_st s') = Some c /\ genuine (pm_account (cs_st s)) c)).
Proof.
  pose proof (pm_reachable_inv s Hr) as Hi. split.
  - intros ev r s' E. pose proof (PSafe_on_pdu_event_down ev s Hi) as Hk. unfold Keeps, wpu in Hk. rewrite E in Hk.
    destruct Hk as (_ & _ & [] & _). done.
  - intros i ev s' Hk E. destruct (pm_take_call_ok _ _ _ Hi Hk) as (Hi1 & _ & [Hx Hv] & _).
    pose proof (PSafe_after_verify_pdu ev _ Hi1) as Hs. unfold Keeps, wpu in Hs. rewrite E in Hs.
    destruct Hs as (_ & _ & Hc & Hb). split.
    + destruct Hc as [Hc|(E' & c & Ec & Hf)]; [by left|right]. exists c. split; [congruence|by apply Hx].
    + destruct Hb as [Hd|(E' & c & Ec & Hf)]; [by left|right]. exists c. split; [congruence|by apply Hv].
Qed.

(** Votes for another view never reach the driver, and proposals never
    without a clock certificate: a packet that goes on at once is stamped
    with the current view, which for a vote is the view it is for, and a
    proposal carries a decoded clock certificate; and every vote handed down
    after verification is for the view it is stamped with. *)
Theorem votes_of_other_views_stop `{HCt : XVCert} `{HB : XVBlock} `{HA : XCertAuth} `{HC : XCodec} `{HHash : XHash64}
    `{HSet : !XVCertSetLaws} (s : pstate) (Hr : pm_reachable s) :
  (forall ev ev' s', pm_on_pdu_event_down ev s = Some ((false, ev'), s') ->
     ev_packet ev' = ev_packet ev /\ ev_cookie ev' = m_latest_view_id (cs_st s') /\
     (pdu_msg_type (ev_packet ev) = msg_type_vote -> pdu_viewid (ev_packet ev) = m_latest_view_id (cs_st s')) /\
     (pdu_msg_type (ev_packet ev) = msg_type_proposal -> is_Some (ev_xclock_cert ev'))) /\
  (forall ev, OutPduDown ev ∈ cs_out s -> pdu_msg_type (ev_packet ev) = msg_type_vote ->
     pdu_viewid (ev_packet ev) = ev_cookie ev).
Proof.
  pose proof (pm_reachable_inv s Hr) as Hi. split.
  - intros ev ev' s' E. pose proof (PSafe_on_pdu_event_down ev s Hi) as Hk. unfold Keeps, wpu in Hk. rewrite E in Hk.
    destruct Hk as (_ & _ & _ & Hp). by destruct (Hp eq_refl).
  - intros ev Hin. pose proof (pv_out _ Hi) as Ho. rewrite Forall_forall in Ho. exact (Ho _ Hin).
Qed.

(** The nonce of a proposal round-trips: a leader's proposal that starts
    is of the current view and is bound to the clock certificate handed to
    the driver, and a replica that checks it against that certificate goes on
    to the application's own check; against a certificate with another nonce
    it answers that the clock certificate is bad. *)
Theorem proposal_nonce_roundtrip `{HCt : XVCert} `{HB : XVBlock} `{HA : XCertAuth} `{HC : XCodec} `{HHash : XHash64}
    `{HUp : XUpperVerifier} `{HSet : !XVCertSetLaws} (s s' : pstate) (ev ev' : xpmevent) (p : ptr)
    (Hr : pm_reachable s) (Hok : pe_ok s ev) (Hp : pe_proposal ev = Some p)
    (Hrun : pm_on_proposal_start ev s = Some ((false, ev'), s')) :
  exists b k, block_at p s' = Some b /\ get_viewid b = m_latest_view_id (cs_st s') /\
    pe_clock_cert ev' = Some k /\ m_latest_clock_cert (cs_st s') = Some k /\ c_clock k <> 0 /\
    pm_verify_proposal b k = upper_verify_proposal b (Some k) /\
    forall k', verifiable_nonce b k' <> verifiable_nonce b k ->
      pm_verify_proposal b k' = (enum_xconsensus_error_bad_clock_cert, b).
Proof.
  pose proof (PSafe_on_proposal_start ev s (pm_reachable_inv s Hr) Hok) as Hs. unfold Keeps, wpu in Hs. rewrite Hrun in Hs.
  destruct Hs as (_ & _ & Hs). destruct (Hs eq_refl p Hp) as (b & b' & _ & [Hb _ Hv (k & E1 & E2 & E3 & E4)]).
  exists b', k. split_and!; try done; unfold pm_verify_proposal.
  - by rewrite E4, Z.eqb_refl.
  - intros k' Hne. rewrite E4, (proj2 (Z.eqb_neq _ _) Hne). done.
Qed.

(** The pacemaker never dereferences null: in every reachable state every
    event with valid pointers, every packet, every pending job and every
    posted call is pm_handled to the end. *)
Theorem pacemaker_handles_every_event `{HCt : XVCert} `{HB : XVBlock} `{HA : XCertAuth} `{HC : XCodec} `{HHash : XHash64}
    `{HSet : !XVCertSetLaws} (s : pstate) (Hr : pm_reachable s) :
  (forall i, pm_input_ok s i -> exists s', pm_handle i s = Some (tt, s')) /\
  (forall i ev, pm_jobs (cs_st s) !! i = Some ev -> exists s', work_verify_pdu ev (pm_take_job i s) = Some (tt, s')) /\
  (forall i k, pm_calls (cs_st s) !! i = Some k -> exists s', pm_run_call k (pm_take_call i s) = Some (tt, s')).
Proof.
  pose proof (pm_reachable_inv s Hr) as Hi. split_and!.
  - intros i Hok. destruct (Keeps_defined _ _ _ _ _ id (PSafe_handle i s Hi Hok)) as ([] & s' & E & _). eauto.
  - intros i ev _. destruct (pm_take_job_ok i s Hi) as [Hi1 _].
    destruct (Keeps_defined _ _ _ _ _ id (PSafe_work_verify_pdu ev _ Hi1)) as ([] & s' & E & _). eauto.
  - intros i k Hk. destruct (Keeps_defined _ _ _ _ _ id (PSafe_call i k s Hi Hk)) as ([] & s' & E & _). eauto.
Qed.

(** ** A run: the clock and a certified block arrive, the view is announced,
    a vote packet with a clock certificate of another node is verified. *)

Module PaceWitness.
Import Concrete.Demo.

Definition tick (clock view : Z) : xvqcert :=
  XVQCert 0 clock view 7 (Xvip2 0x1401 0) (Xvip2 0 0) "T" "root" "T" "sig" "" 0.
Definition clock_block : xvblock :=
  MkBlock (XVHeader level_unit 1 40 xclock_account "S") (tick 40 50) "T" enum_xvblock_flag_authenticated
    None None (Some (XVInput "" "")) (Some (XVOutput "")).
Definition cert_table (s : string) : option xvqcert :=
  if bool_decide (s = "T"%string) then Some (tick 43 53) else None.
#[export] Instance codec : XCodec := demo_codec cert_table (fun _ => None).
#[export] Instance hash64 : XHash64 := { xhash64_digest s := Z.of_nat (String.length s) }.
#[export] Instance upper : XUpperVerifier := { upper_verify_proposal b _ := (enum_xconsensus_code_successful, b) }.
#[export] Instance set_laws : XVCertSetLaws.
Proof. by split. Qed.

(** Block 1 is a clock block, block 2 certified, block 3 the leader's proposal on it. *)
Definition store : gmap ptr xvblock := list_to_map [
  (1%positive, clock_block);
  (2%positive, mk_block 5 10 "L" "K" "J" enum_xvblock_flag_authenticated);
  (3%positive, MkBlock (XVHeader level_unit 1 6 "T1" "L") (mk_cert 21 "B" "K") EmptyString 0 (Some 2%positive) None (Some (XVInput "" "")) (Some (XVOutput "")))].
Definition p0 : pstate :=
  CState (World store 4%positive 0 0 None None (fun _ => None) (fun _ _ => None) 0)
    (new_pacemaker "T1" (fun _ => Some 2%positive)) [] (Xvip2 0x1401 0) true.

Definition run {A} (m : PP A) (s : pstate) : pstate := match m s with Some (_, s') => s' | None => s end.
Definition no_event : xpmevent := XPmEvent 0 None None None None None None None.
Definition p1 : pstate := run (pm_handle (PmClock (Some 1%positive))) p0.
Definition p2 : pstate := run (pm_handle PmJoin) p1.
Definition p3 : pstate := run (pm_run_call (KFireView "T1" 21 40)) (pm_take_call 0 p2).
Definition vote : xcspdu_fire :=
  XCspduFire (Xvip2 0x1402 0) (Xvip2 0x1401 0)
    (XCspdu pdu_class_xbft msg_type_vote 0 "" 1 "T1" 6 0 22 7 "" "T") 0 0 None None.
Definition p4 : pstate := run (pm_handle (PmPduDown vote)) p3.
Definition checked : xcspdu_fire :=
  XCspduFire (Xvip2 0x1402 0) (Xvip2 0x1401 0)
    (XCspdu pdu_class_xbft msg_type_vote 0 "" 1 "T1" 6 0 22 7 "" "T") 21 40 None
    (Some (verified xclock_account (tick 43 53))).
Definition p5 : pstate := run (work_verify_pdu (with_fire_xclock (Some (tick 43 53)) (with_fire 21 40 vote))) (pm_take_job 0 p4).
Definition p6 : pstate := run (pm_run_call (KAfterVerifyPdu checked)) (pm_take_call 0 p5).

Lemma p0_initial : pm_initial p0.
Proof.
  split; [by eexists _, _|done| |].
  - intros a p [= <-]. by eexists.
  - assert (Hall : map_Forall (fun _ b => b_prev b = None \/ b_prev b = Some 2%positive) store).
    { apply (bool_decide_unpack _). by vm_compute. }
    intros p b q Hb Hq. destruct (Hall p b Hb) as [E|E]; rewrite E in Hq; [done|]. injection Hq as <-. by eexists.
Qed.
Lemma valid_all (s : pstate) ev : allocated s 1%positive -> allocated s 2%positive -> allocated s 3%positive ->
  Forall (fun o => o ∈ [None; Some 1%positive; Some 2%positive; Some 3%positive])
    [pe_target ev; pe_commit ev; pe_lock ev; pe_cert ev; pe_clock ev; pe_proposal ev] -> pe_ok s ev.
Proof.
  intros H1' H2' H3' Hall. eapply Forall_impl; [exact Hall|]. intros o Ho p ->.
  rewrite !elem_of_cons, elem_of_nil in Ho. by destruct Ho as [?|[[= ->]|[[= ->]|[[= ->]|?]]]].
Qed.

Lemma pm_handled i s s' : pm_input_ok s i -> pm_handle i s = Some (tt, s') -> pm_reachable s -> pm_reachable s'.
Proof. intros Hok E (s0 & Hin & Hr). exists s0. split; [done|]. eapply rtc_r; [done|by eapply pt_handle]. Qed.

Lemma pm_reach2 : pm_reachable p2.
Proof.
  apply (pm_handled PmJoin p1); [done|by vm_compute|]. apply (pm_handled (PmClock (Some 1%positive)) p0); [|by vm_compute|].
  - intros p [= <-]. by eexists.
  - exists p0. by split; [apply p0_initial|].
Qed.
Lemma step3 : rtc pstep p2 p3.
Proof. apply rtc_once. eapply (pt_call p2 0); [by vm_compute|]. by vm_compute. Qed.
Lemma pm_reach3 : pm_reachable p3.
Proof. destruct pm_reach2 as (s0 & Hin & Hr). exists s0. split; [done|]. by etrans; [exact Hr|apply step3]. Qed.
Lemma pm_reach5 : pm_reachable p5.
Proof.
  assert (H4 : pm_reachable p4) by (apply (pm_handled (PmPduDown vote) p3); [done|by vm_compute|apply pm_reach3]).
  destruct H4 as (s0 & Hin & Hr). exists s0. split; [done|]. eapply rtc_r; [exact Hr|].
  eapply (pt_job p4 0); [by vm_compute|]. by vm_compute.
Qed.

Lemma views_announced_once_witness : cs_out p3 ≫= out_views = [21] /\ NoDup (cs_out p3 ≫= out_views).
Proof. split; [by vm_compute|]. apply (views_announced_once p3 pm_reach3). Defined.

Lemma pacemaker_moves_forward_witness : m_latest_view_id (cs_st p2) <= m_latest_view_id (cs_st p3).
Proof. apply (pacemaker_moves_forward p2 p3 pm_reach2 step3). Defined.

Lemma view_above_certificates_witness :
  10 + 1 + Z.max 0 (40 - 10) / 3 <= m_latest_view_id (cs_st p2).
Proof.
  apply (view_above_certificates p2 (mk_cert 10 "L" "J") (tick 40 50) pm_reach2); [by vm_compute..|by split; vm_compute|by vm_compute].
Defined.

Lemma packet_certificates_verified_witness :
  m_latest_clock_cert (cs_st p6) <> m_latest_clock_cert (cs_st p5) /\
  (m_latest_clock_cert (cs_st p6) = m_latest_clock_cert (cs_st p5) \/
   exists c, m_latest_clock_cert (cs_st p6) = Some c /\ genuine xclock_account c).
Proof.
  split; [by vm_compute|].
  apply (proj2 (packet_certificates_verified p5 pm_reach5) 0%nat checked p6); by vm_compute.
Defined.

Definition vote21 : xcspdu_fire :=
  XCspduFire (Xvip2 0x1402 0) (Xvip2 0x1401 0)
    (XCspdu pdu_class_xbft msg_type_vote 0 "" 1 "T1" 6 0 21 7 "" "") 0 0 None None.
Lemma votes_of_other_views_stop_witness :
  pm_on_pdu_event_down vote21 p3 = Some ((false, with_fire 21 40 vote21), p3) /\
  ev_cookie (with_fire 21 40 vote21) = m_latest_view_id (cs_st p3).
Proof.
  assert (E : pm_on_pdu_event_down vote21 p3 = Some ((false, with_fire 21 40 vote21), p3)) by by vm_compute.
  split; [exact E|]. by destruct (proj1 (votes_of_other_views_stop p3 pm_reach3) vote21 _ p3 E) as (_ & ? & _).
Defined.

Definition start_ev : xpmevent := XPmEvent 0 None None None (Some 2%positive) (Some 1%positive) (Some 3%positive) None.
Lemma proposal_nonce_roundtrip_witness :
  exists ev' b k, pe_clock_cert ev' = Some k /\ pm_verify_proposal b k = upper_verify_proposal b (Some k) /\
    get_viewid b = 21.
Proof.
  assert (Hok : pe_ok p2 start_ev).
  { apply valid_all; [by eexists..|]. by apply (bool_decide_unpack _); vm_compute. }
  destruct (pm_on_proposal_start start_ev p2) as [[[stop ev'] s']|] eqn:E; [|by vm_compute in E].
  assert (Es : (stop, m_latest_view_id (cs_st s')) = (false, 21)).
  { transitivity (match pm_on_proposal_start start_ev p2 with Some (r, t) => (r.1, m_latest_view_id (cs_st t)) | None => (true, 0) end);
      [by rewrite E|by vm_compute]. }
  injection Es as -> Ev.
  destruct (proposal_nonce_roundtrip p2 s' start_ev ev' 3%positive pm_reach2 Hok eq_refl E) as (b & k & _ & Hv & Hk & _ & _ & Hn & _).
  exists ev', b, k. split_and!; [done|done|congruence].
Defined.

Lemma pacemaker_handles_every_event_witness : exists s', work_verify_pdu (with_fire_xclock (Some (tick 43 53)) (with_fire 21 40 vote))
    (pm_take_job 0 p4) = Some (tt, s').
Proof.
  assert (H4 : pm_reachable p4) by (apply (pm_handled (PmPduDown vote) p3); [done|by vm_compute|apply pm_reach3]).
  apply (pacemaker_handles_every_event p4 H4). by vm_compute.
Defined.
End PaceWitness.
