(* ===== verification/VoteCache.v ===== *)
(** * The vote cache of the timer ([xvote_cache_t], xtimercertview.cpp)

    While a clock tick has not been certified, the timer layer collects the
    signatures the validators send for it.  [m_clock_votes] holds them per
    tick, [m_clocks] remembers per validator which ticks it signed; a
    validator's ticks must increase, by at most [ELASTIC_RANGE] at a time.
    The two maps say the same thing twice: the invariant [cache_ok] states
    that, and the operations keep it, so that the assertions of
    [clear_timeout_clock] and the lookup of [get_clock_votes] never fail. *)

From stdpp Require Import prelude strings.
From Stdlib Require Import ZArith Lia.
From S2P Require Import Prelude StdMap VBlock.

Definition CLOCK_TIME_INTERVAL : Z := 20000.
Definition ELASTIC_RANGE : Z := 2.

Record xvip_votes := XVipVotes {
  create_tm : Z;
  validators : list (xvip2 * string)
}.

Record xvote_cache := XVoteCache {
  m_clock_votes : list (Z * xvip_votes);
  m_clocks : list (xvip2 * list Z)
}.
Definition set_clock_votes (v : list (Z * xvip_votes)) (c : xvote_cache) : xvote_cache := XVoteCache v (m_clocks c).
Definition set_clocks (v : list (xvip2 * list Z)) (c : xvote_cache) : xvote_cache := XVoteCache (m_clock_votes c) v.

(** [*rbegin()] of a [std::set<uint64_t>]. *)
Definition set_greatest (s : list Z) : option Z :=
  match s with [] => None | x :: s' => Some (foldr Z.max x s') end.

(** ** Operations *)

Definition check (c : xvote_cache) (replica : xvip2) (clock : Z) : bool :=
  match map_find replica (m_clocks c) with
  | None => true
  | Some clock_set =>
      match set_greatest clock_set with
      | None => true
      | Some self_last_clock =>
          (self_last_clock <? clock) && (clock <=? u64 (self_last_clock + ELASTIC_RANGE))
      end
  end.

Definition add_to_clocks (replica : xvip2) (clock : Z) (m : list (xvip2 * list Z)) : list (xvip2 * list Z) :=
  match map_find replica m with
  | None => map_set replica [clock] m
  | Some s => map_set replica (set_emplace clock s).1 m
  end.
Definition add_to_votes (now : Z) (replica : xvip2) (clock : Z) (qcert_bin : string)
    (m : list (Z * xvip_votes)) : list (Z * xvip_votes) :=
  match map_find clock m with
  | None => map_set clock (XVipVotes now (map_set replica qcert_bin [])) m
  | Some v => map_set clock (XVipVotes (create_tm v) (map_set replica qcert_bin (validators v))) m
  end.

(** [now]: [base::xtime_utl::gmttime_ms()]. *)
Definition add_qcert (now : Z) (replica : xvip2) (clock : Z) (qcert_bin : string) : prog xvote_cache bool :=
  let* c := get in
  if negb (check c replica clock) then ret false
  else
    modify (fun c => set_clocks (add_to_clocks replica clock (m_clocks c)) c) ;;;
    modify (fun c => set_clock_votes (add_to_votes now replica clock qcert_bin (m_clock_votes c)) c) ;;;
    ret true.

(** Without an entry the code follows the end iterator. *)
Definition get_clock_votes (clock : Z) : prog xvote_cache (list (xvip2 * string)) :=
  let* c := get in
  let* v := nonnull (map_find clock (m_clock_votes c)) in
  ret (validators v).

(** The two assertions of the loop body; a failed one is undefined here. *)
Definition erase_clock_of (clock : Z) (e : xvip2 * string) : prog xvote_cache unit :=
  let* c := get in
  let* s := nonnull (map_find e.1 (m_clocks c)) in
  match s with
  | [] => ub
  | _ =>
      let s' := set_erase clock s in
      modify (set_clocks (map_set e.1 s' (m_clocks c))) ;;;
      match s' with
      | [] => modify (fun c => set_clocks (map_erase e.1 (m_clocks c)) c)
      | _ => ret tt
      end
  end.
Definition is_fresh (now : Z) (e : Z * xvip_votes) : bool := now - create_tm e.2 <? CLOCK_TIME_INTERVAL.
Definition clear_one_clock (now : Z) (e : Z * xvip_votes) : prog xvote_cache unit :=
  if is_fresh now e then ret tt
  else
    for_each (validators e.2) (erase_clock_of e.1) ;;;
    modify (fun c => set_clock_votes (map_erase e.1 (m_clock_votes c)) c).
Definition clear_timeout_clock (now : Z) : prog xvote_cache unit :=
  let* c := get in
  for_each (m_clock_votes c) (clear_one_clock now).

Definition clear : prog xvote_cache unit := modify (fun _ => XVoteCache [] []).

(** ** The invariant *)

(** What the two maps say: validator [x] signed the tick [k]. *)
Definition in_votes (c : xvote_cache) (k : Z) (x : xvip2) : Prop :=
  exists v sig, map_find k (m_clock_votes c) = Some v /\ map_find x (validators v) = Some sig.
Definition in_clocks (c : xvote_cache) (k : Z) (x : xvip2) : Prop :=
  exists s, map_find x (m_clocks c) = Some s /\ k ∈ s.

Record cache_shape (c : xvote_cache) : Prop := {
  cs_votes_sorted : key_sorted (m_clock_votes c);
  cs_clocks_sorted : key_sorted (m_clocks c);
  cs_validators : forall k v, map_find k (m_clock_votes c) = Some v -> key_sorted (validators v) /\ validators v <> [];
  cs_sets : forall x s, map_find x (m_clocks c) = Some s -> s <> []
}.
Record cache_ok (c : xvote_cache) : Prop := {
  co_shape : cache_shape c;
  co_agree : forall k x, in_votes c k x <-> in_clocks c k x
}.

Lemma cache_ok_empty : cache_ok (XVoteCache [] []).
Proof.
  split; [split; try done; constructor|].
  intros k x. split; [intros (? & ? & ? & _)|intros (? & ? & _)]; done.
Qed.

Lemma set_emplace_elem (k j : Z) s : j ∈ (set_emplace k s).1 <-> j = k \/ j ∈ s.
Proof.
  unfold set_emplace. destruct (set_mem_spec k s); cbn; [|by rewrite elem_of_cons].
  split; [auto|]. by intros [->|].
Qed.

Lemma set_greatest_spec s x : set_greatest s = Some x -> x ∈ s /\ (forall y, y ∈ s -> y <= x).
Proof.
  destruct s as [|z s]; [done|]. cbn. intros [= <-]. induction s as [|w s IH]; cbn.
  - split; [left|]. intros y ->%list_elem_of_singleton. lia.
  - destruct IH as [Hin Hle]. split.
    + destruct (Z.max_spec w (foldr Z.max z s)) as [[_ ->]|[_ ->]]; [|set_solver].
      apply elem_of_cons in Hin as [->|Hin]; [left|]. right. by right.
    + intros y Hy. assert (y = w \/ y ∈ z :: s) as [->|Hy']; [set_solver|lia|]. specialize (Hle _ Hy'). lia.
Qed.
Lemma set_greatest_some s : s <> [] -> is_Some (set_greatest s).
Proof. destruct s; [done|]. eauto. Qed.

(** *** [add_qcert] *)

Lemma in_clocks_add c x k y j :
  in_clocks (set_clocks (add_to_clocks x k (m_clocks c)) c) j y <-> in_clocks c j y \/ (j = k /\ y = x).
Proof.
  unfold in_clocks, add_to_clocks. cbn. destruct (decide (y = x)) as [->|Hne].
  - destruct (map_find x (m_clocks c)) as [s|] eqn:E; rewrite map_find_set_eq.
    + split.
      * intros (? & [= <-] & [->|]%set_emplace_elem); [by right|]. left. eauto.
      * intros [(? & [= <-] & ?)|[-> _]]; eexists; (split; [done|]); apply set_emplace_elem; auto.
    + split.
      * intros (? & [= <-] & ->%list_elem_of_singleton). by right.
      * intros [(? & ? & _)|[-> _]]; [done|]. eexists. split; [done|]. by left.
  - destruct (map_find x (m_clocks c)); rewrite map_find_set_ne by done; naive_solver.
Qed.
Lemma in_votes_add now c x k sig y j :
  in_votes (set_clock_votes (add_to_votes now x k sig (m_clock_votes c)) c) j y <-> in_votes c j y \/ (j = k /\ y = x).
Proof.
  unfold in_votes, add_to_votes. cbn. destruct (decide (j = k)) as [->|Hne].
  - destruct (map_find k (m_clock_votes c)) as [v|] eqn:E; rewrite map_find_set_eq.
    + destruct (decide (y = x)) as [->|Hy].
      * split; [by right|]. intros _. eexists _, _. split; [done|]. apply map_find_set_eq.
      * split.
        -- intros (? & s & [= <-] & Hs). cbn in Hs. rewrite map_find_set_ne in Hs by done. left. eauto.
        -- intros [(? & s & [= <-] & Hs)|[_ ?]]; [|done]. eexists _, s. split; [done|]. cbn. by rewrite map_find_set_ne.
    + split.
      * intros (? & s & [= <-] & Hs). cbn in Hs. destruct (decide (y = x)); [by right|done].
      * intros [(? & ? & ? & _)|[_ ->]]; [done|]. eexists _, _. split; [done|]. cbn. by rewrite decide_True.
  - destruct (map_find k (m_clock_votes c)); rewrite map_find_set_ne by done; naive_solver.
Qed.


Lemma add_shape now c x k sig :
  cache_shape c ->
  cache_shape (XVoteCache (add_to_votes now x k sig (m_clock_votes c)) (add_to_clocks x k (m_clocks c))).
Proof.
  intros [Hv Hc Hval Hset]. unfold add_to_votes, add_to_clocks. split; cbn.
  - destruct (map_find k _); auto with stdmap.
  - destruct (map_find x _); auto with stdmap.
  - intros j v. destruct (map_find k (m_clock_votes c)) as [v0|] eqn:E; (destruct (decide (j = k)) as [->|Hne];
      [rewrite map_find_set_eq; intros [= <-]; cbn|rewrite map_find_set_ne by done; apply Hval]).
    + split; [|apply map_set_nonempty]. apply map_set_sorted. by eapply Hval.
    + split; [|done]. by repeat constructor.
  - intros y s. destruct (map_find x (m_clocks c)) as [s0|] eqn:E; (destruct (decide (y = x)) as [->|Hne];
      [rewrite map_find_set_eq; intros [= <-]|rewrite map_find_set_ne by done; apply Hset]); [|done].
    unfold set_emplace. destruct (set_mem k s0); cbn; [by eapply Hset|done].
Qed.

(** Adding a vote that passed the check records it, and nothing else. *)
Lemma add_qcert_ok now x k sig c :
  cache_ok c -> check c x k = true ->
  exists c', add_qcert now x k sig c = Some (true, c') /\ cache_ok c' /\
    m_clock_votes c' = add_to_votes now x k sig (m_clock_votes c) /\
    m_clocks c' = add_to_clocks x k (m_clocks c).
Proof.
  intros [Hs Ha] Hc. eexists. unfold add_qcert, bind, get, modify, ret. rewrite Hc. cbn.
  split; [done|]. split; [|done]. split; [by apply (add_shape now c)|].
  intros j y. pose proof (in_votes_add now c x k sig y j) as E1. pose proof (in_clocks_add c x k y j) as E2.
  unfold in_votes, in_clocks in *. cbn in *. rewrite E1, E2. by setoid_rewrite Ha.
Qed.
Lemma add_qcert_refused now x k sig c : check c x k = false -> add_qcert now x k sig c = Some (false, c).
Proof. intros Hc. unfold add_qcert, bind, get, ret. by rewrite Hc. Qed.

(** *** [clear_timeout_clock] *)

#[local] Arguments map_erase : simpl never.
#[local] Arguments set_erase : simpl never.


Definition shrinks (P : Z -> xvip2 -> Prop) (c c' : xvote_cache) : Prop :=
  m_clock_votes c' = m_clock_votes c /\ cache_shape c' /\
  forall j y, in_clocks c' j y <-> in_clocks c j y /\ ~ P j y.

Lemma erase_clock_of_ok c k e :
  cache_shape c -> in_clocks c k e.1 ->
  exists c', erase_clock_of k e c = Some (tt, c') /\ shrinks (fun j y => j = k /\ y = e.1) c c'.
Proof.
  intros [Hv Hc Hval Hset] (s & Es & Hin). unfold erase_clock_of, bind, get, nonnull. rewrite Es.
  destruct s as [|s0 s']; [by apply elem_of_nil in Hin|].
  set (s := s0 :: s') in *. cbn [ret]. unfold modify.
  assert (Hother : forall y, y <> e.1 -> forall t, map_find y (map_set e.1 t (m_clocks c)) = map_find y (m_clocks c))
    by (intros; by apply map_find_set_ne).
  destruct (set_erase k s) as [|t0 t'] eqn:Et; (eexists; split; [done|]).
  - assert (Hall : forall j, j ∈ s -> j = k).
    { intros j Hj. destruct (decide (j = k)); [done|]. assert (j ∈ set_erase k s) as Hj' by by apply set_erase_elem.
      rewrite Et in Hj'. by apply elem_of_nil in Hj'. }
    split_and!; [done| |].
    + split; cbn; auto with stdmap. intros y u. rewrite map_find_erase_inv. intros [Hne E].
      rewrite Hother in E by done. eauto.
    + intros j y. unfold in_clocks. cbn. setoid_rewrite map_find_erase_inv. split.
      * intros (u & [Hne E] & Hj). rewrite Hother in E by done. split; [eauto|]. by intros [_ ?].
      * intros [(u & E & Hj) Hn]. destruct (decide (y = e.1)) as [->|Hne].
        -- destruct Hn. split; [|done]. apply Hall. congruence.
        -- exists u. rewrite Hother by done. done.
  - rewrite <- Et. split_and!; [done| |].
    + split; cbn; auto with stdmap. intros y u. destruct (decide (y = e.1)) as [->|Hne].
      * rewrite map_find_set_eq. intros [= <-]. by rewrite Et.
      * rewrite Hother by done. apply Hset.
    + intros j y. unfold in_clocks. cbn. destruct (decide (y = e.1)) as [->|Hne].
      * rewrite map_find_set_eq, Es. split.
        -- intros (u & [= <-] & [Hj Hne]%set_erase_elem). split; [eauto|]. by intros [? _].
        -- intros [(u & [= <-] & Hj) Hn]. eexists. split; [done|]. apply set_erase_elem. split; [done|].
           intros ->. by apply Hn.
      * rewrite Hother by done. naive_solver.
Qed.

Lemma erase_clocks_ok k l c :
  cache_shape c -> NoDup l.*1 -> (forall e, e ∈ l -> in_clocks c k e.1) ->
  exists c', for_each l (erase_clock_of k) c = Some (tt, c') /\ shrinks (fun j y => j = k /\ y ∈ l.*1) c c'.
Proof.
  revert c. induction l as [|e l IH]; intros c Hs Hnd Hin; cbn.
  - exists c. split; [done|]. split_and!; try done. intros j y. split; [|tauto].
    intros H. split; [done|]. intros [_ ?]. by eapply elem_of_nil.
  - apply NoDup_cons in Hnd as [Hni Hnd].
    destruct (erase_clock_of_ok c k e Hs) as (c1 & E1 & Ev1 & Hs1 & Hc1); [apply Hin; by left|].
    unfold bind. rewrite E1. destruct (IH c1 Hs1 Hnd) as (c2 & E2 & Ev2 & Hs2 & Hc2).
    { intros e' He'. apply Hc1. split; [apply Hin; by right|]. intros [_ Heq]. apply Hni.
      rewrite <- Heq. apply list_elem_of_fmap. eauto. }
    exists c2. split; [done|]. split_and!; [congruence|done|].
    intros j y. rewrite Hc2, Hc1, elem_of_cons. tauto.
Qed.


(** Dropping one tick from both maps. *)
Lemma clear_one_clock_ok now e c :
  cache_ok c -> e ∈ m_clock_votes c ->
  exists c', clear_one_clock now e c = Some (tt, c') /\ cache_ok c' /\
    m_clock_votes c' = (if is_fresh now e then m_clock_votes c else map_erase e.1 (m_clock_votes c)).
Proof.
  intros Hok He. unfold clear_one_clock. destruct (is_fresh now e); [by exists c|].
  destruct Hok as [Hs Ha]. destruct e as [k v]. cbn [fst snd].
  assert (Ev : map_find k (m_clock_votes c) = Some v) by (by apply map_find_in; [apply Hs|]).
  destruct (cs_validators c Hs _ _ Ev) as [Hvs _].
  destruct (erase_clocks_ok k (validators v) c Hs) as (c1 & E1 & Ev1 & Hs1 & Hc1).
  { by apply key_sorted_nodup. }
  { intros [x sig] Hx. apply Ha. exists v, sig. split; [done|]. by apply map_find_in. }
  unfold bind, modify. rewrite E1. eexists. split; [done|]. cbn. rewrite Ev1. split; [|done].
  destruct Hs1 as [Hv1 Hcl1 Hval1 Hset1]. rewrite Ev1 in Hv1. split; [split; cbn; auto with stdmap|].
  - intros j w. rewrite map_find_erase_inv. intros [_ E]. eapply cs_validators; eauto.
  - intros j y. transitivity (in_votes c j y /\ j <> k).
    + unfold in_votes. cbn. setoid_rewrite map_find_erase_inv. naive_solver.
    + transitivity (in_clocks c1 j y); [|done]. rewrite Hc1, <- Ha. split; [naive_solver|].
      intros [Hv Hn]. split; [done|]. intros ->. destruct Hv as (w & sig & Ew & Hw). rewrite Ev in Ew.
      injection Ew as <-. apply Hn. split; [done|]. apply map_find_key. eauto.
Qed.

Lemma clear_timeout_loop now l c done_votes :
  cache_ok c -> key_sorted (done_votes ++ l) -> m_clock_votes c = done_votes ++ l ->
  exists c', for_each l (clear_one_clock now) c = Some (tt, c') /\ cache_ok c' /\
    m_clock_votes c' = done_votes ++ List.filter (is_fresh now) l.
Proof.
  revert c done_votes. induction l as [|e l IH]; intros c dv Hok Hsd E; cbn; [by exists c|].
  destruct (clear_one_clock_ok now e c Hok) as (c1 & E1 & Hok1 & Ev1).
  { rewrite E. apply elem_of_app. right. by left. }
  unfold bind. rewrite E1. destruct (is_fresh now e) eqn:Ef.
  - destruct (IH c1 (dv ++ [e]) Hok1) as (c2 & E2 & Hok2 & Ev2).
    { by rewrite <- app_assoc. } { rewrite Ev1, E. by rewrite <- app_assoc. }
    exists c2. split_and!; [done..|]. rewrite Ev2. by rewrite <- app_assoc.
  - assert (Eer : map_erase e.1 (dv ++ e :: l) = dv ++ l).
    { pose proof (key_sorted_nodup _ Hsd) as Hnd. rewrite fmap_app, fmap_cons in Hnd.
      apply NoDup_app in Hnd as (_ & Hdis & Hnd). apply NoDup_cons in Hnd as [Hni _].
      assert (Hkeep : forall m : list (Z * xvip_votes), e.1 ∉ m.*1 -> map_erase e.1 m = m).
      { intros m Hm. induction m as [|e' m IHm]; [done|]. unfold map_erase in *. cbn in *. apply not_elem_of_cons in Hm as [? ?].
        rewrite bool_decide_eq_false_2 by done. cbn. f_equal. auto. }
      unfold map_erase in *. rewrite List.filter_app. cbn. rewrite bool_decide_eq_true_2 by done. cbn.
      rewrite !Hkeep; [done|done|]. intros Hin. apply (Hdis _ Hin). by left. }
    rewrite E, Eer in Ev1. apply (IH c1 dv); [done| |done]. rewrite <- Eer. by apply map_erase_sorted.
Qed.

Lemma clear_timeout_clock_ok now c :
  cache_ok c ->
  exists c', clear_timeout_clock now c = Some (tt, c') /\ cache_ok c' /\
    m_clock_votes c' = List.filter (is_fresh now) (m_clock_votes c).
Proof.
  intros Hok. unfold clear_timeout_clock, bind, get.
  apply (clear_timeout_loop now (m_clock_votes c) c []); [done|apply Hok|done].
Qed.
