(* ===== verification/TimerPace.v ===== *)
(** * The timer pacemaker ([xconspacemaker_t]) and its account ([xtimer_picker_t])

    The beacon committee keeps the global clock.  Every second each member's
    timer fires; once per ten seconds it signs the block of the current tick
    and broadcasts it.  Members collect the signatures of the others and, with
    enough of them, certify the tick: the clock block goes to the account
    object above, which broadcasts it when its node leads that view.

    [xconspacemaker_t] (xtimercertview.cpp) is the engine's pacemaker for this
    account; [xtimer_picker_t] (xtimer_picker.cpp) sits above it.  The two call
    each other through events within one thread, so an event pushed to a
    neighbour is the call of its handler.  Between calls the clock, the network
    and the block store are the environment: what they answer is part of the
    event that is handled. *)

From stdpp Require Import prelude gmap strings.
From Stdlib Require Import ZArith Lia.
From S2P Require Import Prelude Stream StdMap VBlock Pdu Proposal BFTState Pacemaker VoteCache.

Definition TOP_BEGIN_GMTIME : Z := 1573189200.
Definition msg_type_timeout : Z := 13.
Definition PEER_TIMEOUT_TYPE : Z := 0.
Definition LOCAL_TIMEOUT_TYPE : Z := 1.
Definition sys_drand_addr : string := "Tr00013aFJ3pTJ56d7Nrc3VtwUQPwkXRL1vozEvCh"%string.
Definition enum_xvblock_flag_confirmed : Z := 0x0800.

(** ** The base library's part *)

Class XTimerBase := {
  new_vqcert : xvqcert;                                 (* a new certificate *)
  set_viewtoken : xvqcert -> Z -> xvqcert;
  set_validator : xvqcert -> xvip2 -> xvqcert;
  new_vblock : xvheader -> xvqcert -> xvblock;          (* the constructor of xvblock_t *)
  rootblock_chainid : Z;
  rootblock_hash : string;
  do_sign_block : xvip2 -> xvblock -> Z -> string;      (* the overloads on blocks *)
  merge_muti_sign_cert : list (xvip2 * string) -> xvqcert -> string;
  block_to_data : xvblock -> string;                    (* serialize_to *)
  data_to_block : string -> option xvblock              (* xdataunit_t::read_from *)
}.
(** The election without rotation: who leads a view. *)
Class XElection := { get_leader_xip : Z -> string -> xvip2 -> xvip2 -> xvip2 }.

(** ** State *)

Record xconspacemaker := XConspacemaker {
  m_nonce : Z;
  m_vote_cache : xvote_cache;
  m_latest_cert : option xvblock;
  m_last_send_time : Z;
  tp_addr : xvip2;                    (* get_xip2_addr() *)
  tp_timer : bool;                    (* the timer was started *)
  tp_calls : nat                      (* view updates posted to this thread *)
}.
Record xtimer_picker := XTimerPicker {
  m_cur_view : Z;
  m_latest_cert_clock : Z;
  pk_addr : xvip2
}.

(** What leaves the two objects. *)
Inductive timer_out :=
  | TSendPdu (from to : xvip2) (packet : xcspdu)
  | TTimeCert (block : xvblock)                         (* xcstc_fire, up to the account *)
  | TBroadcastBlock (from to : xvip2) (block : xvblock)
  | TViewDown (viewid clock : Z)
  | TProposalStart (block : xvblock)
  | TLatestDown                                         (* proposal_start with the latest blocks *)
  | TPduDown (ev : xcspdu_fire)
  | TChainTimer (block : xvblock).                      (* onto the message bus *)

Record xtimer := XTimer { t_pace : xconspacemaker; t_pick : xtimer_picker; t_out : list timer_out }.
Abbreviation TP := (prog xtimer).

Definition set_nonce_field (v : Z) (p : xconspacemaker) : xconspacemaker :=
  XConspacemaker v (m_vote_cache p) (m_latest_cert p) (m_last_send_time p) (tp_addr p) (tp_timer p) (tp_calls p).
Definition set_cache (v : xvote_cache) (p : xconspacemaker) : xconspacemaker :=
  XConspacemaker (m_nonce p) v (m_latest_cert p) (m_last_send_time p) (tp_addr p) (tp_timer p) (tp_calls p).
Definition set_latest_cert (v : xvblock) (p : xconspacemaker) : xconspacemaker :=
  XConspacemaker (m_nonce p) (m_vote_cache p) (Some v) (m_last_send_time p) (tp_addr p) (tp_timer p) (tp_calls p).
Definition set_last_send_time (v : Z) (p : xconspacemaker) : xconspacemaker :=
  XConspacemaker (m_nonce p) (m_vote_cache p) (m_latest_cert p) v (tp_addr p) (tp_timer p) (tp_calls p).
Definition set_tp_addr (v : xvip2) (p : xconspacemaker) : xconspacemaker :=
  XConspacemaker (m_nonce p) (m_vote_cache p) (m_latest_cert p) (m_last_send_time p) v (tp_timer p) (tp_calls p).
Definition set_tp_timer (p : xconspacemaker) : xconspacemaker :=
  XConspacemaker (m_nonce p) (m_vote_cache p) (m_latest_cert p) (m_last_send_time p) (tp_addr p) true (tp_calls p).
Definition set_tp_calls (v : nat) (p : xconspacemaker) : xconspacemaker :=
  XConspacemaker (m_nonce p) (m_vote_cache p) (m_latest_cert p) (m_last_send_time p) (tp_addr p) (tp_timer p) v.

Definition pace_get {A} (f : xconspacemaker -> A) : TP A := gets (fun s => f (t_pace s)).
Definition pace_mod (f : xconspacemaker -> xconspacemaker) : TP unit :=
  modify (fun s => XTimer (f (t_pace s)) (t_pick s) (t_out s)).
Definition pick_get {A} (f : xtimer_picker -> A) : TP A := gets (fun s => f (t_pick s)).
Definition pick_mod (f : xtimer_picker -> xtimer_picker) : TP unit :=
  modify (fun s => XTimer (t_pace s) (f (t_pick s)) (t_out s)).
Definition t_emit (e : timer_out) : TP unit := modify (fun s => XTimer (t_pace s) (t_pick s) (t_out s ++ [e])).
(** A method of the vote cache. *)
Definition in_cache {A} (m : prog xvote_cache A) : TP A :=
  fun s => match m (m_vote_cache (t_pace s)) with
           | Some (a, c) => Some (a, XTimer (set_cache c (t_pace s)) (t_pick s) (t_out s))
           | None => None
           end.

(** The constructors; the block store gives the latest block of this account
    and the latest clock block. *)
Definition new_timer (addr : xvip2) (last_viewid last_clock : Z) : xtimer :=
  XTimer (XConspacemaker 0 (XVoteCache [] []) None 0 addr false 0) (XTimerPicker last_viewid last_clock addr) [].

(** ** Addresses *)

Definition set_node_id_to_xip2 (a : xvip2) (id : Z) : xvip2 :=
  Xvip2 (Z.lor (low_addr a) (Z.land id 0x3FF)) (high_addr a).
Definition reset_node_id_to_xip2 (a : xvip2) : xvip2 :=
  Xvip2 (Z.land (low_addr a) 0xFFFFFFFFFFFFFC00) (high_addr a).
(** The address of the whole group. *)
Definition target_xip (a : xvip2) : xvip2 := set_node_id_to_xip2 (reset_node_id_to_xip2 a) 0xFFF.

Section Timer.
Context `{XVCert} `{XVBlock} `{XCertAuth} `{XCodec} `{XTimerBase} `{XElection}.

(** ** Blocks without a body (xheader_cert.cpp, xemptyblock.cpp) *)

Definition new_blockcert (height : Z) : xvqcert :=
  if height =? 0
  then set_validator (set_viewtoken (set_viewid (set_clock new_vqcert 0) 0) (u32 (-1))) broadcast_addr
  else new_vqcert.
Definition create_blockcert (height viewid clock : Z) : xvqcert :=
  let c := new_blockcert height in
  if negb (height =? 0) then set_clock (set_viewid c viewid) clock else c.
Definition new_xblock (h : xvheader) (c : xvqcert) : xvblock :=
  let b := new_vblock h c in
  if h_height h =? 0 then
    foldl set_block_flag b
      [enum_xvblock_flag_authenticated; enum_xvblock_flag_locked; enum_xvblock_flag_committed;
       enum_xvblock_flag_confirmed; enum_xvblock_flag_connected]
  else b.
Definition create_emptyblock_full (account : string) (height : Z) (level : enum_xvblock_level)
    (last_block_hash : string) (viewid clock : Z) : xvblock :=
  new_xblock (XVHeader level rootblock_chainid height account last_block_hash) (create_blockcert height viewid clock).
Definition create_emptyblock (account : string) (height : Z) (level : enum_xvblock_level) (viewid clock : Z) : xvblock :=
  create_emptyblock_full account height level rootblock_hash viewid clock.
Definition create_next_emptyblock (prev : xvblock) : xvblock :=
  create_emptyblock_full (get_account prev) (u64 (get_height prev + 1)) (get_block_level prev) (get_block_hash prev)
    (u64 (get_viewid prev + 1)) (u64 (get_clock prev + 1)).

(** [xtimer_block_maker_t::make_block] on the latest certified block [q]. *)
Definition make_block (prev : option (ptr * xvblock)) (clock viewid : Z) (leader : xvip2) : TP xvblock :=
  let* q := nonnull prev in
  let b := create_next_emptyblock q.2 in
  let c := set_validator (set_viewid (set_clock (b_cert b) clock) viewid) leader in
  ret (MkBlock (b_header b) c (b_cert_hash b) (b_flags b) (Some q.1) (b_next_next_cert b)
         (b_input b) (b_output b)).

(** ** The timeout message *)

Definition enc_timeout (b : xvblock) : string := data_pack (write_u8 1 +:+ block_to_data b).
(** The block stays null unless the flag says there is one and it can be read. *)
Definition dec_timeout (s : string) : option xvblock :=
  data_unpack s ≫= fun body =>
  read_u8 body ≫= fun r => if r.1 =? 1 then data_to_block r.2 else None.

(** ** The account object, events from below *)

Definition pick_send_out (from to : xvip2) (packet : xcspdu) : TP unit := t_emit (TSendPdu from to packet).
Definition pick_on_pdu_event_up (to : xvip2) (packet : xcspdu) : TP unit :=
  let* local_xip := pick_get pk_addr in
  if is_xip2_equal broadcast_addr to
  then pick_send_out local_xip (set_node_id_to_xip2 local_xip 0x3FF) packet
  else pick_send_out local_xip to packet.

Definition set_cert_clock (v : Z) (k : xtimer_picker) : xtimer_picker := XTimerPicker (m_cur_view k) v (pk_addr k).
Definition pick_on_time_cert_event (tc_block : xvblock) : TP unit :=
  t_emit (TTimeCert tc_block) ;;;
  pick_mod (set_cert_clock (get_clock tc_block)) ;;;
  let* local_xip := pick_get pk_addr in
  let leader_xip := get_leader_xip (get_viewid tc_block) sys_drand_addr local_xip local_xip in
  if is_xip2_equal leader_xip local_xip then t_emit (TBroadcastBlock local_xip broadcast_addr tc_block) else ret tt.

(** ** Collecting votes *)

Definition merge_multi_sign (block : xvblock) (vs : list (xvip2 * string)) : xvblock * bool :=
  let b := set_block_flag (reset_block_flags (set_verify_signature block (merge_muti_sign_cert vs (b_cert block))))
             enum_xvblock_flag_authenticated in
  (b, verify_muti_sign_block b).

Definition add_vote (now : Z) (xip : xvip2) (model vote : xvblock) : TP unit :=
  let clock := get_clock model in
  if negb (is_validator2 (b_cert model) xip) then ret tt
  else
    let* added := in_cache (add_qcert now xip clock (c_verify_signature (b_cert vote))) in
    if negb added then ret tt
    else
      let* vs := in_cache (get_clock_votes clock) in
      if Z.of_nat (length vs) <? get_validator_threshold (b_cert model) then ret tt
      else
        let '(b, ok) := merge_multi_sign model vs in
        if negb ok then ret tt
        else
          pace_mod (set_latest_cert b) ;;;
          in_cache clear ;;;
          pick_on_time_cert_event b ;;;
          pace_mod (fun p => set_tp_calls (S (tp_calls p)) p).

Definition send_msg_for_block (msg_type : Z) (content : string) (nonce : Z) (to : xvip2) (clock chainid : Z) : TP unit :=
  pick_on_pdu_event_up to
    (XCspdu pdu_class_xbft msg_type nonce content chainid sys_drand_addr 0 clock 0 0 EmptyString EmptyString).

Definition on_timeout_stage2 (now rnd : Z) (vote : xvblock) : TP unit :=
  let* addr := pace_get tp_addr in
  let vote1 := set_verify_signature vote (do_sign_block addr vote rnd) in
  let* nonce := pace_get m_nonce in
  pace_mod (set_nonce_field (u16 (nonce + 1))) ;;;
  send_msg_for_block msg_type_timeout (enc_timeout vote1) (u16 (nonce + 1)) (target_xip addr)
    (get_clock vote1) (get_chainid vote1) ;;;
  add_vote now addr vote1 vote1.

(** The account object answered with the block of the tick. *)
Definition on_create_block_event (now rnd : Z) (xip : xvip2) (vote : option xvblock) (block : xvblock) (context_id : Z) : TP unit :=
  let* addr := pace_get tp_addr in
  let model := with_cert block (set_validator (b_cert block) (target_xip addr)) in
  if context_id =? PEER_TIMEOUT_TYPE then let* v := nonnull vote in add_vote now xip model v
  else if context_id =? LOCAL_TIMEOUT_TYPE then on_timeout_stage2 now rnd model
  else ret tt.
Definition tick_emptyblock (clock : Z) : xvblock :=
  let b := create_emptyblock xclock_account clock level_root clock clock in
  with_cert b (set_nonce (set_viewtoken (b_cert b) (u32 (-1))) (u64 (-1))).
Definition pick_on_create_block_event (now rnd : Z) (xip : xvip2) (vote : option xvblock) (clock context_id : Z) : TP unit :=
  on_create_block_event now rnd xip vote (tick_emptyblock clock) context_id.

(** ** A vote of another member *)

Definition behind_cert (clock : Z) (latest : option xvblock) : bool :=
  match latest with Some b => clock <=? get_clock b | None => false end.

(** When the message carries no block, the warning itself reads through the
    null pointer. *)
Definition on_receive_timeout (now : Z) (from : xvip2) (packet : xcspdu) : TP bool :=
  let clock := pdu_block_clock packet in
  let* latest := pace_get m_latest_cert in
  if behind_cert clock latest then ret true
  else if low_addr from =? 0 then ret true
  else
    let* block := nonnull (dec_timeout (pdu_body packet)) in
    if negb (get_clock block =? clock) || negb (get_viewid block =? clock) || negb (get_height block =? clock)
    then ret true
    else if negb (verify_sign_block from block) then ret true
    else pick_on_create_block_event now 0 from (Some block) clock PEER_TIMEOUT_TYPE ;;; ret true.

(** [true]: the packet stops here. *)
Definition pace_on_pdu_event_down (now : Z) (ev : xcspdu_fire) : TP (bool * xcspdu_fire) :=
  let* latest := pace_get m_latest_cert in
  let ev := match latest with Some b => with_fire (get_clock b) (get_clock b) ev | None => ev end in
  let packet := ev_packet ev in
  if pdu_msg_type packet =? msg_type_timeout
  then let* r := on_receive_timeout now (ev_from ev) packet in ret (r, ev)
  else ret (false, ev).

(** [xcsaccount_t::on_pdu_event_down]. *)
Definition with_to (to : xvip2) (ev : xcspdu_fire) : xcspdu_fire :=
  XCspduFire (ev_from ev) to (ev_packet ev) (ev_cookie ev) (ev_clock ev) (ev_vblock_cert ev) (ev_xclock_cert ev).
Definition account_on_pdu_event_down (ev : xcspdu_fire) : TP (bool * xcspdu_fire) :=
  if negb (bool_decide (pdu_account (ev_packet ev) = sys_drand_addr)) then ret (true, ev)
  else
    let* addr := pick_get pk_addr in
    (if pdu_msg_type (ev_packet ev) =? msg_type_proposal then t_emit TLatestDown else ret tt) ;;;
    ret (false, with_to addr ev).

(** A packet walks down until a layer stops it. *)
Definition recv_in (now : Z) (from to : xvip2) (packet : xcspdu) : TP bool :=
  let* r := account_on_pdu_event_down (XCspduFire from to packet 0 0 None None) in
  (if r.1 then ret tt
   else
     let* r' := pace_on_pdu_event_down now r.2 in
     if r'.1 then ret tt else t_emit (TPduDown r'.2)) ;;;
  ret true.

(** Packets that the election or the clock rules out are dropped. *)
Definition pick_valid (local : xvip2) (from : xvip2) (packet : xcspdu) : bool :=
  let type := pdu_msg_type packet in
  if (type =? msg_type_proposal) || (type =? msg_type_commit)
  then is_xip2_equal (get_leader_xip (pdu_viewid packet) sys_drand_addr local from) from
  else if type =? msg_type_vote
  then is_xip2_equal (get_leader_xip (pdu_viewid packet) sys_drand_addr local local) local
  else true.
Definition pick_recv_in (now : Z) (from to : xvip2) (packet : xcspdu) : TP bool :=
  let* local := pick_get pk_addr in
  if is_xip2_equal from local then ret true
  else
    let* cert_clock := pick_get m_latest_cert_clock in
    if (pdu_msg_type packet =? msg_type_timeout) && (pdu_block_clock packet <=? cert_clock) then ret false
    else if pick_valid local from packet then recv_in now from to packet
    else ret false.

(** ** The timer *)

Definition get_gmt_clock_second (gmt : Z) : Z := u64 (gmt - TOP_BEGIN_GMTIME).

(** [now], [gmt], [now']: what the system clock answers, in milliseconds when
    old votes are dropped, in seconds, and when the own vote is recorded. *)
Definition on_timeout (now gmt now' rnd : Z) : TP unit :=
  let* addr := pace_get tp_addr in
  if low_addr addr =? 0 then ret tt
  else
    in_cache (clear_timeout_clock now) ;;;
    let clock := get_gmt_clock_second gmt in
    let* last := pace_get m_last_send_time in
    if clock <? last then pace_mod (set_last_send_time clock)
    else if last / 10 =? clock / 10 then ret tt
    else
      pace_mod (set_last_send_time clock) ;;;
      let* latest := pace_get m_latest_cert in
      if behind_cert (clock / 10) latest then ret tt
      else pick_on_create_block_event now' rnd addr None (clock / 10) LOCAL_TIMEOUT_TYPE.
Definition on_timer_fire (now gmt now' rnd : Z) : TP unit :=
  let* started := pace_get tp_timer in
  if started then on_timeout now gmt now' rnd else ret tt.

(** ** The posted view update *)

Definition set_cur_view (v : Z) (k : xtimer_picker) : xtimer_picker := XTimerPicker v (m_latest_cert_clock k) (pk_addr k).
Definition pick_on_view_fire (viewid clock : Z) (prev : option (ptr * xvblock)) : TP unit :=
  let* cur := pick_get m_cur_view in
  if cur <? viewid then
    pick_mod (set_cur_view viewid) ;;;
    let* local := pick_get pk_addr in
    if is_xip2_equal (get_leader_xip viewid sys_drand_addr local local) local
    then let* b := make_block prev clock viewid local in t_emit (TProposalStart b)
    else ret tt
  else ret tt.
Definition timer_fire_view (viewid clock : Z) (prev : option (ptr * xvblock)) : TP unit :=
  t_emit (TViewDown viewid clock) ;;;
  pick_on_view_fire viewid clock prev.
(** The call reads the latest certificate when it runs. *)
Definition asyn_update_view (prev : option (ptr * xvblock)) : TP unit :=
  let* calls := pace_get tp_calls in
  match calls with
  | O => ret tt
  | S n =>
      pace_mod (set_tp_calls n) ;;;
      let* latest := pace_get m_latest_cert in
      let* b := nonnull latest in
      timer_fire_view (get_viewid b) (get_viewid b) prev
  end.

(** ** Addresses change *)

Definition pace_reset_xip_addr (a : xvip2) : TP unit :=
  pace_mod (set_tp_addr a) ;;;
  in_cache clear ;;;
  if negb (high_addr a =? 0) && negb (low_addr a =? 0) then pace_mod set_tp_timer else ret tt.
Definition reset_xip_addr (a : xvip2) : TP unit :=
  let* old := pick_get pk_addr in
  if is_xip2_equal a old then ret tt
  else
    pick_mod (fun k => XTimerPicker (m_cur_view k) (m_latest_cert_clock k) a) ;;;
    pace_reset_xip_addr a.

(** ** A proposal of this account is done *)

Definition pick_on_proposal_finish (error_code : Z) (target : xvblock) : TP unit :=
  let* xip := pick_get pk_addr in
  let is_leader := is_xip2_equal xip (c_validator (b_cert target)) || is_xip2_equal xip (c_auditor (b_cert target)) in
  if error_code =? enum_xconsensus_code_successful then
    (if is_leader then t_emit (TBroadcastBlock xip broadcast_addr target) else ret tt) ;;;
    t_emit (TChainTimer target)
  else ret tt.

(** ** Executions *)

Inductive timer_event :=
  | TEvTimer (now gmt now' rnd : Z)
  | TEvRecv (now : Z) (from to : xvip2) (packet : xcspdu)
  | TEvCall (prev : option (ptr * xvblock))
  | TEvReset (a : xvip2)
  | TEvFinish (error_code : Z) (target : xvblock).

Definition timer_handle (e : timer_event) : TP unit :=
  match e with
  | TEvTimer now gmt now' rnd => on_timer_fire now gmt now' rnd
  | TEvRecv now from to packet => pick_recv_in now from to packet ;;; ret tt
  | TEvCall prev => asyn_update_view prev
  | TEvReset a => reset_xip_addr a
  | TEvFinish error_code target => pick_on_proposal_finish error_code target
  end.
Definition timer_run (evs : list timer_event) : TP unit := for_each evs timer_handle.
End Timer.
