(* ===== verification/TimerInv.v ===== *)
(** * The invariant of the timer

    Executions of the timer are sequences of events ([timer_run]).  The
    invariant of the states they reach relates the vote cache and the latest
    certificate to the events handled so far: every cached signature is the
    vote of a validator for that tick, every certified tick had a quorum of
    them, and certified ticks increase. *)

From stdpp Require Import prelude gmap strings.
From Stdlib Require Import ZArith Lia Sorting.Sorted.
From S2P Require Import Prelude Stream StdMap VBlock Pdu Proposal BFTState Pacemaker VoteCache TimerPace.

(** What the headers document of the setters: each one sets its own field. *)
Class XTimerLaws `{XVCert} `{XVBlock} `{XTimerBase} : Prop := {
  set_clock_clock : forall c v, c_clock (set_clock c v) = v;
  set_viewid_clock : forall c v, c_clock (set_viewid c v) = c_clock c;
  set_nonce_clock : forall c v, c_clock (set_nonce c v) = c_clock c;
  set_viewtoken_clock : forall c v, c_clock (set_viewtoken c v) = c_clock c;
  set_validator_clock : forall c v, c_clock (set_validator c v) = c_clock c;
  new_vblock_clock : forall h c, get_clock (new_vblock h c) = c_clock c;
  set_flag_clock : forall b f, get_clock (set_block_flag b f) = get_clock b;
  reset_flags_clock : forall b, get_clock (reset_block_flags b) = get_clock b;
  set_verify_clock : forall b s, get_clock (set_verify_signature b s) = get_clock b
}.

(** The certified ticks, oldest first. *)
Definition time_cert_of (o : timer_out) : option xvblock := match o with TTimeCert b => Some b | _ => None end.
Definition time_certs (out : list timer_out) : list xvblock := omap time_cert_of out.

Section TimerInv.
Context `{XVCert} `{XVBlock} `{XCertAuth} `{XCodec} `{XTimerBase} `{XElection}.

(** The block of a tick as a member at [addr] builds it, and as it signs it. *)
Definition tick_block (addr : xvip2) (k : Z) : xvblock :=
  with_cert (tick_emptyblock k) (set_validator (b_cert (tick_emptyblock k)) (target_xip addr)).
Definition own_vote (addr : xvip2) (k rnd : Z) : xvblock :=
  set_verify_signature (tick_block addr k) (do_sign_block addr (tick_block addr k) rnd).
Definition is_tick (addr : xvip2) (k : Z) (b : xvblock) : Prop :=
  b = tick_block addr k \/ exists rnd, b = own_vote addr k rnd.

(** [x] signed the tick [k]: a packet of [x] brought a block of that tick with
    a signature of [x] that verifies, or it is the own vote. *)
Definition peer_voted (evs : list timer_event) (k : Z) (x : xvip2) (sig : string) : Prop :=
  exists now to packet b,
    TEvRecv now x to packet ∈ evs /\ pdu_msg_type packet = msg_type_timeout /\ pdu_block_clock packet = k /\
    dec_timeout (pdu_body packet) = Some b /\ get_clock b = k /\ get_viewid b = k /\ get_height b = k /\
    verify_sign_block x b = true /\ sig = c_verify_signature (b_cert b).
Definition self_voted (evs : list timer_event) (addr : xvip2) (k : Z) (x : xvip2) (sig : string) : Prop :=
  x = addr /\ exists now gmt now' rnd,
    TEvTimer now gmt now' rnd ∈ evs /\ k = get_gmt_clock_second gmt / 10 /\
    sig = c_verify_signature (b_cert (own_vote addr k rnd)).
Definition voted (evs : list timer_event) (addr : xvip2) (k : Z) (x : xvip2) (sig : string) : Prop :=
  (exists b, is_tick addr k b /\ is_validator2 (b_cert b) x = true) /\
  (peer_voted evs k x sig \/ self_voted evs addr k x sig).

(** The block [b] was certified with the signatures of a quorum. *)
Definition certified (evs : list timer_event) (b : xvblock) : Prop :=
  exists addr model vs,
    b = (merge_multi_sign model vs).1 /\ verify_muti_sign_block b = true /\
    is_tick addr (get_clock b) model /\
    get_validator_threshold (b_cert model) <= Z.of_nat (length vs) /\ NoDup vs.*1 /\
    forall x sig, (x, sig) ∈ vs -> voted evs addr (get_clock b) x sig.

Record timer_inv (evs : list timer_event) (s : xtimer) : Prop := {
  ti_addr : pk_addr (t_pick s) = tp_addr (t_pace s);
  ti_cache : cache_ok (m_vote_cache (t_pace s));
  ti_votes : forall k v x sig,
    map_find k (m_clock_votes (m_vote_cache (t_pace s))) = Some v -> map_find x (validators v) = Some sig ->
    voted evs (tp_addr (t_pace s)) k x sig;
  ti_calls : m_latest_cert (t_pace s) = None -> tp_calls (t_pace s) = 0%nat;
  ti_latest : m_latest_cert (t_pace s) = last (time_certs (t_out s));
  ti_pick : forall b, m_latest_cert (t_pace s) = Some b -> m_latest_cert_clock (t_pick s) = get_clock b;
  ti_order : StronglySorted (fun b b' => get_clock b < get_clock b') (time_certs (t_out s));
  ti_certified : forall b, b ∈ time_certs (t_out s) -> certified evs b
}.

Lemma timer_inv_init addr v c : timer_inv [] (new_timer addr v c).
Proof. split; cbn; try done; [apply cache_ok_empty|constructor|]. by intros b ?%elem_of_nil. Qed.

Lemma voted_mono evs evs' addr k x sig : evs ⊆ evs' -> voted evs addr k x sig -> voted evs' addr k x sig.
Proof.
  intros Hs [Hv [(now & to & packet & b & Hin & Hr)|(E & now & gmt & now' & rnd & Hin & Hr)]]; split; try done.
  - left. exists now, to, packet, b. split; [by apply Hs|done].
  - right. split; [done|]. exists now, gmt, now', rnd. split; [by apply Hs|done].
Qed.
Lemma certified_mono evs evs' b : evs ⊆ evs' -> certified evs b -> certified evs' b.
Proof.
  intros Hs (addr & model & vs & E & Hm & Ht & Hth & Hnd & Hv). exists addr, model, vs.
  split_and!; try done. intros x sig Hin. eapply voted_mono; eauto.
Qed.
Lemma timer_inv_mono evs evs' s : evs ⊆ evs' -> timer_inv evs s -> timer_inv evs' s.
Proof.
  intros Hs [Ha Hc Hv Hcl Hl Hp Ho Hce]. split; try done.
  - intros. eapply voted_mono; eauto.
  - intros. eapply certified_mono; eauto.
Qed.

(** The invariant reads only part of the state. *)
Lemma timer_inv_same evs s s' :
  m_vote_cache (t_pace s') = m_vote_cache (t_pace s) -> m_latest_cert (t_pace s') = m_latest_cert (t_pace s) ->
  tp_addr (t_pace s') = tp_addr (t_pace s) -> (tp_calls (t_pace s') <= tp_calls (t_pace s))%nat ->
  pk_addr (t_pick s') = pk_addr (t_pick s) -> m_latest_cert_clock (t_pick s') = m_latest_cert_clock (t_pick s) ->
  time_certs (t_out s') = time_certs (t_out s) -> timer_inv evs s -> timer_inv evs s'.
Proof.
  intros Ec El Ea Eca Ep Ek Eo [Ha Hc Hv Hcl Hl Hp Ho Hce]. split; rewrite ?Ec, ?El, ?Ea, ?Ep, ?Ek, ?Eo; try done.
  intros E. specialize (Hcl E). lia.
Qed.

Lemma time_certs_snoc out o : time_certs (out ++ [o]) = time_certs out ++ option_list (time_cert_of o).
Proof. unfold time_certs. rewrite omap_app. cbn. by destruct (time_cert_of o). Qed.
Lemma time_certs_other out o : time_cert_of o = None -> time_certs (out ++ [o]) = time_certs out.
Proof. intros E. rewrite time_certs_snoc, E. apply app_nil_r. Qed.

(** Dropping votes keeps the invariant. *)
Lemma timer_inv_cache evs s c :
  timer_inv evs s -> cache_ok c ->
  (forall k v, map_find k (m_clock_votes c) = Some v -> map_find k (m_clock_votes (m_vote_cache (t_pace s))) = Some v) ->
  timer_inv evs (XTimer (set_cache c (t_pace s)) (t_pick s) (t_out s)).
Proof. intros [Ha Hc Hv Hcl Hl Hp Ho Hce] Hok Hsub. split; cbn; try done. eauto. Qed.

Lemma map_find_filter {V} (f : Z * V -> bool) k v (m : list (Z * V)) :
  key_sorted m -> map_find k (List.filter f m) = Some v -> map_find k m = Some v.
Proof.
  intros Hs E. apply map_find_in; [done|]. apply map_find_Some_in, list_elem_of_In, List.filter_In in E as [E _].
  by apply list_elem_of_In.
Qed.

Lemma clear_timeout_inv evs now s u :
  timer_inv evs s ->
  wpu u (in_cache (clear_timeout_clock now))
    (fun _ s' => timer_inv evs s' /\ exists c, s' = XTimer (set_cache c (t_pace s)) (t_pick s) (t_out s)) s.
Proof.
  intros Hi. destruct (clear_timeout_clock_ok now _ (ti_cache _ _ Hi)) as (c & E & Hok & Ev).
  unfold wpu, in_cache. rewrite E. split; [|eauto]. apply timer_inv_cache; [done|done|].
  intros k v. rewrite Ev. apply map_find_filter, Hi.
Qed.

(** ** Ticks *)

Context `{!XTimerLaws}.

Lemma create_blockcert_clock k : c_clock (create_blockcert k k k) = k.
Proof.
  unfold create_blockcert, new_blockcert. destruct (Z.eqb_spec k 0) as [->|]; cbn.
  - by rewrite set_validator_clock, set_viewtoken_clock, set_viewid_clock, set_clock_clock.
  - by rewrite set_clock_clock.
Qed.
Lemma new_xblock_clock h c : get_clock (new_xblock h c) = c_clock c.
Proof. unfold new_xblock. destruct (_ =? 0); cbn; by rewrite ?set_flag_clock, new_vblock_clock. Qed.
Lemma tick_block_clock addr k : get_clock (tick_block addr k) = k.
Proof.
  unfold tick_block, tick_emptyblock, get_clock. cbn.
  rewrite set_validator_clock, set_nonce_clock, set_viewtoken_clock.
  unfold create_emptyblock, create_emptyblock_full. fold (get_clock (new_xblock (XVHeader level_root rootblock_chainid k xclock_account rootblock_hash) (create_blockcert k k k))).
  by rewrite new_xblock_clock, create_blockcert_clock.
Qed.
Lemma own_vote_clock addr k rnd : get_clock (own_vote addr k rnd) = k.
Proof. unfold own_vote. by rewrite set_verify_clock, tick_block_clock. Qed.
Lemma is_tick_clock addr k b : is_tick addr k b -> get_clock b = k.
Proof. intros [->|[rnd ->]]; [apply tick_block_clock|apply own_vote_clock]. Qed.
Lemma merge_clock model vs : get_clock (merge_multi_sign model vs).1 = get_clock model.
Proof. cbn. by rewrite set_flag_clock, reset_flags_clock, set_verify_clock. Qed.

(** ** Collecting a vote *)

Lemma sorted_snoc (b : xvblock) l :
  StronglySorted (fun b b' => get_clock b < get_clock b') l ->
  (forall b', last l = Some b' -> get_clock b' < get_clock b) ->
  StronglySorted (fun b b' => get_clock b < get_clock b') (l ++ [b]).
Proof.
  induction 1 as [|b0 l Hs IH Hf]; intros Hl; cbn; [repeat constructor|].
  constructor.
  - apply IH. intros b' E. apply Hl. destruct l; [done|]. exact E.
  - apply Forall_app. split; [done|]. constructor; [|constructor].
    destruct (last l) as [b'|] eqn:E.
    + assert (get_clock b' < get_clock b) by (apply Hl; destruct l; [done|exact E]).
      apply last_Some in E as [l' ->]. rewrite Forall_app in Hf. destruct Hf as [_ Hf]. inversion_clear Hf. lia.
    + apply last_None in E as ->. by apply Hl.
Qed.

(** The state after a tick was certified. *)
Definition after_cert (b : xvblock) (s : xtimer) : xtimer :=
  let pace := t_pace s in
  let local := pk_addr (t_pick s) in
  XTimer (set_tp_calls (S (tp_calls pace)) (set_cache (XVoteCache [] []) (set_latest_cert b pace)))
    (set_cert_clock (get_clock b) (t_pick s))
    ((t_out s ++ [TTimeCert b]) ++
       (if is_xip2_equal (get_leader_xip (get_viewid b) sys_drand_addr local local) local
        then [TBroadcastBlock local broadcast_addr b] else [])).

Lemma after_cert_certs b s : time_certs (t_out (after_cert b s)) = time_certs (t_out s) ++ [b].
Proof.
  cbn. destruct (is_xip2_equal _ _); [rewrite time_certs_other by done|rewrite app_nil_r]; by rewrite time_certs_snoc.
Qed.

Lemma after_cert_inv evs b s :
  timer_inv evs s -> behind_cert (get_clock b) (m_latest_cert (t_pace s)) = false -> certified evs b ->
  timer_inv evs (after_cert b s).
Proof.
  intros [Ha Hc Hv Hcl Hl Hp Ho Hce] Hb Hcert.
  split; rewrite ?after_cert_certs; cbn [after_cert t_pace t_pick t_out]; cbn.
  - done.
  - apply cache_ok_empty.
  - done.
  - done.
  - by rewrite last_snoc.
  - by intros ? [= ->].
  - apply sorted_snoc; [done|]. intros b' E. rewrite Hl, E in Hb. cbn in Hb. guards. lia.
  - intros b' [Hin| ->%list_elem_of_singleton]%elem_of_app; auto.
Qed.

(** [add_vote], branch by branch. *)
Inductive vote_result (now : Z) (x : xvip2) (model vote : xvblock) (s : xtimer) : xtimer -> Prop :=
  | VoteIgnored :
      is_validator2 (b_cert model) x = false \/ check (m_vote_cache (t_pace s)) x (get_clock model) = false ->
      vote_result now x model vote s s
  | VoteKept c v :
      is_validator2 (b_cert model) x = true ->
      add_qcert now x (get_clock model) (c_verify_signature (b_cert vote)) (m_vote_cache (t_pace s)) = Some (true, c) ->
      map_find (get_clock model) (m_clock_votes c) = Some v ->
      Z.of_nat (length (validators v)) < get_validator_threshold (b_cert model) \/
      verify_muti_sign_block (merge_multi_sign model (validators v)).1 = false ->
      vote_result now x model vote s (XTimer (set_cache c (t_pace s)) (t_pick s) (t_out s))
  | VoteCertifies c v :
      is_validator2 (b_cert model) x = true ->
      add_qcert now x (get_clock model) (c_verify_signature (b_cert vote)) (m_vote_cache (t_pace s)) = Some (true, c) ->
      map_find (get_clock model) (m_clock_votes c) = Some v ->
      get_validator_threshold (b_cert model) <= Z.of_nat (length (validators v)) ->
      verify_muti_sign_block (merge_multi_sign model (validators v)).1 = true ->
      vote_result now x model vote s (after_cert (merge_multi_sign model (validators v)).1 s).

Lemma add_to_votes_find now x k sig m : exists v,
  map_find k (add_to_votes now x k sig m) = Some v /\ map_find x (validators v) = Some sig.
Proof.
  unfold add_to_votes. destruct (map_find k m); rewrite map_find_set_eq; eexists; (split; [done|]);
    cbn [validators]; apply map_find_set_eq.
Qed.

Lemma add_to_votes_inv now x k sig m j v y sg :
  map_find j (add_to_votes now x k sig m) = Some v -> map_find y (validators v) = Some sg ->
  (j = k /\ y = x /\ sg = sig) \/ exists v0, map_find j m = Some v0 /\ map_find y (validators v0) = Some sg.
Proof.
  unfold add_to_votes. destruct (decide (j = k)) as [->|Hne].
  - destruct (map_find k m) as [v0|] eqn:E0; rewrite map_find_set_eq; intros [= <-]; cbn.
    + destruct (decide (y = x)) as [->|Hy]; [rewrite map_find_set_eq; intros [= ->]; auto|].
      rewrite map_find_set_ne by done. eauto.
    + destruct (decide (y = x)) as [->|Hy]; [intros [= ->]; auto|done].
  - destruct (map_find k m); rewrite map_find_set_ne by done; eauto.
Qed.

Lemma add_vote_result now x model vote s :
  cache_ok (m_vote_cache (t_pace s)) ->
  exists s', add_vote now x model vote s = Some (tt, s') /\ vote_result now x model vote s s'.
Proof.
  intros Hok. unfold add_vote. destruct (is_validator2 (b_cert model) x) eqn:Ev; [|eexists; split; [done|by apply VoteIgnored; left]].
  cbn [negb]. unfold bind at 1. unfold in_cache at 1.
  destruct (check (m_vote_cache (t_pace s)) x (get_clock model)) eqn:Ec.
  - destruct (add_qcert_ok now x (get_clock model) (c_verify_signature (b_cert vote)) _ Hok Ec) as (c & Ea & Hok' & Evotes & _).
    rewrite Ea. cbn [negb]. destruct (add_to_votes_find now x (get_clock model) (c_verify_signature (b_cert vote))
      (m_clock_votes (m_vote_cache (t_pace s)))) as (v & Hv & _). rewrite <- Evotes in Hv.
    unfold bind at 1. unfold in_cache at 1. cbn [t_pace m_vote_cache set_cache].
    unfold get_clock_votes, bind at 1, get. rewrite Hv. cbn [bind nonnull ret].
    destruct (Z.ltb_spec (Z.of_nat (length (validators v))) (get_validator_threshold (b_cert model))) as [Hlt|Hge].
    + eexists. split; [reflexivity|]. exact (VoteKept now x model vote s c v Ev Ea Hv (or_introl Hlt)).
    + destruct (verify_muti_sign_block (merge_multi_sign model (validators v)).1) eqn:Em; cbn in Em |- *; rewrite Em; cbn.
      * eexists. split; [|by eapply VoteCertifies].
        unfold bind, pace_mod, in_cache, clear, modify, pick_on_time_cert_event, t_emit, pick_mod, pick_get, gets, bind, ret.
        cbn. unfold after_cert. destruct (is_xip2_equal _ _); [done|]. by rewrite app_nil_r.
      * eexists. split; [reflexivity|]. exact (VoteKept now x model vote s c v Ev Ea Hv (or_intror Em)).
  - rewrite add_qcert_refused by done. eexists. split; [done|].
    destruct s as [[] ? ?]. by apply VoteIgnored; right.
Qed.

Lemma vote_kept_inv evs now x model vote s c :
  timer_inv evs s -> is_validator2 (b_cert model) x = true ->
  voted evs (tp_addr (t_pace s)) (get_clock model) x (c_verify_signature (b_cert vote)) ->
  add_qcert now x (get_clock model) (c_verify_signature (b_cert vote)) (m_vote_cache (t_pace s)) = Some (true, c) ->
  timer_inv evs (XTimer (set_cache c (t_pace s)) (t_pick s) (t_out s)).
Proof.
  intros [Ha Hc Hv Hcl Hl Hp Ho Hce] Hval Hvote E.
  destruct (check (m_vote_cache (t_pace s)) x (get_clock model)) eqn:Ec; [|by rewrite add_qcert_refused in E].
  destruct (add_qcert_ok now x (get_clock model) (c_verify_signature (b_cert vote)) _ Hc Ec) as (c' & E' & Hok & Evs & _).
  rewrite E in E'. injection E' as <-. split; cbn; try done.
  intros k v y sig Hk Hy. rewrite Evs in Hk.
  destruct (add_to_votes_inv _ _ _ _ _ _ _ _ _ Hk Hy) as [(-> & -> & ->)|(v0 & Hk0 & Hy0)]; [done|]. by eapply Hv.
Qed.

Lemma add_vote_inv evs now x model vote s :
  timer_inv evs s -> is_tick (tp_addr (t_pace s)) (get_clock model) model ->
  behind_cert (get_clock model) (m_latest_cert (t_pace s)) = false ->
  (is_validator2 (b_cert model) x = true ->
   voted evs (tp_addr (t_pace s)) (get_clock model) x (c_verify_signature (b_cert vote))) ->
  wp (add_vote now x model vote) (fun _ s' => timer_inv evs s') s.
Proof.
  intros Hi Ht Hb Hvote. destruct (add_vote_result now x model vote s (ti_cache _ _ Hi)) as (s' & E & Hr).
  unfold wpu. rewrite E. destruct Hr as [|c v Hval Ea|c v Hval Ea Ev Hth Hm]; [done|by eapply vote_kept_inv; eauto|].
  apply after_cert_inv; [done|by rewrite merge_clock|].
  pose proof (vote_kept_inv evs now x model vote s c Hi Hval (Hvote Hval) Ea) as Hi'.
  exists (tp_addr (t_pace s)), model, (validators v). rewrite merge_clock. split_and!; try done.
  - apply key_sorted_nodup. by eapply (cs_validators _ (co_shape _ (ti_cache _ _ Hi'))).
  - intros y sig Hin. apply (ti_votes _ _ Hi' _ v); [done|]. cbn. apply map_find_in; [|done].
    by eapply (cs_validators _ (co_shape _ (ti_cache _ _ Hi'))).
Qed.
End TimerInv.
