(* ===== verification/TimerSteps.v ===== *)
(** * What the timer does

    Every event keeps the invariant of [TimerInv]; which events are undefined
    is characterised exactly; and a tick that enough validators sign is
    certified. *)

From stdpp Require Import prelude gmap strings.
From Stdlib Require Import ZArith Lia Sorting.Sorted.
From S2P Require Import Prelude Stream StdMap VBlock Pdu Proposal BFTState Pacemaker VoteCache TimerPace TimerInv.

Section TimerSteps.
Context `{XVCert} `{XVBlock} `{XCertAuth} `{XCodec} `{XTimerBase} `{XElection} `{!XTimerLaws}.

(** ** Events whose handling is undefined *)

(** A timeout packet for this account, of a tick that is not certified yet,
    whose body holds no block; or this node leads a new view and the block
    store has no block to extend. *)
Definition crashes (e : timer_event) (s : xtimer) : Prop :=
  match e with
  | TEvRecv now from to packet =>
      from <> pk_addr (t_pick s) /\ low_addr from <> 0 /\
      pdu_msg_type packet = msg_type_timeout /\ pdu_account packet = sys_drand_addr /\
      m_latest_cert_clock (t_pick s) < pdu_block_clock packet /\ dec_timeout (pdu_body packet) = None
  | TEvCall prev =>
      prev = None /\ tp_calls (t_pace s) <> 0%nat /\
      exists b, m_latest_cert (t_pace s) = Some b /\ m_cur_view (t_pick s) < get_viewid b /\
        get_leader_xip (get_viewid b) sys_drand_addr (pk_addr (t_pick s)) (pk_addr (t_pick s)) = pk_addr (t_pick s)
  | _ => False
  end.

Lemma timer_inv_emit evs o s :
  time_cert_of o = None -> timer_inv evs s -> timer_inv evs (XTimer (t_pace s) (t_pick s) (t_out s ++ [o])).
Proof. intros Ho. apply timer_inv_same; try done. by apply time_certs_other. Qed.
Hint Resolve timer_inv_emit : core.

Lemma not_behind evs s k :
  timer_inv evs s -> m_latest_cert_clock (t_pick s) < k -> behind_cert k (m_latest_cert (t_pace s)) = false.
Proof.
  intros Hi Hk. destruct (m_latest_cert (t_pace s)) as [b|] eqn:E; [|done]. cbn.
  rewrite <- (ti_pick _ _ Hi _ E). guards. lia.
Qed.

(** ** Votes of the others *)

Lemma on_receive_timeout_inv evs now from to packet s :
  timer_inv evs s -> TEvRecv now from to packet ∈ evs -> pdu_msg_type packet = msg_type_timeout ->
  wpu (low_addr from <> 0 /\ dec_timeout (pdu_body packet) = None)
    (on_receive_timeout now from packet) (fun r s' => r = true /\ timer_inv evs s') s.
Proof.
  intros Hi Hin Ht. unfold on_receive_timeout. apply wpu_bind. red. cbn [pace_get gets].
  destruct (behind_cert _ _) eqn:Eb; [done|]. destruct (Z.eqb_spec (low_addr from) 0) as [|Hlow]; [done|].
  apply wpu_bind. destruct (dec_timeout (pdu_body packet)) as [b|] eqn:Ed; [|by apply wpu_ub]. red. cbn [nonnull ret].
  destruct (negb _ || negb _ || negb _) eqn:Ec; [done|]. guards. destruct Ec as [[Ec Ev] Eh].
  destruct (verify_sign_block from b) eqn:Es; [|done]. cbn [negb]. apply wpu_bind.
  unfold pick_on_create_block_event, on_create_block_event. apply wpu_bind. red. cbn [pace_get gets].
  rewrite Z.eqb_refl. apply wpu_bind. red. cbn [nonnull ret].
  change (with_cert _ _) with (tick_block (tp_addr (t_pace s)) (pdu_block_clock packet)).
  set (model := tick_block _ _). assert (Ek : get_clock model = pdu_block_clock packet) by apply tick_block_clock.
  apply wp_wpu. eapply wpu_mono; [apply (add_vote_inv evs); try done|].
  - rewrite Ek. by left.
  - by rewrite Ek.
  - intros Hval. rewrite Ek. split; [exists model; split; [by left|done]|]. left. exists now, to, packet, b. done.
  - intros [] s' Hi'. by split.
Qed.

Lemma recv_in_inv evs now from to packet s :
  timer_inv evs s -> TEvRecv now from to packet ∈ evs ->
  wpu (low_addr from <> 0 /\ pdu_msg_type packet = msg_type_timeout /\ pdu_account packet = sys_drand_addr /\
       dec_timeout (pdu_body packet) = None)
    (recv_in now from to packet) (fun _ s' => timer_inv evs s') s.
Proof.
  intros Hi Hin. unfold recv_in, account_on_pdu_event_down. cbn [ev_packet].
  apply wpu_bind. destruct (bool_decide_reflect (pdu_account packet = sys_drand_addr)) as [Ea|]; [|done]. cbn [negb].
  apply wpu_bind. red. cbn [pick_get gets]. apply wpu_bind.
  set (pushed := if _ =? msg_type_proposal then _ else _).
  assert (Hp : wp pushed (fun _ s' => timer_inv evs s') s).
  { subst pushed. destruct (_ =? _); red; cbn; [by apply timer_inv_emit|done]. }
  apply wp_wpu. eapply wpu_mono; [exact Hp|]. clear Hp pushed. intros [] s1 Hi1. red. cbn [ret fst snd].
  apply wpu_bind, wpu_bind. unfold pace_on_pdu_event_down. apply wpu_bind. red. cbn [pace_get gets].
  set (ev := match _ with Some _ => _ | None => _ end).
  assert (Ep : ev_packet ev = packet) by (subst ev; by destruct (m_latest_cert _)).
  assert (Ef : ev_from ev = from) by (subst ev; by destruct (m_latest_cert _)).
  rewrite Ep, Ef. destruct (Z.eqb_spec (pdu_msg_type packet) msg_type_timeout) as [Et|]; [|red; cbn; by apply timer_inv_emit].
  apply wpu_bind. eapply wpu_mono'; [|by apply (on_receive_timeout_inv evs now from to)|]; [tauto|].
  intros r s' [-> Hi']. done.
Qed.

Lemma pick_recv_in_inv evs now from to packet s :
  timer_inv evs s -> TEvRecv now from to packet ∈ evs ->
  wpu (crashes (TEvRecv now from to packet) s) (pick_recv_in now from to packet) (fun _ s' => timer_inv evs s') s.
Proof.
  intros Hi Hin. unfold pick_recv_in. apply wpu_bind. red. cbn [pick_get gets].
  destruct (is_xip2_equal from (pk_addr (t_pick s))) eqn:Ex; [done|].
  apply wpu_bind. red. cbn [pick_get gets].
  destruct (_ && _) eqn:Et; [done|]. destruct (pick_valid _ _ _); [|done].
  eapply wpu_mono'; [|by apply (recv_in_inv evs)|done].
  intros (Hlow & Hty & Hacc & Hd). cbn. split_and!; try done.
  - intros E. apply is_xip2_equal_spec in E. congruence.
  - rewrite Hty, Z.eqb_refl in Et. cbn in Et. guards. lia.
Qed.

(** ** The own vote *)

Lemma on_timeout_stage2_inv evs now gmt now' rnd s :
  timer_inv evs s -> TEvTimer now gmt now' rnd ∈ evs ->
  behind_cert (get_gmt_clock_second gmt / 10) (m_latest_cert (t_pace s)) = false ->
  wp (on_timeout_stage2 now' rnd (tick_block (tp_addr (t_pace s)) (get_gmt_clock_second gmt / 10)))
    (fun _ s' => timer_inv evs s') s.
Proof.
  intros Hi Hin Hb. unfold on_timeout_stage2. set (k := get_gmt_clock_second gmt / 10) in *.
  set (addr := tp_addr (t_pace s)) in *.
  apply wpu_bind. red. cbn [pace_get gets]. apply wpu_bind. red. cbn [pace_get gets].
  apply wpu_bind. red. cbn [pace_mod modify]. apply wpu_bind.
  unfold send_msg_for_block, pick_on_pdu_event_up. apply wpu_bind. red. cbn [pick_get gets].
  fold addr. change (set_verify_signature _ _) with (own_vote addr k rnd).
  set (s1 := XTimer _ _ _).
  assert (Hi1 : timer_inv evs s1) by by apply (timer_inv_same _ s).
  set (sent := if is_xip2_equal _ _ then _ else _).
  assert (Hs : wp sent (fun _ s' => timer_inv evs s' /\ t_pace s' = t_pace s1) s1).
  { subst sent. destruct (is_xip2_equal _ _); red; cbn; (split; [|done]); by apply (timer_inv_emit _ _ s1). }
  eapply wpu_mono; [exact Hs|]. intros [] s2 [Hi2 Ep].
  assert (Ea : tp_addr (t_pace s2) = addr) by by rewrite Ep.
  apply (add_vote_inv evs); rewrite ?own_vote_clock, ?Ea; try done.
  - right. by exists rnd.
  - by rewrite Ep.
  - intros Hval. split; [exists (own_vote addr k rnd); split; [right; by exists rnd|done]|]. right.
    split; [done|]. by exists now, gmt, now', rnd.
Qed.

Lemma on_timer_fire_inv evs now gmt now' rnd s :
  timer_inv evs s -> TEvTimer now gmt now' rnd ∈ evs ->
  wp (on_timer_fire now gmt now' rnd) (fun _ s' => timer_inv evs s') s.
Proof.
  intros Hi Hin. unfold on_timer_fire. apply wpu_bind. red. cbn [pace_get gets].
  destruct (tp_timer _); [|done]. unfold on_timeout. apply wpu_bind. red. cbn [pace_get gets].
  destruct (_ =? 0); [done|]. apply wpu_bind.
  eapply wpu_mono; [by apply (clear_timeout_inv evs)|]. intros [] s1 [Hi1 [c ->]].
  set (s1 := XTimer (set_cache c _) _ _) in *.
  apply wpu_bind. red. cbn [pace_get gets].
  destruct (_ <? _); [red; cbn; by apply (timer_inv_same _ s1)|]. destruct (_ =? _); [done|].
  apply wpu_bind. red. cbn [pace_mod modify]. apply wpu_bind. red. cbn [pace_get gets].
  destruct (behind_cert _ _) eqn:Eb; [by apply (timer_inv_same _ s1)|].
  unfold pick_on_create_block_event, on_create_block_event. apply wpu_bind. red. cbn [pace_get gets].
  change (LOCAL_TIMEOUT_TYPE =? PEER_TIMEOUT_TYPE) with false. cbn [Z.eqb LOCAL_TIMEOUT_TYPE].
  apply (on_timeout_stage2_inv _ now); [|done|done]. by apply (timer_inv_same _ s1).
Qed.

(** ** The other events *)

Lemma asyn_update_view_inv evs prev s :
  timer_inv evs s -> wpu (crashes (TEvCall prev) s) (asyn_update_view prev) (fun _ s' => timer_inv evs s') s.
Proof.
  intros Hi. unfold asyn_update_view. apply wpu_bind. red. cbn [pace_get gets].
  destruct (tp_calls (t_pace s)) as [|n] eqn:En; [done|]. apply wpu_bind. red. cbn [pace_mod modify].
  apply wpu_bind. red. cbn [pace_get gets]. apply wpu_bind.
  destruct (m_latest_cert (t_pace s)) as [b|] eqn:El; cbn [m_latest_cert set_tp_calls t_pace]; rewrite El.
  2:{ pose proof (ti_calls _ _ Hi El). congruence. }
  red. cbn [nonnull ret]. unfold timer_fire_view. apply wpu_bind. red. cbn [t_emit modify].
  set (s1 := XTimer _ _ _). assert (Hi1 : timer_inv evs s1).
  { apply (timer_inv_same _ s); try done; [cbn; lia|]. by apply time_certs_other. }
  unfold pick_on_view_fire. apply wpu_bind. red. cbn [pick_get gets].
  destruct (Z.ltb_spec (m_cur_view (t_pick s1)) (get_viewid b)) as [Hlt|]; [|done].
  apply wpu_bind. red. cbn [pick_mod modify]. apply wpu_bind. red. cbn [pick_get gets].
  destruct (is_xip2_equal _ _) eqn:Ex; [|by apply (timer_inv_same _ s1)].
  apply wpu_bind. unfold make_block. apply wpu_bind. destruct prev as [[q pb]|].
  - unfold wpu. cbn. apply (timer_inv_same _ s1); try done. by apply time_certs_other.
  - apply wpu_ub. apply is_xip2_equal_spec in Ex. cbn. split_and!; [done|congruence|]. exists b. done.
Qed.

Lemma reset_xip_addr_inv evs a s : timer_inv evs s -> wp (reset_xip_addr a) (fun _ s' => timer_inv evs s') s.
Proof.
  intros Hi. unfold reset_xip_addr, pace_reset_xip_addr. apply wpu_bind. red. cbn [pick_get gets].
  destruct (is_xip2_equal _ _); [done|]. unfold wpu, pick_mod, pace_mod, in_cache, clear, modify, bind. cbn.
  destruct Hi as [Ha Hc Hv Hcl Hl Hp Ho Hce].
  destruct (_ && _); split; cbn; try done; apply cache_ok_empty.
Qed.

Lemma pick_on_proposal_finish_inv evs code target s :
  timer_inv evs s -> wp (pick_on_proposal_finish code target) (fun _ s' => timer_inv evs s') s.
Proof.
  intros Hi. unfold pick_on_proposal_finish. apply wpu_bind. red. cbn [pick_get gets].
  destruct (_ =? _); [|done]. apply wpu_bind. destruct (_ || _); red; cbn.
  - apply (timer_inv_emit _ _ (XTimer (t_pace s) (t_pick s) (t_out s ++ [_]))); [done|]. by apply timer_inv_emit.
  - by apply timer_inv_emit.
Qed.

Lemma timer_handle_inv evs e s :
  timer_inv evs s -> wpu (crashes e s) (timer_handle e) (fun _ s' => timer_inv (evs ++ [e]) s') s.
Proof.
  intros Hi. assert (Hi' : timer_inv (evs ++ [e]) s) by (eapply timer_inv_mono; [|done]; set_solver).
  assert (Hin : e ∈ evs ++ [e]) by set_solver. destruct e as [now gmt now' rnd|now from to packet|prev|a|code target]; cbn [timer_handle].
  - by apply wp_wpu, on_timer_fire_inv.
  - apply wpu_bind. eapply wpu_mono; [by eapply pick_recv_in_inv|]. done.
  - by apply asyn_update_view_inv.
  - by apply wp_wpu, reset_xip_addr_inv.
  - by apply wp_wpu, pick_on_proposal_finish_inv.
Qed.

Lemma timer_run_inv evs0 evs s s' :
  timer_inv evs0 s -> timer_run evs s = Some (tt, s') -> timer_inv (evs0 ++ evs) s'.
Proof.
  revert evs0 s. induction evs as [|e evs IH]; intros evs0 s Hi; cbn.
  - intros [= <-]. by rewrite app_nil_r.
  - unfold timer_run. cbn. unfold bind. pose proof (timer_handle_inv evs0 e s Hi) as Hh. unfold wpu in Hh.
    destruct (timer_handle e s) as [[[] s1]|]; [|done]. intros E.
    replace (evs0 ++ e :: evs) with ((evs0 ++ [e]) ++ evs) by by rewrite <- app_assoc. by eapply IH.
Qed.

(** An execution from a fresh pair of objects. *)
Definition timer_reach (addr : xvip2) (last_viewid last_clock : Z) (evs : list timer_event) (s : xtimer) : Prop :=
  timer_run evs (new_timer addr last_viewid last_clock) = Some (tt, s).
Lemma timer_reach_inv addr v k evs s : timer_reach addr v k evs s -> timer_inv evs s.
Proof. apply (timer_run_inv []), timer_inv_init. Qed.

Lemma crashes_undefined evs e s : timer_inv evs s -> crashes e s -> timer_handle e s = None.
Proof.
  intros Hi. destruct e as [now gmt now' rnd|now from to packet|prev|a|code target]; cbn [crashes timer_handle]; try done.
  - intros (Hne & Hlow & Ht & Ha & Hk & Hd). pose proof (not_behind _ _ _ Hi Hk) as Hb.
    unfold bind, pick_recv_in, recv_in, account_on_pdu_event_down, pace_on_pdu_event_down, on_receive_timeout, pick_valid, bind,
      pick_get, pace_get, gets, ret. cbn [ev_packet ev_from with_to].
    destruct (is_xip2_equal from _) eqn:Ex; [by apply is_xip2_equal_spec in Ex|].
    rewrite Ht, Z.eqb_refl. cbn. destruct (Z.leb_spec (pdu_block_clock packet) (m_latest_cert_clock (t_pick s))); [lia|].
    rewrite bool_decide_eq_true_2 by done. cbn.
    destruct (m_latest_cert (t_pace s)) as [b|] eqn:El; cbn; rewrite ?Ht, ?Z.eqb_refl; rewrite ?El; cbn in Hb |- *;
      rewrite ?Hb; (destruct (Z.eqb_spec (low_addr from) 0); [done|]); by rewrite Hd.
  - intros (-> & Hn & b & El & Hlt & Hle). unfold asyn_update_view, bind at 1, pace_get, gets.
    destruct (tp_calls (t_pace s)) as [|n]; [done|].
    unfold timer_fire_view, pick_on_view_fire, make_block, bind, pace_mod, pick_get, pick_mod, gets, modify, t_emit. cbn.
    rewrite El. cbn. destruct (Z.ltb_spec (m_cur_view (t_pick s)) (get_viewid b)); [|lia]. cbn.
    by rewrite Hle, (proj2 (is_xip2_equal_spec _ _)).
Qed.

(** ** Properties *)

(** Certified ticks strictly increase: along any execution of a clock
    node the time certificates it hands to its account carry strictly
    increasing clocks, the latest of them is the one the pacemaker keeps, and
    the account's own record of the latest clock agrees with it. *)
Theorem time_certs_increase (addr : xvip2) (last_viewid last_clock : Z) (evs : list timer_event) (s : xtimer)
    (Hr : timer_reach addr last_viewid last_clock evs s) :
  StronglySorted (fun b b' => get_clock b < get_clock b') (time_certs (t_out s)) /\
  m_latest_cert (t_pace s) = last (time_certs (t_out s)) /\
  (forall b, m_latest_cert (t_pace s) = Some b -> m_latest_cert_clock (t_pick s) = get_clock b).
Proof. pose proof (timer_reach_inv _ _ _ _ _ Hr) as []. done. Qed.

(** C34. No tick is certified without a quorum: every time certificate a node
    hands out merges signatures of pairwise different addresses, at least as
    many as the threshold of the tick's block; each of them is a validator of
    that block and either sent a packet with a block of exactly that tick
    whose signature verified, or is the node itself, whose timer fired within
    that tick; and the merged signature verified. *)
Theorem time_cert_quorum (addr : xvip2) (last_viewid last_clock : Z) (evs : list timer_event) (s : xtimer) (b : xvblock)
    (Hr : timer_reach addr last_viewid last_clock evs s)
    (Hb : b ∈ time_certs (t_out s)) :
  exists self model vs,
    is_tick self (get_clock b) model /\
    b = (merge_multi_sign model vs).1 /\ verify_muti_sign_block b = true /\
    get_validator_threshold (b_cert model) <= Z.of_nat (length vs) /\ NoDup vs.*1 /\
    forall x sig, (x, sig) ∈ vs ->
      (exists t, is_tick self (get_clock b) t /\ is_validator2 (b_cert t) x = true) /\
      (peer_voted evs (get_clock b) x sig \/ self_voted evs self (get_clock b) x sig).
Proof.
  destruct (ti_certified _ _ (timer_reach_inv _ _ _ _ _ Hr) _ Hb) as (self & model & vs & E & Hm & Ht & Hth & Hnd & Hv).
  by exists self, model, vs.
Qed.

(** Which events a clock node does not survive: in every reachable state
    handling an event is undefined exactly when the event is a timeout packet
    for this account and an uncertified tick, from another node, whose body
    holds no block (the warning that reports it reads through the null
    pointer), or when the node has to lead a new view and its block store has
    no block of the account.  Every other event is handled to the end; in
    particular the assertions of the vote cache hold. *)
Theorem timer_undefined_iff (addr : xvip2) (last_viewid last_clock : Z) (evs : list timer_event) (s : xtimer) (e : timer_event)
    (Hr : timer_reach addr last_viewid last_clock evs s) :
  timer_handle e s = None <-> crashes e s.
Proof.
  pose proof (timer_reach_inv _ _ _ _ _ Hr) as Hi. split; [|by eapply crashes_undefined].
  intros E. pose proof (timer_handle_inv evs e s Hi) as Hh. unfold wpu in Hh. by rewrite E in Hh.
Qed.
End TimerSteps.

(** * The clock advances

    If enough validators sign a tick that is not certified yet, the tick is
    certified: the last of the votes that make up the quorum does it,
    whatever the order in which they arrive. *)

Section TimerLive.
Context `{XVCert} `{XVBlock} `{XCertAuth} `{XCodec} `{XTimerBase} `{XElection} `{!XTimerLaws}.

(** A packet with the vote of [x] for the tick [k]. *)
Definition vote_packet (k : Z) (x : xvip2) (packet : xcspdu) : Prop :=
  pdu_msg_type packet = msg_type_timeout /\ pdu_account packet = sys_drand_addr /\ pdu_block_clock packet = k /\
  exists b, dec_timeout (pdu_body packet) = Some b /\ get_clock b = k /\ get_viewid b = k /\ get_height b = k /\
            verify_sign_block x b = true.
Definition vote_event (k : Z) (x : xvip2) (e : timer_event) : Prop :=
  exists now to packet, e = TEvRecv now x to packet /\ vote_packet k x packet.

(** A member that may vote for [k]. *)
Definition may_vote (s : xtimer) (k : Z) (x : xvip2) : Prop :=
  x <> pk_addr (t_pick s) /\ low_addr x <> 0 /\
  is_validator2 (b_cert (tick_block (tp_addr (t_pace s)) k)) x = true /\
  check (m_vote_cache (t_pace s)) x k = true.

Definition votes_at (c : xvote_cache) (k : Z) : nat :=
  match map_find k (m_clock_votes c) with Some v => length (validators v) | None => O end.

Lemma map_set_length {K} `{MapKey K} {V} (x : K) (v : V) m :
  map_find x m = None -> length (map_set x v m) = S (length m).
Proof.
  induction m as [|[y w] m IH]; [done|]. cbn. destruct (decide (x = y)); [done|]. intros E.
  destruct (key_ltb x y); cbn; [done|]. by rewrite IH.
Qed.

(** A member that may vote for [k] has not done so yet. *)
Lemma check_not_in c x k : cache_ok c -> check c x k = true -> ~ in_clocks c k x.
Proof.
  intros Hok Hc (S & ES & Hin). unfold check in Hc. rewrite ES in Hc.
  destruct (set_greatest S) as [g|] eqn:Eg; [|by destruct S; [apply elem_of_nil in Hin|]].
  destruct (set_greatest_spec _ _ Eg) as [_ Hle]. specialize (Hle _ Hin). guards. lia.
Qed.
Lemma add_counts now x k sig c c' :
  cache_ok c -> check c x k = true -> add_qcert now x k sig c = Some (true, c') -> votes_at c' k = S (votes_at c k).
Proof.
  intros Hok Hc E. destruct (add_qcert_ok now x k sig c Hok Hc) as (c1 & E1 & _ & Ev & _).
  rewrite E in E1. injection E1 as <-. unfold votes_at. rewrite Ev. unfold add_to_votes.
  destruct (map_find k (m_clock_votes c)) as [v|] eqn:Ek; rewrite map_find_set_eq; [|done]. cbn. apply map_set_length.
  destruct (map_find x (validators v)) eqn:Ex; [|done]. destruct (check_not_in c x k Hok Hc).
  apply (co_agree _ Hok). by exists v, s.
Qed.
Lemma add_check_other now x y k sig c c' :
  x <> y -> add_qcert now x k sig c = Some (true, c') -> check c' y k = check c y k.
Proof.
  unfold add_qcert, bind, get, modify, ret. destruct (check c x k); cbn; [|done]. intros Hne [= <-].
  unfold check, add_to_clocks. cbn. by destruct (map_find x _); rewrite map_find_set_ne by done.
Qed.

(** One vote packet is one call of [add_vote]. *)
Lemma vote_event_runs evs k x e s :
  timer_inv evs s -> m_latest_cert_clock (t_pick s) < k -> may_vote s k x -> vote_event k x e ->
  exists now b s', timer_handle e s = Some (tt, s') /\
    vote_result now x (tick_block (tp_addr (t_pace s)) k) b s s'.
Proof.
  intros Hi Hk (Hne & Hlow & Hval & Hc) (now & to & packet & -> & Ht & Ha & Ek & b & Hd & Ec & Ev & Eh & Es).
  destruct (add_vote_result now x (tick_block (tp_addr (t_pace s)) k) b s (ti_cache _ _ Hi)) as (s' & E & Hr).
  exists now, b, s'. split; [|done].
  pose proof (not_behind _ _ _ Hi Hk) as Hb. cbn [timer_handle].
  unfold pick_recv_in, recv_in, account_on_pdu_event_down, pace_on_pdu_event_down, on_receive_timeout, pick_valid,
    pick_on_create_block_event, on_create_block_event, pick_get, pace_get, gets, ret.
  unfold bind at 1 2 3. destruct (is_xip2_equal x _) eqn:Ex; [by apply is_xip2_equal_spec in Ex|].
  rewrite Ht. cbn [Z.eqb msg_type_timeout msg_type_proposal msg_type_commit msg_type_vote Pos.eqb andb orb].
  rewrite Ek. destruct (Z.leb_spec k (m_latest_cert_clock (t_pick s))); [lia|].
  unfold bind at 1. cbn [ev_packet]. rewrite bool_decide_eq_true_2 by done. cbn [negb].
  unfold bind. rewrite Ht. cbn [Z.eqb msg_type_timeout msg_type_proposal Pos.eqb fst snd].
  destruct (m_latest_cert (t_pace s)) as [lb|] eqn:El; cbn [ev_packet ev_from with_to with_fire]; rewrite Ht, ?El;
    cbn [Z.eqb msg_type_timeout Pos.eqb]; rewrite Ek, ?El, Hb; (destruct (Z.eqb_spec (low_addr x) 0); [done|]);
    rewrite Hd; cbn [nonnull ret]; rewrite Ec, Ev, Eh, Z.eqb_refl; cbn [negb orb]; rewrite Es; cbn [negb Z.eqb PEER_TIMEOUT_TYPE];
    change (with_cert _ _) with (tick_block (tp_addr (t_pace s)) k); by rewrite E.
Qed.

(** Votes for a certified tick change nothing. *)
Lemma late_vote_ignored k x e s :
  m_latest_cert_clock (t_pick s) = k -> vote_event k x e -> timer_handle e s = Some (tt, s).
Proof.
  intros Hk (now & to & packet & -> & Ht & _ & Ek & _). cbn [timer_handle].
  unfold pick_recv_in, pick_get, gets, ret. unfold bind at 1 2. destruct (is_xip2_equal x _); [done|].
  unfold bind. by rewrite Ht, Ek, Hk, Z.leb_refl.
Qed.
Lemma late_votes_ignored k xs l s :
  m_latest_cert_clock (t_pick s) = k -> Forall2 (vote_event k) xs l -> timer_run l s = Some (tt, s).
Proof.
  intros Hk. induction 1 as [|x e xs l He Hl IH]; [done|]. unfold timer_run. cbn. unfold bind.
  by rewrite (late_vote_ignored k x e s).
Qed.

(** [sig] is a signature of [x] under the block. *)
Definition signs (b : xvblock) (x : xvip2) (sig : string) : Prop :=
  verify_sign_block x (set_verify_signature b sig) = true.
(** What the certificate library promises of a multi-signature: merged from
    signatures of a quorum of different members under one block, it verifies
    for that block. *)
Definition merges_signatures (b : xvblock) : Prop := forall vs,
  get_validator_threshold (b_cert b) <= Z.of_nat (length vs) -> NoDup vs.*1 ->
  (forall x sig, (x, sig) ∈ vs -> signs b x sig) ->
  verify_muti_sign_block (merge_multi_sign b vs).1 = true.

(** A validator other than the node itself whose votes still held are for
    earlier ticks, not too far back. *)
Definition fresh_voter (s : xtimer) (k : Z) (x : xvip2) : Prop :=
  x <> pk_addr (t_pick s) /\ low_addr x <> 0 /\
  is_validator2 (b_cert (tick_block (tp_addr (t_pace s)) k)) x = true /\
  forall k', in_clocks (m_vote_cache (t_pace s)) k' x -> k' < k <= u64 (k' + ELASTIC_RANGE).
Lemma fresh_may_vote s k x : fresh_voter s k x -> may_vote s k x.
Proof.
  intros (Hne & Hlow & Hv & Hk). split_and!; [done..|]. unfold check.
  destruct (map_find x _) as [S|] eqn:ES; [|done]. destruct (set_greatest S) as [g|] eqn:Eg; [|done].
  destruct (set_greatest_spec _ _ Eg) as [Hin _].
  destruct (Hk g) as [Hlt Hle]; [by exists S|]. guards. lia.
Qed.

Section Quorum.
Context (self : xvip2) (k : Z) (all : list timer_event).
Context (Hmerge : merges_signatures (tick_block self k)).
Context (Hsame : forall x sig, voted all self k x sig -> signs (tick_block self k) x sig).

Lemma may_vote_kept now x y sig s c :
  x <> y -> may_vote s k y ->
  add_qcert now x k sig (m_vote_cache (t_pace s)) = Some (true, c) ->
  may_vote (XTimer (set_cache c (t_pace s)) (t_pick s) (t_out s)) k y.
Proof.
  intros Hne (Hy & Hlow & Hv & Hc) E. split_and!; try done. cbn. by rewrite (add_check_other now x y k sig _ c Hne E).
Qed.

Lemma quorum_certifies xs l evs s :
  timer_inv evs s -> tp_addr (t_pace s) = self -> m_latest_cert_clock (t_pick s) < k ->
  evs ++ l ⊆ all -> NoDup xs -> Forall (may_vote s k) xs -> Forall2 (vote_event k) xs l -> xs <> [] ->
  get_validator_threshold (b_cert (tick_block self k)) <= Z.of_nat (votes_at (m_vote_cache (t_pace s)) k + length xs) ->
  exists s', timer_run l s = Some (tt, s') /\ m_latest_cert_clock (t_pick s') = k /\
    exists b, m_latest_cert (t_pace s') = Some b /\ get_clock b = k.
Proof.
  intros Hi Hself Hk Hsub Hnd Hmay Hl. revert evs s Hi Hself Hk Hsub Hnd Hmay.
  induction Hl as [|x e xs l He Hl IH]; intros evs s Hi Hself Hk Hsub Hnd Hmay Hne Hth; [done|].
  apply NoDup_cons in Hnd as [Hni Hnd]. apply Forall_cons in Hmay as [Hx Hmay].
  destruct (vote_event_runs evs k x e s Hi Hk Hx He) as (now & b & s1 & E & Hr).
  pose proof (timer_handle_inv evs e s Hi) as Hi1. unfold wpu in Hi1. rewrite E in Hi1.
  unfold timer_run. cbn. unfold bind. rewrite E. fold (timer_run l s1). rewrite Hself in Hr.
  pose proof (tick_block_clock self k) as Eclk. destruct Hx as (_ & _ & Hval & Hc).
  assert (Hsub1 : (evs ++ [e]) ++ l ⊆ all) by by rewrite <- app_assoc.
  destruct Hr as [Hbad|c v _ Ea Ev Hno|c v _ Ea Ev Hq Hm]; rewrite Eclk in *.
  - rewrite Hself in Hval. destruct Hbad; congruence.
  - pose proof (add_counts now x k _ _ c (ti_cache _ _ Hi) Hc Ea) as En. unfold votes_at at 1 in En. rewrite Ev in En.
    assert (Hlt : Z.of_nat (length (validators v)) < get_validator_threshold (b_cert (tick_block self k))).
    { destruct Hno as [|Hf]; [done|]. apply Z.nle_gt. intros Hge. rewrite Hmerge in Hf; [done|done| |].
      - apply key_sorted_nodup. by eapply (cs_validators _ (co_shape _ (ti_cache _ _ Hi1))).
      - intros y sig Hy. apply Hsame, (voted_mono (evs ++ [e])); [set_solver|]. rewrite <- Hself.
        apply (ti_votes _ _ Hi1 _ v); [done|]. apply map_find_in; [|done].
        by eapply (cs_validators _ (co_shape _ (ti_cache _ _ Hi1))). }
    apply (IH (evs ++ [e])); try done.
    + rewrite Forall_forall in Hmay |- *. intros y Hy. eapply may_vote_kept; eauto. set_solver.
    + intros ->. cbn [length] in Hth. lia.
    + cbn [t_pace m_vote_cache set_cache]. unfold votes_at at 1. rewrite Ev, En. cbn [length] in Hth. lia.
  - assert (Em : get_clock (merge_multi_sign (tick_block self k) (validators v)).1 = k) by by rewrite merge_clock.
    eexists. split; [by eapply late_votes_ignored|]. split; [done|]. eexists. done.
Qed.
End Quorum.

(** C35. The clock advances: let a tick be later than the latest certified one
    and let packets arrive, in any order, with verified votes for it from
    pairwise different validators, other than the node itself and with an
    address, whose votes the node still holds are for earlier ticks at most
    ELASTIC_RANGE back, as many as the threshold asks for.  If every vote for
    the tick, earlier or now, signs the block this node makes of the tick, and
    a multi-signature merged from a quorum of signatures under one block
    verifies, then all these packets are handled and the node ends with the
    tick certified. *)
Theorem time_cert_formed (addr : xvip2) (last_viewid last_clock k : Z) (evs l : list timer_event) (s : xtimer)
    (voters : list xvip2)
    (Hr : timer_reach addr last_viewid last_clock evs s)
    (Hk : m_latest_cert_clock (t_pick s) < k)
    (Hnd : NoDup voters)
    (Hmay : Forall (fresh_voter s k) voters)
    (Hl : Forall2 (vote_event k) voters l)
    (Hth : 0 < get_validator_threshold (b_cert (tick_block (tp_addr (t_pace s)) k)) <= Z.of_nat (length voters))
    (Hsame : forall x sig, voted (evs ++ l) (tp_addr (t_pace s)) k x sig ->
                           signs (tick_block (tp_addr (t_pace s)) k) x sig)
    (Hmerge : merges_signatures (tick_block (tp_addr (t_pace s)) k)) :
  exists s', timer_run l s = Some (tt, s') /\ m_latest_cert_clock (t_pick s') = k /\
    exists b, m_latest_cert (t_pace s') = Some b /\ get_clock b = k.
Proof.
  eapply (quorum_certifies (tp_addr (t_pace s)) k (evs ++ l)); eauto using timer_reach_inv.
  - eapply Forall_impl; [exact Hmay|]. apply fresh_may_vote.
  - intros ->. cbn in Hth. lia.
  - lia.
Qed.
End TimerLive.
