(* ===== verification/TimerWitness.v ===== *)
(** * A concrete clock node

    Two ticks certified by the node and its neighbours, on the base library of
    [Concrete]: the hypotheses of the theorems on the timer are met. *)

From stdpp Require Import prelude gmap strings.
From Stdlib Require Import ZArith Lia Sorting.Sorted.
From S2P Require Import Prelude Stream StdMap VBlock Pdu Concrete Proposal BFTState Pacemaker VoteCache TimerPace TimerInv TimerSteps.

Module TimerWitness.
Import Demo.

Definition with_token_validator (c : xvqcert) (token : Z) (v : xvip2) : xvqcert :=
  XVQCert (c_nonce c) (c_clock c) (c_viewid c) token v (c_auditor c) (c_header_hash c) (c_output_root_hash c)
    (c_justify_cert_hash c) (c_verify_signature c) (c_audit_signature c) (c_flags c).
Definition clock_cert (k : Z) : xvqcert := XVQCert 0 k k 0 (Xvip2 0 0) (Xvip2 0 0) "" "" "" "peer" "" 0.
Definition clock_block (k : Z) : xvblock :=
  MkBlock (XVHeader level_root 1 k xclock_account "root") (clock_cert k) "" 0 None None (Some (XVInput "" "")) (Some (XVOutput "")).

#[export] Instance demo_timer_base : XTimerBase := {
  new_vqcert := XVQCert 0 0 0 0 (Xvip2 0 0) (Xvip2 0 0) "" "" "" "" "" 0;
  set_viewtoken c v := with_token_validator c v (c_validator c);
  set_validator c v := with_token_validator c (c_viewtoken c) v;
  new_vblock h c := MkBlock h c "" 0 None None (Some (XVInput "" "")) (Some (XVOutput ""));
  rootblock_chainid := 1;
  rootblock_hash := "root";
  do_sign_block a b r := "own";
  merge_muti_sign_cert _ _ := "merged";
  block_to_data b := "v";
  data_to_block s := if bool_decide (s = "7") then Some (clock_block 7)
                     else if bool_decide (s = "8") then Some (clock_block 8) else None;
}.
Definition me : xvip2 := Xvip2 0x1401 1.
Definition peer1 : xvip2 := Xvip2 0x1402 1.
Definition peer2 : xvip2 := Xvip2 0x1403 1.
#[export] Instance demo_election : XElection := { get_leader_xip viewid account local candidate := me }.
#[export] Instance demo_timer_codec : XCodec := demo_codec (fun _ => None) (fun _ => None).
#[export] Instance demo_timer_laws : XTimerLaws.
Proof. by split. Qed.

Definition packet (k : Z) (body : string) : xcspdu :=
  XCspdu pdu_class_xbft msg_type_timeout 1 body 1 sys_drand_addr 0 k 0 0 "" "".
Definition vote (now : Z) (from : xvip2) (k : Z) (digit : string) : timer_event :=
  TEvRecv now from me (packet k (write_u8 1 +:+ digit)).

(** The address arrives, the timer fires in tick 7, one neighbour signs it. *)
Definition evs : list timer_event :=
  [TEvReset me; TEvTimer 1000 (TOP_BEGIN_GMTIME + 70) 1000 9; vote 1500 peer1 7 "7"].
Definition s7 : xtimer :=
  match timer_run evs (new_timer (Xvip2 0 0) 0 5) with Some (_, s) => s | None => new_timer me 0 5 end.
Definition next_votes : list timer_event := [vote 11000 peer2 8 "8"; vote 11100 peer1 8 "8"].

Lemma s7_reached : timer_reach (Xvip2 0 0) 0 5 evs s7.
Proof. vm_compute. reflexivity. Qed.
Lemma s7_cert : exists b, time_certs (t_out s7) = [b] /\ get_clock b = 7.
Proof. eexists. vm_compute. done. Qed.
Lemma next_reached : exists s, timer_reach (Xvip2 0 0) 0 5 (evs ++ next_votes) s /\ length (time_certs (t_out s)) = 2%nat.
Proof. eexists. vm_compute. done. Qed.

Lemma time_certs_increase_witness : exists s,
  timer_reach (Xvip2 0 0) 0 5 (evs ++ next_votes) s /\ length (time_certs (t_out s)) = 2%nat /\
  StronglySorted (fun b b' => get_clock b < get_clock b') (time_certs (t_out s)).
Proof.
  destruct next_reached as (s & Hr & Hlen). exists s. split_and!; [done..|].
  apply (time_certs_increase (Xvip2 0 0) 0 5 (evs ++ next_votes) s Hr).
Defined.

Lemma time_cert_quorum_witness : exists b self model vs,
  b ∈ time_certs (t_out s7) /\ b = (merge_multi_sign model vs).1 /\
  is_tick self (get_clock b) model /\ 2 <= Z.of_nat (length vs) /\ NoDup vs.*1.
Proof.
  destruct s7_cert as (b & E & Ek). exists b.
  assert (Hb : b ∈ time_certs (t_out s7)) by (rewrite E; by left).
  destruct (time_cert_quorum (Xvip2 0 0) 0 5 evs s7 b s7_reached Hb) as (self & model & vs & Ht & Em & _ & Hth & Hnd & _).
  exists self, model, vs. split_and!; done.
Defined.

(** A packet without a block, for a tick that is not certified. *)
Definition bad_packet : timer_event := TEvRecv 11000 peer1 me (packet 8 (write_u8 0)).
Lemma timer_undefined_iff_witness : timer_handle bad_packet s7 = None.
Proof.
  apply (timer_undefined_iff (Xvip2 0 0) 0 5 evs s7 bad_packet s7_reached).
  cbn [crashes bad_packet]. split_and!; by vm_compute.
Defined.

Lemma next_voters : NoDup [peer2; peer1].
Proof. apply NoDup_cons. split; [|apply NoDup_singleton]. intros Hin%list_elem_of_singleton. discriminate. Qed.
Lemma next_may : Forall (fresh_voter s7 8) [peer2; peer1].
Proof.
  repeat (apply Forall_cons; split; [split_and!; [by vm_compute..|]; intros k' (S & ES & Hin); vm_compute in ES; discriminate|]).
  by apply Forall_nil.
Qed.
Lemma next_events : Forall2 (vote_event 8) [peer2; peer1] next_votes.
Proof.
  repeat constructor; (eexists _, _, _; split; [reflexivity|]); (split_and!; [reflexivity..|]); exists (clock_block 8);
    split_and!; vm_compute; reflexivity.
Qed.
Lemma next_threshold k : 0 < get_validator_threshold (b_cert (tick_block (tp_addr (t_pace s7)) k)) <= Z.of_nat (length [peer2; peer1]).
Proof. split; [reflexivity|discriminate]. Qed.

Lemma time_cert_formed_witness : exists s', timer_run next_votes s7 = Some (tt, s') /\ m_latest_cert_clock (t_pick s') = 8.
Proof.
  assert (Hk : m_latest_cert_clock (t_pick s7) < 8) by (vm_compute; reflexivity).
  destruct (time_cert_formed (Xvip2 0 0) 0 5 8 evs next_votes s7 [peer2; peer1] s7_reached Hk next_voters next_may
              next_events (next_threshold 8) (fun _ _ _ => eq_refl) (fun _ _ _ _ => eq_refl)) as (s' & E & Ek & _).
  exists s'. split; [exact E|exact Ek].
Defined.
End TimerWitness.
