(* ===== verification/Election.v ===== *)
(** * Weighted random selection (xcommon/xfts.h), and leader election with it

    The leader of a view is drawn from the members of a group with a
    probability that grows with their stake.  [xfts_merkle_tree_t] builds a
    binary tree over the candidates whose inner nodes carry the stake of their
    subtree and walks down from the root, drawing one random number per level;
    [select] draws several candidates without replacement.

    A node of the tree has two children, or only a left one when a level has
    an odd number of nodes.  Taking the missing right child would read
    through a null pointer; it cannot happen, since a single child has all the
    stake of its parent. *)

From stdpp Require Import prelude gmap strings.
From Stdlib Require Import ZArith Lia.
From S2P Require Import Prelude StdMap VBlock Pacemaker TimerPace.

(** The random engine ([std::mt19937_64]) and [std::uniform_int_distribution]
    over [0, hi]; the standard fixes the range of its answers, not the
    algorithm. *)
Class RNG := {
  rng : Type;
  mt19937_64 : Z -> rng;
  uniform_int : Z -> rng -> Z * rng
}.
Class RNGLaws `{RNG} : Prop := {
  uniform_range : forall hi g, 0 <= hi -> 0 <= (uniform_int hi g).1 <= hi
}.

(** A right fold over pairs of neighbours, the induction scheme of a level. *)
Lemma pair_ind {A} (P : list A -> Prop) :
  P [] -> (forall x, P [x]) -> (forall x y l, P l -> P (x :: y :: l)) -> forall l, P l.
Proof.
  intros H0 H1 H2 l. enough (P l /\ forall x, P (x :: l)) by tauto.
  induction l as [|y l [IH1 IH2]]; [auto|]. split; [apply IH2|]. intros x. by apply H2.
Qed.

Section Fts.
Context `{RNG} {A : Type} `{EqDecision A}.

(** ** The tree *)

Inductive fts_node :=
  | FLeaf (stake : Z) (value : A)
  | FPair (left right : fts_node) (stake : Z)
  | FSingle (left : fts_node) (stake : Z).

Definition node_stake (n : fts_node) : Z :=
  match n with FLeaf s _ | FPair _ _ s | FSingle _ s => s end.
Definition merge_stake (lhs rhs : fts_node) : Z := u64 (node_stake lhs + node_stake rhs).

Definition parent_node (nodes : list fts_node) (i : nat) : option fts_node :=
  match nodes !! (2 * i)%nat, nodes !! (2 * i + 1)%nat with
  | Some l, Some r => Some (FPair l r (merge_stake l r))
  | Some l, None => Some (FSingle l (node_stake l))
  | None, _ => None
  end.
Definition construct_impl (nodes : list fts_node) : list fts_node :=
  omap (parent_node nodes) (seq 0 (length nodes / 2 + 1)).

(** The loop of [construct]; [None] when the fuel runs out. *)
Fixpoint construct_loop (fuel : nat) (nodes : list fts_node) : option (list fts_node) :=
  match nodes with
  | [] | [_] => Some nodes
  | _ => match fuel with
         | O => None
         | S fuel' => construct_loop fuel' (construct_impl nodes)
         end
  end.
(** The root; [None]: the empty tree. *)
Definition construct (data : list (Z * A)) : option fts_node :=
  match construct_loop (length data) ((fun d => FLeaf d.1 d.2) <$> data) with
  | Some (root :: _) => Some root
  | _ => None
  end.

(** The walk down; [None]: a missing child is taken. *)
Fixpoint tree_select (n : fts_node) (g : rng) : option ((Z * A) * rng) :=
  match n with
  | FLeaf s v => Some ((s, v), g)
  | FPair l r s =>
      let '(x, g') := uniform_int s g in
      if x <=? node_stake l then tree_select l g' else tree_select r g'
  | FSingle l s =>
      let '(x, g') := uniform_int s g in
      if x <=? node_stake l then tree_select l g' else None
  end.

(** [tmp.erase(std::remove(begin, end, v))]: [remove] moves the values that
    stay to the front, [erase] takes out one element behind them. *)
Definition erase_remove (v : Z * A) (tmp : list (Z * A)) : list (Z * A) :=
  let kept := List.filter (fun d => negb (bool_decide (d = v))) tmp in
  kept ++ drop (S (length kept)) tmp.

Fixpoint select_loop (missing : nat) (tmp : list (Z * A)) (g : rng) : option (list (Z * A)) :=
  match missing with
  | O => Some []
  | S n =>
      root ← construct tmp;
      r ← tree_select root g;
      rest ← select_loop n (erase_remove r.1 tmp) r.2;
      Some (r.1 :: rest)
  end.
Definition select (data : list (Z * A)) (seed : Z) (count : nat) : option (list (Z * A)) :=
  match data with
  | [] => Some []
  | _ => if bool_decide (length data <= count)%nat then Some data
         else select_loop count data (mt19937_64 seed)
  end.

(** ** Levels *)

(** One level, by pairs of neighbours. *)
Fixpoint pair_up (nodes : list fts_node) : list fts_node :=
  match nodes with
  | l :: r :: rest => FPair l r (merge_stake l r) :: pair_up rest
  | [l] => [FSingle l (node_stake l)]
  | [] => []
  end.

Lemma parent_node_shift l r rest i : parent_node (l :: r :: rest) (S i) = parent_node rest i.
Proof.
  unfold parent_node. replace (2 * S i)%nat with (S (S (2 * i))) by lia.
  by replace (S (S (2 * i)) + 1)%nat with (S (S (2 * i + 1))) by lia.
Qed.

(** The index loop of the source pairs up neighbours. *)
Lemma construct_impl_pairs nodes : construct_impl nodes = pair_up nodes.
Proof.
  induction nodes as [| |l r rest IH] using pair_ind; [done|done|].
  unfold construct_impl. cbn [length pair_up].
  replace (S (S (length rest)) / 2 + 1)%nat with (S (length rest / 2 + 1)).
  2:{ replace (S (S (length rest))) with (length rest + 1 * 2)%nat by lia. rewrite Nat.div_add by lia. lia. }
  cbn [seq omap list_omap]. change (parent_node _ 0) with (Some (FPair l r (merge_stake l r))).
  f_equal. rewrite <- IH. unfold construct_impl. rewrite <- fmap_S_seq. generalize (seq 0 (length rest / 2 + 1)).
  intros idx. induction idx as [|i idx IHi]; [done|]. cbn. rewrite parent_node_shift.
  by destruct (parent_node rest i); rewrite IHi.
Qed.

Lemma pair_up_length nodes : (length (pair_up nodes) = (length nodes + 1) / 2)%nat.
Proof.
  induction nodes as [| |l r rest IH] using pair_ind; [done|done|]. cbn [pair_up length]. rewrite IH.
  replace (S (S (length rest)) + 1)%nat with ((length rest + 1) + 1 * 2)%nat by lia. rewrite Nat.div_add by lia. lia.
Qed.
Lemma pair_up_nonempty nodes : nodes <> [] -> pair_up nodes <> [].
Proof. by destruct nodes as [|? [|? ?]]. Qed.

(** ** The leaves of a tree are the candidates *)

Fixpoint leaves (n : fts_node) : list (Z * A) :=
  match n with
  | FLeaf s v => [(s, v)]
  | FPair l r _ => leaves l ++ leaves r
  | FSingle l _ => leaves l
  end.
(** Nodes carry stakes in range, a single child the stake of its parent. *)
Fixpoint node_ok (n : fts_node) : Prop :=
  match n with
  | FLeaf s _ => 0 <= s
  | FPair l r s => node_ok l /\ node_ok r /\ s = merge_stake l r
  | FSingle l s => node_ok l /\ s = node_stake l
  end.

Lemma node_ok_stake n : node_ok n -> 0 <= node_stake n.
Proof.
  induction n as [s v|l IHl r IHr s|l IHl s]; cbn; [done| |].
  - intros (_ & _ & ->). unfold merge_stake, u64. apply Z.mod_pos_bound. lia.
  - intros (Hl & ->). auto.
Qed.
Lemma pair_up_ok nodes : Forall node_ok nodes -> Forall node_ok (pair_up nodes).
Proof.
  induction nodes as [| |l r rest IH] using pair_ind; intros Hf; cbn; [done| |].
  - inversion_clear Hf. by repeat constructor.
  - apply Forall_cons in Hf as [Hl [Hr Hrest]%Forall_cons]. constructor; [done|auto].
Qed.
Lemma pair_up_leaves nodes : pair_up nodes ≫= leaves = nodes ≫= leaves.
Proof.
  induction nodes as [| |l r rest IH] using pair_ind; cbn; [done|done|]. by rewrite IH, app_assoc.
Qed.

Lemma construct_loop_runs fuel nodes :
  nodes <> [] -> (length nodes <= fuel)%nat -> Forall node_ok nodes ->
  exists root, construct_loop fuel nodes = Some [root] /\ node_ok root /\ leaves root = nodes ≫= leaves.
Proof.
  revert nodes. induction fuel as [|fuel IH]; intros nodes Hne Hlen Hok; [by destruct nodes; [|cbn in Hlen; lia]|].
  destruct nodes as [|x [|y rest]]; [done| |].
  - exists x. apply Forall_cons in Hok as [Hx _]. split_and!; [done|done|]. cbn. by rewrite app_nil_r.
  - change (construct_loop (S fuel) (x :: y :: rest)) with (construct_loop fuel (construct_impl (x :: y :: rest))).
    rewrite construct_impl_pairs. destruct (IH (pair_up (x :: y :: rest))) as (root & E & Hr & Hl).
    + done.
    + rewrite pair_up_length. cbn [length] in Hlen |- *.
      enough ((S (S (length rest)) + 1) / 2 < S (S (length rest)))%nat by lia.
      apply Nat.Div0.div_lt_upper_bound. lia.
    + by apply pair_up_ok.
    + exists root. rewrite Hl, pair_up_leaves. done.
Qed.

(** [length data] rounds are enough: a level halves the number of nodes. *)
Lemma construct_runs data :
  data <> [] -> Forall (fun d => 0 <= d.1) data ->
  exists root, construct data = Some root /\ node_ok root /\ leaves root = data.
Proof.
  intros Hne Hs. unfold construct.
  destruct (construct_loop_runs (length data) ((fun d => FLeaf d.1 d.2) <$> data)) as (root & E & Hr & Hl).
  - by destruct data.
  - by rewrite length_fmap.
  - apply Forall_fmap. eapply Forall_impl; [exact Hs|]. done.
  - rewrite E. exists root. split_and!; [done|done|]. rewrite Hl. clear.
    induction data as [|[s v] data IH]; [done|]. cbn. by rewrite IH.
Qed.

(** ** The walk ends at a candidate *)

Context `{!RNGLaws}.

Lemma tree_select_runs n g : node_ok n -> exists d g', tree_select n g = Some (d, g') /\ d ∈ leaves n.
Proof.
  revert g. induction n as [s v|l IHl r IHr s|l IHl s]; intros g Hok; cbn.
  - exists (s, v), g. split; [done|]. by left.
  - destruct Hok as (Hl & Hr & _). destruct (uniform_int s g) as [x g1].
    destruct (x <=? node_stake l).
    + destruct (IHl g1 Hl) as (d & g' & E & Hd). exists d, g'. split; [done|]. set_solver.
    + destruct (IHr g1 Hr) as (d & g' & E & Hd). exists d, g'. split; [done|]. set_solver.
  - destruct Hok as (Hl & ->). pose proof (uniform_range (node_stake l) g (node_ok_stake _ Hl)) as Hu.
    destruct (uniform_int (node_stake l) g) as [x g1]. cbn in Hu. destruct (Z.leb_spec x (node_stake l)); [|lia].
    apply IHl, Hl.
Qed.

(** ** Drawing without replacement *)

Lemma filter_length_1 v tmp :
  NoDup tmp -> v ∈ tmp -> length tmp = S (length (List.filter (fun d : Z * A => negb (bool_decide (d = v))) tmp)).
Proof.
  induction tmp as [|d tmp IH]; intros Hnd Hin; [by apply elem_of_nil in Hin|].
  apply NoDup_cons in Hnd as [Hni Hnd]. cbn. apply elem_of_cons in Hin as [->|Hin].
  - rewrite bool_decide_eq_true_2 by done. cbn. f_equal. clear -Hni.
    induction tmp as [|d' tmp IH]; [done|]. apply not_elem_of_cons in Hni as [Hne Hni]. cbn.
    rewrite bool_decide_eq_false_2 by done. cbn. f_equal. auto.
  - rewrite bool_decide_eq_false_2 by (intros ->; done). cbn. f_equal. auto.
Qed.
Lemma erase_remove_nodup v tmp :
  NoDup tmp -> v ∈ tmp -> erase_remove v tmp = List.filter (fun d => negb (bool_decide (d = v))) tmp.
Proof.
  intros Hnd Hin. unfold erase_remove. rewrite drop_ge, app_nil_r; [done|]. by rewrite (filter_length_1 v tmp).
Qed.

Lemma filter_sub v tmp :
  (forall d, d ∈ List.filter (fun d : Z * A => negb (bool_decide (d = v))) tmp <-> d ∈ tmp /\ d <> v).
Proof.
  intros d. rewrite list_elem_of_In, List.filter_In, negb_true_iff, bool_decide_eq_false, <- list_elem_of_In. done.
Qed.
Lemma filter_nodup f (l : list (Z * A)) : NoDup l -> NoDup (List.filter f l).
Proof. rewrite !NoDup_ListNoDup. apply List.NoDup_filter. Qed.

Lemma select_loop_runs n tmp g :
  NoDup tmp -> Forall (fun d => 0 <= d.1) tmp -> (n <= length tmp)%nat ->
  exists res, select_loop n tmp g = Some res /\ length res = n /\ NoDup res /\ res ⊆ tmp.
Proof.
  revert tmp g. induction n as [|n IH]; intros tmp g Hnd Hs Hn.
  - exists []. split_and!; [done|done|constructor|set_solver].
  - assert (Hne : tmp <> []) by by intros ->; cbn in Hn; lia.
    destruct (construct_runs tmp Hne Hs) as (root & Ec & Hok & Hl).
    destruct (tree_select_runs root g Hok) as (d & g' & Et & Hd). rewrite Hl in Hd.
    cbn. rewrite Ec. cbn. rewrite Et. cbn. rewrite erase_remove_nodup by done.
    destruct (IH (List.filter (fun d' => negb (bool_decide (d' = d))) tmp) g') as (res & Er & Hlen & Hndr & Hsub).
    + by apply filter_nodup.
    + apply Forall_forall. intros x [Hx _]%filter_sub. rewrite Forall_forall in Hs. auto.
    + pose proof (filter_length_1 d tmp Hnd Hd). lia.
    + rewrite Er. cbn. exists (d :: res). split_and!; [done|by cbn; rewrite Hlen| |].
      * apply NoDup_cons. split; [|done]. intros Hin. apply Hsub, filter_sub in Hin as [_ ?]. done.
      * intros x [->|Hx]%elem_of_cons; [done|]. by apply Hsub, filter_sub in Hx as [? _].
Qed.

(** One draw needs no hypothesis on repetitions. *)
Lemma select_one data seed :
  data <> [] -> Forall (fun d => 0 <= d.1) data ->
  exists d, select data seed 1 = Some [d] /\ d ∈ data.
Proof.
  intros Hne Hs. unfold select. destruct data as [|d0 data]; [done|].
  destruct (bool_decide_reflect (length (d0 :: data) <= 1)%nat) as [Hle|_].
  - destruct data; [|cbn in Hle; lia]. exists d0. split; [done|]. by left.
  - destruct (construct_runs (d0 :: data) Hne Hs) as (root & Ec & Hok & Hl).
    destruct (tree_select_runs root (mt19937_64 seed) Hok) as (d & g' & Et & Hd). rewrite Hl in Hd.
    exists d. split; [|done]. cbn [select_loop]. rewrite Ec. cbn. by rewrite Et.
Qed.
End Fts.
Arguments fts_node : clear implicits.

(** * Leader election (xunit_service/xleader_election.cpp)

    [xelection_cache_imp] keeps, per group, who was elected: the members of
    the group, of its parent (auditor) group and of its child (validator)
    groups.  [xrandom_leader_election] and [xrotate_leader_election] draw the
    leader of a view from them with [Fts.select]; in the rotating election
    auditors and validators take turns, and both sides must come to the same
    leader from different caches. *)

Definition enum_chain_zone_consensus_index : Z := 0.
Definition enum_chain_zone_beacon_index : Z := 1.
Definition enum_chain_zone_zec_index : Z := 2.
Definition enum_rotate_mode_no_rotate : Z := 0.
Definition enum_rotate_mode_rotate_by_last_block : Z := 1.
Definition enum_rotate_mode_rotate_by_view_id : Z := 2.
Definition MAIN_CHAIN_REC_TABLE_USED_NUM : nat := 1.
Definition MAIN_CHAIN_ZEC_TABLE_USED_NUM : nat := 3.

Definition get_zone_id_from_xip2 (a : xvip2) : Z := Z.land (Z.shiftr (low_addr a) 25) 0x7F.
Definition get_group_id_from_xip2 (a : xvip2) : Z := Z.land (Z.shiftr (low_addr a) 10) 0xFF.
(** [xcons_utl::is_auditor] and [is_validator]: ranges of group numbers. *)
Definition utl_is_auditor (a : xvip2) : bool :=
  (1 <=? get_group_id_from_xip2 a) && (get_group_id_from_xip2 a <? 64).
Definition utl_is_validator (a : xvip2) : bool :=
  (64 <=? get_group_id_from_xip2 a) && (get_group_id_from_xip2 a <? 127).

(** ** The cache *)

Record xelect_data := XElectData { ed_xip : xvip2; ed_joined_version : Z; ed_staking : Z }.
Definition elect_set := list xelect_data.
Record xelect_item := XElectItem {
  ei_tables : list Z;
  ei_self : elect_set;
  ei_parent : elect_set;
  ei_children : list (Z * elect_set)
}.
Definition election_cache := list (xvip2 * xelect_item).

Definition get_group_xip2 (xip : xvip2) : xvip2 := set_node_id_to_xip2 (reset_node_id_to_xip2 xip) 0xFFF.

(** The tables that are appended and the number that is returned. *)
Definition get_tables (c : election_cache) (xip : xvip2) : list Z * Z :=
  let zone_id := get_zone_id_from_xip2 xip in
  if zone_id =? enum_chain_zone_beacon_index then
    let tables := Z.of_nat <$> seq 0 MAIN_CHAIN_REC_TABLE_USED_NUM in (tables, Z.of_nat (length tables))
  else if zone_id =? enum_chain_zone_zec_index then
    (Z.of_nat <$> seq 0 MAIN_CHAIN_ZEC_TABLE_USED_NUM, 0)
  else match map_find (get_group_xip2 xip) c with
       | Some item => (ei_tables item, Z.of_nat (length (ei_tables item)))
       | None => ([], 0)
       end.
Definition get_election (c : election_cache) (xip : xvip2) : elect_set :=
  match map_find (get_group_xip2 xip) c with Some item => ei_self item | None => [] end.
Definition get_parent_election (c : election_cache) (xip : xvip2) : elect_set :=
  match map_find (get_group_xip2 xip) c with Some item => ei_parent item | None => [] end.
Definition get_group_election (c : election_cache) (xip : xvip2) (group_id : Z) : elect_set :=
  match map_find (get_group_xip2 xip) c with
  | Some item => match map_find group_id (ei_children item) with Some s => s | None => [] end
  | None => []
  end.

(** [xelect_item::operator=] inserts in front of what is there. *)
Definition item_assign (old new : xelect_item) : xelect_item :=
  XElectItem (ei_tables new ++ ei_tables old) (ei_self new ++ ei_self old) (ei_parent new ++ ei_parent old) (ei_children new).
Definition elect_add (xip : xvip2) (item : xelect_item) (c : election_cache) : election_cache :=
  let tmp := get_group_xip2 xip in
  let old := match map_find tmp c with Some i => i | None => XElectItem [] [] [] [] end in
  map_set tmp (item_assign old item) c.
Definition elect_erase (xip : xvip2) (c : election_cache) : election_cache := map_erase (get_group_xip2 xip) c.

(** ** The leader *)

(** The account's number and the validator group of an account, both computed
    from the account's address. *)
Class XAccountId := {
  get_xid_from_account : string -> Z;
  get_groupid_by_account : xvip2 -> string -> Z
}.

Section Leader.
Context `{RNG} `{XHash64} `{XAccountId} (leader_election_round : Z).

Definition candidate_of (d : xelect_data) : Z * xvip2 := (u64 (ed_staking d + 1), ed_xip d).
(** Long enough in the group, or from its beginning. *)
Definition is_reliable (version : Z) (d : xelect_data) : bool :=
  (u64 (ed_joined_version d + leader_election_round) <=? version) || (ed_joined_version d =? 0).

(** [None]: the code reads an element that is not there. *)
Definition get_leader (nodes : elect_set) (version factor : Z) : option xvip2 :=
  match nodes with
  | [] => Some broadcast_addr
  | _ =>
      let reliable := candidate_of <$> List.filter (is_reliable version) nodes in
      let candidates := candidate_of <$> List.filter (fun d => negb (is_reliable version d)) nodes in
      leaders ← select (match reliable with [] => candidates | _ => reliable end) factor 1;
      d ← head leaders;
      Some d.2
  end.

Definition random_get_leader_xip (c : election_cache) (viewid : Z) (account : string) (prev : option xvblock)
    (local candidate : xvip2) (version rotate_mode : Z) : option xvip2 :=
  let random := u64 (viewid + get_xid_from_account account) in
  let elect_set := get_election c local in
  match elect_set with
  | [] => Some (Xvip2 0 0)
  | _ =>
      if negb (rotate_mode =? enum_rotate_mode_no_rotate) then
        prev_block ← prev;
        let random := u64 (xhash64_digest (get_block_hash prev_block) + random) in
        if utl_is_auditor local then Some (if utl_is_validator candidate then local else Xvip2 0 0)
        else get_leader elect_set version random
      else get_leader elect_set version random
  end.

Definition is_rotate_xip (local : xvip2) : bool := get_zone_id_from_xip2 local =? enum_chain_zone_consensus_index.

(** Whether a validator led the previous block; in the mode by view the source
    takes the parity of the view for it. *)
Definition prev_is_validator (viewid : Z) (prev : option xvblock) (rotate_mode : Z) : option bool :=
  if rotate_mode =? enum_rotate_mode_rotate_by_last_block then
    prev_block ← prev;
    Some (negb (get_node_id_from_xip2 (c_validator (b_cert prev_block)) =? 0x3FF))
  else Some (negb (Z.land viewid 1 =? 0)).
Definition rotate_candidates (c : election_cache) (account : string) (local : xvip2) (prev_validator : bool) : elect_set :=
  if prev_validator then
    if utl_is_auditor local then get_election c local else get_parent_election c local
  else
    if utl_is_auditor local then get_group_election c local (get_groupid_by_account local account)
    else get_election c local.
Definition rotate_get_leader_xip (c : election_cache) (viewid : Z) (account : string) (prev : option xvblock)
    (local candidate : xvip2) (version rotate_mode : Z) : option xvip2 :=
  let random := u64 (viewid + get_xid_from_account account) in
  nodes ← (if rotate_mode =? enum_rotate_mode_no_rotate then Some (get_election c local)
           else if is_rotate_xip local then
             pv ← prev_is_validator viewid prev rotate_mode;
             Some (rotate_candidates c account local pv)
           else Some (get_election c local));
  get_leader nodes version random.

(** The clock committee asks the random election without rotation. *)
Definition timer_election (c : election_cache) : XElection :=
  {| get_leader_xip viewid account local candidate :=
       match random_get_leader_xip c viewid account None local candidate 0 enum_rotate_mode_no_rotate with
       | Some a => a
       | None => Xvip2 0 0
       end |}.

(** ** Properties *)

Context `{!RNGLaws}.

Lemma candidates_in f nodes a :
  a ∈ candidate_of <$> List.filter f nodes -> exists d, d ∈ nodes /\ f d = true /\ ed_xip d = a.2.
Proof.
  intros (d & -> & Hd)%list_elem_of_fmap. exists d. split; [|split; [|done]].
  - apply list_elem_of_In in Hd. apply List.filter_In in Hd as [Hd _]. by apply list_elem_of_In.
  - apply list_elem_of_In in Hd. by apply List.filter_In in Hd as [_ Hd].
Qed.
Lemma candidates_stake f nodes : Forall (fun a => 0 <= a.1) (candidate_of <$> List.filter f nodes).
Proof.
  apply Forall_fmap, Forall_forall. intros d _. unfold candidate_of. cbn. unfold u64. apply Z.mod_pos_bound. lia.
Qed.
Lemma filter_none_all {T} (f : T -> bool) l : List.filter f l = [] -> List.filter (fun x => negb (f x)) l = l.
Proof.
  induction l as [|x l IH]; [done|]. cbn. destruct (f x); [done|]. cbn. intros E. f_equal. auto.
Qed.

Lemma get_leader_sound nodes version factor :
  nodes <> [] ->
  exists d, get_leader nodes version factor = Some (ed_xip d) /\ d ∈ nodes /\
    (is_reliable version d = true \/ Forall (fun e => is_reliable version e = false) nodes).
Proof.
  intros Hne. unfold get_leader. destruct nodes as [|n0 nodes0] eqn:En; [done|]. rewrite <- En in *. clear En n0 nodes0.
  destruct (List.filter (is_reliable version) nodes) as [|r0 rs] eqn:Er.
  - pose proof (filter_none_all _ _ Er) as Eall. cbn [fmap list_fmap].
    destruct (select_one (candidate_of <$> List.filter (fun d => negb (is_reliable version d)) nodes) factor) as (a & Es & Ha).
    { rewrite Eall. by destruct nodes. } { apply candidates_stake. }
    rewrite Es. cbn. apply candidates_in in Ha as (d & Hd & _ & <-). exists d. split_and!; [done|done|]. right.
    apply Forall_forall. intros e He. destruct (is_reliable version e) eqn:Ee; [|done].
    assert (e ∈ List.filter (is_reliable version) nodes) as Hin.
    { apply list_elem_of_In, List.filter_In. split; [by apply list_elem_of_In|done]. }
    rewrite Er in Hin. by apply elem_of_nil in Hin.
  - rewrite <- Er.
    destruct (candidate_of <$> List.filter (is_reliable version) nodes) as [|a0 as_] eqn:Ef; [by rewrite Er in Ef|].
    destruct (select_one (a0 :: as_) factor) as (a & Es & Ha); [done|rewrite <- Ef; apply candidates_stake|].
    rewrite Es. cbn. rewrite <- Ef in Ha. apply candidates_in in Ha as (d & Hd & Hrel & <-). exists d. auto.
Qed.

(** The leader of a view is a member of the electing group, drawn from the
    members that have been in it long enough whenever there is one; the draw
    always ends and never follows the missing child of a tree node, whatever
    the stakes (also when their sum exceeds 64 bits) and whatever the random
    numbers. *)
Theorem leader_is_reliable_member (nodes : elect_set) (version factor : Z)
    (Hne : nodes <> []) :
  exists d, get_leader nodes version factor = Some (ed_xip d) /\ d ∈ nodes /\
    (is_reliable version d = true \/ Forall (fun e => is_reliable version e = false) nodes).
Proof. by apply get_leader_sound. Qed.

(** The lowest bit is the parity. *)
Lemma low_bit_odd v : negb (Z.land v 1 =? 0) = Z.odd v.
Proof. change 1 with (Z.ones 1) at 1. rewrite Z.land_ones, Zmod_odd by lia. by destruct (Z.odd v). Qed.

(** C36. Auditors and validators agree on the leader: when the cache of an
    auditor and the cache of a validator, both in the consensus zone, hold the
    same non-empty set of auditors and the same non-empty set of validators
    of the account's group, then in the rotating election the auditor, which
    draws from its own group or from the child group of the account, and the
    validator, which draws from its parent group or from its own, come to the
    same leader for the same view, account and previous block.  In the mode
    that rotates by view the leader is an auditor in odd views and a validator
    in even ones; in the mode that rotates by the last block it is an auditor
    exactly when the certificate of that block names a validator node rather
    than the whole group (node number 0x3FF). *)
Theorem rotating_leader_agreed (ca cv : election_cache) (viewid : Z) (account : string) (prev : xvblock)
    (auditor validator cand cand' : xvip2) (version mode : Z)
    (Ha : utl_is_auditor auditor = true) (Hv : utl_is_auditor validator = false)
    (Hza : is_rotate_xip auditor = true) (Hzv : is_rotate_xip validator = true)
    (Hm : mode <> enum_rotate_mode_no_rotate)
    (Haud : get_election ca auditor = get_parent_election cv validator)
    (Hval : get_group_election ca auditor (get_groupid_by_account auditor account) = get_election cv validator)
    (Hnea : get_election ca auditor <> []) (Hnev : get_election cv validator <> []) :
  exists leader,
    rotate_get_leader_xip ca viewid account (Some prev) auditor cand version mode = Some leader /\
    rotate_get_leader_xip cv viewid account (Some prev) validator cand' version mode = Some leader /\
    (mode = enum_rotate_mode_rotate_by_view_id ->
       leader ∈ ed_xip <$> (if Z.odd viewid then get_election ca auditor else get_election cv validator)) /\
    (mode = enum_rotate_mode_rotate_by_last_block ->
       leader ∈ ed_xip <$> (if bool_decide (get_node_id_from_xip2 (c_validator (b_cert prev)) = 0x3FF)
                            then get_election cv validator else get_election ca auditor)).
Proof.
  unfold rotate_get_leader_xip, rotate_candidates. destruct (Z.eqb_spec mode enum_rotate_mode_no_rotate); [done|].
  rewrite Hza, Hzv, Ha, Hv, Hval, <- Haud.
  assert (exists pv, prev_is_validator viewid (Some prev) mode = Some pv) as [pv Epv].
  { unfold prev_is_validator. destruct (_ =? _); cbn; eauto. }
  rewrite Epv. cbn [mbind option_bind]. set (nodes := if pv then get_election ca auditor else get_election cv validator).
  assert (Hne : nodes <> []) by (subst nodes; by destruct pv).
  destruct (get_leader_sound nodes version (u64 (viewid + get_xid_from_account account)) Hne) as (d & E & Hd & _).
  assert (Hin : ed_xip d ∈ ed_xip <$> nodes) by (apply list_elem_of_fmap; eauto).
  exists (ed_xip d). unfold prev_is_validator in Epv. subst nodes. split_and!.
  - by destruct pv.
  - by destruct pv.
  - intros ->. cbn in Epv. rewrite low_bit_odd in Epv. by injection Epv as ->.
  - intros ->. cbn in Epv. injection Epv as <-. case_bool_decide as En.
    + rewrite En in Hin. exact Hin.
    + apply Z.eqb_neq in En. rewrite En in Hin. exact Hin.
Qed.

(** A second [add] for a group does not replace the first: both sets elect. *)
Lemma elect_add_twice xip xip' a b c :
  get_group_xip2 xip = get_group_xip2 xip' -> map_find (get_group_xip2 xip) c = None ->
  get_election (elect_add xip' b (elect_add xip a c)) xip = ei_self b ++ ei_self a.
Proof.
  intros E Hc. unfold get_election, elect_add. rewrite <- E, !map_find_set_eq, Hc. cbn. by rewrite app_nil_r.
Qed.
Lemma elect_add_erase xip a c : get_election (elect_add xip a (elect_erase xip c)) xip = ei_self a.
Proof.
  unfold get_election, elect_add, elect_erase. rewrite map_find_erase_eq, map_find_set_eq. cbn. by rewrite app_nil_r.
Qed.
(** In the zone of the election contracts tables are filled in but none is counted. *)
Lemma get_tables_zec c xip :
  get_zone_id_from_xip2 xip = enum_chain_zone_zec_index -> get_tables c xip = ([0; 1; 2], 0).
Proof. intros E. unfold get_tables. by rewrite E. Qed.
End Leader.

(** ** Witnesses *)

Module ElectionWitness.

(** A generator that counts. *)
#[export] Instance count_rng : RNG := {
  rng := Z;
  mt19937_64 seed := seed;
  uniform_int hi g := (Z.abs g mod (hi + 1), g + 1)
}.
#[export] Instance count_rng_laws : RNGLaws.
Proof.
  split. intros hi g Hhi. cbn. pose proof (Z.mod_pos_bound (Z.abs g) (hi + 1) ltac:(lia)). lia.
Qed.
#[export] Instance demo_hash : XHash64 := {| xhash64_digest s := 5 |}.
#[export] Instance demo_account : XAccountId := {| get_xid_from_account s := 1; get_groupid_by_account a s := 64 |}.

(** Group 1 of cluster 1 audits, group 64 validates. *)
Definition aud (i : Z) : xvip2 := Xvip2 (Z.lor 0x40400 i) 0.
Definition val (i : Z) : xvip2 := Xvip2 (Z.lor 0x50000 i) 0.
Definition auditors : elect_set := [XElectData (aud 1) 0 10; XElectData (aud 2) 5 20; XElectData (aud 3) 0 5].
Definition the_validators : elect_set := [XElectData (val 1) 0 7; XElectData (val 2) 0 9].
Definition cache_a : election_cache := elect_add (aud 1) (XElectItem [0] auditors [] [(64, the_validators)]) [].
Definition cache_v : election_cache := elect_add (val 1) (XElectItem [0] the_validators auditors []) [].
Definition prev_block : xvblock :=
  MkBlock (XVHeader level_table 1 5 "T" "h4") (XVQCert 0 50 9 0 (val 1) (aud 0x3FF) "h5" "" "" "s" "" 0) "h5" 0 None None (Some (XVInput "" "")) (Some (XVOutput "")).

Lemma leader_is_reliable_member_witness : exists d,
  get_leader 2 auditors 6 12 = Some (ed_xip d) /\ d ∈ auditors.
Proof.
  destruct (leader_is_reliable_member 2 auditors 6 12 ltac:(discriminate)) as (d & E & Hd & _). by exists d.
Defined.

(** In view 10, an even one, both draw the same validator. *)
Lemma rotating_leader_agreed_witness : exists leader,
  rotate_get_leader_xip 2 cache_a 10 "T" (Some prev_block) (aud 1) (aud 1) 6 enum_rotate_mode_rotate_by_view_id = Some leader /\
  rotate_get_leader_xip 2 cache_v 10 "T" (Some prev_block) (val 1) (val 1) 6 enum_rotate_mode_rotate_by_view_id = Some leader /\
  leader ∈ [val 1; val 2].
Proof.
  destruct (rotating_leader_agreed 2 cache_a cache_v 10 "T" prev_block (aud 1) (val 1) (aud 1) (val 1) 6
              enum_rotate_mode_rotate_by_view_id) as (l & E1 & E2 & Hl & _); try reflexivity; try discriminate.
  exists l. split; [exact E1|]. split; [exact E2|]. exact (Hl eq_refl).
Defined.
End ElectionWitness.
