(* ===== verification/StoreBlock.v ===== *)
(** * The block objects and the database of the block store

    What [xblockstore/src/xvblockhub.cpp] works on: the block object with the
    links and the counter the store maintains, the account's meta record with
    its binary form, and the interfaces of the code the store calls.  The
    methods of [xvblock_t] that [xbase/xvblock.h] only declares are the class
    [XStoreObj], what the header says of them is [XStoreObjLaws]; the abstract
    class [xstore_face_t] is [XStoreFace]; the factories and codecs the store
    uses are [XStoreEnv]. *)

From stdpp Require Import prelude gmap strings.
From Stdlib Require Import ZArith Lia.
From S2P Require Import Prelude Stream StdMap VBlock.

(** ** Block objects *)

Definition enum_xvblock_class_nil : Z := 1.
Definition enum_xvblock_class_light : Z := 2.
Definition enum_xvblock_class_full : Z := 3.

Definition enum_xvblock_flag_stored : Z := 0x0200.
Definition enum_xvblock_flag_unpacked : Z := 0x0400.
Definition enum_xvblock_flag_executed : Z := 0x8000.
Definition enum_xvblock_flags_low4bit_mask : Z := 0x0F00.
Definition enum_xvblock_flags_high4bit_mask : Z := 0xF000.

(** [sb_block] holds what the consensus layer reads of the object too, its
    flags and its link to the previous block among it. *)
Record sblock := SBlock {
  sb_block : xvblock;
  sb_class : Z;              (* get_block_class() *)
  sb_last_full_height : Z;   (* get_last_full_block_height() *)
  sb_next : option ptr;      (* m_next_block *)
  sb_modified : Z;           (* m_modified_count *)
  sb_closed : bool           (* is_close() *)
}.

Definition sb_height (b : sblock) : Z := get_height (sb_block b).
Definition sb_viewid (b : sblock) : Z := get_viewid (sb_block b).
Definition sb_account (b : sblock) : string := get_account (sb_block b).
Definition sb_hash (b : sblock) : string := get_block_hash (sb_block b).
Definition sb_last_hash (b : sblock) : string := get_last_block_hash (sb_block b).
Definition sb_level (b : sblock) : enum_xvblock_level := get_block_level (sb_block b).
Definition sb_flags (b : sblock) : Z := get_block_flags (sb_block b).
Definition sb_prev (b : sblock) : option ptr := b_prev (sb_block b).
Definition sb_cert (b : sblock) : xvqcert := b_cert (sb_block b).

(** A test on a copy of the flags: [(flags & f) != 0]. *)
Definition has_flag (flags f : Z) : bool := negb (Z.land flags f =? 0).

Class XStoreObj := {
  so_check_flag : sblock -> Z -> bool;                          (* check_block_flag *)
  so_set_flag : sblock -> Z -> sblock;                          (* set_block_flag *)
  so_remove_flag : sblock -> Z -> sblock;                       (* xvblockstore_t::remove_block_flag *)
  so_reset_prev : sblock -> option (ptr * sblock) -> bool * sblock;   (* reset_prev_block *)
  so_reset_next : sblock -> ptr * sblock -> bool * sblock;      (* reset_next_block *)
  so_set_next_next_cert : sblock -> xvqcert -> sblock;
  so_close : sblock -> sblock;
  so_add_modified : sblock -> sblock;                           (* add_modified_count *)
  so_reset_modified : sblock -> sblock;                         (* reset_modified_count *)
  so_input_ready : sblock -> bool -> bool;
  so_output_ready : sblock -> bool -> bool;
  so_deliver : sblock -> bool -> bool;
  so_units : sblock -> option (list sblock);   (* the cast to xtable_block_t, then get_tableblock_units(true) *)
}.

(** Everything of a block but its links, its counter and its flags. *)
Definition same_header (b b' : sblock) : Prop :=
  b_header (sb_block b') = b_header (sb_block b) /\ sb_class b' = sb_class b
  /\ sb_viewid b' = sb_viewid b.
(** ... and its flags: what the link and counter operations leave alone. *)
Definition same_core (b b' : sblock) : Prop :=
  same_header b b' /\ sb_hash b' = sb_hash b /\ b_flags (sb_block b') = b_flags (sb_block b).

#[export] Instance same_header_preorder : PreOrder same_header.
Proof. split; [done|]. intros ? ? ? (? & ? & ?) (? & ? & ?). split_and!; congruence. Qed.
#[export] Instance same_core_preorder : PreOrder same_core.
Proof. split; [done|]. intros ? ? ? (? & ? & ?) (? & ? & ?). split_and!; [by etrans|congruence..]. Qed.

(** What the headers document of these methods: setting and removing a flag
    changes the flags by exactly that flag, and the hash of the block, which is
    the hash of its certificate, does not depend on the flags the store sets;
    [reset_prev_block] "return false
    if hash or height not match", so a link it makes matches both; the link
    and counter operations change links and counter only; [close]
    disconnects. *)
Class XStoreObjLaws `{XStoreObj} : Prop := {
  so_check_flag_spec : forall b f, so_check_flag b f = has_flag (b_flags (sb_block b)) f;
  so_set_flag_header : forall b f, same_header b (so_set_flag b f);
  so_set_flag_flags : forall b f, b_flags (sb_block (so_set_flag b f)) = Z.lor (b_flags (sb_block b)) f;
  so_set_flag_hash : forall b f,
    f <> enum_xvblock_flag_authenticated -> sb_hash (so_set_flag b f) = sb_hash b;
  so_set_flag_prev : forall b f, sb_prev (so_set_flag b f) = sb_prev b;
  so_remove_flag_header : forall b f, same_header b (so_remove_flag b f);
  so_remove_flag_flags : forall b f,
    b_flags (sb_block (so_remove_flag b f)) = Z.ldiff (b_flags (sb_block b)) f;
  so_remove_flag_hash : forall b f, sb_hash (so_remove_flag b f) = sb_hash b;
  so_remove_flag_prev : forall b f, sb_prev (so_remove_flag b f) = sb_prev b;
  so_reset_prev_core : forall b o, same_core b (so_reset_prev b o).2;
  so_reset_prev_link : forall b o q, sb_prev (so_reset_prev b o).2 = Some q ->
    sb_prev b = Some q
    \/ exists qb, o = Some (q, qb) /\ sb_height b = sb_height qb + 1 /\ sb_last_hash b = sb_hash qb;
  so_reset_prev_true : forall b q qb,
    (so_reset_prev b (Some (q, qb))).1 = true -> sb_prev (so_reset_prev b (Some (q, qb))).2 = Some q;
  so_reset_next_core : forall b n, same_core b (so_reset_next b n).2;
  so_reset_next_prev : forall b n, sb_prev (so_reset_next b n).2 = sb_prev b;
  so_set_nnc_core : forall b c, same_core b (so_set_next_next_cert b c);
  so_set_nnc_prev : forall b c, sb_prev (so_set_next_next_cert b c) = sb_prev b;
  so_close_core : forall b, same_core b (so_close b);
  so_close_prev : forall b, sb_prev (so_close b) = None;
  so_add_modified_core : forall b, same_core b (so_add_modified b);
  so_add_modified_prev : forall b, sb_prev (so_add_modified b) = sb_prev b;
  so_reset_modified_core : forall b, same_core b (so_reset_modified b);
  so_reset_modified_prev : forall b, sb_prev (so_reset_modified b) = sb_prev b;
}.

(** ** The database and the other services *)

Class XStoreFace (DB : Type) := {
  set_vblock : DB -> string -> sblock -> bool * DB;
  set_vblock_header : DB -> string -> sblock -> bool * DB;
  get_vblock : DB -> string -> string -> Z -> option sblock;
  get_vblock_input : DB -> string -> sblock -> bool * sblock;
  get_vblock_output : DB -> string -> sblock -> bool * sblock;
  db_execute_block : DB -> sblock -> bool * DB;
  clone_account : DB -> string -> option (Z * string);     (* last height and last block hash *)
  get_value : DB -> string -> string;
  set_value : DB -> string -> string -> bool * DB;
}.

Class XStoreEnv (DB : Type) := {
  create_genesis_block : string -> option sblock;
  blockstore_store_block : DB -> sblock -> bool * DB;      (* m_blockstore->store_block(unit) *)
  block_to_string : sblock -> string;                      (* serialize_to_string *)
  create_block_object : string -> option sblock;
  set_input_res : sblock -> string -> sblock;              (* set_input_resources *)
  set_output_res : sblock -> string -> sblock;
  meta_pack : string -> string;                            (* xdataobj_t::serialize_to around do_write *)
  meta_unpack : string -> option string;                   (* xdataunit_t::read_from up to do_read *)
}.

(** A block object read back carries no links, which are "just using them at
    running"; its height is a 64-bit number below the largest one; filling in
    the resources of a block changes nothing else of it. *)
Definition new_object (b : sblock) : Prop := sb_prev b = None /\ 0 <= sb_height b < 2 ^ 64 - 1.

Class XStoreFaceLaws (DB : Type) `{XStoreFace DB} `{XStoreEnv DB} : Prop := {
  get_vblock_new : forall d path a h b, get_vblock d path a h = Some b -> new_object b;
  genesis_new : forall a b, create_genesis_block a = Some b -> new_object b;
  get_vblock_input_core : forall d a b, same_core b (get_vblock_input d a b).2;
  get_vblock_input_prev : forall d a b, sb_prev (get_vblock_input d a b).2 = sb_prev b;
  get_vblock_output_core : forall d a b, same_core b (get_vblock_output d a b).2;
  get_vblock_output_prev : forall d a b, sb_prev (get_vblock_output d a b).2 = sb_prev b;
}.

(** ** The meta record of an account *)

Record xacctmeta := XAcctMeta {
  _highest_cert_block_height : Z;
  _highest_lock_block_height : Z;
  _highest_commit_block_height : Z;
  _highest_execute_block_height : Z;
  _highest_full_block_height : Z;
  _highest_connect_block_height : Z;
  _highest_connect_block_hash : string;
  _highest_execute_block_hash : string
}.

#[export] Instance xacctmeta_eq_dec : EqDecision xacctmeta.
Proof. solve_decision. Defined.

Definition new_meta : xacctmeta := XAcctMeta 0 0 0 0 0 0 "" "".

Definition meta_do_write (m : xacctmeta) : string :=
  write_u64 (_highest_cert_block_height m) +:+ write_u64 (_highest_lock_block_height m) +:+
  write_u64 (_highest_commit_block_height m) +:+ write_u64 (_highest_execute_block_height m) +:+
  write_u64 (_highest_full_block_height m) +:+ write_u64 (_highest_connect_block_height m) +:+
  write_tiny_string (_highest_connect_block_hash m) +:+ write_tiny_string (_highest_execute_block_hash m).

Definition meta_do_read : reader xacctmeta :=
  let* cert := read_u64 in
  let* lock := read_u64 in
  let* commit := read_u64 in
  let* exec := read_u64 in
  let* full := read_u64 in
  let* connect := read_u64 in
  let* chash := read_tiny_string in
  let* ehash := read_tiny_string in
  ret (XAcctMeta cert lock commit exec full connect chash ehash).

Section MetaCodec.
Context {DB : Type} `{XStoreEnv DB}.

(** [serialize_to_string] and [xacctmeta_t::load]. *)
Definition meta_to_string (m : xacctmeta) : string := meta_pack (meta_do_write m).
Definition meta_load (bin : string) : option xacctmeta :=
  if bool_decide (bin = "") then None
  else match meta_unpack bin with
       | None => None
       | Some body => option_map fst (meta_do_read body)
       end.
End MetaCodec.

(** Assignments to one field. *)
Definition mt_set_cert (h : Z) (m : xacctmeta) : xacctmeta :=
  XAcctMeta h (_highest_lock_block_height m) (_highest_commit_block_height m) (_highest_execute_block_height m)
    (_highest_full_block_height m) (_highest_connect_block_height m) (_highest_connect_block_hash m)
    (_highest_execute_block_hash m).
Definition mt_set_lock (h : Z) (m : xacctmeta) : xacctmeta :=
  XAcctMeta (_highest_cert_block_height m) h (_highest_commit_block_height m) (_highest_execute_block_height m)
    (_highest_full_block_height m) (_highest_connect_block_height m) (_highest_connect_block_hash m)
    (_highest_execute_block_hash m).
Definition mt_set_commit (h : Z) (m : xacctmeta) : xacctmeta :=
  XAcctMeta (_highest_cert_block_height m) (_highest_lock_block_height m) h (_highest_execute_block_height m)
    (_highest_full_block_height m) (_highest_connect_block_height m) (_highest_connect_block_hash m)
    (_highest_execute_block_hash m).
Definition mt_set_exec (h : Z) (hash : string) (m : xacctmeta) : xacctmeta :=
  XAcctMeta (_highest_cert_block_height m) (_highest_lock_block_height m) (_highest_commit_block_height m) h
    (_highest_full_block_height m) (_highest_connect_block_height m) (_highest_connect_block_hash m) hash.
Definition mt_set_full (h : Z) (m : xacctmeta) : xacctmeta :=
  XAcctMeta (_highest_cert_block_height m) (_highest_lock_block_height m) (_highest_commit_block_height m)
    (_highest_execute_block_height m) h (_highest_connect_block_height m) (_highest_connect_block_hash m)
    (_highest_execute_block_hash m).
Definition mt_set_connect (h : Z) (hash : string) (m : xacctmeta) : xacctmeta :=
  XAcctMeta (_highest_cert_block_height m) (_highest_lock_block_height m) (_highest_commit_block_height m)
    (_highest_execute_block_height m) (_highest_full_block_height m) h hash (_highest_execute_block_hash m).

(** [if (h > m->_highest_..) m->_highest_.. = h]. *)
Definition mt_raise_cert (h : Z) (m : xacctmeta) : xacctmeta :=
  if _highest_cert_block_height m <? h then mt_set_cert h m else m.
Definition mt_raise_lock (h : Z) (m : xacctmeta) : xacctmeta :=
  if _highest_lock_block_height m <? h then mt_set_lock h m else m.
Definition mt_raise_commit (h : Z) (m : xacctmeta) : xacctmeta :=
  if _highest_commit_block_height m <? h then mt_set_commit h m else m.
Definition mt_raise_full (h class : Z) (m : xacctmeta) : xacctmeta :=
  if (_highest_full_block_height m <? h) && (class =? enum_xvblock_class_full) then mt_set_full h m else m.

(** ** Flags and links *)

Abbreviation flagged b f := (has_flag (b_flags (sb_block b)) f = true).

(** [c] is a child of [b]: one higher, and its header names [b]. *)
Definition extends (c b : sblock) : Prop := sb_height c = sb_height b + 1 /\ sb_last_hash c = sb_hash b.

Lemma has_flag_masked fl f : Z.land enum_xvblock_flags_mask f = f ->
  has_flag (Z.land fl enum_xvblock_flags_mask) f = has_flag fl f.
Proof. intros E. unfold has_flag. by rewrite <- Z.land_assoc, E. Qed.
Lemma has_flag_lor fl g f : has_flag (Z.lor fl g) f = has_flag fl f || has_flag g f.
Proof.
  unfold has_flag. rewrite Z.land_lor_distr_l, <- negb_andb. f_equal. apply eq_true_iff_eq.
  guards. apply Z.lor_eq_0_iff.
Qed.
Lemma has_flag_ldiff fl g f : Z.land g f = 0 -> has_flag (Z.ldiff fl g) f = has_flag fl f.
Proof.
  intros E. unfold has_flag. do 2 f_equal. apply Z.bits_inj'. intros i Hi.
  apply (f_equal (fun x => Z.testbit x i)) in E. rewrite Z.land_spec, Z.bits_0 in E.
  rewrite !Z.land_spec, Z.ldiff_spec.
  destruct (Z.testbit fl i), (Z.testbit g i), (Z.testbit f i); done.
Qed.

(** What no operation of the store takes back: header, hash and the flags
    other than "stored" and "executed". *)
Definition grows (b b' : sblock) : Prop :=
  same_header b b' /\ sb_hash b' = sb_hash b
  /\ forall f, Z.land (Z.lor enum_xvblock_flag_stored enum_xvblock_flag_executed) f = 0 ->
       flagged b f -> flagged b' f.

#[export] Instance grows_preorder : PreOrder grows.
Proof.
  split; [done|]. intros ? ? ? (? & ? & H1) (? & ? & H2). split_and!; [by etrans|congruence|]. auto.
Qed.

Lemma same_header_height b b' : same_header b b' -> sb_height b' = sb_height b.
Proof. intros (E & _). unfold sb_height, get_height. by rewrite E. Qed.
Lemma same_header_last b b' : same_header b b' -> sb_last_hash b' = sb_last_hash b.
Proof. intros (E & _). unfold sb_last_hash, get_last_block_hash. by rewrite E. Qed.

Lemma extends_grows c b c' b' : extends c b -> grows c c' -> grows b b' -> extends c' b'.
Proof.
  intros [E1 E2] (Hc & _ & _) (Hb & Eh & _). unfold extends.
  rewrite (same_header_height _ _ Hc), (same_header_last _ _ Hc), (same_header_height _ _ Hb), Eh. done.
Qed.

Section GrowLaws.
Context `{XStoreObjLaws}.

Lemma core_grows b b' : same_core b b' -> grows b b'.
Proof. intros (? & ? & E). split_and!; try done. intros f _. by rewrite E. Qed.
Lemma set_flag_grows b f : f <> enum_xvblock_flag_authenticated -> grows b (so_set_flag b f).
Proof.
  intros Hf. split_and!; [apply so_set_flag_header|by apply so_set_flag_hash|].
  intros g _ Hg. by rewrite so_set_flag_flags, has_flag_lor, Hg.
Qed.
Lemma remove_flag_grows b f :
  f = enum_xvblock_flag_stored \/ f = enum_xvblock_flag_executed -> grows b (so_remove_flag b f).
Proof.
  intros Hf. split_and!; [apply so_remove_flag_header|apply so_remove_flag_hash|].
  intros g E Hg. rewrite so_remove_flag_flags, has_flag_ldiff; [done|].
  rewrite Z.land_lor_distr_l in E. apply Z.lor_eq_0_iff in E as [? ?]. by destruct Hf as [->| ->].
Qed.
End GrowLaws.
