(* ===== verification/StoreProg.v ===== *)
(** * Code that may stop

    The operations of the block store call each other through cycles the
    source does not bound, so they are given fuel, and they stop where the
    fuel ends as they do at a null pointer or an invalid iterator.  [prog S A]
    is such code on a state [S]: the value it returns, or [None] when it
    stopped, and in both cases the state it has reached.  What is proved of
    that state holds of every prefix of an execution, however long. *)

From stdpp Require Import prelude.
From S2P Require Import Prelude.

Declare Scope store_scope.
Delimit Scope store_scope with store.

Definition prog (S A : Type) : Type := S -> option A * S.

Section Prog.
Context {S : Type}.

Definition ret {A} (a : A) : prog S A := fun s => (Some a, s).
Definition bind {A B} (m : prog S A) (k : A -> prog S B) : prog S B :=
  fun s => match m s with (Some a, s') => k a s' | (None, s') => (None, s') end.
(** An undefined operation, or the end of the fuel. *)
Definition ub {A} : prog S A := fun s => (None, s).
Definition gets {A} (f : S -> A) : prog S A := fun s => (Some (f s), s).
Definition modify (f : S -> S) : prog S unit := fun s => (Some tt, f s).
Definition nonnull {A} (o : option A) : prog S A := match o with Some a => ret a | None => ub end.

Fixpoint for_each {A} (l : list A) (body : A -> prog S unit) : prog S unit :=
  match l with
  | [] => ret tt
  | x :: l' => bind (body x) (fun _ => for_each l' body)
  end.
Fixpoint find_prog {A} (test : A -> prog S bool) (l : list A) : prog S (option A) :=
  match l with
  | [] => ret None
  | x :: l' => bind (test x) (fun b => if b then ret (Some x) else find_prog test l')
  end.

(** Code that only reads. *)
Definition reads {A} (m : prog S A) (a : A) (s : S) : Prop := m s = (Some a, s).

Lemma reads_find {A} (test : A -> prog S bool) (f : A -> bool) l s :
  (forall x, x ∈ l -> reads (test x) (f x) s) -> reads (find_prog test l) (List.find f l) s.
Proof.
  induction l as [|x l IH]; intros Ht; [done|].
  unfold reads in *. cbn. unfold bind at 1. rewrite Ht by left.
  destruct (f x); cbn; [done|]. apply IH. intros y Hy. apply Ht. by right.
Qed.
End Prog.

Notation "'let*' x := m 'in' k" := (bind m (fun x => k))
  (at level 10, x pattern, m at level 100, k at level 200) : store_scope.
Notation "m ';;;' k" := (bind m (fun _ => k))
  (at level 199, k at level 200, right associativity) : store_scope.
