(* ===== verification/BlockStore.v ===== *)
(** * The block store of one account

    [xblockacct_t] and [xchainacct_t] of [xblockstore/src/xvblockhub.cpp]: the
    cache of blocks by height and view, the meta record, the database behind
    them, and the operations that store, load, link, lock, commit, connect,
    execute and evict blocks.

    Loading a block may link it to its neighbours, which may lock or commit
    one of them, which saves it, which may load the next block to execute, and
    so on: [load_block] and [save_block] recurse through each other and are
    given fuel.  Where the fuel ends they stop, as at a dangling iterator, and
    the state reached there is kept.  Loops over a map that the body may change keep the C++ iterator: the key
    it stands on, which must still be there when it moves.  Reference counts
    are not modelled: a released block stays in the object store. *)

From stdpp Require Import prelude gmap strings pretty.
From Stdlib Require Import ZArith Lia.
From S2P Require Import Prelude Stream StdMap VBlock StoreBlock StoreProg.

#[local] Open Scope store_scope.

(** What is fixed for an account object. *)
Record acctid := AcctId {
  id_account : string;     (* get_account() *)
  id_chainid : Z;
  id_path : string;        (* m_blockstore_path, ending in '/' *)
  id_mbus : bool;          (* m_persist_db->get_mbus() != NULL *)
  id_timer : bool          (* get_account() == sys_contract_beacon_timer_addr *)
}.

Abbreviation viewmap := (list (Z * ptr)).
Abbreviation heightmap := (list (Z * viewmap)).

Record acct (DB : Type) := Acct {
  ac_heap : gmap ptr sblock;
  ac_next : ptr;
  ac_blocks : heightmap;           (* m_all_blocks *)
  ac_meta : xacctmeta;             (* m_meta *)
  ac_last_vmeta : string;          (* m_last_save_vmeta_bin *)
  ac_db : DB;                      (* m_persist_db *)
  ac_closed : bool;                (* is_close() *)
  ac_events : list ptr             (* blocks announced on the bus, oldest first *)
}.
Arguments Acct {DB} _ _ _ _ _ _ _ _.
Arguments ac_heap {DB} _.
Arguments ac_next {DB} _.
Arguments ac_blocks {DB} _.
Arguments ac_meta {DB} _.
Arguments ac_last_vmeta {DB} _.
Arguments ac_db {DB} _.
Arguments ac_closed {DB} _.
Arguments ac_events {DB} _.

(** The idle time of an account: [m_last_access_time_ms], [m_idle_timeout_ms]. *)
Record idle := Idle { m_last_access_time_ms : Z; m_idle_timeout_ms : Z }.
Definition reset_cache_timeout (t : idle) (max_idle_time_ms : Z) : idle :=
  Idle (m_last_access_time_ms t) max_idle_time_ms.
Definition set_last_access_time (t : idle) (last_access_time : Z) : idle :=
  if m_last_access_time_ms t <? last_access_time then Idle last_access_time (m_idle_timeout_ms t) else t.
Definition is_live (t : idle) (timenow_ms : Z) : bool :=
  negb (u64 (m_idle_timeout_ms t + m_last_access_time_ms t) <? timenow_ms).

(** ** Map iterators *)

(** The entries from [find(k)] on. *)
Fixpoint map_from {V} (k : Z) (m : list (Z * V)) : list (Z * V) :=
  match m with
  | [] => []
  | (k', v) :: m' => if k =? k' then m else map_from k m'
  end.
(** The entry before and the entry after the one with key [k]. *)
Definition map_prev {V} (k : Z) (m : list (Z * V)) : option (Z * V) :=
  last (List.filter (fun e => e.1 <? k) m).
Definition map_next {V} (k : Z) (m : list (Z * V)) : option (Z * V) :=
  head (List.filter (fun e => k <? e.1) m).
(** A reverse iterator stands before its base; [None] is the base of
    [rbegin()]. *)
Definition rev_target {V} (base : option Z) (m : list (Z * V)) : option (Z * V) :=
  match base with None => last m | Some k => map_prev k m end.
Definition base_valid {V} (base : option Z) (m : list (Z * V)) : bool :=
  match base with None => true | Some k => bool_decide (is_Some (map_find k m)) end.

Section Store.
Context {DB : Type} `{XStoreObj} `{XStoreFace DB} `{XStoreEnv DB} (A : acctid).
Abbreviation St := (acct DB).
Abbreviation P := (prog (acct DB)).

(** ** State access *)

Definition with_heap (s : St) (x : gmap ptr sblock) : St :=
  Acct x (ac_next s) (ac_blocks s) (ac_meta s) (ac_last_vmeta s) (ac_db s) (ac_closed s) (ac_events s).
Definition with_cache (s : St) (x : heightmap) : St :=
  Acct (ac_heap s) (ac_next s) x (ac_meta s) (ac_last_vmeta s) (ac_db s) (ac_closed s) (ac_events s).
Definition with_meta (s : St) (x : xacctmeta) : St :=
  Acct (ac_heap s) (ac_next s) (ac_blocks s) x (ac_last_vmeta s) (ac_db s) (ac_closed s) (ac_events s).
Definition with_vmeta (s : St) (x : string) : St :=
  Acct (ac_heap s) (ac_next s) (ac_blocks s) (ac_meta s) x (ac_db s) (ac_closed s) (ac_events s).
Definition with_db (s : St) (x : DB) : St :=
  Acct (ac_heap s) (ac_next s) (ac_blocks s) (ac_meta s) (ac_last_vmeta s) x (ac_closed s) (ac_events s).
Definition with_closed (s : St) (x : bool) : St :=
  Acct (ac_heap s) (ac_next s) (ac_blocks s) (ac_meta s) (ac_last_vmeta s) (ac_db s) x (ac_events s).
Definition with_event (s : St) (p : ptr) : St :=
  Acct (ac_heap s) (ac_next s) (ac_blocks s) (ac_meta s) (ac_last_vmeta s) (ac_db s) (ac_closed s)
    (ac_events s ++ [p]).

(** A new object behind the next pointer. *)
Definition with_new (s : St) (b : sblock) : St :=
  Acct (<[ac_next s := b]> (ac_heap s)) (Pos.succ (ac_next s)) (ac_blocks s) (ac_meta s)
    (ac_last_vmeta s) (ac_db s) (ac_closed s) (ac_events s).

Definition sderef (p : ptr) : P sblock :=
  fun s => (ac_heap s !! p, s).
Definition sput (p : ptr) (b : sblock) : P unit :=
  modify (fun s => with_heap s (<[p := b]> (ac_heap s))).
Definition supd (p : ptr) (f : sblock -> sblock) : P unit := let* b := sderef p in sput p (f b).
Definition snew (b : sblock) : P ptr := fun s => (Some (ac_next s), with_new s b).
Definition meta : P xacctmeta := gets ac_meta.
Definition set_meta (f : xacctmeta -> xacctmeta) : P unit :=
  modify (fun s => with_meta s (f (ac_meta s))).
Definition cache : P heightmap := gets ac_blocks.
Definition set_cache (f : heightmap -> heightmap) : P unit :=
  modify (fun s => with_cache s (f (ac_blocks s))).
Definition on_db {R} (f : DB -> R * DB) : P R :=
  fun s => let '(r, d) := f (ac_db s) in (Some r, with_db s d).

(** Methods of a block object behind a pointer. *)
Definition check_flag (p : ptr) (f : Z) : P bool := let* b := sderef p in ret (so_check_flag b f).
Definition set_flag (p : ptr) (f : Z) : P unit := supd p (fun b => so_set_flag b f).
Definition remove_flag (p : ptr) (f : Z) : P unit := supd p (fun b => so_remove_flag b f).
Definition close_block (p : ptr) : P unit := supd p so_close.
Definition reset_prev_block (p : ptr) (q : option ptr) : P bool :=
  let* b := sderef p in
  let* o := match q with None => ret None | Some q => let* qb := sderef q in ret (Some (q, qb)) end in
  let r := so_reset_prev b o in
  sput p r.2 ;;; ret r.1.
Definition reset_next_block (p q : ptr) : P unit :=
  let* b := sderef p in
  let* qb := sderef q in
  sput p (so_reset_next b (q, qb)).2.

(** The map of the blocks at a height; the height must be in the cache. *)
Definition views_at (h : Z) : P viewmap := let* m := cache in nonnull (map_find h m).
Definition erase_view (h v : Z) : P unit :=
  let* vs := views_at h in set_cache (map_set h (map_erase v vs)).

(** ** Values in the database *)

Definition get_meta_path : string :=
  pretty (id_chainid A) +:+ "/" +:+ id_account A +:+ "/meta".
Definition full_meta_path : string := id_path A +:+ get_meta_path.
Definition last_cert_block_path : string := full_meta_path +:+ "/lastcert/".

Definition load_value_by_path (key : string) : P string := gets (fun s => get_value (ac_db s) key).
Definition store_value_by_path (key value : string) : P bool := on_db (fun d => set_value d key value).

Definition store_block_by_path (path : string) (p : ptr) : P bool :=
  if bool_decide (path = "") then ret false else
  let* b := sderef p in
  (if negb (sb_class b =? enum_xvblock_class_nil)
   then let* i := nonnull (b_input (sb_block b)) in
        store_value_by_path (path +:+ "input") (in_resources i) ;;;
        let* o := nonnull (b_output (sb_block b)) in
        store_value_by_path (path +:+ "output") (out_resources o) ;;; ret tt
   else ret tt) ;;;
  store_value_by_path (path +:+ "header") (block_to_string b).

Definition load_block_by_path (path : string) (ask_full_load : bool) : P (option ptr) :=
  let* bin := load_value_by_path (path +:+ "header") in
  if bool_decide (bin = "") then ret None else
  match create_block_object bin with
  | None => ret None
  | Some b =>
      let* b := (if ask_full_load && negb (sb_class b =? enum_xvblock_class_nil) then
        let* i := load_value_by_path (path +:+ "input") in
        let* o := load_value_by_path (path +:+ "output") in
        let b := if bool_decide (i = "") then b else set_input_res b i in
        ret (if bool_decide (o = "") then b else set_output_res b o)
      else ret b) in
      let* p := snew b in ret (Some p)
  end.

Definition save_meta : P bool :=
  let* m := meta in
  let bin := meta_to_string m in
  let* last := gets ac_last_vmeta in
  if bool_decide (last = bin) then ret true
  else store_value_by_path full_meta_path bin ;;; modify (fun s => with_vmeta s bin) ;;; ret true.

(** ** Queries on the cache *)

Definition query_in (vs : viewmap) (flag : Z) : P (option ptr) :=
  let* r := find_prog (fun e => check_flag e.2 flag) (rev vs) in ret (option_map snd r).

Definition query_block (h flag : Z) : P (option ptr) :=
  let* m := cache in
  match map_find h m with
  | None => ret None
  | Some vs => query_in vs flag
  end.

Fixpoint query_heights (l : heightmap) (flag : Z) : P (option ptr) :=
  match l with
  | [] => ret None
  | (_, vs) :: l' =>
      let* r := query_in vs flag in
      match r with Some p => ret (Some p) | None => query_heights l' flag end
  end.
Definition query_latest_block (flag : Z) : P (option ptr) :=
  let* m := cache in query_heights (rev m) flag.

Definition get_block (h viewid : Z) : P (option ptr) :=
  let* m := cache in
  match map_find h m with
  | None => ret None
  | Some vs =>
      let* r := find_prog (fun e => let* b := sderef e.2 in
        ret ((0 =? viewid) || (sb_viewid b =? viewid))) (rev vs) in
      ret (option_map snd r)
  end.
Definition get_block_by_hash (h : Z) (hash : string) : P (option ptr) :=
  let* m := cache in
  match map_find h m with
  | None => ret None
  | Some vs =>
      let* r := find_prog (fun e => let* b := sderef e.2 in ret (bool_decide (hash = sb_hash b))) (rev vs) in
      ret (option_map snd r)
  end.
Definition get_blocks (h : Z) : P (list ptr) :=
  let* m := cache in ret (map snd (default [] (map_find h m))).

(** ** Saving to the database *)

(** A committed block that is not yet marked connected: step 1 of
    [save_to_xdb], and the same test in [load_block]. *)
Definition mark_connected (p : ptr) (h : Z) : P unit :=
  let* b := sderef p in
  let* m := meta in
  if h <=? _highest_connect_block_height m then set_flag p enum_xvblock_flag_connected
  else if sb_class b =? enum_xvblock_class_full then set_flag p enum_xvblock_flag_connected
  else
    let* quick := match sb_prev b with
                  | None => ret false
                  | Some q => check_flag q enum_xvblock_flag_connected
                  end in
    if quick then set_flag p enum_xvblock_flag_connected
    else if (h =? u64 (_highest_connect_block_height m + 1))
            && bool_decide (_highest_connect_block_hash m = sb_last_hash b)
    then set_flag p enum_xvblock_flag_connected
    else ret tt.

(** "search more": the committed blocks in the cache that follow the highest
    connected one are connected too. *)
Fixpoint connect_more (l : heightmap) : P unit :=
  match l with
  | [] => ret tt
  | (h, vs) :: l' =>
      let* m := meta in
      match vs with
      | (_, p) :: _ =>
          if h =? u64 (_highest_connect_block_height m + 1) then
            let* b := sderef p in
            if so_check_flag b enum_xvblock_flag_committed
               && bool_decide (sb_last_hash b = _highest_connect_block_hash m)
            then set_meta (mt_set_connect (sb_height b) (sb_hash b)) ;;;
                 set_flag p enum_xvblock_flag_connected ;;; connect_more l'
            else ret tt
          else ret tt
      | [] => ret tt
      end
  end.

Definition advance_connect (p : ptr) (h : Z) : P unit :=
  let* b := sderef p in
  let* m := meta in
  if so_check_flag b enum_xvblock_flag_connected && (_highest_connect_block_height m <? h) then
    set_meta (mt_set_connect h (sb_hash b)) ;;;
    let* all := cache in
    connect_more (map_from (u64 (h + 1)) all)
  else ret tt.

(** [on_block_stored_to_xdb] with [notify_commit_store_event]. *)
Definition on_block_stored_to_xdb (p : ptr) : P unit :=
  let* closed := gets ac_closed in
  if closed then ret tt else
  let* b := sderef p in
  if sb_height b =? 0 then ret tt
  else if has_flag (sb_flags b) enum_xvblock_flag_executed then ret tt
  else if has_flag (sb_flags b) enum_xvblock_flag_committed
          && has_flag (sb_flags b) enum_xvblock_flag_connected
  then if id_mbus A && (0 <? sb_height b) then modify (fun s => with_event s p) else ret tt
  else ret tt.

(** Step 3 of [save_to_xdb]; [flags] is the copy taken at its start. *)
Definition update_meta_stored (p : ptr) (h flags : Z) : P unit :=
  (if has_flag flags enum_xvblock_flag_authenticated then set_meta (mt_raise_cert h) else ret tt) ;;;
  (if has_flag flags enum_xvblock_flag_locked then set_meta (mt_raise_lock h) else ret tt) ;;;
  if has_flag flags enum_xvblock_flag_committed then
    set_meta (mt_raise_lock h) ;;; set_meta (mt_raise_commit h) ;;;
    let* b := sderef p in
    set_meta (mt_raise_full h (sb_class b)) ;;; advance_connect p h
  else ret tt.

Definition after_store (p : ptr) (h flags : Z) (stored : bool) : P bool :=
  (if stored then update_meta_stored p h flags ;;; on_block_stored_to_xdb p else ret tt) ;;; ret stored.

(** Steps 2 to 4. *)
Definition persist (p : ptr) (h flags : Z) : P bool :=
  if negb (has_flag flags enum_xvblock_flag_stored) then
    set_flag p enum_xvblock_flag_stored ;;;
    let* b := sderef p in
    let* ok := on_db (fun d => set_vblock d (id_path A) b) in
    (if ok then supd p so_reset_modified else remove_flag p enum_xvblock_flag_stored) ;;;
    after_store p h flags ok
  else
    let* b := sderef p in
    if sb_modified b =? 0 then ret true
    else
      let* ok := on_db (fun d => set_vblock_header d (id_path A) b) in
      (if ok then supd p so_reset_modified else ret tt) ;;;
      after_store p h flags ok.

Definition save_to_xdb (p : ptr) : P bool :=
  let* b := sderef p in
  let h := sb_height b in
  let flags := sb_flags b in
  if has_flag flags enum_xvblock_flag_committed then
    (if has_flag flags enum_xvblock_flag_connected then ret tt else mark_connected p h) ;;;
    persist p h flags
  else if negb (has_flag flags enum_xvblock_flag_locked) then
    let* m := meta in
    (if _highest_cert_block_height m <? h
     then set_meta (mt_set_cert h) ;;; store_block_by_path last_cert_block_path p ;;; ret tt
     else ret tt) ;;;
    ret true
  else persist p h flags.

(** ** Execution *)

Fixpoint store_units (units : list sblock) : P bool :=
  match units with
  | [] => ret true
  | u :: l =>
      let* ok := on_db (fun d => blockstore_store_block d u) in
      if ok then store_units l else ret false
  end.

Definition unload_subblock_from_container (p : ptr) : P bool :=
  let* b := sderef p in
  if negb (sb_class b =? enum_xvblock_class_nil)
     && has_flag (sb_flags b) enum_xvblock_flag_committed
     && negb (has_flag (sb_flags b) enum_xvblock_flag_unpacked)
     && bool_decide (sb_level b = level_table)
  then match so_units b with
       | None => ret true
       | Some units =>
           let* ok := store_units units in
           if negb ok then ret false
           else (match units with [] => ret tt | _ => set_flag p enum_xvblock_flag_unpacked end) ;;; ret true
       end
  else ret true.

(** The test of [execute_block] for the next block to execute. *)
Definition is_ready_to_executed (m : xacctmeta) (b : sblock) : bool :=
  ((0 =? _highest_execute_block_height m) && (sb_height b =? 0))
  || ((sb_height b =? u64 (_highest_execute_block_height m + 1))
      && bool_decide (sb_last_hash b = _highest_execute_block_hash m))
  || ((_highest_execute_block_height m <? sb_height b) && (sb_class b =? enum_xvblock_class_full)).

Definition execute_block (p : ptr) : P bool :=
  let* b := sderef p in
  if negb (so_check_flag b enum_xvblock_flag_committed)
     || negb (so_check_flag b enum_xvblock_flag_connected) then ret false
  else if so_check_flag b enum_xvblock_flag_executed then
    let* m := meta in
    (if _highest_execute_block_height m <? sb_height b
     then set_meta (mt_set_exec (sb_height b) (sb_hash b)) else ret tt) ;;; ret true
  else
    let* unloaded := unload_subblock_from_container p in
    if negb unloaded then ret false else
    let* b := sderef p in
    let* m := meta in
    if is_ready_to_executed m b then
      let* executed := on_db (fun d => db_execute_block d b) in
      if executed then
        set_flag p enum_xvblock_flag_executed ;;;
        let* stored := save_to_xdb p in
        if negb stored then remove_flag p enum_xvblock_flag_executed ;;; ret false
        else
          let* b := sderef p in
          set_meta (mt_set_exec (sb_height b) (sb_hash b)) ;;; ret true
      else ret false
    else ret false.

(** ** Loops over maps that their body may change *)

Fixpoint rev_loop (n : nat) (h : Z) (base : option Z) (body : ptr -> P unit) : P unit :=
  match n with
  | O => ub
  | S n' =>
      let* vs := views_at h in
      if base_valid base vs then
        match rev_target base vs with
        | None => ret tt
        | Some (_, p) =>
            body p ;;;
            let* vs := views_at h in
            if base_valid base vs then
              match rev_target base vs with
              | None => ub
              | Some (v, _) => rev_loop n' h (Some v) body
              end
            else ub
        end
      else ub
  end.

(** Forward, standing on view [v]. *)
Fixpoint fwd_loop (n : nat) (h : Z) (cur : option (Z * ptr)) (body : ptr -> P unit) : P unit :=
  match n, cur with
  | O, _ => ub
  | _, None => ret tt
  | S n', Some (v, p) =>
      body p ;;;
      let* vs := views_at h in
      if base_valid (Some v) vs then fwd_loop n' h (map_next v vs) body else ub
  end.

(** ** Candidates at one height *)

(** Erase the blocks of [vs] without [flag], closing them. *)
Fixpoint erase_without (h flag : Z) (vs : viewmap) : P unit :=
  match vs with
  | [] => ret tt
  | (v, p) :: l =>
      let* ok := check_flag p flag in
      (if ok then ret tt else close_block p ;;; erase_view h v) ;;; erase_without h flag l
  end.

Definition clean_candidates_by (h flags : Z) : P bool :=
  let* vs := views_at h in
  (if has_flag flags enum_xvblock_flag_committed then erase_without h enum_xvblock_flag_committed vs
   else if has_flag flags enum_xvblock_flag_locked then erase_without h enum_xvblock_flag_locked vs
   else ret tt) ;;; ret true.

Definition clean_candidates (p : ptr) : P bool :=
  let* b := sderef p in
  let* m := cache in
  match map_find (sb_height b) m with
  | None => ret false
  | Some _ => clean_candidates_by (sb_height b) (sb_flags b)
  end.

(** ** Loading a block's resources *)

Definition load_block_input (p : ptr) : P bool :=
  let* b := sderef p in
  if (sb_class b =? enum_xvblock_class_nil) || so_input_ready b true then ret true
  else if so_check_flag b enum_xvblock_flag_committed || so_check_flag b enum_xvblock_flag_locked then
    let* d := gets ac_db in
    let r := get_vblock_input d (id_account A) b in
    sput p r.2 ;;; ret r.1
  else ret true.
Definition load_block_output (p : ptr) : P bool :=
  let* b := sderef p in
  if (sb_class b =? enum_xvblock_class_nil) || so_output_ready b true then ret true
  else if so_check_flag b enum_xvblock_flag_committed || so_check_flag b enum_xvblock_flag_locked then
    let* d := gets ac_db in
    let r := get_vblock_output d (id_account A) b in
    sput p r.2 ;;; ret r.1
  else ret true.

(** ** Saving, linking and loading

    [load_rec] and [save_rec] are the recursive calls. *)

Section Open.
Context (load_rec : Z -> Z -> P (option ptr)) (save_rec : ptr -> P bool) (n : nat).

Definition load_block_object_open (h : Z) (ask_full_load : bool) : P (option ptr) :=
  let* o := query_block h enum_xvblock_flag_locked in
  let* o := match o with Some p => ret (Some p) | None => load_rec h 1 end in
  (match o with
   | Some p => if ask_full_load then load_block_input p ;;; load_block_output p ;;; ret tt else ret tt
   | None => ret tt
   end) ;;; ret o.

(** "then, try to execute history block": [i] counts up to the highest
    connected height, which may move. *)
Fixpoint execute_history (k : nat) (i : Z) : P bool :=
  match k with
  | O => ub
  | S k' =>
      let* m := meta in
      if i <=? _highest_connect_block_height m then
        let* o := load_block_object_open (u64 (_highest_execute_block_height m + 1)) true in
        match o with
        | None => execute_history k' (u64 (i + 1))
        | Some q =>
            let* ok := execute_block q in
            if ok then execute_history k' (u64 (i + 1)) else ret false
        end
      else ret true
  end.

Definition save_block_body (p : ptr) : P bool :=
  let* b := sderef p in
  (if (sb_height b =? 1) && has_flag (sb_flags b) enum_xvblock_flag_committed then
     let* g := query_block 0 enum_xvblock_flag_committed in
     match g with
     | Some g =>
         let* stored := check_flag g enum_xvblock_flag_stored in
         if stored then ret tt else save_rec g ;;; ret tt
     | None => ret tt
     end
   else ret tt) ;;;
  let* saved := save_to_xdb p in
  if saved then
    execute_block p ;;;
    let* m := meta in
    if _highest_execute_block_height m <? _highest_connect_block_height m
    then execute_history n (u64 (_highest_execute_block_height m + 1))
    else ret true
  else ret false.

(** The three-chain rule of [xchainacct_t]. *)
Definition process_block (p : ptr) : P bool :=
  let* this := sderef p in
  match sb_prev this with
  | None => ret false
  | Some q =>
      let* prev := sderef q in
      let* m := meta in
      (if negb (so_check_flag prev enum_xvblock_flag_locked)
          || (_highest_lock_block_height m <? sb_height prev) then
         set_flag q enum_xvblock_flag_locked ;;;
         let* locked := check_flag p enum_xvblock_flag_locked in
         (if locked then
            set_flag q enum_xvblock_flag_committed ;;;
            let* this := sderef p in
            match sb_next this with
            | Some r => let* next := sderef r in supd q (fun b => so_set_next_next_cert b (sb_cert next))
            | None => ret tt
            end
          else ret tt) ;;;
         reset_next_block q p ;;;
         save_rec q ;;; clean_candidates q ;;; ret tt
       else match sb_next prev with
            | None => reset_next_block q p
            | Some _ => ret tt
            end) ;;;
      let* prev := sderef q in
      match sb_prev prev with
      | None => ret true
      | Some r =>
          let* prev_prev := sderef r in
          let* m := meta in
          (if negb (so_check_flag prev_prev enum_xvblock_flag_committed)
              || (_highest_commit_block_height m <? sb_height prev_prev)
              || (_highest_execute_block_height m <? sb_height prev_prev) then
             set_flag r enum_xvblock_flag_committed ;;;
             reset_next_block r q ;;;
             let* this := sderef p in
             supd r (fun b => so_set_next_next_cert b (sb_cert this)) ;;;
             save_rec r ;;; clean_candidates r ;;; ret tt
           else match sb_next prev_prev with
                | None => reset_next_block r q
                | Some _ => ret tt
                end) ;;;
          let* prev_prev := sderef r in
          (match b_next_next_cert (sb_block prev_prev) with
           | None => let* this := sderef p in supd r (fun b => so_set_next_next_cert b (sb_cert this))
           | Some _ => ret tt
           end) ;;;
          ret true
      end
  end.

(** Link [p] to the first of [vs] that matches, and process it. *)
Fixpoint link_prev (p : ptr) (vs : viewmap) : P unit :=
  match vs with
  | [] => ret tt
  | (_, q) :: l =>
      let* ok := reset_prev_block p (Some q) in
      if ok then process_block p ;;; ret tt else link_prev p l
  end.

(** [get_prev_block() == nullptr || get_prev_block()->is_close()] *)
Definition prev_missing (p : ptr) : P bool :=
  let* this := sderef p in
  match sb_prev this with
  | None => ret true
  | Some q => let* prev := sderef q in ret (sb_closed prev)
  end.

(** [xchainacct_t::connect_block]; the iterator stands on the height of [p]. *)
Definition connect_block (p : ptr) (reenter : Z) : P bool :=
  let* this := sderef p in
  let h := sb_height this in
  (if 0 <? h then
     let* m := cache in
     (match map_prev h m with
      | Some (hp, vs) => if h =? u64 (hp + 1) then link_prev p (rev vs) else ret tt
      | None => ret tt
      end) ;;;
     let* missing := prev_missing p in
     if missing && (0 <? reenter) then
       let* o := load_rec (u64 (h - 1)) (reenter - 1) in
       match o with
       | Some q =>
           let* ok := reset_prev_block p (Some q) in
           if ok then process_block p ;;; ret tt else ret tt
       | None => ret tt
       end
     else ret tt
   else ret tt) ;;;
  let* m := cache in
  match map_next h m with
  | Some (hn, _) =>
      if hn =? u64 (h + 1) then
        rev_loop n hn None (fun q =>
          let* ok := reset_prev_block q (Some p) in
          if ok then process_block q ;;; ret tt else ret tt) ;;;
        let* m := cache in
        match map_next hn m with
        | Some (hnn, _) =>
            if hnn =? u64 (h + 2) then
              rev_loop n hnn None (fun q => process_block q ;;; ret tt) ;;; ret true
            else ret true
        | None => ret true
        end
      else ret true
  | None => ret true
  end.

(** [xblockacct_t::connect_block], which [xchainacct_t] overrides: links
    without the three-chain rule. *)
Fixpoint base_link_prev (p : ptr) (vs : viewmap) : P unit :=
  match vs with
  | [] => ret tt
  | (_, q) :: l =>
      let* ok := reset_prev_block p (Some q) in
      if ok then reset_next_block q p else base_link_prev p l
  end.
Fixpoint base_link_next (p : ptr) (vs : viewmap) : P unit :=
  match vs with
  | [] => ret tt
  | (_, q) :: l => reset_prev_block q (Some p) ;;; reset_next_block p q ;;; base_link_next p l
  end.
Definition base_connect_block (p : ptr) (reload : Z) : P bool :=
  let* this := sderef p in
  let h := sb_height this in
  let* missing := (if 0 <? h then prev_missing p else ret false) in
  (if missing then
     let* m := cache in
     (match map_prev h m with
      | Some (hp, vs) => if h =? u64 (hp + 1) then base_link_prev p (rev vs) else ret tt
      | None => ret tt
      end) ;;;
     let* missing := prev_missing p in
     if missing && (0 <? reload) then
       let* o := load_rec (u64 (h - 1)) (reload - 1) in
       match o with
       | Some q =>
           let* ok := reset_prev_block p (Some q) in
           if ok then reset_next_block q p else ret tt
       | None => ret tt
       end
     else ret tt
   else ret tt) ;;;
  let* m := cache in
  (match map_next h m with
   | Some (hn, vs) => if hn =? u64 (h + 1) then base_link_next p (rev vs) else ret tt
   | None => ret tt
   end) ;;;
  ret true.

(** What [load_block] does for a block it has put in the cache; [None] when
    the block has none of the flags. *)
Definition load_meta (p : ptr) (target : Z) : P (option ptr) :=
  let* b := sderef p in
  if so_check_flag b enum_xvblock_flag_committed then
    set_meta (mt_raise_cert target) ;;; set_meta (mt_raise_lock target) ;;;
    set_meta (mt_raise_commit target) ;;; set_meta (mt_raise_full target (sb_class b)) ;;;
    (if so_check_flag b enum_xvblock_flag_connected then ret tt else mark_connected p target) ;;;
    advance_connect p target ;;; ret (Some p)
  else if so_check_flag b enum_xvblock_flag_locked then
    set_meta (mt_raise_cert target) ;;; set_meta (mt_raise_lock target) ;;; ret (Some p)
  else if so_check_flag b enum_xvblock_flag_authenticated then
    set_meta (mt_raise_cert target) ;;; ret (Some p)
  else ret None.

Definition load_block_body (target reenter : Z) : P (option ptr) :=
  let* d := gets ac_db in
  let found := match get_vblock d (id_path A) (id_account A) target with
               | Some b => Some b
               | None => if 0 =? target then create_genesis_block (id_account A) else None
               end in
  match found with
  | None => ret None
  | Some b =>
      let* p := snew (so_reset_modified b) in
      let* b := sderef p in
      if negb (target =? sb_height b) then ret None else
      set_cache (fun m => (map_emplace (sb_height b) [] m).1) ;;;
      let* vs := views_at (sb_height b) in
      let r := map_emplace (sb_viewid b) p vs in
      if r.2 then
        set_cache (map_set (sb_height b) r.1) ;;;
        connect_block p reenter ;;;
        load_meta p target
      else ret None
  end.
End Open.

Fixpoint load_block (n : nat) (target reenter : Z) {struct n} : P (option ptr) :=
  match n with
  | O => ub
  | S n' => load_block_body (load_block n') (save_block n') n' target reenter
  end
with save_block (n : nat) (p : ptr) {struct n} : P bool :=
  match n with
  | O => ub
  | S n' => save_block_body (load_block n') (save_block n') n' p
  end.

Definition load_block_object (n : nat) : Z -> bool -> P (option ptr) := load_block_object_open (load_block n).

(** ** Eviction *)

(** The heights [clean_blocks] never evicts, and when it evicts another one. *)
Definition may_evict (m : xacctmeta) (h : Z) : bool :=
  negb (h =? 0) && negb (h =? _highest_full_block_height m)
  && negb (h =? _highest_execute_block_height m) && (h <? _highest_commit_block_height m)
  && negb (h =? _highest_lock_block_height m) && negb (h =? _highest_connect_block_height m).

Fixpoint clean_loop (n : nat) (cur : option (Z * viewmap)) (keep : Z) : P unit :=
  match n, cur with
  | O, _ => ub
  | _, None => ret tt
  | S n', Some (h, _) =>
      let* all := cache in
      if Z.of_nat (length all) <=? keep then ret tt else
      let next := option_map fst (map_next h all) in
      let* vs := views_at h in
      let* m := meta in
      (match vs with
       | [] => set_cache (map_erase h)
       | (_, p) :: _ =>
           if may_evict m h then
             let* committed := check_flag p enum_xvblock_flag_committed in
             if (h <? _highest_connect_block_height m) || committed then
               fwd_loop n' h (head vs) (fun q =>
                 let* b := sderef q in
                 (if 0 <? sb_modified b then save_block n' q ;;; ret tt else ret tt) ;;;
                 close_block q) ;;;
               set_cache (map_erase h)
             else ret tt
           else ret tt
       end) ;;;
      match next with
      | None => ret tt
      | Some h' => let* vs := views_at h' in clean_loop n' (Some (h', vs)) keep
      end
  end.

Definition clean_blocks (n : nat) (keep : Z) : P bool :=
  let* all := cache in
  (if keep <? Z.of_nat (length all) then clean_loop n (head all) keep ;;; save_meta ;;; ret tt
   else ret tt) ;;; ret true.
Definition clean_caches (n : nat) : P bool := clean_blocks n 0.

(** ** Storing a block *)

Definition enum_max_cached_blocks : Z := 32.

Definition is_replace_existing_block (n : nat) (existing this : ptr) : P bool :=
  let* eb := sderef existing in
  if so_check_flag eb enum_xvblock_flag_committed then ret false else
  let* o := load_block_object n (u64 (sb_height eb + 1)) true in
  match o with
  | None => ret false
  | Some q =>
      let* nb := sderef q in
      let* tb := sderef this in
      ret (so_check_flag nb enum_xvblock_flag_committed && bool_decide (sb_last_hash nb = sb_hash tb))
  end.

(** Rule 1 and 2 of the cache for a committed, a locked and a certified
    block: erase what it outranks and find the slot it reuses; [None] when
    the cache holds a block of a higher stage. *)
Fixpoint scan_commit (h : Z) (vs : viewmap) (slot : option Z) : P (option Z) :=
  match vs with
  | [] => ret slot
  | (v, q) :: l =>
      let* c := check_flag q enum_xvblock_flag_committed in
      if c then scan_commit h l (Some v)
      else close_block q ;;; erase_view h v ;;; scan_commit h l slot
  end.
Fixpoint scan_lock (h : Z) (vs : viewmap) (slot : option Z) : P (option (option Z)) :=
  match vs with
  | [] => ret (Some slot)
  | (v, q) :: l =>
      let* b := sderef q in
      if so_check_flag b enum_xvblock_flag_committed then ret None
      else if so_check_flag b enum_xvblock_flag_locked then scan_lock h l (Some v)
      else close_block q ;;; erase_view h v ;;; scan_lock h l slot
  end.
Fixpoint scan_cert (viewid : Z) (vs : viewmap) (slot : option Z) : P (option (option Z)) :=
  match vs with
  | [] => ret (Some slot)
  | (v, q) :: l =>
      let* b := sderef q in
      if so_check_flag b enum_xvblock_flag_locked || so_check_flag b enum_xvblock_flag_committed then ret None
      else scan_cert viewid l (if sb_viewid b =? viewid then Some v else slot)
  end.

Definition apply_cache_rules (p : ptr) (h : Z) : P (option (option Z)) :=
  let* this := sderef p in
  let* vs := views_at h in
  if so_check_flag this enum_xvblock_flag_committed then
    let* slot := scan_commit h vs None in ret (Some slot)
  else if so_check_flag this enum_xvblock_flag_locked then scan_lock h vs None
  else if so_check_flag this enum_xvblock_flag_authenticated then scan_cert (sb_viewid this) vs None
  else ret (Some None).

(** Rule 3: the flags of the block in the slot are not older. *)
Definition is_outdated (existing_flags new_flags : Z) : bool :=
  (existing_flags =? new_flags)
  || (Z.land new_flags enum_xvblock_flags_high4bit_mask
      <? Z.land existing_flags enum_xvblock_flags_high4bit_mask)
  || (Z.land new_flags enum_xvblock_flags_low4bit_mask
      <? Z.land existing_flags enum_xvblock_flags_low4bit_mask).

Fixpoint relink_next (p : ptr) (vs : viewmap) : P unit :=
  match vs with
  | [] => ret tt
  | (_, q) :: l => reset_prev_block q (Some p) ;;; relink_next p l
  end.

Definition replace_in_slot (n : nat) (p existing : ptr) (h v : Z) : P bool :=
  let* eb := sderef existing in
  reset_prev_block p (sb_prev eb) ;;;
  let* stored := check_flag existing enum_xvblock_flag_stored in
  (if stored then set_flag p enum_xvblock_flag_stored else ret tt) ;;;
  let* vs := views_at h in
  set_cache (map_set h (map_set v p vs)) ;;;
  close_block existing ;;;
  let* all := cache in
  (match map_next h all with
   | Some (hn, nvs) => if hn =? u64 (h + 1) then relink_next p (rev nvs) else ret tt
   | None => ret tt
   end) ;;;
  save_block n p ;;; ret true.

(** A block for a slot that is taken. *)
Definition store_in_slot (n : nat) (p : ptr) (h v : Z) : P bool :=
  let* vs := views_at h in
  let* existing := nonnull (map_find v vs) in
  let* this := sderef p in
  if bool_decide (p = existing) then
    if sb_modified this =? 0 then ret true else save_block n p ;;; ret true
  else
    let* eb := sderef existing in
    let* replace := (if bool_decide (sb_hash eb = sb_hash this) then ret (Some false)
                     else let* r := is_replace_existing_block n existing p in
                          ret (if r then Some true else None)) in
    match replace with
    | None => ret false
    | Some is_replace =>
        let* vs := views_at h in
        let* existing' := nonnull (map_find v vs) in     (* the iterator is still valid *)
        let* eb := sderef existing in
        let* this := sderef p in
        if negb is_replace && is_outdated (sb_flags eb) (sb_flags this) then ret true
        else replace_in_slot n p existing h v
    end.

(** A block for a view no block of the cache has. *)
Definition store_new (n : nat) (p : ptr) (h : Z) : P bool :=
  let* this := sderef p in
  let* vs := views_at h in
  let r := map_emplace (sb_viewid this) p vs in
  if r.2 then
    set_cache (map_set h r.1) ;;;
    supd p so_add_modified ;;;
    let* ok := connect_block (load_block n) (save_block n) n p 1 in
    (if ok then
       let* this := sderef p in
       (if negb (sb_modified this =? 0) then save_block n p ;;; ret tt else ret tt) ;;;
       clean_blocks n enum_max_cached_blocks ;;; ret tt
     else
       let* vs := views_at h in
       let vs' := map_erase (sb_viewid this) vs in
       set_cache (match vs' with [] => map_erase h | _ => map_set h vs' end)) ;;;
    ret true
  else ret false.

Definition store_block (n : nat) (p : ptr) : P bool :=
  let* this := sderef p in
  if negb (so_input_ready this true) || negb (so_output_ready this true) || negb (so_deliver this false)
  then ret false else
  let h := sb_height this in
  set_cache (fun m => (map_emplace h [] m).1) ;;;
  let* vs := views_at h in
  let* m := meta in
  (match vs with
   | [] => if (h <=? _highest_commit_block_height m) || (h <=? _highest_execute_block_height m)
              || (h <=? _highest_connect_block_height m)
           then load_block n h 0 ;;; ret tt else ret tt
   | _ => ret tt
   end) ;;;
  let* slot := apply_cache_rules p h in
  match slot with
  | None => ret true
  | Some (Some v) => store_in_slot n p h v
  | Some None => store_new n p h
  end.

Fixpoint store_blocks (n : nat) (ps : list (option ptr)) : P bool :=
  match ps with
  | [] => ret true
  | None :: l => store_blocks n l
  | Some p :: l =>
      let* b := sderef p in
      (if bool_decide (sb_account b = id_account A) then store_block n p ;;; ret tt else ret tt) ;;;
      store_blocks n l
  end.

(** ** Deletion *)

Definition delete_block (p : ptr) : P bool :=
  let* b := sderef p in
  if so_check_flag b enum_xvblock_flag_locked then ret true else
  let* all := cache in
  match map_find (sb_height b) all with
  | None => ret true
  | Some vs =>
      (match map_find (sb_viewid b) vs with
       | Some q => close_block q
       | None => ret tt
       end) ;;;
      let vs' := map_erase (sb_viewid b) vs in
      set_cache (match vs' with [] => map_erase (sb_height b) | _ => map_set (sb_height b) vs' end) ;;;
      ret true
  end.

(** [delete_block(height)] erases the entry its loop variable stands on and
    then increments it. *)
Definition delete_block_at (h : Z) : P bool :=
  if negb (id_timer A) then ret true else
  let* all := cache in
  match map_find h all with
  | None => ret true
  | Some [] => set_cache (map_erase h) ;;; ret true
  | Some _ => ub
  end.

(** ** The latest blocks *)

Definition get_genesis_block (n : nat) : P (option ptr) := load_block_object n 0 true.

Definition get_latest_block (n : nat) (flag : Z) : P (option ptr) :=
  let* r := query_latest_block flag in
  match r with Some p => ret (Some p) | None => get_genesis_block n end.
Definition get_latest_cert_block (n : nat) : P (option ptr) := get_latest_block n enum_xvblock_flag_authenticated.
Definition get_latest_locked_block (n : nat) : P (option ptr) := get_latest_block n enum_xvblock_flag_locked.
Definition get_latest_committed_block (n : nat) : P (option ptr) := get_latest_block n enum_xvblock_flag_committed.
Definition get_latest_executed_block (n : nat) : P (option ptr) := get_latest_block n enum_xvblock_flag_executed.
Definition get_latest_connected_block (n : nat) : P (option ptr) := get_latest_block n enum_xvblock_flag_connected.

Definition get_latest_full_block (n : nat) : P (option ptr) :=
  let* m := meta in
  let* o := load_block_object n (_highest_full_block_height m) true in
  match o with
  | Some p => ret (Some p)
  | None =>
      let* c := query_latest_block enum_xvblock_flag_committed in
      match c with
      | Some p =>
          let* b := sderef p in
          if (sb_class b =? enum_xvblock_class_full) || (sb_height b =? 0) then ret (Some p)
          else load_block_object n (sb_last_full_height b) true
      | None => get_genesis_block n
      end
  end.

(** [get_latest_blocks_list]: one pass for the three stages.  The [break]
    leaves the loop over the views of one height only. *)
Record latest3 := Latest3 { l_cert : option ptr; l_lock : option ptr; l_commit : option ptr }.

Definition take_if (o : option ptr) (p : ptr) (ok : bool) : option ptr :=
  match o with Some _ => o | None => if ok then Some p else None end.
Definition all_found (l : latest3) : bool :=
  match l_cert l, l_lock l, l_commit l with Some _, Some _, Some _ => true | _, _, _ => false end.

Fixpoint latest_in_views (vs : viewmap) (l : latest3) : P latest3 :=
  match vs with
  | [] => ret l
  | (_, p) :: vs' =>
      let* b := sderef p in
      let l := Latest3 (take_if (l_cert l) p (so_check_flag b enum_xvblock_flag_authenticated))
                       (take_if (l_lock l) p (so_check_flag b enum_xvblock_flag_locked))
                       (take_if (l_commit l) p (so_check_flag b enum_xvblock_flag_committed)) in
      if all_found l then ret l else latest_in_views vs' l
  end.
Fixpoint latest_in_heights (hs : heightmap) (l : latest3) : P latest3 :=
  match hs with
  | [] => ret l
  | (_, vs) :: hs' => let* l := latest_in_views (rev vs) l in latest_in_heights hs' l
  end.

(** The source dereferences the block it falls back to. *)
Definition get_latest_blocks_list (n : nat) : P (ptr * ptr * option ptr) :=
  let* m := cache in
  let* l := latest_in_heights (rev m) (Latest3 None None None) in
  let* commit := match l_commit l with Some p => ret (Some p) | None => get_genesis_block n end in
  let* lock := match l_lock l with Some p => ret p | None => nonnull commit end in
  let cert := match l_cert l with Some p => p | None => lock end in
  ret (cert, lock, commit).

(** Find a block of the height with a certificate, in the cache or below. *)
Definition query_or_load (n : nat) (h : Z) (ask_full_load : bool) : P (option ptr) :=
  let* o := query_block h enum_xvblock_flag_authenticated in
  match o with Some p => ret (Some p) | None => load_block_object n h ask_full_load end.

(** The part of [get_latest_current_block] after the two shortcuts. *)
Definition current_from_connect (n : nat) (ask_full_load : bool) : P (option ptr) :=
  let* m := meta in
  let* o := query_or_load n (_highest_connect_block_height m) ask_full_load in
  match o with
  | None => get_genesis_block n
  | Some c0 =>
      let* m := meta in
      let* o := query_or_load n (u64 (_highest_connect_block_height m + 1)) ask_full_load in
      match o with
      | None => ret (Some c0)
      | Some c1 =>
          let* locked := check_flag c1 enum_xvblock_flag_locked in
          if negb locked then ret (Some c1) else
          let* m := meta in
          let* o := query_or_load n (u64 (_highest_connect_block_height m + 2)) ask_full_load in
          match o with
          | None => ret (Some c1)
          | Some c2 =>
              let* b1 := sderef c1 in
              let* b2 := sderef c2 in
              if negb (bool_decide (sb_hash b1 = sb_last_hash b2))
                 && ((negb (so_check_flag b1 enum_xvblock_flag_committed)
                      && so_check_flag b2 enum_xvblock_flag_committed)
                     || (negb (so_check_flag b1 enum_xvblock_flag_locked)
                         && so_check_flag b2 enum_xvblock_flag_locked))
              then ret (Some c0) else
              let* m := meta in
              let* o := query_or_load n (u64 (_highest_connect_block_height m + 3)) ask_full_load in
              match o with
              | None => ret (Some c2)
              | Some c3 =>
                  let* b2 := sderef c2 in
                  let* b3 := sderef c3 in
                  if negb (bool_decide (sb_hash b2 = sb_last_hash b3))
                     && so_check_flag b3 enum_xvblock_flag_committed
                  then ret (Some c1) else ret (Some c2)
              end
          end
      end
  end.

Definition get_latest_current_block (n : nat) (ask_full_load : bool) : P (option ptr) :=
  let* m := meta in
  let* o := (if _highest_cert_block_height m <=? 1 then get_latest_cert_block n else ret None) in
  match o with
  | Some p => ret (Some p)
  | None =>
      let* m := meta in
      let* o := (if (_highest_commit_block_height m =? _highest_connect_block_height m)
                    && (_highest_lock_block_height m =? u64 (_highest_commit_block_height m + 1))
                    && (_highest_cert_block_height m =? u64 (_highest_lock_block_height m + 1))
                 then get_latest_cert_block n else ret None) in
      match o with Some p => ret (Some p) | None => current_from_connect n ask_full_load end
  end.

(** ** Closing *)

(** The connected status [close_blocks] settles for a stored block. *)
Definition settle_connected (p : ptr) : P unit :=
  let* b := sderef p in
  if has_flag (sb_flags b) enum_xvblock_flag_stored then
    let* m := meta in
    if has_flag (sb_flags b) enum_xvblock_flag_connected then
      (if _highest_connect_block_height m <? sb_height b
       then set_meta (mt_set_connect (sb_height b) (sb_hash b)) else ret tt)
    else if (sb_height b =? u64 (_highest_connect_block_height m + 1))
            && has_flag (sb_flags b) enum_xvblock_flag_committed
            && bool_decide (_highest_connect_block_hash m = sb_last_hash b)
    then set_meta (mt_set_connect (sb_height b) (sb_hash b)) ;;; set_flag p enum_xvblock_flag_connected
    else ret tt
  else ret tt.

Definition close_one (n : nat) (p : ptr) : P unit :=
  settle_connected p ;;;
  let* b := sderef p in
  (if 0 <? sb_modified b then save_block n p ;;; ret tt else ret tt) ;;;
  close_block p.

Fixpoint close_heights (n : nat) (cur : option (Z * viewmap)) : P unit :=
  match n, cur with
  | O, _ => ub
  | _, None => ret tt
  | S n', Some (h, _) =>
      let* vs := views_at h in
      fwd_loop n' h (head vs) (close_one n') ;;;
      let* all := cache in
      close_heights n' (map_next h all)
  end.
Definition close_blocks (n : nat) : P unit :=
  let* all := cache in
  match all with
  | [] => ret tt
  | _ => close_heights n (head all) ;;; set_cache (fun _ => [])
  end.

Definition close (n : nat) : P bool :=
  let* closed := gets ac_closed in
  if closed then ret true else
  modify (fun s => with_closed s true) ;;;
  let* all := cache in
  (match last all with
   | Some (_, vs) =>
       match last vs with
       | Some (_, p) =>
           let* b := sderef p in
           if has_flag (sb_flags b) (Z.lor enum_xvblock_flag_locked enum_xvblock_flag_committed) then ret tt
           else store_block_by_path last_cert_block_path p ;;; ret tt
       | None => ret tt
       end
   | None => ret tt
   end) ;;;
  close_blocks n ;;; save_meta ;;; ret true.

(** ** Opening *)

(** The height [h] when a block could be loaded there. *)
Definition raise_if_loaded (n : nat) (h : Z) (raise : Z -> xacctmeta -> xacctmeta) : P unit :=
  let* o := load_block_object n h true in
  match o with Some _ => set_meta (raise h) | None => ret tt end.

Definition check_meta (n : nat) : P unit :=
  let* o := load_block_by_path last_cert_block_path true in
  (match o with
   | Some p =>
       let* b := sderef p in
       let* m := meta in
       if _highest_cert_block_height m <? sb_height b then
         set_meta (mt_set_cert (sb_height b)) ;;;
         let* m := meta in
         let try_lock_height := u64 (_highest_cert_block_height m - 1) in
         raise_if_loaded n try_lock_height mt_raise_lock ;;;
         raise_if_loaded n (u64 (try_lock_height - 1)) mt_raise_commit
       else ret tt
   | None => ret tt
   end) ;;;
  let* d := gets ac_db in
  match clone_account d (id_account A) with
  | None => ret tt
  | Some (last_height, last_hash) =>
      let* m := meta in
      if _highest_execute_block_height m <? last_height then
        set_meta (mt_set_exec last_height last_hash) ;;;
        set_meta (fun m => mt_raise_commit (_highest_execute_block_height m) m) ;;;
        set_meta (fun m => mt_raise_lock (_highest_commit_block_height m) m) ;;;
        let* m := meta in
        raise_if_loaded n (u64 (_highest_commit_block_height m + 1)) mt_raise_lock ;;;
        set_meta (fun m => mt_raise_cert (_highest_lock_block_height m) m)
      else ret tt
  end.

(** "error handling for db corrupt issue": step down to a block that loads. *)
Fixpoint reload_connect (n : nat) (tries : nat) : P unit :=
  match tries with
  | O => ret tt
  | S k =>
      let* m := meta in
      if 0 <? _highest_connect_block_height m then
        let h := _highest_connect_block_height m - 1 in
        set_meta (mt_set_connect h (_highest_connect_block_hash m)) ;;;
        let* o := load_block n h 1 in
        match o with
        | Some p => let* b := sderef p in
            set_meta (fun m => mt_set_connect (_highest_connect_block_height m) (sb_hash b) m)
        | None => reload_connect n k
        end
      else ret tt
  end.

(** Load a block and the full block it builds on. *)
Definition preload (n : nat) (h : Z) (on_miss : xacctmeta -> xacctmeta) : P unit :=
  let* o := load_block_object n h true in
  match o with
  | None => set_meta on_miss
  | Some p =>
      let* b := sderef p in
      if negb (sb_height b =? 0) then load_block_object n (sb_last_full_height b) true ;;; ret tt else ret tt
  end.

Definition init (n : nat) : P bool :=
  let* bin := load_value_by_path full_meta_path in
  set_meta (fun _ => default new_meta (meta_load bin)) ;;;
  check_meta n ;;;
  let* m := meta in
  let* o := load_block_object n (_highest_connect_block_height m) true in
  (match o with
   | None =>
       set_meta (fun m => mt_set_connect (_highest_connect_block_height m) "" m) ;;; reload_connect n 256
   | Some p =>
       let* b := sderef p in
       set_meta (fun m => if bool_decide (_highest_connect_block_hash m = "")
                          then mt_set_connect (_highest_connect_block_height m) (sb_hash b) m else m)
   end) ;;;
  let* m := meta in
  let* o := load_block_object n (_highest_full_block_height m) true in
  (match o with None => set_meta (mt_set_full 0) | Some _ => ret tt end) ;;;
  let* m := meta in preload n (_highest_execute_block_height m) (fun m => m) ;;;
  let* m := meta in preload n (_highest_commit_block_height m) (mt_set_commit 0) ;;;
  let* m := meta in
  preload n (_highest_lock_block_height m) (fun m => mt_set_lock (_highest_commit_block_height m) m) ;;;
  let* m := meta in
  (if _highest_lock_block_height m <? _highest_cert_block_height m then
     let* o := load_block_by_path last_cert_block_path true in
     match o with
     | Some p =>
         let* b := sderef p in
         if sb_height b =? _highest_cert_block_height m then store_block n p ;;; ret tt else ret tt
     | None => ret tt
     end
   else ret tt) ;;;
  ret true.
End Store.
