(* ===== verification/StoreSteps.v ===== *)
(** * What the block store may do: a guarded step relation

    The abstract specification of the block store.  A step is one atomic
    change of an account: linking two blocks, marking a block locked,
    committed, connected or executed, raising a height of the meta record,
    calling the database.  The steps that matter have guards: which block may
    be committed, connected, executed, and what the meta record may say.
    Every step keeps the well-formedness of the account and takes nothing
    back. *)

From stdpp Require Import prelude gmap strings relations.
From Stdlib Require Import ZArith Lia.
From S2P Require Import Prelude StdMap VBlock StoreBlock StoreProg BlockStore.

(** What a database has refused so far, an observation for the specification:
    the number of block writes that failed.  A database without such a counter
    is one when a counter is put beside it. *)
Class XWriteLog (DB : Type) `{XStoreFace DB} `{XStoreEnv DB} := {
  failed_writes : DB -> nat;
  failed_set : forall d path b r d', set_vblock d path b = (r, d') ->
    failed_writes d' = if r then failed_writes d else S (failed_writes d);
  failed_header : forall d path b r d', set_vblock_header d path b = (r, d') ->
    failed_writes d' = if r then failed_writes d else S (failed_writes d);
  failed_execute : forall d b, failed_writes (db_execute_block d b).2 = failed_writes d;
  failed_value : forall d k v, failed_writes (set_value d k v).2 = failed_writes d;
  failed_unit : forall d u, failed_writes (blockstore_store_block d u).2 = failed_writes d;
}.

Section Steps.
Context {DB : Type} `{XStoreObj} `{XStoreFace DB} `{XStoreEnv DB} `{!XWriteLog DB} (A : acctid).
Abbreviation St := (acct DB).

(** The rule by which a committed block is connected. *)
Definition connectable (s : St) (b : sblock) : Prop :=
  sb_height b <= _highest_connect_block_height (ac_meta s)
  \/ sb_class b = enum_xvblock_class_full
  \/ (exists q qb, sb_prev b = Some q /\ ac_heap s !! q = Some qb /\ flagged qb enum_xvblock_flag_connected)
  \/ (sb_height b = u64 (_highest_connect_block_height (ac_meta s) + 1)
      /\ sb_last_hash b = _highest_connect_block_hash (ac_meta s)).

(** The block the database, or the genesis factory, supplies. *)
Definition supplied (s : St) (b : sblock) : Prop :=
  exists b0, b = so_reset_modified b0
    /\ ((exists h, get_vblock (ac_db s) (id_path A) (id_account A) h = Some b0)
        \/ create_genesis_block (id_account A) = Some b0).

Abbreviation put s p b := (with_heap s (<[p := b]> (ac_heap s))).

(** The cache files blocks under their height. *)
Definition cached_at (h : gmap ptr sblock) (m : list (Z * list (Z * ptr))) : Prop :=
  forall k vs v p, (k, vs) ∈ m -> (v, p) ∈ vs -> exists b, h !! p = Some b /\ sb_height b = k.

(** The block whose execution is being recorded, and the writes refused before. *)
Abbreviation pending := (option (ptr * nat)).

Inductive astep : St * pending -> St * pending -> Prop :=
  (** bookkeeping *)
  | as_cache s pd m : cached_at (ac_heap s) m -> astep (s, pd) (with_cache s m, pd)
  | as_vmeta s pd x : astep (s, pd) (with_vmeta s x, pd)
  | as_closed s pd : astep (s, pd) (with_closed s true, pd)
  | as_value s pd k v : astep (s, pd) (with_db s (set_value (ac_db s) k v).2, pd)
  | as_unit s pd u : astep (s, pd) (with_db s (blockstore_store_block (ac_db s) u).2, pd)
  | as_alloc s pd b :
      supplied s b ->
      astep (s, pd) (with_new s b, pd)
  | as_link s pd p b b' :
      ac_heap s !! p = Some b -> same_core b b' ->
      (forall q, sb_prev b' = Some q ->
         sb_prev b = Some q \/ exists qb, ac_heap s !! q = Some qb /\ extends b qb) ->
      astep (s, pd) (put s p b', pd)
  | as_mark s pd p b f :
      ac_heap s !! p = Some b -> f = enum_xvblock_flag_stored \/ f = enum_xvblock_flag_unpacked ->
      astep (s, pd) (put s p (so_set_flag b f), pd)
  | as_unmark s pd p b :
      ac_heap s !! p = Some b -> astep (s, pd) (put s p (so_remove_flag b enum_xvblock_flag_stored), pd)
  (** only locked and committed blocks go to the database *)
  | as_persist s pd p b :
      ac_heap s !! p = Some b ->
      flagged b enum_xvblock_flag_locked \/ flagged b enum_xvblock_flag_committed ->
      astep (s, pd) (with_db s (set_vblock (ac_db s) (id_path A) b).2, pd)
  | as_persist_header s pd p b :
      ac_heap s !! p = Some b ->
      flagged b enum_xvblock_flag_locked \/ flagged b enum_xvblock_flag_committed ->
      astep (s, pd) (with_db s (set_vblock_header (ac_db s) (id_path A) b).2, pd)
  | as_event s pd p b :
      ac_heap s !! p = Some b ->
      flagged b enum_xvblock_flag_committed -> flagged b enum_xvblock_flag_connected ->
      has_flag (b_flags (sb_block b)) enum_xvblock_flag_executed = false ->
      astep (s, pd) (with_event s p, pd)
  (** the stages of a block *)
  | as_lock s pd p b c cb :
      ac_heap s !! p = Some b -> ac_heap s !! c = Some cb -> extends cb b ->
      astep (s, pd) (put s p (so_set_flag b enum_xvblock_flag_locked), pd)
  | as_commit s pd p b c cb :
      ac_heap s !! p = Some b -> ac_heap s !! c = Some cb -> extends cb b ->
      flagged cb enum_xvblock_flag_locked
      \/ (exists g gb, ac_heap s !! g = Some gb /\ extends gb cb) ->
      astep (s, pd) (put s p (so_set_flag b enum_xvblock_flag_committed), pd)
  | as_connect s pd p b :
      ac_heap s !! p = Some b -> flagged b enum_xvblock_flag_committed -> connectable s b ->
      astep (s, pd) (put s p (so_set_flag b enum_xvblock_flag_connected), pd)
  (** the meta record *)
  | as_raise_cert s pd p b :
      ac_heap s !! p = Some b -> astep (s, pd) (with_meta s (mt_raise_cert (sb_height b) (ac_meta s)), pd)
  | as_raise_lock s pd p b :
      ac_heap s !! p = Some b ->
      flagged b enum_xvblock_flag_locked \/ flagged b enum_xvblock_flag_committed ->
      astep (s, pd) (with_meta s (mt_raise_lock (sb_height b) (ac_meta s)), pd)
  | as_raise_commit s pd p b :
      ac_heap s !! p = Some b -> flagged b enum_xvblock_flag_committed ->
      astep (s, pd) (with_meta s (mt_raise_commit (sb_height b) (ac_meta s)), pd)
  | as_raise_full s pd p b :
      ac_heap s !! p = Some b -> flagged b enum_xvblock_flag_committed ->
      astep (s, pd) (with_meta s (mt_raise_full (sb_height b) (sb_class b) (ac_meta s)), pd)
  | as_raise_connect s pd p b :
      ac_heap s !! p = Some b ->
      (flagged b enum_xvblock_flag_connected /\ _highest_connect_block_height (ac_meta s) < sb_height b)
      \/ (flagged b enum_xvblock_flag_committed
          /\ sb_height b = u64 (_highest_connect_block_height (ac_meta s) + 1)
          /\ sb_last_hash b = _highest_connect_block_hash (ac_meta s)) ->
      astep (s, pd) (with_meta s (mt_set_connect (sb_height b) (sb_hash b) (ac_meta s)), pd)
  (** execution: the call, then its record or, when the block could not be
      saved, its withdrawal *)
  | as_execute s p b d :
      ac_heap s !! p = Some b ->
      flagged b enum_xvblock_flag_committed -> flagged b enum_xvblock_flag_connected ->
      is_ready_to_executed (ac_meta s) b = true -> db_execute_block (ac_db s) b = (true, d) ->
      astep (s, None) (put (with_db s d) p (so_set_flag b enum_xvblock_flag_executed),
                        Some (p, failed_writes (ac_db s)))
  | as_refused s p b d :
      ac_heap s !! p = Some b ->
      is_ready_to_executed (ac_meta s) b = true -> db_execute_block (ac_db s) b = (false, d) ->
      astep (s, None) (with_db s d, None)
  | as_executed s p n b :
      ac_heap s !! p = Some b ->
      astep (s, Some (p, n)) (with_meta s (mt_set_exec (sb_height b) (sb_hash b) (ac_meta s)), None)
  | as_withdraw s p n b :
      ac_heap s !! p = Some b -> (n < failed_writes (ac_db s))%nat ->
      astep (s, Some (p, n)) (put s p (so_remove_flag b enum_xvblock_flag_executed), None)
  | as_known s p b :
      ac_heap s !! p = Some b ->
      flagged b enum_xvblock_flag_committed -> flagged b enum_xvblock_flag_connected ->
      flagged b enum_xvblock_flag_executed -> _highest_execute_block_height (ac_meta s) < sb_height b ->
      astep (s, None) (with_meta s (mt_set_exec (sb_height b) (sb_hash b) (ac_meta s)), None).

(** ** Well-formed accounts *)

Definition linked (h : gmap ptr sblock) : Prop :=
  forall p b q, h !! p = Some b -> sb_prev b = Some q -> exists qb, h !! q = Some qb /\ extends b qb.

Record wf_acct (s : St) : Prop := {
  wf_fresh : forall p b, ac_heap s !! p = Some b -> (p < ac_next s)%positive;
  wf_linked : linked (ac_heap s);
  wf_cached : cached_at (ac_heap s) (ac_blocks s);
  wf_heights : forall p b, ac_heap s !! p = Some b -> 0 <= sb_height b < 2 ^ 64 - 1;
  wf_connect : 0 <= _highest_connect_block_height (ac_meta s) < 2 ^ 64 - 1;
  wf_execute : 0 <= _highest_execute_block_height (ac_meta s) < 2 ^ 64 - 1;
}.

(** Blocks stay, and keep what [grows] says. *)
Definition heap_grows (h h' : gmap ptr sblock) : Prop :=
  forall p b, h !! p = Some b -> exists b', h' !! p = Some b' /\ grows b b'.

#[export] Instance heap_grows_preorder : PreOrder heap_grows.
Proof.
  split; [intros h p b E; by exists b|]. intros h1 h2 h3 H12 H23 p b E.
  apply H12 in E as (b' & E & Hg). apply H23 in E as (b'' & E & Hg'). exists b''. split; [done|by etrans].
Qed.

Lemma heap_grows_put h p b b' : h !! p = Some b -> grows b b' -> heap_grows h (<[p := b']> h).
Proof.
  intros E Hg q c Ec. destruct (decide (p = q)) as [->|Hne].
  - exists b'. rewrite lookup_insert_eq. simplify_eq. done.
  - exists c. rewrite lookup_insert_ne; done.
Qed.
Lemma heap_grows_new (h : gmap ptr sblock) p b : h !! p = None -> heap_grows h (<[p := b]> h).
Proof. intros E q c Ec. exists c. rewrite lookup_insert_ne by congruence. done. Qed.

Lemma cached_grows h h' m : heap_grows h h' -> cached_at h m -> cached_at h' m.
Proof.
  intros Hg Hm k vs v p Hk Hv. destruct (Hm _ _ _ _ Hk Hv) as (b & E & <-).
  destruct (Hg _ _ E) as (b' & E' & Hb & _). exists b'. split; [done|]. by apply same_header_height.
Qed.

(** A replacement that grows a block and whose links are good. *)
Lemma wf_put s p b b' :
  wf_acct s -> ac_heap s !! p = Some b -> grows b b' ->
  (forall q, sb_prev b' = Some q ->
     sb_prev b = Some q \/ exists qb, ac_heap s !! q = Some qb /\ extends b qb) ->
  wf_acct (put s p b').
Proof.
  intros Hwf E Hg Hl. assert (Hh := heap_grows_put _ _ _ _ E Hg). split.
  - intros q c. cbn. destruct (decide (p = q)) as [->|Hne];
      [rewrite lookup_insert_eq|rewrite lookup_insert_ne by done]; intros; simplify_eq;
      by eapply (wf_fresh s).
  - assert (Hup : forall x q qb, ac_heap s !! q = Some qb -> extends x qb ->
              forall x', grows x x' -> exists qb', <[p := b']> (ac_heap s) !! q = Some qb' /\ extends x' qb').
    { intros x q qb Eq Hx x' Hxx. destruct (Hh _ _ Eq) as (qb' & Eq' & Hgq).
      exists qb'. split; [done|]. by eapply extends_grows. }
    intros q c r. cbn. destruct (decide (p = q)) as [->|Hne].
    + rewrite lookup_insert_eq. intros [= <-] Hr.
      destruct (Hl _ Hr) as [Hr'|(rb & Er & Hx)]; [|by eapply Hup].
      destruct (wf_linked _ Hwf _ _ _ E Hr') as (rb & Er & Hx). by eapply Hup.
    + rewrite lookup_insert_ne by done. intros Eq Hr.
      destruct (wf_linked _ Hwf _ _ _ Eq Hr) as (rb & Er & Hx). by eapply Hup.
  - by eapply cached_grows, (wf_cached _ Hwf).
  - intros q c. cbn. destruct (decide (p = q)) as [->|Hne];
      [rewrite lookup_insert_eq|rewrite lookup_insert_ne by done]; intros; simplify_eq;
      [|by eapply (wf_heights s)].
    rewrite (same_header_height _ _ (proj1 Hg)). by eapply (wf_heights s).
  - apply Hwf.
  - apply Hwf.
Qed.

Lemma wf_meta_change s m :
  wf_acct s -> 0 <= _highest_connect_block_height m < 2 ^ 64 - 1 ->
  0 <= _highest_execute_block_height m < 2 ^ 64 - 1 -> wf_acct (with_meta s m).
Proof. intros [] Hc He. by split. Qed.

Context `{!XStoreObjLaws} `{!XStoreFaceLaws DB}.

Lemma supplied_new s b : supplied s b -> new_object b.
Proof.
  intros (b0 & -> & Hb). assert (Hn : new_object b0).
  { destruct Hb as [(h & E)|E]; [by eapply get_vblock_new|by eapply genesis_new]. }
  destruct Hn as [Hp Hh]. unfold new_object. rewrite so_reset_modified_prev. split; [done|].
  by rewrite (same_header_height _ _ (proj1 (so_reset_modified_core b0))).
Qed.

(** Every step keeps the account well-formed and every block it has. *)
Lemma astep_ok x y : astep x y -> wf_acct x.1 -> wf_acct y.1 /\ heap_grows (ac_heap x.1) (ac_heap y.1).
Proof.
  intros Hst Hwf.
  assert (Hput : forall (s : St) p b b', wf_acct s -> ac_heap s !! p = Some b -> grows b b' ->
            (forall q, sb_prev b' = Some q ->
               sb_prev b = Some q \/ exists qb, ac_heap s !! q = Some qb /\ extends b qb) ->
            wf_acct (put s p b') /\ heap_grows (ac_heap s) (ac_heap (put s p b'))).
  { intros s p b b' Hs E Hg Hl. split; [by eapply wf_put|by eapply heap_grows_put]. }
  destruct Hst; cbn [fst] in *;
    try (split; [by destruct Hwf; split|done]);
    try (eapply Hput; [done|done|
           first [apply set_flag_grows; naive_solver | apply remove_flag_grows; naive_solver
                 | by apply core_grows]|
           intros q; first [rewrite so_set_flag_prev; auto | rewrite so_remove_flag_prev; auto | auto]]);
    try (split; [|done]; apply wf_meta_change; [done| |];
         unfold mt_raise_cert, mt_raise_lock, mt_raise_commit, mt_raise_full; repeat case_match;
         cbn; first [apply Hwf | by eapply (wf_heights s)]).
  - match goal with Hs : supplied _ _ |- _ => destruct (supplied_new _ _ Hs) as [Hp Hh] end. assert (Hn : ac_heap s !! ac_next s = None).
    { destruct (_ !! _) eqn:E; [|done]. apply (wf_fresh _ Hwf) in E. lia. }
    assert (Hgr := heap_grows_new _ _ b Hn). split; [|done].
    split; cbn; [| |by eapply cached_grows, (wf_cached _ Hwf)| |apply Hwf..].
    + intros p c. destruct (decide (ac_next s = p)) as [<-|]; [lia|]. rewrite lookup_insert_ne by done.
      intros E. apply (wf_fresh _ Hwf) in E. lia.
    + intros p c q. destruct (decide (ac_next s = p)) as [<-|].
      * rewrite lookup_insert_eq. intros [= <-]. congruence.
      * rewrite lookup_insert_ne by done. intros E Eq.
        destruct (wf_linked _ Hwf _ _ _ E Eq) as (qb & Eqb & Hx).
        exists qb. rewrite lookup_insert_ne by congruence. done.
    + intros p c. destruct (decide (ac_next s = p)) as [<-|].
      * rewrite lookup_insert_eq. by intros [= <-].
      * rewrite lookup_insert_ne by done. apply (wf_heights _ Hwf).
  - eapply (Hput (with_db s d)); [by destruct Hwf; split|done|apply set_flag_grows; done|].
    intros q. rewrite so_set_flag_prev. auto.
Qed.

Definition steps (pd : pending) (s s' : St) : Prop := rtc astep (s, pd) (s', pd).

#[export] Instance steps_preorder pd : PreOrder (steps pd).
Proof. split; [intros s; apply rtc_refl|]. intros s1 s2 s3 H12 H23. unfold steps in *. by etrans. Qed.

Lemma rtc_ok x y : rtc astep x y -> wf_acct x.1 -> wf_acct y.1 /\ heap_grows (ac_heap x.1) (ac_heap y.1).
Proof.
  induction 1 as [x|x y z Hxy _ IH]; intros Hwf; [done|].
  destruct (astep_ok _ _ Hxy Hwf) as [Hw Hg]. destruct (IH Hw) as [Hw' Hg']. split; [done|by etrans].
Qed.
(** The count of refused writes does not go back. *)
Lemma astep_failed x y : astep x y -> (failed_writes (ac_db x.1) <= failed_writes (ac_db y.1))%nat.
Proof.
  destruct 1 as [| | |s pd k v|s pd u| | | | |s pd p b|s pd p b| | | | | | | | |
                 |s p b d E Hc Hn Hr Ed|s p b d E Hr Ed| | |]; cbn; try lia.
  - by rewrite failed_value.
  - by rewrite failed_unit.
  - rewrite (failed_set _ _ _ _ _ (surjective_pairing _)). case_match; lia.
  - rewrite (failed_header _ _ _ _ _ (surjective_pairing _)). case_match; lia.
  - assert (Hf := failed_execute (ac_db s) b). rewrite Ed in Hf. cbn in Hf. lia.
  - assert (Hf := failed_execute (ac_db s) b). rewrite Ed in Hf. cbn in Hf. lia.
Qed.
Lemma rtc_failed x y : rtc astep x y -> (failed_writes (ac_db x.1) <= failed_writes (ac_db y.1))%nat.
Proof. induction 1 as [|x y z Hxy _ IH]; [done|]. apply astep_failed in Hxy. lia. Qed.

Lemma steps_wf pd s s' : steps pd s s' -> wf_acct s -> wf_acct s'.
Proof. intros Hs Hw. by apply (rtc_ok _ _ Hs). Qed.
Lemma steps_grows pd s s' : steps pd s s' -> wf_acct s -> heap_grows (ac_heap s) (ac_heap s').
Proof. intros Hs Hw. by apply (rtc_ok _ _ Hs). Qed.
End Steps.
