(* ===== verification/StoreRefine.v ===== *)
(** * The block store does only what the step relation allows

    Every operation of [BlockStore], run with any fuel from a well-formed
    account, is a sequence of guarded steps, whether it returns or stops.
    [Runs pd m s Q]: from [s] the code [m] goes by guarded steps to the state
    where it returns or stops, and when it returns [Q] holds. *)

From stdpp Require Import prelude gmap strings relations.
From Stdlib Require Import ZArith Lia.
From S2P Require Import Prelude StdMap VBlock StoreBlock StoreProg BlockStore StoreSteps.

#[local] Open Scope store_scope.

Create HintDb store.

Section Refine.
Context {DB : Type} `{XStoreObj} `{XStoreFace DB} `{XStoreEnv DB} `{!XWriteLog DB} (A : acctid).
Context `{!XStoreObjLaws} `{!XStoreFaceLaws DB}.
Abbreviation St := (acct DB).
Abbreviation P := (prog (acct DB)).
Abbreviation steps := (steps A).

(** ** The judgement *)

Definition Runs (pd : option (ptr * nat)) {X} (m : P X) (s : St) (Q : X -> St -> Prop) : Prop :=
  wf_acct s ->
  match m s with
  | (Some a, s') => steps pd s s' /\ Q a s'
  | (None, s') => exists pd', rtc (astep A) (s, pd) (s', pd')
  end.
Definition Ok (pd : option (ptr * nat)) {X} (m : P X) : Prop := forall s, Runs pd m s (fun _ _ => True).

Section Rules.
Context {pd : option (ptr * nat)} {X : Type}.
Implicit Types (Q : X -> St -> Prop) (s : St).

Lemma runs_ret (a : X) s Q : Q a s -> Runs pd (ret a) s Q.
Proof. intros HQ _. split; [reflexivity|done]. Qed.
Lemma runs_ub s Q : Runs pd (@ub St X) s Q.
Proof. intros _. exists pd. reflexivity. Qed.
Lemma runs_mono (m : P X) s (Q Q' : X -> St -> Prop) :
  Runs pd m s Q -> (forall a s', steps pd s s' -> Q a s' -> Q' a s') -> Runs pd m s Q'.
Proof.
  intros Hm HQ Hw. specialize (Hm Hw). destruct (m s) as [[a|] s']; [|done]. destruct Hm as [Hs Ha]. auto.
Qed.
Lemma runs_ok (m : P X) s : Ok pd m -> Runs pd m s (fun _ _ => True).
Proof. intros Hm. apply Hm. Qed.

Lemma runs_bind {Y} (m : P Y) (k : Y -> P X) s (Q' : Y -> St -> Prop) Q :
  Runs pd m s Q' ->
  (forall a s', wf_acct s' -> heap_grows (ac_heap s) (ac_heap s') -> steps pd s s' -> Q' a s' -> Runs pd (k a) s' Q) ->
  Runs pd (bind m k) s Q.
Proof.
  intros Hm Hk Hw. specialize (Hm Hw). unfold bind. destruct (m s) as [[a|] s1]; [|done].
  destruct Hm as [Hs HQ].
  assert (Hw1 := steps_wf _ _ _ _ Hs Hw). assert (Hg := steps_grows _ _ _ _ Hs Hw).
  specialize (Hk a s1 Hw1 Hg Hs HQ Hw1). destruct (k a s1) as [[b|] s2].
  - destruct Hk as [Hs' HQ']. split; [by etrans|done].
  - destruct Hk as [pd' Hs']. exists pd'. by etrans.
Qed.
Lemma runs_seq {Y} (m : P Y) (k : Y -> P X) s Q :
  Ok pd m ->
  (forall a s', wf_acct s' -> heap_grows (ac_heap s) (ac_heap s') -> Runs pd (k a) s' Q) ->
  Runs pd (bind m k) s Q.
Proof. intros Hm Hk. eapply runs_bind; [apply Hm|]. auto. Qed.

(** A statement whose result is known. *)
Lemma runs_eval {Y} (m : P Y) (k : Y -> P X) a s Q :
  m s = (Some a, s) -> Runs pd (k a) s Q -> Runs pd (bind m k) s Q.
Proof. intros E Hk Hw. unfold bind. rewrite E. by apply Hk. Qed.
Lemma runs_step {Y} (m : P Y) (k : Y -> P X) a s s1 Q :
  m s = (Some a, s1) -> astep A (s, pd) (s1, pd) ->
  (wf_acct s1 -> heap_grows (ac_heap s) (ac_heap s1) -> Runs pd (k a) s1 Q) -> Runs pd (bind m k) s Q.
Proof.
  intros E Hst Hk. eapply runs_bind with (Q' := fun a' s' => a' = a /\ s' = s1).
  - intros _. rewrite E. split; [by apply rtc_once|done].
  - intros a' s' Hw Hg _ [-> ->]. by apply Hk.
Qed.
Lemma runs_wf (m : P X) s Q : (wf_acct s -> Runs pd m s Q) -> Runs pd m s Q.
Proof. intros Hm Hw. by apply Hm. Qed.

Lemma runs_deref p (k : sblock -> P X) s Q :
  (forall b, ac_heap s !! p = Some b -> Runs pd (k b) s Q) -> Runs pd (bind (sderef p) k) s Q.
Proof.
  intros Hk. destruct (ac_heap s !! p) as [b|] eqn:E.
  - eapply runs_eval; [|by apply Hk]. unfold sderef. by rewrite E.
  - intros _. unfold bind, sderef. rewrite E. exists pd. reflexivity.
Qed.
Lemma runs_check p f (k : bool -> P X) s Q :
  (forall b, ac_heap s !! p = Some b -> Runs pd (k (so_check_flag b f)) s Q) ->
  Runs pd (bind (check_flag p f) k) s Q.
Proof.
  intros Hk. destruct (ac_heap s !! p) as [b|] eqn:E.
  - eapply runs_eval; [|by apply Hk]. unfold check_flag, bind, sderef. by rewrite E.
  - intros _. unfold bind, check_flag, bind, sderef. rewrite E. exists pd. reflexivity.
Qed.
Lemma runs_gets {Y} (f : St -> Y) (k : Y -> P X) s Q : Runs pd (k (f s)) s Q -> Runs pd (bind (gets f) k) s Q.
Proof. by apply runs_eval. Qed.
Lemma runs_nonnull {Y} (o : option Y) (k : Y -> P X) s Q :
  (forall a, o = Some a -> Runs pd (k a) s Q) -> Runs pd (bind (nonnull o) k) s Q.
Proof. intros Hk. destruct o; [by eapply runs_eval; [|apply Hk]|]. intros _. exists pd. reflexivity. Qed.
Lemma runs_assoc {Y Z} (m : P Z) (k : Z -> P Y) (k' : Y -> P X) s Q :
  Runs pd (bind m (fun a => bind (k a) k')) s Q -> Runs pd (bind (bind m k) k') s Q.
Proof. unfold Runs, bind. by destruct (m s) as [[a|] s1]. Qed.
End Rules.

Lemma runs_views {pd X} h (k : list (Z * ptr) -> P X) s Q :
  (forall vs, map_find h (ac_blocks s) = Some vs -> Runs pd (k vs) s Q) ->
  Runs pd (bind (views_at h) k) s Q.
Proof.
  intros Hk. unfold views_at. apply runs_assoc. apply runs_gets. apply runs_nonnull. exact Hk.
Qed.

(** ** Single statements *)

Section Prims.
Context {pd : option (ptr * nat)}.

Lemma ok_ret {X} (a : X) : Ok pd (ret a).
Proof. intros s. by apply runs_ret. Qed.
Lemma ok_ub {X} : Ok pd (@ub St X).
Proof. intros s. apply runs_ub. Qed.
Lemma ok_nonnull {X} (o : option X) : Ok pd (nonnull o).
Proof. destruct o; [apply ok_ret|apply ok_ub]. Qed.
Lemma ok_bind {X Y} (m : P Y) (k : Y -> P X) : Ok pd m -> (forall a, Ok pd (k a)) -> Ok pd (bind m k).
Proof. intros Hm Hk s. eapply runs_seq; [done|]. intros. apply Hk. Qed.
Lemma ok_deref {X} p (k : sblock -> P X) : (forall b, Ok pd (k b)) -> Ok pd (bind (sderef p) k).
Proof. intros Hk s. apply runs_deref. intros. apply Hk. Qed.
Lemma ok_check p f : Ok pd (check_flag p f).
Proof. apply ok_deref. intros b. apply ok_ret. Qed.
Lemma ok_gets {X} (f : St -> X) : Ok pd (gets f).
Proof. intros s _. by split. Qed.
Lemma ok_step {X} (m : P X) (f : St -> St) (a : X) :
  (forall s, m s = (Some a, f s)) -> (forall s, wf_acct s -> astep A (s, pd) (f s, pd)) -> Ok pd m.
Proof. intros E Hst s Hw. rewrite E. split; [|done]. apply rtc_once. by apply Hst. Qed.

Lemma ok_vmeta x : Ok pd (modify (fun s : St => with_vmeta s x)).
Proof. by eapply ok_step; [|intros s _; apply as_vmeta]. Qed.
Lemma ok_closed : Ok pd (modify (fun s : St => with_closed s true)).
Proof. by eapply ok_step; [|intros s _; apply as_closed]. Qed.
Lemma ok_store_value k v : Ok pd (store_value_by_path k v).
Proof.
  intros s Hw. unfold store_value_by_path, on_db.
  assert (Hst := as_value A s pd k v). destruct (set_value _ _ _) as [r d]. split; [by apply rtc_once|done].
Qed.

(** Operations on links and counters. *)
Lemma ok_supd_core p f :
  (forall b, same_core b (f b)) -> (forall b, sb_prev (f b) = sb_prev b \/ sb_prev (f b) = None) ->
  Ok pd (supd p f).
Proof.
  intros Hc Hp s. apply runs_deref. intros b Eb. intros Hw. split; [|done]. apply rtc_once.
  eapply as_link; [done|done|]. intros q Eq. destruct (Hp b) as [E|E]; [left; congruence|congruence].
Qed.
Lemma ok_close_block p : Ok pd (close_block p).
Proof. apply ok_supd_core; [apply so_close_core|]. intros b. right. apply so_close_prev. Qed.
Lemma ok_reset_modified p : Ok pd (supd p so_reset_modified).
Proof. apply ok_supd_core; [apply so_reset_modified_core|]. intros b. left. apply so_reset_modified_prev. Qed.
Lemma ok_add_modified p : Ok pd (supd p so_add_modified).
Proof. apply ok_supd_core; [apply so_add_modified_core|]. intros b. left. apply so_add_modified_prev. Qed.
Lemma ok_set_nnc p c : Ok pd (supd p (fun b => so_set_next_next_cert b c)).
Proof. apply ok_supd_core; intros b; [apply so_set_nnc_core|]. left. apply so_set_nnc_prev. Qed.
Lemma ok_reset_next p q : Ok pd (reset_next_block p q).
Proof.
  intros s. apply runs_deref. intros b Eb. apply runs_deref. intros qb Eq.
  intros Hw. split; [|done]. apply rtc_once. eapply as_link; [done|apply so_reset_next_core|].
  intros r. rewrite so_reset_next_prev. auto.
Qed.
Lemma ok_reset_prev p o : Ok pd (reset_prev_block p o).
Proof.
  intros s. apply runs_deref. intros b Eb.
  assert (Hb : forall o' k, (o' = None \/ exists q qb, o' = Some (q, qb) /\ ac_heap s !! q = Some qb) ->
    Runs pd (bind (sput p (so_reset_prev b o').2) (fun _ => ret k)) s (fun (_ : bool) _ => True)).
  { intros o' k Ho Hw. split; [|done]. apply rtc_once. eapply as_link; [done|apply so_reset_prev_core|].
    intros q Eq. destruct (so_reset_prev_link _ _ _ Eq) as [Hq|(qb & -> & Hx)]; [by left|].
    destruct Ho as [?|(q' & qb' & [= <- <-] & ?)]; [done|]. right. by exists qb. }
  destruct o as [q|].
  - apply runs_assoc, runs_deref. intros qb Eq. eapply runs_eval; [done|]. apply Hb. eauto.
  - eapply runs_eval; [done|]. apply Hb. auto.
Qed.

(** The marks without a guard. *)
Lemma ok_mark p f : f = enum_xvblock_flag_stored \/ f = enum_xvblock_flag_unpacked -> Ok pd (set_flag p f).
Proof.
  intros Hf s. apply runs_deref. intros b Eb Hw. split; [|done]. apply rtc_once. by eapply as_mark.
Qed.
Lemma ok_unmark p : Ok pd (remove_flag p enum_xvblock_flag_stored).
Proof. intros s. apply runs_deref. intros b Eb Hw. split; [|done]. apply rtc_once. by apply as_unmark. Qed.
End Prims.

Hint Resolve ok_ret ok_ub ok_nonnull ok_check ok_gets ok_vmeta ok_closed ok_store_value ok_close_block ok_reset_modified
  ok_add_modified ok_set_nnc ok_reset_next ok_reset_prev ok_mark ok_unmark : store.
Hint Unfold meta cache : store.

(** Walk through code whose statements all have a lemma. *)
Ltac ok_go :=
  repeat (cbn beta; lazymatch goal with
  | |- Ok _ (bind (sderef _) _) => apply ok_deref; intros ?
  | |- Ok _ (bind _ _) => apply ok_bind; [|intros ?]
  | |- Ok _ (match ?x with _ => _ end) => destruct x
  | |- Ok _ (let _ := _ in _) => cbv zeta
  | |- Ok _ meta => apply ok_gets
  | |- Ok _ cache => apply ok_gets
  | |- Ok _ _ => solve [auto with store]
  end).

(** ** The cache *)

Definition views_ok (hp : gmap ptr sblock) (h : Z) (vs : list (Z * ptr)) : Prop :=
  forall v p, (v, p) ∈ vs -> exists b, hp !! p = Some b /\ sb_height b = h.

Lemma views_grow hp hp' h vs : heap_grows hp hp' -> views_ok hp h vs -> views_ok hp' h vs.
Proof.
  intros Hg Hv v p Hin. destruct (Hv _ _ Hin) as (b & E & <-). destruct (Hg _ _ E) as (b' & E' & Hb & _).
  exists b'. split; [done|]. by apply same_header_height.
Qed.
Lemma find_views_ok hp m h vs : cached_at hp m -> map_find h m = Some vs -> views_ok hp h vs.
Proof. intros Hm Hf v p. apply (Hm h vs). by apply map_find_Some_in. Qed.
Lemma cached_set hp m h vs : cached_at hp m -> views_ok hp h vs -> cached_at hp (map_set h vs m).
Proof.
  intros Hm Hv k ws v p Hk. apply map_set_in in Hk as [[= -> ->]|Hk]; [apply Hv|eauto].
Qed.
Lemma cached_erase hp m h : cached_at hp m -> cached_at hp (map_erase h m).
Proof.
  intros Hm k vs v p Hk. apply (Hm k vs). unfold map_erase in Hk.
  apply list_elem_of_In, filter_In in Hk as [Hk _]. by apply list_elem_of_In.
Qed.
Lemma cached_emplace_nil hp m h : cached_at hp m -> cached_at hp (map_emplace h [] m).1.
Proof.
  intros Hm. unfold map_emplace. destruct (map_find h m); [done|]. apply cached_set; [done|].
  intros v p Hin. by apply elem_of_nil in Hin.
Qed.
Lemma views_erase hp h v vs : views_ok hp h vs -> views_ok hp h (map_erase v vs).
Proof.
  intros Hv w p Hin. apply (Hv w). unfold map_erase in Hin.
  apply list_elem_of_In, filter_In in Hin as [Hin _]. by apply list_elem_of_In.
Qed.
Lemma views_set hp h v p b vs :
  views_ok hp h vs -> hp !! p = Some b -> sb_height b = h -> views_ok hp h (map_set v p vs).
Proof. intros Hv E Eh w q Hin. apply map_set_in in Hin as [[= -> ->]|Hin]; [by exists b|by apply (Hv w)]. Qed.

Section Cache.
Context {pd : option (ptr * nat)}.

Lemma runs_set_cache {X} f (k : unit -> P X) s Q :
  (wf_acct s -> cached_at (ac_heap s) (f (ac_blocks s))) ->
  Runs pd (k tt) (with_cache s (f (ac_blocks s))) Q -> Runs pd (bind (set_cache f) k) s Q.
Proof.
  intros Hc Hk. apply runs_wf. intros Hw. eapply runs_step; [done|apply as_cache; by apply Hc|]. done.
Qed.
Lemma ok_set_cache f :
  (forall hp m, cached_at hp m -> cached_at hp (f m)) -> Ok pd (set_cache f).
Proof. intros Hf. by eapply ok_step; [|intros s Hw; apply as_cache, Hf, (wf_cached _ Hw)]. Qed.
Lemma ok_cache_emplace h : Ok pd (set_cache (fun m => (map_emplace h [] m).1)).
Proof. apply ok_set_cache. intros hp m. apply cached_emplace_nil. Qed.
Lemma ok_cache_erase h : Ok pd (set_cache (map_erase h)).
Proof. apply ok_set_cache. intros hp m. apply cached_erase. Qed.
Lemma ok_cache_clear : Ok pd (set_cache (fun _ => [])).
Proof. apply ok_set_cache. intros hp m _ k vs v p Hk. by apply elem_of_nil in Hk. Qed.
Lemma ok_views h : Ok pd (views_at h).
Proof. intros s. unfold views_at. apply runs_gets. destruct (map_find _ _); [by apply runs_ret|apply runs_ub]. Qed.
Lemma ok_erase_view h v : Ok pd (erase_view h v).
Proof.
  intros s. apply runs_views. intros vs Hf Hw. split; [|done]. apply rtc_once, as_cache.
  apply cached_set; [apply Hw|]. eapply views_erase, find_views_ok; [apply Hw|done].
Qed.
End Cache.
Hint Resolve ok_cache_emplace ok_cache_erase ok_cache_clear ok_views ok_erase_view : store.

(** ** Connected blocks *)

Lemma check_flagged b f : so_check_flag b f = true -> flagged b f.
Proof. by rewrite so_check_flag_spec. Qed.
Lemma block_flags_of b f :
  Z.land enum_xvblock_flags_mask f = f -> has_flag (sb_flags b) f = has_flag (b_flags (sb_block b)) f.
Proof. apply has_flag_masked. Qed.

Section Connect.
Context {pd : option (ptr * nat)}.

Lemma runs_set_connected p b s :
  ac_heap s !! p = Some b -> flagged b enum_xvblock_flag_committed -> connectable s b ->
  Runs pd (set_flag p enum_xvblock_flag_connected) s (fun _ _ => True).
Proof.
  intros E Hc Hn Hw. unfold set_flag, supd, bind, sderef. rewrite E. cbn. split; [|done].
  apply rtc_once. by apply as_connect.
Qed.

Lemma runs_mark_connected p b s :
  ac_heap s !! p = Some b -> flagged b enum_xvblock_flag_committed ->
  Runs pd (mark_connected p (sb_height b)) s (fun _ _ => True).
Proof.
  intros E Hc. apply runs_deref. intros b' E'. simplify_eq. apply runs_gets.
  destruct (Z.leb_spec (sb_height b) (_highest_connect_block_height (ac_meta s))) as [Hle|_].
  { eapply runs_set_connected; [done..|by left]. }
  destruct (Z.eqb_spec (sb_class b) enum_xvblock_class_full) as [Hf|_].
  { eapply runs_set_connected; [done..|]. right. by left. }
  assert (Hrest : Runs pd
    (if (sb_height b =? u64 (_highest_connect_block_height (ac_meta s) + 1))
        && bool_decide (_highest_connect_block_hash (ac_meta s) = sb_last_hash b)
     then set_flag p enum_xvblock_flag_connected else ret tt) s (fun _ _ => True)).
  { destruct (_ && _) eqn:Eg; [|by apply runs_ret]. guards.
    eapply runs_set_connected; [done..|]. do 3 right. by destruct Eg. }
  destruct (sb_prev b) as [q|] eqn:Eq; [|by eapply runs_eval].
  apply runs_check. intros qb Eqb. destruct (so_check_flag qb _) eqn:Ef; [|done].
  eapply runs_set_connected; [done..|]. right. right. left. exists q, qb. split_and!; try done.
  by apply check_flagged.
Qed.

Lemma runs_connect_more l s :
  cached_at (ac_heap s) l -> Runs pd (connect_more l) s (fun _ _ => True).
Proof.
  revert s. induction l as [|[h vs] l IH]; intros s Hl; [by apply runs_ret|].
  apply runs_gets. destruct vs as [|[v p] vs]; [by apply runs_ret|].
  destruct (Z.eqb_spec h (u64 (_highest_connect_block_height (ac_meta s) + 1))) as [Eh|_];
    [|by apply runs_ret].
  apply runs_deref. intros b Eb. destruct (_ && _) eqn:Eg; [|by apply runs_ret]. guards.
  destruct Eg as [Hc Hhash]. apply check_flagged in Hc.
  destruct (Hl h ((v, p) :: vs) v p) as (b' & Eb' & Hbh); [left|left|]. simplify_eq.
  eapply runs_step; [done|eapply as_raise_connect; [done|]; right; by split_and!|].
  intros Hw1 _. cbn [ac_heap with_meta]. eapply runs_bind.
  { eapply runs_set_connected; [done..|]. left. cbn. lia. }
  intros [] s' Hw' Hg' _ _. apply IH. eapply cached_grows; [done|]. intros k ws w r Hk. apply (Hl k ws). by right.
Qed.

Lemma map_from_in {V} k (m : list (Z * V)) e : e ∈ map_from k m -> e ∈ m.
Proof.
  induction m as [|[k' v] m IH]; [done|]. cbn. destruct (k =? k'); [done|]. intros He. right. auto.
Qed.

Lemma runs_advance_connect p b s :
  ac_heap s !! p = Some b -> Runs pd (advance_connect p (sb_height b)) s (fun _ _ => True).
Proof.
  intros E. apply runs_deref. intros b' E'. simplify_eq. apply runs_gets.
  destruct (_ && _) eqn:Eg; [|by apply runs_ret]. guards. destruct Eg as [Hc Hlt].
  apply check_flagged in Hc.
  eapply runs_step; [done|eapply as_raise_connect; [done|]; by left|].
  intros Hw1 _. apply runs_gets. apply runs_connect_more. intros k vs v q Hk.
  apply (wf_cached _ Hw1 k vs). by eapply map_from_in.
Qed.
End Connect.

(** ** Saving a block *)

Section Save.
Context {pd : option (ptr * nat)}.

Lemma runs_set_meta {X} (c : bool) f (k : unit -> P X) s Q :
  (c = true -> astep A (s, pd) (with_meta s (f (ac_meta s)), pd)) ->
  (forall m, Runs pd (k tt) (with_meta s m) Q) ->
  Runs pd (bind (if c then set_meta f else ret tt) k) s Q.
Proof.
  intros Hst Hk. destruct c.
  - eapply runs_step; [done|by apply Hst|]. intros _ _. apply Hk.
  - eapply runs_eval; [done|]. specialize (Hk (ac_meta s)). by destruct s.
Qed.

Lemma runs_update_meta_stored p b s flags :
  ac_heap s !! p = Some b ->
  (has_flag flags enum_xvblock_flag_locked = true -> flagged b enum_xvblock_flag_locked) ->
  (has_flag flags enum_xvblock_flag_committed = true -> flagged b enum_xvblock_flag_committed) ->
  Runs pd (update_meta_stored p (sb_height b) flags) s (fun _ _ => True).
Proof.
  intros E Hl Hc. apply runs_set_meta; [intros _; by eapply as_raise_cert|]. intros m1.
  apply runs_set_meta; [intros Hf; eapply as_raise_lock; [done|auto]|]. intros m2.
  destruct (has_flag flags enum_xvblock_flag_committed) eqn:Ec; [|by apply runs_ret]. specialize (Hc eq_refl).
  eapply runs_step; [done|eapply as_raise_lock; [done|auto]|]. intros _ _.
  eapply runs_step; [done|by eapply as_raise_commit|]. intros _ _.
  apply runs_deref. intros b' E'. cbn in E'. simplify_eq.
  eapply runs_step; [done|by eapply as_raise_full|]. intros _ _.
  by apply runs_advance_connect.
Qed.

Lemma ok_on_block_stored p : Ok pd (on_block_stored_to_xdb A p).
Proof.
  intros s. apply runs_gets. destruct (ac_closed s); [by apply runs_ret|].
  apply runs_deref. intros b Eb. rewrite !block_flags_of by done.
  destruct (sb_height b =? 0); [by apply runs_ret|].
  destruct (has_flag _ enum_xvblock_flag_executed) eqn:Ee; [by apply runs_ret|].
  destruct (_ && _) eqn:Ec; [|by apply runs_ret]. guards. destruct Ec as [Hc Hn].
  destruct (id_mbus A && _); [|by apply runs_ret].
  intros Hw. split; [|done]. apply rtc_once. by eapply as_event.
Qed.

(** After a write, the flags copied before it still hold of the block. *)
Lemma runs_after_store p b s flags ok :
  ac_heap s !! p = Some b ->
  (has_flag flags enum_xvblock_flag_locked = true -> flagged b enum_xvblock_flag_locked) ->
  (has_flag flags enum_xvblock_flag_committed = true -> flagged b enum_xvblock_flag_committed) ->
  Runs pd (after_store A p (sb_height b) flags ok) s (fun r _ => r = ok).
Proof.
  intros E Hl Hc. unfold after_store. destruct ok.
  - eapply runs_bind with (Q' := fun _ _ => True); [|intros; by apply runs_ret].
    eapply runs_bind; [by apply runs_update_meta_stored|]. intros [] s' _ _ _ _. apply ok_on_block_stored.
  - eapply runs_eval; [done|]. by apply runs_ret.
Qed.

Lemma grows_flag b b' f :
  grows b b' -> Z.land (Z.lor enum_xvblock_flag_stored enum_xvblock_flag_executed) f = 0 ->
  flagged b f -> flagged b' f.
Proof. intros (_ & _ & Hg). apply Hg. Qed.

(** The answer [false] after a write the database refused since [s]. *)
Definition refused (s : St) (r : bool) (s' : St) : Prop :=
  r = false -> (failed_writes (ac_db s) < failed_writes (ac_db s'))%nat.
Lemma refused_later s r s' s'' : steps pd s' s'' -> refused s r s' -> refused s r s''.
Proof. intros Hs Hr E. apply rtc_failed in Hs. specialize (Hr E). cbn in Hs. lia. Qed.

Lemma runs_persist p b s :
  ac_heap s !! p = Some b ->
  forall flags, (has_flag flags enum_xvblock_flag_locked = true -> flagged b enum_xvblock_flag_locked) ->
  (has_flag flags enum_xvblock_flag_committed = true -> flagged b enum_xvblock_flag_committed) ->
  flagged b enum_xvblock_flag_locked \/ flagged b enum_xvblock_flag_committed ->
  Runs pd (persist A p (sb_height b) flags) s (refused s).
Proof.
  intros E flags Hl Hc Hlc.
  assert (Hrest : forall s' ok, heap_grows (ac_heap s) (ac_heap s') -> refused s ok s' ->
    Runs pd (after_store A p (sb_height b) flags ok) s' (refused s)).
  { intros s' ok Hg Hok. destruct (Hg _ _ E) as (b' & E' & Hb). rewrite <- (same_header_height _ _ (proj1 Hb)).
    eapply runs_mono; [apply (runs_after_store p b'); [done| |]|].
    3: { intros r t Hs ->. by eapply refused_later. }
    - intros Hf. eapply grows_flag; [done|done|auto].
    - intros Hf. eapply grows_flag; [done|done|auto]. }
  unfold persist. destruct (negb _).
  - eapply runs_bind with (Q' := fun _ _ => True); [apply runs_ok; auto with store|].
    intros [] s1 Hw1 Hg1 Hs1 _. apply runs_deref. intros b1 E1. destruct (Hg1 _ _ E) as (b1' & E1' & Hb1). rewrite E1 in E1'. injection E1' as <-.
    assert (Hst := as_persist A s1 pd p b1 E1).
    destruct (set_vblock (ac_db s1) (id_path A) b1) as [ok d] eqn:Ed.
    eapply runs_step with (a := ok) (s1 := with_db s1 d).
    { unfold on_db. by rewrite Ed. }
    { apply Hst. destruct Hlc; [left|right]; by eapply grows_flag. }
    intros Hw2 Hg2. eapply runs_bind with (Q' := fun _ _ => True); [apply runs_ok; destruct ok; auto with store|].
    intros [] s3 Hw3 Hg3 Hs3 _.
    apply Hrest; [by do 2 etrans|]. eapply refused_later; [exact Hs3|]. intros ->. cbn.
    rewrite (failed_set _ _ _ _ _ Ed). apply rtc_failed in Hs1. cbn in Hs1. lia.
  - apply runs_deref. intros b1 E1. rewrite E in E1. injection E1 as <-. destruct (sb_modified b =? 0); [by apply runs_ret; unfold refused|].
    assert (Hst := as_persist_header A s pd p b E).
    destruct (set_vblock_header (ac_db s) (id_path A) b) as [ok d] eqn:Ed.
    eapply runs_step with (a := ok) (s1 := with_db s d).
    { unfold on_db. by rewrite Ed. }
    { by apply Hst. }
    intros Hw2 Hg2. eapply runs_bind with (Q' := fun _ _ => True); [apply runs_ok; destruct ok; auto with store|].
    intros [] s3 Hw3 Hg3 Hs3 _.
    apply Hrest; [by etrans|]. eapply refused_later; [exact Hs3|]. intros ->. cbn.
    rewrite (failed_header _ _ _ _ _ Ed). lia.
Qed.

Lemma ok_store_block_by_path path p : Ok pd (store_block_by_path path p).
Proof. unfold store_block_by_path. ok_go. Qed.

Lemma runs_save_to_xdb p s :
  Runs pd (save_to_xdb A p) s (refused s).
Proof.
  apply runs_deref. intros b E. cbv zeta. rewrite !block_flags_of by done.
  destruct (has_flag _ enum_xvblock_flag_committed) eqn:Ec.
  - eapply runs_bind with (Q' := fun _ _ => True).
    { destruct (has_flag _ enum_xvblock_flag_connected); [by apply runs_ret|]. by apply runs_mark_connected. }
    intros [] s1 Hw1 Hg1 Hs1 _. destruct (Hg1 _ _ E) as (b1 & E1 & Hb1).
    rewrite <- (same_header_height _ _ (proj1 Hb1)).
    assert (Hc1 : flagged b1 enum_xvblock_flag_committed) by by eapply grows_flag.
    apply rtc_failed in Hs1. apply runs_mono with (Q := refused s1).
    2: { intros r t _ Hr Er. specialize (Hr Er). cbn in Hs1. lia. }
    apply runs_persist; [done| |done|by right].
    rewrite block_flags_of by done. intros Hf. by eapply grows_flag.
  - destruct (has_flag _ enum_xvblock_flag_locked) eqn:El; cbn [negb].
    + apply runs_persist; [done|done| |by left]. by rewrite block_flags_of by done; rewrite Ec.
    + apply runs_gets. eapply runs_bind with (Q' := fun _ _ => True); [|intros; by apply runs_ret].
      destruct (Z.ltb_spec (_highest_cert_block_height (ac_meta s)) (sb_height b)) as [Hlt|];
        [|by apply runs_ret].
      eapply runs_step; [done| |intros _ _; apply (ok_bind _ _ (ok_store_block_by_path _ _)); intros; apply ok_ret].
      assert (Hst := as_raise_cert A s pd p b E). unfold mt_raise_cert in Hst.
      by rewrite (proj2 (Z.ltb_lt _ _) Hlt) in Hst.
Qed.
Lemma ok_save_to_xdb p : Ok pd (save_to_xdb A p).
Proof. intros s. eapply runs_mono; [apply runs_save_to_xdb|done]. Qed.

(** ** Units *)

Lemma ok_store_units l : Ok pd (store_units l).
Proof.
  induction l as [|u l IH]; [apply ok_ret|]. apply ok_bind; [|intros []; [done|apply ok_ret]].
  intros s Hw. unfold on_db. assert (Hst := as_unit A s pd u).
  destruct (blockstore_store_block _ _) as [r d]. split; [by apply rtc_once|done].
Qed.
Hint Resolve ok_store_units : store.
Lemma ok_unload p : Ok pd (unload_subblock_from_container p).
Proof. unfold unload_subblock_from_container. ok_go. Qed.
End Save.
Hint Resolve ok_on_block_stored ok_store_block_by_path ok_save_to_xdb ok_store_units ok_unload : store.

(** ** Executing a block *)

(** The part of [execute_block] after the database has executed the block. *)
Definition record_execution (p : ptr) : P bool :=
  set_flag p enum_xvblock_flag_executed ;;;
  let* stored := save_to_xdb A p in
  if negb stored then remove_flag p enum_xvblock_flag_executed ;;; ret false
  else
    let* b := sderef p in
    set_meta (mt_set_exec (sb_height b) (sb_hash b)) ;;; ret true.

Lemma runs_executed p b s d :
  ac_heap s !! p = Some b ->
  flagged b enum_xvblock_flag_committed -> flagged b enum_xvblock_flag_connected ->
  is_ready_to_executed (ac_meta s) b = true -> db_execute_block (ac_db s) b = (true, d) -> wf_acct s ->
  match record_execution p (with_db s d) with
  | (Some _, s') => steps None s s'
  | (None, s') => exists pd', rtc (astep A) (s, None) (s', pd')
  end.
Proof.
  intros E Hc Hn Hr Ed Hw. assert (Hst := as_execute A s p b d E Hc Hn Hr Ed).
  unfold record_execution, set_flag, supd, bind, sderef. cbn [with_db ac_heap]. rewrite E. cbn [sput modify].
  destruct (astep_ok _ _ _ Hst Hw) as [Hw1 _]. cbn [fst] in Hw1.
  change (with_heap _ _) with (with_heap (with_db s d)
    (<[p := so_set_flag b enum_xvblock_flag_executed]> (ac_heap s))). set (s1 := with_heap _ _) in *.
  assert (Hsave := runs_save_to_xdb (pd := Some (p, failed_writes (ac_db s))) p s1 Hw1).
  unfold sput, modify. cbn [with_db ac_heap]. fold s1. destruct (save_to_xdb A p s1) as [[stored|] s2].
  2: { destruct Hsave as [pd' Hs]. exists pd'. by eapply rtc_l. }
  destruct Hsave as [Hs Hf]. destruct (ac_heap s2 !! p) as [b2|] eqn:E2.
  - destruct stored; cbn [negb]; cbn.
    + rewrite E2. cbn. eapply rtc_l; [exact Hst|]. eapply rtc_r; [exact Hs|]. by apply as_executed.
    + unfold remove_flag, supd, bind, sderef. rewrite E2. cbn.
      eapply rtc_l; [exact Hst|]. eapply rtc_r; [exact Hs|]. apply as_withdraw; [done|].
      specialize (Hf eq_refl). assert (Hd := failed_execute (ac_db s) b). rewrite Ed in Hd. cbn in Hf, Hd. lia.
  - assert (Hend : exists pd', rtc (astep A) (s, None) (s2, pd')) by (eexists; by eapply rtc_l).
    destruct stored; cbn [negb]; cbn; [|unfold remove_flag, supd, bind, sderef]; by rewrite E2.
Qed.

Lemma ok_execute_block p : Ok None (execute_block A p).
Proof.
  intros s. apply runs_deref. intros b E.
  destruct (_ || _) eqn:Eg; [by apply runs_ret|]. guards. destruct Eg as [Hc Hn].
  apply check_flagged in Hc, Hn.
  destruct (so_check_flag b enum_xvblock_flag_executed) eqn:Ee.
  { apply check_flagged in Ee. apply runs_gets. apply runs_set_meta; [|intros; by apply runs_ret].
    rewrite Z.ltb_lt. intros Hlt. by eapply as_known. }
  eapply runs_seq; [auto with store|]. intros unloaded s1 Hw1 Hg1.
  destruct unloaded; cbn [negb]; [|by apply runs_ret].
  apply runs_deref. intros b1 E1. destruct (Hg1 _ _ E) as (b1' & E1' & Hb1). rewrite E1 in E1'. injection E1' as <-.
  apply runs_gets. destruct (is_ready_to_executed _ _) eqn:Er; [|by apply runs_ret].
  destruct (db_execute_block (ac_db s1) b1) as [ok d] eqn:Ed. destruct ok.
  - intros _. unfold bind at 1, on_db. rewrite Ed.
    assert (Hx : match record_execution p (with_db s1 d) with
      | (Some _, s') => steps None s1 s'
      | (None, s') => exists pd', rtc (astep A) (s1, None) (s', pd')
      end) by (eapply (runs_executed p b1); try done; by eapply grows_flag).
    change (if true then ?x else _) with x. fold (record_execution p).
    by destruct (record_execution p _) as [[a|] s2].
  - eapply runs_step with (s1 := with_db s1 d); [|by eapply as_refused|].
    { unfold on_db. by rewrite Ed. }
    intros _ _. by apply runs_ret.
Qed.
Hint Resolve ok_execute_block : store.

(** ** Queries, loops and candidates *)

Section Loops.
Context {pd : option (ptr * nat)}.

Lemma ok_find_prog {X} (test : X -> P bool) l : (forall x, Ok pd (test x)) -> Ok pd (find_prog test l).
Proof. intros Ht. induction l as [|x l IH]; cbn; ok_go. Qed.
Lemma ok_query_in vs f : Ok pd (query_in vs f).
Proof. apply ok_bind; [|intros; apply ok_ret]. apply ok_find_prog. intros x. apply ok_check. Qed.
Hint Resolve ok_query_in : store.
Lemma ok_query_block h f : Ok pd (query_block h f).
Proof. unfold query_block. ok_go. Qed.
Lemma ok_query_heights l f : Ok pd (query_heights l f).
Proof. induction l as [|[h vs] l IH]; cbn; ok_go. Qed.
Hint Resolve ok_query_heights : store.
Lemma ok_query_latest f : Ok pd (query_latest_block f).
Proof. unfold query_latest_block. ok_go. Qed.

Lemma ok_erase_without h f vs : Ok pd (erase_without h f vs).
Proof. induction vs as [|[v p] vs IH]; cbn; ok_go. Qed.
Hint Resolve ok_erase_without : store.
Lemma ok_clean_candidates p : Ok pd (clean_candidates p).
Proof. unfold clean_candidates, clean_candidates_by. ok_go. Qed.

Lemma ok_rev_loop n h base body : (forall p, Ok pd (body p)) -> Ok pd (rev_loop n h base body).
Proof.
  intros Hb. revert base. induction n as [|n IH]; intros base; cbn [rev_loop]; ok_go.
Qed.
Lemma ok_fwd_loop n h cur body : (forall p, Ok pd (body p)) -> Ok pd (fwd_loop n h cur body).
Proof.
  intros Hb. revert cur. induction n as [|n IH]; intros cur; cbn [fwd_loop]; ok_go.
Qed.

Lemma ok_fill p (f : DB -> sblock -> bool * sblock) b :
  (forall d b, same_core b (f d b).2) -> (forall d b, sb_prev (f d b).2 = sb_prev b) ->
  forall s, ac_heap s !! p = Some b ->
  Runs pd (let* d := gets ac_db in let r := f d b in sput p r.2 ;;; ret r.1) s (fun _ _ => True).
Proof.
  intros Hc Hp s E. apply runs_gets. intros Hw. split; [|done]. apply rtc_once.
  eapply as_link; [done|apply Hc|]. intros q. rewrite Hp. auto.
Qed.
Lemma ok_load_block_input p : Ok pd (load_block_input A p).
Proof.
  intros s. apply runs_deref. intros b E. destruct (_ || _); [by apply runs_ret|].
  destruct (_ || _); [|by apply runs_ret].
  apply (ok_fill p (fun d => get_vblock_input d (id_account A)) b); [intros; apply get_vblock_input_core| |done].
  intros. apply get_vblock_input_prev.
Qed.
Lemma ok_load_block_output p : Ok pd (load_block_output A p).
Proof.
  intros s. apply runs_deref. intros b E. destruct (_ || _); [by apply runs_ret|].
  destruct (_ || _); [|by apply runs_ret].
  apply (ok_fill p (fun d => get_vblock_output d (id_account A)) b); [intros; apply get_vblock_output_core| |done].
  intros. apply get_vblock_output_prev.
Qed.
End Loops.
Hint Resolve ok_query_in ok_query_block ok_query_latest ok_clean_candidates
  ok_load_block_input ok_load_block_output : store.

(** ** Saving, processing, linking, loading *)

Section Rec.
Context (load_rec : Z -> Z -> P (option ptr)) (save_rec : ptr -> P bool) (n : nat).
Context (Hload : forall h r, Ok None (load_rec h r)) (Hsave : forall p, Ok None (save_rec p)).
Hint Resolve Hload Hsave : store.

Lemma ok_load_object h full : Ok None (load_block_object_open A load_rec h full).
Proof. unfold load_block_object_open. ok_go. Qed.
Hint Resolve ok_load_object : store.
Lemma ok_execute_history k i : Ok None (execute_history A load_rec k i).
Proof. revert i. induction k as [|k IH]; intros i; cbn [execute_history]; ok_go. Qed.
Hint Resolve ok_execute_history : store.
Lemma ok_save_block_body p : Ok None (save_block_body A load_rec save_rec n p).
Proof. unfold save_block_body. ok_go. Qed.

(** A child allows the lock, a locked child or a grandchild the commit. *)
Lemma runs_set_locked {pd} p b c cb s :
  ac_heap s !! p = Some b -> ac_heap s !! c = Some cb -> extends cb b ->
  Runs pd (set_flag p enum_xvblock_flag_locked) s (fun _ _ => True).
Proof.
  intros E Ec Hx Hw. unfold set_flag, supd, bind, sderef. rewrite E. split; [|done].
  apply rtc_once. by eapply as_lock.
Qed.
Lemma runs_set_committed {pd} p b c cb s :
  ac_heap s !! p = Some b -> ac_heap s !! c = Some cb -> extends cb b ->
  flagged cb enum_xvblock_flag_locked \/ (exists g gb, ac_heap s !! g = Some gb /\ extends gb cb) ->
  Runs pd (set_flag p enum_xvblock_flag_committed) s (fun _ _ => True).
Proof.
  intros E Ec Hx Hg Hw. unfold set_flag, supd, bind, sderef. rewrite E. split; [|done].
  apply rtc_once. by eapply as_commit.
Qed.

Lemma extends_later hp hp' p b c cb :
  heap_grows hp hp' -> hp !! p = Some b -> hp !! c = Some cb -> extends cb b ->
  exists b' cb', hp' !! p = Some b' /\ hp' !! c = Some cb' /\ extends cb' b'.
Proof.
  intros Hg E Ec Hx. destruct (Hg _ _ E) as (b' & E' & Hb). destruct (Hg _ _ Ec) as (cb' & Ec' & Hcb).
  exists b', cb'. split_and!; [done..|]. by eapply extends_grows.
Qed.

(** The first half: the previous block. *)
Lemma runs_process_prev p this q prev s {X} (k : unit -> P X) Q :
  ac_heap s !! p = Some this -> ac_heap s !! q = Some prev -> extends this prev ->
  (forall s', wf_acct s' -> heap_grows (ac_heap s) (ac_heap s') -> Runs None (k tt) s' Q) ->
  Runs None (bind (if negb (so_check_flag prev enum_xvblock_flag_locked)
          || (_highest_lock_block_height (ac_meta s) <? sb_height prev) then
         set_flag q enum_xvblock_flag_locked ;;;
         let* locked := check_flag p enum_xvblock_flag_locked in
         (if locked then
            set_flag q enum_xvblock_flag_committed ;;;
            let* this := sderef p in
            match sb_next this with
            | Some r => let* next := sderef r in supd q (fun b => so_set_next_next_cert b (sb_cert next))
            | None => ret tt
            end
          else ret tt) ;;;
         reset_next_block q p ;;;
         save_rec q ;;; clean_candidates q ;;; ret tt
       else match sb_next prev with
            | None => reset_next_block q p
            | Some _ => ret tt
            end) k) s Q.
Proof.
  intros Ep Eq Hx Hk. eapply runs_bind with (Q' := fun _ _ => True); [|intros [] s' Hw Hg _ _; by apply Hk].
  destruct (_ || _); [|apply runs_ok; ok_go].
  eapply runs_bind; [by apply (runs_set_locked q prev p this)|]. intros [] s1 Hw1 Hg1 _ _.
  apply runs_check. intros this1 Ep1.
  eapply runs_bind with (Q' := fun _ _ => True); [|intros [] s2 Hw2 Hg2 _ _; apply runs_ok; ok_go].
  destruct (so_check_flag this1 _) eqn:El; [|by apply runs_ret].
  destruct (extends_later _ _ _ _ _ _ Hg1 Eq Ep Hx) as (prev1 & this1' & Eq1 & Ep1' & Hx1).
  rewrite Ep1 in Ep1'. injection Ep1' as <-.
  eapply runs_bind; [apply (runs_set_committed q prev1 p this1); [done..|left; by apply check_flagged]|].
  intros [] s2 Hw2 Hg2 _ _. apply runs_ok; ok_go.
Qed.

Lemma ok_process_block p : Ok None (process_block save_rec p).
Proof.
  intros s. apply runs_wf. intros Hw. apply runs_deref. intros this Ep.
  destruct (sb_prev this) as [q|] eqn:El; [|by apply runs_ret].
  destruct (wf_linked _ Hw _ _ _ Ep El) as (prev & Eq & Hx).
  apply runs_deref. intros prev' Eq'. simplify_eq. apply runs_gets.
  apply (runs_process_prev p this); [done..|]. intros s1 Hw1 Hg1.
  apply runs_deref. intros prev1 Eq1.
  destruct (extends_later _ _ _ _ _ _ Hg1 Eq Ep Hx) as (prev1' & this1 & Eq1' & Ep1 & Hx1).
  rewrite Eq1 in Eq1'. injection Eq1' as <-. destruct (sb_prev prev1) as [r|] eqn:El1; [|by apply runs_ret].
  destruct (wf_linked _ Hw1 _ _ _ Eq1 El1) as (pp & Er & Hx2).
  apply runs_deref. intros pp' Er'. rewrite Er in Er'. injection Er' as <-. apply runs_gets.
  eapply runs_bind with (Q' := fun _ _ => True); [|intros [] s2 _ _ _ _; apply runs_ok; ok_go].
  destruct (_ || _ || _); [|apply runs_ok; ok_go].
  eapply runs_bind; [apply (runs_set_committed r pp q prev1); [done..|right; eauto]|].
  intros [] s2 Hw2 Hg2 _ _. apply runs_ok; ok_go.
Qed.
Hint Resolve ok_process_block : store.

Lemma ok_link_prev p vs : Ok None (link_prev save_rec p vs).
Proof. induction vs as [|[v q] vs IH]; cbn [link_prev]; ok_go. Qed.
Hint Resolve ok_link_prev : store.
Lemma ok_prev_missing p : Ok None (prev_missing p).
Proof. unfold prev_missing. ok_go. Qed.
Hint Resolve ok_prev_missing : store.

Lemma ok_connect_block p r : Ok None (connect_block load_rec save_rec n p r).
Proof.
  unfold connect_block. ok_go; apply ok_rev_loop; intros q; ok_go.
Qed.

Lemma runs_load_meta p b s :
  ac_heap s !! p = Some b -> Runs None (load_meta p (sb_height b)) s (fun _ _ => True).
Proof.
  intros E. apply runs_deref. intros b' E'. simplify_eq.
  destruct (so_check_flag b enum_xvblock_flag_committed) eqn:Ec.
  - apply check_flagged in Ec. do 4 (eapply runs_step; [done|
      first [by eapply as_raise_cert | eapply as_raise_lock; [done|by right]
            | by eapply as_raise_commit | by eapply as_raise_full]|intros _ _]).
    eapply runs_bind with (Q' := fun _ _ => True).
    { destruct (so_check_flag b enum_xvblock_flag_connected); [by apply runs_ret|]. by apply runs_mark_connected. }
    intros [] s1 Hw1 Hg1 _ _. destruct (Hg1 p b E) as (b1 & E1 & Hb1).
    eapply runs_bind with (Q' := fun _ _ => True); [|intros; by apply runs_ret].
    rewrite <- (same_header_height _ _ (proj1 Hb1)). by apply runs_advance_connect.
  - destruct (so_check_flag b enum_xvblock_flag_locked) eqn:El.
    + apply check_flagged in El. do 2 (eapply runs_step; [done|
        first [by eapply as_raise_cert | eapply as_raise_lock; [done|by left]]|intros _ _]).
      by apply runs_ret.
    + destruct (so_check_flag b enum_xvblock_flag_authenticated); [|by apply runs_ret].
      eapply runs_step; [done|by eapply as_raise_cert|]. intros _ _. by apply runs_ret.
Qed.

Lemma ok_load_block_body target r : Ok None (load_block_body A load_rec save_rec n target r).
Proof.
  intros s. apply runs_gets.
  assert (Hf : forall b, match get_vblock (ac_db s) (id_path A) (id_account A) target with
               | Some b => Some b
               | None => if 0 =? target then create_genesis_block (id_account A) else None
               end = Some b -> supplied A s (so_reset_modified b)).
  { intros b. destruct (get_vblock _ _ _ _) eqn:Eg; [intros [= ->]; exists b; eauto|].
    destruct (0 =? target); [|done]. intros Eg'. exists b. auto. }
  cbv zeta. destruct (match get_vblock _ _ _ _ with Some _ => _ | None => _ end) as [b0|]; [|by apply runs_ret].
  specialize (Hf _ eq_refl). eapply runs_step; [done|by apply as_alloc|]. intros Hw1 _.
  apply runs_deref. cbn [with_new ac_heap]. intros b. rewrite lookup_insert_eq. intros [= <-].
  set (b := so_reset_modified b0) in *. set (p := ac_next s).
  destruct (Z.eqb_spec target (sb_height b)) as [->|]; cbn [negb]; [|by apply runs_ret].
  apply runs_set_cache. { intros Hw. apply cached_emplace_nil, Hw. }
  match goal with |- Runs _ _ ?t _ => set (s1 := t) end.
  assert (E1 : ac_heap s1 !! p = Some b) by apply lookup_insert_eq. clearbody s1.
  apply runs_views. intros vs Hvs. destruct (map_emplace (sb_viewid b) p vs) as [vs' ins] eqn:Em. cbn [fst snd].
  destruct ins; [|by apply runs_ret].
  unfold map_emplace in Em. destruct (map_find (sb_viewid b) vs); [done|]. injection Em as <-.
  apply runs_set_cache.
  { intros Hw. apply cached_set; [apply Hw|]. eapply views_set; [|done..]. eapply find_views_ok; [apply Hw|done]. }
  eapply runs_seq; [apply ok_connect_block|]. intros _ s3 Hw3 Hg3.
  destruct (Hg3 p b E1) as (b3 & E3 & Hb3). rewrite <- (same_header_height _ _ (proj1 Hb3)).
  by apply runs_load_meta.
Qed.
End Rec.

Lemma ok_load_save n : (forall h r, Ok None (load_block A n h r)) /\ (forall p, Ok None (save_block A n p)).
Proof.
  induction n as [|n [IHl IHs]]; [split; intros; apply ok_ub|]. split; intros; cbn.
  - by apply ok_load_block_body.
  - by apply ok_save_block_body.
Qed.
Lemma ok_load_block n h r : Ok None (load_block A n h r).
Proof. apply ok_load_save. Qed.
Lemma ok_save_block n p : Ok None (save_block A n p).
Proof. apply ok_load_save. Qed.
Hint Resolve ok_load_block ok_save_block : store.
Lemma ok_load_block_object n h full : Ok None (load_block_object A n h full).
Proof. apply ok_load_object. auto with store. Qed.
Hint Resolve ok_load_block_object : store.

(** ** Storing *)

Lemma ok_save_meta {pd} : Ok pd (save_meta A).
Proof. unfold save_meta. ok_go. Qed.
Hint Resolve ok_save_meta : store.
Lemma ok_clean_loop n cur keep : Ok None (clean_loop A n cur keep).
Proof.
  revert cur. induction n as [|n IH]; intros cur; cbn [clean_loop]; ok_go.
  apply ok_fwd_loop. intros q. ok_go.
Qed.
Hint Resolve ok_clean_loop : store.
Lemma ok_clean_blocks n keep : Ok None (clean_blocks A n keep).
Proof. unfold clean_blocks. ok_go. Qed.
Hint Resolve ok_clean_blocks : store.

Lemma ok_is_replace n e p : Ok None (is_replace_existing_block A n e p).
Proof. unfold is_replace_existing_block. ok_go. Qed.
Hint Resolve ok_is_replace : store.
Lemma ok_scan_commit {pd} h vs slot : Ok pd (scan_commit h vs slot).
Proof. revert slot. induction vs as [|[v q] vs IH]; intros slot; cbn [scan_commit]; ok_go. Qed.
Lemma ok_scan_lock {pd} h vs slot : Ok pd (scan_lock h vs slot).
Proof. revert slot. induction vs as [|[v q] vs IH]; intros slot; cbn [scan_lock]; ok_go. Qed.
Lemma ok_scan_cert {pd} v0 vs slot : Ok pd (scan_cert v0 vs slot).
Proof. revert slot. induction vs as [|[v q] vs IH]; intros slot; cbn [scan_cert]; ok_go. Qed.
Hint Resolve ok_scan_commit ok_scan_lock ok_scan_cert : store.
Lemma ok_apply_cache_rules {pd} p h : Ok pd (apply_cache_rules p h).
Proof. unfold apply_cache_rules. ok_go. Qed.
Hint Resolve ok_apply_cache_rules : store.
Lemma ok_relink_next {pd} p vs : Ok pd (relink_next p vs).
Proof. induction vs as [|[v q] vs IH]; cbn [relink_next]; ok_go. Qed.
Hint Resolve ok_relink_next : store.

(** Filing a block under its own height. *)
Lemma runs_file {X} p b v s (k : unit -> P X) Q vs :
  ac_heap s !! p = Some b -> map_find (sb_height b) (ac_blocks s) = Some vs ->
  (forall s', wf_acct s' -> ac_heap s' = ac_heap s -> Runs None (k tt) s' Q) ->
  Runs None (bind (set_cache (map_set (sb_height b) (map_set v p vs))) k) s Q.
Proof.
  intros E Hf Hk. apply runs_wf. intros Hw. apply runs_set_cache.
  { intros _. apply cached_set; [apply Hw|]. eapply views_set; [|done..]. eapply find_views_ok; [apply Hw|done]. }
  apply runs_wf. intros Hw'. by apply Hk.
Qed.

Lemma runs_replace_in_slot n p b existing v s :
  ac_heap s !! p = Some b ->
  Runs None (replace_in_slot A n p existing (sb_height b) v) s (fun _ _ => True).
Proof.
  intros E. apply runs_deref. intros eb _.
  eapply runs_seq; [auto with store|]. intros _ s1 _ Hg1.
  eapply runs_seq; [auto with store|]. intros st s2 _ Hg2.
  eapply runs_seq; [destruct st; auto with store|]. intros _ s3 _ Hg3.
  destruct (Hg1 _ _ E) as (b1 & E1 & Hb1). destruct (Hg2 _ _ E1) as (b2 & E2 & Hb2).
  destruct (Hg3 _ _ E2) as (b3 & E3 & Hb3).
  assert (Eh : sb_height b3 = sb_height b).
  { rewrite (same_header_height _ _ (proj1 Hb3)), (same_header_height _ _ (proj1 Hb2)). apply same_header_height, Hb1. }
  rewrite <- Eh. apply runs_views. intros vs Hvs. eapply runs_file; [done|done|].
  intros s4 _ _. apply runs_ok. ok_go.
Qed.

Lemma runs_store_in_slot n p b v s :
  ac_heap s !! p = Some b -> Runs None (store_in_slot A n p (sb_height b) v) s (fun _ _ => True).
Proof.
  intros E. apply runs_views. intros vs _. apply runs_nonnull. intros existing _.
  apply runs_deref. intros b' E'. simplify_eq. case_bool_decide; [apply runs_ok; ok_go|].
  apply runs_deref. intros eb _. eapply runs_seq; [ok_go|]. intros o s1 _ Hg1.
  destruct o as [rep|]; [|by apply runs_ret].
  apply runs_views. intros vs1 _. apply runs_nonnull. intros e1 _.
  apply runs_deref. intros eb1 _. apply runs_deref. intros b1 E1.
  destruct (_ && _); [by apply runs_ret|].
  destruct (Hg1 _ _ E) as (b1' & E1' & Hb1). rewrite <- (same_header_height _ _ (proj1 Hb1)).
  by apply runs_replace_in_slot.
Qed.

Lemma runs_store_new n p b s :
  ac_heap s !! p = Some b -> Runs None (store_new A n p (sb_height b)) s (fun _ _ => True).
Proof.
  intros E. apply runs_deref. intros b' E'. simplify_eq. apply runs_views. intros vs Hvs.
  destruct (map_emplace _ _ _) as [vs' ins] eqn:Em. cbn [fst snd]. destruct ins; [|by apply runs_ret].
  unfold map_emplace in Em. destruct (map_find (sb_viewid b) vs); [done|]. injection Em as <-.
  eapply runs_file; [done|done|]. intros s1 Hw1 Eh1.
  eapply runs_seq; [auto with store|]. intros _ s2 Hw2 Hg2.
  eapply runs_seq; [by apply ok_connect_block; auto with store|]. intros ok s3 Hw3 Hg3.
  eapply runs_bind with (Q' := fun _ _ => True); [|intros; by apply runs_ret].
  destruct ok; [apply runs_ok; ok_go|]. apply runs_views. intros vs3 Hvs3 Hw. split; [|done].
  apply rtc_once, as_cache. destruct (map_erase (sb_viewid b) vs3) eqn:Ee; [by apply cached_erase, (wf_cached _ Hw)|].
  rewrite <- Ee. apply cached_set; [apply Hw|]. eapply views_erase, find_views_ok; [apply Hw|done].
Qed.

Lemma ok_store_block n p : Ok None (store_block A n p).
Proof.
  intros s. apply runs_deref. intros b E. destruct (_ || _); [by apply runs_ret|].
  eapply runs_seq; [auto with store|]. intros _ s1 _ Hg1.
  eapply runs_seq; [auto with store|]. intros vs s2 _ Hg2. apply runs_gets.
  eapply runs_seq; [ok_go|]. intros _ s3 _ Hg3.
  eapply runs_seq; [auto with store|]. intros slot s4 _ Hg4.
  assert (Hg : heap_grows (ac_heap s) (ac_heap s4)) by by do 3 (etrans; [done|]).
  destruct (Hg _ _ E) as (b4 & E4 & Hb4). rewrite <- (same_header_height _ _ (proj1 Hb4)).
  destruct slot as [[v|]|]; [by apply runs_store_in_slot|by apply runs_store_new|by apply runs_ret].
Qed.
Hint Resolve ok_store_block : store.
Lemma ok_store_blocks n ps : Ok None (store_blocks A n ps).
Proof. induction ps as [|[p|] ps IH]; cbn [store_blocks]; ok_go. Qed.

Lemma ok_delete_block {pd} p : Ok pd (delete_block p).
Proof.
  intros s. apply runs_deref. intros b E. destruct (so_check_flag b _); [by apply runs_ret|].
  apply runs_gets. destruct (map_find _ _) as [vs|] eqn:Ev; [|by apply runs_ret].
  apply runs_wf. intros Hw. assert (Hv := find_views_ok _ _ _ _ (wf_cached _ Hw) Ev).
  eapply runs_seq; [ok_go|]. intros _ s1 Hw1 Hg1.
  apply runs_set_cache; [|by apply runs_ret]. intros _.
  destruct (map_erase (sb_viewid b) vs) eqn:Ee; [by apply cached_erase, (wf_cached _ Hw1)|].
  rewrite <- Ee. apply cached_set; [apply Hw1|]. eapply views_erase, views_grow; done.
Qed.

(** ** Reading and closing *)

Lemma ok_get_genesis n : Ok None (get_genesis_block A n).
Proof. apply ok_load_block_object. Qed.
Hint Resolve ok_get_genesis : store.
Lemma ok_get_latest n f : Ok None (get_latest_block A n f).
Proof. unfold get_latest_block. ok_go. Qed.
Hint Resolve ok_get_latest : store.
Lemma ok_get_latest_full n : Ok None (get_latest_full_block A n).
Proof. unfold get_latest_full_block. ok_go. Qed.
Lemma ok_latest_in_views {pd} vs l : Ok pd (latest_in_views vs l).
Proof. revert l. induction vs as [|[v p] vs IH]; intros l; cbn [latest_in_views]; ok_go. Qed.
Hint Resolve ok_latest_in_views : store.
Lemma ok_latest_in_heights {pd} hs l : Ok pd (latest_in_heights hs l).
Proof. revert l. induction hs as [|[h vs] hs IH]; intros l; cbn [latest_in_heights]; ok_go. Qed.
Hint Resolve ok_latest_in_heights : store.
Lemma ok_latest_list n : Ok None (get_latest_blocks_list A n).
Proof. unfold get_latest_blocks_list. ok_go. Qed.
Lemma ok_query_or_load n h full : Ok None (query_or_load A n h full).
Proof. unfold query_or_load. ok_go. Qed.
Hint Resolve ok_query_or_load : store.
Lemma ok_current n full : Ok None (get_latest_current_block A n full).
Proof. unfold get_latest_current_block, get_latest_cert_block, current_from_connect. ok_go. Qed.

(** A stored block that [close_blocks] finds connected. *)
Lemma ok_settle p : Ok None (settle_connected p).
Proof.
  intros s. apply runs_deref. intros b E. rewrite !block_flags_of by done.
  destruct (has_flag _ enum_xvblock_flag_stored); [|by apply runs_ret]. apply runs_gets.
  destruct (has_flag _ enum_xvblock_flag_connected) eqn:En.
  - destruct (Z.ltb_spec (_highest_connect_block_height (ac_meta s)) (sb_height b)) as [Hlt|]; [|by apply runs_ret].
    intros Hw. split; [|done]. apply rtc_once. eapply as_raise_connect; [done|]. by left.
  - destruct (_ && _) eqn:Eg; [|by apply runs_ret]. guards. destruct Eg as [[Hh Hc] Hhash].
    eapply runs_step; [done|eapply as_raise_connect; [done|]; right; by split_and!|]. intros Hw1 _.
    eapply runs_set_connected; [done..|]. left. cbn. lia.
Qed.
Hint Resolve ok_settle : store.
Lemma ok_close_heights n cur : Ok None (close_heights A n cur).
Proof.
  revert cur. induction n as [|n IH]; intros cur; cbn [close_heights]; ok_go.
  apply ok_fwd_loop. intros p. unfold close_one. ok_go.
Qed.
Hint Resolve ok_close_heights : store.
Lemma ok_close n : Ok None (close A n).
Proof. unfold close, close_blocks. ok_go. Qed.
End Refine.
