(* ===== verification/StoreProps.v ===== *)
(** * What holds of every execution of the block store

    Consequences of the step relation, for any sequence of operations: the
    refinement itself, what never goes back, why a block is committed, and the
    order in which blocks are executed. *)

From stdpp Require Import prelude gmap strings relations.
From Stdlib Require Import ZArith Lia Sorted.
From S2P Require Import Prelude Stream StdMap VBlock Pdu StoreBlock StoreProg BlockStore StoreSteps StoreRefine.

#[local] Open Scope store_scope.

(** The calls an account receives. *)
Inductive store_op :=
  | OpStore (p : ptr)
  | OpStores (ps : list (option ptr))
  | OpDelete (p : ptr)
  | OpExecute (p : ptr)
  | OpLoad (h : Z) (full : bool)
  | OpLatest (flag : Z)
  | OpLatestFull
  | OpLatestList
  | OpCurrent (full : bool)
  | OpClean (keep : Z)
  | OpClose.

(** The blocks a database has executed for the account, oldest first: what
    [execute_block] appends to when it succeeds and nothing else touches. *)
Class XExecLog (DB : Type) `{XStoreFace DB} `{XStoreEnv DB} := {
  exec_log : DB -> list sblock;
  exec_log_execute : forall d b r d', db_execute_block d b = (r, d') ->
    exec_log d' = exec_log d ++ (if r then [b] else []);
  exec_log_set : forall d path b, exec_log (set_vblock d path b).2 = exec_log d;
  exec_log_header : forall d path b, exec_log (set_vblock_header d path b).2 = exec_log d;
  exec_log_value : forall d k v, exec_log (set_value d k v).2 = exec_log d;
  exec_log_unit : forall d u, exec_log (blockstore_store_block d u).2 = exec_log d;
}.

(** What may be executed after a block of height [h] and hash [x]: genesis
    first, the block that names it as its predecessor, a later full block. *)
Definition follows (h : Z) (x : string) (b : sblock) : Prop :=
  (h = 0 /\ sb_height b = 0)
  \/ (sb_height b = h + 1 /\ sb_last_hash b = x)
  \/ (h < sb_height b /\ sb_class b = enum_xvblock_class_full).

(** The executions [l] lead from the last executed block [(h, x)] to
    [(h', x')].  Between two of them the account may find that a higher
    committed, connected block was executed before ([ec_known]); an execution
    that could not be saved, [W], is withdrawn from the record ([ec_lost]). *)
Inductive exec_chain (W : Prop) : Z -> string -> list sblock -> Z -> string -> Prop :=
  | ec_nil h x : exec_chain W h x [] h x
  | ec_exec h x l h' x' b :
      exec_chain W h x l h' x' -> follows h' x' b ->
      flagged b enum_xvblock_flag_committed -> flagged b enum_xvblock_flag_connected ->
      exec_chain W h x (l ++ [b]) (sb_height b) (sb_hash b)
  | ec_lost h x l h' x' b :
      W -> exec_chain W h x l h' x' -> follows h' x' b ->
      flagged b enum_xvblock_flag_committed -> flagged b enum_xvblock_flag_connected ->
      exec_chain W h x (l ++ [b]) h' x'
  | ec_known h x l h' x' b :
      exec_chain W h x l h' x' -> h' < sb_height b ->
      flagged b enum_xvblock_flag_committed -> flagged b enum_xvblock_flag_connected ->
      flagged b enum_xvblock_flag_executed ->
      exec_chain W h x l (sb_height b) (sb_hash b).

(** The heights executed after genesis. *)
Definition exec_heights (l : list sblock) : list Z := List.filter (fun h => 0 <? h) (map sb_height l).

Lemma exec_chain_mono (W W' : Prop) h x l h' x' :
  (W -> W') -> exec_chain W h x l h' x' -> exec_chain W' h x l h' x'.
Proof. intros HW. induction 1; [constructor|eapply ec_exec|eapply ec_lost|eapply ec_known]; eauto. Qed.

Lemma exec_heights_snoc l b :
  exec_heights (l ++ [b]) = exec_heights l ++ (if 0 <? sb_height b then [sb_height b] else []).
Proof. unfold exec_heights. rewrite map_app, List.filter_app. done. Qed.

(** No height is executed twice, and none out of order, unless a write failed. *)
Lemma exec_chain_sorted W h x l h' x' :
  exec_chain W h x l h' x' -> ~ W ->
  h <= h' /\ Forall (fun k => h < k <= h') (exec_heights l) /\ StronglySorted Z.lt (exec_heights l).
Proof.
  induction 1 as [h x|h x l h' x' b _ IH Hf _ _|h x l h' x' b HW|h x l h' x' b _ IH Hlt _ _ _]; intros Hn;
    [split_and!; [lia|constructor..]| |done|].
  - destruct (IH Hn) as (Hle & Hall & Hs). rewrite exec_heights_snoc.
    assert (Hb : h' <= sb_height b /\ (0 < sb_height b -> h' < sb_height b)).
    { destruct Hf as [?|[?|?]]; lia. }
    destruct Hb as [Hb Hb']. assert (Hall' : Forall (fun k => h < k <= sb_height b) (exec_heights l)).
    { eapply Forall_impl; [exact Hall|]. cbn. lia. }
    destruct (Z.ltb_spec 0 (sb_height b)) as [Hp|_]; [|by rewrite app_nil_r; split_and!; [lia|done|done]].
    specialize (Hb' Hp). split_and!; [lia|by apply Forall_app; split; [|repeat constructor; lia]|].
    clear -Hs Hall Hb'. induction Hs as [|k l' Hl' IHl Hk]; cbn; [by repeat constructor|].
    apply Forall_cons in Hall as [Hk' Hall]. constructor; [auto|].
    apply Forall_app. split; [done|]. repeat constructor. lia.
  - destruct (IH Hn) as (Hle & Hall & Hs). split_and!; [lia| |done].
    eapply Forall_impl; [exact Hall|]. cbn. lia.
Qed.

Section Run.
Context {DB : Type} `{XStoreObj} `{XStoreFace DB} `{XStoreEnv DB} (A : acctid).
Abbreviation St := (acct DB).

Definition run_op (n : nat) (op : store_op) : prog St unit :=
  match op with
  | OpStore p => store_block A n p ;;; ret tt
  | OpStores ps => store_blocks A n ps ;;; ret tt
  | OpDelete p => delete_block p ;;; ret tt
  | OpExecute p => execute_block A p ;;; ret tt
  | OpLoad h full => load_block_object A n h full ;;; ret tt
  | OpLatest flag => get_latest_block A n flag ;;; ret tt
  | OpLatestFull => get_latest_full_block A n ;;; ret tt
  | OpLatestList => get_latest_blocks_list A n ;;; ret tt
  | OpCurrent full => get_latest_current_block A n full ;;; ret tt
  | OpClean keep => clean_blocks A n keep ;;; ret tt
  | OpClose => close A n ;;; ret tt
  end.
Definition run_ops (n : nat) (ops : list store_op) : prog St unit := for_each ops (run_op n).
End Run.

Section Props.
Context {DB : Type} `{XStoreObj} `{XStoreFace DB} `{XStoreEnv DB} `{!XWriteLog DB} (A : acctid).
Context `{!XStoreObjLaws} `{!XStoreFaceLaws DB}.
Abbreviation St := (acct DB).

(** ** Refinement *)

Lemma ok_run_ops n ops : Ok A None (run_ops A n ops).
Proof.
  unfold run_ops. induction ops as [|op ops IH]; [apply ok_ret|]. apply (ok_bind A); [|done].
  destruct op; (apply (ok_bind A); [|intros; apply ok_ret]).
  - by apply ok_store_block.
  - by apply ok_store_blocks.
  - by apply ok_delete_block.
  - by apply ok_execute_block.
  - by apply ok_load_block_object.
  - by apply ok_get_latest.
  - by apply ok_get_latest_full.
  - by apply ok_latest_list.
  - by apply ok_current.
  - by apply ok_clean_blocks.
  - by apply ok_close.
Qed.

(** The way to the state where the calls have returned or stopped. *)
Lemma run_ops_steps n ops s r s' :
  wf_acct s -> run_ops A n ops s = (r, s') ->
  exists pd, rtc (astep A) (s, None) (s', pd) /\ (is_Some r -> pd = None).
Proof.
  intros Hw E. assert (Hok := ok_run_ops n ops s Hw). rewrite E in Hok. destruct r as [[]|].
  - exists None. split; [apply Hok|done].
  - destruct Hok as [pd Hs]. exists pd. split; [done|]. intros [? [=]].
Qed.

(** ** What never goes back *)

Definition meta_le (m m' : xacctmeta) : Prop :=
  _highest_cert_block_height m <= _highest_cert_block_height m'
  /\ _highest_lock_block_height m <= _highest_lock_block_height m'
  /\ _highest_commit_block_height m <= _highest_commit_block_height m'
  /\ _highest_execute_block_height m <= _highest_execute_block_height m'
  /\ _highest_full_block_height m <= _highest_full_block_height m'
  /\ _highest_connect_block_height m <= _highest_connect_block_height m'.

#[local] Instance meta_le_preorder : PreOrder meta_le.
Proof. split; [intros m; unfold meta_le; lia|]. intros a b c. unfold meta_le. lia. Qed.

(** The next height, below the largest number. *)
Lemma next_height h : 0 <= h < 2 ^ 64 - 1 -> u64 (h + 1) = h + 1.
Proof. intros Hh. apply u64_small. unfold is_u64. lia. Qed.

Lemma ready_cases (s : St) b : wf_acct s -> is_ready_to_executed (ac_meta s) b = true ->
  (_highest_execute_block_height (ac_meta s) = 0 /\ sb_height b = 0)
  \/ (sb_height b = _highest_execute_block_height (ac_meta s) + 1
      /\ sb_last_hash b = _highest_execute_block_hash (ac_meta s))
  \/ (_highest_execute_block_height (ac_meta s) < sb_height b /\ sb_class b = enum_xvblock_class_full).
Proof.
  intros Hw. unfold is_ready_to_executed. rewrite next_height by apply Hw. guards. intuition lia.
Qed.

(** The block being recorded is not behind the executed height. *)
Definition pend_ok (x : St * option (ptr * nat)) : Prop :=
  match x.2 with
  | None => True
  | Some (p, _) => exists b, ac_heap x.1 !! p = Some b
                /\ _highest_execute_block_height (ac_meta x.1) <= sb_height b
  end.

Lemma astep_meta x y : astep A x y -> wf_acct x.1 -> pend_ok x -> meta_le (ac_meta x.1) (ac_meta y.1).
Proof.
  intros Hst Hw Hp. destruct Hst; cbn [fst] in *; try (unfold meta_le; cbn; lia);
    try (unfold mt_raise_cert, mt_raise_lock, mt_raise_commit, mt_raise_full; repeat case_match;
         guards; unfold meta_le; cbn; lia).
  - match goal with Hr : _ \/ _ |- _ => destruct Hr as [?|(_ & E & _)] end; unfold meta_le; cbn; [lia|].
    rewrite next_height in E by apply Hw. lia.
  - destruct Hp as (b' & E & Hle). cbn in E, Hle. simplify_eq. unfold meta_le; cbn; lia.
Qed.

Lemma astep_pend x y : astep A x y -> wf_acct x.1 -> pend_ok x -> pend_ok y.
Proof.
  intros Hst Hw Hp. destruct (astep_ok _ _ _ Hst Hw) as [_ Hg].
  assert (Hkeep : forall p, x.2 = Some p -> y.2 = Some p ->
     _highest_execute_block_height (ac_meta y.1) = _highest_execute_block_height (ac_meta x.1) -> pend_ok y).
  { intros p Ex Ey Em. unfold pend_ok in *. rewrite Ex in Hp. rewrite Ey, Em. destruct p as [p n], Hp as (b & E & Hle).
    destruct (Hg _ _ E) as (b' & E' & Hb & _). exists b'. split; [done|]. by rewrite (same_header_height _ _ Hb). }
  destruct Hst; cbn [fst snd] in *; try done;
    try (destruct pd as [p0|]; [|done]; by apply (Hkeep p0);
         unfold mt_raise_cert, mt_raise_lock, mt_raise_commit, mt_raise_full; cbn; repeat case_match).
  unfold pend_ok; cbn. rewrite lookup_insert_eq. eexists. split; [done|].
  rewrite (same_header_height _ _ (so_set_flag_header b enum_xvblock_flag_executed)).
  match goal with Hr : is_ready_to_executed _ _ = true |- _ => destruct (ready_cases _ _ Hw Hr) as [?|[?|?]] end; lia.
Qed.

Lemma steps_meta x y : rtc (astep A) x y -> wf_acct x.1 -> pend_ok x -> meta_le (ac_meta x.1) (ac_meta y.1).
Proof.
  induction 1 as [x|x y z Hxy _ IH]; intros Hw Hp; [done|].
  etrans; [by eapply astep_meta|]. apply IH; [by eapply astep_ok|by eapply astep_pend].
Qed.

(** ** Why a block is committed *)

(** A child that is locked or has a child itself. *)
Definition has_chain (hp : gmap ptr sblock) (b : sblock) : Prop :=
  exists c cb, hp !! c = Some cb /\ extends cb b
    /\ (flagged cb enum_xvblock_flag_locked \/ exists g gb, hp !! g = Some gb /\ extends gb cb).

Lemma has_chain_grows hp hp' b b' : heap_grows hp hp' -> grows b b' -> has_chain hp b -> has_chain hp' b'.
Proof.
  intros Hg Hb (c & cb & Ec & Hx & Hl). destruct (Hg _ _ Ec) as (cb' & Ec' & Hcb).
  exists c, cb'. split_and!; [done|by eapply extends_grows|].
  destruct Hl as [Hl|(g & gb & Eg & Hxg)]; [left; by eapply grows_flag|].
  right. destruct (Hg _ _ Eg) as (gb' & Eg' & Hgb). exists g, gb'. split; [done|by eapply extends_grows].
Qed.

(** The object [p] was created in the course of the run, at [t], for a block
    the database of that moment, or the genesis factory, supplied as
    committed. *)
Definition supplied_committed (s0 : St) (y : St * option (ptr * nat)) (p : ptr) : Prop :=
  exists t pd b0, rtc (astep A) (s0, None) (t, pd) /\ supplied A t b0
    /\ flagged b0 enum_xvblock_flag_committed /\ p = ac_next t /\ rtc (astep A) (with_new t b0, pd) y.

Definition commit_cause (s0 s : St) (p : ptr) (b : sblock) : Prop :=
  (exists b0, ac_heap s0 !! p = Some b0 /\ flagged b0 enum_xvblock_flag_committed)
  \/ (exists pd, supplied_committed s0 (s, pd) p) \/ has_chain (ac_heap s) b.

(** One step commits a block only over a chain. *)
Lemma astep_commit x y p b :
  astep A x y -> wf_acct x.1 -> ac_heap y.1 !! p = Some b -> flagged b enum_xvblock_flag_committed ->
  (exists b0, ac_heap x.1 !! p = Some b0 /\ flagged b0 enum_xvblock_flag_committed)
  \/ (supplied A x.1 b /\ p = ac_next x.1 /\ y = (with_new x.1 b, x.2)) \/ has_chain (ac_heap y.1) b.
Proof.
  intros Hst Hw E Hc. destruct (astep_ok _ _ _ Hst Hw) as [_ Hg].
  assert (Hput : forall (s : St) q b0 b1, ac_heap s !! q = Some b0 -> <[q := b1]> (ac_heap s) !! p = Some b ->
     (flagged b1 enum_xvblock_flag_committed -> flagged b0 enum_xvblock_flag_committed) ->
     exists b0, ac_heap s !! p = Some b0 /\ flagged b0 enum_xvblock_flag_committed).
  { intros s q b0 b1 E0 E1 Hf. destruct (decide (q = p)) as [->|].
    - rewrite lookup_insert_eq in E1. simplify_eq. eauto.
    - rewrite lookup_insert_ne in E1 by done. eauto. }
  destruct Hst; cbn [fst snd ac_heap with_new with_heap with_db with_cache with_meta with_vmeta with_closed with_event] in *;
    try (left; eauto; fail).
  - (* a block object is created *)
    destruct (decide (ac_next s = p)) as [<-|].
    + rewrite lookup_insert_eq in E. injection E as <-. right. left. by split_and!.
    + rewrite lookup_insert_ne in E by done. left. eauto.
  - left. eapply (Hput s); [|exact E|]; [eassumption|]. match goal with Hsc : same_core _ _ |- _ => destruct Hsc as (_ & _ & ->) end. done.
  - left. eapply (Hput s); [|exact E|]; [eassumption|]. rewrite so_set_flag_flags, has_flag_lor. destruct_or!; subst; by rewrite orb_false_r.
  - left. eapply (Hput s); [|exact E|]; [eassumption|]. by rewrite so_remove_flag_flags, has_flag_ldiff.
  - left. eapply (Hput s); [|exact E|]; [eassumption|]. by rewrite so_set_flag_flags, has_flag_lor, orb_false_r.
  - destruct (decide (p0 = p)) as [->|].
    + right. right. rewrite lookup_insert_eq in E. injection E as <-.
      eapply has_chain_grows; [exact Hg|by apply set_flag_grows|]. exists c, cb. done.
    + rewrite lookup_insert_ne in E by done. left. eauto.
  - left. eapply (Hput s); [|exact E|]; [eassumption|]. by rewrite so_remove_flag_flags, has_flag_ldiff.
Qed.

Lemma steps_commit s0 y : rtc (astep A) (s0, None) y -> wf_acct s0 -> forall p b,
  ac_heap y.1 !! p = Some b -> flagged b enum_xvblock_flag_committed ->
  (exists b0, ac_heap s0 !! p = Some b0 /\ flagged b0 enum_xvblock_flag_committed)
  \/ supplied_committed s0 y p \/ has_chain (ac_heap y.1) b.
Proof.
  intros Hs Hw. revert y Hs. refine (rtc_ind_r _ _ _ _); [left; eauto|]. intros y z Hxy Hyz IH p b E Hc.
  destruct (rtc_ok _ _ _ Hxy Hw) as [Hwy _]. destruct (astep_ok _ _ _ Hyz Hwy) as [_ Hg].
  destruct (astep_commit _ _ _ _ Hyz Hwy E Hc) as [(b0 & E0 & Hc0)|[(Hsup & Ep & Ez)|Hch]]; [| |right; by right].
  - destruct (Hg _ _ E0) as (b' & E' & Hb). rewrite E in E'. injection E' as <-.
    destruct (IH _ _ E0 Hc0) as [Hl|[(t & pd & b1 & Ht & Hs1 & Hc1 & Hp & Hend)|Hr]]; [by left| |].
    + right. left. exists t, pd, b1. split_and!; [done..|]. by eapply rtc_r.
    + right. right. by eapply has_chain_grows.
  - right. left. destruct y as [y pdy]. exists y, pdy, b. subst z. by split_and!.
Qed.

(** ** The order of execution *)

Section Exec.
Context `{!XExecLog DB}.

(** The database refused a block between two states. *)
Definition write_failed (s0 s : St) : Prop := (failed_writes (ac_db s0) < failed_writes (ac_db s))%nat.

(** The executions since [s0], the one being recorded last. *)
Definition executed_since (s0 : St) (x : St * option (ptr * nat)) : Prop :=
  exists new, exec_log (ac_db x.1) = exec_log (ac_db s0) ++ new /\
  let chain := fun l => exec_chain (write_failed s0 x.1) (_highest_execute_block_height (ac_meta s0))
    (_highest_execute_block_hash (ac_meta s0)) l
    (_highest_execute_block_height (ac_meta x.1)) (_highest_execute_block_hash (ac_meta x.1)) in
  match x.2 with
  | None => chain new
  | Some (p, n) => exists l b b', new = l ++ [b] /\ chain l
      /\ follows (_highest_execute_block_height (ac_meta x.1)) (_highest_execute_block_hash (ac_meta x.1)) b
      /\ flagged b enum_xvblock_flag_committed /\ flagged b enum_xvblock_flag_connected
      /\ ac_heap x.1 !! p = Some b' /\ grows b b' /\ (failed_writes (ac_db s0) <= n)%nat
  end.

(** A step that leaves log and executed block alone. *)
Lemma executed_since_keep s0 (s s' : St) pd :
  exec_log (ac_db s') = exec_log (ac_db s) ->
  _highest_execute_block_height (ac_meta s') = _highest_execute_block_height (ac_meta s) ->
  _highest_execute_block_hash (ac_meta s') = _highest_execute_block_hash (ac_meta s) ->
  (failed_writes (ac_db s) <= failed_writes (ac_db s'))%nat -> heap_grows (ac_heap s) (ac_heap s') ->
  executed_since s0 (s, pd) -> executed_since s0 (s', pd).
Proof.
  intros El Eh Ex Hle Hg (new & En & Hn). exists new. cbn in *. rewrite El, Eh, Ex. split; [done|].
  assert (HW : write_failed s0 s -> write_failed s0 s') by (unfold write_failed; lia).
  destruct pd as [[p n]|]; [|by eapply exec_chain_mono].
  destruct Hn as (l & b & b' & ? & ? & ? & ? & ? & E & Hb & ?).
  destruct (Hg _ _ E) as (b'' & E' & Hb'). exists l, b, b''. split_and!; try done; [by eapply exec_chain_mono|by etrans].
Qed.

Lemma astep_exec s0 x y :
  astep A x y -> wf_acct x.1 -> (failed_writes (ac_db s0) <= failed_writes (ac_db x.1))%nat ->
  executed_since s0 x -> executed_since s0 y.
Proof.
  intros Hst Hw Hle Hx. destruct (astep_ok _ _ _ Hst Hw) as [_ Hg]. assert (Hfl := astep_failed _ _ _ Hst).
  assert (HW : write_failed s0 x.1 -> write_failed s0 y.1) by (unfold write_failed; lia).
  destruct Hst; cbn [fst] in *;
    try (by eapply executed_since_keep; [..|exact Hfl|exact Hg|exact Hx];
         first [apply exec_log_set | apply exec_log_header | apply exec_log_value | apply exec_log_unit
               | unfold mt_raise_cert, mt_raise_lock, mt_raise_commit, mt_raise_full; cbn; repeat case_match]).
  - (* the database executes *)
    destruct Hx as (new & En & Hn). exists (new ++ [b]). cbn in *.
    match goal with Hd : db_execute_block _ _ = _ |- _ => rewrite (exec_log_execute _ _ _ _ Hd) end.
    split; [by rewrite En, app_assoc|].
    exists new, b, (so_set_flag b enum_xvblock_flag_executed). rewrite lookup_insert_eq.
    split_and!; try done; [by eapply exec_chain_mono|by apply ready_cases|by apply set_flag_grows].
  - (* it refuses *)
    destruct Hx as (new & En & Hn). exists new. cbn in *.
    match goal with Hd : db_execute_block _ _ = _ |- _ => rewrite (exec_log_execute _ _ _ _ Hd) end.
    rewrite En, app_nil_r. split; [done|by eapply exec_chain_mono].
  - (* the execution is recorded *)
    destruct Hx as (new & En & l & b0 & b' & -> & Hch & Hf & Hc & Hn & E & Hb & _). cbn in *. simplify_eq.
    exists (l ++ [b0]). split; [done|]. cbn. rewrite (same_header_height _ _ (proj1 Hb)).
    destruct Hb as (_ & -> & _). by eapply ec_exec.
  - (* or withdrawn *)
    destruct Hx as (new & En & l & b0 & b' & -> & Hch & Hf & Hc & Hn & E & Hb & Hle'). cbn in *.
    exists (l ++ [b0]). split; [done|]. apply ec_lost; try done. unfold write_failed. cbn. lia.
  - destruct Hx as (new & En & Hch). cbn in *. exists new. split; [done|]. by eapply ec_known.
Qed.

Lemma steps_exec s0 x y :
  rtc (astep A) x y -> wf_acct x.1 -> (failed_writes (ac_db s0) <= failed_writes (ac_db x.1))%nat ->
  executed_since s0 x -> executed_since s0 y.
Proof.
  induction 1 as [x|x y z Hxy _ IH]; intros Hw Hle Hx; [done|].
  assert (Hfl := astep_failed _ _ _ Hxy). apply IH; [by eapply astep_ok|lia|by eapply astep_exec].
Qed.

(** C22. Whatever sequence of calls an account of the block store receives, and
    wherever it is when they have returned or stopped, the account has gone
    from state to state by guarded steps only: a block is written
    to the database only when locked or committed, becomes locked, committed,
    connected or executed only as the guards allow, and the meta record rises
    only over blocks the account holds.  A well-formed account stays so, and
    when the calls return no execution is left unrecorded. *)
Theorem store_refines_steps n ops s r s' :
  wf_acct s -> run_ops A n ops s = (r, s') ->
  wf_acct s' /\ exists pd, rtc (astep A) (s, None) (s', pd) /\ (is_Some r -> pd = None).
Proof.
  intros Hw E. destruct (run_ops_steps _ _ _ _ _ Hw E) as (pd & Hs & Hr).
  split; [by apply (rtc_ok _ _ _ Hs)|by exists pd].
Qed.

(** Along any sequence of calls none of the six heights of the meta record
    decreases, and every block object the account knew is still there with its
    header, its hash and its flags, "stored" and "executed" apart. *)
Theorem store_moves_forward n ops s r s' :
  wf_acct s -> run_ops A n ops s = (r, s') ->
  meta_le (ac_meta s) (ac_meta s') /\ heap_grows (ac_heap s) (ac_heap s').
Proof.
  intros Hw E. destruct (run_ops_steps _ _ _ _ _ Hw E) as (pd & Hs & _).
  split; [by apply (steps_meta _ _ Hs)|by apply (rtc_ok _ _ _ Hs)].
Qed.

(** C20. A block that is committed after any sequence of calls, returned or
    stopped, was committed before them, or its object was created during the
    calls from a block the database of that moment or the genesis factory
    supplied as committed, or it has a child in the account, one higher and
    naming its hash, that is locked or has a child itself: the store commits
    nothing without the chain above it. *)
Theorem commit_needs_chain n ops s r s' p b :
  wf_acct s -> run_ops A n ops s = (r, s') ->
  ac_heap s' !! p = Some b -> flagged b enum_xvblock_flag_committed -> commit_cause s s' p b.
Proof.
  intros Hw E Ep Hc. destruct (run_ops_steps _ _ _ _ _ Hw E) as (pd & Hs & _).
  destruct (steps_commit _ _ Hs Hw _ _ Ep Hc) as [Hl|[Hm|Hr]]; [by left|right; left; by exists pd|by right; right].
Qed.

End Exec.
End Props.

(** * The queries for the latest blocks

    [get_latest_blocks_list] finds the latest certified, locked and committed
    blocks in one pass "for better performance"; the reference are the three
    queries that pass over the cache one stage at a time. *)

Section Latest.
Context {DB : Type} `{XStoreObj} `{XStoreFace DB} `{XStoreEnv DB} (A : acctid).
Abbreviation St := (acct DB).

(** The flag of the block behind a pointer. *)
Definition flag_at (s : St) (f : Z) (p : ptr) : bool :=
  match ac_heap s !! p with Some b => so_check_flag b f | None => false end.
(** The pointers of a cache in the order of the search: from the highest
    height and view down. *)
Definition views_down (vs : list (Z * ptr)) : list ptr := map snd (rev vs).
Definition search_order (m : list (Z * list (Z * ptr))) : list ptr := flat_map (fun e => views_down e.2) (rev m).
Definition all_allocated (s : St) (l : list ptr) : Prop := Forall (fun p => is_Some (ac_heap s !! p)) l.

(** Of two searches the second counts when the first fails. *)
Definition or_find (o : option ptr) (g : ptr -> bool) (l : list ptr) : option ptr :=
  match o with Some _ => o | None => List.find g l end.

Lemma find_app (g : ptr -> bool) l l' : List.find g (l ++ l') = or_find (List.find g l) g l'.
Proof. induction l as [|p l IH]; cbn; [done|]. by destruct (g p). Qed.
Lemma or_find_app o g l l' : or_find (or_find o g l) g l' = or_find o g (l ++ l').
Proof. destruct o; cbn; [done|]. by rewrite find_app. Qed.

Lemma reads_check s f p : is_Some (ac_heap s !! p) -> reads (check_flag p f) (flag_at s f p) s.
Proof. intros [b E]. unfold reads, check_flag, bind, sderef, flag_at. by rewrite E. Qed.

Lemma find_map_snd g (l : list (Z * ptr)) :
  option_map snd (List.find (fun e => g e.2) l) = List.find g (map snd l).
Proof. induction l as [|e l IH]; cbn; [done|]. by destruct (g e.2). Qed.

Lemma reads_query_in s f vs : all_allocated s (views_down vs) ->
  reads (query_in vs f) (List.find (flag_at s f) (views_down vs)) s.
Proof.
  intros Hall. unfold reads, query_in, bind.
  rewrite (reads_find (fun e => check_flag e.2 f) (fun e => flag_at s f e.2)).
  - unfold views_down. by rewrite <- find_map_snd.
  - intros e He. apply reads_check. unfold all_allocated in Hall. rewrite Forall_forall in Hall. apply Hall.
    unfold views_down. apply list_elem_of_fmap. by exists e.
Qed.

Lemma reads_query_heights s f l : all_allocated s (flat_map (fun e => views_down e.2) l) ->
  reads (query_heights l f) (List.find (flag_at s f) (flat_map (fun e => views_down e.2) l)) s.
Proof.
  induction l as [|[h vs] l IH]; [by intros _|]. cbn [flat_map snd query_heights]. intros [Hv Hl]%Forall_app. unfold reads, bind.
  rewrite (reads_query_in s f vs Hv), find_app.
  destruct (List.find (flag_at s f) (views_down vs)); [done|]. by apply IH.
Qed.

(** The three searches, continued from [l]. *)
Definition found3 (s : St) (l : latest3) (ps : list ptr) : latest3 :=
  Latest3 (or_find (l_cert l) (flag_at s enum_xvblock_flag_authenticated) ps)
          (or_find (l_lock l) (flag_at s enum_xvblock_flag_locked) ps)
          (or_find (l_commit l) (flag_at s enum_xvblock_flag_committed) ps).

Lemma found3_nil s l : found3 s l [] = l.
Proof. by destruct l as [[] [] []]. Qed.
Lemma found3_app s l ps qs : found3 s (found3 s l ps) qs = found3 s l (ps ++ qs).
Proof. unfold found3. cbn. by rewrite !or_find_app. Qed.
Lemma found3_done s l ps : all_found l = true -> found3 s l ps = l.
Proof. by destruct l as [[] [] []]. Qed.
Lemma found3_one s l p b : ac_heap s !! p = Some b ->
  found3 s l [p] = Latest3 (take_if (l_cert l) p (so_check_flag b enum_xvblock_flag_authenticated))
                           (take_if (l_lock l) p (so_check_flag b enum_xvblock_flag_locked))
                           (take_if (l_commit l) p (so_check_flag b enum_xvblock_flag_committed)).
Proof. intros E. unfold found3, or_find, take_if. cbn. unfold flag_at. by rewrite E. Qed.

Lemma reads_latest_in_views s vs l : all_allocated s (map snd vs) ->
  reads (latest_in_views vs l) (found3 s l (map snd vs)) s.
Proof.
  revert l. induction vs as [|[v p] vs IH]; intros l Hall; [by rewrite found3_nil|].
  apply Forall_cons in Hall as [[b E] Hall]. cbn [map snd].
  change (p :: map snd vs) with ([p] ++ map snd vs). rewrite <- found3_app.
  unfold reads. cbn [latest_in_views]. unfold bind, sderef. cbn in E. rewrite E. cbv zeta.
  rewrite (found3_one _ _ _ _ E). set (l' := Latest3 _ _ _). destruct (all_found l') eqn:Ef.
  - by rewrite found3_done.
  - by apply IH.
Qed.

Lemma reads_latest_in_heights s hs l : all_allocated s (flat_map (fun e => views_down e.2) hs) ->
  reads (latest_in_heights hs l) (found3 s l (flat_map (fun e => views_down e.2) hs)) s.
Proof.
  revert l. induction hs as [|[h vs] hs IH]; intros l; [by rewrite found3_nil|].
  cbn [flat_map snd latest_in_heights]. intros [Hv Hl]%Forall_app. rewrite <- found3_app. unfold reads, bind.
  rewrite (reads_latest_in_views s (rev vs) l Hv). by apply IH.
Qed.

(** Every block the cache files is an object of the account. *)
Lemma cached_allocated (s : St) : wf_acct s -> all_allocated s (search_order (ac_blocks s)).
Proof.
  intros Hw. apply Forall_forall. intros p Hp. unfold search_order in Hp.
  apply list_elem_of_In, in_flat_map in Hp as ([k vs] & Hk & Hp).
  unfold views_down in Hp. apply in_map_iff in Hp as ([v q] & <- & Hq).
  rewrite <- in_rev in Hk, Hq. apply list_elem_of_In in Hk, Hq.
  destruct (wf_cached _ Hw _ _ _ _ Hk Hq) as (b & E & _). by exists b.
Qed.

(** The stages in order: committed blocks are locked, locked ones certified. *)
Definition staged (s : St) : Prop := forall p,
  (flag_at s enum_xvblock_flag_committed p = true -> flag_at s enum_xvblock_flag_locked p = true)
  /\ (flag_at s enum_xvblock_flag_locked p = true -> flag_at s enum_xvblock_flag_authenticated p = true).

Lemma find_mono (g g' : ptr -> bool) l p :
  (forall q, g q = true -> g' q = true) -> List.find g l = Some p -> exists p', List.find g' l = Some p'.
Proof.
  intros Hg. induction l as [|q l IH]; cbn; [done|]. destruct (g q) eqn:E.
  - intros _. rewrite (Hg _ E). eauto.
  - intros Hf. destruct (g' q); eauto.
Qed.

Lemma get_latest_found n (s : St) f p : wf_acct s ->
  List.find (flag_at s f) (search_order (ac_blocks s)) = Some p -> get_latest_block A n f s = (Some (Some p), s).
Proof.
  intros Hw E. unfold get_latest_block, query_latest_block, cache, bind, gets.
  rewrite (reads_query_heights s f (rev (ac_blocks s)) (cached_allocated _ Hw)).
  unfold search_order in E. by rewrite E.
Qed.

(** With a committed block in the cache, the one-pass query for the latest
    certified, locked and committed blocks returns exactly the blocks the
    three separate queries return, all four are defined, and none changes
    anything, whatever the fuel. *)
Theorem latest_blocks_list_agrees n (s : St) :
  wf_acct s -> staged s ->
  is_Some (List.find (flag_at s enum_xvblock_flag_committed) (search_order (ac_blocks s))) ->
  exists cert lock commit,
    get_latest_cert_block A n s = (Some (Some cert), s)
    /\ get_latest_locked_block A n s = (Some (Some lock), s)
    /\ get_latest_committed_block A n s = (Some (Some commit), s)
    /\ get_latest_blocks_list A n s = (Some (cert, lock, Some commit), s).
Proof.
  intros Hw Hst [commit Em].
  destruct (find_mono _ _ _ _ (fun q => proj1 (Hst q)) Em) as [lock El].
  destruct (find_mono _ _ _ _ (fun q => proj2 (Hst q)) El) as [cert Ec].
  exists cert, lock, commit. split_and!; try by apply get_latest_found.
  unfold get_latest_blocks_list, cache, bind, gets.
  rewrite (reads_latest_in_heights s (rev (ac_blocks s)) (Latest3 None None None) (cached_allocated _ Hw)).
  change (flat_map _ _) with (search_order (ac_blocks s)). unfold found3. cbn.
  by rewrite Em, El, Ec.
Qed.
End Latest.

(** * The meta record through the database

    [save_meta] writes the meta record of an account under its path, unless it
    has not changed since it was written last; [init] reads it back after a
    restart. *)

(** The record as a reader sees it. *)
Definition cut_meta (m : xacctmeta) : xacctmeta :=
  XAcctMeta (u64 (_highest_cert_block_height m)) (u64 (_highest_lock_block_height m))
    (u64 (_highest_commit_block_height m)) (u64 (_highest_execute_block_height m))
    (u64 (_highest_full_block_height m)) (u64 (_highest_connect_block_height m))
    (cut_str 1 (_highest_connect_block_hash m)) (cut_str 1 (_highest_execute_block_hash m)).

Lemma meta_read_write m : meta_do_read (meta_do_write m) = Some (cut_meta m, EmptyString).
Proof. read_message meta_do_read meta_do_write. Qed.

(** Heights of 64 bits and hashes of less than 256 bytes. *)
Definition meta_fits (m : xacctmeta) : Prop :=
  is_u64 (_highest_cert_block_height m) /\ is_u64 (_highest_lock_block_height m)
  /\ is_u64 (_highest_commit_block_height m) /\ is_u64 (_highest_execute_block_height m)
  /\ is_u64 (_highest_full_block_height m) /\ is_u64 (_highest_connect_block_height m)
  /\ fits 1 (_highest_connect_block_hash m) /\ fits 1 (_highest_execute_block_hash m).

Lemma cut_meta_fits m : meta_fits m -> cut_meta m = m.
Proof. unfold meta_fits, cut_meta. fit m. Qed.

(** The object framing around the record is undone by reading it, and a value
    the database accepted is found under its key. *)
Class XMetaLaws (DB : Type) `{XStoreFace DB} `{XStoreEnv DB} : Prop := {
  meta_unpack_pack : forall x, meta_unpack (meta_pack x) = Some x;
  meta_pack_nonempty : forall x, meta_pack x <> "";
  get_set_value : forall d k v d', set_value d k v = (true, d') -> get_value d' k = v;
}.

Section Restart.
Context {DB : Type} `{XStoreObj} `{XStoreFace DB} `{XStoreEnv DB} `{!XMetaLaws DB} (A : acctid).

Lemma meta_load_to_string m : meta_fits m -> meta_load (meta_to_string m) = Some m.
Proof.
  intros Hm. unfold meta_load, meta_to_string. rewrite bool_decide_eq_false_2 by apply meta_pack_nonempty.
  rewrite meta_unpack_pack, meta_read_write. cbn. by rewrite cut_meta_fits.
Qed.

(** The record written last is the one in the database. *)
Definition meta_saved (s : acct DB) : Prop :=
  ac_last_vmeta s = "" \/ get_value (ac_db s) (full_meta_path A) = ac_last_vmeta s.

(** C23. Saving the meta record of an account always returns and answers that
    it is saved.  When the record's fields fit their widths on the stream and
    what the account believes saved is in the database, then either the
    database holds, under the path [init] reads, bytes from which exactly this
    record is loaded again, or the database refused the write, and then the
    account believes the record saved and does not write it again. *)
Theorem meta_survives_restart (s : acct DB) :
  meta_fits (ac_meta s) -> meta_saved s ->
  exists s', save_meta A s = (Some true, s') /\ ac_meta s' = ac_meta s /\
    let w := set_value (ac_db s) (full_meta_path A) (meta_to_string (ac_meta s)) in
    if bool_decide (ac_last_vmeta s = meta_to_string (ac_meta s)) || w.1
    then meta_saved s' /\ meta_load (get_value (ac_db s') (full_meta_path A)) = Some (ac_meta s)
    else ac_db s' = w.2 /\ save_meta A s' = (Some true, s').
Proof.
  intros Hf Hs. unfold save_meta at 1. unfold meta, bind, gets. cbv zeta. case_bool_decide as Eb; cbn [orb].
  - exists s. split_and!; try done. destruct Hs as [E|E].
    + exfalso. rewrite E in Eb. symmetry in Eb. by apply meta_pack_nonempty in Eb.
    + rewrite E, Eb. by apply meta_load_to_string.
  - unfold store_value_by_path, on_db, modify.
    destruct (set_value _ _ _) as [r d] eqn:Ed. eexists. split; [done|]. cbn [fst snd]. split; [done|]. destruct r.
    + assert (Hg := get_set_value _ _ _ _ Ed). cbn. split; [by right|]. rewrite Hg. by apply meta_load_to_string.
    + split; [done|]. unfold save_meta, meta, bind, gets. cbn. by rewrite bool_decide_eq_true_2.
Qed.
End Restart.
