(* ===== verification/StoreWitness.v ===== *)
(** * A block store at work

    A database in memory and a chain of five certified blocks, stored one
    after the other: the hypotheses of the theorems on the block store hold
    there, and the operations return. *)

From stdpp Require Import prelude gmap strings.
From Stdlib Require Import ZArith Lia Sorted.
From S2P Require Import Prelude Stream StdMap VBlock Pdu Concrete StoreBlock StoreProg BlockStore StoreSteps StoreRefine StoreProps.

Module StoreDemo.

(** ** Objects *)

Definition upd_xblock (b : xvblock) (flags : Z) (prev : option ptr) (nnc : option xvqcert) : xvblock :=
  MkBlock (b_header b) (b_cert b) (b_cert_hash b) flags prev nnc
    (b_input b) (b_output b).
Definition upd_sblock (b : sblock) (x : xvblock) (next : option ptr) (count : Z) (closed : bool) : sblock :=
  SBlock x (sb_class b) (sb_last_full_height b) next count closed.
Definition upd_flags (b : sblock) (fl : Z) : sblock :=
  upd_sblock b (upd_xblock (sb_block b) fl (sb_prev b) (b_next_next_cert (sb_block b))) (sb_next b)
    (sb_modified b + 1) (sb_closed b).
Definition upd_prev (b : sblock) (o : option ptr) : sblock :=
  upd_sblock b (upd_xblock (sb_block b) (b_flags (sb_block b)) o (b_next_next_cert (sb_block b))) (sb_next b)
    (sb_modified b) (sb_closed b).
Definition matches (c b : sblock) : bool :=
  (sb_height c =? sb_height b + 1) && bool_decide (sb_last_hash c = sb_hash b).

#[export] Instance demo_obj : XStoreObj := {
  so_check_flag b f := has_flag (b_flags (sb_block b)) f;
  so_set_flag b f := upd_flags b (Z.lor (b_flags (sb_block b)) f);
  so_remove_flag b f := upd_flags b (Z.ldiff (b_flags (sb_block b)) f);
  so_reset_prev b o := match o with
    | None => (true, upd_prev b None)
    | Some (q, qb) => if matches b qb then (true, upd_prev b (Some q)) else (false, b)
    end;
  so_reset_next b n := if matches n.2 b
    then (true, upd_sblock b (sb_block b) (Some n.1) (sb_modified b) (sb_closed b)) else (false, b);
  so_set_next_next_cert b c :=
    upd_sblock b (upd_xblock (sb_block b) (b_flags (sb_block b)) (sb_prev b) (Some c)) (sb_next b)
      (sb_modified b) (sb_closed b);
  so_close b := upd_sblock b (upd_xblock (sb_block b) (b_flags (sb_block b)) None (b_next_next_cert (sb_block b)))
    None (sb_modified b) true;
  so_add_modified b := upd_sblock b (sb_block b) (sb_next b) (sb_modified b + 1) (sb_closed b);
  so_reset_modified b := upd_sblock b (sb_block b) (sb_next b) 0 (sb_closed b);
  so_input_ready _ _ := true;
  so_output_ready _ _ := true;
  so_deliver b _ := has_flag (b_flags (sb_block b)) enum_xvblock_flag_authenticated;
  so_units _ := None;
}.

#[export] Instance demo_obj_laws : XStoreObjLaws.
Proof.
  split; try done.
  - intros b [[q qb]|]; cbn; [by destruct (matches b qb)|done].
  - intros b [[q qb]|] r; cbn; [|done]. destruct (matches b qb) eqn:E; [|by left].
    intros [= <-]. right. exists qb. unfold matches in E. guards. done.
  - intros b q qb. cbn. by destruct (matches b qb).
  - intros b [q qb]. cbn. by destruct (matches qb b).
  - intros b [q qb]. cbn. by destruct (matches qb b).
Qed.

(** ** A database *)

Record memdb := MemDb {
  d_blocks : list (Z * sblock);
  d_values : list (string * string);
  d_log : list sblock;       (* the blocks executed *)
  d_failed : nat             (* the block writes refused *)
}.

(** A disk with room for the blocks below height 100. *)
Definition mem_write (d : memdb) (b : sblock) : bool * memdb :=
  if sb_height b <? 100
  then (true, MemDb (map_set (sb_height b) b (d_blocks d)) (d_values d) (d_log d) (d_failed d))
  else (false, MemDb (d_blocks d) (d_values d) (d_log d) (S (d_failed d))).

(** What is read back: no links, nothing changed. *)
Definition strip (b : sblock) : sblock :=
  upd_sblock b (upd_xblock (sb_block b) (b_flags (sb_block b)) None None) None 0 false.
Definition in_range (b : sblock) : bool := (0 <=? sb_height b) && (sb_height b <? 2 ^ 64 - 1).

#[export] Instance demo_face : XStoreFace memdb := {
  set_vblock d _ b := mem_write d b;
  set_vblock_header d _ b := mem_write d b;
  get_vblock d _ _ h := match map_find h (d_blocks d) with
    | Some b => if in_range b then Some (strip b) else None
    | None => None
    end;
  get_vblock_input _ _ b := (true, b);
  get_vblock_output _ _ b := (true, b);
  db_execute_block d b := (true, MemDb (d_blocks d) (d_values d) (d_log d ++ [b]) (d_failed d));
  clone_account _ _ := None;
  get_value d k := default "" (map_find k (d_values d));
  set_value d k v := (true, MemDb (d_blocks d) (map_set k v (d_values d)) (d_log d) (d_failed d));
}.

(** ** A chain of light blocks of account "T1" *)

Definition mk_sblock (height : Z) (hash last : string) (flags class : Z) : sblock :=
  SBlock (MkBlock (XVHeader level_unit 0 height "T1" last) (Demo.mk_cert (height + 10) hash last) hash flags
            None None (Some (XVInput "" "")) (Some (XVOutput ""))) class 0 None 0 false.
Definition genesis : sblock :=
  mk_sblock 0 "h0" "" 0x7100 enum_xvblock_class_full.

#[export] Instance demo_env : XStoreEnv memdb := {
  create_genesis_block _ := Some genesis;
  blockstore_store_block d _ := (true, d);
  block_to_string b := sb_hash b;
  create_block_object _ := None;
  set_input_res b _ := b;
  set_output_res b _ := b;
  meta_pack s := "m" +:+ s;
  meta_unpack s := match s with String _ r => Some r | EmptyString => None end;
}.

#[export] Instance demo_face_laws : XStoreFaceLaws memdb.
Proof.
  split; try done.
  - intros d path a h b. cbn. destruct (map_find h (d_blocks d)) as [c|]; [|done].
    destruct (in_range c) eqn:E; [|done]. intros [= <-]. unfold in_range in E. guards. split; [done|].
    change (sb_height (strip c)) with (sb_height c). lia.
  - by intros a b [= <-].
Qed.
#[export, program] Instance demo_writes : XWriteLog memdb := { failed_writes := d_failed }.
Next Obligation. intros d path b r d'. cbn. unfold mem_write. by case_match; intros [= <- <-]. Qed.
Next Obligation. intros d path b r d'. cbn. unfold mem_write. by case_match; intros [= <- <-]. Qed.
Next Obligation. done. Qed.
Next Obligation. done. Qed.
Next Obligation. done. Qed.
#[export, program] Instance demo_log : XExecLog memdb := { exec_log := d_log }.
Next Obligation. by intros d b r d' [= <- <-]. Qed.
Next Obligation. intros d path b. cbn. unfold mem_write. by case_match. Qed.
Next Obligation. intros d path b. cbn. unfold mem_write. by case_match. Qed.
Next Obligation. done. Qed.
Next Obligation. done. Qed.

Definition acct_T1 : acctid := AcctId "T1" 0 "/" true false.
Definition light (h : Z) (hash last : string) : sblock := mk_sblock h hash last 0x1000 enum_xvblock_class_light.
Definition chain_heap : gmap ptr sblock :=
  {[ 1%positive := light 1 "h1" "h0"; 2%positive := light 2 "h2" "h1"; 3%positive := light 3 "h3" "h2";
     4%positive := light 4 "h4" "h3"; 5%positive := light 5 "h5" "h4" ]}.
Definition empty_db : memdb := MemDb [] [] [] 0.
Definition start : acct memdb := Acct chain_heap 6%positive [] new_meta "" empty_db false [].
Definition calls : list store_op := [OpStore 1%positive; OpStore 2%positive; OpStore 3%positive; OpStore 4%positive; OpStore 5%positive; OpLatestList].
Definition final : acct memdb := (run_ops acct_T1 40 calls start).2.

Lemma calls_run : run_ops acct_T1 40 calls start = (Some tt, final).
Proof. by vm_compute. Qed.
Lemma no_write_failed : ~ write_failed start final.
Proof. unfold write_failed. vm_compute. lia. Qed.

(** A property of every block of a finite store. *)
Lemma heap_forall (h : gmap ptr sblock) (test : ptr -> sblock -> bool) :
  forallb (fun e => test e.1 e.2) (map_to_list h) = true -> forall p b, h !! p = Some b -> test p b = true.
Proof.
  rewrite forallb_forall. intros Ht p b E. apply (Ht (p, b)). by apply list_elem_of_In, elem_of_map_to_list.
Qed.

Lemma start_wf : wf_acct start.
Proof.
  assert (Ht := heap_forall (ac_heap start)
    (fun p b => bool_decide (p < 6)%positive && bool_decide (sb_prev b = None) && in_range b) eq_refl).
  split; try done.
  - intros p b E. apply Ht in E. guards. apply E.
  - intros p b q E Eq. apply Ht in E. guards. destruct E as [[_ E] _]. congruence.
  - intros k vs v p Hk. by apply elem_of_nil in Hk.
  - intros p b E. apply Ht in E. unfold in_range in E. guards. lia.
Qed.

(** ** Witnesses *)

Lemma store_refines_steps_witness :
  wf_acct final /\ rtc (astep acct_T1) (start, None) (final, None).
Proof.
  destruct (store_refines_steps acct_T1 40 calls start (Some tt) final start_wf calls_run) as [Hw (pd & Hs & Hp)].
  split; [exact Hw|]. rewrite (Hp (ex_intro _ tt eq_refl)) in Hs. exact Hs.
Defined.

Lemma store_moves_forward_witness :
  ac_meta start <> ac_meta final /\ meta_le (ac_meta start) (ac_meta final)
  /\ heap_grows (ac_heap start) (ac_heap final).
Proof. split; [by vm_compute|]. exact (store_moves_forward acct_T1 40 calls start (Some tt) final start_wf calls_run). Defined.

Definition third : sblock := default genesis (ac_heap final !! 3%positive).

Lemma commit_needs_chain_witness :
  (has_flag (b_flags (sb_block (light 3 "h3" "h2"))) enum_xvblock_flag_committed = false)
  /\ commit_cause acct_T1 start final 3%positive third.
Proof.
  split; [done|]. apply (commit_needs_chain acct_T1 40 calls start (Some tt) final 3%positive third start_wf calls_run);
    by vm_compute.
Defined.


Lemma final_wf : wf_acct final.
Proof.
  destruct (run_ops_steps acct_T1 40 calls start (Some tt) final start_wf calls_run) as (pd & Hs & _).
  exact (proj1 (rtc_ok _ _ _ Hs start_wf)).
Qed.
Definition stages_ordered (b : sblock) : bool :=
  (negb (so_check_flag b enum_xvblock_flag_committed) || so_check_flag b enum_xvblock_flag_locked)
  && (negb (so_check_flag b enum_xvblock_flag_locked) || so_check_flag b enum_xvblock_flag_authenticated).
Lemma staged_by_check (s : acct memdb) :
  forallb (fun e => stages_ordered e.2) (map_to_list (ac_heap s)) = true -> staged s.
Proof.
  intros Ht p. unfold flag_at. destruct (ac_heap s !! p) as [b|] eqn:E; [|done].
  apply (heap_forall _ (fun _ => stages_ordered) Ht) in E. unfold stages_ordered in E.
  destruct (so_check_flag b enum_xvblock_flag_committed), (so_check_flag b enum_xvblock_flag_locked); done.
Qed.
Lemma final_staged : staged final.
Proof. apply staged_by_check. by vm_compute. Qed.

Lemma latest_blocks_list_agrees_witness : exists cert lock commit,
  get_latest_cert_block acct_T1 0 final = (Some (Some cert), final)
  /\ get_latest_locked_block acct_T1 0 final = (Some (Some lock), final)
  /\ get_latest_committed_block acct_T1 0 final = (Some (Some commit), final)
  /\ get_latest_blocks_list acct_T1 0 final = (Some (cert, lock, Some commit), final).
Proof.
  refine (latest_blocks_list_agrees acct_T1 0 final final_wf final_staged _).
  exists 3%positive. by vm_compute.
Defined.

#[export] Instance demo_meta_laws : XMetaLaws memdb.
Proof.
  split; [done|done|]. intros d k v d' [= <-]. cbn. by rewrite map_find_set_eq.
Qed.

Lemma meta_survives_restart_witness :
  ac_last_vmeta final <> meta_to_string (ac_meta final) /\
  exists s', save_meta acct_T1 final = (Some true, s') /\ ac_meta s' = ac_meta final /\ meta_saved acct_T1 s'
    /\ meta_load (get_value (ac_db s') (full_meta_path acct_T1)) = Some (ac_meta final).
Proof.
  split; [by vm_compute|].
  destruct (meta_survives_restart acct_T1 final) as (s' & E & Em & Hd).
  - by vm_compute.
  - left. by vm_compute.
  - exists s'. split; [exact E|]. split; [exact Em|]. cbv zeta in Hd.
    change (set_value _ _ _).1 with true in Hd. rewrite orb_true_r in Hd. exact Hd.
Defined.
End StoreDemo.
