(* ===== verification/AccountAddr.v ===== *)
(** * Account addresses and their tables: [xbase/xvledger.h]

    An address is [T], the type, four hex digits of the ledger, a public key and
    for a system account [@] and the number of its table.  The string
    conversions and the hash come from the [xbase] library, whose bodies are not
    in the repository: they are the class [XStringUtl], and what the addressing
    relies on of them is [XStringLaws]. *)

From stdpp Require Import prelude strings.
From Stdlib Require Import ZArith Lia Ascii String.
From S2P Require Import Prelude.
Open Scope Z_scope.

Definition enum_vaccount_address_min_size : Z := 18.
Definition enum_vaccount_address_max_size : Z := 256.
Definition enum_vbucket_has_books_count : Z := 32.
Definition enum_vbucket_has_books_count_mask : Z := enum_vbucket_has_books_count - 1.
Definition enum_vbook_has_tables_count : Z := 8.
Definition enum_vbucket_has_tables_count : Z := enum_vbucket_has_books_count * enum_vbook_has_tables_count.
Definition enum_vbucket_has_tables_count_mask : Z := enum_vbucket_has_tables_count - 1.
Definition enum_xid_type_xledger : Z := 4.

Class XStringUtl := {
  xhash64_digest : string -> Z;
  xtostring : Z -> string;             (* xstring_utl::tostring *)
  toint32 : string -> Z;
  uint642hex : Z -> string;
  hex2uint64 : string -> Z
}.

Definition at_char : ascii := "@"%char.
Definition str_size (s : string) : Z := Z.of_nat (String.length s).
Definition has_char (c : ascii) (s : string) : bool := bool_decide (c ∈ String.list_ascii_of_string s).

(** Zeros on the left up to four characters. *)
Definition pad4 (s : string) : string :=
  if str_size s <? 4 then (String.string_of_list_ascii (replicate (4 - String.length s) "0"%char) ++ s)%string else s.

Class XStringLaws `{XStringUtl} := {
  toint32_tostring : forall n, 0 <= n < 2 ^ 16 -> toint32 (xtostring n) = n;
  tostring_digits : forall n, 0 <= n < 2 ^ 16 -> has_char at_char (xtostring n) = false;
  uint642hex_digits : forall n, 0 <= n < 2 ^ 16 -> has_char at_char (uint642hex n) = false;
  uint642hex_size : forall n, 0 <= n < 2 ^ 16 -> str_size (uint642hex n) <= 4;
  hex_padded : forall n, 0 <= n < 2 ^ 16 -> hex2uint64 (pad4 (uint642hex n)) = n
}.

(** ** Ledger and table numbers *)

Definition make_ledger_id (chain_id zone_index : Z) : Z := Z.lor (u16 (Z.shiftl chain_id 4)) (Z.land zone_index 0xF).
Definition get_chainid_from_ledgerid (ledger_id : Z) : Z := Z.shiftr ledger_id 4.
Definition get_zoneindex_from_ledgerid (ledger_id : Z) : Z := Z.land ledger_id 0xF.
Definition make_subaddr_of_ledger (book_index table_index : Z) : Z :=
  Z.lor (Z.shiftl (Z.land book_index enum_vbucket_has_books_count_mask) 3) (Z.land table_index 0x07).
Definition get_book_index_from_subaddr (subaddr_of_zone : Z) : Z :=
  Z.land (Z.shiftr subaddr_of_zone 3) enum_vbucket_has_books_count_mask.
Definition get_table_index_from_subaddr (subaddr_of_zone : Z) : Z := Z.land subaddr_of_zone 0x07.

Definition get_vledger_ledger_id (xid : Z) : Z := Z.land (Z.shiftr xid 16) 0xFFFF.
Definition get_vledger_zone_index (xid : Z) : Z := Z.land (Z.shiftr xid 16) 0x0F.
Definition get_vledger_subaddr (xid : Z) : Z := Z.land (Z.shiftr xid 6) enum_vbucket_has_tables_count_mask.

Section Address.
Context `{XStringUtl}.

(** ** Making an address *)

(** With the number of the table, or a regular account when it is out of range; empty for no type. *)
Definition make_account_address (addr_type ledger_id : Z) (public_key_address : string) (subaddr_of_ledger : Z) : string :=
  if addr_type <=? 0 then EmptyString
  else
    let prefix_string :=
      (String (ascii_of_nat (Z.to_nat addr_type)) EmptyString ++ pad4 (uint642hex ledger_id))%string in
    if enum_vbucket_has_tables_count <=? subaddr_of_ledger
    then (String "T" EmptyString ++ prefix_string ++ public_key_address)%string
    else (String "T" EmptyString ++ prefix_string ++ public_key_address
          ++ String at_char EmptyString ++ xtostring subaddr_of_ledger)%string.

Definition make_account_address_book (addr_type ledger_id book_index table_index : Z) (public_key_address : string) : string :=
  make_account_address addr_type ledger_id public_key_address (make_subaddr_of_ledger book_index table_index).

Definition make_account_address_zone (addr_type chain_id zone_index book_index table_index : Z)
    (public_key_address : string) : string :=
  make_account_address_book addr_type (make_ledger_id chain_id zone_index) book_index table_index public_key_address.

(** ** Reading an address *)

(** A character as a signed [char]. *)
Definition char_value (c : ascii) : Z :=
  let n := Z.of_nat (nat_of_ascii c) in if n <? 128 then n else n - 256.

(** 0 for an address too short. *)
Definition get_addrtype_from_account (account_addr : string) : Z :=
  if enum_vaccount_address_min_size <? str_size account_addr
  then match String.get 1 account_addr with Some c => char_value c | None => 0 end else 0.

Definition valid_address_size (account_addr : string) : bool :=
  (enum_vaccount_address_min_size <? str_size account_addr) && (str_size account_addr <? enum_vaccount_address_max_size).

Definition get_ledgerid_from_account (account_addr : string) : Z :=
  if valid_address_size account_addr then u16 (hex2uint64 (String.substring 2 4 account_addr)) else 0.

Definition get_index_from_account (account_addr : string) : Z := u32 (xhash64_digest account_addr).

(** What follows the last [@], [substr(find_last_of('@') + 1)]. *)
Fixpoint after_last_at (s : string) : option string :=
  match s with
  | EmptyString => None
  | String c s' =>
      match after_last_at s' with
      | Some r => Some r
      | None => if Ascii.eqb c at_char then Some s' else None
      end
  end.

(** [get_ledger_fulladdr_from_account]: the ledger, the table and the index. *)
Definition get_ledger_fulladdr_from_account (account_addr : string) : option (Z * Z * Z) :=
  let account_index := get_index_from_account account_addr in
  if valid_address_size account_addr then
    let ledger_id := get_ledgerid_from_account account_addr in
    let ledger_sub_addr :=
      match after_last_at account_addr with
      | Some _string_subaddr => u16 (toint32 _string_subaddr)
      | None => u16 account_index
      end in
    Some (ledger_id, Z.land ledger_sub_addr enum_vbucket_has_tables_count_mask, account_index)
  else None.

Definition get_ledgersubaddr_from_account (account_addr : string) : Z :=
  match get_ledger_fulladdr_from_account account_addr with Some (_, s, _) => s | None => 0 end.

(** The 64-bit id: index, ledger, table and type; 0 for an invalid address. *)
Definition get_xid_from_account (account_addr : string) : Z :=
  match get_ledger_fulladdr_from_account account_addr with
  | Some (ledger_id, ledger_subaddr, account_index) =>
      let _xid_from_addr :=
        Z.lor (Z.lor (u32 (Z.shiftl ledger_id 16))
                     (Z.shiftl (Z.land ledger_subaddr enum_vbucket_has_tables_count_mask) 6)) enum_xid_type_xledger in
      Z.lor _xid_from_addr (u64 (Z.shiftl account_index 32))
  | None => 0
  end.
End Address.

(** ** Bits *)

Lemma testbit_high x n i : 0 <= x < 2 ^ n -> n <= i -> Z.testbit x i = false.
Proof.
  intros Hx Hi. assert (0 <= n) by (destruct (Z.lt_ge_cases n 0); [rewrite Z.pow_neg_r in Hx by done; lia|done]).
  rewrite <- (Z.mod_small x (2 ^ n)) by done. apply Z.mod_pow2_bits_high. lia.
Qed.

Lemma land_mask_bits x n i : 0 <= n -> 0 <= i -> Z.testbit (Z.land x (Z.ones n)) i = Z.testbit x i && (i <? n).
Proof.
  intros Hn Hi. rewrite Z.land_spec. f_equal. destruct (Z.ltb_spec i n).
  - by apply Z.ones_spec_low.
  - by apply Z.ones_spec_high.
Qed.

Lemma land_ones_small x n : 0 <= n -> 0 <= x < 2 ^ n -> Z.land x (Z.ones n) = x.
Proof. intros Hn Hx. rewrite Z.land_ones by done. by apply Z.mod_small. Qed.

(** The fields of an id, as [get_xid_from_account] puts them together. *)
Definition xid_of (l s i : Z) : Z :=
  Z.lor (Z.lor (Z.lor (u32 (Z.shiftl l 16)) (Z.shiftl (Z.land s enum_vbucket_has_tables_count_mask) 6)) enum_xid_type_xledger)
        (u64 (Z.shiftl i 32)).

Lemma xid_of_bits l s i k :
  0 <= l < 2 ^ 16 -> 0 <= s < 2 ^ 8 -> 0 <= i -> 6 <= k < 32 ->
  Z.testbit (xid_of l s i) k = Z.testbit l (k - 16) || Z.testbit s (k - 6).
Proof.
  intros Hl Hs Hi Hk. unfold xid_of, u32, u64. change enum_vbucket_has_tables_count_mask with (Z.ones 8).
  rewrite land_ones_small by lia.
  rewrite !Z.lor_spec, !Z.mod_pow2_bits_low, !Z.shiftl_spec by lia.
  rewrite (Z.testbit_neg_r i) by lia. unfold enum_xid_type_xledger. rewrite (testbit_high 4 3) by lia.
  by rewrite !orb_false_r.
Qed.

Lemma xid_ledger l s i : 0 <= l < 2 ^ 16 -> 0 <= s < 2 ^ 8 -> 0 <= i -> get_vledger_ledger_id (xid_of l s i) = l.
Proof.
  intros Hl Hs Hi. apply Z.bits_inj'. intros k Hk. unfold get_vledger_ledger_id. change 0xFFFF with (Z.ones 16).
  rewrite land_mask_bits, Z.shiftr_spec by lia. destruct (Z.ltb_spec k 16) as [Hlt|Hge].
  - rewrite xid_of_bits by lia. rewrite (testbit_high s 8) by lia. rewrite orb_false_r, andb_true_r. f_equal. lia.
  - rewrite andb_false_r. symmetry. by apply (testbit_high l 16).
Qed.

Lemma xid_zone l s i : 0 <= l < 2 ^ 16 -> 0 <= s < 2 ^ 8 -> 0 <= i ->
  get_vledger_zone_index (xid_of l s i) = get_zoneindex_from_ledgerid l.
Proof.
  intros Hl Hs Hi. rewrite <- (xid_ledger l s i) at 2 by done. unfold get_vledger_zone_index, get_zoneindex_from_ledgerid, get_vledger_ledger_id.
  by rewrite <- Z.land_assoc.
Qed.

Lemma xid_subaddr l s i : 0 <= l < 2 ^ 16 -> 0 <= s < 2 ^ 8 -> 0 <= i -> get_vledger_subaddr (xid_of l s i) = s.
Proof.
  intros Hl Hs Hi. apply Z.bits_inj'. intros k Hk. unfold get_vledger_subaddr. change enum_vbucket_has_tables_count_mask with (Z.ones 8).
  rewrite land_mask_bits, Z.shiftr_spec by lia. destruct (Z.ltb_spec k 8) as [Hlt|Hge].
  - rewrite xid_of_bits by lia. rewrite (Z.testbit_neg_r l) by lia. rewrite orb_false_l, andb_true_r. f_equal. lia.
  - rewrite andb_false_r. symmetry. by apply (testbit_high s 8).
Qed.

(** Whatever the id, the table number is below the number of tables. *)
Lemma subaddr_range xid : 0 <= get_vledger_subaddr xid < enum_vbucket_has_tables_count.
Proof.
  unfold get_vledger_subaddr. change enum_vbucket_has_tables_count_mask with (Z.ones 8). rewrite Z.land_ones by done.
  by apply Z.mod_pos_bound.
Qed.
Lemma zone_range xid : 0 <= get_vledger_zone_index xid < 16.
Proof. unfold get_vledger_zone_index. change 0x0F with (Z.ones 4). rewrite Z.land_ones by done. by apply Z.mod_pos_bound. Qed.

(** Fields side by side add up. *)
Lemma lor_fields a b n : 0 <= n -> 0 <= b < 2 ^ n -> Z.lor (Z.shiftl a n) b = a * 2 ^ n + b.
Proof.
  intros Hn Hb. rewrite Z.shiftl_mul_pow2 by done.
  assert (Z.land (a * 2 ^ n) b = 0) as E.
  { apply Z.bits_inj'. intros k Hk. rewrite Z.land_spec, Z.bits_0. destruct (Z.lt_ge_cases k n).
    - by rewrite Z.mul_pow2_bits_low.
    - rewrite (testbit_high b n) by done. apply andb_false_r. }
  by rewrite <- Z.lxor_lor, <- Z.add_nocarry_lxor.
Qed.

Lemma make_ledger_id_fields c z :
  0 <= c < 2 ^ 12 -> 0 <= z < 16 ->
  0 <= make_ledger_id c z < 2 ^ 16 /\ get_zoneindex_from_ledgerid (make_ledger_id c z) = z /\
  get_chainid_from_ledgerid (make_ledger_id c z) = c.
Proof.
  intros Hc Hz. assert (make_ledger_id c z = c * 16 + z) as ->.
  { unfold make_ledger_id, u16. change 0xF with (Z.ones 4). rewrite land_ones_small by lia.
    rewrite Z.mod_small by (rewrite Z.shiftl_mul_pow2; lia). by rewrite lor_fields. }
  unfold get_zoneindex_from_ledgerid, get_chainid_from_ledgerid. change 0xF with (Z.ones 4).
  rewrite Z.land_ones, Z.shiftr_div_pow2 by lia. split; [lia|]. split.
  - rewrite Z.add_comm, Z_mod_plus by lia. apply Z.mod_small. lia.
  - rewrite Z.div_add_l by lia. rewrite Z.div_small by lia. lia.
Qed.

Lemma make_subaddr_fields b t :
  0 <= b < 32 -> 0 <= t < 8 ->
  0 <= make_subaddr_of_ledger b t < enum_vbucket_has_tables_count /\
  get_book_index_from_subaddr (make_subaddr_of_ledger b t) = b /\ get_table_index_from_subaddr (make_subaddr_of_ledger b t) = t.
Proof.
  intros Hb Ht. assert (make_subaddr_of_ledger b t = b * 8 + t) as ->.
  { unfold make_subaddr_of_ledger. change enum_vbucket_has_books_count_mask with (Z.ones 5). change 0x07 with (Z.ones 3).
    rewrite !land_ones_small by lia. by rewrite lor_fields. }
  unfold get_book_index_from_subaddr, get_table_index_from_subaddr, enum_vbucket_has_tables_count, enum_vbucket_has_books_count, enum_vbook_has_tables_count.
  change enum_vbucket_has_books_count_mask with (Z.ones 5). change 0x07 with (Z.ones 3).
  rewrite !Z.land_ones, Z.shiftr_div_pow2 by lia. split; [lia|]. split.
  - rewrite Z.div_add_l by lia. rewrite Z.div_small by lia. rewrite Z.add_0_r. apply Z.mod_small. lia.
  - rewrite Z.add_comm, Z_mod_plus by lia. apply Z.mod_small. lia.
Qed.

(** ** Round trip *)

Section RoundTrip.
Context `{XStringLaws}.

Lemma string_length_app a b : String.length (a ++ b)%string = (String.length a + String.length b)%nat.
Proof. induction a as [|c a IH]; [done|]. exact (f_equal S IH). Qed.

Lemma pad4_size n : 0 <= n < 2 ^ 16 -> String.length (pad4 (uint642hex n)) = 4%nat.
Proof.
  intros Hn. pose proof (uint642hex_size n Hn) as Hs. unfold pad4, str_size in *.
  destruct (Z.ltb_spec (Z.of_nat (String.length (uint642hex n))) 4) as [Hlt|Hge]; [|lia].
  rewrite string_length_app. assert (forall l, String.length (String.string_of_list_ascii l) = Datatypes.length l) as ->
    by (induction l; cbn; congruence). rewrite length_replicate. lia.
Qed.

Lemma pad4_digits n : 0 <= n < 2 ^ 16 -> has_char at_char (pad4 (uint642hex n)) = false.
Proof.
  intros Hn. pose proof (uint642hex_digits n Hn) as Hd. unfold pad4. destruct (_ <? 4); [|done].
  generalize (4 - String.length (uint642hex n))%nat as k. intros k. induction k as [|k IH]; [exact Hd|].
  unfold has_char in *. rewrite bool_decide_eq_false in *. intros Hin. apply IH. cbn in Hin.
  change (at_char ∈ "0"%char :: String.list_ascii_of_string (String.string_of_list_ascii (replicate k "0"%char) ++ uint642hex n)) in Hin.
  by apply elem_of_cons in Hin as [?|?].
Qed.

Lemma substring_prefix a b : String.substring 0 (String.length a) (a ++ b) = a.
Proof. induction a as [|c a IH]; [by destruct b|]. exact (f_equal (String c) IH). Qed.

Lemma after_last_none s : has_char at_char s = false -> after_last_at s = None.
Proof.
  unfold has_char. rewrite bool_decide_eq_false. induction s as [|c s IH]; cbn; [done|]. rewrite not_elem_of_cons. intros [Hc Hs].
  rewrite (IH Hs). destruct (Ascii.eqb_spec c at_char); [by subst c|done].
Qed.
Lemma after_last_app a x r : after_last_at x = Some r -> after_last_at (a ++ x) = Some r.
Proof.
  intros Hx. induction a as [|c a IH]; [done|].
  change (match after_last_at (a ++ x) with Some r => Some r
          | None => if Ascii.eqb c at_char then Some (a ++ x)%string else None end = Some r). by rewrite IH.
Qed.
Lemma after_last_at_app a x : has_char at_char a = false -> after_last_at x = None -> after_last_at (a ++ x) = None.
Proof.
  unfold has_char. rewrite bool_decide_eq_false. intros Ha Hx. induction a as [|c a IH]; [done|].
  cbn in Ha. rewrite not_elem_of_cons in Ha. destruct Ha as [Hc Ha].
  change (match after_last_at (a ++ x) with Some r => Some r
          | None => if Ascii.eqb c at_char then Some (a ++ x)%string else None end = None). rewrite (IH Ha).
  destruct (Ascii.eqb_spec c at_char); [by subst c|done].
Qed.

(** The type and the ledger, whatever follows. *)
Lemma address_prefix ty l rest a :
  0 < ty < 128 -> 0 <= l < 2 ^ 16 ->
  a = (String "T" (String (ascii_of_nat (Z.to_nat ty)) (pad4 (uint642hex l) ++ rest)))%string -> valid_address_size a = true ->
  get_addrtype_from_account a = ty /\ get_ledgerid_from_account a = l.
Proof.
  intros Hty Hl -> Hv. unfold get_addrtype_from_account, get_ledgerid_from_account. rewrite Hv.
  apply andb_true_iff in Hv as [-> _]. cbn [String.get]. unfold char_value.
  rewrite nat_ascii_embedding, Z2Nat.id by lia. rewrite (proj2 (Z.ltb_lt ty 128)) by lia. split; [done|].
  cbn [String.substring]. rewrite <- (pad4_size l Hl), substring_prefix, hex_padded by done. unfold u16. by rewrite Z.mod_small.
Qed.

(** C33. An address made for a chain, zone, book and table of a system account is
    read back to them: its type, its ledger, and the zone and table that the id
    of the account carries; an address without a table, of a public key without
    [@], lies in the zone of its ledger and in the table its hash gives. *)
Theorem account_address_round_trip ty chain_id zone book table_ pk :
  0 < ty < 128 -> 0 <= chain_id < 2 ^ 12 -> 0 <= zone < 16 -> 0 <= book < 32 -> 0 <= table_ < 8 ->
  (let a := make_account_address_zone ty chain_id zone book table_ pk in
   valid_address_size a = true ->
   get_addrtype_from_account a = ty /\ get_ledgerid_from_account a = make_ledger_id chain_id zone /\
   get_vledger_zone_index (get_xid_from_account a) = zone /\
   get_chainid_from_ledgerid (get_vledger_ledger_id (get_xid_from_account a)) = chain_id /\
   get_book_index_from_subaddr (get_vledger_subaddr (get_xid_from_account a)) = book /\
   get_table_index_from_subaddr (get_vledger_subaddr (get_xid_from_account a)) = table_) /\
  (let a := make_account_address ty (make_ledger_id chain_id zone) pk 65535 in
   valid_address_size a = true -> has_char at_char pk = false -> ty <> 64 ->
   get_addrtype_from_account a = ty /\
   get_vledger_zone_index (get_xid_from_account a) = zone /\
   get_vledger_subaddr (get_xid_from_account a) = xhash64_digest a mod enum_vbucket_has_tables_count).
Proof.
  intros Hty Hc Hz Hb Ht. destruct (make_ledger_id_fields chain_id zone Hc Hz) as (Hl & Hlz & Hlc).
  destruct (make_subaddr_fields book table_ Hb Ht) as (Hs & Hsb & Hst).
  change enum_vbucket_has_tables_count with 256 in *.
  set (l := make_ledger_id chain_id zone) in *. set (s := make_subaddr_of_ledger book table_) in *.
  unfold make_account_address_zone, make_account_address_book, make_account_address. fold l s.
  change enum_vbucket_has_tables_count with 256. rewrite (proj2 (Z.leb_gt ty 0)) by lia.
  rewrite (proj2 (Z.leb_gt _ s)) by lia. cbv zeta. split.
  - intros Hv. match type of Hv with valid_address_size ?x = true => set (a := x) in * end.
    destruct (address_prefix ty l (pk ++ String at_char (xtostring s)) a Hty Hl eq_refl Hv) as [E1 E2].
    assert (get_xid_from_account a = xid_of l s (get_index_from_account a)) as ->.
    { unfold get_xid_from_account, get_ledger_fulladdr_from_account. rewrite Hv, E2. 
      assert (after_last_at a = Some (xtostring s)) as ->.
      { unfold a. do 3 apply after_last_app.
        change (after_last_at (String at_char (xtostring s)) = Some (xtostring s)). cbn.
        by rewrite after_last_none by (apply tostring_digits; lia). }
      rewrite toint32_tostring by lia.
      unfold u16. rewrite Z.mod_small by lia. change enum_vbucket_has_tables_count_mask with (Z.ones 8).
      by rewrite (land_ones_small s) by lia. }
    assert (0 <= get_index_from_account a) as Hi by (unfold get_index_from_account, u32; by apply Z.mod_pos_bound).
    rewrite xid_zone, xid_ledger, xid_subaddr by done. by rewrite Hlz, Hlc.
  - intros Hv Hpk H64. pose proof (pad4_digits l Hl) as Hhex. rewrite (proj2 (Z.leb_le _ 65535)) in * by done.
    match type of Hv with valid_address_size ?x = true => set (a := x) in * end.
    destruct (address_prefix ty l pk a Hty Hl eq_refl Hv) as [E1 E2]. split; [done|].
    assert (0 <= get_index_from_account a) as Hi by (unfold get_index_from_account, u32; by apply Z.mod_pos_bound).
    set (hs := Z.land (u16 (get_index_from_account a)) enum_vbucket_has_tables_count_mask).
    assert (hs = xhash64_digest a mod 2 ^ 8) as Ehs.
    { unfold hs, get_index_from_account, u16, u32. change enum_vbucket_has_tables_count_mask with (Z.ones 8).
      rewrite Z.land_ones by lia. rewrite !Z.mod_mod_divide; [done|..]; first [by exists (2 ^ 24)|by exists (2 ^ 16)|by exists (2 ^ 8)]. }
    assert (get_xid_from_account a = xid_of l hs (get_index_from_account a)) as ->.
    { unfold get_xid_from_account, get_ledger_fulladdr_from_account. rewrite Hv, E2.
      assert (after_last_at a = None) as ->; [|done].
      unfold a. apply after_last_at_app; [done|]. apply after_last_at_app; [|by apply after_last_none].
      unfold has_char in *. rewrite bool_decide_eq_false in *.
      change (at_char ∉ ascii_of_nat (Z.to_nat ty) :: String.list_ascii_of_string (pad4 (uint642hex l))).
      rewrite not_elem_of_cons. split; [|done].
      intros E. apply (f_equal nat_of_ascii) in E. rewrite nat_ascii_embedding in E by lia. change (nat_of_ascii at_char) with 64%nat in E. lia. }
    rewrite Ehs. assert (0 <= xhash64_digest a mod 2 ^ 8 < 2 ^ 8) by by apply Z.mod_pos_bound.
    by rewrite xid_zone, xid_subaddr by done.
Qed.
End RoundTrip.
