(* ===== verification/TxData.v ===== *)
(** * Transactions as the transaction pool sees them

    [xdata/xtransaction.h] and [xdata/xcons_transaction.h]: the header fields
    the pool reads, the kinds of a transaction and its place in the sender's
    chain of transactions, the error codes of [xtxpool/xtxpool_error.h] and the
    expiry tests of [xverifier/src/xtx_verifier.cpp].  The 64-bit digest
    [XXH64] of an external library and the values of the configuration are the
    class [TxEnv]. *)

From stdpp Require Import prelude strings.
From Stdlib Require Import ZArith Lia.
From S2P Require Import Prelude.

Class TxEnv := {
  xxh64_digest : string -> Z;                    (* utl::xxh64_t::digest *)
  account_send_queue_tx_max_num : Z;             (* XGET_CONFIG, uint32_t *)
  unitblock_confirm_tx_batch_num : Z;
  unitblock_recv_transfer_tx_batch_num : Z;
  unitblock_send_transfer_tx_batch_num : Z;
  tableblock_batch_tx_max_num : Z;               (* int32_t *)
  tableblock_batch_unitblock_max_num : Z;
  tx_send_timestamp_tolerance : Z;               (* XGET_ONCHAIN_GOVERNANCE_PARAMETER *)
}.

(** [enum_transaction_subtype], kept as the byte [m_tx_subtype]. *)
Definition enum_transaction_subtype_self : Z := 1.
Definition enum_transaction_subtype_send : Z := 2.
Definition enum_transaction_subtype_recv : Z := 3.
Definition enum_transaction_subtype_confirm : Z := 4.
Definition xtransaction_type_transfer : Z := 4.

(** A consensus transaction and the transaction it holds ([xcons_transaction_t], [xtransaction_t]). *)
Record xtransaction := XTransaction {
  get_tx_type : Z;
  get_expire_duration : Z;       (* uint16_t seconds *)
  get_fire_timestamp : Z;        (* uint64_t *)
  get_last_nonce : Z;            (* uint64_t *)
  get_last_hash : Z;             (* uint64_t: XXH64 of the digest of the sender's last transaction *)
  digest : string;               (* uint256_t m_transaction_hash *)
  get_source_addr : string;
  get_target_addr : string;
  get_tx_subtype : Z;            (* uint8_t *)
  get_push_pool_timestamp : Z;   (* local member *)
  get_clock : Z                  (* of a receipt: m_receipt->get_unit_cert()->get_clock() *)
}.
#[export] Instance xtransaction_eq_dec : EqDecision xtransaction.
Proof. solve_decision. Defined.

Definition get_tx_nonce (tx : xtransaction) : Z := u64 (get_last_nonce tx + 1).
Definition is_self_tx (tx : xtransaction) : bool := get_tx_subtype tx =? enum_transaction_subtype_self.
Definition is_send_tx (tx : xtransaction) : bool := get_tx_subtype tx =? enum_transaction_subtype_send.
Definition is_recv_tx (tx : xtransaction) : bool := get_tx_subtype tx =? enum_transaction_subtype_recv.
Definition is_confirm_tx (tx : xtransaction) : bool := get_tx_subtype tx =? enum_transaction_subtype_confirm.

(** A transaction that starts at its account: [is_send_tx() || is_self_tx()]. *)
Definition is_origin_tx (tx : xtransaction) : bool := is_send_tx tx || is_self_tx tx.

Definition set_push_pool_timestamp (t : Z) (tx : xtransaction) : xtransaction :=
  XTransaction (get_tx_type tx) (get_expire_duration tx) (get_fire_timestamp tx) (get_last_nonce tx)
    (get_last_hash tx) (digest tx) (get_source_addr tx) (get_target_addr tx) (get_tx_subtype tx) t (get_clock tx).

(** [check_last_trans_hash]. *)
Definition check_last_trans_hash `{TxEnv} (tx : xtransaction) (account_last_hash : string) : bool :=
  get_last_hash tx =? xxh64_digest account_last_hash.

(** [xtxpool_table_t::nonce_continous]: the next nonce and hash when the
    transaction follows the given ones. *)
Definition nonce_continous `{TxEnv} (last_nonce : Z) (last_hash : string) (tx : xtransaction) : option (Z * string) :=
  if (last_nonce =? get_last_nonce tx) && check_last_trans_hash tx last_hash
  then Some (get_tx_nonce tx, digest tx) else None.

(** [uint256_t] default-constructed: 32 zero bytes. *)
Definition uint256_zero : string := String.string_of_list_ascii (replicate 32 Ascii.zero).

(** ** Error codes *)

Inductive xtxpool_error :=
| xsuccess
| xtxpool_error_tx_nonce_too_old
| xtxpool_error_tx_nonce_repeat
| xtxpool_error_tx_nonce_incontinuity
| xtxpool_error_send_tx_queue_over_upper_limit
| xtxpool_error_request_tx_repeat
| xtxpool_error_tx_last_hash_error
| xtxpool_error_tx_expired
| xtxpool_error_accountobj_destroy
| xtxpool_error_unconfirm_sendtx_exist
| xtxpool_error_unconfirm_sendtx_not_exist
| xtxpool_error_unconfirm_sendtx_data_not_complete
| xtxpool_error_sendtx_receipt_duplicate
| xtxpool_error_sendtx_receipt_expired
| xtxpool_error_sendtx_receipt_data_not_synced
| xtxpool_error_unconfirm_sendtx_cache_height_not_match_consensusing_height
| xtxpool_error_unconfirm_sendtx_cache_update_fail_no_account
| xtxpool_error_unconfirm_sendtx_cache_update_fail_no_unit
| xtxpool_error_unconfirm_sendtx_cache_update_fail_state_behind
| xtxpool_error_tx_miss_failed
| xtxpool_error_account_unit_height_behind
| xtxpool_error_account_unit_height_higher
| xtxpool_error_account_state_behind
| xtxpool_error_account_property_behind
| xtxpool_error_account_usable_timestamp_not_arrive
| xtxpool_error_transaction_not_belong_to_this_service
| xtxpool_error_service_stoped
| xtxpool_error_transaction_whitelist_limit
| xtxpool_error_tx_validate_sign_error
| xtxpool_error_tx_multi_sign_error
| xtxpool_error_tx_invalid_type
| xtxpool_error_send_tx_reach_upper_limit
| xtxpool_error_receipt_invalid
| xverifier_error_tx_duration_expired
| xverifier_error_tx_fire_expired
| xverifier_error (code : Z).     (* any other non-zero code of xverifier, passed on *)
#[export] Instance xtxpool_error_eq_dec : EqDecision xtxpool_error.
Proof. solve_decision. Defined.

(** ** Expiry *)

Definition verify_tx_duration_expiration `{TxEnv} (trx : xtransaction) (now : Z) : xtxpool_error :=
  let fire_expire := u64 (get_fire_timestamp trx + get_expire_duration trx + tx_send_timestamp_tolerance) in
  if fire_expire <? now then xverifier_error_tx_duration_expired else xsuccess.

Definition verify_tx_fire_expiration `{TxEnv} (trx : xtransaction) (now : Z) : xtxpool_error :=
  if u64 (get_fire_timestamp trx + tx_send_timestamp_tolerance) <? now then xverifier_error_tx_fire_expired
  else if u64 (now + tx_send_timestamp_tolerance) <? get_fire_timestamp trx then xverifier_error_tx_fire_expired
  else xsuccess.

(** [if (ret)] on a returned code. *)
Definition failed (ret : xtxpool_error) : bool := negb (bool_decide (ret = xsuccess)).
