(* ===== verification/AccountObj.v ===== *)
(** * The transactions one account waits with: [xtxpool/src/xaccountobj.cpp]

    An account object keeps the account's own transactions in the order of
    their nonces, the receipts it received in the order they were fired, and an
    index from digests to all of them.  The table it belongs to counts the
    waiting send transactions of all its accounts through [send_tx_increment]:
    an operation works on the pair of the object and that counter.  The queues
    are multisets with the comparisons of [xaccountobj.h]; iterators are
    positions.  Logging, metrics and the [result] codes that only go to the
    log are left out. *)

From stdpp Require Import prelude gmap strings.
From Stdlib Require Import ZArith Lia.
From S2P Require Import Prelude StdMap TxData.

(** [xsendtx_queue_entry_t::operator<]. *)
Definition sendtx_ltb (l r : xtransaction) : bool :=
  if get_last_nonce l =? get_last_nonce r then get_fire_timestamp r <? get_fire_timestamp l
  else get_last_nonce l <? get_last_nonce r.

(** [xrecvtx_queue_entry_t::operator<]. *)
Definition recvtx_ltb (l r : xtransaction) : bool := get_fire_timestamp l <? get_fire_timestamp r.

Record xaccountobj := XAccountObj {
  m_address : string;
  m_send_tx_queue_max_num : Z;
  m_latest_send_trans_number : Z;
  m_latest_send_trans_hash : string;
  m_send_queue : list xtransaction;
  m_recv_queue : list xtransaction;
  m_recv_ack_queue : list xtransaction;
  m_tx_map : gmap string xtransaction
}.

(** An account object and the counter [m_send_tx_num] of its table. *)
Record acct := Acct { a_obj : xaccountobj; a_send_num : Z }.

Definition on_obj (f : xaccountobj -> xaccountobj) (a : acct) : acct := Acct (f (a_obj a)) (a_send_num a).
Definition set_send_queue (q : list xtransaction) (o : xaccountobj) : xaccountobj :=
  XAccountObj (m_address o) (m_send_tx_queue_max_num o) (m_latest_send_trans_number o)
    (m_latest_send_trans_hash o) q (m_recv_queue o) (m_recv_ack_queue o) (m_tx_map o).
Definition set_recv_queue (q : list xtransaction) (o : xaccountobj) : xaccountobj :=
  XAccountObj (m_address o) (m_send_tx_queue_max_num o) (m_latest_send_trans_number o)
    (m_latest_send_trans_hash o) (m_send_queue o) q (m_recv_ack_queue o) (m_tx_map o).
Definition set_recv_ack_queue (q : list xtransaction) (o : xaccountobj) : xaccountobj :=
  XAccountObj (m_address o) (m_send_tx_queue_max_num o) (m_latest_send_trans_number o)
    (m_latest_send_trans_hash o) (m_send_queue o) (m_recv_queue o) q (m_tx_map o).
Definition set_tx_map (m : gmap string xtransaction) (o : xaccountobj) : xaccountobj :=
  XAccountObj (m_address o) (m_send_tx_queue_max_num o) (m_latest_send_trans_number o)
    (m_latest_send_trans_hash o) (m_send_queue o) (m_recv_queue o) (m_recv_ack_queue o) m.
Definition set_latest (n : Z) (h : string) (o : xaccountobj) : xaccountobj :=
  XAccountObj (m_address o) (m_send_tx_queue_max_num o) n h
    (m_send_queue o) (m_recv_queue o) (m_recv_ack_queue o) (m_tx_map o).

Section AccountObj.
Context `{TxEnv}.

Definition new_accountobj (address : string) (account_tx_nonce : Z) (account_tx_hash : string) : xaccountobj :=
  XAccountObj address account_send_queue_tx_max_num account_tx_nonce account_tx_hash [] [] [] ∅.

(** The table's [send_tx_increment]: an atomic [int32_t]. *)
Definition send_tx_increment (inc_num : Z) (a : acct) : acct :=
  Acct (a_obj a) (i32 (a_send_num a + inc_num)).

Definition pop_tx_event (tx : xtransaction) (clear_map : bool) (a : acct) : acct :=
  let count a :=
    if get_tx_subtype tx =? enum_transaction_subtype_recv then a
    else if get_tx_subtype tx =? enum_transaction_subtype_confirm then a
    else send_tx_increment (-1) a in
  if clear_map then
    match m_tx_map (a_obj a) !! digest tx with
    | None => a
    | Some _ => count (on_obj (fun o => set_tx_map (delete (digest tx) (m_tx_map o)) o) a)
    end
  else count a.

Definition pop_tx_events (l : list xtransaction) (a : acct) : acct :=
  fold_left (fun a tx => pop_tx_event tx true a) l a.

(** [clear_send_queue_by_iter]: the entries from the iterator on are popped and erased. *)
Definition clear_send_queue_by_iter (iter : nat) (a : acct) : acct :=
  let q := m_send_queue (a_obj a) in
  on_obj (set_send_queue (take iter q)) (pop_tx_events (drop iter q) a).

(** The position of the first entry with this nonce, [end()] when there is none. *)
Fixpoint nonce_iter (nonce : Z) (q : list xtransaction) : nat :=
  match q with
  | [] => 0
  | e :: q' => if nonce =? get_last_nonce e then 0%nat else S (nonce_iter nonce q')
  end.

Definition check_and_erase_old_nonce_duplicate_tx (tx : xtransaction) (a : acct) : xtxpool_error * acct :=
  let q := m_send_queue (a_obj a) in
  let iter := nonce_iter (get_last_nonce tx) q in
  match q !! iter with
  | Some e =>
      if get_fire_timestamp tx <? get_fire_timestamp e then (xtxpool_error_tx_nonce_repeat, a)
      else (xsuccess, clear_send_queue_by_iter iter a)
  | None => (xsuccess, clear_send_queue_by_iter iter a)
  end.

Definition check_send_tx (tx : xtransaction) (latest_hash : string) : bool :=
  check_last_trans_hash tx latest_hash.

(** The first entry that is expired, [end()] when none is. *)
Fixpoint expired_iter (now : Z) (q : list xtransaction) : nat :=
  match q with
  | [] => 0
  | e :: q' => if failed (verify_tx_duration_expiration e now) then 0%nat else S (expired_iter now q')
  end.

Definition clear_expire_txs (now : Z) (a : acct) : acct :=
  match m_send_queue (a_obj a) with
  | [] => a
  | q => clear_send_queue_by_iter (expired_iter now q) a
  end.

Definition clear_invalid_send_tx (now : Z) (a : acct) : acct := clear_expire_txs now a.

Definition insert_send_tx (tx : xtransaction) (a : acct) : acct :=
  send_tx_increment 1
    (on_obj (fun o => set_send_queue (mset_insert sendtx_ltb tx (m_send_queue o))
                        (set_tx_map (<[digest tx := tx]> (m_tx_map o)) o)) a).

(** [push_send_tx] from line 101 on, once the digest is known to be new. *)
Definition push_new_send_tx (tx : xtransaction) (a : acct) : xtxpool_error * acct :=
  match last (m_send_queue (a_obj a)) with
  | None =>
      if negb (get_last_nonce tx =? m_latest_send_trans_number (a_obj a))
      then (xtxpool_error_tx_nonce_incontinuity, a)
      else if negb (check_send_tx tx (m_latest_send_trans_hash (a_obj a)))
      then (xtxpool_error_tx_last_hash_error, a)
      else (xsuccess, insert_send_tx tx a)
  | Some cons_tx_tmp =>
      let next_nonce := u64 (get_last_nonce cons_tx_tmp + 1) in
      let '(ret, a) :=
        if get_last_nonce tx =? next_nonce then
          if negb (check_send_tx tx (digest cons_tx_tmp)) then (xtxpool_error_tx_last_hash_error, a)
          else (xsuccess, a)
        else if next_nonce <? get_last_nonce tx then (xtxpool_error_tx_nonce_incontinuity, a)
        else check_and_erase_old_nonce_duplicate_tx tx a in
      if failed ret then (ret, a)
      else if m_send_tx_queue_max_num (a_obj a) <=? Z.of_nat (length (m_send_queue (a_obj a)))
      then (xtxpool_error_send_tx_queue_over_upper_limit, a)
      else (xsuccess, insert_send_tx tx a)
  end.

Definition push_send_tx (tx : xtransaction) (a : acct) : xtxpool_error * acct :=
  if get_last_nonce tx <? m_latest_send_trans_number (a_obj a) then (xtxpool_error_tx_nonce_too_old, a)
  else
    let a := clear_expire_txs (get_push_pool_timestamp tx) a in
    match m_tx_map (a_obj a) !! digest tx with
    | Some _ => (xtxpool_error_request_tx_repeat, a)
    | None => push_new_send_tx tx a
    end.

Definition push_recv_tx (tx : xtransaction) (a : acct) : xtxpool_error * acct :=
  match m_tx_map (a_obj a) !! digest tx with
  | Some _ => (xtxpool_error_request_tx_repeat, a)
  | None =>
      (xsuccess, on_obj (fun o => set_recv_queue (mset_insert recvtx_ltb tx (m_recv_queue o))
                                    (set_tx_map (<[digest tx := tx]> (m_tx_map o)) o)) a)
  end.

Definition push_recv_ack_tx (tx : xtransaction) (a : acct) : xtxpool_error * acct :=
  match m_tx_map (a_obj a) !! digest tx with
  | Some _ => (xtxpool_error_request_tx_repeat, a)
  | None =>
      (xsuccess, on_obj (fun o => set_recv_ack_queue (mset_insert recvtx_ltb tx (m_recv_ack_queue o))
                                    (set_tx_map (<[digest tx := tx]> (m_tx_map o)) o)) a)
  end.

Definition get_tx (o : xaccountobj) : option xtransaction :=
  match m_recv_queue o with
  | tx :: _ => Some tx
  | [] => head (m_send_queue o)
  end.

(** [pop_tx], which only the unit tests call: the front entry leaves its queue;
    index and counter keep it. *)
Definition pop_tx (a : acct) : option xtransaction * acct :=
  match m_recv_queue (a_obj a), m_send_queue (a_obj a) with
  | tx :: q, _ => (Some tx, on_obj (set_recv_queue q) a)
  | [], tx :: q => (Some tx, on_obj (set_send_queue q) a)
  | [], [] => (None, a)
  end.

Definition query_tx (o : xaccountobj) (hash : string) : option xtransaction := m_tx_map o !! hash.

Definition get_tx_by_hash (o : xaccountobj) (hash : string) (subtype : Z) : option xtransaction :=
  match m_tx_map o !! hash with
  | Some tx => if get_tx_subtype tx =? subtype then Some tx else None
  | None => None
  end.

(** The entry of the range equal to [tx] that carries the hash. *)
Definition range_find (ltb : xtransaction -> xtransaction -> bool) (tx : xtransaction) (hash_str : string)
    (q : list xtransaction) : option (nat * xtransaction) :=
  match find_in_range (fun e => bool_decide (digest e = hash_str)) (lower_bound ltb tx q) (upper_bound ltb tx q) q with
  | Some i => (fun e => (i, e)) <$> q !! i
  | None => None
  end.

Definition pop_tx_by_hash (hash_str : string) (subtype : Z) (a : acct) : option xtransaction * acct :=
  match m_tx_map (a_obj a) !! hash_str with
  | None => (None, a)
  | Some pop_tx =>
      if negb (get_tx_subtype pop_tx =? subtype) then (None, a)
      else
        let a := on_obj (fun o => set_tx_map (delete hash_str (m_tx_map o)) o) a in
        let a :=
          if (get_tx_subtype pop_tx =? enum_transaction_subtype_send)
             || (get_tx_subtype pop_tx =? enum_transaction_subtype_self) then
            let q := m_send_queue (a_obj a) in
            match range_find sendtx_ltb pop_tx hash_str q with
            | Some (i, e) =>
                let a := pop_tx_event e false a in
                let a := on_obj (set_send_queue (delete i q)) a in
                clear_send_queue_by_iter (upper_bound sendtx_ltb pop_tx q - 1) a
            | None => a
            end
          else if get_tx_subtype pop_tx =? enum_transaction_subtype_recv then
            let q := m_recv_queue (a_obj a) in
            match range_find recvtx_ltb pop_tx hash_str q with
            | Some (i, e) => on_obj (set_recv_queue (delete i q)) (pop_tx_event e false a)
            | None => a
            end
          else if get_tx_subtype pop_tx =? enum_transaction_subtype_confirm then
            let q := m_recv_ack_queue (a_obj a) in
            match range_find recvtx_ltb pop_tx hash_str q with
            | Some (i, e) => on_obj (set_recv_ack_queue (delete i q)) (pop_tx_event e false a)
            | None => a
            end
          else a in
        (Some pop_tx, a)
  end.

(** The first entry whose nonce is not behind, [end()] when all are. *)
Fixpoint stale_iter (latest : Z) (q : list xtransaction) : nat :=
  match q with
  | [] => 0
  | e :: q' => if get_last_nonce e <? latest then S (stale_iter latest q') else 0%nat
  end.

Definition update_latest_send_trans_number_hash (account_tx_nonce : Z) (account_tx_hash : string) (a : acct)
    : bool * acct :=
  if account_tx_nonce <? m_latest_send_trans_number (a_obj a) then (false, a)
  else if account_tx_nonce =? m_latest_send_trans_number (a_obj a) then (true, a)
  else
    let a := on_obj (set_latest account_tx_nonce account_tx_hash) a in
    let q := m_send_queue (a_obj a) in
    let n := stale_iter account_tx_nonce q in
    let a := on_obj (set_send_queue (drop n q)) (pop_tx_events (take n q) a) in
    match m_send_queue (a_obj a) with
    | e :: _ => (true, if negb (check_send_tx e account_tx_hash) then clear_send_queue_by_iter 0 a else a)
    | [] => (true, a)
    end.

(** The [for] loop of [get_recv_ack_txs] and the shared loop of [get_recv_txs]
    and [get_send_txs], with [count] transactions taken. *)
Fixpoint take_ack_txs (batch count : Z) (q : list xtransaction) : list xtransaction :=
  match q with
  | [] => []
  | e :: q' => e :: (if batch <=? count + 1 then [] else take_ack_txs batch (count + 1) q')
  end.

Fixpoint take_transfer_txs (batch count : Z) (q : list xtransaction) : list xtransaction :=
  match q with
  | [] => []
  | e :: q' =>
      let other := negb (get_tx_type e =? xtransaction_type_transfer) in
      if other && negb (count =? 0) then []
      else e :: (if other || (batch <=? count + 1) then [] else take_transfer_txs batch (count + 1) q')
  end.

Definition get_recv_ack_txs (o : xaccountobj) : list xtransaction :=
  take_ack_txs unitblock_confirm_tx_batch_num 0 (m_recv_ack_queue o).
Definition get_recv_txs (o : xaccountobj) : list xtransaction :=
  take_transfer_txs unitblock_recv_transfer_tx_batch_num 0 (m_recv_queue o).

Definition get_send_txs (account_tx_nonce : Z) (account_tx_hash : string) (a : acct) : list xtransaction * acct :=
  let '(ok, a) := update_latest_send_trans_number_hash account_tx_nonce account_tx_hash a in
  if negb ok then ([], a)
  else (take_transfer_txs unitblock_send_transfer_tx_batch_num 0 (m_send_queue (a_obj a)), a).

Definition get_cons_txs (account_tx_nonce : Z) (account_tx_hash : string) (a : acct) : list xtransaction * acct :=
  match get_recv_ack_txs (a_obj a) with
  | (_ :: _) as cons_txs => (cons_txs, a)
  | [] =>
      match get_recv_txs (a_obj a) with
      | (_ :: _) as cons_txs => (cons_txs, a)
      | [] => get_send_txs account_tx_nonce account_tx_hash a
      end
  end.

(** The light unit [on_unit_to_db] receives: the transactions of its input. *)
Record unit_tx := UnitTx { ut_hash : string; ut_subtype : Z; ut_nonce : Z }.  (* ut_nonce: get_raw_tx()->get_tx_nonce() *)

(** [xlightunit_block_t::get_send_trans_info]. *)
Definition get_send_trans_info (txs : list unit_tx) : Z * string :=
  fold_left (fun '(number, hash) tx =>
    if ((ut_subtype tx =? enum_transaction_subtype_self) || (ut_subtype tx =? enum_transaction_subtype_send))
       && (number <? ut_nonce tx)
    then (ut_nonce tx, ut_hash tx) else (number, hash)) txs (0, ""%string).

(** [light_txs] is [Some] for a light unit that is not the genesis block. *)
Definition on_unit_to_db (light_txs : option (list unit_tx)) (account_tx_nonce : Z) (account_tx_hash : string)
    (a : acct) : acct :=
  let '(a, max_tx_nonce, max_tx_hash) :=
    match light_txs with
    | None => (a, account_tx_nonce, account_tx_hash)
    | Some txs =>
        let a := fold_left (fun a tx => snd (pop_tx_by_hash (ut_hash tx) (ut_subtype tx) a)) txs a in
        let '(number, hash) := get_send_trans_info txs in
        if negb (number =? 0) && (account_tx_nonce <? number) then (a, number, hash)
        else (a, account_tx_nonce, account_tx_hash)
    end in
  snd (update_latest_send_trans_number_hash max_tx_nonce max_tx_hash a).

(** [~xaccountobj_t]: what the destructor leaves of the table's counter. *)
Definition destroy_accountobj (a : acct) : Z :=
  a_send_num (pop_tx_events (m_send_queue (a_obj a))
    (pop_tx_events (m_recv_queue (a_obj a)) (pop_tx_events (m_recv_ack_queue (a_obj a)) a))).

Definition empty (o : xaccountobj) : bool := bool_decide (m_tx_map o = ∅).
Definition get_queue_size (o : xaccountobj) : nat := size (m_tx_map o).
End AccountObj.
