(* ===== verification/AccountSpec.v ===== *)
(** * What an account object promises: a queue of consecutive nonces

    The abstract account: the nonce and hash its chain has reached, the waiting
    transactions by position (the one at position [i] follows nonce
    [latest + i]) and the two queues of receipts.  No index, no multiset and no
    counter; an operation is arithmetic on positions.  [AccountRefine] shows
    that [AccountObj] implements it. *)

From stdpp Require Import prelude strings.
From Stdlib Require Import ZArith Lia.
From S2P Require Import Prelude StdMap TxData AccountObj.

Record aqueue := AQueue {
  q_address : string;
  q_max : Z;
  q_nonce : Z;
  q_hash : string;
  q_sends : list xtransaction;
  q_recvs : list xtransaction;
  q_acks : list xtransaction
}.

Definition q_all (s : aqueue) : list xtransaction := q_sends s ++ q_recvs s ++ q_acks s.
Definition with_sends (l : list xtransaction) (s : aqueue) : aqueue :=
  AQueue (q_address s) (q_max s) (q_nonce s) (q_hash s) l (q_recvs s) (q_acks s).
Definition with_recvs (l : list xtransaction) (s : aqueue) : aqueue :=
  AQueue (q_address s) (q_max s) (q_nonce s) (q_hash s) (q_sends s) l (q_acks s).
Definition with_acks (l : list xtransaction) (s : aqueue) : aqueue :=
  AQueue (q_address s) (q_max s) (q_nonce s) (q_hash s) (q_sends s) (q_recvs s) l.
Definition with_latest (n : Z) (h : string) (s : aqueue) : aqueue :=
  AQueue (q_address s) (q_max s) n h (q_sends s) (q_recvs s) (q_acks s).

Section Spec.
Context `{TxEnv}.

Definition waits (d : string) (s : aqueue) : bool := bool_decide (d ∈ digest <$> q_all s).

(** A transaction that expired takes all that follow it along. *)
Definition spec_expire (now : Z) (s : aqueue) : aqueue :=
  with_sends (take (expired_iter now (q_sends s)) (q_sends s)) s.

(** The digest that a transaction at the end of the queue must refer to. *)
Definition tail_hash (s : aqueue) : string :=
  match last (q_sends s) with Some e => digest e | None => q_hash s end.

(** A transaction at the end must refer to the one before it, one further
    back replaces its namesake and all that follow unless it was fired earlier. *)
Definition spec_push_new (tx : xtransaction) (s : aqueue) : xtxpool_error * aqueue :=
  let len := length (q_sends s) in
  let pos := Z.to_nat (get_last_nonce tx - q_nonce s) in
  let full n := (0 <? len)%nat && (q_max s <=? Z.of_nat n) in
  if (len <? pos)%nat then (xtxpool_error_tx_nonce_incontinuity, s)
  else
    match q_sends s !! pos with
    | None =>
        if negb (check_last_trans_hash tx (tail_hash s)) then (xtxpool_error_tx_last_hash_error, s)
        else if full len then (xtxpool_error_send_tx_queue_over_upper_limit, s)
        else (xsuccess, with_sends (q_sends s ++ [tx]) s)
    | Some e =>
        if get_fire_timestamp tx <? get_fire_timestamp e then (xtxpool_error_tx_nonce_repeat, s)
        else if full pos then (xtxpool_error_send_tx_queue_over_upper_limit, with_sends (take pos (q_sends s)) s)
        else (xsuccess, with_sends (take pos (q_sends s) ++ [tx]) s)
    end.

Definition spec_push_send (tx : xtransaction) (s : aqueue) : xtxpool_error * aqueue :=
  if get_last_nonce tx <? q_nonce s then (xtxpool_error_tx_nonce_too_old, s)
  else
    let s := spec_expire (get_push_pool_timestamp tx) s in
    if waits (digest tx) s then (xtxpool_error_request_tx_repeat, s) else spec_push_new tx s.

Definition spec_push_recv (tx : xtransaction) (s : aqueue) : xtxpool_error * aqueue :=
  if waits (digest tx) s then (xtxpool_error_request_tx_repeat, s)
  else (xsuccess, with_recvs (mset_insert recvtx_ltb tx (q_recvs s)) s).

Definition spec_push_ack (tx : xtransaction) (s : aqueue) : xtxpool_error * aqueue :=
  if waits (digest tx) s then (xtxpool_error_request_tx_repeat, s)
  else (xsuccess, with_acks (mset_insert recvtx_ltb tx (q_acks s)) s).

Definition without (d : string) (l : list xtransaction) : list xtransaction :=
  List.filter (fun e => negb (bool_decide (digest e = d))) l.

(** The entries before the one with the digest. *)
Fixpoint before (d : string) (l : list xtransaction) : list xtransaction :=
  match l with
  | [] => []
  | e :: l' => if bool_decide (digest e = d) then [] else e :: before d l'
  end.

Definition spec_find (d : string) (subtype : Z) (s : aqueue) : option xtransaction :=
  match List.find (fun e => bool_decide (digest e = d)) (q_all s) with
  | Some e => if get_tx_subtype e =? subtype then Some e else None
  | None => None
  end.

(** A waiting transaction that is removed takes all that follow it along; a receipt goes alone. *)
Definition spec_pop (d : string) (subtype : Z) (s : aqueue) : option xtransaction * aqueue :=
  match spec_find d subtype s with
  | None => (None, s)
  | Some e =>
      (Some e,
       if is_origin_tx e then with_sends (before d (q_sends s)) s
       else if is_recv_tx e then with_recvs (without d (q_recvs s)) s
       else with_acks (without d (q_acks s)) s)
  end.

Definition spec_update (n : Z) (h : string) (s : aqueue) : bool * aqueue :=
  if n <? q_nonce s then (false, s)
  else if n =? q_nonce s then (true, s)
  else
    let rest := drop (Z.to_nat (n - q_nonce s)) (q_sends s) in
    let keep := match rest with e :: _ => check_last_trans_hash e h | [] => true end in
    (true, with_sends (if keep then rest else []) (with_latest n h s)).

Definition spec_get (n : Z) (h : string) (s : aqueue) : list xtransaction * aqueue :=
  match take_ack_txs unitblock_confirm_tx_batch_num 0 (q_acks s),
        take_transfer_txs unitblock_recv_transfer_tx_batch_num 0 (q_recvs s) with
  | (_ :: _) as l, _ => (l, s)
  | [], (_ :: _) as l => (l, s)
  | [], [] =>
      let '(ok, s) := spec_update n h s in
      (if ok then take_transfer_txs unitblock_send_transfer_tx_batch_num 0 (q_sends s) else [], s)
  end.

Definition spec_unit (light_txs : option (list unit_tx)) (n : Z) (h : string) (s : aqueue) : aqueue :=
  match light_txs with
  | None => snd (spec_update n h s)
  | Some txs =>
      let s := fold_left (fun s tx => snd (spec_pop (ut_hash tx) (ut_subtype tx) s)) txs s in
      let '(number, hash) := get_send_trans_info txs in
      snd (if n <? number then spec_update number hash s else spec_update n h s)
  end.

(** ** Operations as data *)

Inductive account_op :=
| OpPushSend (tx : xtransaction)
| OpPushRecv (tx : xtransaction)
| OpPushAck (tx : xtransaction)
| OpUnit (light_txs : option (list unit_tx)) (n : Z) (h : string)
| OpGetTxs (n : Z) (h : string)
| OpExpire (now : Z)
| OpPop (d : string) (subtype : Z).

Inductive account_res :=
| ResCode (ret : xtxpool_error)
| ResTxs (txs : list xtransaction)
| ResTx (tx : option xtransaction)
| ResNone.

Definition spec_op (op : account_op) (s : aqueue) : account_res * aqueue :=
  match op with
  | OpPushSend tx => let '(r, s) := spec_push_send tx s in (ResCode r, s)
  | OpPushRecv tx => let '(r, s) := spec_push_recv tx s in (ResCode r, s)
  | OpPushAck tx => let '(r, s) := spec_push_ack tx s in (ResCode r, s)
  | OpUnit txs n h => (ResNone, spec_unit txs n h s)
  | OpGetTxs n h => let '(r, s) := spec_get n h s in (ResTxs r, s)
  | OpExpire now => (ResNone, spec_expire now s)
  | OpPop d subtype => let '(r, s) := spec_pop d subtype s in (ResTx r, s)
  end.

Definition account_step (op : account_op) (a : acct) : account_res * acct :=
  match op with
  | OpPushSend tx => let '(r, a) := push_send_tx tx a in (ResCode r, a)
  | OpPushRecv tx => let '(r, a) := push_recv_tx tx a in (ResCode r, a)
  | OpPushAck tx => let '(r, a) := push_recv_ack_tx tx a in (ResCode r, a)
  | OpUnit txs n h => (ResNone, on_unit_to_db txs n h a)
  | OpGetTxs n h => let '(r, a) := get_cons_txs n h a in (ResTxs r, a)
  | OpExpire now => (ResNone, clear_invalid_send_tx now a)
  | OpPop d subtype => let '(r, a) := pop_tx_by_hash d subtype a in (ResTx r, a)
  end.

(** What the callers guarantee: the asserted kind of a pushed transaction, and
    integers within their width, the nonce of a pushed transaction included. *)
Definition op_ok (op : account_op) : Prop :=
  match op with
  | OpPushSend tx => is_origin_tx tx = true /\ 0 <= get_last_nonce tx /\ get_last_nonce tx + 1 < 2 ^ 64
  | OpPushRecv tx => is_recv_tx tx = true
  | OpPushAck tx => is_confirm_tx tx = true
  | OpUnit txs n h => is_u64 n /\ Forall (fun t => is_u64 (ut_nonce t)) (default [] txs)
  | OpGetTxs n h => is_u64 n
  | OpExpire now => True
  | OpPop d subtype => True
  end.

(** ** Well-formed queues *)

Record queue_wf (s : aqueue) : Prop := {
  wf_nonces : get_last_nonce <$> q_sends s = seqZ (q_nonce s) (Z.of_nat (length (q_sends s)));
  wf_nonce : is_u64 (q_nonce s);
  wf_width : q_nonce s + Z.of_nat (length (q_sends s)) < 2 ^ 64;
  wf_size : Z.of_nat (length (q_sends s)) <= Z.max 1 (q_max s);
  wf_sends : Forall (fun e => is_origin_tx e = true) (q_sends s);
  wf_recvs : Forall (fun e => is_recv_tx e = true) (q_recvs s);
  wf_acks : Forall (fun e => is_confirm_tx e = true) (q_acks s);
  wf_recv_order : mset_sorted recvtx_ltb (q_recvs s);
  wf_ack_order : mset_sorted recvtx_ltb (q_acks s);
  wf_digests : NoDup (digest <$> q_all s)
}.
End Spec.
