(* ===== verification/AccountWf.v ===== *)
(** * Every operation keeps the abstract account well formed *)

From stdpp Require Import prelude strings.
From Stdlib Require Import ZArith Lia Sorting.Sorted.
From S2P Require Import Prelude StdMap TxData AccountObj AccountSpec.

(** ** Orders and sublists *)

#[export] Instance recvtx_order : StrictWeakOrder recvtx_ltb.
Proof. split; unfold recvtx_ltb; intros; rewrite ?Z.ltb_lt, ?Z.ltb_ge in *; lia. Qed.

Lemma sublist_sorted {A} (R : A -> A -> Prop) l k : l `sublist_of` k -> StronglySorted R k -> StronglySorted R l.
Proof.
  induction 1 as [|x l k Hs IH|x l k Hs IH]; intros Hk; [constructor| |].
  - inversion_clear Hk as [|? ? Hk' Hf]. constructor; [auto|].
    rewrite Forall_forall in Hf |- *. intros y Hy. apply Hf. by eapply elem_of_sublist.
  - inversion_clear Hk. auto.
Qed.
Lemma sublist_Forall {A} (P : A -> Prop) l k : l `sublist_of` k -> Forall P k -> Forall P l.
Proof. intros Hs. rewrite !Forall_forall. intros Hk x Hx. apply Hk. by eapply elem_of_sublist. Qed.
Lemma sublist_bfilter {A} (f : A -> bool) (l : list A) : List.filter f l `sublist_of` l.
Proof. induction l as [|x l IH]; cbn; [constructor|]. destruct (f x); by constructor. Qed.
Lemma sublist_fmap {A B} (f : A -> B) l k : l `sublist_of` k -> (f <$> l) `sublist_of` (f <$> k).
Proof. induction 1; cbn; by constructor. Qed.

Lemma before_take d l : exists i, before d l = take i l.
Proof.
  induction l as [|e l [i IH]]; cbn; [by exists 0%nat|]. case_bool_decide; [by exists 0%nat|].
  exists (S i). cbn. by rewrite IH.
Qed.
Lemma without_sublist d l : without d l `sublist_of` l.
Proof. apply sublist_bfilter. Qed.

Lemma seqZ_take n (i : nat) (len : Z) : Z.of_nat i <= len -> take i (seqZ n len) = seqZ n (Z.of_nat i).
Proof.
  intros Hi. replace len with (Z.of_nat i + (len - Z.of_nat i)) by lia. rewrite seqZ_app by lia.
  by rewrite take_app_length' by (rewrite length_seqZ; lia).
Qed.
Lemma seqZ_drop n (i : nat) (len : Z) :
  Z.of_nat i <= len -> drop i (seqZ n len) = seqZ (n + Z.of_nat i) (len - Z.of_nat i).
Proof.
  intros Hi. replace len with (Z.of_nat i + (len - Z.of_nat i)) at 1 by lia. rewrite seqZ_app by lia.
  by rewrite drop_app_length' by (rewrite length_seqZ; lia).
Qed.

Section Wf.
Context `{TxEnv}.

Lemma wf_nonce_at s i e :
  queue_wf s -> q_sends s !! i = Some e -> get_last_nonce e = q_nonce s + Z.of_nat i.
Proof.
  intros W Hi. pose proof (wf_nonces s W) as E. apply (f_equal (lookup i)) in E.
  rewrite list_lookup_fmap, Hi in E. cbn in E. symmetry in E. apply lookup_seqZ in E as [-> _]. lia.
Qed.

Lemma wf_last s e :
  queue_wf s -> last (q_sends s) = Some e ->
  get_last_nonce e = q_nonce s + Z.of_nat (length (q_sends s)) - 1 /\ (0 < length (q_sends s))%nat.
Proof.
  intros W Hl. rewrite last_lookup in Hl. pose proof (lookup_lt_Some _ _ _ Hl).
  rewrite (wf_nonce_at _ _ _ W Hl). split; lia.
Qed.

(** ** Prefixes, suffixes, extensions *)

Lemma wf_take i s : queue_wf s -> queue_wf (with_sends (take i (q_sends s)) s).
Proof.
  intros W. pose proof (length_take (q_sends s) i) as Hlen. destruct W. split; cbn; try done.
  - rewrite fmap_take, wf_nonces, length_take. destruct (decide (i <= length (q_sends s))%nat).
    + rewrite seqZ_take by lia. f_equal. lia.
    + rewrite take_ge by (rewrite length_seqZ; lia). f_equal. lia.
  - lia.
  - lia.
  - by apply Forall_take.
  - unfold q_all in *. cbn. rewrite fmap_app in *. eapply sublist_NoDup; [exact wf_digests|].
    apply sublist_app; [|done]. apply sublist_fmap, sublist_take.
Qed.

Lemma with_sends_take_all i s : with_sends (take i (q_sends s)) s = s \/ (i < length (q_sends s))%nat.
Proof.
  destruct (decide (i < length (q_sends s))%nat); [by right|left]. rewrite take_ge by lia. by destruct s.
Qed.

Lemma wf_extend tx s :
  queue_wf s -> is_origin_tx tx = true -> get_last_nonce tx + 1 < 2 ^ 64 ->
  digest tx ∉ digest <$> q_all s ->
  get_last_nonce tx = q_nonce s + Z.of_nat (length (q_sends s)) ->
  Z.of_nat (length (q_sends s)) < Z.max 1 (q_max s) ->
  queue_wf (with_sends (q_sends s ++ [tx]) s).
Proof.
  intros [] Ho Hu Hd Hn Hmax. split; cbn; try done.
  - rewrite fmap_app, length_app, wf_nonces. cbn.
    replace (Z.of_nat (length (q_sends s) + 1)) with (Z.of_nat (length (q_sends s)) + 1) by lia.
    rewrite seqZ_app by lia. f_equal. rewrite Hn. by rewrite seqZ_cons, seqZ_nil by lia.
  - rewrite length_app. cbn. lia.
  - rewrite length_app. cbn. lia.
  - apply Forall_app. by split; [|repeat constructor].
  - unfold q_all in *. cbn. rewrite <- app_assoc. cbn. rewrite fmap_app, fmap_cons in *.
    rewrite <- Permutation_middle. by constructor.
Qed.

Lemma wf_advance n h i s :
  queue_wf s -> is_u64 n -> q_nonce s <= n -> i = Z.to_nat (n - q_nonce s) ->
  queue_wf (with_sends (drop i (q_sends s)) (with_latest n h s)).
Proof.
  intros [] Hn Hle ->. set (i := Z.to_nat (n - q_nonce s)). split; cbn; rewrite ?length_drop; try done.
  - rewrite fmap_drop, wf_nonces. destruct (decide (i <= length (q_sends s))%nat).
    + rewrite seqZ_drop by lia. f_equal; lia.
    + rewrite drop_ge by (rewrite length_seqZ; lia). symmetry. rewrite seqZ_nil by lia. done.
  - unfold is_u64 in *. lia.
  - lia.
  - by apply Forall_drop.
  - unfold q_all in *. cbn. rewrite fmap_app in *. eapply sublist_NoDup; [exact wf_digests|].
    apply sublist_app; [|done]. apply sublist_fmap, sublist_drop.
Qed.

Lemma wf_recvs_sub l s : queue_wf s -> l `sublist_of` q_recvs s -> queue_wf (with_recvs l s).
Proof.
  intros [] Hs. split; cbn; try done; [by eapply sublist_Forall|by eapply sublist_sorted|].
  unfold q_all in *. cbn. eapply sublist_NoDup; [exact wf_digests|]. apply sublist_fmap.
  by apply sublist_app, sublist_app.
Qed.
Lemma wf_acks_sub l s : queue_wf s -> l `sublist_of` q_acks s -> queue_wf (with_acks l s).
Proof.
  intros [] Hs. split; cbn; try done; [by eapply sublist_Forall|by eapply sublist_sorted|].
  unfold q_all in *. cbn. eapply sublist_NoDup; [exact wf_digests|]. apply sublist_fmap.
  by apply sublist_app, sublist_app.
Qed.

Lemma wf_recvs_add tx s :
  queue_wf s -> is_recv_tx tx = true -> digest tx ∉ digest <$> q_all s ->
  queue_wf (with_recvs (mset_insert recvtx_ltb tx (q_recvs s)) s).
Proof.
  intros [] Hk Hd. split; cbn; try done.
  - rewrite mset_insert_perm. by constructor.
  - apply mset_insert_sorted; [apply _|done].
  - unfold q_all in *. cbn. rewrite mset_insert_perm. cbn. rewrite <- Permutation_middle. cbn. by constructor.
Qed.
Lemma wf_acks_add tx s :
  queue_wf s -> is_confirm_tx tx = true -> digest tx ∉ digest <$> q_all s ->
  queue_wf (with_acks (mset_insert recvtx_ltb tx (q_acks s)) s).
Proof.
  intros [] Hk Hd. split; cbn; try done.
  - rewrite mset_insert_perm. by constructor.
  - apply mset_insert_sorted; [apply _|done].
  - unfold q_all in *. cbn. rewrite mset_insert_perm. cbn. rewrite <- !Permutation_middle. cbn. by constructor.
Qed.

Lemma waits_false d s : waits d s = false -> d ∉ digest <$> q_all s.
Proof. unfold waits. by intros ?%bool_decide_eq_false_1. Qed.

(** ** The operations *)

Lemma spec_expire_wf now s : queue_wf s -> queue_wf (spec_expire now s).
Proof. apply wf_take. Qed.

Lemma wf_replace tx pos s :
  queue_wf s -> is_origin_tx tx = true -> get_last_nonce tx + 1 < 2 ^ 64 -> digest tx ∉ digest <$> q_all s ->
  get_last_nonce tx = q_nonce s + Z.of_nat pos -> (pos <= length (q_sends s))%nat ->
  Z.of_nat pos < Z.max 1 (q_max s) ->
  queue_wf (with_sends (take pos (q_sends s) ++ [tx]) s).
Proof.
  intros W Ho Hu Hd Hn Hp Hmax.
  assert (length (take pos (q_sends s)) = pos) as Hl by (rewrite length_take; lia).
  apply (wf_extend tx (with_sends (take pos (q_sends s)) s)); cbn; rewrite ?Hl; try done; [by apply wf_take|].
  intros Hin. apply Hd. revert Hin. unfold q_all. cbn. rewrite !fmap_app, !elem_of_app, fmap_take.
  intros [Hin|Hin]; [|by right]. left. by eapply elem_of_sublist; [|apply (sublist_take _ pos)].
Qed.

Lemma spec_push_send_wf tx s :
  queue_wf s -> is_origin_tx tx = true -> get_last_nonce tx + 1 < 2 ^ 64 -> queue_wf (spec_push_send tx s).2.
Proof.
  intros W Ho Hu. unfold spec_push_send. destruct (get_last_nonce tx <? q_nonce s) eqn:E0; [done|].
  apply Z.ltb_ge in E0. pose proof (spec_expire_wf (get_push_pool_timestamp tx) s W) as W'.
  assert (q_nonce (spec_expire (get_push_pool_timestamp tx) s) = q_nonce s) as En by done.
  revert W' En. generalize (spec_expire (get_push_pool_timestamp tx) s) as t. intros t W' En.
  destruct (waits (digest tx) t) eqn:E1; [done|]. apply waits_false in E1. unfold spec_push_new.
  destruct (length (q_sends t) <? Z.to_nat (get_last_nonce tx - q_nonce t))%nat eqn:E2; [done|].
  apply Nat.ltb_ge in E2. destruct (q_sends t !! _) as [e|] eqn:E3.
  - destruct (_ <? _); [done|]. destruct ((0 <? _)%nat && _) eqn:E4; cbn; [by apply wf_take|].
    apply wf_replace; try done; [lia|]. pose proof (lookup_lt_Some _ _ _ E3) as Hlt.
    apply andb_false_iff in E4 as [E4%Nat.ltb_ge|E4%Z.leb_gt]; lia.
  - apply lookup_ge_None_1 in E3. destruct (negb _); [done|]. destruct ((0 <? _)%nat && _) eqn:E4; [done|].
    apply wf_extend; try done; [lia|].
    apply andb_false_iff in E4 as [E4%Nat.ltb_ge|E4%Z.leb_gt]; lia.
Qed.

Lemma spec_pop_wf d st s : queue_wf s -> queue_wf (spec_pop d st s).2.
Proof.
  intros W. unfold spec_pop. destruct (spec_find d st s) as [e|]; [|done]. cbn.
  destruct (is_origin_tx e); [destruct (before_take d (q_sends s)) as [i ->]; by apply wf_take|].
  destruct (is_recv_tx e); [apply wf_recvs_sub|apply wf_acks_sub]; auto using without_sublist.
Qed.

Lemma spec_update_wf n h s : queue_wf s -> is_u64 n -> queue_wf (spec_update n h s).2.
Proof.
  intros W Hn. unfold spec_update. destruct (n <? q_nonce s) eqn:E1; [done|]. apply Z.ltb_ge in E1.
  destruct (n =? q_nonce s); [done|]. cbn.
  pose proof (wf_advance n h _ s W Hn E1 eq_refl) as W'.
  destruct (match _ with [] => true | _ => _ end); [done|]. exact (wf_take 0 _ W').
Qed.

Lemma send_trans_info_u64 txs number hash :
  Forall (fun t => is_u64 (ut_nonce t)) txs -> get_send_trans_info txs = (number, hash) -> is_u64 number.
Proof.
  unfold get_send_trans_info. intros Hf.
  assert (forall acc, is_u64 acc.1 -> is_u64 (fold_left (fun '(number, hash) tx =>
    if ((ut_subtype tx =? enum_transaction_subtype_self) || (ut_subtype tx =? enum_transaction_subtype_send))
       && (number <? ut_nonce tx)
    then (ut_nonce tx, ut_hash tx) else (number, hash)) txs acc).1) as Hgen.
  { induction Hf as [|t txs Ht Hf IH]; intros [k g] Hk; cbn; [done|]. apply IH. by destruct (_ && _). }
  intros E. specialize (Hgen (0, ""%string)). rewrite E in Hgen. apply Hgen. cbn. unfold is_u64. lia.
Qed.

Lemma spec_pops_wf txs s :
  queue_wf s -> queue_wf (fold_left (fun s tx => snd (spec_pop (ut_hash tx) (ut_subtype tx) s)) txs s).
Proof. revert s. induction txs as [|t txs IH]; cbn; [done|]. intros s W. by apply IH, spec_pop_wf. Qed.

Lemma spec_unit_wf txs n h s :
  queue_wf s -> is_u64 n -> Forall (fun t => is_u64 (ut_nonce t)) (default [] txs) -> queue_wf (spec_unit txs n h s).
Proof.
  intros W Hn Hf. unfold spec_unit. destruct txs as [txs|]; cbn in Hf; [|by apply spec_update_wf].
  destruct (get_send_trans_info txs) as [number hash] eqn:E.
  destruct (n <? number); apply spec_update_wf; eauto using spec_pops_wf, send_trans_info_u64.
Qed.

Lemma spec_get_wf n h s : queue_wf s -> is_u64 n -> queue_wf (spec_get n h s).2.
Proof.
  intros W Hn. unfold spec_get. destruct (take_ack_txs _ _ _); [|done].
  destruct (take_transfer_txs _ _ (q_recvs s)); [|done].
  pose proof (spec_update_wf n h s W Hn) as W'. by destruct (spec_update n h s).
Qed.

Lemma spec_op_wf op s : queue_wf s -> op_ok op -> queue_wf (spec_op op s).2.
Proof.
  intros W. destruct op; cbn.
  - intros (Ho & _ & Hu). pose proof (spec_push_send_wf tx s W Ho Hu). by destruct (spec_push_send tx s).
  - intros Hk. unfold spec_push_recv. destruct (waits _ _) eqn:E; [done|]. apply wf_recvs_add; auto using waits_false.
  - intros Hk. unfold spec_push_ack. destruct (waits _ _) eqn:E; [done|]. apply wf_acks_add; auto using waits_false.
  - intros []. by apply spec_unit_wf.
  - intros Hn. pose proof (spec_get_wf n h s W Hn). by destruct (spec_get n h s).
  - intros _. by apply spec_expire_wf.
  - intros _. pose proof (spec_pop_wf d subtype s W). by destruct (spec_pop d subtype s).
Qed.
End Wf.
