(* ===== verification/AccountRefine.v ===== *)
(** * The account object implements the queue of consecutive nonces

    [represents base s a]: the object [a] holds the abstract account [s], its
    index maps exactly the digests of the waiting transactions to them, and the
    table's counter is [base], the other accounts' share, plus the length of
    the send queue.  Every operation of [AccountObj] commutes with its
    specification under this relation. *)

From stdpp Require Import prelude gmap strings.
From Stdlib Require Import ZArith Lia.
From S2P Require Import Prelude StdMap TxData AccountObj AccountSpec AccountWf.

Definition abs_account (o : xaccountobj) : aqueue :=
  AQueue (m_address o) (m_send_tx_queue_max_num o) (m_latest_send_trans_number o) (m_latest_send_trans_hash o)
    (m_send_queue o) (m_recv_queue o) (m_recv_ack_queue o).

Definition indexes (m : gmap string xtransaction) (l : list xtransaction) : Prop :=
  forall d tx, m !! d = Some tx <-> tx ∈ l /\ digest tx = d.

Record represents (base : Z) (s : aqueue) (a : acct) : Prop := {
  rep_abs : abs_account (a_obj a) = s;
  rep_index : indexes (m_tx_map (a_obj a)) (q_all s);
  rep_count : a_send_num a = i32 (base + Z.of_nat (length (q_sends s)))
}.

(** ** The index *)

#[export] Instance indexes_proper m : Proper ((≡ₚ) ==> iff) (indexes m).
Proof. intros l k E. unfold indexes. by setoid_rewrite E. Qed.

Lemma indexes_insert m l tx :
  indexes m l -> digest tx ∉ digest <$> l -> indexes (<[digest tx := tx]> m) (tx :: l).
Proof.
  intros Hm Hn d e. rewrite lookup_insert_Some, elem_of_cons, (Hm d e). split.
  - intros [[<- <-]|[Hne [He Hd]]]; auto.
  - intros [[->|He] <-]; [by left|]. right. split; [|done]. intros E. apply Hn. rewrite E. by apply list_elem_of_fmap_2.
Qed.

Lemma indexes_delete m l tx :
  indexes m (tx :: l) -> NoDup (digest <$> tx :: l) -> indexes (delete (digest tx) m) l.
Proof.
  intros Hm Hn d e. cbn in Hn. apply NoDup_cons in Hn as [Hn _].
  rewrite lookup_delete_Some, (Hm d e), elem_of_cons. split.
  - intros [Hne [[->|He] <-]]; [done|auto].
  - intros [He <-]. split; [|auto]. intros E. apply Hn. rewrite E. by apply list_elem_of_fmap_2.
Qed.

Lemma indexes_find m l d : indexes m l -> m !! d = List.find (fun e => bool_decide (digest e = d)) l.
Proof.
  intros Hm. destruct (List.find _ l) as [e|] eqn:E.
  - apply List.find_some in E as [He Hd%bool_decide_eq_true_1]. apply Hm. by rewrite list_elem_of_In.
  - destruct (m !! d) as [e|] eqn:E'; [|done]. apply Hm in E' as [He Hd]. apply list_elem_of_In in He.
    pose proof (List.find_none _ _ E _ He) as Hf. by apply bool_decide_eq_false_1 in Hf.
Qed.

Lemma indexes_waits m s d : indexes m (q_all s) -> waits d s = bool_decide (is_Some (m !! d)).
Proof.
  intros Hm. unfold waits. apply bool_decide_ext. rewrite list_elem_of_fmap. split.
  - intros (e & -> & He). exists e. by apply Hm.
  - intros [e [He Hd]%Hm]. eauto.
Qed.

(** ** Popping entries *)

Definition erase_all (l : list xtransaction) (m : gmap string xtransaction) : gmap string xtransaction :=
  fold_left (fun m tx => delete (digest tx) m) l m.

Lemma indexes_erase_all l k m :
  indexes m (l ++ k) -> NoDup (digest <$> l ++ k) -> indexes (erase_all l m) k.
Proof.
  revert m. induction l as [|tx l IH]; intros m Hm Hn; cbn in *; [done|].
  apply IH; [by apply indexes_delete|]. by apply NoDup_cons in Hn as [].
Qed.

Lemma i32_add x k : i32 (i32 x + k) = i32 (x + k).
Proof.
  unfold i32.
  replace ((x + 2 ^ 31) mod 2 ^ 32 - 2 ^ 31 + k + 2 ^ 31) with ((x + 2 ^ 31) mod 2 ^ 32 + k) by lia.
  rewrite Z.add_mod_idemp_l by lia. do 2 f_equal. lia.
Qed.

Lemma origin_not_receipt tx :
  is_origin_tx tx = true ->
  (get_tx_subtype tx =? enum_transaction_subtype_recv) = false /\
  (get_tx_subtype tx =? enum_transaction_subtype_confirm) = false.
Proof. unfold is_origin_tx, is_send_tx, is_self_tx. intros [E|E]%orb_true_iff; apply Z.eqb_eq in E; by rewrite E. Qed.

Lemma pop_tx_events_origin l k a c :
  indexes (m_tx_map (a_obj a)) (l ++ k) -> NoDup (digest <$> l ++ k) ->
  Forall (fun e => is_origin_tx e = true) l -> a_send_num a = i32 c ->
  pop_tx_events l a =
    Acct (set_tx_map (erase_all l (m_tx_map (a_obj a))) (a_obj a)) (i32 (c - Z.of_nat (length l))).
Proof.
  revert a c. induction l as [|tx l IH]; intros [o n] c Hm Hn Hf Hc; cbn in Hm, Hn, Hc.
  - cbn. rewrite Hc, Z.sub_0_r. by destruct o.
  - apply Forall_cons in Hf as [Ho Hf]. unfold pop_tx_events. cbn [fold_left].
    assert (m_tx_map o !! digest tx = Some tx) as Hl by (apply Hm; split; [by left|done]).
    assert (pop_tx_event tx true (Acct o n) = Acct (set_tx_map (delete (digest tx) (m_tx_map o)) o) (i32 (c + -1))) as ->.
    { unfold pop_tx_event. cbn. rewrite Hl. destruct (origin_not_receipt tx Ho) as [-> ->].
      unfold send_tx_increment. cbn. by rewrite Hc, i32_add. }
    pose proof (indexes_delete _ _ _ Hm Hn) as Hm'. apply NoDup_cons in Hn as [_ Hn].
    etransitivity; [exact (IH (Acct (set_tx_map _ o) _) (c + -1) Hm' Hn Hf eq_refl)|]. cbn. do 2 f_equal. lia.
Qed.

Section Refine.
Context `{TxEnv} (base : Z).

Lemma rep_sends s a : represents base s a -> m_send_queue (a_obj a) = q_sends s.
Proof. by intros [<- _ _]. Qed.
Lemma rep_nonce s a : represents base s a -> m_latest_send_trans_number (a_obj a) = q_nonce s.
Proof. by intros [<- _ _]. Qed.

Lemma q_all_split i s : q_all s ≡ₚ drop i (q_sends s) ++ q_all (with_sends (take i (q_sends s)) s).
Proof.
  unfold q_all. cbn. rewrite <- (take_drop i (q_sends s)) at 1. rewrite <- !app_assoc.
  rewrite Permutation_app_swap_app. done.
Qed.

Lemma clear_by_iter_refines i s a :
  represents base s a -> queue_wf s ->
  represents base (with_sends (take i (q_sends s)) s) (clear_send_queue_by_iter i a).
Proof.
  intros R W. unfold clear_send_queue_by_iter. rewrite (rep_sends _ _ R).
  pose proof (rep_index _ _ _ R) as Hm. pose proof (wf_digests _ W) as Hn.
  rewrite (q_all_split i s) in Hm, Hn.
  erewrite pop_tx_events_origin; [|exact Hm|exact Hn|apply Forall_drop, W|apply R].
  split; cbn.
  - destruct R as [<- _ _]. done.
  - by apply indexes_erase_all.
  - f_equal. rewrite length_drop, length_take. lia.
Qed.

Lemma clear_expire_refines now s a :
  represents base s a -> queue_wf s -> represents base (spec_expire now s) (clear_expire_txs now a).
Proof.
  intros R W. unfold clear_expire_txs, spec_expire. rewrite (rep_sends _ _ R).
  destruct (q_sends s) as [|e q] eqn:E; [|rewrite <- E; by apply clear_by_iter_refines].
  cbn. replace (with_sends [] s) with s; [done|]. destruct s; cbn in *. by subst.
Qed.

(** ** Pushing *)

Lemma insert_send_refines tx s a :
  represents base s a -> digest tx ∉ digest <$> q_all s ->
  Forall (fun e => get_last_nonce e < get_last_nonce tx) (q_sends s) ->
  represents base (with_sends (q_sends s ++ [tx]) s) (insert_send_tx tx a).
Proof.
  intros R Hd Hlt. unfold insert_send_tx, send_tx_increment.
  assert (mset_insert sendtx_ltb tx (q_sends s) = q_sends s ++ [tx]) as E.
  { apply mset_insert_last. eapply Forall_impl; [exact Hlt|]. intros e He. cbn in He |- *.
    unfold sendtx_ltb. destruct (Z.eqb_spec (get_last_nonce tx) (get_last_nonce e)); [lia|].
    apply Z.ltb_ge. lia. }
  split; cbn.
  - destruct R as [<- _ _]. cbn in *. by rewrite E.
  - assert (q_all (with_sends (q_sends s ++ [tx]) s) ≡ₚ tx :: q_all s) as ->
      by (unfold q_all; cbn; rewrite <- app_assoc; by rewrite Permutation_middle).
    apply indexes_insert; [apply R|done].
  - rewrite (rep_count _ _ _ R), i32_add. f_equal. rewrite length_app. cbn. lia.
Qed.

Lemma nonces_below pos tx s :
  queue_wf s -> get_last_nonce tx = q_nonce s + Z.of_nat pos ->
  Forall (fun e => get_last_nonce e < get_last_nonce tx) (take pos (q_sends s)).
Proof.
  intros W Hn. apply Forall_lookup. intros i e Hi. apply lookup_take_Some in Hi as [Hi Hlt].
  rewrite (wf_nonce_at _ _ _ W Hi). lia.
Qed.

Lemma nonce_iter_wf pos n s :
  queue_wf s -> n = q_nonce s + Z.of_nat pos -> (pos < length (q_sends s))%nat -> nonce_iter n (q_sends s) = pos.
Proof.
  intros W -> Hp. pose proof (wf_nonce_at s) as Hat. specialize (fun i e => Hat i e W).
  revert pos Hat Hp. generalize (q_nonce s). induction (q_sends s) as [|e q IH]; intros k pos Hat Hp; cbn in *; [lia|].
  rewrite (Hat 0%nat e eq_refl), Z.add_0_r. destruct pos as [|pos]; [by rewrite Z.add_0_r, Z.eqb_refl|].
  destruct (Z.eqb_spec (k + Z.of_nat (S pos)) k); [lia|]. f_equal.
  replace (k + Z.of_nat (S pos)) with (k + 1 + Z.of_nat pos) by lia. apply IH; [|lia].
  intros i e' Hi. rewrite (Hat (S i) e' Hi). lia.
Qed.

Definition refines {R} (m : R * acct) (m' : R * aqueue) : Prop := m.1 = m'.1 /\ represents base m'.2 m.2.

Lemma push_fresh_refines tx s a :
  represents base s a -> queue_wf s ->
  q_nonce s <= get_last_nonce tx -> get_last_nonce tx + 1 < 2 ^ 64 -> digest tx ∉ digest <$> q_all s ->
  refines (push_new_send_tx tx a) (spec_push_new tx s).
Proof.
  intros R W Hge Hu Hd. unfold push_new_send_tx, spec_push_new. cbv zeta. rewrite (rep_sends _ _ R), (rep_nonce _ _ R).
  set (pos := Z.to_nat (get_last_nonce tx - q_nonce s)).
  assert (get_last_nonce tx = q_nonce s + Z.of_nat pos) as Hpos by lia.
  assert (m_latest_send_trans_hash (a_obj a) = q_hash s) as Eh by (by destruct R as [<- _ _]).
  assert (m_send_tx_queue_max_num (a_obj a) = q_max s) as Em by (by destruct R as [<- _ _]).
  unfold tail_hash. destruct (last (q_sends s)) as [e|] eqn:El.
  - destruct (wf_last _ _ W El) as [En Hlen]. pose proof (wf_width _ W) as Hw. pose proof (wf_nonce _ W) as [? ?].
    rewrite u64_small by (unfold is_u64; lia). rewrite En.
    rewrite (proj2 (Nat.ltb_lt 0 _) Hlen). cbn [andb].
    destruct (lt_eq_lt_dec pos (length (q_sends s))) as [[Hlt|Heq]|Hgt].
    + rewrite (proj2 (Z.eqb_neq _ _)), (proj2 (Z.ltb_ge _ _)), (proj2 (Nat.ltb_ge _ _)) by lia.
      unfold check_and_erase_old_nonce_duplicate_tx. rewrite (rep_sends _ _ R).
      rewrite (nonce_iter_wf pos) by done.
      destruct (q_sends s !! pos) as [f|] eqn:Ef; [|apply lookup_ge_None_1 in Ef; lia].
      destruct (get_fire_timestamp tx <? get_fire_timestamp f); [by split|]. cbv beta iota.
      change (failed xsuccess) with false. cbv iota.
      pose proof (clear_by_iter_refines pos s a R W) as R'.
      assert (m_send_tx_queue_max_num (a_obj (clear_send_queue_by_iter pos a)) = q_max s) as ->
        by (by destruct R' as [E' _ _]; apply (f_equal q_max) in E').
      rewrite (rep_sends _ _ R'). cbn [q_sends with_sends]. rewrite length_take, Nat.min_l by lia.
      destruct (q_max s <=? Z.of_nat pos); [by split|]. split; [done|].
      apply (insert_send_refines tx (with_sends (take pos (q_sends s)) s)); [done| |by apply nonces_below].
      intros Hin. apply Hd. rewrite (q_all_split pos s), fmap_app. apply elem_of_app. by right.
    + rewrite Heq, (proj2 (Z.eqb_eq _ _)), (proj2 (Nat.ltb_ge _ _)) by lia.
      rewrite (proj2 (lookup_ge_None (q_sends s) _)) by lia. unfold check_send_tx.
      destruct (check_last_trans_hash tx (digest e)); cbn; [|by split].
      rewrite Em, (rep_sends _ _ R). destruct (_ <=? _); [by split|]. split; [done|].
      apply insert_send_refines; [done|done|].
      rewrite <- (firstn_all (q_sends s)), <- Heq. by apply nonces_below.
    + rewrite (proj2 (Z.eqb_neq _ _)), (proj2 (Z.ltb_lt _ _)), (proj2 (Nat.ltb_lt _ _)) by lia. by split.
  - apply last_None in El. rewrite El. cbn. destruct (Z.eqb_spec (get_last_nonce tx) (q_nonce s)) as [E|E]; cbn.
    + assert (pos = 0%nat) as -> by lia. cbn. unfold check_send_tx. rewrite Eh.
      destruct (check_last_trans_hash tx (q_hash s)); cbn; [|by split]. split; [done|].
      pose proof (insert_send_refines tx s a R Hd) as Hi. rewrite El in Hi. apply Hi. constructor.
    + destruct pos as [|p] eqn:Ep; [lia|]. cbn. by split.
Qed.

Lemma push_send_refines tx s a :
  represents base s a -> queue_wf s -> get_last_nonce tx + 1 < 2 ^ 64 ->
  refines (push_send_tx tx a) (spec_push_send tx s).
Proof.
  intros R W Hu. unfold push_send_tx, spec_push_send. rewrite (rep_nonce _ _ R).
  destruct (get_last_nonce tx <? q_nonce s) eqn:E0; [by split|]. apply Z.ltb_ge in E0.
  pose proof (clear_expire_refines (get_push_pool_timestamp tx) s a R W) as R'.
  pose proof (spec_expire_wf (get_push_pool_timestamp tx) s W) as W'.
  assert (q_nonce (spec_expire (get_push_pool_timestamp tx) s) = q_nonce s) as En by done.
  revert R' W' En. generalize (spec_expire (get_push_pool_timestamp tx) s) as t,
    (clear_expire_txs (get_push_pool_timestamp tx) a) as b. intros t b R' W' En.
  rewrite (indexes_waits _ _ _ (rep_index _ _ _ R')).
  destruct (m_tx_map (a_obj b) !! digest tx) eqn:E1; [by rewrite bool_decide_eq_true_2|].
  rewrite bool_decide_eq_false_2 by (by intros []).
  apply push_fresh_refines; [done|done|by rewrite En|done|].
  intros (e & Hd & He)%list_elem_of_fmap. assert (m_tx_map (a_obj b) !! digest tx = Some e); [|congruence].
  by apply (rep_index _ _ _ R').
Qed.

(** ** Receipts *)

Lemma fresh_of_lookup s a d :
  represents base s a -> m_tx_map (a_obj a) !! d = None -> d ∉ digest <$> q_all s.
Proof.
  intros R E (e & Hd & He)%list_elem_of_fmap.
  assert (m_tx_map (a_obj a) !! d = Some e); [by apply (rep_index _ _ _ R)|congruence].
Qed.

Lemma push_recv_refines tx s a : represents base s a -> refines (push_recv_tx tx a) (spec_push_recv tx s).
Proof.
  intros R. unfold push_recv_tx, spec_push_recv. rewrite (indexes_waits _ _ _ (rep_index _ _ _ R)).
  destruct (m_tx_map (a_obj a) !! digest tx) eqn:E1; [by rewrite bool_decide_eq_true_2|].
  rewrite bool_decide_eq_false_2 by (by intros []). split; [done|].
  pose proof (fresh_of_lookup _ _ _ R E1) as Hd. split; cbn; [by destruct R as [<- _ _]| |apply R].
  assert (q_all (with_recvs (mset_insert recvtx_ltb tx (q_recvs s)) s) ≡ₚ tx :: q_all s) as ->
    by (unfold q_all; cbn; rewrite mset_insert_perm; cbn; by rewrite <- Permutation_middle).
  apply indexes_insert; [apply R|done].
Qed.

Lemma push_ack_refines tx s a : represents base s a -> refines (push_recv_ack_tx tx a) (spec_push_ack tx s).
Proof.
  intros R. unfold push_recv_ack_tx, spec_push_ack. rewrite (indexes_waits _ _ _ (rep_index _ _ _ R)).
  destruct (m_tx_map (a_obj a) !! digest tx) eqn:E1; [by rewrite bool_decide_eq_true_2|].
  rewrite bool_decide_eq_false_2 by (by intros []). split; [done|].
  pose proof (fresh_of_lookup _ _ _ R E1) as Hd. split; cbn; [by destruct R as [<- _ _]| |apply R].
  assert (q_all (with_acks (mset_insert recvtx_ltb tx (q_acks s)) s) ≡ₚ tx :: q_all s) as ->
    by (unfold q_all; cbn; by rewrite mset_insert_perm, <- !Permutation_middle).
  apply indexes_insert; [apply R|done].
Qed.

(** ** Removal by hash *)

Lemma unique_digest l i j e f :
  NoDup (digest <$> l) -> l !! i = Some e -> l !! j = Some f -> digest f = digest e -> j = i.
Proof.
  intros Hn Hi Hj E. eapply NoDup_lookup; [exact Hn| |]; rewrite list_lookup_fmap, ?Hi, ?Hj; cbn; by rewrite ?E.
Qed.

Lemma range_find_spec ltb l i e :
  NoDup (digest <$> l) -> l !! i = Some e -> (lower_bound ltb e l <= i < upper_bound ltb e l)%nat ->
  range_find ltb e (digest e) l = Some (i, e).
Proof.
  intros Hn Hi Hr. unfold range_find. rewrite (find_in_range_unique _ _ _ _ i e Hi); [by rewrite Hi| |done|].
  - by apply bool_decide_eq_true_2.
  - intros j f Hj Hd%bool_decide_eq_true_1. by eapply unique_digest.
Qed.

Lemma before_at l i e : NoDup (digest <$> l) -> l !! i = Some e -> before (digest e) l = take i l.
Proof.
  revert i. induction l as [|f l IH]; intros [|i] Hn Hi; cbn in *; [done..| |].
  - simplify_eq. by rewrite bool_decide_eq_true_2.
  - apply NoDup_cons in Hn as [Hf Hn]. rewrite bool_decide_eq_false_2; [by rewrite (IH i)|].
    intros E. apply Hf. rewrite E. by eapply list_elem_of_fmap_2, list_elem_of_lookup_2.
Qed.

Lemma without_fresh d l : d ∉ digest <$> l -> without d l = l.
Proof.
  induction l as [|f l IH]; cbn; [done|]. rewrite not_elem_of_cons. intros [Hne Hd].
  rewrite bool_decide_eq_false_2 by congruence. cbn. f_equal. by apply IH.
Qed.

Lemma without_at l i e : NoDup (digest <$> l) -> l !! i = Some e -> without (digest e) l = delete i l.
Proof.
  revert i. induction l as [|f l IH]; intros [|i] Hn Hi; cbn in *; [done..| |].
  - simplify_eq. rewrite bool_decide_eq_true_2 by done. cbn. apply NoDup_cons in Hn as [Hf _]. by apply without_fresh.
  - apply NoDup_cons in Hn as [Hf Hn]. rewrite bool_decide_eq_false_2; [cbn; f_equal; by apply IH|].
    intros E. apply Hf. rewrite E. by eapply list_elem_of_fmap_2, list_elem_of_lookup_2.
Qed.

Lemma origin_in_sends s e : queue_wf s -> e ∈ q_all s -> is_origin_tx e = true -> e ∈ q_sends s.
Proof.
  intros W. unfold q_all. rewrite !elem_of_app. intros [He|[He|He]] Ho; [done| |]; exfalso.
  - pose proof (proj1 (Forall_forall _ _) (wf_recvs s W) e He) as Hk. cbn in Hk.
    destruct (origin_not_receipt e Ho) as [Hf _]. unfold is_recv_tx in Hk. congruence.
  - pose proof (proj1 (Forall_forall _ _) (wf_acks s W) e He) as Hk. cbn in Hk.
    destruct (origin_not_receipt e Ho) as [_ Hf]. unfold is_confirm_tx in Hk. congruence.
Qed.
Lemma recv_in_recvs s e : queue_wf s -> e ∈ q_all s -> is_recv_tx e = true -> e ∈ q_recvs s.
Proof.
  intros W. unfold q_all. rewrite !elem_of_app. intros [He|[He|He]] Ho; [|done|]; exfalso.
  - pose proof (proj1 (Forall_forall _ _) (wf_sends s W) e He) as Hk. cbn in Hk.
    destruct (origin_not_receipt e Hk) as [Hf _]. unfold is_recv_tx in Ho. congruence.
  - pose proof (proj1 (Forall_forall _ _) (wf_acks s W) e He) as Hk. cbn in Hk.
    unfold is_recv_tx, is_confirm_tx in *. apply Z.eqb_eq in Hk, Ho. rewrite Hk in Ho. done.
Qed.
Lemma ack_in_acks s e :
  queue_wf s -> e ∈ q_all s -> is_origin_tx e = false -> is_recv_tx e = false ->
  e ∈ q_acks s /\ is_confirm_tx e = true.
Proof.
  intros W. unfold q_all. rewrite !elem_of_app. intros [He|[He|He]] H1 H2.
  - pose proof (proj1 (Forall_forall _ _) (wf_sends s W) e He) as Hk. cbn in Hk. congruence.
  - pose proof (proj1 (Forall_forall _ _) (wf_recvs s W) e He) as Hk. cbn in Hk. congruence.
  - split; [done|]. exact (proj1 (Forall_forall _ _) (wf_acks s W) e He).
Qed.

Lemma nodup_parts s : queue_wf s ->
  NoDup (digest <$> q_sends s) /\ NoDup (digest <$> q_recvs s) /\ NoDup (digest <$> q_acks s).
Proof.
  intros W. pose proof (wf_digests s W) as Hn. unfold q_all in Hn. rewrite !fmap_app in Hn.
  apply NoDup_app in Hn as (? & _ & Hn). apply NoDup_app in Hn as (? & _ & ?). done.
Qed.

Lemma send_bounds s i e :
  queue_wf s -> q_sends s !! i = Some e ->
  lower_bound sendtx_ltb e (q_sends s) = i /\ upper_bound sendtx_ltb e (q_sends s) = S i.
Proof.
  intros W Hi. apply (bounds_at _ _ _ _ e); [done| | | |]; unfold sendtx_ltb.
  1,2: rewrite Z.eqb_refl; apply Z.ltb_irrefl.
  - intros j z Hj Hz. rewrite (wf_nonce_at _ _ _ W Hi), (wf_nonce_at _ _ _ W Hz).
    rewrite (proj2 (Z.eqb_neq _ _)), (proj2 (Z.ltb_lt _ _)) by lia.
    rewrite (proj2 (Z.eqb_neq _ _)), (proj2 (Z.ltb_ge _ _)) by lia. done.
  - intros j z Hj Hz. rewrite (wf_nonce_at _ _ _ W Hi), (wf_nonce_at _ _ _ W Hz).
    rewrite (proj2 (Z.eqb_neq _ _)) by lia. apply Z.ltb_lt. lia.
Qed.

Lemma recv_bounds l i e :
  mset_sorted recvtx_ltb l -> l !! i = Some e -> (lower_bound recvtx_ltb e l <= i < upper_bound recvtx_ltb e l)%nat.
Proof. intros Hs Hi. eapply equal_range_elem; [apply _|done|exact Hi|apply Z.ltb_irrefl|apply Z.ltb_irrefl]. Qed.

Lemma pop_send_refines i e s a :
  represents base s a -> queue_wf s -> q_sends s !! i = Some e -> is_origin_tx e = true ->
  represents base (with_sends (take i (q_sends s)) s)
    (let a := on_obj (fun o => set_tx_map (delete (digest e) (m_tx_map o)) o) a in
     let q := m_send_queue (a_obj a) in
     match range_find sendtx_ltb e (digest e) q with
     | Some (i, e') =>
         let a := pop_tx_event e' false a in
         let a := on_obj (set_send_queue (delete i q)) a in
         clear_send_queue_by_iter (upper_bound sendtx_ltb e q - 1) a
     | None => a
     end).
Proof.
  intros R W Hi Ho. cbv zeta. cbn [a_obj on_obj m_send_queue set_tx_map]. rewrite (rep_sends _ _ R).
  destruct (send_bounds _ _ _ W Hi) as [El Eu].
  rewrite (range_find_spec _ _ i), Eu by (first [apply nodup_parts; done|done|rewrite El, Eu; lia]).
  pose proof (lookup_lt_Some _ _ _ Hi) as Hlt.
  unfold pop_tx_event. destruct (origin_not_receipt e Ho) as [-> ->].
  unfold clear_send_queue_by_iter, send_tx_increment. cbn [a_obj on_obj m_send_queue set_send_queue a_send_num].
  replace (S i - 1)%nat with i by lia.
  assert (take i (delete i (q_sends s)) = take i (q_sends s)) as -> by (rewrite delete_take_drop, take_app_length'; [done|rewrite length_take; lia]).
  assert (drop i (delete i (q_sends s)) = drop (S i) (q_sends s)) as -> by (rewrite delete_take_drop, drop_app_length'; [done|rewrite length_take; lia]).
  pose proof (rep_index _ _ _ R) as Hm. pose proof (wf_digests _ W) as Hn.
  rewrite (q_all_split i s), (drop_S _ _ _ Hi) in Hm, Hn. cbn [app] in Hm, Hn.
  pose proof (indexes_delete _ _ _ Hm Hn) as Hm'. cbn in Hn. apply NoDup_cons in Hn as [_ Hn].
  erewrite pop_tx_events_origin; [|exact Hm'|exact Hn|apply Forall_drop, W|cbn; rewrite (rep_count _ _ _ R), i32_add; done].
  split; cbn; [by destruct R as [<- _ _]|by apply indexes_erase_all|].
  f_equal. rewrite length_drop, length_take. lia.
Qed.

Lemma q_all_recv i e s : q_recvs s !! i = Some e -> q_all s ≡ₚ e :: q_all (with_recvs (delete i (q_recvs s)) s).
Proof.
  intros Hi. unfold q_all. cbn. transitivity (q_sends s ++ (e :: delete i (q_recvs s)) ++ q_acks s).
  - by apply Permutation_app_head, Permutation_app_tail, delete_Permutation.
  - symmetry. apply Permutation_middle.
Qed.
Lemma q_all_ack i e s : q_acks s !! i = Some e -> q_all s ≡ₚ e :: q_all (with_acks (delete i (q_acks s)) s).
Proof.
  intros Hi. unfold q_all. cbn. transitivity (q_sends s ++ q_recvs s ++ e :: delete i (q_acks s)).
  - by apply Permutation_app_head, Permutation_app_head, delete_Permutation.
  - by rewrite <- !Permutation_middle.
Qed.

Lemma pop_hash_refines d st s a :
  represents base s a -> queue_wf s -> refines (pop_tx_by_hash d st a) (spec_pop d st s).
Proof.
  intros R W. pose proof (rep_index _ _ _ R) as Hm. destruct (nodup_parts s W) as (_ & Hnr & Hna).
  unfold pop_tx_by_hash, spec_pop, spec_find. rewrite <- (indexes_find _ _ _ Hm).
  destruct (m_tx_map (a_obj a) !! d) as [e|] eqn:E; [|by split].
  destruct (get_tx_subtype e =? st); cbn [negb]; [|by split]. split; [done|]. cbn [snd].
  apply Hm in E as [He <-].
  change ((get_tx_subtype e =? enum_transaction_subtype_send) || (get_tx_subtype e =? enum_transaction_subtype_self))
    with (is_origin_tx e).
  change (get_tx_subtype e =? enum_transaction_subtype_recv) with (is_recv_tx e).
  change (get_tx_subtype e =? enum_transaction_subtype_confirm) with (is_confirm_tx e).
  destruct (is_origin_tx e) eqn:Eo.
  - pose proof (origin_in_sends _ _ W He Eo) as [i Hi]%list_elem_of_lookup.
    rewrite (before_at _ i) by (done || apply nodup_parts; done). by apply pop_send_refines.
  - cbn [a_obj on_obj m_recv_queue m_recv_ack_queue set_tx_map].
    assert (m_recv_queue (a_obj a) = q_recvs s) as -> by (by destruct R as [<- _ _]).
    assert (m_recv_ack_queue (a_obj a) = q_acks s) as -> by (by destruct R as [<- _ _]).
    destruct (is_recv_tx e) eqn:Er.
    + pose proof (recv_in_recvs _ _ W He Er) as [i Hi]%list_elem_of_lookup.
      rewrite (range_find_spec _ _ i) by (first [done|apply recv_bounds; [apply W|done]]).
      rewrite (without_at _ i) by done. unfold pop_tx_event. unfold is_recv_tx in Er. rewrite Er.
      split; cbn; [by destruct R as [<- _ _]| |apply R]. apply indexes_delete.
      * by rewrite <- (q_all_recv i e s Hi).
      * rewrite <- (q_all_recv i e s Hi). apply W.
    + destruct (ack_in_acks _ _ W He Eo Er) as [[i Hi]%list_elem_of_lookup Ec]. rewrite Ec.
      rewrite (range_find_spec _ _ i) by (first [done|apply recv_bounds; [apply W|done]]).
      rewrite (without_at _ i) by done. unfold pop_tx_event. unfold is_recv_tx, is_confirm_tx in Er, Ec. rewrite Er, Ec.
      split; cbn; [by destruct R as [<- _ _]| |apply R]. apply indexes_delete.
      * by rewrite <- (q_all_ack i e s Hi).
      * rewrite <- (q_all_ack i e s Hi). apply W.
Qed.

(** ** Advancing and reading *)

Lemma stale_iter_wf n s :
  queue_wf s -> q_nonce s <= n ->
  take (stale_iter n (q_sends s)) (q_sends s) = take (Z.to_nat (n - q_nonce s)) (q_sends s) /\
  drop (stale_iter n (q_sends s)) (q_sends s) = drop (Z.to_nat (n - q_nonce s)) (q_sends s).
Proof.
  intros W Hn. pose proof (wf_nonce_at s) as Hat. specialize (fun i e => Hat i e W).
  revert Hn Hat. generalize (q_nonce s). induction (q_sends s) as [|e q IH]; intros k Hn Hat.
  - by rewrite !take_nil, !drop_nil.
  - cbn. rewrite (Hat 0%nat e eq_refl), Z.add_0_r. destruct (Z.ltb_spec k n).
    + replace (Z.to_nat (n - k)) with (S (Z.to_nat (n - (k + 1)))) by lia. cbn.
      destruct (IH (k + 1)) as [-> ->]; [lia| |done]. intros i f Hi. rewrite (Hat (S i) f Hi). lia.
    + by replace (Z.to_nat (n - k)) with 0%nat by lia.
Qed.

Lemma q_all_advance n h i s :
  q_all s ≡ₚ take i (q_sends s) ++ q_all (with_sends (drop i (q_sends s)) (with_latest n h s)).
Proof. unfold q_all. cbn. rewrite <- (take_drop i (q_sends s)) at 1. by rewrite <- app_assoc. Qed.

Lemma update_refines n h s a :
  represents base s a -> queue_wf s -> is_u64 n ->
  refines (update_latest_send_trans_number_hash n h a) (spec_update n h s).
Proof.
  intros R W Hu. unfold update_latest_send_trans_number_hash, spec_update. rewrite (rep_nonce _ _ R).
  destruct (Z.ltb_spec n (q_nonce s)) as [|Hge]; [by split|]. destruct (n =? q_nonce s); [by split|].
  cbv zeta. cbn [a_obj on_obj m_send_queue set_latest]. rewrite (rep_sends _ _ R).
  destruct (stale_iter_wf n s W Hge) as [-> ->]. set (i := Z.to_nat (n - q_nonce s)).
  pose proof (rep_index _ _ _ R) as Hm. pose proof (wf_digests _ W) as Hn.
  rewrite (q_all_advance n h i s) in Hm, Hn.
  erewrite pop_tx_events_origin; [|exact Hm|exact Hn|apply Forall_take, W|apply R].
  cbn [a_obj on_obj m_send_queue set_send_queue m_tx_map set_latest].
  set (b := on_obj _ _). pose proof (wf_advance n h i s W Hu Hge eq_refl) as W'.
  assert (represents base (with_sends (drop i (q_sends s)) (with_latest n h s)) b) as R'.
  { split; cbn; [by destruct R as [<- _ _]|by apply indexes_erase_all|].
    f_equal. rewrite length_drop, length_take. lia. }
  destruct (drop i (q_sends s)) as [|e q] eqn:E; [by split|]. unfold check_send_tx.
  destruct (check_last_trans_hash e h); [by split|]. split; [done|].
  exact (clear_by_iter_refines 0 _ b R' W').
Qed.

Lemma get_refines n h s a :
  represents base s a -> queue_wf s -> is_u64 n -> refines (get_cons_txs n h a) (spec_get n h s).
Proof.
  intros R W Hn. unfold get_cons_txs, spec_get, get_recv_ack_txs, get_recv_txs.
  assert (m_recv_queue (a_obj a) = q_recvs s) as -> by (by destruct R as [<- _ _]).
  assert (m_recv_ack_queue (a_obj a) = q_acks s) as -> by (by destruct R as [<- _ _]).
  destruct (take_ack_txs _ _ _); [|by split]. destruct (take_transfer_txs _ _ (q_recvs s)); [|by split].
  unfold get_send_txs. destruct (update_refines n h s a R W Hn) as [E R'].
  destruct (update_latest_send_trans_number_hash n h a) as [ok b], (spec_update n h s) as [ok' t]. cbn in *. subst ok'.
  destruct ok; cbn; [|by split]. split; [|done]. cbn. by rewrite (rep_sends _ _ R').
Qed.

Lemma unit_refines txs n h s a :
  represents base s a -> queue_wf s -> is_u64 n -> Forall (fun t => is_u64 (ut_nonce t)) (default [] txs) ->
  represents base (spec_unit txs n h s) (on_unit_to_db txs n h a).
Proof.
  intros R W Hn Hf. unfold on_unit_to_db, spec_unit.
  destruct txs as [txs|]; [|by apply update_refines]. cbn in Hf.
  assert (forall s a, represents base s a -> queue_wf s ->
    represents base (fold_left (fun s tx => snd (spec_pop (ut_hash tx) (ut_subtype tx) s)) txs s)
      (fold_left (fun a tx => snd (pop_tx_by_hash (ut_hash tx) (ut_subtype tx) a)) txs a)) as Hpops.
  { clear -R. induction txs as [|t txs IH]; intros s' a' R' W'; cbn; [done|].
    apply IH; [by apply pop_hash_refines|by apply spec_pop_wf]. }
  specialize (Hpops s a R W). pose proof (spec_pops_wf txs s W) as W'.
  destruct (get_send_trans_info txs) as [number hash] eqn:E.
  pose proof (send_trans_info_u64 _ _ _ Hf E) as Hnum. unfold is_u64 in *.
  destruct (Z.ltb_spec n number).
  - rewrite (proj2 (Z.eqb_neq number 0)) by lia. cbn. by apply update_refines.
  - rewrite andb_false_r. by apply update_refines.
Qed.

Lemma step_refines op s a :
  represents base s a -> queue_wf s -> op_ok op -> refines (account_step op a) (spec_op op s).
Proof.
  intros R W. destruct op; cbn.
  - intros (_ & _ & Hu). destruct (push_send_refines tx s a R W Hu).
    by destruct (push_send_tx tx a), (spec_push_send tx s); cbn in *; subst.
  - intros _. destruct (push_recv_refines tx s a R).
    by destruct (push_recv_tx tx a), (spec_push_recv tx s); cbn in *; subst.
  - intros _. destruct (push_ack_refines tx s a R).
    by destruct (push_recv_ack_tx tx a), (spec_push_ack tx s); cbn in *; subst.
  - intros []. split; [done|]. by apply unit_refines.
  - intros Hn. destruct (get_refines n h s a R W Hn).
    by destruct (get_cons_txs n h a), (spec_get n h s); cbn in *; subst.
  - intros _. split; [done|]. by apply clear_expire_refines.
  - intros _. destruct (pop_hash_refines d subtype s a R W).
    by destruct (pop_tx_by_hash d subtype a), (spec_pop d subtype s); cbn in *; subst.
Qed.
End Refine.
