(* ===== verification/AccountProps.v ===== *)
(** * What the account object guarantees

    Theorems about every account object that calls from its creation on can
    produce: it is the queue of consecutive nonces of [AccountSpec], its index
    and counter are exact, what it hands to the leader is what a backup
    accepts as long as replacements refer to their predecessors, and what
    happens when they do not or when a unit commits. *)

From stdpp Require Import prelude gmap strings.
From Stdlib Require Import ZArith Lia.
From S2P Require Import Prelude StdMap TxData AccountObj AccountSpec AccountWf AccountRefine.

Section Runs.
Context `{TxEnv}.

Fixpoint run_account (ops : list account_op) (a : acct) : list account_res * acct :=
  match ops with
  | [] => ([], a)
  | op :: ops =>
      let '(r, a) := account_step op a in
      let '(rs, a) := run_account ops a in (r :: rs, a)
  end.

Fixpoint run_spec (ops : list account_op) (s : aqueue) : list account_res * aqueue :=
  match ops with
  | [] => ([], s)
  | op :: ops =>
      let '(r, s) := spec_op op s in
      let '(rs, s) := run_spec ops s in (r :: rs, s)
  end.

Definition empty_queue (address : string) (n : Z) (h : string) : aqueue :=
  AQueue address account_send_queue_tx_max_num n h [] [] [].

Lemma empty_queue_wf address n h : is_u64 n -> queue_wf (empty_queue address n h).
Proof. intros Hn. split; cbn; try done; try constructor; unfold is_u64 in *; lia. Qed.

Lemma new_account_represents base address n h :
  represents base (empty_queue address n h) (Acct (new_accountobj address n h) (i32 base)).
Proof.
  split; cbn; [done| |by rewrite Z.add_0_r]. intros d tx. rewrite lookup_empty. split; [done|].
  by intros [?%elem_of_nil _].
Qed.

Lemma run_refines base ops s a :
  represents base s a -> queue_wf s -> Forall op_ok ops ->
  refines base (run_account ops a) (run_spec ops s) /\ queue_wf (run_spec ops s).2.
Proof.
  intros R W Hok. revert s a R W. induction Hok as [|op ops Hop Hok IH]; intros s a R W; cbn; [split; [by split|done]|].
  destruct (step_refines base op s a R W Hop) as [E R']. pose proof (spec_op_wf op s W Hop) as W'.
  destruct (account_step op a) as [r b], (spec_op op s) as [r' t]. cbn in *. subst r'.
  destruct (IH t b R' W') as [[E R''] W'']. destruct (run_account ops b), (run_spec ops t). cbn in *. subst. done.
Qed.

(** The account objects that calls produce from a new one. *)
Definition reached (base : Z) (a : acct) : Prop :=
  exists address n h ops, is_u64 n /\ Forall op_ok ops /\
    a = (run_account ops (Acct (new_accountobj address n h) (i32 base))).2.

Lemma reached_represents base a : reached base a -> represents base (abs_account (a_obj a)) a /\ queue_wf (abs_account (a_obj a)).
Proof.
  intros (address & n & h & ops & Hn & Hok & ->).
  destruct (run_refines base ops _ _ (new_account_represents base address n h) (empty_queue_wf _ _ _ Hn) Hok) as [[_ R] W].
  pose proof (rep_abs _ _ _ R) as E. rewrite E. done.
Qed.

Lemma reached_step base op a : reached base a -> op_ok op -> reached base (account_step op a).2.
Proof.
  intros (address & n & h & ops & Hn & Hok & ->) Hop. exists address, n, h, (ops ++ [op]).
  split_and!; [done|by apply Forall_app; repeat constructor|].
  generalize (Acct (new_accountobj address n h) (i32 base)) as a0. clear Hok.
  induction ops as [|op' ops IH]; intros a0; cbn.
  - by destruct (account_step op a0).
  - destruct (account_step op' a0) as [r b]. specialize (IH b).
    destruct (run_account ops b), (run_account (ops ++ [op]) b). cbn in *. done.
Qed.

(** C26. Whatever calls an account object receives, their results and the
    resulting queues are those of the abstract account, in which a pushed
    transaction is placed by its distance from the account's nonce: too old
    below it, out of order beyond the end, checked against its predecessor at
    the end, replacing the entry of the same nonce and all later ones
    elsewhere; removal cuts the queue there, a new nonce cuts its front.  The
    multisets, iterators, index and counter implement it, and the abstract
    account stays well formed. *)
Theorem account_refines_queue base address n h ops :
  is_u64 n -> Forall op_ok ops ->
  let '(rs, a) := run_account ops (Acct (new_accountobj address n h) (i32 base)) in
  let '(rs', s) := run_spec ops (empty_queue address n h) in
  rs = rs' /\ represents base s a /\ queue_wf s.
Proof.
  intros Hn Hok.
  destruct (run_refines base ops _ _ (new_account_represents base address n h) (empty_queue_wf _ _ _ Hn) Hok) as [[E R] W].
  destruct (run_account ops _), (run_spec ops _). cbn in *. done.
Qed.

(** In every account object the waiting transactions continue the account's
    nonce without gap or repetition and within the configured number, each
    queue holds only its kind, a query by hash finds exactly the queued
    transactions, no two of which share a hash, and the table's counter is
    exactly the others' share plus this queue's length. *)
Theorem account_queue_consistent base a :
  reached base a ->
  let o := a_obj a in
  get_last_nonce <$> m_send_queue o = seqZ (m_latest_send_trans_number o) (Z.of_nat (length (m_send_queue o))) /\
  Z.of_nat (length (m_send_queue o)) <= Z.max 1 (m_send_tx_queue_max_num o) /\
  Forall (fun e => is_origin_tx e = true) (m_send_queue o) /\
  Forall (fun e => is_recv_tx e = true) (m_recv_queue o) /\
  Forall (fun e => is_confirm_tx e = true) (m_recv_ack_queue o) /\
  NoDup (digest <$> m_send_queue o ++ m_recv_queue o ++ m_recv_ack_queue o) /\
  (forall d tx, query_tx o d = Some tx <->
     tx ∈ m_send_queue o ++ m_recv_queue o ++ m_recv_ack_queue o /\ digest tx = d) /\
  a_send_num a = i32 (base + Z.of_nat (length (m_send_queue o))).
Proof.
  intros [R W]%reached_represents. cbv zeta. split_and!; try apply W; [|apply R].
  intros d tx. apply (rep_index _ _ _ R).
Qed.

(** ** Hash chains *)

Fixpoint chained (h : string) (q : list xtransaction) : Prop :=
  match q with
  | [] => True
  | e :: q' => check_last_trans_hash e h = true /\ chained (digest e) q'
  end.

Definition end_hash (h : string) (q : list xtransaction) : string :=
  match last q with Some e => digest e | None => h end.

Lemma end_hash_cons h e q : end_hash h (e :: q) = end_hash (digest e) q.
Proof. unfold end_hash. rewrite last_cons. by destruct (last q). Qed.

Lemma chained_app h q q' : chained h (q ++ q') <-> chained h q /\ chained (end_hash h q) q'.
Proof.
  revert h. induction q as [|e q IH]; intros h; [by split; [|intros []]|].
  cbn [app chained]. rewrite IH, end_hash_cons. tauto.
Qed.
Lemma chained_take i h q : chained h q -> chained h (take i q).
Proof. intros Hc. rewrite <- (take_drop i q) in Hc. by apply chained_app in Hc as []. Qed.

Lemma chained_drop h i q e q' : chained h q -> drop i q = e :: q' -> chained (digest e) q'.
Proof. intros Hc E. rewrite <- (take_drop i q), E in Hc. by apply chained_app in Hc as (_ & _ & Hc). Qed.

(** A replacement refers to the transaction before its position. *)
Definition replacement_chained (op : account_op) (s : aqueue) : Prop :=
  match op with
  | OpPushSend tx =>
      let s := spec_expire (get_push_pool_timestamp tx) s in
      let pos := Z.to_nat (get_last_nonce tx - q_nonce s) in
      (pos < length (q_sends s))%nat ->
      check_last_trans_hash tx (end_hash (q_hash s) (take pos (q_sends s))) = true
  | _ => True
  end.

Definition queue_chained (s : aqueue) : Prop := chained (q_hash s) (q_sends s).

Lemma spec_update_chained n h s : queue_chained s -> queue_chained (spec_update n h s).2.
Proof.
  unfold queue_chained, spec_update. intros Hc. destruct (n <? q_nonce s); [done|]. destruct (n =? q_nonce s); [done|].
  cbn. destruct (drop _ _) as [|e q] eqn:E; [done|]. destruct (check_last_trans_hash e h) eqn:Eh; [|done].
  split; [done|]. by eapply chained_drop.
Qed.

Lemma spec_pop_chained d st s : queue_chained s -> queue_chained (spec_pop d st s).2.
Proof.
  unfold spec_pop. destruct (spec_find d st s) as [e|]; [|done]. intros Hc. cbn.
  destruct (is_origin_tx e); [|by destruct (is_recv_tx e)]. unfold queue_chained in *. cbn.
  destruct (before_take d (q_sends s)) as [i ->]. by apply chained_take.
Qed.

Lemma spec_op_chained op s : queue_chained s -> replacement_chained op s -> queue_chained (spec_op op s).2.
Proof.
  intros Hc. destruct op; cbn -[spec_push_send replacement_chained].
  - unfold replacement_chained. cbv zeta. intros Hr. unfold spec_push_send. destruct (_ <? _); [done|].
    assert (queue_chained (spec_expire (get_push_pool_timestamp tx) s)) as Hc' by by apply chained_take.
    revert Hc' Hr. generalize (spec_expire (get_push_pool_timestamp tx) s). intros t Hc' Hr.
    destruct (waits _ _); [done|]. unfold spec_push_new. destruct (_ <? _)%nat; [done|].
    destruct (q_sends t !! _) as [e|] eqn:E.
    + destruct (_ <? _); [done|]. destruct (_ && _); [by apply chained_take|]. unfold queue_chained. cbn.
      apply chained_app. split; [by apply chained_take|]. split; [|done]. apply Hr. by eapply lookup_lt_Some.
    + destruct (check_last_trans_hash tx (tail_hash t)) eqn:Eh; [|done]. cbn. destruct (_ && _); [done|].
      unfold queue_chained. cbn. apply chained_app. by repeat split.
  - intros _. unfold spec_push_recv. by destruct (waits _ _).
  - intros _. unfold spec_push_ack. by destruct (waits _ _).
  - intros _. unfold spec_unit. destruct light_txs as [txs|]; [|by apply spec_update_chained].
    assert (forall s, queue_chained s ->
      queue_chained (fold_left (fun s tx => snd (spec_pop (ut_hash tx) (ut_subtype tx) s)) txs s)) as Hp.
    { induction txs as [|t txs IH]; intros s' Hs'; cbn; [done|]. apply IH. by apply spec_pop_chained. }
    destruct (get_send_trans_info txs) as [number hash]. destruct (n <? number); apply spec_update_chained; auto.
  - intros _. unfold spec_get. destruct (take_ack_txs _ _ _); [|done]. destruct (take_transfer_txs _ _ (q_recvs s)); [|done].
    pose proof (spec_update_chained n h s Hc) as Hu. by destruct (spec_update n h s).
  - intros _. by apply chained_take.
  - intros _. pose proof (spec_pop_chained d subtype s Hc) as Hp. by destruct (spec_pop d subtype s).
Qed.

(** ** What a backup checks *)

(** The nonce check of [txs_validity_check_backup] over a batch of send transactions. *)
Fixpoint nonces_continous (last_nonce : Z) (last_hash : string) (txs : list xtransaction) : bool :=
  match txs with
  | [] => true
  | tx :: txs =>
      match nonce_continous last_nonce last_hash tx with
      | Some (n, h) => nonces_continous n h txs
      | None => false
      end
  end.

(** Every transaction refers to the one before it, the first to the account's last. *)
Definition follow_each_other (n : Z) (h : string) (q : list xtransaction) : Prop :=
  (forall e, q !! 0%nat = Some e -> get_last_nonce e = n /\ get_last_hash e = xxh64_digest h) /\
  (forall i e e', q !! i = Some e -> q !! S i = Some e' ->
     get_last_nonce e' = u64 (get_last_nonce e + 1) /\ get_last_hash e' = xxh64_digest (digest e)).

Lemma nonces_continous_spec n h q : nonces_continous n h q = true -> follow_each_other n h q.
Proof.
  revert n h. induction q as [|x q IH]; intros n h; cbn [nonces_continous]; [by split|].
  unfold nonce_continous, check_last_trans_hash. destruct (Z.eqb_spec n (get_last_nonce x)) as [En|]; [|done].
  destruct (Z.eqb_spec (get_last_hash x) (xxh64_digest h)) as [Eh|]; [|done]. cbn [andb].
  intros [Hf Hn]%IH. split; [by intros e [= <-]|]. intros [|i] e e' He He'; [|by apply (Hn i)].
  injection He as <-. by apply Hf.
Qed.

Lemma batch_prefix batch c q : exists i, take_transfer_txs batch c q = take i q.
Proof.
  revert c. induction q as [|e q IH]; intros c; cbn; [by exists 0%nat|].
  destruct (_ && _); [by exists 0%nat|]. destruct (_ || _); [by exists 1%nat|].
  destruct (IH (c + 1)) as [i ->]. by exists (S i).
Qed.

Lemma chained_continous n h q :
  chained h q -> get_last_nonce <$> q = seqZ n (Z.of_nat (length q)) -> 0 <= n -> n + Z.of_nat (length q) < 2 ^ 64 ->
  nonces_continous n h q = true.
Proof.
  revert n h. induction q as [|e q IH]; intros n h; cbn [chained nonces_continous]; [done|].
  intros [Eh Hc] Hn H0 Hw. cbn in Hn, Hw. rewrite seqZ_cons in Hn by lia. injection Hn as He Hn.
  unfold nonce_continous. rewrite He, Z.eqb_refl, Eh. cbn. unfold get_tx_nonce. rewrite He.
  rewrite u64_small by (unfold is_u64; lia). apply IH; [done| |lia..].
  rewrite Hn. unfold Z.succ. f_equal; lia.
Qed.

Lemma batch_continous batch s :
  queue_chained s -> queue_wf s ->
  nonces_continous (q_nonce s) (q_hash s) (take_transfer_txs batch 0 (q_sends s)) = true.
Proof.
  intros Hc W. destruct (batch_prefix batch 0 (q_sends s)) as [i ->].
  pose proof (wf_take i s W) as W'. apply chained_continous; [by apply chained_take|apply W'|apply W'|apply W'].
Qed.

(** The states along a run in which every replacement refers to its predecessor. *)
Fixpoint chained_run (ops : list account_op) (s : aqueue) : Prop :=
  match ops with
  | [] => True
  | op :: ops => replacement_chained op s /\ chained_run ops (spec_op op s).2
  end.

Lemma run_spec_chained ops s : queue_chained s -> chained_run ops s -> queue_chained (run_spec ops s).2.
Proof.
  revert s. induction ops as [|op ops IH]; intros s Hc; cbn; [done|]. intros [Hr Hrs].
  pose proof (spec_op_chained op s Hc Hr) as Hc'. destruct (spec_op op s) as [r t]. cbn in *.
  specialize (IH t Hc' Hrs). by destruct (run_spec ops t).
Qed.

Lemma send_batch_passes base address n0 h0 ops n h batch a' :
  is_u64 n0 -> Forall op_ok ops -> chained_run ops (empty_queue address n0 h0) -> is_u64 n ->
  let a := (run_account ops (Acct (new_accountobj address n0 h0) (i32 base))).2 in
  (n = m_latest_send_trans_number (a_obj a) -> h = m_latest_send_trans_hash (a_obj a)) ->
  get_send_txs n h a = (batch, a') ->
  nonces_continous n h batch = true.
Proof.
  intros Hn0 Hok Hch Hn a Hh E. subst a.
  destruct (run_refines base ops _ _ (new_account_represents base address n0 h0) (empty_queue_wf _ _ _ Hn0) Hok) as [[_ R] W].
  assert (queue_chained (run_spec ops (empty_queue address n0 h0)).2) as Hc by by apply run_spec_chained.
  revert R W Hc Hh E. generalize (run_spec ops (empty_queue address n0 h0)).2,
    (run_account ops (Acct (new_accountobj address n0 h0) (i32 base))).2. intros s a R W Hc Hh.
  unfold get_send_txs. destruct (update_refines base n h s a R W Hn) as [Eo R'].
  pose proof (spec_update_wf n h s W Hn) as W'. pose proof (spec_update_chained n h s Hc) as Hc'.
  destruct (update_latest_send_trans_number_hash n h a) as [ok b]. cbn in Eo. subst ok.
  assert ((spec_update n h s).1 = true -> q_nonce (spec_update n h s).2 = n /\ q_hash (spec_update n h s).2 = h) as Hnh.
  { rewrite (rep_nonce _ _ _ R) in Hh. unfold spec_update. destruct (n <? q_nonce s); [done|].
    destruct (Z.eqb_spec n (q_nonce s)) as [->|]; [|done]. intros _. cbn. rewrite Hh by done. split; [done|].
    by destruct R as [<- _ _]. }
  destruct (spec_update n h s) as [[] t]; cbn in *; intros [= <- <-]; [|done].
  rewrite (rep_sends _ _ _ R'). destruct Hnh as [<- <-]; [done|]. by apply batch_continous.
Qed.

(** ** Batches *)

Lemma take_ack_take b c q : take_ack_txs b c q = take (Z.to_nat (Z.max 1 (b - c))) q.
Proof.
  revert c. induction q as [|e q IH]; intros c; cbn [take_ack_txs]; [by destruct (Z.to_nat _)|].
  destruct (Z.leb_spec b (c + 1)).
  - replace (Z.max 1 (b - c)) with 1 by lia. done.
  - rewrite IH. replace (Z.to_nat (Z.max 1 (b - c))) with (S (Z.to_nat (Z.max 1 (b - (c + 1))))) by lia. done.
Qed.

Definition is_transfer (e : xtransaction) : Prop := get_tx_type e = xtransaction_type_transfer.

Lemma take_transfer_spec b c q :
  0 <= c ->
  take_transfer_txs b c q `prefix_of` q /\ Z.of_nat (length (take_transfer_txs b c q)) <= Z.max 1 (b - c) /\
  (0 < c -> Forall is_transfer (take_transfer_txs b c q)) /\
  (c = 0 -> q <> [] -> take_transfer_txs b c q <> [] /\
     (Forall is_transfer (take_transfer_txs b c q) \/ length (take_transfer_txs b c q) = 1%nat)).
Proof.
  revert c. induction q as [|e q IH]; intros c Hc; cbn [take_transfer_txs]; [split_and!; cbn; [done|lia|constructor|done]|].
  destruct (IH (c + 1)) as (Hp & Hl & Hf & _); [lia|]. unfold is_transfer in *.
  destruct (Z.eqb_spec (get_tx_type e) xtransaction_type_transfer) as [Et|Et]; cbn [negb andb orb].
  - destruct (Z.leb_spec b (c + 1)).
    + split_and!; cbn; [apply prefix_cons, prefix_nil|lia|by repeat constructor|]. intros _ _. split; [done|by right].
    + split_and!; cbn; [by apply prefix_cons|lia|intros _; constructor; [done|apply Hf; lia]|].
      intros _ _. split; [done|]. left. constructor; [done|]. apply Hf. lia.
  - destruct (Z.eqb_spec c 0) as [->|Hne]; cbn [negb andb].
    + split_and!; cbn; [apply prefix_cons, prefix_nil|lia|lia|]. intros _ _. split; [done|by right].
    + split_and!; cbn; [apply prefix_nil|lia|constructor|lia].
Qed.

(** C27. The batch an account object hands to a leader: its first confirmations
    if it has any, else its first receipts, else its first transactions, never
    more than the configured number and, of receipts, only transfers or a single
    one.  A batch of transactions passes the nonce and hash check of a backup
    with the same account state, as long as every transaction that replaced a
    waiting one refers to the transaction before it. *)
Theorem leader_batch_passes_backup base address n0 h0 ops n h batch a' :
  is_u64 n0 -> Forall op_ok ops -> chained_run ops (empty_queue address n0 h0) -> is_u64 n ->
  let a := (run_account ops (Acct (new_accountobj address n0 h0) (i32 base))).2 in
  let acks := m_recv_ack_queue (a_obj a) in let recvs := m_recv_queue (a_obj a) in
  (n = m_latest_send_trans_number (a_obj a) -> h = m_latest_send_trans_hash (a_obj a)) ->
  get_cons_txs n h a = (batch, a') ->
  (acks <> [] -> batch = take (Z.to_nat (Z.max 1 unitblock_confirm_tx_batch_num)) acks) /\
  (acks = [] -> recvs <> [] ->
     batch <> [] /\ batch `prefix_of` recvs /\ Z.of_nat (length batch) <= Z.max 1 unitblock_recv_transfer_tx_batch_num /\
     (Forall (fun e => get_tx_type e = xtransaction_type_transfer) batch \/ length batch = 1%nat)) /\
  (acks = [] -> recvs = [] -> nonces_continous n h batch = true).
Proof.
  intros Hn0 Hok Hch Hn a acks recvs Hh E. unfold get_cons_txs in E. fold a acks recvs in E.
  unfold get_recv_ack_txs, get_recv_txs in E. fold acks recvs in E.
  destruct (take_transfer_spec unitblock_recv_transfer_tx_batch_num 0 recvs) as (Hp & Hl & _ & Ht); [lia|].
  rewrite take_ack_take, !Z.sub_0_r in *. split; [|split].
  - intros Hne. destruct (take (Z.to_nat _) acks) as [|x l] eqn:Et; [|by injection E as <- _].
    exfalso. apply Hne. destruct acks; [done|]. by replace (Z.to_nat (Z.max 1 unitblock_confirm_tx_batch_num))
      with (S (Z.to_nat (Z.max 1 unitblock_confirm_tx_batch_num - 1))) in Et by lia.
  - intros -> Hne. rewrite take_nil in E. destruct (Ht eq_refl Hne) as [Hx Hy].
    destruct (take_transfer_txs _ 0 recvs) as [|x l]; [done|]. injection E as <- _. split; [done|]. split; [done|]. by split.
  - intros -> Er. rewrite take_nil, Er in E. cbn [take_transfer_txs] in E.
    exact (send_batch_passes base address n0 h0 ops n h batch a' Hn0 Hok Hch Hn Hh E).
Qed.

(** A transaction with the nonce of a waiting one and not fired before it is
    accepted whatever last transaction it refers to, and takes the place of
    that one and all later ones.  At the front of a queue without receipts it
    is what the leader then proposes, and a backup accepts that exactly if the
    unchecked reference happens to be right. *)
Theorem replacement_unchecked base a tx e :
  reached base a -> op_ok (OpPushSend tx) ->
  let q := m_send_queue (a_obj (clear_expire_txs (get_push_pool_timestamp tx) a)) in
  q !! Z.to_nat (get_last_nonce tx - m_latest_send_trans_number (a_obj a)) = Some e ->
  m_latest_send_trans_number (a_obj a) <= get_last_nonce tx ->
  get_fire_timestamp e <= get_fire_timestamp tx ->
  get_last_nonce tx - m_latest_send_trans_number (a_obj a) < m_send_tx_queue_max_num (a_obj a) ->
  query_tx (a_obj (clear_expire_txs (get_push_pool_timestamp tx) a)) (digest tx) = None ->
  exists a', push_send_tx tx a = (xsuccess, a') /\
    m_send_queue (a_obj a') =
      take (Z.to_nat (get_last_nonce tx - m_latest_send_trans_number (a_obj a))) q ++ [tx] /\
    (m_recv_queue (a_obj a) = [] -> m_recv_ack_queue (a_obj a) = [] ->
     get_last_nonce tx = m_latest_send_trans_number (a_obj a) ->
     forall h, (get_cons_txs (get_last_nonce tx) h a').1 = [tx] /\
       nonces_continous (get_last_nonce tx) h [tx] = check_last_trans_hash tx h).
Proof.
  intros [R W]%reached_represents (Ho & _ & Hu). cbv zeta. intros Hq Hge Hfire Hmax Hnew.
  pose proof (push_send_refines base tx _ a R W Hu) as [Er R'].
  pose proof (clear_expire_refines base (get_push_pool_timestamp tx) _ a R W) as Re.
  set (s := abs_account (a_obj a)) in *. set (t := spec_expire (get_push_pool_timestamp tx) s) in *.
  rewrite (rep_sends _ _ _ Re) in Hq |- *. change (m_latest_send_trans_number (a_obj a)) with (q_nonce t) in *.
  change (m_send_tx_queue_max_num (a_obj a)) with (q_max t) in Hmax.
  set (pos := Z.to_nat (get_last_nonce tx - q_nonce t)) in *.
  assert (spec_push_send tx s = (xsuccess, with_sends (take pos (q_sends t) ++ [tx]) t)) as E.
  { unfold spec_push_send. change (q_nonce s) with (q_nonce t). rewrite (proj2 (Z.ltb_ge _ _)) by lia. fold t.
    rewrite (indexes_waits _ _ _ (rep_index _ _ _ Re)). unfold query_tx in Hnew. rewrite Hnew.
    rewrite bool_decide_eq_false_2 by (by intros []). unfold spec_push_new. fold pos. rewrite Hq.
    pose proof (lookup_lt_Some _ _ _ Hq). rewrite (proj2 (Nat.ltb_ge _ _)) by lia.
    rewrite (proj2 (Z.ltb_ge _ _)), (proj2 (Z.leb_gt _ _)) by lia. by rewrite andb_false_r. }
  rewrite E in Er, R'. cbn [fst snd] in Er, R'. destruct (push_send_tx tx a) as [r a']. cbn in Er, R'. subst r.
  exists a'. split; [done|]. split; [apply (rep_sends _ _ _ R')|]. intros Hr Ha Hn h.
  assert (pos = 0%nat) as Hp by lia.
  split.
  - unfold get_cons_txs, get_recv_ack_txs, get_recv_txs, get_send_txs, update_latest_send_trans_number_hash.
    pose proof (rep_abs _ _ _ R') as Ea.
    assert (m_recv_queue (a_obj a') = []) as -> by (apply (f_equal q_recvs) in Ea; cbn in Ea; by rewrite Ea).
    assert (m_recv_ack_queue (a_obj a') = []) as -> by (apply (f_equal q_acks) in Ea; cbn in Ea; by rewrite Ea).
    assert (m_latest_send_trans_number (a_obj a') = get_last_nonce tx) as ->
      by (apply (f_equal q_nonce) in Ea; cbn in Ea; rewrite Ea; symmetry; exact Hn).
    rewrite Z.ltb_irrefl, Z.eqb_refl. cbn. rewrite (rep_sends _ _ _ R'), Hp. cbn.
    rewrite take_0. cbn. destruct (get_tx_type tx =? xtransaction_type_transfer); cbn; [|done]. by destruct (_ <=? _).
  - cbn. unfold nonce_continous. rewrite Z.eqb_refl. cbn. by destruct (check_last_trans_hash tx h).
Qed.

(** ** What a committed unit leaves *)

Lemma spec_pop_prefix d st s : exists j, q_sends (spec_pop d st s).2 = take j (q_sends s).
Proof.
  unfold spec_pop. destruct (spec_find d st s) as [e|]; cbn.
  - destruct (is_origin_tx e); [apply before_take|].
    destruct (is_recv_tx e); exists (length (q_sends s)); cbn; by rewrite firstn_all.
  - exists (length (q_sends s)). by rewrite firstn_all.
Qed.

Lemma spec_pops_prefix txs s :
  exists j, q_sends (fold_left (fun s tx => snd (spec_pop (ut_hash tx) (ut_subtype tx) s)) txs s) = take j (q_sends s).
Proof.
  revert s. induction txs as [|t txs IH]; intros s; cbn; [exists (length (q_sends s)); by rewrite firstn_all|].
  destruct (IH (spec_pop (ut_hash t) (ut_subtype t) s).2) as [j ->].
  destruct (spec_pop_prefix (ut_hash t) (ut_subtype t) s) as [k ->]. rewrite take_take. eauto.
Qed.

Lemma spec_pop_at s i e :
  queue_wf s -> q_sends s !! i = Some e ->
  q_sends (spec_pop (digest e) (get_tx_subtype e) s).2 = take i (q_sends s).
Proof.
  intros W Hi. pose proof (list_elem_of_lookup_2 _ _ _ Hi) as He.
  assert (e ∈ q_all s) as Ha by (unfold q_all; apply elem_of_app; by left).
  assert (is_origin_tx e = true) as Ho by exact (proj1 (Forall_forall _ _) (wf_sends s W) e He).
  assert (List.find (fun x => bool_decide (digest x = digest e)) (q_all s) = Some e) as Ef.
  { destruct (List.find _ _) as [f|] eqn:E.
    - apply List.find_some in E as [Hf Hd%bool_decide_eq_true_1]. f_equal. apply list_elem_of_In in Hf.
      apply list_elem_of_lookup in Hf as [j Hj]. apply list_elem_of_lookup in Ha as [k Hk].
      pose proof (unique_digest _ _ _ _ _ (wf_digests s W) Hk Hj Hd). congruence.
    - apply list_elem_of_In in Ha. pose proof (List.find_none _ _ E _ Ha) as Hn. by apply bool_decide_eq_false_1 in Hn. }
  unfold spec_pop, spec_find. rewrite Ef, Z.eqb_refl, Ho. cbn. apply before_at; [by apply nodup_parts|done].
Qed.

Lemma spec_pops_remove txs s i e :
  queue_wf s -> q_sends s !! i = Some e ->
  Exists (fun t => ut_hash t = digest e /\ ut_subtype t = get_tx_subtype e) txs ->
  e ∉ q_sends (fold_left (fun s tx => snd (spec_pop (ut_hash tx) (ut_subtype tx) s)) txs s).
Proof.
  intros W Hi Hex. revert s i W Hi. induction txs as [|t txs IH]; intros s i W Hi; [by apply Exists_nil in Hex|].
  cbn. apply Exists_cons in Hex as [[-> ->]|Hex].
  - intros Hin. destruct (spec_pops_prefix txs (spec_pop (digest e) (get_tx_subtype e) s).2) as [j Ej].
    rewrite Ej, (spec_pop_at _ _ _ W Hi), take_take in Hin. apply list_elem_of_lookup in Hin as [k Hk].
    apply lookup_take_Some in Hk as [Hk Hlt]. destruct (nodup_parts s W) as (Hn & _).
    pose proof (unique_digest _ _ _ _ _ Hn Hi Hk eq_refl). lia.
  - pose proof (spec_pop_wf (ut_hash t) (ut_subtype t) s W) as W'.
    destruct (spec_pop_prefix (ut_hash t) (ut_subtype t) s) as [j Ej].
    destruct (decide (i < j)%nat).
    + apply (IH Hex _ i); [done|]. by rewrite Ej, lookup_take_lt.
    + intros Hin. destruct (spec_pops_prefix txs (spec_pop (ut_hash t) (ut_subtype t) s).2) as [k Ek].
      rewrite Ek, Ej, take_take in Hin. apply list_elem_of_lookup in Hin as [m Hm].
      apply lookup_take_Some in Hm as [Hm Hlt]. destruct (nodup_parts s W) as (Hn & _).
      pose proof (unique_digest _ _ _ _ _ Hn Hi Hm eq_refl). lia.
Qed.

Lemma spec_update_subset n h s f : f ∈ q_sends (spec_update n h s).2 -> f ∈ q_sends s.
Proof.
  unfold spec_update. destruct (n <? q_nonce s); [done|]. destruct (n =? q_nonce s); [done|]. cbn.
  destruct (match _ with [] => true | _ => _ end); [|by intros ?%elem_of_nil].
  intros Hf. eapply elem_of_sublist; [exact Hf|apply sublist_drop].
Qed.

(** When a unit with a waiting transaction is committed, every waiting
    transaction with the same or a later nonce leaves the queue, whether the
    unit contains it or not: after a unit that commits the first waiting
    transaction no send transaction of the account waits any more. *)
Theorem commit_drops_successors base a txs n h i e f :
  reached base a -> op_ok (OpUnit (Some txs) n h) ->
  m_send_queue (a_obj a) !! i = Some e ->
  Exists (fun t => ut_hash t = digest e /\ ut_subtype t = get_tx_subtype e) txs ->
  f ∈ m_send_queue (a_obj (on_unit_to_db (Some txs) n h a)) ->
  f ∈ m_send_queue (a_obj a) /\ get_last_nonce f < get_last_nonce e.
Proof.
  intros [R W]%reached_represents [Hn Hf] Hi Hex Hin. set (s := abs_account (a_obj a)) in *.
  change (m_send_queue (a_obj a)) with (q_sends s) in Hi |- *.
  pose proof (unit_refines base (Some txs) n h s a R W Hn Hf) as R'. rewrite (rep_sends _ _ _ R') in Hin.
  unfold spec_unit in Hin. destruct (get_send_trans_info txs) as [number hash].
  assert (f ∈ q_sends (fold_left (fun s tx => snd (spec_pop (ut_hash tx) (ut_subtype tx) s)) txs s)) as Hin'
    by (destruct (n <? number); by apply spec_update_subset in Hin).
  pose proof (spec_pops_remove txs s i e W Hi Hex) as He.
  destruct (spec_pops_prefix txs s) as [j Ej]. rewrite Ej in Hin', He.
  apply list_elem_of_lookup in Hin' as [k Hk]. apply lookup_take_Some in Hk as [Hk Hlt].
  split; [by eapply list_elem_of_lookup_2|].
  assert (j <= i)%nat.
  { destruct (decide (j <= i)%nat); [done|]. exfalso. apply He. apply (list_elem_of_lookup_2 _ i).
    by rewrite lookup_take_lt by lia. }
  rewrite (wf_nonce_at _ _ _ W Hk), (wf_nonce_at _ _ _ W Hi). lia.
Qed.
End Runs.
