(* ===== verification/RecvCache.v ===== *)
(** * Receipts already consumed: [xtxpool/src/xtransaction_recv_cache.cpp]

    A table keeps the digests of the receipts its committed blocks consumed, by
    the clock of the receipt, for a section of its blocks.  The block store, the
    clock and the window are the record [cache_env], as they are at the time of
    a call; table blocks are what the cache reads of them.  A function that
    loads blocks returns the receipts it met in [committed_recv_txs], which is
    threaded through.  Loops over heights carry the number of heights left. *)

From stdpp Require Import prelude gmap strings.
From Stdlib Require Import ZArith Lia.
From S2P Require Import Prelude StdMap StoreBlock TxData.

Definition MORE_BLOCK_HEIGHT : Z := 20.
Definition MAX_HEIGHT : Z := 0xFFFFFFFFFFFFFFFF.

(** A transaction of a unit's input, with the clock and addresses of its receipt. *)
Record recv_info := RecvInfo {
  ri_is_recv : bool;      (* is_recv_tx() *)
  ri_clock : Z;           (* get_tx_clock() *)
  ri_target : string;     (* get_raw_tx()->get_target_addr() *)
  ri_digest : string      (* get_raw_tx()->digest() *)
}.
Record table_unit := TableUnit { tu_class : Z; tu_txs : list recv_info }.
Record table_block := TableBlock { tb_height : Z; tb_committed : bool; tb_units : list table_unit }.

Record cache_env := CacheEnv {
  ce_load : Z -> option table_block;       (* load_block_object(m_table_account, height) *)
  ce_latest : option table_block;          (* get_latest_committed_block(m_table_account) *)
  ce_window : Z;                           (* get_receipt_valid_window() *)
  ce_time : Z                              (* get_chain_timer()->logic_time() *)
}.

Record recv_cache := RecvCache {
  m_transaction_recv_cache : list (Z * gset string);
  m_min_cache_block_height : Z;
  m_max_cache_block_height : Z;
  m_latest_block_height : Z;
  m_old_cache_full : bool
}.

Definition new_recv_cache : recv_cache := RecvCache [] MAX_HEIGHT 0 0 false.
Definition rc_clear (c : recv_cache) : recv_cache := RecvCache [] MAX_HEIGHT 0 0 false.

Definition set_cache_latest (h : Z) (c : recv_cache) : recv_cache :=
  RecvCache (m_transaction_recv_cache c) (m_min_cache_block_height c) (m_max_cache_block_height c) h
    (m_old_cache_full c).
Definition set_cache_full (c : recv_cache) : recv_cache :=
  RecvCache (m_transaction_recv_cache c) (m_min_cache_block_height c) (m_max_cache_block_height c)
    (m_latest_block_height c) true.
Definition set_cache_map (m : list (Z * gset string)) (c : recv_cache) : recv_cache :=
  RecvCache m (m_min_cache_block_height c) (m_max_cache_block_height c) (m_latest_block_height c)
    (m_old_cache_full c).

(** The cache and the receipts of [committed_recv_txs] (address and digest). *)
Definition rc_state : Type := recv_cache * list (string * string).

(** One transaction of the inner loop of [insert_block_tx_to_cache]. *)
Definition insert_recv_tx (s : Z * rc_state) (tx : recv_info) : Z * rc_state :=
  let '(min_timer_height, (c, out)) := s in
  if ri_is_recv tx then
    let timer_height := ri_clock tx in
    let digests := default ∅ (map_find timer_height (m_transaction_recv_cache c)) in
    (if timer_height <? min_timer_height then timer_height else min_timer_height,
     (set_cache_map (map_set timer_height ({[ ri_digest tx ]} ∪ digests) (m_transaction_recv_cache c)) c,
      out ++ [(ri_target tx, ri_digest tx)]))
  else s.

Definition insert_unit_txs (s : Z * rc_state) (u : table_unit) : Z * rc_state :=
  if negb (tu_class u =? enum_xvblock_class_light) then s else fold_left insert_recv_tx (tu_txs u) s.

(** [insert_block_tx_to_cache]: also returns the least clock met. *)
Definition insert_block_tx_to_cache (b : table_block) (s : rc_state) : Z * rc_state :=
  let '(c, out) := s in
  let c := RecvCache (m_transaction_recv_cache c)
             (if m_min_cache_block_height c <? tb_height b then m_min_cache_block_height c else tb_height b)
             (if tb_height b <? m_max_cache_block_height c then m_max_cache_block_height c else tb_height b)
             (m_latest_block_height c) (m_old_cache_full c) in
  fold_left insert_unit_txs (tb_units b) (2 ^ 64 - 1, (c, out)).

(** [None] where it returns [false], else the least clock of the block. *)
Definition cache_from_db_with_timerblock_height (env : cache_env) (height : Z) (s : rc_state)
    : option (Z * rc_state) :=
  match ce_load env height with
  | Some b => if tb_committed b then Some (insert_block_tx_to_cache b s) else None
  | None => None
  end.

(** [for (h = from; h <= to; h++)] with [n] heights left: [false] and the state
    reached when a block cannot be loaded. *)
Fixpoint cache_heights (env : cache_env) (n : nat) (h : Z) (advance : bool) (s : rc_state) : bool * rc_state :=
  match n with
  | O => (true, s)
  | S n =>
      match cache_from_db_with_timerblock_height env h s with
      | None => (false, s)
      | Some (_, (c, out)) =>
          let c := if advance then set_cache_latest (u64 (m_latest_block_height c + 1)) c else c in
          cache_heights env n (h + 1) advance (c, out)
      end
  end.

(** The number of heights of a loop from [from] to [to]. *)
Definition heights (from to : Z) : nat := Z.to_nat (to + 1 - from).

Definition cache_latest_blocks (env : cache_env) (commit_height : Z) (s : rc_state) : bool * rc_state :=
  if commit_height =? 0 then (true, s)
  else
    let '(c, out) := s in
    let first :=
      if m_latest_block_height c =? 0 then
        match ce_latest env with
        | Some b => Some (snd (insert_block_tx_to_cache b (set_cache_latest (tb_height b) c, out)))
        | None => None
        end
      else Some s in
    match first with
    | None => (true, s)
    | Some (c, out) =>
        let from := u64 (m_max_cache_block_height c + 1) in
        let '(ok, (c, out)) := cache_heights env (heights from (m_latest_block_height c)) from false (c, out) in
        if negb ok then (false, (c, out))
        else if commit_height =? MAX_HEIGHT then (true, (c, out))
        else
          let from := u64 (m_latest_block_height c + 1) in
          cache_heights env (heights from commit_height) from true (c, out)
    end.

Definition cache_empty (c : recv_cache) : bool :=
  match m_transaction_recv_cache c with [] => true | _ => false end.

(** [while (h > 1 && m_transaction_recv_cache.empty())]: the height it stopped at. *)
Fixpoint load_until_nonempty (env : cache_env) (n : nat) (h : Z) (s : rc_state) : bool * Z * rc_state :=
  match n with
  | O => (true, h, s)
  | S n =>
      if (1 <? h) && cache_empty s.1 then
        match cache_from_db_with_timerblock_height env (h - 1) s with
        | None => (false, h, s)
        | Some (_, s) => load_until_nonempty env n (h - 1) s
        end
      else (true, h, s)
  end.

(** [while (h > 1 && old_timer_height >= min_trusted_timer_height)]. *)
Fixpoint load_older (env : cache_env) (n : nat) (h old_timer_height min_trusted : Z) (s : rc_state)
    : bool * Z * rc_state :=
  match n with
  | O => (true, min_trusted, s)
  | S n =>
      if (1 <? h) && (min_trusted <=? old_timer_height) then
        match cache_from_db_with_timerblock_height env (h - 1) s with
        | None => (false, min_trusted, s)
        | Some (min_timer_height, s) =>
            let min_trusted :=
              if negb (min_timer_height =? 2 ^ 64 - 1) then u64 (min_timer_height + MORE_BLOCK_HEIGHT)
              else min_trusted in
            load_older env n (h - 1) old_timer_height min_trusted s
        end
      else (true, min_trusted, s)
  end.

Definition cache_old_blocks (env : cache_env) (old_timer_height : Z) (s : rc_state) : bool * rc_state :=
  if m_old_cache_full s.1 then (true, s)
  else
    let h := m_min_cache_block_height s.1 in
    let '(ok, h, s) :=
      if negb (m_min_cache_block_height s.1 =? MAX_HEIGHT) && cache_empty s.1
      then load_until_nonempty env (Z.to_nat h) h s else (true, h, s) in
    if negb ok then (false, s)
    else
      match m_transaction_recv_cache s.1 with
      | [] => (true, s)
      | (first, _) :: _ =>
          let min_trusted_timer_height := u64 (first + MORE_BLOCK_HEIGHT) in
          if min_trusted_timer_height <=? old_timer_height then (true, s)
          else
            let '(ok, min_trusted_timer_height, s) :=
              load_older env (Z.to_nat h) h old_timer_height min_trusted_timer_height s in
            if negb ok then (false, s)
            else if u64 (min_trusted_timer_height + ce_window env) <=? ce_time env
            then (true, (set_cache_full s.1, s.2))
            else (true, s)
      end.

Fixpoint drop_expired (window cur : Z) (m : list (Z * gset string)) : list (Z * gset string) :=
  match m with
  | [] => []
  | e :: m' => if u64 (fst e + window) <? cur then drop_expired window cur m' else m
  end.

Definition delete_expired_cache (env : cache_env) (c : recv_cache) : recv_cache :=
  if negb (m_old_cache_full c) || (ce_time env <? ce_window env) then c
  else set_cache_map (drop_expired (ce_window env) (ce_time env) (m_transaction_recv_cache c)) c.

Definition update_tx_cache (env : cache_env) (b : table_block) (c : recv_cache) : rc_state :=
  let c := set_cache_latest (if tb_height b <? m_latest_block_height c then m_latest_block_height c else tb_height b) c in
  let s :=
    if (tb_height b =? u64 (m_max_cache_block_height c + 1)) || (m_max_cache_block_height c =? 0)
    then snd (insert_block_tx_to_cache b (c, [])) else (c, []) in
  let '(_, (c, out)) := cache_latest_blocks env MAX_HEIGHT s in
  (delete_expired_cache env c, out).

Definition check_timer_height_trusted_section_by_left (commit_height : Z) (c : recv_cache) : bool :=
  (m_max_cache_block_height c =? m_latest_block_height c)
  && ((commit_height =? MAX_HEIGHT) || (commit_height =? m_latest_block_height c)).

(** [check_duplicate_in_cache]: [true] for [xtxpool_error_sendtx_receipt_duplicate]. *)
Definition check_duplicate_in_cache (tx_timer_height : Z) (d : string) (c : recv_cache) : bool :=
  match map_find tx_timer_height (m_transaction_recv_cache c) with
  | Some ds => bool_decide (d ∈ ds)
  | None => false
  end.

Definition is_receipt_duplicated (env : cache_env) (tx_timer_height : Z) (d : string) (commit_height : Z)
    (c : recv_cache) : xtxpool_error * rc_state :=
  if u64 (tx_timer_height + ce_window env) <? ce_time env then (xtxpool_error_sendtx_receipt_expired, (c, []))
  else
    let '(ok, s) := cache_latest_blocks env commit_height (c, []) in
    let '(ok, s) := if ok then cache_old_blocks env tx_timer_height s else (false, s) in
    let ret :=
      if ok && check_timer_height_trusted_section_by_left commit_height s.1
      then xsuccess else xtxpool_error_sendtx_receipt_data_not_synced in
    (if check_duplicate_in_cache tx_timer_height d s.1 then xtxpool_error_sendtx_receipt_duplicate else ret, s).
