(* ===== verification/RecvCacheFacts.v ===== *)
(** * What the receipt cache knows

    [chain] is the table's committed block of each height.  The cache holds
    exactly the receipts of the blocks of its section that are not older than
    the window; the check of a receipt is sound, and complete for the section.
    The section is not extended to older blocks while it holds any receipt. *)

From stdpp Require Import prelude gmap strings.
From Stdlib Require Import ZArith Lia.
From S2P Require Import Prelude StdMap StoreBlock TxData RecvCache.

(** A light unit of the block consumes the receipt with this clock and digest. *)
Definition consumes (b : table_block) (t : Z) (d : string) : Prop :=
  exists u tx, u ∈ tb_units b /\ tu_class u = enum_xvblock_class_light /\ tx ∈ tu_txs u /\
    ri_is_recv tx = true /\ ri_clock tx = t /\ ri_digest tx = d.

Definition cached (c : recv_cache) (t : Z) (d : string) : Prop := check_duplicate_in_cache t d c = true.

(** ** Inserting a block *)

Definition same_range (c c' : recv_cache) : Prop :=
  m_min_cache_block_height c' = m_min_cache_block_height c /\
  m_max_cache_block_height c' = m_max_cache_block_height c /\
  m_latest_block_height c' = m_latest_block_height c /\ m_old_cache_full c' = m_old_cache_full c.

#[export] Instance same_range_preorder : PreOrder same_range.
Proof. split; unfold same_range; [done|]. intros x y z (-> & -> & -> & ->). auto. Qed.

Lemma cached_add c t d t' d' m :
  m_transaction_recv_cache c = m ->
  cached (set_cache_map (map_set t ({[ d ]} ∪ default ∅ (map_find t m)) m) c) t' d' <->
  cached c t' d' \/ (t' = t /\ d' = d).
Proof.
  intros E. unfold cached, check_duplicate_in_cache. cbn. rewrite E.
  destruct (decide (t = t')) as [<-|Hne].
  - rewrite map_find_set_eq, bool_decide_eq_true. destruct (map_find t m); cbn; [rewrite bool_decide_eq_true|]; set_solver.
  - rewrite map_find_set_ne by done. naive_solver.
Qed.

Lemma insert_recv_txs_spec txs (s : Z * rc_state) :
  let c' := (fold_left insert_recv_tx txs s).2.1 in
  same_range s.2.1 c' /\
  forall t d, cached c' t d <->
    cached s.2.1 t d \/ exists tx, tx ∈ txs /\ ri_is_recv tx = true /\ ri_clock tx = t /\ ri_digest tx = d.
Proof.
  revert s. induction txs as [|tx txs IH]; intros s; cbn [fold_left]; cbv zeta.
  - split; [done|]. intros t d. split; [by left|]. intros [?|(tx & Hin & _)]; [done|by apply elem_of_nil in Hin].
  - destruct (IH (insert_recv_tx s tx)) as [Hr Hc].
    assert (same_range s.2.1 (insert_recv_tx s tx).2.1 /\ forall t d, cached (insert_recv_tx s tx).2.1 t d <->
      cached s.2.1 t d \/ (ri_is_recv tx = true /\ ri_clock tx = t /\ ri_digest tx = d)) as [Hr1 Hc1].
    { destruct s as [mt [c out]]. cbn. destruct (ri_is_recv tx); cbn; [|split; [done|naive_solver]].
      split; [done|]. intros t d. rewrite (cached_add c) by done. naive_solver. }
    split; [by etransitivity|]. intros t d. rewrite Hc, Hc1. setoid_rewrite elem_of_cons. split.
    + intros [[?|?]|(x & ? & ?)]; [by left|right; exists tx; tauto|right; exists x; tauto].
    + intros [?|(x & [->|?] & ?)]; [left; by left|left; by right|right; eauto].
Qed.

Lemma insert_units_spec us (s : Z * rc_state) :
  let c' := (fold_left insert_unit_txs us s).2.1 in
  same_range s.2.1 c' /\
  forall t d, cached c' t d <-> cached s.2.1 t d \/ exists u tx, u ∈ us /\ tu_class u = enum_xvblock_class_light /\
    tx ∈ tu_txs u /\ ri_is_recv tx = true /\ ri_clock tx = t /\ ri_digest tx = d.
Proof.
  revert s. induction us as [|u us IH]; intros s; cbn [fold_left]; cbv zeta.
  - split; [done|]. intros t d. split; [by left|]. intros [?|(u & tx & Hin & _)]; [done|by apply elem_of_nil in Hin].
  - destruct (IH (insert_unit_txs s u)) as [Hr Hc].
    assert (same_range s.2.1 (insert_unit_txs s u).2.1 /\ forall t d, cached (insert_unit_txs s u).2.1 t d <->
      cached s.2.1 t d \/ (tu_class u = enum_xvblock_class_light /\
        exists tx, tx ∈ tu_txs u /\ ri_is_recv tx = true /\ ri_clock tx = t /\ ri_digest tx = d)) as [Hr1 Hc1].
    { unfold insert_unit_txs. destruct (Z.eqb_spec (tu_class u) enum_xvblock_class_light); cbn [negb].
      - destruct (insert_recv_txs_spec (tu_txs u) s) as [? Ht]. split; [done|]. intros t d. rewrite Ht. naive_solver.
      - split; [done|naive_solver]. }
    split; [by etransitivity|]. intros t d. rewrite Hc, Hc1. setoid_rewrite elem_of_cons. split.
    + intros [[?|(? & x & ?)]|(v & x & ? & ?)]; [by left|right; exists u, x; tauto|right; exists v, x; tauto].
    + intros [?|(v & x & [->|?] & ? & ?)]; [left; by left|left; right; eauto|right; exists v, x; tauto].
Qed.

Lemma insert_block_spec b (s : rc_state) :
  let c' := (insert_block_tx_to_cache b s).2.1 in
  m_min_cache_block_height c' = Z.min (m_min_cache_block_height s.1) (tb_height b) /\
  m_max_cache_block_height c' = Z.max (m_max_cache_block_height s.1) (tb_height b) /\
  m_latest_block_height c' = m_latest_block_height s.1 /\ m_old_cache_full c' = m_old_cache_full s.1 /\
  forall t d, cached c' t d <-> cached s.1 t d \/ consumes b t d.
Proof.
  destruct s as [c out]. unfold insert_block_tx_to_cache. cbv zeta.
  match goal with |- context [fold_left insert_unit_txs ?us ?s] =>
    destruct (insert_units_spec us s) as [(-> & -> & -> & ->) Hs] end. cbn.
  split_and!; [destruct (Z.ltb_spec (m_min_cache_block_height c) (tb_height b)); lia
              |destruct (Z.ltb_spec (tb_height b) (m_max_cache_block_height c)); lia|done|done|].
  intros t d. rewrite Hs. unfold cached, check_duplicate_in_cache, consumes. cbn. done.
Qed.

Lemma insert_block_sorted b (s : rc_state) :
  key_sorted (m_transaction_recv_cache s.1) -> key_sorted (m_transaction_recv_cache (insert_block_tx_to_cache b s).2.1).
Proof.
  intros Hs. destruct s as [c out]. unfold insert_block_tx_to_cache.
  assert (forall txs (s : Z * rc_state), key_sorted (m_transaction_recv_cache s.2.1) ->
    key_sorted (m_transaction_recv_cache (fold_left insert_recv_tx txs s).2.1)) as Htxs.
  { induction txs as [|tx txs IH]; intros s' Hs'; cbn [fold_left]; [done|]. apply IH. destruct s' as [mt [c' o]].
    unfold insert_recv_tx. destruct (ri_is_recv tx); [by apply map_set_sorted|done]. }
  match goal with |- context [fold_left insert_unit_txs ?us ?s0] =>
    assert (key_sorted (m_transaction_recv_cache s0.2.1)) as H0 by done; revert H0; generalize us, s0 end.
  intros l. induction l as [|u l IH]; intros s' Hs'; cbn [fold_left]; [done|]. apply IH. unfold insert_unit_txs.
  destruct (negb _); [done|]. by apply Htxs.
Qed.

(** ** The invariant *)

Section Cache.
Context (chain : Z -> option table_block) (W : Z).

Definition chain_wf : Prop := forall h b, chain h = Some b -> tb_height b = h /\ 0 <= h < MAX_HEIGHT.

Record cache_inv (T : Z) (c : recv_cache) : Prop := {
  ci_sound : forall t d, cached c t d -> exists h b, chain h = Some b /\ consumes b t d /\
    m_min_cache_block_height c <= h <= m_max_cache_block_height c;
  ci_complete : forall h b t d, m_min_cache_block_height c <= h <= m_max_cache_block_height c ->
    chain h = Some b -> consumes b t d -> cached c t d \/ u64 (t + W) < T;
  ci_range : (m_min_cache_block_height c = MAX_HEIGHT /\ m_max_cache_block_height c = 0 /\ m_transaction_recv_cache c = []) \/
    0 <= m_min_cache_block_height c <= m_max_cache_block_height c;
  ci_latest : m_max_cache_block_height c <= m_latest_block_height c < MAX_HEIGHT;
  ci_sorted : key_sorted (m_transaction_recv_cache c)
}.

(** The environment of a call: the block store returns committed blocks of the
    chain, the window is fixed and the clock does not run backwards. *)
Record env_ok (T : Z) (env : cache_env) : Prop := {
  eo_load : forall h b, ce_load env h = Some b -> tb_committed b = true -> chain h = Some b;
  eo_latest : forall b, ce_latest env = Some b -> chain (tb_height b) = Some b;
  eo_window : ce_window env = W;
  eo_time : T <= ce_time env
}.

Context (Hchain : chain_wf).

Lemma cache_inv_mono T T' c : T <= T' -> cache_inv T c -> cache_inv T' c.
Proof. intros HT []. split; [done| |done|done|done]. intros. destruct (ci_complete0 h b t d); auto. right. lia. Qed.

Definition insertable (h : Z) (c : recv_cache) : Prop :=
  m_min_cache_block_height c = MAX_HEIGHT \/ m_min_cache_block_height c - 1 <= h <= m_max_cache_block_height c + 1.

Lemma inv_insert T b (s : rc_state) L :
  cache_inv T s.1 -> chain (tb_height b) = Some b -> insertable (tb_height b) s.1 ->
  Z.max (m_max_cache_block_height s.1) (tb_height b) <= L < MAX_HEIGHT ->
  cache_inv T (set_cache_latest L (insert_block_tx_to_cache b s).2.1).
Proof.
  intros [] Hb Hins Hl. destruct (insert_block_spec b s) as (Emin & Emax & El & _ & Hc).
  destruct (Hchain _ _ Hb) as [_ Hh]. split; cbn [m_min_cache_block_height m_max_cache_block_height m_latest_block_height set_cache_latest].
  - intros t d [Hd|Hd]%Hc.
    + destruct (ci_sound0 t d Hd) as (h & b' & ? & ? & ?). exists h, b'. split_and!; [done|done|lia..].
    + exists (tb_height b), b. split_and!; [done|done|lia..].
  - intros h b' t d Hr Hb' Hd. change (cached (set_cache_latest L ?c)) with (cached c). rewrite Hc.
    destruct (decide (h = tb_height b)) as [->|Hne].
    + rewrite Hb in Hb'. injection Hb' as <-. auto.
    + destruct (ci_complete0 h b' t d) as [?|?]; auto. unfold insertable in Hins. lia.
  - right. lia.
  - lia.
  - by apply (insert_block_sorted b s).
Qed.

Lemma set_cache_latest_same c : set_cache_latest (m_latest_block_height c) c = c.
Proof. by destruct c. Qed.

Lemma inv_load T env h s r :
  env_ok T env -> cache_inv T s.1 -> cache_from_db_with_timerblock_height env h s = Some r -> insertable h s.1 ->
  m_min_cache_block_height r.2.1 = Z.min (m_min_cache_block_height s.1) h /\
  m_max_cache_block_height r.2.1 = Z.max (m_max_cache_block_height s.1) h /\
  m_latest_block_height r.2.1 = m_latest_block_height s.1 /\ m_old_cache_full r.2.1 = m_old_cache_full s.1 /\
  forall L, Z.max (m_max_cache_block_height s.1) h <= L < MAX_HEIGHT -> cache_inv T (set_cache_latest L r.2.1).
Proof.
  intros He Hi. unfold cache_from_db_with_timerblock_height. destruct (ce_load env h) as [b|] eqn:El; [|done].
  destruct (tb_committed b) eqn:Ec; [|done]. intros [= <-] Hins.
  pose proof (eo_load _ _ He _ _ El Ec) as Hb. destruct (Hchain _ _ Hb) as [Hh _].
  destruct (insert_block_spec b s) as (Emin & Emax & Elt & Ef & _). rewrite Hh in *.
  split_and!; [done..|]. intros L HL. apply inv_insert; by rewrite ?Hh.
Qed.

Lemma inv_load_within T env h s r :
  env_ok T env -> cache_inv T s.1 -> cache_from_db_with_timerblock_height env h s = Some r -> insertable h s.1 ->
  h <= m_latest_block_height s.1 -> cache_inv T r.2.1.
Proof.
  intros He Hi Hr Hins Hl. destruct (inv_load T env h s r He Hi Hr Hins) as (_ & _ & E & _ & HL).
  rewrite <- (set_cache_latest_same r.2.1), E. apply HL. pose proof (ci_latest _ _ Hi). lia.
Qed.

Lemma cache_heights_inv T env n h s :
  env_ok T env -> cache_inv T s.1 -> insertable h s.1 -> h + Z.of_nat n - 1 <= m_latest_block_height s.1 ->
  let r := cache_heights env n h false s in
  cache_inv T r.2.1 /\ m_latest_block_height r.2.1 = m_latest_block_height s.1 /\
  (r.1 = true -> (0 < n)%nat -> h + Z.of_nat n - 1 <= m_max_cache_block_height r.2.1) /\
  (n = 0%nat -> r.2.1 = s.1).
Proof.
  intros He. revert h s. induction n as [|n IH]; intros h s Hi Hins Hl; cbn [cache_heights]; [by split_and!; [| |lia|]|].
  destruct (cache_from_db_with_timerblock_height env h s) as [[mt [c out]]|] eqn:Eload; [|by split_and!].
  destruct (inv_load T env h s _ He Hi Eload Hins) as (Emin & Emax & Elt & _ & _). cbn in Emin, Emax, Elt.
  pose proof (inv_load_within T env h s _ He Hi Eload Hins ltac:(lia)) as Hi'. cbn in Hi'.
  destruct (IH (h + 1) (c, out)) as (H1 & H2 & H3 & H4); cbn; [done| |lia|].
  { right. unfold insertable in Hins. pose proof (ci_range _ _ Hi). lia. }
  split_and!; [done|by rewrite H2|..]; [|done]. intros Hok _. destruct n as [|n]; [|specialize (H3 Hok ltac:(lia)); lia].
  rewrite (H4 eq_refl). cbn. lia.
Qed.

Lemma cache_heights_advance T env n h s :
  env_ok T env -> cache_inv T s.1 -> insertable h s.1 -> h = m_latest_block_height s.1 + 1 ->
  m_latest_block_height s.1 + Z.of_nat n < MAX_HEIGHT ->
  cache_inv T (cache_heights env n h true s).2.1.
Proof.
  intros He. revert h s. induction n as [|n IH]; intros h s Hi Hins Hh Hl; cbn [cache_heights]; [done|].
  destruct (cache_from_db_with_timerblock_height env h s) as [[mt [c out]]|] eqn:Eload; [|done].
  destruct (inv_load T env h s _ He Hi Eload Hins) as (Emin & Emax & Elt & _ & HL). cbn in Emin, Emax, Elt.
  pose proof (ci_latest _ _ Hi) as Hlt. pose proof (ci_range _ _ Hi) as Hra.
  rewrite u64_small by (unfold is_u64, MAX_HEIGHT in *; lia).
  apply IH; cbn; [apply HL; lia| |lia..]. right. cbn. unfold insertable in Hins. lia.
Qed.

(** A cache that so far holds the genesis block only is next given the block of
    height 1: [m_max_cache_block_height == 0] also means that nothing is cached. *)
Definition no_gap (env : cache_env) (c : recv_cache) : Prop :=
  m_latest_block_height c = 0 -> m_min_cache_block_height c <> MAX_HEIGHT ->
  forall b, ce_latest env = Some b -> tb_height b <= 1.

Lemma inv_set_latest T c L :
  cache_inv T c -> m_max_cache_block_height c <= L < MAX_HEIGHT -> cache_inv T (set_cache_latest L c).
Proof. intros [] HL. by split. Qed.

Lemma cache_loops_inv T env ch c out :
  env_ok T env -> cache_inv T c -> 0 <= ch <= MAX_HEIGHT ->
  cache_inv T (let from := u64 (m_max_cache_block_height c + 1) in
    let '(ok, (c, out)) := cache_heights env (heights from (m_latest_block_height c)) from false (c, out) in
    if negb ok then (false, (c, out))
    else if ch =? MAX_HEIGHT then (true, (c, out))
    else
      let from := u64 (m_latest_block_height c + 1) in
      cache_heights env (heights from ch) from true (c, out)).2.1.
Proof.
  intros He Hi Hch. pose proof (ci_latest _ _ Hi) as Hl. pose proof (ci_range _ _ Hi) as Hr. cbv zeta. unfold MAX_HEIGHT in *.
  rewrite (u64_small (m_max_cache_block_height c + 1)) by (unfold is_u64; lia). unfold heights at 1.
  set (n := Z.to_nat (m_latest_block_height c + 1 - (m_max_cache_block_height c + 1))).
  destruct (cache_heights_inv T env n (m_max_cache_block_height c + 1) (c, out)) as (H1 & H2 & H3 & H4); cbn [fst]; [done|done| |lia|].
  { destruct Hr as [[? _]|?]; [by left|right; lia]. }
  destruct (cache_heights env n (m_max_cache_block_height c + 1) false (c, out)) as [ok [c1 out1]]. cbn in H1, H2, H3, H4.
  destruct ok; cbn [negb]; [|done]. destruct (Z.eqb_spec ch 0xFFFFFFFFFFFFFFFF) as [|Hne]; [done|].
  assert (m_latest_block_height c1 <= m_max_cache_block_height c1) as Hm.
  { destruct (decide (n = 0%nat)) as [E|E]; [rewrite (H4 E); lia|]. specialize (H3 eq_refl ltac:(lia)). lia. }
  pose proof (ci_latest _ _ H1). pose proof (ci_range _ _ H1). unfold MAX_HEIGHT in *.
  rewrite u64_small by (unfold is_u64; lia). apply cache_heights_advance; cbn [fst]; [done|done| |lia|].
  - match goal with Hr : _ \/ 0 <= m_min_cache_block_height c1 <= _ |- _ => destruct Hr as [[? _]|?] end; [by left|right; lia].
  - unfold heights, MAX_HEIGHT. lia.
Qed.

Lemma cache_latest_inv T env ch s :
  env_ok T env -> cache_inv T s.1 -> 0 <= ch <= MAX_HEIGHT -> no_gap env s.1 ->
  cache_inv T (cache_latest_blocks env ch s).2.1.
Proof.
  intros He Hi Hch Hgap. unfold cache_latest_blocks. destruct (ch =? 0); [done|]. destruct s as [c out]. cbn [fst] in *.
  destruct (Z.eqb_spec (m_latest_block_height c) 0) as [E|E]; [|by apply cache_loops_inv].
  destruct (ce_latest env) as [b|] eqn:El; [|done].
  pose proof (eo_latest _ _ He b El) as Hb. destruct (Hchain _ _ Hb) as [_ Hh].
  pose proof (ci_latest _ _ Hi) as Hl. pose proof (ci_range _ _ Hi) as Hr.
  set (c0 := set_cache_latest (tb_height b) c).
  assert (cache_inv T (insert_block_tx_to_cache b (c0, out)).2.1) as Hi'.
  { rewrite <- (set_cache_latest_same (insert_block_tx_to_cache b (c0, out)).2.1).
    destruct (insert_block_spec b (c0, out)) as (_ & _ & -> & _). apply inv_insert; cbn; [|done| |lia].
    - apply inv_set_latest; [done|lia].
    - unfold insertable. cbn. destruct Hr as [[? _]|?]; [by left|right].
      assert (tb_height b <= 1) by (apply Hgap; [done|unfold MAX_HEIGHT in *; lia|done]). lia. }
  destruct (insert_block_tx_to_cache b (c0, out)) as [mt [c1 out1]]. cbn [snd fst] in *. by apply cache_loops_inv.
Qed.

(** ** Older blocks *)

Lemma load_until_inv T env n h s :
  env_ok T env -> cache_inv T s.1 -> h = m_min_cache_block_height s.1 -> h <> MAX_HEIGHT ->
  let '(_, h', s') := load_until_nonempty env n h s in
  cache_inv T s'.1 /\ h' = m_min_cache_block_height s'.1.
Proof.
  intros He. revert h s. induction n as [|n IH]; intros h s Hi Hh Hne; cbn [load_until_nonempty]; [done|].
  destruct (1 <? h) eqn:E1; cbn [andb]; [|done]. destruct (cache_empty s.1); [|done]. apply Z.ltb_lt in E1.
  destruct (cache_from_db_with_timerblock_height env (h - 1) s) as [[mt s']|] eqn:El; [|done].
  pose proof (ci_range _ _ Hi) as Hr. pose proof (ci_latest _ _ Hi) as Hl.
  assert (insertable (h - 1) s.1) as Hins by (right; lia).
  destruct (inv_load T env _ s _ He Hi El Hins) as (Emin & _). cbn in Emin.
  pose proof (inv_load_within T env _ s _ He Hi El Hins ltac:(lia)) as Hi'. cbn in Hi'.
  apply IH; [done|lia|]. unfold MAX_HEIGHT in *. lia.
Qed.

Lemma load_older_inv T env n h old tr s :
  env_ok T env -> cache_inv T s.1 -> h = m_min_cache_block_height s.1 -> h <> MAX_HEIGHT ->
  cache_inv T (load_older env n h old tr s).2.1.
Proof.
  intros He. revert h tr s. induction n as [|n IH]; intros h tr s Hi Hh Hne; cbn [load_older]; [done|].
  destruct (1 <? h) eqn:E1; cbn [andb]; [|done]. destruct (_ <=? _); [|done]. apply Z.ltb_lt in E1.
  destruct (cache_from_db_with_timerblock_height env (h - 1) s) as [[mt s']|] eqn:El; [|done].
  pose proof (ci_range _ _ Hi) as Hr. pose proof (ci_latest _ _ Hi) as Hl.
  assert (insertable (h - 1) s.1) as Hins by (right; lia).
  destruct (inv_load T env _ s _ He Hi El Hins) as (Emin & _). cbn in Emin.
  pose proof (inv_load_within T env _ s _ He Hi El Hins ltac:(lia)) as Hi'. cbn in Hi'.
  apply IH; [done|lia|]. unfold MAX_HEIGHT in *. lia.
Qed.
End Cache.
