(* ===== verification/RecvCacheProps.v ===== *)
(** * What the check of a receipt guarantees, and what it misses *)

From stdpp Require Import prelude gmap strings.
From Stdlib Require Import ZArith Lia.
From S2P Require Import Prelude StdMap StoreBlock TxData RecvCache RecvCacheFacts.

Section Props.
Context (chain : Z -> option table_block) (W : Z) (Hchain : chain_wf chain).

Lemma inv_set_full T c : cache_inv chain W T c -> cache_inv chain W T (set_cache_full c).
Proof. intros []. by split. Qed.

Lemma cache_old_inv T env t s :
  env_ok chain W T env -> cache_inv chain W T s.1 -> cache_inv chain W T (cache_old_blocks env t s).2.1.
Proof.
  intros He Hi. unfold cache_old_blocks. destruct (m_old_cache_full s.1); [done|].
  pose proof (load_until_inv chain W Hchain T env (Z.to_nat (m_min_cache_block_height s.1)) _ s He Hi eq_refl) as Hlu.
  cbv zeta. set (x := if negb _ && _ then _ else _).
  assert (cache_inv chain W T x.2.1 /\ x.1.2 = m_min_cache_block_height x.2.1) as [Hi1 Hh].
  { subst x. destruct (Z.eqb_spec (m_min_cache_block_height s.1) MAX_HEIGHT) as [|Hne]; cbn [negb andb]; [done|].
    destruct (cache_empty s.1); [|done]. specialize (Hlu Hne). by destruct (load_until_nonempty _ _ _ _) as [[? ?] ?]. }
  destruct x as [[ok h] s1]. cbn in Hi1, Hh.
  destruct ok; cbn [negb]; [|done]. destruct (m_transaction_recv_cache s1.1) as [|[first ds] m] eqn:Em; [done|].
  destruct (_ <=? t); [done|].
  assert (h <> MAX_HEIGHT) as Hne.
  { intros E. rewrite Hh in E. destruct (ci_range _ _ _ _ Hi1) as [(_ & _ & Hx)|Hx]; [congruence|].
    pose proof (ci_latest _ _ _ _ Hi1). lia. }
  pose proof (load_older_inv chain W Hchain T env (Z.to_nat h) h t (u64 (first + MORE_BLOCK_HEIGHT)) s1 He Hi1 Hh Hne) as Hlo.
  destruct (load_older _ _ _ _ _ _) as [[ok tr] s2]. cbn in Hlo.
  destruct ok; cbn [negb]; [|done]. destruct (_ <=? ce_time env); [by apply inv_set_full|done].
Qed.

Lemma drop_expired_sound cur m t v :
  key_sorted m -> map_find t (drop_expired W cur m) = Some v -> map_find t m = Some v.
Proof.
  intros Hs Hf. apply map_find_in; [done|]. clear Hs. induction m as [|[k w] m IH]; cbn in Hf; [done|].
  destruct (_ <? _); [right; auto|]. by apply map_find_Some_in in Hf.
Qed.
Lemma drop_expired_keeps cur m t : cur <= u64 (t + W) -> map_find t (drop_expired W cur m) = map_find t m.
Proof.
  intros Ht. induction m as [|[k v] m IH]; cbn; [done|]. destruct (Z.ltb_spec (u64 (k + W)) cur); [|done].
  rewrite IH, decide_False; [done|]. intros ->. lia.
Qed.
Lemma drop_expired_sorted cur m : key_sorted m -> key_sorted (drop_expired W cur m).
Proof. induction 1 as [|e m Hs IH Hf]; cbn; [constructor|]. destruct (_ <? _); [done|]. by constructor. Qed.

Lemma delete_expired_inv env c :
  ce_window env = W -> cache_inv chain W (ce_time env) c -> cache_inv chain W (ce_time env) (delete_expired_cache env c).
Proof.
  intros Ew []. unfold delete_expired_cache. destruct (_ || _); [by split|]. rewrite Ew. split; cbn.
  - intros t d Hd. apply ci_sound. unfold cached, check_duplicate_in_cache in *. cbn in Hd.
    destruct (map_find t (drop_expired _ _ _)) eqn:E; [|done]. by rewrite (drop_expired_sound _ _ _ _ ci_sorted E).
  - intros h b t d Hr Hb Hd. destruct (Z.lt_ge_cases (u64 (t + W)) (ce_time env)) as [?|Hge]; [by right|].
    destruct (ci_complete h b t d Hr Hb Hd) as [Hc|?]; [|by right]. left. unfold cached, check_duplicate_in_cache in *.
    cbn. by rewrite drop_expired_keeps.
  - destruct ci_range as [(? & ? & E)|?]; [left|by right]. by rewrite E.
  - done.
  - by apply drop_expired_sorted.
Qed.

Lemma new_cache_inv T : cache_inv chain W T new_recv_cache.
Proof.
  split; cbn; [done| |by left|unfold MAX_HEIGHT; lia|constructor]. intros h b t d Hr. unfold MAX_HEIGHT in Hr. lia.
Qed.

Lemma update_inv T env b c :
  env_ok chain W T env -> cache_inv chain W T c -> chain (tb_height b) = Some b -> 1 <= tb_height b ->
  (m_max_cache_block_height c = 0 -> m_min_cache_block_height c <> MAX_HEIGHT -> tb_height b = 1) ->
  cache_inv chain W (ce_time env) (update_tx_cache env b c).1.
Proof.
  intros He Hi Hb H1 Hgap. unfold update_tx_cache. cbv zeta.
  set (L := if tb_height b <? m_latest_block_height c then _ else _).
  assert (L = Z.max (m_latest_block_height c) (tb_height b)) as EL
    by (subst L; destruct (Z.ltb_spec (tb_height b) (m_latest_block_height c)); lia).
  destruct (Hchain _ _ Hb) as [_ Hh]. pose proof (ci_latest _ _ _ _ Hi) as Hl. pose proof (ci_range _ _ _ _ Hi) as Hr.
  assert (cache_inv chain W T (set_cache_latest L c)) as Hi0 by (apply inv_set_latest; [done|lia]).
  cbn [m_max_cache_block_height set_cache_latest]. rewrite u64_small by (unfold is_u64, MAX_HEIGHT in *; lia).
  set (s := if _ || _ then _ else _).
  assert (cache_inv chain W T s.1 /\ m_latest_block_height s.1 = L) as [Hi1 El].
  { subst s. destruct ((tb_height b =? _) || _) eqn:E; [|done].
    destruct (insert_block_spec b (set_cache_latest L c, [])) as (_ & _ & E2 & _).
    split; [|by rewrite E2]. cbn [snd]. rewrite <- (set_cache_latest_same (insert_block_tx_to_cache b _).2.1), E2.
    apply inv_insert; cbn; [done|done|done| |lia].
    unfold insertable. cbn. destruct Hr as [(? & _)|Hr]; [by left|right].
    apply orb_true_iff in E as [E%Z.eqb_eq|E%Z.eqb_eq]; [lia|].
    assert (tb_height b = 1) by (apply Hgap; [done|unfold MAX_HEIGHT in *; lia]). lia. }
  pose proof (cache_latest_inv chain W Hchain T env MAX_HEIGHT s He Hi1) as Hcl.
  destruct (cache_latest_blocks env MAX_HEIGHT s) as [ok [c' out]]. cbn [fst snd] in *.
  apply delete_expired_inv; [apply He|]. eapply cache_inv_mono; [apply He|]. apply Hcl; [unfold MAX_HEIGHT; lia|].
  intros E0. lia.
Qed.

Lemma check_inv T env t d ch c :
  env_ok chain W T env -> cache_inv chain W T c -> 0 <= ch <= MAX_HEIGHT -> no_gap env c ->
  cache_inv chain W T (is_receipt_duplicated env t d ch c).2.1.
Proof.
  intros He Hi Hch Hgap. unfold is_receipt_duplicated. destruct (_ <? _); [done|].
  pose proof (cache_latest_inv chain W Hchain T env ch (c, []) He Hi Hch Hgap) as Hcl.
  destruct (cache_latest_blocks env ch (c, [])) as [ok s]. cbn [fst snd] in *. destruct ok; [|done].
  pose proof (cache_old_inv T env t s He Hcl) as Hco. by destruct (cache_old_blocks env t s) as [ok s'].
Qed.

(** ** Executions *)

(** Calls of the cache, with the latest clock seen. *)
Inductive cache_step : Z * recv_cache -> Z * recv_cache -> Prop :=
| step_update T c env b :
    env_ok chain W T env -> chain (tb_height b) = Some b -> 1 <= tb_height b ->
    (m_max_cache_block_height c = 0 -> m_min_cache_block_height c <> MAX_HEIGHT -> tb_height b = 1) ->
    cache_step (T, c) (ce_time env, (update_tx_cache env b c).1)
| step_check T c env t d ch :
    env_ok chain W T env -> 0 <= ch <= MAX_HEIGHT -> no_gap env c ->
    cache_step (T, c) (ce_time env, (is_receipt_duplicated env t d ch c).2.1)
| step_clear T c : cache_step (T, c) (T, rc_clear c).

Lemma cache_steps_inv p q :
  rtc cache_step p q -> cache_inv chain W p.1 p.2 -> cache_inv chain W q.1 q.2.
Proof.
  induction 1 as [|p q r Hs _ IH]; [done|]. intros Hi. apply IH. destruct Hs; cbn in *.
  - by eapply update_inv.
  - eapply cache_inv_mono; [by eapply eo_time|]. by apply check_inv.
  - apply new_cache_inv.
Qed.

(** The check of a receipt on a cache that satisfies the invariant. *)
Lemma check_spec T c env t d ch ret c' out :
  cache_inv chain W T c -> env_ok chain W T env -> 0 <= ch <= MAX_HEIGHT -> no_gap env c ->
  is_receipt_duplicated env t d ch c = (ret, (c', out)) ->
  (ret = xtxpool_error_sendtx_receipt_duplicate -> exists h b, chain h = Some b /\ consumes b t d) /\
  (ret = xtxpool_error_sendtx_receipt_expired <-> u64 (t + W) < ce_time env) /\
  (ce_time env <= u64 (t + W) -> forall h b,
     m_min_cache_block_height c' <= h <= m_max_cache_block_height c' -> chain h = Some b -> consumes b t d ->
     ret = xtxpool_error_sendtx_receipt_duplicate) /\
  (ret = xsuccess ->
     m_max_cache_block_height c' = m_latest_block_height c' /\
     (ch = MAX_HEIGHT \/ ch = m_latest_block_height c') /\
     forall h b, m_min_cache_block_height c' <= h <= m_latest_block_height c' -> chain h = Some b -> ~ consumes b t d).
Proof.
  intros Hi He Hch Hgap E.
  pose proof (check_inv T env t d ch c He Hi Hch Hgap) as Hi'. rewrite E in Hi'. cbn in Hi'.
  unfold is_receipt_duplicated in E. rewrite (eo_window _ _ _ _ He) in E.
  destruct (Z.ltb_spec (u64 (t + W)) (ce_time env)) as [Hx|Hx].
  { injection E as <- <- <-. split_and!; [done|done|lia|done]. }
  assert (forall h b, m_min_cache_block_height c' <= h <= m_max_cache_block_height c' -> chain h = Some b ->
    consumes b t d -> check_duplicate_in_cache t d c' = true) as Hcomplete.
  { intros h b Hh Hb Hd. destruct (ci_complete _ _ _ _ Hi' h b t d Hh Hb Hd) as [?|?]; [done|].
    pose proof (eo_time _ _ _ _ He). lia. }
  destruct (cache_latest_blocks env ch (c, [])) as [ok1 s1].
  destruct (if ok1 then cache_old_blocks env t s1 else (false, s1)) as [ok s]. injection E as <- Es. subst s. cbn [fst].
  destruct (check_duplicate_in_cache t d c') eqn:Ed.
  - split; [|split; [split; [done|lia]|by split]].
    intros _. destruct (ci_sound _ _ _ _ Hi' t d Ed) as (h & b & ? & ? & _). eauto.
  - split; [|split; [|split]].
    + by destruct (_ && _).
    + split; [by destruct (_ && _)|lia].
    + intros _ h b Hh Hb Hd. by specialize (Hcomplete h b Hh Hb Hd).
    + destruct (ok && _) eqn:Eo; [|done]. intros _. apply andb_true_iff in Eo as [_ Eo].
      unfold check_timer_height_trusted_section_by_left in Eo. apply andb_true_iff in Eo as [Em%Z.eqb_eq Eo].
      rewrite orb_true_iff, !Z.eqb_eq in Eo. split; [done|]. split; [exact Eo|].
      intros h b Hh Hb Hd. rewrite <- Em in Hh. by specialize (Hcomplete h b Hh Hb Hd).
Qed.

(** A check never gives up known blocks. *)
Lemma load_mono env h s r :
  cache_from_db_with_timerblock_height env h s = Some r ->
  m_min_cache_block_height r.2.1 <= m_min_cache_block_height s.1 /\ m_latest_block_height r.2.1 = m_latest_block_height s.1.
Proof.
  unfold cache_from_db_with_timerblock_height. destruct (ce_load env h) as [b|]; [|done].
  destruct (tb_committed b); [|done]. intros [= <-].
  destruct (insert_block_spec b s) as (-> & _ & -> & _). lia.
Qed.

Definition grows (c c' : recv_cache) : Prop :=
  m_min_cache_block_height c' <= m_min_cache_block_height c /\ m_latest_block_height c <= m_latest_block_height c'.

Lemma grows_trans a b c : grows a b -> grows b c -> grows a c.
Proof. unfold grows. lia. Qed.

Lemma cache_heights_mono env n h adv s :
  m_latest_block_height s.1 + Z.of_nat n < 2 ^ 64 -> 0 <= m_latest_block_height s.1 ->
  grows s.1 (cache_heights env n h adv s).2.1.
Proof.
  unfold grows. revert h s. induction n as [|n IH]; intros h s Hl H0; cbn [cache_heights]; [cbn; lia|].
  destruct (cache_from_db_with_timerblock_height env h s) as [[mt [c out]]|] eqn:E; [|cbn; lia].
  destruct (load_mono _ _ _ _ E) as [E1 E2]. cbn in E1, E2. destruct adv.
  - specialize (IH (h + 1) (set_cache_latest (u64 (m_latest_block_height c + 1)) c, out)). cbn in IH.
    rewrite u64_small in IH by (unfold is_u64; lia). rewrite u64_small by (unfold is_u64; lia). lia.
  - specialize (IH (h + 1) (c, out)). cbn in IH. lia.
Qed.

Lemma load_until_mono env n h s : grows s.1 (load_until_nonempty env n h s).2.1.
Proof.
  unfold grows. revert h s. induction n as [|n IH]; intros h s; cbn [load_until_nonempty]; [cbn; lia|].
  destruct (_ && _); [|cbn; lia]. destruct (cache_from_db_with_timerblock_height env (h - 1) s) as [[mt s']|] eqn:E; [|cbn; lia].
  destruct (load_mono _ _ _ _ E) as [E1 E2]. cbn in E1, E2. specialize (IH (h - 1) s'). lia.
Qed.
Lemma load_older_mono env n h old tr s : grows s.1 (load_older env n h old tr s).2.1.
Proof.
  unfold grows. revert h tr s. induction n as [|n IH]; intros h tr s; cbn [load_older]; [cbn; lia|].
  destruct (_ && _); [|cbn; lia]. destruct (cache_from_db_with_timerblock_height env (h - 1) s) as [[mt s']|] eqn:E; [|cbn; lia].
  destruct (load_mono _ _ _ _ E) as [E1 E2]. cbn in E1, E2.
  match goal with |- context [load_older env n (h - 1) old ?tr' s'] => specialize (IH (h - 1) tr' s') end. lia.
Qed.

Lemma cache_old_mono env t s : grows s.1 (cache_old_blocks env t s).2.1.
Proof.
  unfold cache_old_blocks. destruct (m_old_cache_full s.1); [unfold grows; cbn; lia|]. cbv zeta.
  set (x := if negb _ && _ then _ else _).
  assert (grows s.1 x.2.1) as G1 by (subst x; destruct (_ && _); [apply load_until_mono|unfold grows; cbn; lia]).
  destruct x as [[ok h] s1]. cbn [snd] in G1. destruct ok; cbn [negb]; [|done].
  destruct (m_transaction_recv_cache s1.1) as [|[k ds] m]; [done|]. destruct (_ <=? t); [done|].
  pose proof (load_older_mono env (Z.to_nat h) h t (u64 (k + MORE_BLOCK_HEIGHT)) s1) as G2.
  destruct (load_older _ _ _ _ _ _) as [[ok tr] s2]. cbn [snd] in G2.
  assert (grows s.1 s2.1) as G by (unfold grows in *; lia). destruct ok; cbn [negb]; [|done].
  by destruct (_ <=? ce_time env).
Qed.

Lemma cache_loops_mono ch c out env :
  0 <= ch <= MAX_HEIGHT -> 0 <= m_latest_block_height c < MAX_HEIGHT -> 0 <= m_max_cache_block_height c < MAX_HEIGHT ->
  grows c (let from := u64 (m_max_cache_block_height c + 1) in
    let '(ok, (c, out)) := cache_heights env (heights from (m_latest_block_height c)) from false (c, out) in
    if negb ok then (false, (c, out))
    else if ch =? MAX_HEIGHT then (true, (c, out))
    else
      let from := u64 (m_latest_block_height c + 1) in
      cache_heights env (heights from ch) from true (c, out)).2.1.
Proof.
  intros Hch Hl Hm. cbv zeta. unfold MAX_HEIGHT in *. rewrite (u64_small (m_max_cache_block_height c + 1)) by (unfold is_u64; lia).
  unfold heights at 1. set (n := Z.to_nat _).
  assert (grows c (cache_heights env n (m_max_cache_block_height c + 1) false (c, out)).2.1 /\
    m_latest_block_height (cache_heights env n (m_max_cache_block_height c + 1) false (c, out)).2.1 = m_latest_block_height c) as [G1 E1].
  { clearbody n. generalize (m_max_cache_block_height c + 1) as h. intros h. clear -Hl. revert c out h Hl.
    induction n as [|n IH]; intros c out h Hl; cbn [cache_heights]; [unfold grows; cbn; lia|].
    destruct (cache_from_db_with_timerblock_height env h (c, out)) as [[mt [c1 out1]]|] eqn:E; [|unfold grows; cbn; lia].
    destruct (load_mono _ _ _ _ E) as [E1 E2]. cbn in E1, E2.
    destruct (IH c1 out1 (h + 1) ltac:(lia)) as [G E3]. unfold grows in *. lia. }
  destruct (cache_heights env n (m_max_cache_block_height c + 1) false (c, out)) as [ok [c1 out1]]. cbn in G1, E1.
  destruct ok; cbn [negb]; [|done]. destruct (Z.eqb_spec ch 0xFFFFFFFFFFFFFFFF); [done|].
  rewrite u64_small by (unfold is_u64; lia).
  pose proof (cache_heights_mono env (heights (m_latest_block_height c1 + 1) ch) (m_latest_block_height c1 + 1) true (c1, out1)) as G2.
  cbn [fst] in G2. specialize (G2 ltac:(unfold heights; lia) ltac:(lia)).
  eapply grows_trans; [exact G1|exact G2].
Qed.

Lemma cache_latest_mono T env ch s :
  cache_inv chain W T s.1 -> env_ok chain W T env -> 0 <= ch <= MAX_HEIGHT ->
  let c' := (cache_latest_blocks env ch s).2.1 in
  grows s.1 c' /\
  (m_latest_block_height s.1 = 0 -> ch <> 0 -> forall b, ce_latest env = Some b -> tb_height b <= m_latest_block_height c').
Proof.
  intros Hi He Hch. unfold cache_latest_blocks. destruct (Z.eqb_spec ch 0) as [|Hne]; [split; [unfold grows; cbn; lia|done]|].
  destruct s as [c out]. cbn [fst] in *. pose proof (ci_latest _ _ _ _ Hi) as Hl. pose proof (ci_range _ _ _ _ Hi) as Hr.
  unfold MAX_HEIGHT in *.
  destruct (Z.eqb_spec (m_latest_block_height c) 0) as [E|E].
  - destruct (ce_latest env) as [b|] eqn:El; [|split; [unfold grows; cbn; lia|done]].
    pose proof (eo_latest _ _ _ _ He b El) as Hb. destruct (Hchain _ _ Hb) as [_ Hh]. unfold MAX_HEIGHT in Hh.
    destruct (insert_block_spec b (set_cache_latest (tb_height b) c, out)) as (Emin & Emax & Elt & _).
    destruct (insert_block_tx_to_cache b (set_cache_latest (tb_height b) c, out)) as [mt [c1 out1]]. cbn [snd fst] in *. cbn in Emin, Emax, Elt.
    pose proof (cache_loops_mono ch c1 out1 env Hch) as G. unfold MAX_HEIGHT in G. specialize (G ltac:(lia) ltac:(lia)).
    split; [eapply grows_trans; [|exact G]; unfold grows; lia|].
    intros _ _ b' [= <-]. destruct G as [_ G]. etransitivity; [|exact G]. lia.
  - pose proof (cache_loops_mono ch c out env Hch) as G. unfold MAX_HEIGHT in G. specialize (G ltac:(lia) ltac:(lia)).
    split; [done|]. by intros ?.
Qed.

Lemma check_keeps_range T env t d ch c :
  cache_inv chain W T c -> env_ok chain W T env -> 0 <= ch <= MAX_HEIGHT -> no_gap env c ->
  let c' := (is_receipt_duplicated env t d ch c).2.1 in
  m_min_cache_block_height c' <= m_min_cache_block_height c /\ no_gap env c'.
Proof.
  intros Hi He Hch Hgap. unfold is_receipt_duplicated. destruct (_ <? _); [cbn; split; [lia|done]|].
  destruct (cache_latest_mono T env ch (c, []) Hi He Hch) as [G1 Hb].
  assert (ch = 0 -> (cache_latest_blocks env ch (c, [])).2 = (c, [])) as H0 by (by intros ->).
  destruct (cache_latest_blocks env ch (c, [])) as [ok s1]. cbn [fst snd] in *.
  set (x := if ok then cache_old_blocks env t s1 else (false, s1)).
  assert (grows s1.1 x.2.1 /\ (m_min_cache_block_height s1.1 = MAX_HEIGHT -> m_transaction_recv_cache s1.1 = [] ->
    m_min_cache_block_height x.2.1 = MAX_HEIGHT)) as [G2 Hf].
  { subst x. destruct ok; [|by split; [unfold grows; cbn; lia|]]. split; [apply cache_old_mono|]. intros Em En.
    unfold cache_old_blocks. destruct (m_old_cache_full s1.1); [done|]. rewrite Em, Z.eqb_refl. cbn [negb andb fst]. by rewrite En. }
  destruct x as [ok' s2]. cbn [fst snd] in *. unfold grows in *. split; [lia|].
  intros El Em b Eb. pose proof (ci_latest _ _ _ _ Hi) as Hl. pose proof (ci_range _ _ _ _ Hi) as Hr. unfold MAX_HEIGHT in *.
  assert (m_latest_block_height c = 0) as E0 by lia.
  destruct (decide (ch = 0)) as [Ez|Ez]; [|specialize (Hb E0 Ez b Eb); lia].
  rewrite (H0 Ez) in *. cbn [fst] in *. apply Hgap; [done| |done]. unfold MAX_HEIGHT. intros Emin. apply Em.
  apply Hf; [done|]. destruct Hr as [(_ & _ & ?)|Hr]; [done|lia].
Qed.

(** C30. After any updates, checks and clears, under [env_ok] (the blocks loaded
    are those of the chain, the clock does not run back) and as long as a cache
    that holds the genesis block only is next given the block of height 1
    ([no_gap]): a receipt the check reports as duplicate was consumed by a
    committed block.  Outside the window, and only there, it is reported as
    expired.  Within it, a receipt that a block of the cached section consumed
    is reported as duplicate; when the receipt is passed, the section reaches up
    to the latest block the cache knows, which is the one the caller asks for,
    and no block of the section consumed the receipt. *)
Theorem receipt_check_correct T c env t d ch ret c' out :
  rtc cache_step (0, new_recv_cache) (T, c) -> env_ok chain W T env -> 0 <= ch <= MAX_HEIGHT -> no_gap env c ->
  is_receipt_duplicated env t d ch c = (ret, (c', out)) ->
  (ret = xtxpool_error_sendtx_receipt_duplicate -> exists h b, chain h = Some b /\ consumes b t d) /\
  (ret = xtxpool_error_sendtx_receipt_expired <-> u64 (t + W) < ce_time env) /\
  (ce_time env <= u64 (t + W) -> forall h b,
     m_min_cache_block_height c' <= h <= m_max_cache_block_height c' -> chain h = Some b -> consumes b t d ->
     ret = xtxpool_error_sendtx_receipt_duplicate) /\
  (ret = xsuccess ->
     m_max_cache_block_height c' = m_latest_block_height c' /\
     (ch = MAX_HEIGHT \/ ch = m_latest_block_height c') /\
     forall h b, m_min_cache_block_height c' <= h <= m_latest_block_height c' -> chain h = Some b -> ~ consumes b t d).
Proof.
  intros Hr. pose proof (cache_steps_inv _ _ Hr (new_cache_inv 0)) as Hi. by apply check_spec.
Qed.
End Props.

(** A cache that holds any receipt and knows the blocks up to the latest one
    loads no older block, whatever the clock of the receipt: a receipt that a
    block below the cached section consumed is passed as new. *)
Theorem old_receipt_missed env t d ch c :
  m_transaction_recv_cache c <> [] ->
  m_max_cache_block_height c = m_latest_block_height c -> 0 < m_latest_block_height c < MAX_HEIGHT ->
  ch = MAX_HEIGHT \/ ch = m_latest_block_height c ->
  ce_time env <= u64 (t + ce_window env) -> ~ cached c t d ->
  exists c', is_receipt_duplicated env t d ch c = (xsuccess, (c', [])) /\
    m_min_cache_block_height c' = m_min_cache_block_height c /\
    m_transaction_recv_cache c' = m_transaction_recv_cache c.
Proof.
  intros Hne Hm Hl Hch Ht Hc. unfold is_receipt_duplicated. rewrite (proj2 (Z.ltb_ge _ _)) by lia.
  assert (cache_latest_blocks env ch (c, []) = (true, (c, []))) as ->.
  { unfold cache_latest_blocks. rewrite (proj2 (Z.eqb_neq ch 0)), (proj2 (Z.eqb_neq (m_latest_block_height c) 0))
      by (unfold MAX_HEIGHT in *; lia).
    rewrite u64_small by (unfold is_u64, MAX_HEIGHT in *; lia). unfold heights at 1.
    replace (Z.to_nat _) with 0%nat by lia. cbn [cache_heights negb].
    destruct (Z.eqb_spec ch MAX_HEIGHT); [done|]. rewrite u64_small by (unfold is_u64, MAX_HEIGHT in *; lia).
    unfold heights. by replace (Z.to_nat _) with 0%nat by lia. }
  assert (exists c', cache_old_blocks env t (c, []) = (true, (c', [])) /\ (c' = c \/ c' = set_cache_full c)) as (c' & -> & Hc').
  { unfold cache_old_blocks. cbn [fst]. destruct (m_old_cache_full c); [eauto|].
    unfold cache_empty. destruct (m_transaction_recv_cache c) as [|[k ds] m] eqn:Em; [done|].
    rewrite andb_false_r. cbn [negb fst]. rewrite Em. destruct (Z.leb_spec (u64 (k + MORE_BLOCK_HEIGHT)) t); [eauto|].
    assert (load_older env (Z.to_nat (m_min_cache_block_height c)) (m_min_cache_block_height c) t (u64 (k + MORE_BLOCK_HEIGHT)) (c, [])
      = (true, u64 (k + MORE_BLOCK_HEIGHT), (c, []))) as ->.
    { destruct (Z.to_nat (m_min_cache_block_height c)); cbn [load_older]; [done|].
      rewrite (proj2 (Z.leb_gt _ _)) by lia. by rewrite andb_false_r. }
    cbn [negb]. destruct (_ <=? _); eauto. }
  exists c'. cbn [fst].
  assert (check_duplicate_in_cache t d c' = false) as Ed.
  { apply not_true_is_false. intros Ed. apply Hc. destruct Hc' as [->| ->]; exact Ed. }
  assert (check_timer_height_trusted_section_by_left ch c' = true) as Ek.
  { unfold check_timer_height_trusted_section_by_left.
    assert (m_max_cache_block_height c' = m_max_cache_block_height c /\ m_latest_block_height c' = m_latest_block_height c)
      as [Ea Eb] by (by destruct Hc' as [->| ->]). rewrite Ea, Eb.
    rewrite (proj2 (Z.eqb_eq _ _) Hm). cbn. apply orb_true_iff. rewrite !Z.eqb_eq. done. }
  rewrite Ed, Ek. cbn. split; [done|]. by destruct Hc' as [->| ->].
Qed.

(** C39. A cache that holds the genesis block only ([m_max_cache_block_height] and
    [m_latest_block_height] are 0, which also stands for nothing cached) and is
    then asked about a receipt while the latest committed block is of height 2
    or more takes that block alone: it passes a receipt of no cached block as
    new, and claims the section from 0 up to the latest block, whatever the
    blocks between consumed. *)
Theorem genesis_gap_passes env t d b c :
  m_min_cache_block_height c = 0 -> m_max_cache_block_height c = 0 -> m_latest_block_height c = 0 ->
  ce_latest env = Some b -> 1 < tb_height b < MAX_HEIGHT -> ce_time env <= u64 (t + ce_window env) ->
  ~ cached c t d -> ~ consumes b t d ->
  exists c' out, is_receipt_duplicated env t d MAX_HEIGHT c = (xsuccess, (c', out)) /\
    m_min_cache_block_height c' = 0 /\ m_max_cache_block_height c' = tb_height b /\ m_latest_block_height c' = tb_height b.
Proof.
  intros Hmin Hmax Hlat El Hb Ht Hc Hn. unfold is_receipt_duplicated. rewrite (proj2 (Z.ltb_ge _ _)) by lia.
  destruct (insert_block_spec b (set_cache_latest (tb_height b) c, [])) as (Emin & Emax & Elt & _ & Ed).
  assert (cache_latest_blocks env MAX_HEIGHT (c, []) =
    (true, (insert_block_tx_to_cache b (set_cache_latest (tb_height b) c, [])).2)) as ->.
  { unfold cache_latest_blocks. rewrite Hlat, El. cbn [Z.eqb]. destruct (insert_block_tx_to_cache _ _) as [mt [c1 out]].
    cbn [snd fst] in *. cbn in Emin, Emax, Elt. rewrite Elt, Emax, Hmax. rewrite u64_small by (unfold is_u64, MAX_HEIGHT in *; lia).
    unfold heights. replace (Z.to_nat _) with 0%nat by lia. done. }
  destruct (insert_block_tx_to_cache _ _) as [mt [c1 out]]. cbn [snd fst] in *. cbn in Emin, Emax, Elt.
  assert (exists c', cache_old_blocks env t (c1, out) = (true, (c', out)) /\ (c' = c1 \/ c' = set_cache_full c1)) as (c' & -> & Hc').
  { unfold cache_old_blocks. cbn [fst]. destruct (m_old_cache_full c1); [eauto|]. rewrite Emin, Hmin.
    rewrite Z.min_l by lia. change (Z.to_nat 0) with 0%nat. destruct (_ && _); cbn [load_until_nonempty negb fst]; change (Z.to_nat 0) with 0%nat;
    (destruct (m_transaction_recv_cache c1) as [|[k ds] m]; [by eauto|]); (destruct (_ <=? t); [by eauto|]); cbn [load_older negb];
    destruct (_ <=? _); eauto. }
  assert (check_duplicate_in_cache t d c' = false) as Ef.
  { apply not_true_is_false. intros Ed'. assert (cached c1 t d) as Hx by (by destruct Hc' as [->| ->]).
    apply Ed in Hx as [Hx|Hx]; [by apply Hc|done]. }
  assert (m_min_cache_block_height c' = 0 /\ m_max_cache_block_height c' = tb_height b /\ m_latest_block_height c' = tb_height b)
    as (E1 & E2 & E3) by (destruct Hc' as [->| ->]; cbn; lia).
  exists c', out. split; [|done]. cbn [fst snd]. rewrite Ef. unfold check_timer_height_trusted_section_by_left.
  by rewrite E2, E3, !Z.eqb_refl.
Qed.
