(* ===== verification/UnconfirmCache.v ===== *)
(** * Receipts not yet confirmed: [xtxpool/src/xunconfirm_sendtx_cache.cpp]

    For every account of the table whose latest unit has unconfirmed send
    transactions the cache keeps their receipts, rebuilt from the account's
    units, and a queue of the receipts to send again.  A receipt is one object
    shared by both: it is identified by a number, and [uc_confirmed] is the set
    of objects whose [m_is_confirmed] is set.  The units are what the block
    store returns of them.  Results are [None] where the code dereferences a
    null pointer: a unit that cannot be loaded or is not a light unit. *)

From stdpp Require Import prelude gmap strings.
From Stdlib Require Import ZArith Lia.
From S2P Require Import Prelude StdMap StoreBlock AccountAddr TxData.

Definition MAX_ONCE_PROCESS_RETRY_SENDTX_RECEIPT : Z := 50.
Definition send_tx_receipt_first_retry_timeout : Z := 200.
Definition send_tx_receipt_common_retry_timeout : Z := 800.
Definition recv_table_accounts_max_accounts : nat := 5.

(** ** Times of [xtxpool_face.h], on 64 bits; the result of the first on 32 *)

Definition get_receipt_resend_time (cert_time now : Z) : Z :=
  if now <? cert_time then 0
  else
    let delay_time := u64 (now - cert_time) in
    if delay_time <? send_tx_receipt_first_retry_timeout then 0
    else if delay_time <? send_tx_receipt_first_retry_timeout + send_tx_receipt_common_retry_timeout then 1
    else u32 (1 + (delay_time - send_tx_receipt_first_retry_timeout) / send_tx_receipt_common_retry_timeout).

Definition get_next_retry_timestamp (cert_time now : Z) : Z :=
  if now <? u64 (cert_time + send_tx_receipt_first_retry_timeout)
  then u64 (cert_time + send_tx_receipt_first_retry_timeout)
  else u64 (now + send_tx_receipt_common_retry_timeout
            - u64 (now - cert_time - send_tx_receipt_first_retry_timeout) mod send_tx_receipt_common_retry_timeout).

(** ** Units *)

Record lunit_tx := LUnitTx { lt_hash : string; lt_subtype : Z; lt_source : string }.

Record lunit := LUnit {
  lu_height : Z;
  lu_class : Z;                (* get_block_class() *)
  lu_ready : bool;             (* is_connect_and_executed_block *)
  lu_txs : list lunit_tx;      (* the transactions of the input *)
  lu_unconfirm_num : Z;        (* get_unconfirm_sendtx_num(), uint16_t *)
  lu_prev_confirmed : bool;    (* is_prev_sendtx_confirmed() *)
  lu_gmtime : Z;               (* get_cert()->get_gmtime() *)
  lu_clock : Z                 (* get_cert()->get_clock() *)
}.

Definition lt_is_send (tx : lunit_tx) : bool := lt_subtype tx =? enum_transaction_subtype_send.
Definition lt_is_confirm (tx : lunit_tx) : bool := lt_subtype tx =? enum_transaction_subtype_confirm.
Definition lu_is_genesis (u : lunit) : bool := lu_height u =? 0.
Definition lu_is_light (u : lunit) : bool := lu_class u =? enum_xvblock_class_light.
Definition lu_is_full (u : lunit) : bool := lu_class u =? enum_xvblock_class_full.

(** [xlightunit_output_resource_t]: the count and the flag a new light unit
    carries, from the account's previous count and the unit's transactions. *)
Definition unconfirm_fields (account_prev_unconfirm_num : Z) (txs : list lunit_tx) : Z * bool :=
  let send_tx_num := Z.of_nat (length (List.filter lt_is_send txs)) in
  let confirm_tx_num := Z.of_nat (length (List.filter lt_is_confirm txs)) in
  let n := u16 (u32 (account_prev_unconfirm_num - confirm_tx_num)) in
  (u16 (n + send_tx_num), n =? 0).

(** ** State *)

Record receipt := Receipt {
  r_id : N;                    (* the object *)
  r_hash : string;             (* get_transaction()->digest() *)
  r_source : string;           (* get_source_addr() *)
  r_gmtime : Z;                (* get_unit_cert()->get_gmtime() *)
  r_clock : Z                  (* get_clock() *)
}.

Record account_cache := AccountCache {
  m_account_max_height : Z;
  m_cache_max_height : Z;
  m_receipts : gmap string receipt
}.

Record retry_entry := RetryEntry { re_receipt : receipt; m_retry_send_timeout_timestamp : Z }.
Definition retry_ltb (l r : retry_entry) : bool :=
  m_retry_send_timeout_timestamp l <? m_retry_send_timeout_timestamp r.

Record unconfirm_cache := UnconfirmCache {
  m_accounts_cache : gmap string account_cache;
  m_retry_cache : list retry_entry;
  m_unconfirm_tx_num : Z;      (* atomic int32_t *)
  uc_confirmed : gset N;
  uc_next : N                  (* the next object *)
}.
Definition new_unconfirm_cache : unconfirm_cache := UnconfirmCache ∅ [] 0 ∅ 0.

Record unit_env := UnitEnv {
  ue_latest : string -> option lunit;          (* get_latest_committed_block(address) *)
  ue_load : string -> Z -> option lunit;       (* load_block_object(address, height) *)
  ue_window : Z;                               (* get_receipt_valid_window() *)
  ue_time : Z                                  (* logic_time() *)
}.

Definition set_accounts (m : gmap string account_cache) (u : unconfirm_cache) : unconfirm_cache :=
  UnconfirmCache m (m_retry_cache u) (m_unconfirm_tx_num u) (uc_confirmed u) (uc_next u).
Definition set_retry (l : list retry_entry) (n : Z) (u : unconfirm_cache) : unconfirm_cache :=
  UnconfirmCache (m_accounts_cache u) l n (uc_confirmed u) (uc_next u).
Definition confirm_objects (ids : gset N) (u : unconfirm_cache) : unconfirm_cache :=
  UnconfirmCache (m_accounts_cache u) (m_retry_cache u) (m_unconfirm_tx_num u) (ids ∪ uc_confirmed u) (uc_next u).
Definition set_receipts (m : gmap string receipt) (a : account_cache) : account_cache :=
  AccountCache (m_account_max_height a) (m_cache_max_height a) m.

(** ** The cache of one account *)

Definition push_receipt (txhash : string) (r : receipt) (a : account_cache) : account_cache :=
  match m_receipts a !! txhash with
  | None => set_receipts (<[txhash := r]> (m_receipts a)) a
  | Some _ => a
  end.

(** The cache of the account and the rest of the state, while the account's cache is updated. *)
Definition pop_receipt (txhash : string) (s : account_cache * unconfirm_cache) : account_cache * unconfirm_cache :=
  let '(a, u) := s in
  match m_receipts a !! txhash with
  | Some r => (set_receipts (delete txhash (m_receipts a)) a, confirm_objects {[ r_id r ]} u)
  | None => s
  end.

Definition pop_all_receipt (s : account_cache * unconfirm_cache) : account_cache * unconfirm_cache :=
  let '(a, u) := s in
  (set_receipts ∅ a, confirm_objects (list_to_set ((fun e => r_id e.2) <$> map_to_list (m_receipts a))) u).

Definition set_cache_max_height (height : Z) (a : account_cache) : account_cache :=
  AccountCache (m_account_max_height a) height (m_receipts a).
Definition cache_complete (a : account_cache) : bool := m_cache_max_height a =? m_account_max_height a.

(** [find_and_create_account_cache]: the account's cache with its new height. *)
Definition find_and_create_account_cache (address : string) (account_height : Z) (u : unconfirm_cache)
    : account_cache :=
  match m_accounts_cache u !! address with
  | Some a => AccountCache account_height (m_cache_max_height a) (m_receipts a)
  | None => AccountCache account_height 0 ∅
  end.

Definition clear_account_cache (address : string) (u : unconfirm_cache) : unconfirm_cache :=
  match m_accounts_cache u !! address with
  | Some a => let '(_, u) := pop_all_receipt (a, u) in set_accounts (delete address (m_accounts_cache u)) u
  | None => u
  end.

(** [traverse_and_get_unconfirm_units]: the units from [block] down, with [n] more heights. *)
Fixpoint traverse_and_get_unconfirm_units (env : unit_env) (address : string) (n : nat) (begin_height : Z)
    (block : lunit) : option (list lunit) :=
  if negb (lu_is_light block) then None
  else if lu_prev_confirmed block || (lu_height block <=? u64 (begin_height + 1)) then Some [block]
  else
    match n with
    | O => None
    | S n =>
        match ue_load env address (u64 (lu_height block - 1)) with
        | None => None
        | Some unit_tmp => (cons block) <$> traverse_and_get_unconfirm_units env address n begin_height unit_tmp
        end
    end.

Definition insert_retry_cache (r : receipt) (now : Z) (u : unconfirm_cache) : unconfirm_cache :=
  set_retry (mset_insert retry_ltb (RetryEntry r (get_next_retry_timestamp (r_gmtime r) now)) (m_retry_cache u))
    (i32 (m_unconfirm_tx_num u + 1)) u.

(** A receipt of [create_send_txreceipts], a new object, enters both caches. *)
Definition push_send_receipt (unit_ : lunit) (now : Z) (s : account_cache * unconfirm_cache) (tx : lunit_tx)
    : account_cache * unconfirm_cache :=
  let '(a, u) := s in
  if lt_is_send tx then
    let r := Receipt (uc_next u) (lt_hash tx) (lt_source tx) (lu_gmtime unit_) (lu_clock unit_) in
    let u := UnconfirmCache (m_accounts_cache u) (m_retry_cache u) (m_unconfirm_tx_num u) (uc_confirmed u) (uc_next u + 1)%N in
    (push_receipt (lt_hash tx) r a, insert_retry_cache r now u)
  else s.

Definition pop_confirm_receipt (s : account_cache * unconfirm_cache) (tx : lunit_tx) : account_cache * unconfirm_cache :=
  if lt_is_confirm tx then pop_receipt (lt_hash tx) s else s.

(** The body of the loop over the units, oldest first. *)
Definition update_unit (now : Z) (s : account_cache * unconfirm_cache) (unit_ : lunit)
    : account_cache * unconfirm_cache :=
  let s := fold_left (push_send_receipt unit_ now) (lu_txs unit_) s in
  let '(a, u) := fold_left pop_confirm_receipt (lu_txs unit_) s in
  (set_cache_max_height (lu_height unit_) a, u).

Definition traverse_units_and_update_receipt_cache (now : Z) (units : list lunit)
    (s : account_cache * unconfirm_cache) : account_cache * unconfirm_cache :=
  let s :=
    match last units with
    | Some begin_unit =>
        if negb (m_cache_max_height s.1 =? 0) && (u64 (m_cache_max_height s.1 + 1) <? lu_height begin_unit)
        then pop_all_receipt s else s
    | None => s
    end in
  fold_left (update_unit now) (rev units) s.

Definition update_cache (env : unit_env) (address : string) (now : Z) (last_committed_unit : lunit)
    (s : account_cache * unconfirm_cache) : option (account_cache * unconfirm_cache) :=
  (fun units => traverse_units_and_update_receipt_cache now units s) <$>
  traverse_and_get_unconfirm_units env address (Z.to_nat (lu_height last_committed_unit))
    (m_cache_max_height s.1) last_committed_unit.

Definition check_and_update_cache (env : unit_env) (address : string) (now unit_height : Z) (u : unconfirm_cache)
    : option (xtxpool_error * unconfirm_cache) :=
  match ue_latest env address with
  | None => Some (xtxpool_error_unconfirm_sendtx_cache_update_fail_state_behind, u)
  | Some unit_ =>
      if lu_is_genesis unit_ || negb (lu_ready unit_)
      then Some (xtxpool_error_unconfirm_sendtx_cache_update_fail_state_behind, u)
      else if negb (unit_height =? 0) && negb (unit_height =? lu_height unit_)
      then Some (xtxpool_error_unconfirm_sendtx_cache_height_not_match_consensusing_height, u)
      else if lu_is_full unit_
      then Some (xtxpool_error_unconfirm_sendtx_not_exist, clear_account_cache address u)
      else if negb (lu_is_light unit_) then None
      else if lu_unconfirm_num unit_ =? 0
      then Some (xtxpool_error_unconfirm_sendtx_not_exist, clear_account_cache address u)
      else
        let a := find_and_create_account_cache address (lu_height unit_) u in
        if m_cache_max_height a =? lu_height unit_
        then Some (xsuccess, set_accounts (<[address := a]> (m_accounts_cache u)) u)
        else
          match update_cache env address now unit_ (a, u) with
          | None => None
          | Some (a, u) => Some (xsuccess, set_accounts (<[address := a]> (m_accounts_cache u)) u)
          end
  end.

Definition has_txhash_receipt (env : unit_env) (address txhash : string) (now unit_height : Z) (u : unconfirm_cache)
    : option (xtxpool_error * unconfirm_cache) :=
  match check_and_update_cache env address now unit_height u with
  | None => None
  | Some (ret, u) =>
      if failed ret then Some (ret, u)
      else
        match m_accounts_cache u !! address with
        | None => None
        | Some a =>
            Some (if bool_decide (is_Some (m_receipts a !! txhash)) then xtxpool_error_unconfirm_sendtx_exist
                  else xtxpool_error_unconfirm_sendtx_not_exist, u)
        end
  end.

Definition get_unconfirm_tx (env : unit_env) (source_addr hash : string) (now : Z) (u : unconfirm_cache)
    : option (option receipt * unconfirm_cache) :=
  match check_and_update_cache env source_addr now 0 u with
  | None => None
  | Some (_, u) =>
      Some (match m_accounts_cache u !! source_addr with Some a => m_receipts a !! hash | None => None end, u)
  end.

Definition on_unit_update (env : unit_env) (address : string) (now : Z) (u : unconfirm_cache)
    : option unconfirm_cache := snd <$> check_and_update_cache env address now 0 u.

Fixpoint accounts_update (env : unit_env) (accounts : list string) (now : Z) (u : unconfirm_cache)
    : option unconfirm_cache :=
  match accounts with
  | [] => Some u
  | account :: accounts =>
      match check_and_update_cache env account now 0 u with
      | None => None
      | Some (_, u) => accounts_update env accounts now u
      end
  end.

Definition uc_clear (u : unconfirm_cache) : unconfirm_cache :=
  let ids := flat_map (fun e => (fun r => r_id r.2) <$> map_to_list (m_receipts e.2)) (map_to_list (m_accounts_cache u)) in
  let u := confirm_objects (list_to_set ids) u in
  UnconfirmCache ∅ [] (i32 (m_unconfirm_tx_num u - Z.of_nat (length (m_retry_cache u)))) (uc_confirmed u) (uc_next u).

(** ** [xtxpool_receipt_receiver_counter] *)

(** Zone and table of the account, as one number. *)
Definition table_key `{XStringUtl} (recv_account : string) : Z :=
  Z.shiftl (get_vledger_zone_index (get_xid_from_account recv_account)) 16 + get_vledger_subaddr (get_xid_from_account recv_account).

Definition receiver_counter : Type := gmap Z (gset string).

Definition is_receiver_count_full_and_insert `{XStringUtl} (recv_account : string) (m : receiver_counter)
    : bool * receiver_counter :=
  match m !! table_key recv_account with
  | None => (false, <[table_key recv_account := {[ recv_account ]}]> m)
  | Some accounts =>
      if (recv_table_accounts_max_accounts <=? size accounts)%nat then (true, m)
      else if bool_decide (recv_account ∈ accounts) then (true, m)
      else (false, <[table_key recv_account := {[ recv_account ]} ∪ accounts]> m)
  end.

(** ** The retry timer *)

Definition is_account_cache_complete (address : string) (u : unconfirm_cache) : bool :=
  match m_accounts_cache u !! address with
  | None => false
  | Some a => cache_complete a
  end.

(** The entries the first loop of [on_timer_check_cache] erases. *)
Definition retry_done (env : unit_env) (u : unconfirm_cache) (e : retry_entry) : bool :=
  bool_decide (r_id (re_receipt e) ∈ uc_confirmed u)
  || (u64 (r_clock (re_receipt e) + ue_window env) <? ue_time env).

Definition clear_retry_done (env : unit_env) (u : unconfirm_cache) : unconfirm_cache :=
  let kept := List.filter (fun e => negb (retry_done env u e)) (m_retry_cache u) in
  set_retry kept (i32 (m_unconfirm_tx_num u - Z.of_nat (length (m_retry_cache u) - length kept))) u.

(** The second loop over the entries from the front: the entries to send, the
    entries that stay, the counter. *)
Fixpoint collect_due `{XStringUtl} (u : unconfirm_cache) (now process_count : Z) (l : list retry_entry)
    (counter : receiver_counter) : list retry_entry * list retry_entry * receiver_counter :=
  match l with
  | [] => ([], [], counter)
  | e :: l' =>
      if MAX_ONCE_PROCESS_RETRY_SENDTX_RECEIPT <=? process_count then ([], l, counter)
      else if now <? m_retry_send_timeout_timestamp e then ([], l, counter)
      else
        let '(full, counter) :=
          if is_account_cache_complete (r_source (re_receipt e)) u
          then is_receiver_count_full_and_insert (r_source (re_receipt e)) counter
          else (true, counter) in
        let '(due, rest, counter) := collect_due u now (process_count + 1) l' counter in
        if full then (due, e :: rest, counter) else (e :: due, rest, counter)
  end.

Definition refresh_entry (now : Z) (e : retry_entry) : retry_entry :=
  RetryEntry (re_receipt e) (get_next_retry_timestamp (r_gmtime (re_receipt e)) now).

Definition on_timer_check_cache `{XStringUtl} (env : unit_env) (now : Z) (counter : receiver_counter)
    (u : unconfirm_cache) : list receipt * receiver_counter * unconfirm_cache :=
  match m_retry_cache u with
  | [] => ([], counter, u)
  | _ =>
      let u := clear_retry_done env u in
      let '(due, rest, counter) := collect_due u now 0 (m_retry_cache u) counter in
      let retry := fold_left (fun l e => mset_insert retry_ltb (refresh_entry now e) l) due rest in
      (re_receipt <$> due, counter, set_retry retry (m_unconfirm_tx_num u) u)
  end.
