(* ===== verification/UnconfirmProps.v ===== *)
(** * The unconfirmed receipts of a chain of units

    [outstanding us] is the set of send transactions of the units [us], newest
    first, that none of them confirms.  The count and the flag that a light
    unit carries say what the cache takes them for, and walking back from the
    latest unit to the flag rebuilds exactly that set. *)

From stdpp Require Import prelude gmap strings.
From Stdlib Require Import ZArith Lia.
From S2P Require Import Prelude StdMap StoreBlock AccountAddr TxData AccountRefine UnconfirmCache.

Definition send_hashes (txs : list lunit_tx) : list string := lt_hash <$> List.filter lt_is_send txs.
Definition confirm_hashes (txs : list lunit_tx) : list string := lt_hash <$> List.filter lt_is_confirm txs.

(** The set after one more unit. *)
Definition settle (v : lunit) (X : gset string) : gset string :=
  (X ∪ list_to_set (send_hashes (lu_txs v))) ∖ list_to_set (confirm_hashes (lu_txs v)).
Definition outstanding (us : list lunit) : gset string := foldr settle ∅ us.

(** The account's count after its units; a full unit leaves it alone. *)
Fixpoint chain_num (us : list lunit) : Z :=
  match us with
  | [] => 0
  | v :: us => if lu_is_light v then lu_unconfirm_num v else chain_num us
  end.

(** The units of an account, newest first, as they are made: a light unit sends
    new transactions, confirms outstanding ones and carries the fields computed
    from the account's count; a full unit follows a count of zero. *)
Inductive unit_chain : list lunit -> Prop :=
| chain_nil : unit_chain []
| chain_light v us :
    unit_chain us -> lu_height v = Z.of_nat (length us) + 1 -> lu_is_light v = true ->
    unconfirm_fields (chain_num us) (lu_txs v) = (lu_unconfirm_num v, lu_prev_confirmed v) ->
    NoDup (send_hashes (lu_txs v)) -> (forall d, d ∈ send_hashes (lu_txs v) -> d ∉ outstanding us) ->
    NoDup (confirm_hashes (lu_txs v)) -> (forall d, d ∈ confirm_hashes (lu_txs v) -> d ∈ outstanding us) ->
    Z.of_nat (size (outstanding us) + length (send_hashes (lu_txs v))) < 2 ^ 16 ->
    unit_chain (v :: us)
| chain_full v us :
    unit_chain us -> lu_height v = Z.of_nat (length us) + 1 -> lu_is_full v = true ->
    chain_num us = 0 -> lu_txs v = [] -> unit_chain (v :: us).

Lemma light_not_full v : lu_is_light v = true -> lu_is_full v = false.
Proof. unfold lu_is_light, lu_is_full. intros E%Z.eqb_eq. by rewrite E. Qed.
Lemma full_not_light v : lu_is_full v = true -> lu_is_light v = false.
Proof. unfold lu_is_light, lu_is_full. intros E%Z.eqb_eq. by rewrite E. Qed.

Lemma size_settle v us :
  NoDup (send_hashes (lu_txs v)) -> (forall d, d ∈ send_hashes (lu_txs v) -> d ∉ outstanding us) ->
  NoDup (confirm_hashes (lu_txs v)) -> (forall d, d ∈ confirm_hashes (lu_txs v) -> d ∈ outstanding us) ->
  (size (settle v (outstanding us)) + length (confirm_hashes (lu_txs v)) =
   size (outstanding us) + length (send_hashes (lu_txs v)))%nat.
Proof.
  intros Hs Hsd Hc Hcd. unfold settle.
  rewrite size_difference by (intros d; rewrite elem_of_list_to_set; intros Hd; apply elem_of_union; auto).
  rewrite size_union by (intros d Ho Hd; rewrite elem_of_list_to_set in Hd; by apply (Hsd d)).
  rewrite !size_list_to_set by done.
  assert (length (confirm_hashes (lu_txs v)) <= size (outstanding us))%nat; [|lia].
  rewrite <- (size_list_to_set (C := gset string)) by done. apply subseteq_size. intros d. rewrite elem_of_list_to_set. auto.
Qed.

Lemma chain_fields us :
  unit_chain us -> chain_num us = Z.of_nat (size (outstanding us)) /\ chain_num us < 2 ^ 16.
Proof.
  induction 1 as [|v us Hch [IH Hlt] Hh Hl Hf Hs Hsd Hc Hcd Hw|v us Hch [IH Hlt] Hh Hl Hn Ht]; cbn [chain_num].
  - done.
  - rewrite Hl. pose proof (size_settle v us Hs Hsd Hc Hcd) as E. change (outstanding (v :: us)) with (settle v (outstanding us)).
    unfold unconfirm_fields in Hf. unfold send_hashes, confirm_hashes in *. rewrite !length_fmap in *.
    injection Hf as <- _. rewrite IH.
    assert (length (List.filter lt_is_confirm (lu_txs v)) <= size (outstanding us))%nat as Hle.
    { rewrite <- (length_fmap lt_hash), <- (size_list_to_set (C := gset string)) by done.
      apply subseteq_size. intros d. rewrite elem_of_list_to_set. auto. }
    unfold u16, u32. rewrite (Z.mod_small _ (2 ^ 32)) by lia. rewrite (Z.mod_small (_ - _) (2 ^ 16)) by lia.
    rewrite Z.mod_small by lia. lia.
  - rewrite (full_not_light v Hl). split; [|done]. change (outstanding (v :: us)) with (settle v (outstanding us)).
    unfold settle. rewrite Ht. cbn. rewrite IH. f_equal. f_equal. set_solver.
Qed.

Lemma chain_zero us : unit_chain us -> chain_num us = 0 -> outstanding us = ∅.
Proof.
  intros Hch E. destruct (chain_fields us Hch) as [E' _]. apply leibniz_equiv, size_empty_iff. lia.
Qed.

(** The flag: the unit confirms all that was outstanding before it. *)
Lemma chain_flag v us :
  unit_chain (v :: us) -> lu_is_light v = true ->
  lu_prev_confirmed v = true <-> (forall d, d ∈ outstanding us -> d ∈ confirm_hashes (lu_txs v)).
Proof.
  intros Hch Hl. inversion Hch as [|v' us' Hch' Hh _ Hf Hs Hsd Hc Hcd Hw|v' us' Hch' Hh Hfu]; subst; [|by rewrite (full_not_light v) in Hl].
  destruct (chain_fields us Hch') as [En Hlt]. unfold unconfirm_fields in Hf. injection Hf as _ <-.
  assert (list_to_set (confirm_hashes (lu_txs v)) ⊆ outstanding us) as Hsub
    by (intros d; rewrite elem_of_list_to_set; auto).
  assert (length (List.filter lt_is_confirm (lu_txs v)) = size (list_to_set (C := gset string) (confirm_hashes (lu_txs v)))) as El.
  { rewrite size_list_to_set by done. unfold confirm_hashes. by rewrite length_fmap. }
  pose proof (subseteq_size _ _ Hsub) as Hle. rewrite El, En. unfold u16, u32.
  rewrite (Z.mod_small _ (2 ^ 32)), (Z.mod_small _ (2 ^ 16)), Z.eqb_eq by lia. split.
  - intros E d Hd. apply (elem_of_list_to_set (C := gset string)).
    rewrite (set_subseteq_size_eq _ _ Hsub); [done|lia].
  - intros Hall. enough (size (outstanding us) <= size (list_to_set (C := gset string) (confirm_hashes (lu_txs v))))%nat by lia.
    apply subseteq_size. intros d Hd. apply elem_of_list_to_set. auto.
Qed.

(** ** Walking back *)

(** The account's unit of a height. *)
Definition unit_at (us : list lunit) (h : Z) : option lunit := us !! (length us - Z.to_nat h)%nat.

Lemma unit_chain_height us v w : us = w :: v -> unit_chain us -> lu_height w = Z.of_nat (length us).
Proof. intros -> Hch. inversion Hch; subst; cbn; lia. Qed.
Lemma unit_chain_suffix l us : unit_chain (l ++ us) -> unit_chain us.
Proof. induction l as [|v l IH]; cbn; [done|]. intros Hch. apply IH. by inversion Hch. Qed.

(** The units the traversal returns: from the given one down to the first that
    carries the flag or follows the cached height. *)
Record walk (m : Z) (l older : list lunit) : Prop := {
  wk_last : exists l' b, l = l' ++ [b] /\ (lu_prev_confirmed b = true \/ lu_height b <= m + 1);
  wk_light : Forall (fun v => lu_is_light v = true) l;
  wk_above : Forall (fun v => m + 1 <= lu_height v) l
}.

Lemma flag_false_prev v us :
  unit_chain (v :: us) -> lu_is_light v = true -> lu_prev_confirmed v = false ->
  exists w us', us = w :: us' /\ lu_is_light w = true.
Proof.
  intros Hch Hl Hp. assert (outstanding us <> ∅) as Hne.
  { intros E. rewrite <- not_true_iff_false, (chain_flag v us Hch Hl), E in Hp. apply Hp. set_solver. }
  apply (unit_chain_suffix [v]) in Hch. destruct us as [|w us']; [done|]. exists w, us'. split; [done|].
  inversion Hch as [| |w' us'' Hch' Hh Hf Hn Ht]; subst; [done|]. destruct Hne.
  change (settle w (outstanding us') = ∅). rewrite (chain_zero us' Hch' Hn). unfold settle. rewrite Ht. cbn. set_solver.
Qed.

Lemma traverse_walk env address m whole n newer v us :
  (forall h, 1 <= h <= Z.of_nat (length whole) -> ue_load env address h = unit_at whole h) ->
  whole = newer ++ v :: us -> unit_chain (v :: us) -> lu_is_light v = true ->
  0 <= m -> m + 1 <= lu_height v -> lu_height v <= Z.of_nat n + m + 1 -> m + 1 < 2 ^ 64 -> Z.of_nat (length whole) < 2 ^ 64 ->
  exists l older, traverse_and_get_unconfirm_units env address n m v = Some l /\ v :: us = l ++ older /\ walk m l older.
Proof.
  intros Hload. revert newer v us. induction n as [|n IH]; intros newer v us Hw Hch Hl Hm Hv Hn Hmw Hlen;
    cbn [traverse_and_get_unconfirm_units]; rewrite Hl; cbn [negb]; rewrite (u64_small (m + 1)) by (unfold is_u64; lia).
  - rewrite (proj2 (Z.leb_le _ _)), orb_true_r by lia. exists [v], us. split_and!; [done|done|].
    split; [exists [], v; split; [done|right; lia]|repeat constructor; done|repeat constructor; lia].
  - destruct (lu_prev_confirmed v) eqn:Hp; cbn [orb].
    { exists [v], us. split_and!; [done|done|].
      split; [exists [], v; split; [done|by left]|repeat constructor; done|repeat constructor; lia]. }
    destruct (Z.leb_spec (lu_height v) (m + 1)) as [Hle|Hgt].
    { exists [v], us. split_and!; [done|done|].
      split; [exists [], v; split; [done|by right]|repeat constructor; done|repeat constructor; lia]. }
    destruct (flag_false_prev v us Hch Hl Hp) as (w & us' & -> & Hlw).
    pose proof (unit_chain_height _ _ _ eq_refl Hch) as Eh. cbn [length] in Eh.
    pose proof (unit_chain_suffix [v] _ Hch) as Hch'. pose proof (unit_chain_height _ _ _ eq_refl Hch') as Eh'. cbn [length] in Eh'.
    assert (length whole = length newer + S (S (length us')))%nat as Ew by (rewrite Hw, length_app; done).
    rewrite u64_small by (unfold is_u64; lia). rewrite Hload by lia.
    assert (unit_at whole (lu_height v - 1) = Some w) as ->.
    { unfold unit_at. rewrite Ew. replace (_ - Z.to_nat _)%nat with (S (length newer)) by lia.
      rewrite Hw. rewrite lookup_app_r by lia. by replace (S (length newer) - length newer)%nat with 1%nat by lia. }
    destruct (IH (newer ++ [v]) w us') as (l & older & El & Ea & [Hk1 Hk2 Hk3]); [|done|done|done|lia..|].
    { by rewrite <- app_assoc. }
    exists (v :: l), older. rewrite El. cbn. split_and!; [done|by rewrite Ea|]. split.
    + destruct Hk1 as (l' & b & -> & Hb). by exists (v :: l'), b.
    + by constructor.
    + constructor; [lia|done].
Qed.

(** ** Updating *)

Lemma push_sends_dom v now txs (s : account_cache * unconfirm_cache) :
  dom (m_receipts (fold_left (push_send_receipt v now) txs s).1) = dom (m_receipts s.1) ∪ list_to_set (send_hashes txs) /\
  m_cache_max_height (fold_left (push_send_receipt v now) txs s).1 = m_cache_max_height s.1 /\
  m_account_max_height (fold_left (push_send_receipt v now) txs s).1 = m_account_max_height s.1.
Proof.
  revert s. induction txs as [|tx txs IH]; intros s; cbn [fold_left].
  { split; [|done]. unfold send_hashes. cbn. set_solver. }
  destruct (IH (push_send_receipt v now s tx)) as (-> & -> & ->). destruct s as [a u]. unfold push_send_receipt, send_hashes. cbn.
  destruct (lt_is_send tx); cbn; [|done]. unfold push_receipt.
  destruct (m_receipts a !! lt_hash tx) eqn:E; cbn; (split; [|done]).
  - apply elem_of_dom_2 in E. set_solver.
  - rewrite dom_insert_L. set_solver.
Qed.

Lemma pop_confirms_dom txs (s : account_cache * unconfirm_cache) :
  dom (m_receipts (fold_left pop_confirm_receipt txs s).1) = dom (m_receipts s.1) ∖ list_to_set (confirm_hashes txs) /\
  m_cache_max_height (fold_left pop_confirm_receipt txs s).1 = m_cache_max_height s.1 /\
  m_account_max_height (fold_left pop_confirm_receipt txs s).1 = m_account_max_height s.1.
Proof.
  revert s. induction txs as [|tx txs IH]; intros s; cbn [fold_left].
  { split; [|done]. unfold confirm_hashes. cbn. set_solver. }
  destruct (IH (pop_confirm_receipt s tx)) as (-> & -> & ->). destruct s as [a u]. unfold pop_confirm_receipt, confirm_hashes. cbn.
  destruct (lt_is_confirm tx); cbn; [|done].
  destruct (m_receipts a !! lt_hash tx) eqn:E; cbn; (split; [|done]).
  - rewrite dom_delete_L. set_solver.
  - apply not_elem_of_dom_2 in E. set_solver.
Qed.

Lemma update_unit_dom now v (s : account_cache * unconfirm_cache) :
  dom (m_receipts (update_unit now s v).1) = settle v (dom (m_receipts s.1)) /\
  m_cache_max_height (update_unit now s v).1 = lu_height v /\
  m_account_max_height (update_unit now s v).1 = m_account_max_height s.1.
Proof.
  unfold update_unit. pose proof (push_sends_dom v now (lu_txs v) s) as (E1 & E2 & E3).
  pose proof (pop_confirms_dom (lu_txs v) (fold_left (push_send_receipt v now) (lu_txs v) s)) as (F1 & F2 & F3).
  destruct (fold_left pop_confirm_receipt _ _) as [a u]. cbn in *. rewrite F1, F3, E1, E3. done.
Qed.

Lemma update_units_dom now l (s : account_cache * unconfirm_cache) :
  dom (m_receipts (fold_left (update_unit now) (rev l) s).1) = foldr settle (dom (m_receipts s.1)) l /\
  m_account_max_height (fold_left (update_unit now) (rev l) s).1 = m_account_max_height s.1 /\
  (forall v l', l = v :: l' -> m_cache_max_height (fold_left (update_unit now) (rev l) s).1 = lu_height v).
Proof.
  induction l as [|v l (IH1 & IH2 & IH3)]; [done|]. cbn [rev foldr]. rewrite fold_left_app. cbn [fold_left].
  destruct (update_unit_dom now v (fold_left (update_unit now) (rev l) s)) as (-> & -> & ->).
  rewrite IH1, IH2. split_and!; [done|done|]. by intros w l' [= <- <-].
Qed.

(** Starting from nothing at the flag is as good as starting from the units before it. *)
Lemma settle_walk l' b older :
  unit_chain (b :: older) -> lu_is_light b = true -> lu_prev_confirmed b = true ->
  foldr settle ∅ (l' ++ [b]) = outstanding (l' ++ b :: older).
Proof.
  intros Hch Hl Hp. unfold outstanding. rewrite !foldr_app. cbn. f_equal. unfold settle.
  pose proof (proj1 (chain_flag b older Hch Hl) Hp) as Hall. apply set_eq. intros d.
  rewrite !elem_of_difference, !elem_of_union, !elem_of_list_to_set.
  split; [set_solver|]. intros [[Hd|Hd] Hn]; [|set_solver]. destruct Hn. by apply Hall.
Qed.

(** * The unconfirmed cache is the reference set, and the timer sends what is due *)

(** ** The accounts' caches *)

Definition cache_of (chains : string -> list lunit) (address : string) (a : account_cache) : Prop :=
  exists newer older, chains address = newer ++ older /\ m_cache_max_height a = Z.of_nat (length older) /\
    dom (m_receipts a) = outstanding older.

Definition accounts_ok (chains : string -> list lunit) (u : unconfirm_cache) : Prop :=
  forall address a, m_accounts_cache u !! address = Some a -> cache_of chains address a.

(** The block store as a call finds it: the latest committed unit of an account
    is the newest of its chain, connected and executed, and all its units can be loaded. *)
Record store_ok (chains : string -> list lunit) (env : unit_env) (address : string) : Prop := {
  so_chain : unit_chain (chains address);
  so_latest : match chains address with
              | v :: _ => ue_latest env address = Some v /\ lu_ready v = true
              | [] => forall v, ue_latest env address = Some v -> lu_is_genesis v = true
              end;
  so_load : forall h, 1 <= h <= Z.of_nat (length (chains address)) ->
              ue_load env address h = unit_at (chains address) h;
  so_width : Z.of_nat (length (chains address)) + 1 < 2 ^ 64
}.

Lemma find_create_of chains address h u :
  accounts_ok chains u -> cache_of chains address (find_and_create_account_cache address h u).
Proof.
  intros Ho. unfold find_and_create_account_cache. destruct (m_accounts_cache u !! address) as [a|] eqn:E.
  - destruct (Ho _ _ E) as (newer & older & ? & ? & ?). by exists newer, older.
  - exists (chains address), []. rewrite app_nil_r. cbn. rewrite dom_empty_L. done.
Qed.

Lemma accounts_ok_same chains u u' :
  m_accounts_cache u' = m_accounts_cache u -> accounts_ok chains u -> accounts_ok chains u'.
Proof. unfold accounts_ok. by intros ->. Qed.

Lemma accounts_ok_insert chains address a u u' :
  m_accounts_cache u' = m_accounts_cache u -> accounts_ok chains u -> cache_of chains address a ->
  accounts_ok chains (set_accounts (<[address := a]> (m_accounts_cache u')) u').
Proof.
  intros E Ho Ha ad b. cbn. rewrite E. intros [[<- <-]|[_ Hb]]%lookup_insert_Some; [done|]. by apply Ho.
Qed.

Lemma accounts_ok_clear chains address u : accounts_ok chains u -> accounts_ok chains (clear_account_cache address u).
Proof.
  intros Ho. unfold clear_account_cache. destruct (m_accounts_cache u !! address); [|done]. cbn.
  intros ad b Hb. cbn in Hb. apply lookup_delete_Some in Hb as [_ Hb]. by apply Ho.
Qed.

(** Updating leaves the other accounts alone. *)
Lemma pushes_accounts v now txs s :
  m_accounts_cache (fold_left (push_send_receipt v now) txs s).2 = m_accounts_cache s.2.
Proof.
  revert s. induction txs as [|tx txs IH]; intros [a u]; cbn [fold_left]; [done|]. rewrite IH.
  unfold push_send_receipt. by destruct (lt_is_send tx).
Qed.
Lemma pops_accounts txs s : m_accounts_cache (fold_left pop_confirm_receipt txs s).2 = m_accounts_cache s.2.
Proof.
  revert s. induction txs as [|tx txs IH]; intros [a u]; cbn [fold_left]; [done|]. rewrite IH.
  unfold pop_confirm_receipt, pop_receipt. destruct (lt_is_confirm tx); [|done]. by destruct (m_receipts a !! lt_hash tx).
Qed.
Lemma updates_accounts now l s : m_accounts_cache (fold_left (update_unit now) l s).2 = m_accounts_cache s.2.
Proof.
  revert s. induction l as [|v l IH]; intros s; cbn [fold_left]; [done|]. rewrite IH. unfold update_unit.
  pose proof (pops_accounts (lu_txs v) (fold_left (push_send_receipt v now) (lu_txs v) s)) as E.
  destruct (fold_left pop_confirm_receipt _ _) as [a u]. cbn in *. by rewrite E, pushes_accounts.
Qed.

Lemma update_cache_spec chains env address now v us a u :
  store_ok chains env address -> chains address = v :: us -> lu_is_light v = true ->
  cache_of chains address a -> m_cache_max_height a <> lu_height v ->
  exists a' u', update_cache env address now v (a, u) = Some (a', u') /\ m_accounts_cache u' = m_accounts_cache u /\
    m_cache_max_height a' = lu_height v /\ dom (m_receipts a') = outstanding (v :: us).
Proof.
  intros [Hch _ Hload Hw] Ec Hl (newer & older & Ea & Em & Ed) Hne. rewrite Ec in *.
  pose proof (unit_chain_height _ _ _ eq_refl Hch) as Eh.
  assert (length older < length (v :: us))%nat as Hlt.
  { pose proof (f_equal length Ea) as El. rewrite length_app in El. lia. }
  destruct (traverse_walk env address (m_cache_max_height a) (v :: us) (Z.to_nat (lu_height v)) [] v us)
    as (l & old & El & Elo & [(l' & b & Hlb & Hb) Hlight Habove]); [done|done|done|done|lia..|].
  unfold update_cache. cbn [fst]. rewrite El. cbn [fmap option_fmap option_map].
  unfold traverse_units_and_update_receipt_cache. rewrite Hlb, last_snoc.
  assert (unit_chain (b :: old)) as Hchb.
  { apply (unit_chain_suffix l'). rewrite Hlb, <- app_assoc in Elo. cbn [app] in Elo. by rewrite <- Elo. }
  pose proof (unit_chain_height _ _ _ eq_refl Hchb) as Ehb. cbn [length] in Ehb.
  rewrite Hlb in Hlight, Habove. apply Forall_app in Hlight as [_ Hlb'], Habove as [_ Hab].
  apply Forall_cons in Hlb' as [Hlb' _], Hab as [Hab _].
  set (s := if negb _ && _ then _ else _).
  assert (m_accounts_cache s.2 = m_accounts_cache u) as Es by (subst s; by destruct (_ && _)).
  assert (foldr settle (dom (m_receipts s.1)) (l' ++ [b]) = outstanding (v :: us)) as Eout.
  { rewrite Elo, Hlb, <- app_assoc. cbn [app]. cbn [length] in Hlt, Hw. subst s. cbn [fst]. rewrite u64_small by (unfold is_u64; lia).
    destruct (Z.ltb_spec (m_cache_max_height a + 1) (lu_height b)) as [Hgt|Hle].
    - assert (lu_prev_confirmed b = true) as Hp by (destruct Hb; [done|lia]).
      rewrite andb_true_r. rewrite <- settle_walk by done. f_equal.
      destruct (Z.eqb_spec (m_cache_max_height a) 0) as [E0|E0]; cbn; [|by rewrite dom_empty_L].
      rewrite Ed. destruct older; [done|]. cbn in Em. lia.
    - rewrite andb_false_r. cbn [fst]. assert (old = older) as ->.
      { rewrite Elo, Hlb, <- app_assoc in Ea. cbn in Ea.
        assert (length old = length older) as Elen by lia.
        assert (l' ++ [b] = newer /\ old = older) as [_ ?]; [|done]. apply app_inj_2; [done|]. by rewrite <- app_assoc. }
      rewrite Ed. unfold outstanding. by rewrite !foldr_app. }
  pose proof (update_units_dom now (l' ++ [b]) s) as (U1 & U2 & U3). pose proof (updates_accounts now (rev (l' ++ [b])) s) as U4.
  destruct (fold_left (update_unit now) (rev (l' ++ [b])) s) as [a' u']. cbn in U1, U3, U4. exists a', u'.
  split_and!; [done|by rewrite U4|..].
  - destruct l as [|w l0] eqn:E0; [by destruct l'|]. cbn in Elo. injection Elo as <- _. by apply (U3 v l0).
  - by rewrite U1.
Qed.

Lemma check_update_spec chains env address now uh u :
  store_ok chains env address -> accounts_ok chains u ->
  exists ret u', check_and_update_cache env address now uh u = Some (ret, u') /\ accounts_ok chains u' /\
    (chains address <> [] -> uh = 0 \/ uh = Z.of_nat (length (chains address)) ->
     (ret = xsuccess /\ exists a, m_accounts_cache u' !! address = Some a /\ dom (m_receipts a) = outstanding (chains address)) \/
     (ret = xtxpool_error_unconfirm_sendtx_not_exist /\ outstanding (chains address) = ∅)).
Proof.
  intros So Ho. pose proof So as [Hch Hlat _ _]. unfold check_and_update_cache.
  destruct (chains address) as [|v us] eqn:Ec.
  { destruct (ue_latest env address) as [v|]; [|by eexists _, u]. rewrite (Hlat v eq_refl). cbn. by eexists _, u. }
  destruct Hlat as [-> Hrd]. rewrite Hrd. pose proof (unit_chain_height _ _ _ eq_refl Hch) as Eh. cbn [length] in Eh.
  unfold lu_is_genesis. rewrite (proj2 (Z.eqb_neq (lu_height v) 0)) by lia. cbn [orb negb].
  destruct (negb (uh =? 0) && negb (uh =? lu_height v)) eqn:Euh.
  { eexists _, u. split_and!; [done|done|]. intros _ Hu. exfalso.
    apply andb_true_iff in Euh as [E1 E2]. rewrite negb_true_iff, Z.eqb_neq in E1, E2. cbn [length] in Hu. lia. }
  destruct (lu_is_full v) eqn:Ef.
  { eexists _, _. split_and!; [done|by apply accounts_ok_clear|]. intros _ _. right. split; [done|].
    inversion Hch as [|? ? _ _ Hl| ? ? Hch' _ _ Hn Ht]; subst; [by rewrite (light_not_full v) in Ef|].
    change (settle v (outstanding us) = ∅). rewrite (chain_zero us Hch' Hn). unfold settle. rewrite Ht. cbn. set_solver. }
  assert (lu_is_light v = true) as Hl by (inversion Hch; congruence). rewrite Hl. cbn [negb].
  destruct (Z.eqb_spec (lu_unconfirm_num v) 0) as [En|En].
  { eexists _, _. split_and!; [done|by apply accounts_ok_clear|]. intros _ _. right. split; [done|].
    apply chain_zero; [done|]. cbn. by rewrite Hl. }
  pose proof (find_create_of chains address (lu_height v) u Ho) as Ha.
  set (a := find_and_create_account_cache address (lu_height v) u) in *.
  destruct (Z.eqb_spec (m_cache_max_height a) (lu_height v)) as [Em|Em].
  - eexists _, _. split_and!; [done|by apply (accounts_ok_insert _ _ _ u)|]. intros _ _. left. split; [done|]. exists a.
    cbn. rewrite lookup_insert_eq. split; [done|]. destruct Ha as (newer & older & Ea & Em' & ->). rewrite Ec in Ea.
    destruct newer as [|w newer]; [cbn in Ea; by subst older|]. exfalso. apply (f_equal length) in Ea. cbn in Ea. rewrite length_app in Ea. lia.
  - destruct (update_cache_spec chains env address now v us a u So Ec Hl Ha Em) as (a' & u' & -> & Eu & Em' & Ed).
    eexists _, _. split_and!; [done| |].
    + apply (accounts_ok_insert _ _ _ u); [done|done|]. exists [], (v :: us). rewrite Ec. cbn [length]. split_and!; [done|lia|done].
    + intros _ _. left. split; [done|]. exists a'. cbn. by rewrite lookup_insert_eq.
Qed.

(** A positive answer is right whatever height was asked for. *)
Lemma has_receipt_sound chains env address d now uh u u' :
  store_ok chains env address -> accounts_ok chains u ->
  has_txhash_receipt env address d now uh u = Some (xtxpool_error_unconfirm_sendtx_exist, u') ->
  d ∈ outstanding (chains address).
Proof.
  intros So Ho E. destruct (check_update_spec chains env address now uh u So Ho) as (ret & u1 & E1 & _ & Hret).
  unfold has_txhash_receipt in E. rewrite E1 in E.
  assert (failed ret = false -> ret = xsuccess) as Hf by (unfold failed; destruct (decide (ret = xsuccess)); [done|]; by rewrite bool_decide_eq_false_2).
  destruct (failed ret) eqn:Ef.
  { injection E as -> <-. unfold check_and_update_cache in E1.
    destruct (ue_latest env address) as [v|]; [|done]. destruct (_ || _); [done|]. destruct (_ && _); [done|].
    destruct (lu_is_full v); [done|]. destruct (negb _); [done|]. destruct (lu_unconfirm_num v =? 0); [done|].
    destruct (_ =? _); [done|]. by destruct (update_cache _ _ _ _ _) as [[? ?]|]. }
  rewrite (Hf eq_refl) in *. clear Hf Ef.
  assert (chains address <> [] /\ (uh = 0 \/ uh = Z.of_nat (length (chains address)))) as [Hne Huh].
  { unfold check_and_update_cache in E1. destruct So as [Hch Hlat _ _]. destruct (chains address) as [|v us] eqn:Ec.
    - destruct (ue_latest env address) as [v|]; [|done]. by rewrite (Hlat v eq_refl) in E1.
    - split; [done|]. destruct Hlat as [Hl Hrd]. rewrite Hl in E1. rewrite Hrd in E1.
      destruct (_ || _); [done|]. destruct (negb (uh =? 0) && negb (uh =? lu_height v)) eqn:Eu; [done|].
      pose proof (unit_chain_height _ _ _ eq_refl Hch) as Eh.
      apply andb_false_iff in Eu as [Eu|Eu]; apply negb_false_iff, Z.eqb_eq in Eu; [by left|right]. by rewrite Eu, Eh. }
  destruct (Hret Hne Huh) as [[_ (a & Ea & <-)]|[? _]]; [|done]. rewrite Ea in E.
  case_bool_decide as Hd; [|done]. by apply elem_of_dom.
Qed.

(** ** Executions *)

(** The cache along the growth of the accounts' chains. *)
Inductive unconfirm_step `{XStringUtl} : (string -> list lunit) * unconfirm_cache -> (string -> list lunit) * unconfirm_cache -> Prop :=
| us_grow chains chains' u :
    (forall address, exists newer, chains' address = newer ++ chains address) -> unconfirm_step (chains, u) (chains', u)
| us_check chains u env address now uh ret u' :
    store_ok chains env address -> check_and_update_cache env address now uh u = Some (ret, u') ->
    unconfirm_step (chains, u) (chains, u')
| us_timer chains u env now counter :
    unconfirm_step (chains, u) (chains, (on_timer_check_cache env now counter u).2)
| us_clear chains u : unconfirm_step (chains, u) (chains, uc_clear u).

Section Reached.
Context `{XStringUtl}.

Lemma timer_accounts env now counter u : m_accounts_cache (on_timer_check_cache env now counter u).2 = m_accounts_cache u.
Proof. unfold on_timer_check_cache. destruct (m_retry_cache u); [done|]. by destruct (collect_due _ _ _ _ _) as [[due rest] c]. Qed.

Lemma accounts_grow chains chains' u :
  (forall address, exists newer, chains' address = newer ++ chains address) -> accounts_ok chains u -> accounts_ok chains' u.
Proof.
  intros Hg Ho ad a Ha. destruct (Ho ad a Ha) as (newer & older & Ea & ? & ?). destruct (Hg ad) as [k Ek].
  exists (k ++ newer), older. by rewrite Ek, Ea, app_assoc.
Qed.

Lemma reached_accounts p q :
  rtc unconfirm_step p q -> accounts_ok p.1 p.2 -> accounts_ok q.1 q.2.
Proof.
  induction 1 as [|p q r Hs _ IH]; [done|]. intros Ho. apply IH. destruct Hs as [ch ch' u Hg|ch u env ad now uh ret u' So E|ch u env now c|ch u]; cbn in *.
  - by eapply accounts_grow.
  - destruct (check_update_spec ch env ad now uh u So Ho) as (ret1 & u1 & E1 & Ho1 & _). rewrite E in E1. by injection E1 as <- <-.
  - eapply accounts_ok_same; [apply timer_accounts|done].
  - intros ad a Ha. unfold uc_clear in Ha. cbn in Ha. by rewrite lookup_empty in Ha.
Qed.

(** C31. For an account with committed units the query for an unconfirmed send
    transaction always returns, and finds it exactly if some unit sent it and
    none confirmed it, whatever the cache held before: the walk back over the
    units that the cache misses, from a count and a flag, equals the
    reckoning over all units. *)
Theorem unconfirm_cache_exact chains0 chains u env address d now uh :
  rtc unconfirm_step (chains0, new_unconfirm_cache) (chains, u) ->
  store_ok chains env address -> chains address <> [] -> uh = 0 \/ uh = Z.of_nat (length (chains address)) ->
  exists ret u', has_txhash_receipt env address d now uh u = Some (ret, u') /\
    (ret = xtxpool_error_unconfirm_sendtx_exist <-> d ∈ outstanding (chains address)) /\
    (ret = xtxpool_error_unconfirm_sendtx_not_exist <-> d ∉ outstanding (chains address)).
Proof.
  intros Hr So Hne Huh.
  assert (accounts_ok chains u) as Ho by (apply (reached_accounts _ _ Hr); intros ad a Ha; cbn in Ha; by rewrite lookup_empty in Ha).
  destruct (check_update_spec chains env address now uh u So Ho) as (ret & u' & E & _ & Hret).
  unfold has_txhash_receipt. rewrite E. destruct (Hret Hne Huh) as [[-> (a & Ea & Ed)]|[-> Eo]]; cbn [failed].
  - change (failed xsuccess) with false. cbv iota. rewrite Ea. eexists _, u'. split; [done|]. rewrite <- Ed, elem_of_dom.
    case_bool_decide; naive_solver.
  - change (failed xtxpool_error_unconfirm_sendtx_not_exist) with true. cbv iota.
    eexists _, u'. split; [done|]. rewrite Eo. set_solver.
Qed.

(** ** The retry queue *)

(** The table's number of unconfirmed transactions counts the retry queue. *)
Definition retry_ok (u : unconfirm_cache) : Prop :=
  mset_sorted retry_ltb (m_retry_cache u) /\ m_unconfirm_tx_num u = i32 (Z.of_nat (length (m_retry_cache u))).

#[local] Instance retry_order : StrictWeakOrder retry_ltb.
Proof. split; unfold retry_ltb; intros; rewrite ?Z.ltb_lt, ?Z.ltb_ge in *; lia. Qed.

Lemma insert_retry_ok r now u : retry_ok u -> retry_ok (insert_retry_cache r now u).
Proof.
  intros [Hs Hn]. split; cbn; [apply mset_insert_sorted; [apply _|done]|].
  rewrite Hn, i32_add, length_mset_insert. f_equal. lia.
Qed.
Lemma retry_ok_same u u' :
  m_retry_cache u' = m_retry_cache u -> m_unconfirm_tx_num u' = m_unconfirm_tx_num u -> retry_ok u -> retry_ok u'.
Proof. unfold retry_ok. by intros -> ->. Qed.

Lemma pushes_retry v now txs s : retry_ok s.2 -> retry_ok (fold_left (push_send_receipt v now) txs s).2.
Proof.
  revert s. induction txs as [|tx txs IH]; intros [a u] Hr; cbn [fold_left]; [done|]. apply IH.
  unfold push_send_receipt. destruct (lt_is_send tx); [|done]. apply insert_retry_ok. by apply (retry_ok_same u).
Qed.
Lemma pops_retry txs s : retry_ok s.2 -> retry_ok (fold_left pop_confirm_receipt txs s).2.
Proof.
  revert s. induction txs as [|tx txs IH]; intros [a u] Hr; cbn [fold_left]; [done|]. apply IH.
  unfold pop_confirm_receipt, pop_receipt. destruct (lt_is_confirm tx); [|done]. by destruct (m_receipts a !! lt_hash tx).
Qed.
Lemma updates_retry now l s : retry_ok s.2 -> retry_ok (fold_left (update_unit now) l s).2.
Proof.
  revert s. induction l as [|v l IH]; intros s Hr; cbn [fold_left]; [done|]. apply IH. unfold update_unit.
  pose proof (pops_retry (lu_txs v) _ (pushes_retry v now (lu_txs v) s Hr)) as E.
  by destruct (fold_left pop_confirm_receipt _ _) as [a u].
Qed.

Lemma check_update_retry env address now uh u ret u' :
  retry_ok u -> check_and_update_cache env address now uh u = Some (ret, u') -> retry_ok u'.
Proof.
  intros Hr. unfold check_and_update_cache. destruct (ue_latest env address) as [v|]; [|by intros [= _ <-]].
  destruct (_ || _); [by intros [= _ <-]|]. destruct (_ && _); [by intros [= _ <-]|].
  assert (retry_ok (clear_account_cache address u)) as Hc
    by (unfold clear_account_cache; by destruct (m_accounts_cache u !! address)).
  destruct (lu_is_full v); [by intros [= _ <-]|]. destruct (negb _); [done|].
  destruct (lu_unconfirm_num v =? 0); [by intros [= _ <-]|]. destruct (_ =? _); [by intros [= _ <-]|].
  unfold update_cache. destruct (traverse_and_get_unconfirm_units _ _ _ _ _) as [l|]; cbn [fmap option_fmap option_map]; [|done].
  unfold traverse_units_and_update_receipt_cache. set (s := match last l with Some _ => _ | None => _ end).
  assert (retry_ok s.2) as Hs by (subst s; destruct (last l); [by destruct (_ && _)|done]).
  pose proof (updates_retry now (rev l) s Hs) as Hu. destruct (fold_left _ _ s) as [a1 u1]. by intros [= _ <-].
Qed.

Lemma clear_done_ok env u : retry_ok u -> retry_ok (clear_retry_done env u).
Proof.
  intros [Hs Hn]. split; cbn.
  - clear Hn. induction Hs as [|e l Hs IH Hf]; cbn; [constructor|]. destruct (negb _); [|done]. constructor; [done|].
    rewrite Forall_forall in Hf |- *. intros x Hx. apply Hf. apply list_elem_of_In in Hx.
    apply List.filter_In in Hx as [Hx _]. by apply list_elem_of_In.
  - rewrite Hn. replace (i32 (Z.of_nat (length (m_retry_cache u))) - Z.of_nat (length (m_retry_cache u) - length (List.filter _ (m_retry_cache u))))
      with (i32 (Z.of_nat (length (m_retry_cache u))) + - Z.of_nat (length (m_retry_cache u) - length (List.filter (fun e => negb (retry_done env u e)) (m_retry_cache u)))) by lia.
    rewrite i32_add. f_equal. pose proof (List.filter_length_le (fun e => negb (retry_done env u e)) (m_retry_cache u)). lia.
Qed.

(** What one pass over the queue takes out. *)
Lemma collect_due_spec u now pc l counter :
  let r := collect_due u now pc l counter in
  r.1.1 ++ r.1.2 ≡ₚ l /\
  (0 <= pc -> Z.of_nat (length r.1.1) <= Z.max 0 (MAX_ONCE_PROCESS_RETRY_SENDTX_RECEIPT - pc)) /\
  Forall (fun e => m_retry_send_timeout_timestamp e <= now /\ is_account_cache_complete (r_source (re_receipt e)) u = true) r.1.1 /\
  (mset_sorted retry_ltb l -> mset_sorted retry_ltb r.1.2) /\
  (map_Forall (fun _ s => size s <= recv_table_accounts_max_accounts)%nat counter ->
   map_Forall (fun _ s => size s <= recv_table_accounts_max_accounts)%nat r.2).
Proof.
  revert pc counter. induction l as [|e l IH]; intros pc counter; cbn [collect_due].
  { split_and!; try done. cbn. lia. }
  destruct (Z.leb_spec MAX_ONCE_PROCESS_RETRY_SENDTX_RECEIPT pc) as [|Hpc]; [split_and!; try done; cbn; lia|].
  destruct (Z.ltb_spec now (m_retry_send_timeout_timestamp e)) as [|Hdue]; [split_and!; try done; cbn; lia|].
  set (x := if is_account_cache_complete _ u then _ else _).
  assert ((x.1 = false -> is_account_cache_complete (r_source (re_receipt e)) u = true) /\
    (map_Forall (fun _ s => size s <= recv_table_accounts_max_accounts)%nat counter ->
     map_Forall (fun _ s => size s <= recv_table_accounts_max_accounts)%nat x.2)) as [Hx1 Hx2].
  { subst x. destruct (is_account_cache_complete _ u); [|done]. split; [done|]. unfold is_receiver_count_full_and_insert.
    intros Hm. destruct (counter !! _) as [s|] eqn:Es; cbv beta iota.
    - destruct (Nat.leb_spec recv_table_accounts_max_accounts (size s)) as [|Hlt]; [done|].
      case_bool_decide; [done|]. apply map_Forall_insert_2; [|done]. rewrite size_union by (by apply disjoint_singleton_l).
      rewrite size_singleton. lia.
    - apply map_Forall_insert_2; [|done]. rewrite size_singleton. unfold recv_table_accounts_max_accounts. lia. }
  destruct x as [full counter']. cbn [fst snd] in Hx1, Hx2.
  specialize (IH (pc + 1) counter'). destruct (collect_due u now (pc + 1) l counter') as [[due rest] c2]. cbn in IH.
  destruct IH as (I1 & I2 & I3 & I4 & I5). destruct full; cbn [fst snd].
  - split_and!; [|lia|done| |auto].
    + by rewrite <- Permutation_middle, I1.
    + intros Hs. inversion_clear Hs as [|? ? Hs' Hf]. constructor; [by apply I4|].
      apply Forall_forall. intros y Hy. rewrite Forall_forall in Hf. apply Hf. rewrite <- I1. apply elem_of_app. by right.
  - split_and!; [by rewrite <- I1|cbn [length]; unfold MAX_ONCE_PROCESS_RETRY_SENDTX_RECEIPT in *; lia| |
      intros Hs; inversion_clear Hs; auto|auto].
    constructor; [|done]. auto.
Qed.

Lemma reinsert_perm now due rest :
  fold_left (fun l e => mset_insert retry_ltb (refresh_entry now e) l) due rest ≡ₚ (refresh_entry now <$> due) ++ rest.
Proof.
  revert rest. induction due as [|e due IH]; intros rest; cbn; [done|]. rewrite IH, mset_insert_perm.
  by rewrite <- Permutation_middle.
Qed.
Lemma reinsert_sorted now due rest :
  mset_sorted retry_ltb rest -> mset_sorted retry_ltb (fold_left (fun l e => mset_insert retry_ltb (refresh_entry now e) l) due rest).
Proof.
  revert rest. induction due as [|e due IH]; intros rest Hs; cbn; [done|]. apply IH, mset_insert_sorted; [apply _|done].
Qed.

Lemma timer_retry_ok env now counter u : retry_ok u -> retry_ok (on_timer_check_cache env now counter u).2.
Proof.
  intros Hr. unfold on_timer_check_cache. destruct (m_retry_cache u) eqn:E; [done|]. clear E.
  pose proof (clear_done_ok env u Hr) as [Hs Hn]. set (u1 := clear_retry_done env u) in *.
  destruct (collect_due_spec u1 now 0 (m_retry_cache u1) counter) as (C1 & _ & _ & C4 & _).
  destruct (collect_due u1 now 0 (m_retry_cache u1) counter) as [[due rest] c2]. cbn in *. split; cbn.
  - by apply reinsert_sorted, C4.
  - rewrite Hn. f_equal. f_equal. rewrite (reinsert_perm now due rest), length_app, length_fmap, <- length_app. by rewrite C1.
Qed.

Lemma reached_retry p q : rtc unconfirm_step p q -> retry_ok p.2 -> retry_ok q.2.
Proof.
  induction 1 as [|p q r Hs _ IH]; [done|]. intros Hr. apply IH.
  destruct Hs as [ch ch' u Hg|ch u env ad now uh ret u' So E|ch u env now c|ch u]; cbn [snd] in *.
  - done.
  - by eapply check_update_retry.
  - by apply timer_retry_ok.
  - destruct Hr as [_ Hn]. split; cbn; [constructor|]. rewrite Hn.
    replace (i32 (Z.of_nat (length (m_retry_cache u))) - Z.of_nat (length (m_retry_cache u)))
      with (i32 (Z.of_nat (length (m_retry_cache u))) + - Z.of_nat (length (m_retry_cache u))) by lia.
    rewrite i32_add. f_equal. lia.
Qed.

Lemma new_retry_ok : retry_ok new_unconfirm_cache.
Proof. split; [constructor|done]. Qed.

(** The retry timer sends at most fifty receipts, for at most five accounts
    of a table; each is unconfirmed, inside the window, due, and of an account
    whose cache is complete.  The receipts that stay queued are exactly those
    neither confirmed nor out of the window, those just sent among them, and
    the number of unconfirmed transactions that limits new ones is the length
    of the queue. *)
Theorem timer_sends_due_receipts chains0 chains u env now counter receipts counter' u' :
  rtc unconfirm_step (chains0, new_unconfirm_cache) (chains, u) ->
  on_timer_check_cache env now counter u = (receipts, counter', u') ->
  Z.of_nat (length receipts) <= MAX_ONCE_PROCESS_RETRY_SENDTX_RECEIPT /\
  (forall r, r ∈ receipts -> (r_id r ∉ uc_confirmed u) /\ ue_time env <= u64 (r_clock r + ue_window env) /\
     is_account_cache_complete (r_source r) u = true /\
     exists e, e ∈ m_retry_cache u /\ re_receipt e = r /\ m_retry_send_timeout_timestamp e <= now) /\
  (re_receipt <$> m_retry_cache u') ≡ₚ (re_receipt <$> List.filter (fun e => negb (retry_done env u e)) (m_retry_cache u)) /\
  m_unconfirm_tx_num u' = i32 (Z.of_nat (length (m_retry_cache u'))) /\
  (map_Forall (fun _ s => size s <= recv_table_accounts_max_accounts)%nat counter ->
   map_Forall (fun _ s => size s <= recv_table_accounts_max_accounts)%nat counter').
Proof.
  intros Hr E. pose proof (reached_retry _ _ Hr new_retry_ok) as Ho. cbn in Ho.
  pose proof (timer_retry_ok env now counter u Ho) as [_ Hn]. rewrite E in Hn. cbn in Hn.
  unfold on_timer_check_cache in E. destruct (m_retry_cache u) as [|e0 l0] eqn:El.
  { injection E as <- <- <-. rewrite El. split_and!; [cbn; unfold MAX_ONCE_PROCESS_RETRY_SENDTX_RECEIPT; lia|by intros r ?%elem_of_nil|done|by rewrite Hn, El|done]. }
  set (u1 := clear_retry_done env u) in *.
  destruct (collect_due_spec u1 now 0 (m_retry_cache u1) counter) as (C1 & C2 & C3 & _ & C5).
  destruct (collect_due u1 now 0 (m_retry_cache u1) counter) as [[due rest] c2]. cbn [fst snd] in C1, C2, C3, C5.
  injection E as <- <- <-. rewrite length_fmap. split_and!; [unfold MAX_ONCE_PROCESS_RETRY_SENDTX_RECEIPT in *; lia| | |done|done].
  - intros r (e & -> & He)%list_elem_of_fmap.
    destruct (proj1 (Forall_forall _ _) C3 e He) as [Hts Hcomp].
    assert (e ∈ m_retry_cache u1) as Hin by (rewrite <- C1; apply elem_of_app; by left).
    cbn in Hin. apply list_elem_of_In, List.filter_In in Hin as [Hin Hnd]. apply list_elem_of_In in Hin.
    apply negb_true_iff, orb_false_iff in Hnd as [Hc Hw]. apply bool_decide_eq_false_1 in Hc. apply Z.ltb_ge in Hw.
    split_and!; [done|done|done|]. exists e. rewrite <- El. done.
  - cbn. rewrite (reinsert_perm now due rest). rewrite fmap_app, <- list_fmap_compose.
    assert (re_receipt ∘ refresh_entry now <$> due = re_receipt <$> due) as -> by (by apply list_fmap_ext).
    rewrite <- fmap_app, C1. cbn. by rewrite El.
Qed.
End Reached.

(** The next time a receipt is sent again is after the present time and at
    most 800 seconds later, or 200 seconds after the certificate when that is
    still to come; from then on it lies on the grid of 800 seconds that starts there. *)
Theorem next_retry_bounds cert_time now :
  0 <= cert_time -> 0 <= now -> cert_time + 1000 < 2 ^ 64 -> now + 1000 < 2 ^ 64 ->
  let next := get_next_retry_timestamp cert_time now in
  now < next <= Z.max (cert_time + send_tx_receipt_first_retry_timeout) (now + send_tx_receipt_common_retry_timeout) /\
  exists k, 0 <= k /\ next = cert_time + send_tx_receipt_first_retry_timeout + k * send_tx_receipt_common_retry_timeout.
Proof.
  intros Hc Hn Hcw Hnw. cbv zeta. unfold get_next_retry_timestamp, send_tx_receipt_first_retry_timeout, send_tx_receipt_common_retry_timeout.
  rewrite (u64_small (cert_time + 200)) by (unfold is_u64; lia).
  destruct (Z.ltb_spec now (cert_time + 200)) as [Hlt|Hge].
  - split; [lia|]. exists 0. lia.
  - rewrite (u64_small (now - cert_time - 200)) by (unfold is_u64; lia).
    pose proof (Z.mod_pos_bound (now - cert_time - 200) 800 ltac:(lia)) as Hm.
    rewrite u64_small by (unfold is_u64; lia). split; [lia|].
    exists ((now - cert_time - 200) / 800 + 1). pose proof (Z.div_mod (now - cert_time - 200) 800 ltac:(lia)).
    pose proof (Z.div_pos (now - cert_time - 200) 800 ltac:(lia) ltac:(lia)). lia.
Qed.
