(* ===== verification/TxTable.v ===== *)
(** * The pool of one table: [xtxpool/src/xtxpool_table.cpp]

    A table joins the account objects, the cache of consumed receipts, the
    cache of unconfirmed receipts and the locks of the accounts whose units are
    not committed yet.  What the table reads of its environment during a call
    is the record [pool_env]; signature and form checks of transactions
    ([xverifier], [xcertauth]) are the class [TxVerify].  An operation is [None]
    where the code dereferences a null pointer or locks [m_table_mutex], a
    [std::mutex], while it holds it already. *)

From stdpp Require Import prelude gmap strings.
From Stdlib Require Import ZArith Lia.
From S2P Require Import Prelude StdMap StoreBlock AccountAddr TxData AccountObj RecvCache UnconfirmCache.

Definition enum_max_table_send_tx_num : Z := 8.
Definition enum_max_table_unconfirm_tx_num : Z := 8.

Class TxVerify := {
  verify_send_tx_validation : xtransaction -> xtxpool_error;     (* xverifier::xtx_verifier *)
  verify_send_tx_legitimacy : xtransaction -> xtxpool_error;
  digest_check : xtransaction -> bool;                           (* xtransaction_t::digest_check *)
  verify_cons_transaction : xtransaction -> bool;                (* xcons_transaction_t *)
  has_commit_prove : xtransaction -> bool;                       (* get_commit_prove_cert_and_account *)
  verify_muti_sign : xtransaction -> bool;                       (* certauth, on the prove certificate *)
  is_sys_contract_address : string -> bool
}.

Record pool_env := PoolEnv {
  pe_now : Z;                                     (* get_gmttime_s() *)
  pe_recv : cache_env;
  pe_unit : unit_env;
  pe_account : string -> option (Z * string);     (* clone_account: nonce and hash of its last send *)
  pe_unconfirmed : option (list string);          (* get_unconfirmed_accounts() of the table *)
  pe_commit_prove : receipt -> bool               (* set, or its justify table block can be loaded *)
}.

(** ** [xtxpool_lock_mgr] *)

(** What the lock manager reads of a table block. *)
Record lock_block := LockBlock {
  lb_committed : bool; lb_class : Z; lb_height : Z; lb_accounts : list string
}.

Definition lock_accounts (b : lock_block) (m : gmap string Z) : gmap string Z :=
  if negb (lb_committed b) && negb (lb_class b =? enum_xvblock_class_nil)
  then fold_left (fun m account => <[account := lb_height b]> m) (lb_accounts b) m else m.

(** [update_blocks], with the latest certified and the latest locked block. *)
Definition update_blocks (cert_block lock_block : lock_block) : gmap string Z :=
  lock_accounts lock_block (lock_accounts cert_block ∅).

Definition is_account_lock (account : string) (m : gmap string Z) : bool := bool_decide (is_Some (m !! account)).

(** ** State *)

Record tx_table := TxTable {
  m_waiting_accounts : gmap string xaccountobj;
  m_send_tx_num : Z;
  m_consensused_recvtx_cache : recv_cache;
  m_unconfirm_sendtx_cache : unconfirm_cache;
  m_lock_accounts : gmap string Z
}.
Definition new_tx_table : tx_table := TxTable ∅ 0 new_recv_cache new_unconfirm_cache ∅.

Definition set_waiting (m : gmap string xaccountobj) (n : Z) (t : tx_table) : tx_table :=
  TxTable m n (m_consensused_recvtx_cache t) (m_unconfirm_sendtx_cache t) (m_lock_accounts t).
Definition set_recvtx_cache (c : recv_cache) (t : tx_table) : tx_table :=
  TxTable (m_waiting_accounts t) (m_send_tx_num t) c (m_unconfirm_sendtx_cache t) (m_lock_accounts t).
Definition set_unconfirm (u : unconfirm_cache) (t : tx_table) : tx_table :=
  TxTable (m_waiting_accounts t) (m_send_tx_num t) (m_consensused_recvtx_cache t) u (m_lock_accounts t).

Section Table.
Context `{TxEnv} `{TxVerify} `{XStringUtl}.

Definition verify_send_tx (tx : xtransaction) (now : Z) : xtxpool_error :=
  let ret := verify_send_tx_validation tx in
  if failed ret then ret
  else
    let ret := verify_send_tx_legitimacy tx in
    if failed ret then ret else verify_tx_duration_expiration tx now.

Definition verify_receipt_tx (tx : xtransaction) : xtxpool_error :=
  if negb (digest_check tx) then xtxpool_error_receipt_invalid
  else if negb (verify_cons_transaction tx) then xtxpool_error_receipt_invalid
  else if negb (has_commit_prove tx) then xtxpool_error_tx_multi_sign_error
  else if negb (verify_muti_sign tx) then xtxpool_error_tx_multi_sign_error
  else xsuccess.

Definition verify_cons_tx (tx : xtransaction) (now : Z) : xtxpool_error :=
  if is_send_tx tx || is_self_tx tx then verify_send_tx tx now
  else if is_recv_tx tx then verify_receipt_tx tx
  else if is_confirm_tx tx then verify_receipt_tx tx
  else xtxpool_error_tx_invalid_type.

(** ** Accounts *)

(** A call on the account object of an address, with the table as its [m_table]. *)
Definition on_account {R} (address : string) (o : xaccountobj) (f : acct -> R * acct) (t : tx_table) : R * tx_table :=
  let '(r, a) := f (Acct o (m_send_tx_num t)) in
  (r, set_waiting (<[address := a_obj a]> (m_waiting_accounts t)) (a_send_num a) t).

Definition find_account_and_create_new (env : pool_env) (address : string) (t : tx_table) : xaccountobj :=
  match m_waiting_accounts t !! address with
  | Some o => o
  | None =>
      let '(number, hash) := default (0, uint256_zero) (pe_account env address) in
      new_accountobj address number hash
  end.

(** [delete_committed_recv_txs]; [held] tells whether the caller holds [m_table_mutex]. *)
Definition delete_committed_recv_txs (held : bool) (txs : list (string * string)) (t : tx_table) : option tx_table :=
  match txs with
  | [] => Some t
  | _ =>
      if held then None
      else
        Some (fold_left (fun t e =>
          match m_waiting_accounts t !! e.1 with
          | Some o => (on_account e.1 o (pop_tx_by_hash e.2 enum_transaction_subtype_recv) t).2
          | None => t
          end) txs t)
  end.

(** The duplicate check of a receipt with the clean-up that follows it. *)
Definition check_receipt (env : pool_env) (held : bool) (tx : xtransaction) (commit_height : Z) (t : tx_table)
    : option (xtxpool_error * tx_table) :=
  let '(ret, (c, committed_recv_txs)) :=
    is_receipt_duplicated (pe_recv env) (get_clock tx) (digest tx) commit_height (m_consensused_recvtx_cache t) in
  (fun t => (ret, t)) <$> delete_committed_recv_txs held committed_recv_txs (set_recvtx_cache c t).

Definition check_unconfirmed (env : pool_env) (tx : xtransaction) (now unit_height : Z) (t : tx_table)
    : option (xtxpool_error * tx_table) :=
  match has_txhash_receipt (pe_unit env) (get_source_addr tx) (digest tx) now unit_height (m_unconfirm_sendtx_cache t) with
  | None => None
  | Some (ret, u) => Some (ret, set_unconfirm u t)
  end.

(** ** Pushing *)

Definition tt_push_send_tx (env : pool_env) (cons_tx : xtransaction) (t : tx_table) : xtxpool_error * tx_table :=
  let now := pe_now env in
  if negb (is_sys_contract_address (get_source_addr cons_tx)) && (enum_max_table_send_tx_num <=? m_send_tx_num t)
  then (xtxpool_error_send_tx_reach_upper_limit, t)
  else if negb (is_sys_contract_address (get_source_addr cons_tx))
          && (enum_max_table_unconfirm_tx_num <=? m_unconfirm_tx_num (m_unconfirm_sendtx_cache t))
  then (xtxpool_error_send_tx_reach_upper_limit, t)
  else if failed (verify_send_tx cons_tx now) then (verify_send_tx cons_tx now, t)
  else if failed (verify_tx_fire_expiration cons_tx now) then (verify_tx_fire_expiration cons_tx now, t)
  else
    let tx := set_push_pool_timestamp now cons_tx in
    on_account (get_source_addr tx) (find_account_and_create_new env (get_source_addr tx) t) (push_send_tx tx) t.

Definition tt_push_recv_tx (env : pool_env) (cons_tx : xtransaction) (t : tx_table) : option (xtxpool_error * tx_table) :=
  if failed (verify_receipt_tx cons_tx) then Some (verify_receipt_tx cons_tx, t)
  else
    match check_receipt env false cons_tx MAX_HEIGHT t with
    | None => None
    | Some (ret, t) =>
        if failed ret then Some (ret, t)
        else
          let tx := set_push_pool_timestamp (pe_now env) cons_tx in
          Some (on_account (get_target_addr tx) (find_account_and_create_new env (get_target_addr tx) t) (push_recv_tx tx) t)
    end.

Definition tt_push_recv_ack_tx (env : pool_env) (cons_tx : xtransaction) (t : tx_table) : option (xtxpool_error * tx_table) :=
  if failed (verify_receipt_tx cons_tx) then Some (verify_receipt_tx cons_tx, t)
  else
    match check_unconfirmed env cons_tx (pe_now env) 0 t with
    | None => None
    | Some (ret, t) =>
        if negb (bool_decide (ret = xtxpool_error_unconfirm_sendtx_exist)) then Some (ret, t)
        else
          let tx := set_push_pool_timestamp (pe_now env) cons_tx in
          Some (on_account (get_source_addr tx) (find_account_and_create_new env (get_source_addr tx) t) (push_recv_ack_tx tx) t)
    end.

(** ** The leader's batch *)

Definition leader_drops (ret : xtxpool_error) : bool :=
  bool_decide (ret = xtxpool_error_unconfirm_sendtx_not_exist)
  || bool_decide (ret = xtxpool_error_sendtx_receipt_duplicate)
  || bool_decide (ret = xtxpool_error_sendtx_receipt_expired).
Definition check_passes (ret : xtxpool_error) : bool :=
  bool_decide (ret = xtxpool_error_unconfirm_sendtx_exist) || bool_decide (ret = xsuccess).

(** [txs_validity_check_leader] for the account at [address]: the code and the
    transactions left of the batch.  It runs with [m_table_mutex] held. *)
Fixpoint txs_validity_check_leader (env : pool_env) (address : string) (txs : list xtransaction)
    (commit_height unit_height now : Z) (t : tx_table) : option (xtxpool_error * list xtransaction * tx_table) :=
  match txs with
  | [] => Some (xsuccess, [], t)
  | tx :: txs =>
      let checked :=
        if is_confirm_tx tx then check_unconfirmed env tx now unit_height t
        else if is_recv_tx tx then check_receipt env true tx commit_height t
        else Some (xsuccess, t) in
      match checked with
      | None => None
      | Some (ret, t) =>
          if leader_drops ret then
            match m_waiting_accounts t !! address with
            | None => None
            | Some o =>
                let t := (on_account address o (pop_tx_by_hash (digest tx) (get_tx_subtype tx)) t).2 in
                txs_validity_check_leader env address txs commit_height unit_height now t
            end
          else if negb (check_passes ret) then Some (ret, [], t)
          else
            match txs_validity_check_leader env address txs commit_height unit_height now t with
            | None => None
            | Some (ret, rest, t) => Some (if failed ret then (ret, [], t) else (ret, tx :: rest, t))
            end
      end
  end.

(** The part of [get_account_txs] and [get_txs] that fills the batch of one account. *)
Definition account_batch (env : pool_env) (address : string) (o : xaccountobj) (commit_height unit_height nonce : Z)
    (hash : string) (now : Z) (t : tx_table) : option (list xtransaction * tx_table) :=
  let '(txs, t) :=
    on_account address o (fun a => get_cons_txs nonce hash (clear_invalid_send_tx now a)) t in
  match txs_validity_check_leader env address txs commit_height unit_height now t with
  | None => None
  | Some (_, txs, t) => Some (txs, t)
  end.

Definition tt_get_account_txs (env : pool_env) (account : string) (commit_height unit_height last_nonce : Z)
    (last_hash : string) (now : Z) (t : tx_table) : option (list xtransaction * tx_table) :=
  match m_waiting_accounts t !! account with
  | None => Some ([], t)
  | Some o => account_batch env account o commit_height unit_height last_nonce last_hash now t
  end.

(** The first loop of [get_txs] and [get_accounts], over the addresses in the
    order of the hash table: empty objects are destroyed, the objects not
    locked are the candidates. *)
Fixpoint select_accounts (addresses : list string) (t : tx_table) : list string * tx_table :=
  match addresses with
  | [] => ([], t)
  | account :: addresses =>
      match m_waiting_accounts t !! account with
      | None => select_accounts addresses t
      | Some o =>
          if is_account_lock account (m_lock_accounts t) then select_accounts addresses t
          else if empty o then
            select_accounts addresses
              (set_waiting (delete account (m_waiting_accounts t)) (destroy_accountobj (Acct o (m_send_tx_num t))) t)
          else
            let '(sel, t) := select_accounts addresses t in (account :: sel, t)
      end
  end.

(** The second loop of [get_txs], in the order of [accountobj_set]. *)
Fixpoint fill_accounts (env : pool_env) (commit_height max_account_num account_num residue : Z)
    (accounts : list string) (t : tx_table) : option (list (string * list xtransaction) * tx_table) :=
  match accounts with
  | [] => Some ([], t)
  | account :: accounts =>
      if (max_account_num <=? account_num) && (0 <? residue)
      then fill_accounts env commit_height max_account_num account_num residue accounts t
      else
        match m_waiting_accounts t !! account, ue_latest (pe_unit env) account with
        | Some o, Some latest_commit_block =>
            if negb (lu_ready latest_commit_block)
            then fill_accounts env commit_height max_account_num account_num residue accounts t
            else
              let state :=
                if lu_is_genesis latest_commit_block then Some (0, uint256_zero) else pe_account env account in
              match state with
              | None => fill_accounts env commit_height max_account_num account_num residue accounts t
              | Some (nonce, hash) =>
                  match account_batch env account o commit_height (lu_height latest_commit_block) nonce hash (pe_now env) t with
                  | None => None
                  | Some ([], t) => fill_accounts env commit_height max_account_num account_num residue accounts t
                  | Some (txs, t) =>
                      match fill_accounts env commit_height max_account_num (account_num + 1)
                              (i32 (residue - Z.of_nat (length txs))) accounts t with
                      | None => None
                      | Some (m, t) => Some ((account, txs) :: m, t)
                      end
                  end
              end
        | _, _ => None
        end
  end.

(** [get_txs]; [hash_order] is the iteration order of [m_waiting_accounts] and
    [set_order] that of [accountobj_set] over the candidates. *)
Definition get_txs (env : pool_env) (commit_height max_account_num : Z) (hash_order : list string)
    (set_order : list string -> list string) (t : tx_table) : option (list (string * list xtransaction) * tx_table) :=
  let '(sel, t) := select_accounts hash_order t in
  fill_accounts env commit_height max_account_num 0 tableblock_batch_tx_max_num (set_order sel) t.

(** [account_num] stays 0 in [get_accounts]. *)
Definition get_accounts (max_account_num : Z) (hash_order : list string) (set_order : list string -> list string)
    (t : tx_table) : list string * tx_table :=
  let '(sel, t) := select_accounts hash_order t in
  let account_num := 0 in
  (List.filter (fun _ => negb (max_account_num <=? account_num)) (set_order sel), t).

(** ** The backup's check *)

Fixpoint txs_validity_check_backup (env : pool_env) (txs : list xtransaction) (commit_height unit_height now last_nonce : Z)
    (last_hash : string) (t : tx_table) : option (xtxpool_error * tx_table) :=
  match txs with
  | [] => Some (xsuccess, t)
  | tx :: txs =>
      let ret := verify_cons_tx tx now in
      if failed ret then Some (ret, t)
      else if is_self_tx tx || is_send_tx tx then
        match nonce_continous last_nonce last_hash tx with
        | None => Some (xtxpool_error_tx_nonce_incontinuity, t)
        | Some (n, h) => txs_validity_check_backup env txs commit_height unit_height now n h t
        end
      else
        let checked :=
          if is_confirm_tx tx then check_unconfirmed env tx now unit_height t
          else if is_recv_tx tx then check_receipt env false tx commit_height t
          else Some (xtxpool_error_tx_invalid_type, t) in
        match checked with
        | None => None
        | Some (ret, t) =>
            if negb (check_passes ret) then Some (ret, t)
            else txs_validity_check_backup env txs commit_height unit_height now last_nonce last_hash t
        end
  end.

Definition verify_txs (env : pool_env) (commit_height unit_height : Z) (txs : list xtransaction) (last_nonce : Z)
    (last_hash : string) (t : tx_table) : option (xtxpool_error * tx_table) :=
  txs_validity_check_backup env txs commit_height unit_height (pe_now env) last_nonce last_hash t.

(** ** Committed blocks, timer, life cycle *)

Definition update_committed_table_block (env : pool_env) (b : table_block) (t : tx_table) : option tx_table :=
  let '(c, committed_recv_txs) := update_tx_cache (pe_recv env) b (m_consensused_recvtx_cache t) in
  delete_committed_recv_txs false committed_recv_txs (set_recvtx_cache c t).

Definition update_committed_unit_block (env : pool_env) (address : string) (light_txs : option (list unit_tx))
    (account_tx_nonce : Z) (account_tx_hash : string) (t : tx_table) : option tx_table :=
  match on_unit_update (pe_unit env) address (pe_now env) (m_unconfirm_sendtx_cache t) with
  | None => None
  | Some u =>
      let t := set_unconfirm u t in
      Some (match m_waiting_accounts t !! address with
            | Some o => (on_account address o (fun a => (tt, on_unit_to_db light_txs account_tx_nonce account_tx_hash a)) t).2
            | None => t
            end)
  end.

(** A committed block as [on_block_confirmed] distinguishes it. *)
Inductive committed_block :=
| CommittedUnit (address : string) (light_txs : option (list unit_tx))
| CommittedTable (b : table_block)
| CommittedOther.

Definition on_block_confirmed (env : pool_env) (b : committed_block) (t : tx_table) : option tx_table :=
  match b with
  | CommittedUnit address light_txs =>
      match pe_account env address with
      | None => None
      | Some (nonce, hash) => update_committed_unit_block env address light_txs nonce hash t
      end
  | CommittedTable b => update_committed_table_block env b t
  | CommittedOther => Some t
  end.

Definition update_lock_blocks (cert_block lock_block : lock_block) (t : tx_table) : tx_table :=
  TxTable (m_waiting_accounts t) (m_send_tx_num t) (m_consensused_recvtx_cache t) (m_unconfirm_sendtx_cache t)
    (update_blocks cert_block lock_block).

(** [xtxpool_table_t::on_timer_check_cache]: the receipts handed to [send_receipt], with the number of the resend. *)
Definition tt_on_timer_check_cache (env : pool_env) (counter : receiver_counter) (t : tx_table)
    : list (receipt * Z) * receiver_counter * tx_table :=
  let now := pe_now env in
  let '(receipts, counter, u) := on_timer_check_cache (pe_unit env) now counter (m_unconfirm_sendtx_cache t) in
  ((fun r => (r, get_receipt_resend_time (r_gmtime r) now)) <$> List.filter (pe_commit_prove env) receipts,
   counter, set_unconfirm u t).

Definition tt_init (env : pool_env) (t : tx_table) : option tx_table :=
  match pe_unconfirmed env with
  | None => Some t
  | Some accounts =>
      (fun u => set_unconfirm u t) <$> accounts_update (pe_unit env) accounts (pe_now env) (m_unconfirm_sendtx_cache t)
  end.

(** [clear]: every account object is destroyed; the unconfirmed cache stays. *)
Definition tt_clear (hash_order : list string) (t : tx_table) : tx_table :=
  fold_left (fun t account =>
    match m_waiting_accounts t !! account with
    | Some o => set_waiting (delete account (m_waiting_accounts t)) (destroy_accountobj (Acct o (m_send_tx_num t))) t
    | None => t
    end) hash_order t.

Definition tt_query_tx (account hash : string) (t : tx_table) : option xtransaction :=
  match m_waiting_accounts t !! account with Some o => query_tx o hash | None => None end.

Definition tt_pop_tx_by_hash (address hash : string) (subtype : Z) (t : tx_table) : option xtransaction * tx_table :=
  match m_waiting_accounts t !! address with
  | Some o => on_account address o (pop_tx_by_hash hash subtype) t
  | None => (None, t)
  end.

Definition tt_get_unconfirm_tx (env : pool_env) (source_addr hash : string) (t : tx_table)
    : option (option receipt * tx_table) :=
  match get_unconfirm_tx (pe_unit env) source_addr hash (pe_now env) (m_unconfirm_sendtx_cache t) with
  | None => None
  | Some (r, u) => Some (r, set_unconfirm u t)
  end.
End Table.
