(* ===== verification/TableFacts.v ===== *)
(** * The table keeps its accounts and its count in order

    Every account object of a table is a queue of consecutive nonces whose
    transactions belong to the account's address, and the table's counter is
    the sum of the lengths of the send queues.  The lemmas on the single calls
    are put together in [TableProps]. *)

From stdpp Require Import prelude gmap strings.
From Stdlib Require Import ZArith Lia.
From S2P Require Import Prelude StdMap StoreBlock AccountAddr TxData AccountObj AccountSpec AccountWf AccountRefine AccountProps RecvCache.
From S2P Require Import RecvCacheFacts RecvCacheProps UnconfirmCache UnconfirmProps TxTable.

(** ** Addresses *)

(** A table keeps a transaction with the account it starts at, a receipt with the account it is for. *)
Definition queue_typed (address : string) (s : aqueue) : Prop :=
  Forall (fun e => get_source_addr e = address) (q_sends s) /\
  Forall (fun e => get_target_addr e = address) (q_recvs s) /\
  Forall (fun e => get_source_addr e = address) (q_acks s).

Definition op_typed (address : string) (op : account_op) : Prop :=
  match op with
  | OpPushSend tx => get_source_addr tx = address
  | OpPushRecv tx => get_target_addr tx = address
  | OpPushAck tx => get_source_addr tx = address
  | _ => True
  end.

Section Typed.
Context `{TxEnv}.

Lemma typed_take i ad s : queue_typed ad s -> queue_typed ad (with_sends (take i (q_sends s)) s).
Proof. intros (? & ? & ?). split_and!; [|done|done]. cbn. by apply Forall_take. Qed.

Lemma spec_pop_typed d st ad s : queue_typed ad s -> queue_typed ad (spec_pop d st s).2.
Proof.
  intros Ht. unfold spec_pop. destruct (spec_find d st s) as [e|]; [|done]. cbn.
  destruct (is_origin_tx e); [destruct (before_take d (q_sends s)) as [i ->]; by apply typed_take|].
  destruct Ht as (? & ? & ?).
  destruct (is_recv_tx e); (split_and!; cbn; [done|..]); try done; eapply sublist_Forall; eauto using without_sublist.
Qed.

Lemma spec_update_typed n h ad s : queue_typed ad s -> queue_typed ad (spec_update n h s).2.
Proof.
  intros Ht. unfold spec_update. destruct (n <? q_nonce s); [done|]. destruct (n =? q_nonce s); [done|].
  destruct Ht as (? & ? & ?). split_and!; cbn; [|done|done]. destruct (match _ with [] => true | _ => _ end); [|done].
  by apply Forall_drop.
Qed.

Lemma spec_push_new_typed tx ad s : queue_typed ad s -> get_source_addr tx = ad -> queue_typed ad (spec_push_new tx s).2.
Proof.
  intros Ht Hs. unfold spec_push_new. destruct (_ <? _)%nat; [done|]. destruct (q_sends s !! _) as [e|].
  - destruct (_ <? _); [done|]. destruct (_ && _); [by apply typed_take|]. destruct Ht as (? & ? & ?).
    split_and!; cbn; [|done|done]. apply Forall_app. split; [by apply Forall_take|by repeat constructor].
  - destruct (negb _); [done|]. destruct (_ && _); [done|]. destruct Ht as (? & ? & ?).
    split_and!; cbn; [|done|done]. apply Forall_app. split; [done|by repeat constructor].
Qed.

Lemma spec_op_typed op ad s : queue_typed ad s -> op_typed ad op -> queue_typed ad (spec_op op s).2.
Proof.
  intros Ht. destruct op; cbn.
  - intros Hs. unfold spec_push_send. destruct (_ <? _); [done|]. destruct (waits _ _); [by apply typed_take|].
    pose proof (spec_push_new_typed tx ad (spec_expire (get_push_pool_timestamp tx) s)) as Hn.
    destruct (spec_push_new tx _). apply Hn; [by apply typed_take|done].
  - intros Hs. unfold spec_push_recv. destruct (waits _ _); [done|]. destruct Ht as (? & ? & ?).
    split_and!; cbn; [done| |done]. rewrite mset_insert_perm. by constructor.
  - intros Hs. unfold spec_push_ack. destruct (waits _ _); [done|]. destruct Ht as (? & ? & ?).
    split_and!; cbn; [done|done|]. rewrite mset_insert_perm. by constructor.
  - intros _. unfold spec_unit. destruct light_txs as [txs|]; [|by apply spec_update_typed].
    assert (forall s, queue_typed ad s ->
      queue_typed ad (fold_left (fun s tx => snd (spec_pop (ut_hash tx) (ut_subtype tx) s)) txs s)) as Hp.
    { induction txs as [|t txs IH]; intros s' Hs'; cbn; [done|]. apply IH. by apply spec_pop_typed. }
    destruct (get_send_trans_info txs) as [number hash]. destruct (n <? number); apply spec_update_typed; auto.
  - intros _. unfold spec_get. destruct (take_ack_txs _ _ _); [|done]. destruct (take_transfer_txs _ _ (q_recvs s)); [|done].
    pose proof (spec_update_typed n h ad s Ht) as Hu. by destruct (spec_update n h s).
  - intros _. by apply typed_take.
  - intros _. pose proof (spec_pop_typed d subtype ad s Ht) as Hp. by destruct (spec_pop d subtype s).
Qed.

(** The address of an object never changes. *)
Lemma spec_op_address op s : q_address (spec_op op s).2 = q_address s.
Proof.
  assert (forall n h s, q_address (spec_update n h s).2 = q_address s) as Hu.
  { intros n h s'. unfold spec_update. destruct (n <? q_nonce s'); [done|]. by destruct (n =? q_nonce s'). }
  assert (forall d st s, q_address (spec_pop d st s).2 = q_address s) as Hp.
  { intros d st s'. unfold spec_pop. destruct (spec_find d st s') as [e|]; [|done]. cbn.
    destruct (is_origin_tx e); [done|]. by destruct (is_recv_tx e). }
  destruct op; cbn.
  - unfold spec_push_send. destruct (_ <? _); [done|]. destruct (waits _ _); [done|]. unfold spec_push_new.
    destruct (_ <? _)%nat; [done|]. destruct (q_sends _ !! _).
    + destruct (_ <? _); [done|]. by destruct (_ && _).
    + destruct (negb _); [done|]. by destruct (_ && _).
  - unfold spec_push_recv. by destruct (waits _ _).
  - unfold spec_push_ack. by destruct (waits _ _).
  - unfold spec_unit. destruct light_txs as [txs|]; [|apply Hu].
    assert (forall s, q_address (fold_left (fun s tx => snd (spec_pop (ut_hash tx) (ut_subtype tx) s)) txs s) = q_address s) as Hps.
    { induction txs as [|t txs IH]; intros s'; cbn; [done|]. by rewrite IH, Hp. }
    destruct (get_send_trans_info txs) as [number hash]. destruct (n <? number); by rewrite Hu, Hps.
  - unfold spec_get. destruct (take_ack_txs _ _ _); [|done]. destruct (take_transfer_txs _ _ (q_recvs s)); [|done].
    specialize (Hu n h s). by destruct (spec_update n h s).
  - done.
  - specialize (Hp d subtype s). by destruct (spec_pop d subtype s).
Qed.
End Typed.

(** ** The count *)

Definition send_total (m : gmap string xaccountobj) : Z :=
  map_fold (fun _ o n => Z.of_nat (length (m_send_queue o)) + n) 0 m.

Lemma send_total_insert m ad o :
  m !! ad = None -> send_total (<[ad := o]> m) = Z.of_nat (length (m_send_queue o)) + send_total m.
Proof. intros Hn. unfold send_total. rewrite map_fold_insert_L; [done| |done]. intros. lia. Qed.
Lemma send_total_delete m ad o :
  m !! ad = Some o -> send_total m = Z.of_nat (length (m_send_queue o)) + send_total (delete ad m).
Proof. intros Hs. rewrite <- (insert_delete_id m ad o) at 1 by done. apply send_total_insert, lookup_delete_eq. Qed.

Record account_ok (ad : string) (o : xaccountobj) : Prop := {
  ao_wf : queue_wf (abs_account o);
  ao_index : indexes (m_tx_map o) (q_all (abs_account o));
  ao_typed : queue_typed ad (abs_account o);
  ao_address : m_address o = ad
}.

Record table_ok (t : tx_table) : Prop := {
  to_accounts : forall ad o, m_waiting_accounts t !! ad = Some o -> account_ok ad o;
  to_count : m_send_tx_num t = i32 (send_total (m_waiting_accounts t))
}.

Section TableOk.
Context `{TxEnv} `{TxVerify} `{XStringUtl}.

(** The object a call works on: the account's own, or a new one. *)
Definition account_at (ad : string) (o : xaccountobj) (t : tx_table) : Prop :=
  account_ok ad o /\ (m_waiting_accounts t !! ad = Some o \/ (m_waiting_accounts t !! ad = None /\ m_send_queue o = [])).

Definition others_total (ad : string) (t : tx_table) : Z := send_total (delete ad (m_waiting_accounts t)).

Lemma account_represents ad o t :
  table_ok t -> account_at ad o t ->
  represents (others_total ad t) (abs_account o) (Acct o (m_send_tx_num t)).
Proof.
  intros Ht [Ho Hat]. split; [done|apply Ho|]. cbn. rewrite (to_count _ Ht). f_equal. unfold others_total.
  destruct Hat as [Hs|[Hn Hq]].
  - rewrite (send_total_delete _ _ _ Hs). lia.
  - rewrite Hq, delete_id by done. cbn. lia.
Qed.

(** A call whose effect is that of an operation of the abstract account keeps the table in order. *)
Lemma on_account_ok {R} ad o (f : acct -> R * acct) t s' :
  table_ok t -> account_at ad o t ->
  represents (others_total ad t) s' (f (Acct o (m_send_tx_num t))).2 ->
  queue_wf s' -> queue_typed ad s' -> q_address s' = ad ->
  table_ok (on_account ad o f t).2.
Proof.
  intros Ht Hat Hr Hw Hty Had. unfold on_account. destruct (f (Acct o (m_send_tx_num t))) as [r a]. cbn [snd] in *.
  destruct Hr as [Ha Hi Hc]. split; cbn.
  - intros ad' o' [[<- <-]|[_ Hs]]%lookup_insert_Some; [|by apply (to_accounts _ Ht)].
    subst s'. by split.
  - rewrite Hc, <- insert_delete_eq, send_total_insert by apply lookup_delete_eq. f_equal. unfold others_total. subst s'. cbn. lia.
Qed.

Lemma on_account_step {R} ad o (f : acct -> R * acct) t op :
  table_ok t -> account_at ad o t -> op_ok op -> op_typed ad op ->
  (f (Acct o (m_send_tx_num t))).2 = (account_step op (Acct o (m_send_tx_num t))).2 ->
  table_ok (on_account ad o f t).2.
Proof.
  intros Ht Hat Hop Hty E. pose proof (account_represents ad o t Ht Hat) as Hr. destruct Hat as [Ho Hat].
  destruct (step_refines _ op _ _ Hr (ao_wf _ _ Ho) Hop) as [_ Hr'].
  apply (on_account_ok ad o f t (spec_op op (abs_account o)).2); [done|by split|by rewrite E| | |].
  - apply spec_op_wf; [apply Ho|done].
  - apply spec_op_typed; [apply Ho|done].
  - rewrite spec_op_address. apply Ho.
Qed.

Lemma new_account_ok ad n h : is_u64 n -> account_ok ad (new_accountobj ad n h).
Proof.
  intros Hn. split; [by apply empty_queue_wf| |done|done].
  apply (rep_index 0 (empty_queue ad n h) (Acct (new_accountobj ad n h) (i32 0))). apply new_account_represents.
Qed.

Lemma find_create_at env ad t :
  table_ok t -> (forall n h, pe_account env ad = Some (n, h) -> is_u64 n) ->
  account_at ad (find_account_and_create_new env ad t) t.
Proof.
  intros Ht Hu. unfold find_account_and_create_new. destruct (m_waiting_accounts t !! ad) as [o|] eqn:E.
  - split; [by apply (to_accounts _ Ht)|by left].
  - destruct (pe_account env ad) as [[n h]|] eqn:Ea; cbn.
    + split; [by apply new_account_ok, (Hu n h)|by right].
    + split; [|by right]. apply new_account_ok. unfold is_u64. lia.
Qed.

Lemma found_at ad o t : table_ok t -> m_waiting_accounts t !! ad = Some o -> account_at ad o t.
Proof. intros Ht Hs. split; [by apply (to_accounts _ Ht)|by left]. Qed.

Lemma table_ok_same t t' :
  m_waiting_accounts t' = m_waiting_accounts t -> m_send_tx_num t' = m_send_tx_num t -> table_ok t -> table_ok t'.
Proof. intros E1 E2 []. split; rewrite E1; [done|by rewrite E2]. Qed.

(** ** Removing account objects *)

Lemma pop_receipts_count l a :
  Forall (fun e => is_recv_tx e = true \/ is_confirm_tx e = true) l -> a_send_num (pop_tx_events l a) = a_send_num a.
Proof.
  intros Hf. revert a. induction Hf as [|e l He Hf IH]; intros a; cbn; [done|]. fold (pop_tx_events l (pop_tx_event e true a)).
  rewrite IH. unfold pop_tx_event. destruct (m_tx_map (a_obj a) !! digest e); [|done].
  unfold is_recv_tx, is_confirm_tx in He. destruct He as [-> | ->]; [done|]. by destruct (_ =? _).
Qed.

Lemma pop_receipts_map l k a :
  indexes (m_tx_map (a_obj a)) (l ++ k) -> NoDup (digest <$> l ++ k) ->
  indexes (m_tx_map (a_obj (pop_tx_events l a))) k /\ m_send_queue (a_obj (pop_tx_events l a)) = m_send_queue (a_obj a).
Proof.
  revert a. induction l as [|e l IH]; intros a Hm Hn; [done|]. cbn. fold (pop_tx_events l (pop_tx_event e true a)).
  assert (m_tx_map (a_obj a) !! digest e = Some e) as He by (apply Hm; split; [by left|done]).
  assert (m_tx_map (a_obj (pop_tx_event e true a)) = delete (digest e) (m_tx_map (a_obj a)) /\
    m_send_queue (a_obj (pop_tx_event e true a)) = m_send_queue (a_obj a)) as [Em Eq].
  { unfold pop_tx_event. rewrite He. destruct (_ =? enum_transaction_subtype_recv); [done|]. by destruct (_ =? _). }
  destruct (IH (pop_tx_event e true a)) as [H2 H3].
  - rewrite Em. by apply indexes_delete.
  - cbn in Hn. by apply NoDup_cons in Hn as [].
  - split; [exact H2|]. etransitivity; [exact H3|exact Eq].
Qed.

Lemma destroy_count ad o t :
  table_ok t -> account_at ad o t ->
  destroy_accountobj (Acct o (m_send_tx_num t)) = i32 (others_total ad t).
Proof.
  intros Ht Hat. pose proof (account_represents ad o t Ht Hat) as [_ Hm Hc]. destruct Hat as [[Hwf _ _ _] _].
  unfold destroy_accountobj. cbn [a_obj]. set (s := abs_account o) in *.
  assert (q_all s ≡ₚ q_acks s ++ q_recvs s ++ q_sends s) as Ep by (unfold q_all; rewrite (Permutation_app_comm (q_sends s)), <- app_assoc, Permutation_app_swap_app; done).
  pose proof (wf_digests _ Hwf) as Hn. rewrite Ep in Hm, Hn.
  destruct (pop_receipts_map (q_acks s) (q_recvs s ++ q_sends s) (Acct o (m_send_tx_num t)) Hm Hn) as [Hm1 Hq1].
  rewrite fmap_app in Hn. apply NoDup_app in Hn as (_ & _ & Hn).
  destruct (pop_receipts_map (q_recvs s) (q_sends s) _ Hm1 Hn) as [Hm2 Hq2].
  rewrite fmap_app in Hn. apply NoDup_app in Hn as (_ & _ & Hn).
  change (m_recv_ack_queue o) with (q_acks s). change (m_recv_queue o) with (q_recvs s). change (m_send_queue o) with (q_sends s).
  rewrite (pop_tx_events_origin (q_sends s) [] _ (others_total ad t + Z.of_nat (length (q_sends s)))).
  - cbn [a_send_num]. f_equal. lia.
  - by rewrite app_nil_r.
  - by rewrite app_nil_r.
  - apply Hwf.
  - rewrite pop_receipts_count by (eapply Forall_impl; [apply (wf_recvs _ Hwf)|auto]).
    rewrite pop_receipts_count by (eapply Forall_impl; [apply (wf_acks _ Hwf)|auto]). exact Hc.
Qed.

Lemma remove_ok ad o t :
  table_ok t -> m_waiting_accounts t !! ad = Some o ->
  table_ok (set_waiting (delete ad (m_waiting_accounts t)) (destroy_accountobj (Acct o (m_send_tx_num t))) t).
Proof.
  intros Ht Hs. split; cbn.
  - intros ad' o' [_ Ho]%lookup_delete_Some. by apply (to_accounts _ Ht).
  - by apply destroy_count, found_at.
Qed.
End TableOk.

(** * The checks of a table keep it in order

    The invariant of a table (its account objects, its count and its two caches
    against the chain) through the checks of receipts, the backup's check of a
    batch and the leader's. *)

Section TableInv.
Context `{TxEnv} `{TxVerify} `{XStringUtl}.
Context (chain : Z -> option table_block) (W : Z) (Hchain : chain_wf chain).

(** ** The invariant and what a call may rely on *)

Record table_inv (T : Z) (chains : string -> list lunit) (t : tx_table) : Prop := {
  ti_ok : table_ok t;
  ti_recv : cache_inv chain W T (m_consensused_recvtx_cache t);
  ti_unconfirm : accounts_ok chains (m_unconfirm_sendtx_cache t);
  ti_retry : retry_ok (m_unconfirm_sendtx_cache t)
}.

Record pool_env_ok (T : Z) (chains : string -> list lunit) (env : pool_env) (t : tx_table) : Prop := {
  po_recv : env_ok chain W T (pe_recv env);
  po_gap : no_gap (pe_recv env) (m_consensused_recvtx_cache t);
  po_unit : forall address, store_ok chains (pe_unit env) address;
  po_nonce : forall address n h, pe_account env address = Some (n, h) -> is_u64 n
}.

(** What the calls made inside an operation leave as they are. *)
Record same_caches (t t' : tx_table) : Prop := {
  sc_recv : m_consensused_recvtx_cache t' = m_consensused_recvtx_cache t;
  sc_unconfirm : m_unconfirm_sendtx_cache t' = m_unconfirm_sendtx_cache t;
  sc_lock : m_lock_accounts t' = m_lock_accounts t
}.
#[export] Instance same_caches_preorder : PreOrder same_caches.
Proof. split; [done|]. intros x y z [] []. split; congruence. Qed.

Lemma on_account_caches {R} ad o (f : acct -> R * acct) t : same_caches t (on_account ad o f t).2.
Proof. unfold on_account. by destruct (f _). Qed.

Lemma inv_same T chains t t' : same_caches t t' -> table_ok t' -> table_inv T chains t -> table_inv T chains t'.
Proof. intros [E1 E2 _] Hok []. split; [done|by rewrite E1|by rewrite E2|by rewrite E2]. Qed.
Lemma env_same T chains env t t' : same_caches t t' -> pool_env_ok T chains env t -> pool_env_ok T chains env t'.
Proof. intros [E1 _ _] []. split; [done|by rewrite E1|done|done]. Qed.

Lemma pop_account_ok ad o d st t :
  table_ok t -> m_waiting_accounts t !! ad = Some o -> table_ok (on_account ad o (pop_tx_by_hash d st) t).2.
Proof.
  intros Ht Hs. apply (on_account_step ad o _ t (OpPop d st)); [done|by apply found_at|done|done|].
  cbn. by destruct (pop_tx_by_hash d st _).
Qed.

Lemma delete_committed_ok held txs t t' :
  table_ok t -> delete_committed_recv_txs held txs t = Some t' -> table_ok t' /\ same_caches t t'.
Proof.
  intros Ht. unfold delete_committed_recv_txs. destruct txs as [|e txs]; [intros [= <-]; split; [done|reflexivity]|]. destruct held; [done|].
  intros E%(inj Some). subst t'. revert t Ht. generalize (e :: txs) as l. intros l. induction l as [|x l IH]; intros t Ht; cbn [fold_left]; [split; [done|reflexivity]|].
  destruct (m_waiting_accounts t !! x.1) as [o|] eqn:E; [|by apply IH].
  destruct (IH _ (pop_account_ok x.1 o x.2 enum_transaction_subtype_recv t Ht E)) as [? Hc].
  split; [done|]. etransitivity; [|exact Hc]. apply on_account_caches.
Qed.

(** ** The duplicate check and the unconfirmed check *)

(** The receipt is not consumed by any committed block from [lo] to the block under consensus. *)
Definition not_consumed (tx : xtransaction) (lo ch : Z) : Prop :=
  forall h b, lo <= h <= ch -> chain h = Some b -> ~ consumes b (get_clock tx) (digest tx).

(** How an operation leaves the table for the ones after it. *)
Record kept (T : Z) (chains : string -> list lunit) (env : pool_env) (t t' : tx_table) : Prop := {
  kp_inv : table_inv T chains t';
  kp_env : pool_env_ok T chains env t';
  kp_min : m_min_cache_block_height (m_consensused_recvtx_cache t') <= m_min_cache_block_height (m_consensused_recvtx_cache t);
  kp_lock : m_lock_accounts t' = m_lock_accounts t
}.

Lemma kept_refl T chains env t : table_inv T chains t -> pool_env_ok T chains env t -> kept T chains env t t.
Proof. intros. by split. Qed.
Lemma kept_trans T chains env t1 t2 t3 : kept T chains env t1 t2 -> kept T chains env t2 t3 -> kept T chains env t1 t3.
Proof. intros [] []. split; [done|done|lia|congruence]. Qed.
Lemma kept_same T chains env t t' :
  same_caches t t' -> table_ok t' -> table_inv T chains t -> pool_env_ok T chains env t -> kept T chains env t t'.
Proof. intros Hs Hok Hi He. pose proof Hs as [E1 _ E3]. split; [by eapply inv_same|by eapply env_same|by rewrite E1|done]. Qed.

Lemma check_receipt_kept T chains env held tx ch t ret t' :
  table_inv T chains t -> pool_env_ok T chains env t -> 0 <= ch <= MAX_HEIGHT ->
  check_receipt env held tx ch t = Some (ret, t') ->
  kept T chains env t t' /\
  (ret = xsuccess ->
     ce_time (pe_recv env) <= u64 (get_clock tx + W) /\
     (ch <> MAX_HEIGHT -> exists lo, lo <= m_min_cache_block_height (m_consensused_recvtx_cache t) /\
        (0 < ch -> lo <= ch) /\ not_consumed tx lo ch)).
Proof.
  intros Hi He Hch. pose proof Hi as [Hok Hr Hu Hy]. pose proof He as [Her Heg Heu Hen]. unfold check_receipt.
  pose proof (check_inv chain W Hchain T (pe_recv env) (get_clock tx) (digest tx) ch _ Her Hr Hch Heg) as Hi1.
  destruct (check_keeps_range chain W Hchain T (pe_recv env) (get_clock tx) (digest tx) ch _ Hr Her Hch Heg) as [Hmin Hgap].
  destruct (is_receipt_duplicated _ _ _ _ _) as [r [c out]] eqn:E. cbn [fst snd] in Hi1, Hmin, Hgap.
  destruct (check_spec chain W Hchain T _ _ _ _ ch r c out Hr Her Hch Heg E) as (_ & Hexp & _ & Hsucc).
  destruct (delete_committed_recv_txs _ _ _) as [t1|] eqn:Ed; [|done]. cbn. intros [= -> ->].
  assert (table_ok (set_recvtx_cache c t)) as Hok1 by by apply (table_ok_same t).
  destruct (delete_committed_ok _ _ _ _ Hok1 Ed) as [Hok' Hsc].
  split.
  - eapply (kept_trans _ _ _ _ (set_recvtx_cache c t)); [split; [by split|by split|done|done]|].
    apply kept_same; [done|done|by split|by split].
  - intros ->. destruct (Hsucc eq_refl) as (Em & Hl & Hn). split.
    + destruct (Z.lt_ge_cases (u64 (get_clock tx + W)) (ce_time (pe_recv env))) as [Hx|]; [|done]. by apply Hexp in Hx.
    + intros Hne. destruct Hl as [|El]; [done|]. exists (m_min_cache_block_height c). split; [done|].
      split; [pose proof (ci_range _ _ _ _ Hi1); lia|]. intros h b Hh. apply Hn. by rewrite <- El.
Qed.

Lemma check_receipt_total env tx ch t : exists ret t', check_receipt env false tx ch t = Some (ret, t').
Proof.
  unfold check_receipt. destruct (is_receipt_duplicated _ _ _ _ _) as [r [c out]].
  destruct out; cbn; eauto.
Qed.

Lemma check_unconfirmed_kept T chains env tx now uh t :
  table_inv T chains t -> pool_env_ok T chains env t ->
  exists ret t', check_unconfirmed env tx now uh t = Some (ret, t') /\ kept T chains env t t' /\
    m_waiting_accounts t' = m_waiting_accounts t /\
    (check_passes ret = true -> digest tx ∈ outstanding (chains (get_source_addr tx))).
Proof.
  intros Hi He. pose proof Hi as [Hok Hr Hu Hy]. pose proof He as [Her Heg Heu Hen]. unfold check_unconfirmed.
  destruct (check_update_spec chains (pe_unit env) (get_source_addr tx) now uh _ (Heu _) Hu) as (r1 & u1 & E1 & Hu1 & _).
  pose proof (check_update_retry _ _ _ _ _ _ _ Hy E1) as Hy1.
  destruct (has_txhash_receipt _ _ _ _ _ _) as [[ret u]|] eqn:E.
  - assert (u = u1) as ->.
    { unfold has_txhash_receipt in E. rewrite E1 in E. destruct (failed r1); [congruence|].
      destruct (m_accounts_cache u1 !! get_source_addr tx); congruence. }
    exists ret, (set_unconfirm u1 t). split_and!; [done| |done|].
    + split; [split; [by apply (table_ok_same t)|done..]|by split|done|done].
    + intros Hp. apply orb_true_iff in Hp as [Hp|Hp]; apply bool_decide_eq_true in Hp; subst ret.
      * exact (has_receipt_sound chains _ _ _ _ _ _ _ (Heu _) Hu E).
      * exfalso. unfold has_txhash_receipt in E. rewrite E1 in E. destruct (failed r1) eqn:Ef; [injection E as ->; done|].
        destruct (m_accounts_cache u1 !! get_source_addr tx); [|done]. injection E as E. by destruct (bool_decide _).
  - exfalso. unfold has_txhash_receipt in E. rewrite E1 in E. destruct (failed r1) eqn:Ef; [done|].
    destruct (m_accounts_cache u1 !! get_source_addr tx) eqn:Ea; [done|].
    assert (r1 = xsuccess) as -> by by apply negb_false_iff, bool_decide_eq_true in Ef.
    unfold check_and_update_cache in E1. destruct (ue_latest _ _) as [v|]; [|done].
    destruct (_ || _); [done|]. destruct (_ && _); [done|]. destruct (lu_is_full v); [done|]. destruct (negb _); [done|].
    destruct (lu_unconfirm_num v =? 0); [done|]. destruct (_ =? _).
    + injection E1 as <-. cbn in Ea. by rewrite lookup_insert_eq in Ea.
    + destruct (update_cache _ _ _ _ _) as [[a u']|]; [|done]. injection E1 as <-. cbn in Ea. by rewrite lookup_insert_eq in Ea.
Qed.

(** ** The backup's check *)

(** A receipt of a batch as the chain has it: a confirm is for a transaction
    still outstanding; a receive is inside its window and no block of a section
    that ends at the commit height, and reaches at least as far back as the
    cache did, has consumed it. *)
Definition receipt_valid (chains : string -> list lunit) (env : pool_env) (ch : Z) (t : tx_table) (tx : xtransaction) : Prop :=
  (is_confirm_tx tx = true -> digest tx ∈ outstanding (chains (get_source_addr tx))) /\
  (is_recv_tx tx = true ->
     ce_time (pe_recv env) <= u64 (get_clock tx + W) /\
     (ch <> MAX_HEIGHT -> exists lo, lo <= m_min_cache_block_height (m_consensused_recvtx_cache t) /\
        (0 < ch -> lo <= ch) /\ not_consumed tx lo ch)).

Lemma receipt_valid_kept T chains env ch t t' tx :
  kept T chains env t t' -> receipt_valid chains env ch t' tx -> receipt_valid chains env ch t tx.
Proof.
  intros [_ _ Hm _] [Hc Hr]. split; [done|]. intros Hk. destruct (Hr Hk) as [Ht Hlo]. split; [done|].
  intros Hne. destruct (Hlo Hne) as (lo & ? & ? & ?). exists lo. split; [lia|done].
Qed.

Lemma origin_valid chains env ch t tx : is_origin_tx tx = true -> receipt_valid chains env ch t tx.
Proof. intros Ho. destruct (origin_not_receipt tx Ho) as [Er Ec]. unfold receipt_valid, is_recv_tx, is_confirm_tx. by rewrite Er, Ec. Qed.

Lemma confirm_not_recv tx : is_confirm_tx tx = true -> is_recv_tx tx = false.
Proof. unfold is_confirm_tx, is_recv_tx. intros ->%Z.eqb_eq. done. Qed.

Lemma failed_false ret : failed ret = false -> ret = xsuccess.
Proof. by intros ?%negb_false_iff%bool_decide_eq_true. Qed.

(** A receipt that passes the check: nothing else the check returns lets it pass. *)
Lemma receipt_passes env held tx ch t ret t' :
  check_receipt env held tx ch t = Some (ret, t') -> check_passes ret = true -> ret = xsuccess.
Proof.
  unfold check_receipt. destruct (is_receipt_duplicated _ _ _ _ _) as [r [c out]] eqn:Ed.
  destruct (delete_committed_recv_txs _ _ _); [|done]. cbn. intros [= -> _] Hp.
  apply orb_true_iff in Hp as [Hp|Hp]; apply bool_decide_eq_true in Hp; [|done]. subst ret. exfalso.
  unfold is_receipt_duplicated in Ed. destruct (_ <? _); [done|]. destruct (cache_latest_blocks _ _ _) as [ok s].
  destruct (if ok then _ else _) as [ok' s']. injection Ed as Ed _. destruct (check_duplicate_in_cache _ _ _); [done|].
  by destruct (_ && _).
Qed.

(** The check of one receipt of a batch, as the backup makes it. *)
Lemma backup_receipt T chains env tx ch uh now t :
  table_inv T chains t -> pool_env_ok T chains env t -> 0 <= ch <= MAX_HEIGHT ->
  exists ret t', (if is_confirm_tx tx then check_unconfirmed env tx now uh t
                  else if is_recv_tx tx then check_receipt env false tx ch t
                  else Some (xtxpool_error_tx_invalid_type, t)) = Some (ret, t') /\ kept T chains env t t' /\
    (check_passes ret = true -> receipt_valid chains env ch t tx).
Proof.
  intros Hi He Hch. unfold receipt_valid. destruct (is_confirm_tx tx) eqn:Ec.
  - destruct (check_unconfirmed_kept T chains env tx now uh t Hi He) as (ret & t' & E & Hk & _ & Hp). exists ret, t'.
    split; [done|]. split; [done|]. intros Hr. split; [auto|]. by rewrite (confirm_not_recv tx Ec).
  - destruct (is_recv_tx tx) eqn:Er; [|by exists xtxpool_error_tx_invalid_type, t; split; [done|]; split; [by apply kept_refl|]].
    destruct (check_receipt_total env tx ch t) as (ret & t' & E). exists ret, t'.
    destruct (check_receipt_kept T chains env false tx ch t ret t' Hi He Hch E) as [Hk Hs].
    split; [done|]. split; [done|]. intros Hp. split; [done|]. intros _. apply Hs. by eapply receipt_passes.
Qed.

Definition origin_txs (txs : list xtransaction) : list xtransaction := List.filter is_origin_tx txs.

Lemma backup_spec T chains env txs ch uh now n h t :
  table_inv T chains t -> pool_env_ok T chains env t -> 0 <= ch <= MAX_HEIGHT ->
  exists ret t', txs_validity_check_backup env txs ch uh now n h t = Some (ret, t') /\ kept T chains env t t' /\
    (ret = xsuccess ->
       nonces_continous n h (origin_txs txs) = true /\
       Forall (fun tx => verify_cons_tx tx now = xsuccess /\ receipt_valid chains env ch t tx) txs).
Proof.
  intros Hi He Hch. revert n h t Hi He. induction txs as [|tx txs IH]; intros n h t Hi He; cbn [txs_validity_check_backup].
  { exists xsuccess, t. split; [done|]. split; [by apply kept_refl|]. by split. }
  destruct (failed (verify_cons_tx tx now)) eqn:Ef.
  { exists (verify_cons_tx tx now), t. split; [done|]. split; [by apply kept_refl|]. intros E. by rewrite E in Ef. }
  apply failed_false in Ef. unfold origin_txs. cbn [List.filter].
  replace (is_self_tx tx || is_send_tx tx) with (is_origin_tx tx) by (unfold is_origin_tx; apply orb_comm).
  destruct (is_origin_tx tx) eqn:Eo.
  - cbn [nonces_continous]. destruct (nonce_continous n h tx) as [[n' h']|] eqn:En.
    + destruct (IH n' h' t Hi He) as (ret & t' & E & Hk & Hs). exists ret, t'. split; [done|]. split; [done|].
      intros Hr. destruct (Hs Hr) as [? ?]. split; [done|]. constructor; [|done]. split; [done|by apply origin_valid].
    + exists xtxpool_error_tx_nonce_incontinuity, t. split; [done|]. split; [by apply kept_refl|done].
  - destruct (backup_receipt T chains env tx ch uh now t Hi He Hch) as (ret & t1 & E1 & Hk1 & Hp). rewrite E1.
    destruct (check_passes ret) eqn:Ep; cbn [negb].
    + destruct (IH n h t1 (kp_inv _ _ _ _ _ Hk1) (kp_env _ _ _ _ _ Hk1)) as (ret' & t' & E & Hk & Hs). exists ret', t'.
      split; [done|]. split; [by eapply kept_trans|]. intros Hr. destruct (Hs Hr) as [? Hf]. split; [done|].
      constructor; [split; [done|auto]|]. eapply Forall_impl; [exact Hf|]. intros x [? ?]. split; [done|]. by eapply receipt_valid_kept.
    + exists ret, t1. split; [done|]. split; [done|]. intros ->. done.
Qed.

(** ** The leader's check *)

Lemma check_receipt_held env tx ch t ret t' :
  check_receipt env true tx ch t = Some (ret, t') -> m_waiting_accounts t' = m_waiting_accounts t.
Proof.
  unfold check_receipt. destruct (is_receipt_duplicated _ _ _ _ _) as [r [c out]]. destruct out; cbn; [|done].
  by intros [= _ <-].
Qed.

Lemma leader_receipt T chains env tx ch uh now t ret t' :
  table_inv T chains t -> pool_env_ok T chains env t -> 0 <= ch <= MAX_HEIGHT ->
  (if is_confirm_tx tx then check_unconfirmed env tx now uh t
   else if is_recv_tx tx then check_receipt env true tx ch t else Some (xsuccess, t)) = Some (ret, t') ->
  kept T chains env t t' /\ m_waiting_accounts t' = m_waiting_accounts t /\
  (check_passes ret = true -> receipt_valid chains env ch t tx).
Proof.
  intros Hi He Hch. unfold receipt_valid. destruct (is_confirm_tx tx) eqn:Ec.
  - destruct (check_unconfirmed_kept T chains env tx now uh t Hi He) as (r & t1 & E & Hk & Hw & Hp). rewrite E.
    intros [= <- <-]. split; [done|]. split; [done|]. intros Hr. split; [auto|]. by rewrite (confirm_not_recv tx Ec).
  - destruct (is_recv_tx tx) eqn:Er.
    + intros E. destruct (check_receipt_kept T chains env true tx ch t ret t' Hi He Hch E) as [Hk Hs].
      split; [done|]. split; [by eapply check_receipt_held|]. intros Hp. split; [done|]. intros _. apply Hs. by eapply receipt_passes.
    + intros [= <- <-]. split; [by apply kept_refl|]. by split.
Qed.

Lemma leader_spec T chains env ad txs ch uh now t ret txs' t' :
  table_inv T chains t -> pool_env_ok T chains env t -> 0 <= ch <= MAX_HEIGHT ->
  txs_validity_check_leader env ad txs ch uh now t = Some (ret, txs', t') ->
  kept T chains env t t' /\ txs' `sublist_of` txs /\ Forall (receipt_valid chains env ch t) txs'.
Proof.
  intros Hi He Hch. revert t ret txs' t' Hi He.
  induction txs as [|tx txs IH]; intros t ret txs' t' Hi He; cbn [txs_validity_check_leader].
  { intros [= <- <- <-]. split; [by apply kept_refl|]. split; [done|constructor]. }
  cbv zeta. destruct (if is_confirm_tx tx then _ else _) as [[r t1]|] eqn:E1; [|done].
  destruct (leader_receipt T chains env tx ch uh now t r t1 Hi He Hch E1) as (Hk1 & Hw1 & Hp).
  destruct (leader_drops r).
  - destruct (m_waiting_accounts t1 !! ad) as [o|] eqn:Eo; [|done]. intros E.
    assert (kept T chains env t1 (on_account ad o (pop_tx_by_hash (digest tx) (get_tx_subtype tx)) t1).2) as Hk2.
    { destruct Hk1. apply kept_same; [apply on_account_caches|by apply pop_account_ok; [apply kp_inv0|]|done|done]. }
    destruct (IH _ _ _ _ (kp_inv _ _ _ _ _ Hk2) (kp_env _ _ _ _ _ Hk2) E) as (Hk & Hsub & Hf).
    pose proof (kept_trans _ _ _ _ _ _ Hk1 Hk2) as Hk12. split; [by eapply kept_trans|]. split; [by constructor|].
    eapply Forall_impl; [exact Hf|]. intros x. by eapply receipt_valid_kept.
  - destruct (check_passes r) eqn:Ep; cbn [negb].
    + destruct (txs_validity_check_leader env ad txs ch uh now t1) as [[[r2 rest] t2]|] eqn:E2; [|done].
      destruct (IH _ _ _ _ (kp_inv _ _ _ _ _ Hk1) (kp_env _ _ _ _ _ Hk1) E2) as (Hk & Hsub & Hf).
      assert (Forall (receipt_valid chains env ch t) (tx :: rest)) as Hf'.
      { constructor; [auto|]. eapply Forall_impl; [exact Hf|]. intros x. by eapply receipt_valid_kept. }
      destruct (failed r2); intros [= <- <- <-]; (split; [by eapply kept_trans|]).
      * split; [apply sublist_nil_l|constructor].
      * split; [by constructor|done].
    + intros [= <- <- <-]. split; [done|]. split; [apply sublist_nil_l|constructor].
Qed.

(** ** The batch of an account *)

Lemma run_spec_typed ops ad s :
  queue_typed ad s -> Forall (op_typed ad) ops -> queue_typed ad (run_spec ops s).2 /\ q_address (run_spec ops s).2 = q_address s.
Proof.
  intros Ht Hops. revert s Ht. induction Hops as [|op ops Hop Hops IH]; intros s Ht; cbn; [done|].
  pose proof (spec_op_typed op ad s Ht Hop) as Ht'. pose proof (spec_op_address op s) as Ea.
  destruct (spec_op op s) as [r s1]. cbn in Ht', Ea. destruct (IH s1 Ht') as [? Ea'].
  destruct (run_spec ops s1) as [rs s2]. cbn in *. split; [done|congruence].
Qed.

Lemma on_account_run {R} ad o (f : acct -> R * acct) t ops :
  table_ok t -> account_at ad o t -> Forall op_ok ops -> Forall (op_typed ad) ops ->
  (f (Acct o (m_send_tx_num t))).2 = (run_account ops (Acct o (m_send_tx_num t))).2 ->
  table_ok (on_account ad o f t).2.
Proof.
  intros Ht Hat Hop Hty E. pose proof (account_represents ad o t Ht Hat) as Hr. pose proof Hat as [[Hwf _ Hq Had] _].
  destruct (run_refines _ ops _ _ Hr Hwf Hop) as [[_ Hr'] Hw']. destruct (run_spec_typed ops ad _ Hq Hty) as [Hq' Ha'].
  apply (on_account_ok ad o f t (run_spec ops (abs_account o)).2); [done|done|by rewrite E|done|done|]. by rewrite Ha'.
Qed.

Lemma batch_kept T chains env ad o ch uh n h now t txs t' :
  table_inv T chains t -> pool_env_ok T chains env t -> 0 <= ch <= MAX_HEIGHT -> is_u64 n ->
  m_waiting_accounts t !! ad = Some o ->
  account_batch env ad o ch uh n h now t = Some (txs, t') ->
  kept T chains env t t' /\ Forall (receipt_valid chains env ch t) txs.
Proof.
  intros Hi He Hch Hn Ho. unfold account_batch. set (f := fun a => get_cons_txs n h (clear_invalid_send_tx now a)).
  assert (kept T chains env t (on_account ad o f t).2) as Hk.
  { apply kept_same; [apply on_account_caches| |done|done].
    apply (on_account_run ad o f t [OpExpire now; OpGetTxs n h]); [apply Hi|by apply found_at; [apply Hi|]|..].
    1,2: by rewrite !Forall_cons, Forall_nil.
    cbn. unfold f. by destruct (get_cons_txs n h _). }
  destruct (on_account ad o f t) as [l t1]. cbn [snd] in Hk.
  destruct (txs_validity_check_leader env ad l ch uh now t1) as [[[r l'] t2]|] eqn:E; [|done]. intros [= <- <-].
  destruct (leader_spec T chains env ad l ch uh now t1 r l' t2 (kp_inv _ _ _ _ _ Hk) (kp_env _ _ _ _ _ Hk) Hch E) as (Hk2 & _ & Hf).
  split; [by eapply kept_trans|]. eapply Forall_impl; [exact Hf|]. intros x. by eapply receipt_valid_kept.
Qed.
End TableInv.
