(* ===== verification/TableProps.v ===== *)
(** * The pool of a table as a whole

    A table is followed through every operation of [xtxpool_table_t], with the
    block store and the account state as each call finds them.  Its account
    objects stay well typed and counted, its two caches stay true to the chain,
    and the batches it hands out or accepts are valid against the chain. *)

From stdpp Require Import prelude gmap strings.
From Stdlib Require Import ZArith Lia.
From S2P Require Import Prelude StdMap StoreBlock AccountAddr TxData AccountObj AccountSpec AccountWf AccountRefine AccountProps RecvCache.
From S2P Require Import RecvCacheFacts RecvCacheProps UnconfirmCache UnconfirmProps TxTable TableFacts.

(** ** Operations as data *)

Inductive table_op :=
| TPushSend (tx : xtransaction)
| TPushRecv (tx : xtransaction)
| TPushAck (tx : xtransaction)
| TGetTxs (ch max : Z) (hash_order : list string) (set_order : list string -> list string)
| TGetAccounts (max : Z) (hash_order : list string) (set_order : list string -> list string)
| TGetAccountTxs (account : string) (ch uh n : Z) (h : string) (now : Z)
| TVerify (ch uh : Z) (txs : list xtransaction) (n : Z) (h : string)
| TConfirm (b : committed_block)
| TLock (cert_block lock_block : lock_block)
| TTimer (counter : receiver_counter)
| TInit
| TClear (hash_order : list string)
| TPop (address hash : string) (subtype : Z)
| TGetUnconfirm (source hash : string).

Section TableRun.
Context `{TxEnv} `{TxVerify} `{XStringUtl}.

(** The table after an operation; [None] where the call does not return. *)
Definition table_run (env : pool_env) (op : table_op) (t : tx_table) : option tx_table :=
  match op with
  | TPushSend tx => Some (tt_push_send_tx env tx t).2
  | TPushRecv tx => snd <$> tt_push_recv_tx env tx t
  | TPushAck tx => snd <$> tt_push_recv_ack_tx env tx t
  | TGetTxs ch max ho so => snd <$> get_txs env ch max ho so t
  | TGetAccounts max ho so => Some (get_accounts max ho so t).2
  | TGetAccountTxs account ch uh n h now => snd <$> tt_get_account_txs env account ch uh n h now t
  | TVerify ch uh txs n h => snd <$> verify_txs env ch uh txs n h t
  | TConfirm b => on_block_confirmed env b t
  | TLock cert lock => Some (update_lock_blocks cert lock t)
  | TTimer counter => Some (tt_on_timer_check_cache env counter t).2
  | TInit => tt_init env t
  | TClear ho => Some (tt_clear ho t)
  | TPop address hash subtype => Some (tt_pop_tx_by_hash address hash subtype t).2
  | TGetUnconfirm source hash => snd <$> tt_get_unconfirm_tx env source hash t
  end.

Context (chain : Z -> option table_block) (W : Z) (Hchain : chain_wf chain).

(** What the callers guarantee of the arguments. *)
Definition table_op_ok (op : table_op) (t : tx_table) : Prop :=
  match op with
  | TPushSend tx => op_ok (OpPushSend tx)
  | TPushRecv tx => op_ok (OpPushRecv tx)
  | TPushAck tx => op_ok (OpPushAck tx)
  | TGetTxs ch _ _ _ => 0 <= ch <= MAX_HEIGHT
  | TGetAccountTxs _ ch _ n _ _ => 0 <= ch <= MAX_HEIGHT /\ is_u64 n
  | TVerify ch _ _ _ _ => 0 <= ch <= MAX_HEIGHT
  | TConfirm (CommittedUnit _ light_txs) => Forall (fun x => is_u64 (ut_nonce x)) (default [] light_txs)
  | TConfirm (CommittedTable b) =>
      chain (tb_height b) = Some b /\ 1 <= tb_height b /\
      (m_max_cache_block_height (m_consensused_recvtx_cache t) = 0 ->
       m_min_cache_block_height (m_consensused_recvtx_cache t) <> MAX_HEIGHT -> tb_height b = 1)
  | _ => True
  end.

#[local] Notation table_inv := (table_inv chain W).
#[local] Notation pool_env_ok := (pool_env_ok chain W).
#[local] Notation kept := (kept chain W).

(** ** Every operation keeps the invariant *)

Lemma push_kept {R} T chains env ad (f : acct -> R * acct) op t :
  table_inv T chains t -> pool_env_ok T chains env t -> op_ok op -> op_typed ad op ->
  (forall a, (f a).2 = (account_step op a).2) ->
  kept T chains env t (on_account ad (find_account_and_create_new env ad t) f t).2.
Proof.
  intros Hi He Hop Hty Hf. apply kept_same; [apply on_account_caches| |done|done].
  apply (on_account_step _ _ f t op); [apply Hi| |done|done|apply Hf].
  apply find_create_at; [apply Hi|]. intros n h. apply (po_nonce _ _ _ _ _ _ He).
Qed.

Lemma push_send_kept T chains env tx t :
  table_inv T chains t -> pool_env_ok T chains env t -> op_ok (OpPushSend tx) ->
  kept T chains env t (tt_push_send_tx env tx t).2.
Proof.
  intros Hi He Hop. unfold tt_push_send_tx.
  repeat (case_match; [by apply kept_refl|]).
  apply (push_kept _ _ _ _ _ (OpPushSend (set_push_pool_timestamp (pe_now env) tx))); [done|done|done|done|].
  intros a. cbn. by destruct (push_send_tx _ a).
Qed.

Lemma push_recv_kept T chains env tx t ret t' :
  table_inv T chains t -> pool_env_ok T chains env t -> op_ok (OpPushRecv tx) ->
  tt_push_recv_tx env tx t = Some (ret, t') -> kept T chains env t t'.
Proof.
  intros Hi He Hop. unfold tt_push_recv_tx. destruct (failed _); [intros [= _ <-]; by apply kept_refl|].
  destruct (check_receipt env false tx MAX_HEIGHT t) as [[r t1]|] eqn:E; [|done].
  destruct (check_receipt_kept chain W Hchain T chains env false tx MAX_HEIGHT t r t1 Hi He) as [Hk _]; [unfold MAX_HEIGHT; lia|done|].
  destruct (failed r); [by intros [= _ <-]|]. intros E2%(inj Some)%(f_equal snd). cbn [snd] in E2. subst t'.
  eapply kept_trans; [exact Hk|].
  apply (push_kept _ _ _ _ _ (OpPushRecv (set_push_pool_timestamp (pe_now env) tx))); [apply Hk|apply Hk|done|done|].
  intros a. cbn. by destruct (push_recv_tx _ a).
Qed.

Lemma push_ack_kept T chains env tx t ret t' :
  table_inv T chains t -> pool_env_ok T chains env t -> op_ok (OpPushAck tx) ->
  tt_push_recv_ack_tx env tx t = Some (ret, t') -> kept T chains env t t'.
Proof.
  intros Hi He Hop. unfold tt_push_recv_ack_tx. destruct (failed _); [intros [= _ <-]; by apply kept_refl|].
  destruct (check_unconfirmed_kept chain W T chains env tx (pe_now env) 0 t Hi He) as (r & t1 & -> & Hk & _).
  destruct (negb _); [by intros [= _ <-]|]. intros E2%(inj Some)%(f_equal snd). cbn [snd] in E2. subst t'.
  eapply kept_trans; [exact Hk|].
  apply (push_kept _ _ _ _ _ (OpPushAck (set_push_pool_timestamp (pe_now env) tx))); [apply Hk|apply Hk|done|done|].
  intros a. cbn. by destruct (push_recv_ack_tx _ a).
Qed.

Lemma remove_kept T chains env ad o t :
  table_inv T chains t -> pool_env_ok T chains env t -> m_waiting_accounts t !! ad = Some o ->
  kept T chains env t (set_waiting (delete ad (m_waiting_accounts t)) (destroy_accountobj (Acct o (m_send_tx_num t))) t).
Proof. intros Hi He Ho. apply kept_same; [done|by apply remove_ok; [apply Hi|]|done|done]. Qed.

Lemma select_kept T chains env addresses t sel t' :
  table_inv T chains t -> pool_env_ok T chains env t -> select_accounts addresses t = (sel, t') ->
  kept T chains env t t' /\
  Forall (fun ad => is_account_lock ad (m_lock_accounts t) = false /\ is_Some (m_waiting_accounts t !! ad)) sel.
Proof.
  revert t sel t'. induction addresses as [|ad ads IH]; intros t sel t' Hi He; cbn [select_accounts].
  { intros [= <- <-]. split; [by apply kept_refl|constructor]. }
  destruct (m_waiting_accounts t !! ad) as [o|] eqn:Eo; [|by apply IH].
  destruct (is_account_lock ad (m_lock_accounts t)) eqn:El; [by apply IH|].
  destruct (empty o).
  - intros E. pose proof (remove_kept T chains env ad o t Hi He Eo) as Hk.
    destruct (IH _ _ _ (kp_inv _ _ _ _ _ _ _ Hk) (kp_env _ _ _ _ _ _ _ Hk) E) as [Hk2 Hf]. split; [by eapply kept_trans|].
    eapply Forall_impl; [exact Hf|]. intros x [? [o' Hx]]. split; [done|]. cbn in Hx. apply lookup_delete_Some in Hx as [_ Hx]. eauto.
  - destruct (select_accounts ads t) as [sel1 t1] eqn:E. intros [= <- <-]. destruct (IH t sel1 t1 Hi He E) as [? ?].
    split; [done|]. constructor; [eauto|done].
Qed.

(** The batch of each account comes from an account of the list. *)
Definition batch_valid (chains : string -> list lunit) (env : pool_env) (ch : Z) (accounts : list string) (t : tx_table)
    (e : string * list xtransaction) : Prop :=
  e.1 ∈ accounts /\ e.2 <> [] /\ Forall (receipt_valid chain W chains env ch t) e.2.

Lemma batch_valid_cons T chains env ch ad accounts t t' m :
  kept T chains env t t' -> Forall (batch_valid chains env ch accounts t') m ->
  Forall (batch_valid chains env ch (ad :: accounts) t) m.
Proof.
  intros Hk Hf. eapply Forall_impl; [exact Hf|]. intros e (He & Hne & Hv). split; [by right|]. split; [done|].
  eapply Forall_impl; [exact Hv|]. intros x. by eapply receipt_valid_kept.
Qed.

Lemma fill_kept T chains env ch max num residue accounts t m t' :
  table_inv T chains t -> pool_env_ok T chains env t -> 0 <= ch <= MAX_HEIGHT ->
  fill_accounts env ch max num residue accounts t = Some (m, t') ->
  kept T chains env t t' /\ Forall (batch_valid chains env ch accounts t) m.
Proof.
  intros Hi He Hch. revert num residue t m t' Hi He.
  induction accounts as [|ad ads IH]; intros num residue t m t' Hi He; cbn [fill_accounts].
  { intros [= <- <-]. split; [by apply kept_refl|constructor]. }
  assert (forall num residue, fill_accounts env ch max num residue ads t = Some (m, t') ->
    kept T chains env t t' /\ Forall (batch_valid chains env ch (ad :: ads) t) m) as Hskip.
  { intros num' res' E. destruct (IH num' res' t m t' Hi He E) as [Hk Hf]. split; [done|].
    eapply batch_valid_cons; [by apply kept_refl|done]. }
  destruct (_ && _); [apply Hskip|].
  destruct (m_waiting_accounts t !! ad) as [o|] eqn:Eo; [|done].
  destruct (ue_latest (pe_unit env) ad) as [v|]; [|done]. destruct (negb _); [apply Hskip|]. cbv zeta.
  destruct (if lu_is_genesis v then _ else _) as [[n h]|] eqn:Es; [|apply Hskip].
  assert (is_u64 n) as Hn.
  { destruct (lu_is_genesis v); [injection Es as <- <-; unfold is_u64; lia|]. by eapply (po_nonce _ _ _ _ _ _ He). }
  destruct (account_batch env ad o ch (lu_height v) n h (pe_now env) t) as [[txs t1]|] eqn:Eb; [|done].
  destruct (batch_kept chain W Hchain T chains env ad o ch _ n h _ t txs t1 Hi He Hch Hn Eo Eb) as [Hk1 Hv].
  destruct txs as [|x txs].
  - intros E. destruct (IH _ _ _ _ _ (kp_inv _ _ _ _ _ _ _ Hk1) (kp_env _ _ _ _ _ _ _ Hk1) E) as [Hk Hf].
    split; [by eapply kept_trans|by eapply batch_valid_cons].
  - destruct (fill_accounts env ch max (num + 1) _ ads t1) as [[m1 t2]|] eqn:E; [|done]. intros [= <- <-].
    destruct (IH _ _ _ _ _ (kp_inv _ _ _ _ _ _ _ Hk1) (kp_env _ _ _ _ _ _ _ Hk1) E) as [Hk Hf].
    split; [by eapply kept_trans|]. constructor; [|by eapply batch_valid_cons]. split; [by left|]. by split.
Qed.

Lemma get_txs_kept T chains env ch max ho so t m t' :
  table_inv T chains t -> pool_env_ok T chains env t -> 0 <= ch <= MAX_HEIGHT ->
  get_txs env ch max ho so t = Some (m, t') ->
  kept T chains env t t' /\ Forall (batch_valid chains env ch (so (select_accounts ho t).1) t) m.
Proof.
  intros Hi He Hch. unfold get_txs. destruct (select_accounts ho t) as [sel t1] eqn:Es. intros E. cbn [fst].
  destruct (select_kept T chains env ho t sel t1 Hi He Es) as [Hk1 _].
  destruct (fill_kept T chains env _ _ _ _ _ _ _ _ (kp_inv _ _ _ _ _ _ _ Hk1) (kp_env _ _ _ _ _ _ _ Hk1) Hch E) as [Hk2 Hf].
  split; [by eapply kept_trans|]. eapply Forall_impl; [exact Hf|]. intros e (? & ? & Hv). split; [done|]. split; [done|].
  eapply Forall_impl; [exact Hv|]. intros x. by eapply receipt_valid_kept.
Qed.

(** ** Committed blocks, timer, life cycle *)

Lemma unconfirm_inv T chains u t :
  table_inv T chains t -> accounts_ok chains u -> retry_ok u -> table_inv T chains (set_unconfirm u t).
Proof. intros [] Ha Hr. split; [by apply (table_ok_same t)|done|done|done]. Qed.

Lemma check_update_inv T chains env ad uh t ret u :
  table_inv T chains t -> pool_env_ok T chains env t ->
  check_and_update_cache (pe_unit env) ad (pe_now env) uh (m_unconfirm_sendtx_cache t) = Some (ret, u) ->
  accounts_ok chains u /\ retry_ok u.
Proof.
  intros Hi He E. destruct (check_update_spec chains (pe_unit env) ad (pe_now env) uh _ (po_unit _ _ _ _ _ _ He ad) (ti_unconfirm _ _ _ _ _ Hi))
    as (r1 & u1 & E1 & Ha & _). rewrite E in E1. injection E1 as <- <-. split; [done|]. eapply check_update_retry; [|exact E]. apply Hi.
Qed.

Lemma confirm_unit_inv T chains env ad light_txs n h t t' :
  table_inv T chains t -> pool_env_ok T chains env t -> is_u64 n -> Forall (fun x => is_u64 (ut_nonce x)) (default [] light_txs) ->
  update_committed_unit_block env ad light_txs n h t = Some t' -> table_inv T chains t'.
Proof.
  intros Hi He Hn Hl. unfold update_committed_unit_block, on_unit_update.
  destruct (check_and_update_cache _ _ _ _ _) as [[r u]|] eqn:E; [|done]. cbn [fmap option_fmap option_map snd].
  cbv zeta.
  destruct (check_update_inv T chains env ad 0 t r u Hi He E) as [Ha Hr]. pose proof (unconfirm_inv T chains u t Hi Ha Hr) as Hi1.
  change (m_waiting_accounts t) with (m_waiting_accounts (set_unconfirm u t)).
  destruct (m_waiting_accounts (set_unconfirm u t) !! ad) as [o|] eqn:Eo; [|by intros [= <-]].
  intros E2%(inj Some). subst t'. eapply inv_same; [apply on_account_caches| |exact Hi1].
  by apply (on_account_step _ _ _ _ (OpUnit light_txs n h)); [apply Hi1|apply found_at; [apply Hi1|]|split| |].
Qed.

Lemma confirm_unit_lock env ad light_txs n h t t' :
  update_committed_unit_block env ad light_txs n h t = Some t' -> m_lock_accounts t' = m_lock_accounts t.
Proof.
  unfold update_committed_unit_block. destruct (on_unit_update _ _ _ _) as [u|]; [|done]. cbv zeta.
  intros [= <-]. destruct (m_waiting_accounts _ !! ad) as [o|]; [|done].
  apply (on_account_caches ad o (fun a => (tt, on_unit_to_db light_txs n h a)) (set_unconfirm u t)).
Qed.

Lemma confirm_table_inv T chains env b t t' :
  table_inv T chains t -> pool_env_ok T chains env t -> table_op_ok (TConfirm (CommittedTable b)) t ->
  update_committed_table_block env b t = Some t' ->
  table_inv (ce_time (pe_recv env)) chains t' /\ m_lock_accounts t' = m_lock_accounts t.
Proof.
  intros Hi He (Hb & H1' & Hg). unfold update_committed_table_block.
  pose proof (update_inv chain W Hchain T (pe_recv env) b _ (po_recv _ _ _ _ _ _ He) (ti_recv _ _ _ _ _ Hi) Hb H1' Hg) as Hc.
  destruct (update_tx_cache _ _ _) as [c out]. cbn [fst] in Hc. intros E.
  destruct (delete_committed_ok false out (set_recvtx_cache c t) t') as [Hok Hsc]; [by apply (table_ok_same t); [..|apply Hi]|done|].
  split; [|apply Hsc]. destruct Hi. eapply inv_same; [exact Hsc|done|]. split; [by apply (table_ok_same t)|done|done|done].
Qed.

Lemma accounts_update_inv chains env accounts now u u' :
  (forall ad, store_ok chains env ad) -> accounts_ok chains u -> retry_ok u ->
  accounts_update env accounts now u = Some u' -> accounts_ok chains u' /\ retry_ok u'.
Proof.
  intros So. revert u. induction accounts as [|ad ads IH]; intros u Ha Hr; cbn [accounts_update]; [by intros [= <-]|].
  destruct (check_update_spec chains env ad now 0 u (So ad) Ha) as (r & u1 & E & Ha1 & _). rewrite E.
  apply IH; [done|]. by eapply check_update_retry.
Qed.

Lemma clear_kept T chains env ho t :
  table_inv T chains t -> pool_env_ok T chains env t -> kept T chains env t (tt_clear ho t).
Proof.
  unfold tt_clear. revert t. induction ho as [|ad ho IH]; intros t Hi He; cbn [fold_left]; [by apply kept_refl|].
  destruct (m_waiting_accounts t !! ad) as [o|] eqn:Eo; [|by apply IH].
  pose proof (remove_kept T chains env ad o t Hi He Eo) as Hk. eapply kept_trans; [exact Hk|]. apply IH; apply Hk.
Qed.

(** ** Executions *)

(** The clock, the chains of units and the table: an operation under the
    environment of its call, or the chains grow. *)
Inductive table_step : Z * (string -> list lunit) * tx_table -> Z * (string -> list lunit) * tx_table -> Prop :=
| ts_run T chains t env op t' :
    pool_env_ok T chains env t -> table_op_ok op t -> table_run env op t = Some t' ->
    table_step (T, chains, t) (ce_time (pe_recv env), chains, t')
| ts_grow T chains chains' t :
    (forall address, exists newer, chains' address = newer ++ chains address) ->
    table_step (T, chains, t) (T, chains', t).

Lemma table_inv_mono T T' chains t : T <= T' -> table_inv T chains t -> table_inv T' chains t.
Proof. intros HT []. split; [done|by eapply cache_inv_mono|done|done]. Qed.

Lemma run_inv T chains t env op t' :
  table_inv T chains t -> pool_env_ok T chains env t -> table_op_ok op t -> table_run env op t = Some t' ->
  table_inv (ce_time (pe_recv env)) chains t'.
Proof.
  intros Hi He Hop Hrun. assert (T <= ce_time (pe_recv env)) as HT by apply (eo_time _ _ _ _ (po_recv _ _ _ _ _ _ He)).
  assert (table_inv T chains t' -> table_inv (ce_time (pe_recv env)) chains t') as Hm by by apply table_inv_mono.
  destruct op; cbn in Hop, Hrun.
  - injection Hrun as <-. apply Hm. by apply (push_send_kept T chains env).
  - apply fmap_Some in Hrun as ([r t1] & E & ->). apply Hm. by eapply (push_recv_kept T chains env).
  - apply fmap_Some in Hrun as ([r t1] & E & ->). apply Hm. by eapply (push_ack_kept T chains env).
  - apply fmap_Some in Hrun as ([m t1] & E & ->). apply Hm. by eapply (get_txs_kept T chains env).
  - injection Hrun as <-. apply Hm. unfold get_accounts. destruct (select_accounts hash_order t) as [sel t1] eqn:E. by eapply (select_kept T chains env).
  - destruct Hop as [Hch Hn]. unfold tt_get_account_txs in Hrun. destruct (m_waiting_accounts t !! account) as [o|] eqn:Eo.
    + apply fmap_Some in Hrun as ([txs t1] & E & ->). apply Hm. by eapply (batch_kept chain W Hchain T chains env).
    + injection Hrun as <-. auto.
  - apply fmap_Some in Hrun as ([r t1] & E & ->). unfold verify_txs in E.
    destruct (backup_spec chain W Hchain T chains env txs ch uh (pe_now env) n h t Hi He Hop) as (r' & t2 & E2 & Hk & _).
    rewrite E in E2. injection E2 as <- <-. apply Hm, Hk.
  - unfold on_block_confirmed in Hrun. destruct b as [ad light|b|].
    + destruct (pe_account env ad) as [[n h]|] eqn:Ea; [|done]. apply Hm.
      apply (confirm_unit_inv T chains env ad light n h t t'); [done|done| |done|done]. by eapply (po_nonce _ _ _ _ _ _ He).
    + by eapply confirm_table_inv.
    + injection Hrun as <-. auto.
  - injection Hrun as <-. apply Hm. destruct Hi. split; [by apply (table_ok_same t)|done..].
  - injection Hrun as <-. apply Hm. unfold tt_on_timer_check_cache.
    pose proof (timer_retry_ok (pe_unit env) (pe_now env) counter _ (ti_retry _ _ _ _ _ Hi)) as Hr.
    pose proof (timer_accounts (pe_unit env) (pe_now env) counter (m_unconfirm_sendtx_cache t)) as Ea.
    destruct (on_timer_check_cache _ _ _ _) as [[rs c] u]. cbn [snd] in *. apply unconfirm_inv; [done| |done].
    eapply accounts_ok_same; [exact Ea|apply Hi].
  - unfold tt_init in Hrun. destruct (pe_unconfirmed env) as [accounts|]; [|injection Hrun as <-; auto].
    apply fmap_Some in Hrun as (u & E & ->). apply Hm.
    destruct (accounts_update_inv chains (pe_unit env) accounts (pe_now env) _ u (po_unit _ _ _ _ _ _ He)
      (ti_unconfirm _ _ _ _ _ Hi) (ti_retry _ _ _ _ _ Hi) E) as [? ?]. by apply unconfirm_inv.
  - injection Hrun as <-. apply Hm. by apply (clear_kept T chains env).
  - injection Hrun as <-. apply Hm. unfold tt_pop_tx_by_hash. destruct (m_waiting_accounts t !! address) as [o|] eqn:Eo; [|done].
    eapply inv_same; [apply on_account_caches|by apply pop_account_ok; [apply Hi|]|done].
  - apply fmap_Some in Hrun as ([r t1] & E & ->). apply Hm. unfold tt_get_unconfirm_tx, get_unconfirm_tx in E.
    destruct (check_and_update_cache _ _ _ _ _) as [[r1 u]|] eqn:Ec; [|done]. injection E as <- <-.
    destruct (check_update_inv T chains env source 0 t r1 u Hi He Ec) as [? ?]. by apply unconfirm_inv.
Qed.

Lemma new_table_inv T chains : table_inv T chains new_tx_table.
Proof.
  split; [|apply new_cache_inv| |apply new_retry_ok].
  - split; [|done]. intros ad o Ho. cbn in Ho. by rewrite lookup_empty in Ho.
  - intros ad a Ha. cbn in Ha. by rewrite lookup_empty in Ha.
Qed.

Lemma table_reached T0 chains0 T chains t :
  rtc table_step (T0, chains0, new_tx_table) (T, chains, t) -> table_inv T chains t.
Proof.
  intros Hr. change (table_inv (T, chains, t).1.1 (T, chains, t).1.2 (T, chains, t).2).
  pose proof (new_table_inv T0 chains0) as Hi. change (table_inv (T0, chains0, new_tx_table).1.1 (T0, chains0, new_tx_table).1.2 (T0, chains0, new_tx_table).2) in Hi.
  revert Hi. induction Hr as [|p q r Hs _ IH]; [done|]. intros Hi. apply IH. destruct Hs as [T1 ch1 t1 env op t2 He Hop E|T1 ch1 ch2 t1 Hg]; cbn in *.
  - by eapply run_inv.
  - destruct Hi. split; [done|done|by eapply accounts_grow|done].
Qed.

(** ** The locks in force *)

Definition is_lock_op (op : table_op) : bool := match op with TLock _ _ => true | _ => false end.

(** A step other than a new [update_lock_blocks]. *)
Inductive other_step : Z * (string -> list lunit) * tx_table -> Z * (string -> list lunit) * tx_table -> Prop :=
| os_run T chains t env op t' :
    pool_env_ok T chains env t -> table_op_ok op t -> is_lock_op op = false -> table_run env op t = Some t' ->
    other_step (T, chains, t) (ce_time (pe_recv env), chains, t')
| os_grow T chains chains' t :
    (forall address, exists newer, chains' address = newer ++ chains address) ->
    other_step (T, chains, t) (T, chains', t).

(** The last [update_lock_blocks] of the table's history was given [cert] and [lock]. *)
Definition last_locks (cert lock : lock_block) (q : Z * (string -> list lunit) * tx_table) : Prop :=
  exists T0 chains0 T1 chains1 t1,
    rtc table_step (T0, chains0, new_tx_table) (T1, chains1, t1) /\
    rtc other_step (T1, chains1, update_lock_blocks cert lock t1) q.

Lemma run_lock T chains t env op t' :
  table_inv T chains t -> pool_env_ok T chains env t -> table_op_ok op t -> is_lock_op op = false ->
  table_run env op t = Some t' -> m_lock_accounts t' = m_lock_accounts t.
Proof.
  intros Hi He Hop Hl Hrun. destruct op; cbn in Hop, Hrun; try done.
  - injection Hrun as <-. apply (kp_lock _ _ _ _ _ _ _ (push_send_kept T chains env tx t Hi He Hop)).
  - apply fmap_Some in Hrun as ([r t1] & E & ->). apply (kp_lock _ _ _ _ _ _ _ (push_recv_kept T chains env tx t r t1 Hi He Hop E)).
  - apply fmap_Some in Hrun as ([r t1] & E & ->). apply (kp_lock _ _ _ _ _ _ _ (push_ack_kept T chains env tx t r t1 Hi He Hop E)).
  - apply fmap_Some in Hrun as ([m t1] & E & ->).
    destruct (get_txs_kept T chains env ch max hash_order set_order t m t1 Hi He) as [Hk _]; [done|done|apply Hk].
  - injection Hrun as <-. unfold get_accounts. destruct (select_accounts hash_order t) as [sel t1] eqn:E.
    destruct (select_kept T chains env hash_order t sel t1 Hi He E) as [Hk _]. apply Hk.
  - destruct Hop as [Hch Hn]. unfold tt_get_account_txs in Hrun. destruct (m_waiting_accounts t !! account) as [o|] eqn:Eo.
    + apply fmap_Some in Hrun as ([txs t1] & E & ->).
      destruct (batch_kept chain W Hchain T chains env account o ch uh n h now t txs t1) as [Hk _]; [done..|]. apply Hk.
    + by injection Hrun as <-.
  - apply fmap_Some in Hrun as ([r t1] & E & ->). unfold verify_txs in E.
    destruct (backup_spec chain W Hchain T chains env txs ch uh (pe_now env) n h t Hi He Hop) as (r' & t2 & E2 & Hk & _).
    rewrite E in E2. injection E2 as <- <-. apply Hk.
  - unfold on_block_confirmed in Hrun. destruct b as [ad light|b|]; [|by eapply (confirm_table_inv T chains env b)|by injection Hrun as <-].
    destruct (pe_account env ad) as [[n h]|]; [|done]. by eapply confirm_unit_lock.
  - injection Hrun as <-. unfold tt_on_timer_check_cache. by destruct (on_timer_check_cache _ _ _ _) as [[rs c] u].
  - unfold tt_init in Hrun. destruct (pe_unconfirmed env) as [accounts|]; [|by injection Hrun as <-].
    by apply fmap_Some in Hrun as (u & E & ->).
  - injection Hrun as <-. apply (kp_lock _ _ _ _ _ _ _ (clear_kept T chains env hash_order t Hi He)).
  - injection Hrun as <-. unfold tt_pop_tx_by_hash. destruct (m_waiting_accounts t !! address) as [o|]; [|done]. apply on_account_caches.
  - apply fmap_Some in Hrun as ([r t1] & E & ->). unfold tt_get_unconfirm_tx, get_unconfirm_tx in E.
    destruct (check_and_update_cache _ _ _ _ _) as [[r1 u]|]; [|done]. by injection E as <- <-.
Qed.

Lemma lock_inv T chains cert lock t : table_inv T chains t -> table_inv T chains (update_lock_blocks cert lock t).
Proof. intros []. split; [by apply (table_ok_same t)|done..]. Qed.

Lemma other_steps_lock p q :
  rtc other_step p q -> table_inv p.1.1 p.1.2 p.2 -> m_lock_accounts q.2 = m_lock_accounts p.2.
Proof.
  induction 1 as [|p q r Hs _ IH]; [done|]. intros Hi.
  destruct Hs as [T1 ch1 t1 env op t2 He Hop Hl E|T1 ch1 ch2 t1 Hg]; cbn in *.
  - rewrite IH by by eapply run_inv. by eapply run_lock.
  - apply IH. destruct Hi. split; [done|done|by eapply accounts_grow|done].
Qed.

(** The accounts of the units of the two blocks, unless committed or empty, are locked. *)
Definition uncommitted (b : lock_block) : Prop := lb_committed b = false /\ lb_class b <> enum_xvblock_class_nil.

Lemma lock_accounts_in b a m :
  is_Some (m !! a) \/ (uncommitted b /\ a ∈ lb_accounts b) -> is_Some (lock_accounts b m !! a).
Proof.
  intros Ha. unfold lock_accounts. destruct (negb _ && negb _) eqn:E.
  - assert (is_Some (m !! a) \/ a ∈ lb_accounts b) as Hin by tauto. clear Ha E. revert m Hin.
    induction (lb_accounts b) as [|x l IH]; intros m Hin; cbn [fold_left]; [destruct Hin as [?|Hn]; [done|by apply elem_of_nil in Hn]|].
    apply IH. rewrite elem_of_cons in Hin. destruct (decide (x = a)) as [->|Hne]; [left; rewrite lookup_insert_eq; eauto|].
    rewrite lookup_insert_ne by done. naive_solver.
  - destruct Ha as [?|[[Hc Hn] _]]; [done|]. apply Z.eqb_neq in Hn. by rewrite Hc, Hn in E.
Qed.

Lemma last_locks_accounts cert lock T chains t b a :
  last_locks cert lock (T, chains, t) -> b = cert \/ b = lock -> uncommitted b -> a ∈ lb_accounts b ->
  is_Some (m_lock_accounts t !! a).
Proof.
  intros (T0 & ch0 & T1 & ch1 & t1 & Hr & Ho) Hb Hu Ha. pose proof (table_reached _ _ _ _ _ Hr) as Hi.
  rewrite (other_steps_lock _ _ Ho (lock_inv _ _ cert lock _ Hi) : m_lock_accounts t = _).
  cbn. unfold update_blocks. apply lock_accounts_in. destruct Hb as [-> | ->]; [left; apply lock_accounts_in|]; by right.
Qed.
End TableRun.
