(* ===== verification/TableSafety.v ===== *)
(** * What a table promises

    The types of the waiting transactions, the validity of the batches the
    leader takes and the backup accepts, the admission of new transactions, and
    the call that cannot return. *)

From stdpp Require Import prelude gmap strings.
From Stdlib Require Import ZArith Lia.
From S2P Require Import Prelude StdMap StoreBlock AccountAddr TxData AccountObj AccountSpec AccountWf AccountRefine AccountProps RecvCache.
From S2P Require Import RecvCacheFacts RecvCacheProps UnconfirmCache UnconfirmProps TxTable TableFacts TableProps.

Section Safety.
Context `{TxEnv} `{TxVerify} `{XStringUtl}.
Context (chain : Z -> option table_block) (W : Z) (Hchain : chain_wf chain).

(** C28. In every state a table reaches, each account object is stored under its
    own address and its queues are typed: the send queue holds transactions the
    account sends, with the nonces that follow its last one, the receive queue
    receipts for the account and the confirm queue confirmations of what it
    sent, all three indexed by digest; and the counter that limits the table is
    the 32-bit sum of the lengths of the send queues. *)
Theorem table_well_typed T0 chains0 T chains t :
  rtc (table_step chain W) (T0, chains0, new_tx_table) (T, chains, t) ->
  m_send_tx_num t = i32 (send_total (m_waiting_accounts t)) /\
  forall address o, m_waiting_accounts t !! address = Some o ->
    m_address o = address /\
    Forall (fun e => is_origin_tx e = true /\ get_source_addr e = address) (m_send_queue o) /\
    Forall (fun e => is_recv_tx e = true /\ get_target_addr e = address) (m_recv_queue o) /\
    Forall (fun e => is_confirm_tx e = true /\ get_source_addr e = address) (m_recv_ack_queue o) /\
    get_last_nonce <$> m_send_queue o = seqZ (m_latest_send_trans_number o) (Z.of_nat (length (m_send_queue o))) /\
    forall d e, m_tx_map o !! d = Some e <->
      e ∈ m_send_queue o ++ m_recv_queue o ++ m_recv_ack_queue o /\ digest e = d.
Proof.
  intros Hr. destruct (table_reached chain W Hchain _ _ _ _ _ Hr) as [[Hacc Hcount] _ _ _]. split; [done|].
  intros ad o Ho. destruct (Hacc ad o Ho) as [Hwf Hidx (Hs & Hv & Ha) Had]. split; [done|].
  split; [by apply Forall_and; split; [apply Hwf|]|]. split; [by apply Forall_and; split; [apply Hwf|]|].
  split; [by apply Forall_and; split; [apply Hwf|]|]. split; [apply Hwf|exact Hidx].
Qed.

(** C24. On any table reached from a new one, under [pool_env_ok] (the latest
    committed units of an account and the units below them are those of its
    chain and can be loaded, committed table blocks loaded are those of the
    chain, the clock does not run back, and a cache that holds the genesis block
    only meets a latest block of height 1 at most) and for a commit height below
    2^64 - 1, the backup's check of a proposed batch returns, and a batch it
    accepts is valid: every transaction passes its own verification; the first
    send transaction carries the account's last nonce and the hash of its last
    transaction, and each later one the number after, and the hash of, the one
    before it; each confirmation is of a transaction still unconfirmed on its
    account's chain; and each receipt is inside its window and not consumed by
    any committed block from some height no later than the commit height (and no
    later than the oldest block cached before) up to it. *)
Theorem verified_batch_valid T0 chains0 T chains t env ch uh txs n h :
  rtc (table_step chain W) (T0, chains0, new_tx_table) (T, chains, t) ->
  pool_env_ok chain W T chains env t -> 0 <= ch < MAX_HEIGHT ->
  exists ret t', verify_txs env ch uh txs n h t = Some (ret, t') /\
    (ret = xsuccess ->
       follow_each_other n h (List.filter is_origin_tx txs) /\
       forall tx, tx ∈ txs ->
         verify_cons_tx tx (pe_now env) = xsuccess /\
         (is_confirm_tx tx = true -> digest tx ∈ outstanding (chains (get_source_addr tx))) /\
         (is_recv_tx tx = true -> ce_time (pe_recv env) <= u64 (get_clock tx + W) /\
            exists lo, lo <= m_min_cache_block_height (m_consensused_recvtx_cache t) /\ (0 < ch -> lo <= ch) /\
              forall k b, lo <= k <= ch -> chain k = Some b -> ~ consumes b (get_clock tx) (digest tx))).
Proof.
  intros Hr He Hch. pose proof (table_reached chain W Hchain _ _ _ _ _ Hr) as Hi.
  destruct (backup_spec chain W Hchain T chains env txs ch uh (pe_now env) n h t Hi He) as (ret & t' & E & _ & Hs); [lia|].
  exists ret, t'. split; [exact E|]. intros Hret. destruct (Hs Hret) as [Hn Hf]. split; [by apply nonces_continous_spec|].
  intros tx Hin. rewrite Forall_forall in Hf. destruct (Hf tx Hin) as [Hv [Hc Hrv]]. split; [done|]. split; [done|].
  intros Hk. destruct (Hrv Hk) as [Ht Hlo]. split; [done|]. apply Hlo. lia.
Qed.

(** C25. On any table reached from a new one, under the conditions of
    [pool_env_ok] and for a commit height below 2^64 - 1, the batches the leader
    takes are of accounts that wait and of which neither the certified nor the
    locked block of the last [update_lock_blocks], while it is not committed,
    holds a unit; none is empty, and their receipts are valid against the chain
    like those a backup accepts. *)
Theorem leader_batches_valid T0 chains0 T chains t env ch max hash_order set_order m t' :
  rtc (table_step chain W) (T0, chains0, new_tx_table) (T, chains, t) ->
  pool_env_ok chain W T chains env t -> 0 <= ch < MAX_HEIGHT -> (forall l x, x ∈ set_order l -> x ∈ l) ->
  get_txs env ch max hash_order set_order t = Some (m, t') ->
  forall address txs, (address, txs) ∈ m ->
    (forall cert lock b, last_locks chain W cert lock (T, chains, t) -> b = cert \/ b = lock ->
       uncommitted b -> address ∉ lb_accounts b) /\
    is_Some (m_waiting_accounts t !! address) /\ txs <> [] /\
    forall tx, tx ∈ txs ->
      (is_confirm_tx tx = true -> digest tx ∈ outstanding (chains (get_source_addr tx))) /\
      (is_recv_tx tx = true -> ce_time (pe_recv env) <= u64 (get_clock tx + W) /\
         exists lo, lo <= m_min_cache_block_height (m_consensused_recvtx_cache t) /\ (0 < ch -> lo <= ch) /\
           forall k b, lo <= k <= ch -> chain k = Some b -> ~ consumes b (get_clock tx) (digest tx)).
Proof.
  intros Hr He Hch Hso E address txs Hin. pose proof (table_reached chain W Hchain _ _ _ _ _ Hr) as Hi.
  destruct (get_txs_kept chain W Hchain T chains env ch max hash_order set_order t m t' Hi He) as [_ Hf]; [lia|done|].
  rewrite Forall_forall in Hf. destruct (Hf _ Hin) as (Hsel & Hne & Hv). cbn [fst snd] in Hsel, Hne, Hv.
  destruct (select_accounts hash_order t) as [sel t1] eqn:Es.
  destruct (select_kept chain W T chains env hash_order t sel t1 Hi He Es) as [_ Hl].
  rewrite Forall_forall in Hl. destruct (Hl address (Hso _ _ Hsel)) as [Hlock%bool_decide_eq_false Hw].
  split; [intros cert lock b Hll Hb Hu Ha; by apply Hlock, (last_locks_accounts chain W Hchain cert lock T chains t b)|].
  split; [done|]. split; [done|].
  intros tx Htx. rewrite Forall_forall in Hv. destruct (Hv tx Htx) as [Hc Hrv]. split; [done|].
  intros Hk. destruct (Hrv Hk) as [Ht Hlo]. split; [done|]. apply Hlo. lia.
Qed.

(** ** Admission *)

(** A table takes a new transaction of an ordinary account only while fewer
    than eight transactions wait in all its send queues together and fewer than
    eight wait for their confirmation, and only if it passes its verification,
    its duration and its fire time; otherwise the table is left as it was. *)
Theorem push_send_admission T0 chains0 T chains t env tx ret t' :
  rtc (table_step chain W) (T0, chains0, new_tx_table) (T, chains, t) ->
  send_total (m_waiting_accounts t) < 2 ^ 31 -> Z.of_nat (length (m_retry_cache (m_unconfirm_sendtx_cache t))) < 2 ^ 31 ->
  is_sys_contract_address (get_source_addr tx) = false ->
  tt_push_send_tx env tx t = (ret, t') ->
  t' = t /\ ret <> xsuccess \/
  (send_total (m_waiting_accounts t) < enum_max_table_send_tx_num /\
   Z.of_nat (length (m_retry_cache (m_unconfirm_sendtx_cache t))) < enum_max_table_unconfirm_tx_num /\
   verify_send_tx tx (pe_now env) = xsuccess /\ verify_tx_fire_expiration tx (pe_now env) = xsuccess /\
   is_Some (m_waiting_accounts t' !! get_source_addr tx)).
Proof.
  intros Hr Hw1 Hw2 Hsys. destruct (table_reached chain W Hchain _ _ _ _ _ Hr) as [[_ Hcount] _ _ [_ Hnum]].
  assert (0 <= send_total (m_waiting_accounts t)) as Hnn.
  { unfold send_total. generalize (m_waiting_accounts t). apply (map_fold_weak_ind (fun n _ => 0 <= n)); [lia|]. intros. lia. }
  unfold i32 in *. rewrite Z.mod_small in Hcount, Hnum by lia. rewrite Z.add_simpl_r in Hcount, Hnum.
  unfold tt_push_send_tx. rewrite Hsys, Hcount, Hnum. cbn [negb andb].
  destruct (Z.leb_spec enum_max_table_send_tx_num (send_total (m_waiting_accounts t))); [intros [= <- <-]; by left|].
  destruct (Z.leb_spec enum_max_table_unconfirm_tx_num (Z.of_nat (length (m_retry_cache (m_unconfirm_sendtx_cache t))))); [intros [= <- <-]; by left|].
  destruct (failed (verify_send_tx tx (pe_now env))) eqn:Ev; [intros [= <- <-]; left; split; [done|]; intros E; by rewrite E in Ev|].
  destruct (failed (verify_tx_fire_expiration tx (pe_now env))) eqn:Ef; [intros [= <- <-]; left; split; [done|]; intros E; by rewrite E in Ef|].
  apply failed_false in Ev, Ef. intros E. right. split; [done|]. split; [done|]. split; [done|]. split; [done|].
  unfold on_account in E. destruct (push_send_tx _ _) as [r a]. injection E as <- <-. cbn. rewrite lookup_insert_eq. eauto.
Qed.

(** ** The leader's duplicate check under the table's mutex *)

Lemma recv_txs_out txs (s : Z * rc_state) :
  s.2.2 <> [] \/ Exists (fun tx => ri_is_recv tx = true) txs -> (fold_left insert_recv_tx txs s).2.2 <> [].
Proof.
  revert s. induction txs as [|tx txs IH]; intros s Hs; cbn [fold_left].
  - destruct Hs as [?|He]; [done|by apply Exists_nil in He].
  - apply IH. rewrite Exists_cons in Hs. destruct s as [mt [c out]]. unfold insert_recv_tx.
    destruct (ri_is_recv tx); cbn; [left; by destruct out|]. destruct Hs as [?|[?|?]]; [by left|done|by right].
Qed.

Lemma block_out b s :
  s.2 <> [] \/ (exists t d, consumes b t d) -> (insert_block_tx_to_cache b s).2.2 <> [].
Proof.
  destruct s as [c out]. unfold insert_block_tx_to_cache. unfold consumes.
  match goal with |- context [fold_left insert_unit_txs _ ?s0] =>
    change (snd (c, out)) with s0.2.2; generalize s0 end.
  generalize (tb_units b) as us. intros us. induction us as [|u us IH]; intros s Hs; cbn [fold_left].
  - destruct Hs as [?|(t & d & u & tx & Hu & _)]; [done|by apply elem_of_nil in Hu].
  - apply IH. unfold insert_unit_txs. destruct Hs as [Ho|(t & d & v & tx & Hu & Hl & Htx & Hr & Ht & Hd)].
    + left. destruct (negb _); [done|]. by apply recv_txs_out; left.
    + apply elem_of_cons in Hu as [-> |Hu]; [|right; by exists t, d, v, tx].
      left. rewrite Hl. cbn [negb Z.eqb]. apply recv_txs_out. right. apply Exists_exists. by exists tx.
Qed.

Lemma load_out env h s r :
  cache_from_db_with_timerblock_height env h s = Some r -> s.2 <> [] -> r.2.2 <> [].
Proof.
  unfold cache_from_db_with_timerblock_height. destruct (ce_load env h) as [b|]; [|done].
  destruct (tb_committed b); [|done]. intros [= <-] ?. apply block_out. by left.
Qed.
Lemma load_until_out env n h s : s.2 <> [] -> (load_until_nonempty env n h s).2.2 <> [].
Proof.
  revert h s. induction n as [|n IH]; intros h s Hs; cbn [load_until_nonempty]; [done|]. destruct (_ && _); [|done].
  destruct (cache_from_db_with_timerblock_height env (h - 1) s) as [[mt s']|] eqn:E; [|done]. apply IH. by apply (load_out _ _ _ _ E).
Qed.
Lemma load_older_out env n h old tr s : s.2 <> [] -> (load_older env n h old tr s).2.2 <> [].
Proof.
  revert h tr s. induction n as [|n IH]; intros h tr s Hs; cbn [load_older]; [done|]. destruct (_ && _); [|done].
  destruct (cache_from_db_with_timerblock_height env (h - 1) s) as [[mt s']|] eqn:E; [|done]. apply IH. by apply (load_out _ _ _ _ E).
Qed.
Lemma cache_old_out env t s : s.2 <> [] -> (cache_old_blocks env t s).2.2 <> [].
Proof.
  intros Hs. unfold cache_old_blocks. destruct (m_old_cache_full s.1); [done|]. cbv zeta. set (x := if negb _ && _ then _ else _).
  assert (x.2.2 <> []) as Hx by (subst x; destruct (_ && _); [by apply load_until_out|done]).
  destruct x as [[ok h] s1]. cbn [snd] in Hx. destruct ok; cbn [negb]; [|done].
  destruct (m_transaction_recv_cache s1.1) as [|[k ds] m]; [done|]. destruct (_ <=? t); [done|].
  pose proof (load_older_out env (Z.to_nat h) h t (u64 (k + MORE_BLOCK_HEIGHT)) s1 Hx) as Hy.
  destruct (load_older _ _ _ _ _ _) as [[ok tr] s2]. cbn [snd] in Hy. destruct ok; cbn [negb]; [|done]. by destruct (_ <=? ce_time env).
Qed.

(** C40. The leader cannot take the batch of an account whose first transaction
    is a receipt when the table's next committed block, not cached yet, has
    consumed any receipt: [get_account_txs] holds [m_table_mutex], the duplicate
    check loads the block, and [delete_committed_recv_txs] locks the same
    [std::mutex] again for the receipts it met. *)
Theorem leader_check_deadlocks env address o ch uh n h now t tx txs a b :
  m_waiting_accounts t !! address = Some o ->
  get_cons_txs n h (clear_invalid_send_tx now (Acct o (m_send_tx_num t))) = (tx :: txs, a) ->
  is_recv_tx tx = true ->
  m_max_cache_block_height (m_consensused_recvtx_cache t) = m_latest_block_height (m_consensused_recvtx_cache t) ->
  0 < m_latest_block_height (m_consensused_recvtx_cache t) -> ch < MAX_HEIGHT ->
  ch = m_latest_block_height (m_consensused_recvtx_cache t) + 1 ->
  ce_load (pe_recv env) ch = Some b -> tb_committed b = true -> (exists t0 d0, consumes b t0 d0) ->
  ce_time (pe_recv env) <= u64 (get_clock tx + ce_window (pe_recv env)) ->
  tt_get_account_txs env address ch uh n h now t = None.
Proof.
  intros Ho Hg Hrecv Hmax Hpos HM Hch Hload Hcom Hcons Ht.
  unfold tt_get_account_txs. rewrite Ho. unfold account_batch, on_account. rewrite Hg. cbn [txs_validity_check_leader].
  assert (is_confirm_tx tx = false) as -> by (destruct (is_confirm_tx tx) eqn:Ec; [by rewrite (confirm_not_recv tx Ec) in Hrecv|done]).
  rewrite Hrecv. cbv zeta. unfold check_receipt. cbn [set_waiting m_consensused_recvtx_cache].
  set (c := m_consensused_recvtx_cache t) in *. unfold MAX_HEIGHT in HM.
  assert ((is_receipt_duplicated (pe_recv env) (get_clock tx) (digest tx) ch c).2.2 <> []) as Hout.
  { unfold is_receipt_duplicated. rewrite (proj2 (Z.ltb_ge _ _)) by lia.
    assert ((cache_latest_blocks (pe_recv env) ch (c, [])).2.2 <> []) as Hl.
    { unfold cache_latest_blocks. rewrite (proj2 (Z.eqb_neq ch 0)) by lia.
      rewrite (proj2 (Z.eqb_neq (m_latest_block_height c) 0)) by lia. cbv zeta. rewrite Hmax.
      rewrite !u64_small by (unfold is_u64; lia). unfold heights at 1. rewrite Z.sub_diag. change (Z.to_nat 0) with 0%nat. cbn [cache_heights negb].
      unfold MAX_HEIGHT. rewrite (proj2 (Z.eqb_neq ch _)) by lia. rewrite !u64_small by (unfold is_u64; lia).
      assert (heights (m_latest_block_height c + 1) ch = 1%nat) as -> by (unfold heights; rewrite Hch; lia).
      cbn [cache_heights]. unfold cache_from_db_with_timerblock_height. rewrite <- Hch, Hload, Hcom.
      pose proof (block_out b (c, []) (or_intror Hcons)) as Hb. by destruct (insert_block_tx_to_cache b (c, [])) as [mt [c1 out]]. }
    destruct (cache_latest_blocks (pe_recv env) ch (c, [])) as [ok s]. cbn [snd] in Hl. destruct ok; [|done].
    pose proof (cache_old_out (pe_recv env) (get_clock tx) s Hl) as Hc. by destruct (cache_old_blocks _ _ s) as [ok' s']. }
  destruct (is_receipt_duplicated _ _ _ _ _) as [r [c1 out]]. cbn [snd] in Hout. by destruct out.
Qed.
End Safety.
