(* ===== verification/TxPool.v ===== *)
(** * The transaction pool: [xtxpool/src/xtxpool.cpp]

    The pool has a table for each zone and table number, made when it is first
    used, and finds the table of an address by the account's id.  The tables'
    environments are a function of their place.  An operation is [None] where a
    table's operation is, and where the code indexes its arrays out of bounds
    (an address of an edge or archive zone passes the assertion of a release
    build). *)

From stdpp Require Import prelude gmap strings.
From Stdlib Require Import ZArith Lia.
From S2P Require Import Prelude StdMap StoreBlock AccountAddr TxData AccountObj RecvCache UnconfirmCache TxTable.

Definition enum_xtxpool_table_type_max : Z := 3.
Definition enum_max_mailbox_num : Z := 8192.
Definition block_clock_height_fall_behind_max : Z := 30.
Definition traverse_table_num_once_per_time_fire : Z := 16.

(** Zone and table number. *)
Definition table_place : Type := Z * Z.

Record txpool := TxPool {
  m_txpool_tables : gmap table_place tx_table;
  m_table_cover_count : gmap table_place Z;      (* uint8_t, 0 where absent *)
  m_timer_fire_time : Z;                         (* uint32_t *)
  m_receipt_tranceiver : bool                    (* set *)
}.
Definition new_txpool : txpool := TxPool ∅ ∅ 0 false.

Definition set_tables (m : gmap table_place tx_table) (p : txpool) : txpool :=
  TxPool m (m_table_cover_count p) (m_timer_fire_time p) (m_receipt_tranceiver p).
Definition set_cover (m : gmap table_place Z) (p : txpool) : txpool :=
  TxPool (m_txpool_tables p) m (m_timer_fire_time p) (m_receipt_tranceiver p).
Definition cover_count (k : table_place) (p : txpool) : Z := default 0 (m_table_cover_count p !! k).
Definition set_receipt_tranceiver (p : txpool) : txpool :=
  TxPool (m_txpool_tables p) (m_table_cover_count p) (m_timer_fire_time p) true.

Definition in_bounds (k : table_place) : bool :=
  (k.1 <? enum_xtxpool_table_type_max) && (k.2 <? enum_vbucket_has_tables_count).

(** ** Blocks written to the database *)

(** An input of a unit: a send or receive, and the receipt [create_txreceipt] makes for it. *)
Record unit_input := UnitInput { in_is_send : bool; in_is_recv : bool; in_receipt : option receipt }.
Record db_unit := DbUnit { du_is_light : bool; du_inputs : list unit_input }.
Record db_block := DbBlock {
  bk_account : string;
  bk_is_table : bool;
  bk_is_empty : bool;
  bk_committed : bool;           (* enum_xvblock_flag_committed *)
  bk_clock : Z;
  bk_units : list db_unit;       (* get_tableblock_units(true) *)
  bk_justify : bool;             (* load_justify_block at its height + 2 succeeds *)
  bk_confirm : committed_block
}.

(** [create_txreceipts] of the light units: the receipts of sends, then those of receives. *)
Definition unit_receipts (u : db_unit) : list (option receipt) * list (option receipt) :=
  if du_is_light u then
    (in_receipt <$> List.filter in_is_send (du_inputs u),
     in_receipt <$> List.filter (fun i => negb (in_is_send i) && in_is_recv i) (du_inputs u))
  else ([], []).
Definition create_txreceipts (units : list db_unit) : list (option receipt) * list (option receipt) :=
  (flat_map (fun u => (unit_receipts u).1) units, flat_map (fun u => (unit_receipts u).2) units).

Section Pool.
Context `{TxEnv} `{TxVerify} `{XStringUtl}.

Definition place_of_addr (address : string) : table_place :=
  let xid := get_xid_from_account address in (get_vledger_zone_index xid, get_vledger_subaddr xid).

Definition get_txpool_table (k : table_place) (p : txpool) : option (tx_table * txpool) :=
  if in_bounds k then
    match m_txpool_tables p !! k with
    | Some t => Some (t, p)
    | None => Some (new_tx_table, set_tables (<[k := new_tx_table]> (m_txpool_tables p)) p)
    end
  else None.

Definition get_txpool_table_by_addr (address : string) (p : txpool) : option (tx_table * txpool) :=
  get_txpool_table (place_of_addr address) p.

(** A call on the table of an address. *)
Definition on_table {R} (address : string) (f : tx_table -> option (R * tx_table)) (p : txpool) : option (R * txpool) :=
  match get_txpool_table_by_addr address p with
  | None => None
  | Some (t, p) =>
      match f t with
      | None => None
      | Some (r, t) => Some (r, set_tables (<[place_of_addr address := t]> (m_txpool_tables p)) p)
      end
  end.

Definition tp_push_send_tx (env : pool_env) (tx : xtransaction) : txpool -> option (xtxpool_error * txpool) :=
  on_table (get_source_addr tx) (fun t => Some (tt_push_send_tx env tx t)).
Definition tp_push_recv_tx (env : pool_env) (tx : xtransaction) : txpool -> option (xtxpool_error * txpool) :=
  on_table (get_target_addr tx) (tt_push_recv_tx env tx).
Definition tp_push_recv_ack_tx (env : pool_env) (tx : xtransaction) : txpool -> option (xtxpool_error * txpool) :=
  on_table (get_source_addr tx) (tt_push_recv_ack_tx env tx).
Definition on_receipt (env : pool_env) (cons_tx : xtransaction) : txpool -> option (xtxpool_error * txpool) :=
  if is_recv_tx cons_tx then tp_push_recv_tx env cons_tx else tp_push_recv_ack_tx env cons_tx.

Definition tp_get_txs (env : pool_env) (tableblock_account : string) (commit_height : Z) (hash_order : list string)
    (set_order : list string -> list string) : txpool -> option (list (string * list xtransaction) * txpool) :=
  on_table tableblock_account (get_txs env commit_height tableblock_batch_unitblock_max_num hash_order set_order).
Definition tp_get_accounts (tableblock_account : string) (hash_order : list string)
    (set_order : list string -> list string) : txpool -> option (list string * txpool) :=
  on_table tableblock_account (fun t => Some (get_accounts tableblock_batch_unitblock_max_num hash_order set_order t)).
Definition tp_get_account_txs (env : pool_env) (account : string) (commit_height unit_height last_nonce : Z)
    (last_hash : string) (now : Z) : txpool -> option (list xtransaction * txpool) :=
  on_table account (tt_get_account_txs env account commit_height unit_height last_nonce last_hash now).
Definition tp_verify_txs (env : pool_env) (account : string) (commit_height unit_height : Z) (txs : list xtransaction)
    (last_nonce : Z) (last_hash : string) : txpool -> option (xtxpool_error * txpool) :=
  on_table account (verify_txs env commit_height unit_height txs last_nonce last_hash).

Definition tp_pop_tx_by_hash (address hash : string) (subtype : Z) : txpool -> option (option xtransaction * txpool) :=
  on_table address (fun t => Some (tt_pop_tx_by_hash address hash subtype t)).
Definition tp_query_tx (account hash : string) : txpool -> option (option xtransaction * txpool) :=
  on_table account (fun t => Some (tt_query_tx account hash t, t)).
Definition tp_get_unconfirm_tx (env : pool_env) (source_addr hash : string) : txpool -> option (option receipt * txpool) :=
  on_table source_addr (tt_get_unconfirm_tx env source_addr hash).

(** ** Committed blocks *)

Definition is_mailbox_over_limit (queue_size : Z) : bool := enum_max_mailbox_num <=? queue_size.

(** The receipts handed to [send_receipt]; [None] where one of them is null. *)
Definition make_receipts_and_send (env : pool_env) (block : db_block) (p : txpool) : option (list (receipt * Z)) :=
  if negb (bk_is_table block) || bk_is_empty block || negb (bk_committed block) then Some []
  else if negb (m_receipt_tranceiver p) then Some []
  else
    let '(sendtx_receipts, recvtx_receipts) := create_txreceipts (bk_units block) in
    match sendtx_receipts ++ recvtx_receipts with
    | [] => Some []
    | receipts =>
        if negb (bk_justify block) then Some []
        else
          (fmap (fun r => (r, get_receipt_resend_time (r_gmtime r) (pe_now env)))) <$> mapM id receipts
    end.

(** The call that [on_block_confirmed] posts. *)
Definition handle_block (env : pool_env) (block : db_block) (p : txpool) : option (list (receipt * Z) * txpool) :=
  let sent :=
    if bk_is_table block && (ce_time (pe_recv env) <? u64 (bk_clock block + block_clock_height_fall_behind_max))
    then make_receipts_and_send env block p else Some [] in
  match sent with
  | None => None
  | Some sent => on_table (bk_account block) (fun t => (fun t => (sent, t)) <$> on_block_confirmed env (bk_confirm block) t) p
  end.

(** [on_block_to_db_event] and [on_block_confirmed]: the block is posted unless the mailbox is full. *)
Definition on_block_to_db_event (queue_size : Z) (mailbox : list db_block) (block : db_block) : list db_block :=
  if is_mailbox_over_limit queue_size then mailbox else mailbox ++ [block].

(** ** Subscriptions *)

Definition table_ids (front back : Z) : list Z := seqZ front (back + 1 - front).

Definition subscribe_one (env : table_place -> pool_env) (k : table_place) (p : txpool) : option txpool :=
  let p := set_cover (<[k := u8 (cover_count k p + 1)]> (m_table_cover_count p)) p in
  match get_txpool_table k p with
  | None => None
  | Some (t, p) => (fun t => set_tables (<[k := t]> (m_txpool_tables p)) p) <$> tt_init (env k) t
  end.

Definition bad_range (zone front back : Z) : bool :=
  (enum_xtxpool_table_type_max <=? zone) || (enum_vbucket_has_tables_count <=? back) || (back <? front).

Fixpoint subscribe_all (env : table_place -> pool_env) (zone : Z) (ids : list Z) (p : txpool) : option txpool :=
  match ids with
  | [] => Some p
  | table_id :: ids =>
      match subscribe_one env (zone, table_id) p with
      | None => None
      | Some p => subscribe_all env zone ids p
      end
  end.

Definition subscribe_tables (env : table_place -> pool_env) (zone front_table_id back_table_id : Z) (p : txpool) : option txpool :=
  if bad_range zone front_table_id back_table_id then Some p
  else subscribe_all env zone (table_ids front_table_id back_table_id) p.

(** [hash_order k] is the iteration order of the accounts of the table at [k]. *)
Definition unsubscribe_one (hash_order : table_place -> list string) (k : table_place) (p : txpool) : txpool :=
  let p := set_cover (<[k := u8 (cover_count k p - 1)]> (m_table_cover_count p)) p in
  if cover_count k p =? 0 then
    match m_txpool_tables p !! k with
    | Some t => set_tables (<[k := tt_clear (hash_order k) t]> (m_txpool_tables p)) p
    | None => p
    end
  else p.

Definition unsubscribe_tables (hash_order : table_place -> list string) (zone front_table_id back_table_id : Z)
    (p : txpool) : txpool :=
  if bad_range zone front_table_id back_table_id then p
  else fold_left (fun p table_id => unsubscribe_one hash_order (zone, table_id) p) (table_ids front_table_id back_table_id) p.

(** ** The timer *)

Definition timer_begin (fire_time : Z) : Z :=
  u32 (fire_time * traverse_table_num_once_per_time_fire) mod enum_vbucket_has_tables_count.

(** The places of the two loops of [tp_on_timer_fire]. *)
Definition timer_places (fire_time : Z) : list table_place :=
  flat_map (fun i => (fun j => (i, j)) <$> seqZ (timer_begin fire_time) traverse_table_num_once_per_time_fire)
    (seqZ 0 enum_xtxpool_table_type_max).

Definition timer_visit (env : table_place -> pool_env) (s : list (receipt * Z) * receiver_counter * txpool) (k : table_place)
    : list (receipt * Z) * receiver_counter * txpool :=
  let '(sent, counter, p) := s in
  match m_txpool_tables p !! k with
  | Some t =>
      if negb (cover_count k p =? 0) then
        let '(receipts, counter, t) := tt_on_timer_check_cache (env k) counter t in
        (sent ++ receipts, counter, set_tables (<[k := t]> (m_txpool_tables p)) p)
      else s
  | None => s
  end.

Definition tp_on_timer_fire (env : table_place -> pool_env) (p : txpool) : list (receipt * Z) * txpool :=
  if m_receipt_tranceiver p then
    let '(sent, _, p) := fold_left (timer_visit env) (timer_places (m_timer_fire_time p)) ([], ∅, p) in
    (sent, TxPool (m_txpool_tables p) (m_table_cover_count p) (u32 (m_timer_fire_time p + 1)) (m_receipt_tranceiver p))
  else ([], p).
End Pool.
