(* ===== verification/TxPoolProps.v ===== *)
(** * A table only holds accounts it was given

    No operation of a table brings in an account object other than that of the
    transaction pushed; with the pool's choice of the table by address, every
    account is in the table of its address. *)

From stdpp Require Import prelude gmap strings.
From Stdlib Require Import ZArith Lia.
From S2P Require Import Prelude StdMap StoreBlock AccountAddr TxData AccountObj AccountSpec AccountWf AccountRefine AccountProps RecvCache.
From S2P Require Import RecvCacheFacts RecvCacheProps UnconfirmCache UnconfirmProps TxTable TableFacts TableProps TxPool.

Section Homed.
Context `{TxEnv} `{TxVerify} `{XStringUtl} (P : string -> Prop).

Definition homed (t : tx_table) : Prop := forall ad o, m_waiting_accounts t !! ad = Some o -> P ad.

Lemma on_account_homed {R} ad o (f : acct -> R * acct) t : homed t -> P ad -> homed (on_account ad o f t).2.
Proof.
  intros Ht Hp. unfold on_account. destruct (f _) as [r a]. intros ad' o' Hl. cbn in Hl.
  apply lookup_insert_Some in Hl as [[<- _]|[_ Hl]]; [done|by eapply Ht].
Qed.
Lemma found_homed {R} ad o (f : acct -> R * acct) t :
  homed t -> m_waiting_accounts t !! ad = Some o -> homed (on_account ad o f t).2.
Proof. intros Ht Ho. apply on_account_homed; [done|by eapply Ht]. Qed.
Lemma homed_same t t' : m_waiting_accounts t' = m_waiting_accounts t -> homed t -> homed t'.
Proof. unfold homed. by intros ->. Qed.
Lemma removed_homed ad n t : homed t -> homed (set_waiting (delete ad (m_waiting_accounts t)) n t).
Proof. intros Ht ad' o' Hl. cbn in Hl. apply lookup_delete_Some in Hl as [_ Hl]. by eapply Ht. Qed.

Lemma delete_homed held txs t t' : homed t -> delete_committed_recv_txs held txs t = Some t' -> homed t'.
Proof.
  intros Ht. unfold delete_committed_recv_txs. destruct txs as [|e txs]; [by intros [= <-]|]. destruct held; [done|].
  intros E%(inj Some). subst t'. revert t Ht. generalize (e :: txs) as l. intros l.
  induction l as [|x l IH]; intros t Ht; cbn [fold_left]; [done|]. apply IH.
  destruct (m_waiting_accounts t !! x.1) as [o|] eqn:E; [by apply found_homed|done].
Qed.
Lemma check_receipt_homed env held tx ch t ret t' :
  homed t -> check_receipt env held tx ch t = Some (ret, t') -> homed t'.
Proof.
  intros Ht. unfold check_receipt. destruct (is_receipt_duplicated _ _ _ _ _) as [r [c out]].
  destruct (delete_committed_recv_txs _ _ _) as [t1|] eqn:E; [|done]. intros [= _ <-]. by eapply delete_homed; [|exact E].
Qed.
Lemma check_unconfirmed_homed env tx now uh t ret t' :
  homed t -> check_unconfirmed env tx now uh t = Some (ret, t') -> homed t'.
Proof. intros Ht. unfold check_unconfirmed. destruct (has_txhash_receipt _ _ _ _ _ _) as [[r u]|]; [|done]. by intros [= _ <-]. Qed.

Lemma leader_homed env ad txs ch uh now t r : 
  homed t -> txs_validity_check_leader env ad txs ch uh now t = Some r -> homed r.2.
Proof.
  revert t r. induction txs as [|tx txs IH]; intros t r Ht; cbn [txs_validity_check_leader]; [by intros [= <-]|]. cbv zeta.
  destruct (if is_confirm_tx tx then _ else _) as [[ret t1]|] eqn:E; [|done].
  assert (homed t1) as Ht1.
  { destruct (is_confirm_tx tx); [by eapply check_unconfirmed_homed|].
    destruct (is_recv_tx tx); [by eapply check_receipt_homed|by injection E as _ <-]. }
  destruct (leader_drops ret).
  - destruct (m_waiting_accounts t1 !! ad) as [o|] eqn:Eo; [|done]. apply IH. by apply found_homed.
  - destruct (negb _); [by intros [= <-]|].
    destruct (txs_validity_check_leader env ad txs ch uh now t1) as [[[r2 rest] t2]|] eqn:E2; [|done].
    pose proof (IH _ _ Ht1 E2) as Ht2. by destruct (failed r2); intros [= <-].
Qed.

Lemma batch_homed env ad o ch uh n h now t r :
  homed t -> m_waiting_accounts t !! ad = Some o -> account_batch env ad o ch uh n h now t = Some r -> homed r.2.
Proof.
  intros Ht Ho. unfold account_batch. pose proof (found_homed ad o (fun a => get_cons_txs n h (clear_invalid_send_tx now a)) t Ht Ho) as H1'.
  destruct (on_account ad o _ t) as [txs t1]. cbn [snd] in H1'.
  destruct (txs_validity_check_leader _ _ _ _ _ _ _) as [[[r2 l] t2]|] eqn:E; [|done].
  pose proof (leader_homed _ _ _ _ _ _ _ _ H1' E). by intros [= <-].
Qed.

Lemma select_homed ads t : homed t -> homed (select_accounts ads t).2.
Proof.
  revert t. induction ads as [|ad ads IH]; intros t Ht; cbn [select_accounts]; [done|].
  destruct (m_waiting_accounts t !! ad) as [o|]; [|by apply IH]. destruct (is_account_lock _ _); [by apply IH|].
  destruct (empty o); [by apply IH, removed_homed|]. specialize (IH t Ht). by destruct (select_accounts ads t).
Qed.

Lemma fill_homed env ch max num residue ads t r :
  homed t -> fill_accounts env ch max num residue ads t = Some r -> homed r.2.
Proof.
  revert num residue t r. induction ads as [|ad ads IH]; intros num residue t r Ht; cbn [fill_accounts]; [by intros [= <-]|].
  destruct (_ && _); [by apply IH|]. destruct (m_waiting_accounts t !! ad) as [o|] eqn:Eo; [|done].
  destruct (ue_latest _ ad) as [v|]; [|done]. destruct (negb _); [by apply IH|]. cbv zeta.
  destruct (if lu_is_genesis v then _ else _) as [[n h]|]; [|by apply IH].
  destruct (account_batch env ad o ch (lu_height v) n h (pe_now env) t) as [[txs t1]|] eqn:Eb; [|done].
  pose proof (batch_homed _ _ _ _ _ _ _ _ _ _ Ht Eo Eb) as Ht1. destruct txs as [|x txs]; [by apply IH|].
  destruct (fill_accounts env ch max (num + 1) _ ads t1) as [[m1 t2]|] eqn:E; [|done].
  pose proof (IH _ _ _ _ Ht1 E). by intros [= <-].
Qed.

Lemma backup_homed env txs ch uh now n h t ret t' :
  homed t -> txs_validity_check_backup env txs ch uh now n h t = Some (ret, t') -> homed t'.
Proof.
  revert n h t. induction txs as [|tx txs IH]; intros n h t Ht; cbn [txs_validity_check_backup]; [by intros [= _ <-]|]. cbv zeta.
  destruct (failed _); [by intros [= _ <-]|]. destruct (_ || _).
  - destruct (nonce_continous n h tx) as [[n' h']|]; [by apply IH|by intros [= _ <-]].
  - destruct (if is_confirm_tx tx then _ else _) as [[r t1]|] eqn:E; [|done].
    assert (homed t1) as Ht1.
    { destruct (is_confirm_tx tx); [by eapply check_unconfirmed_homed|].
      destruct (is_recv_tx tx); [by eapply check_receipt_homed|by injection E as _ <-]. }
    destruct (negb _); [by intros [= _ <-]|by apply IH].
Qed.

Lemma clear_homed ho t : homed t -> homed (tt_clear ho t).
Proof.
  unfold tt_clear. revert t. induction ho as [|ad ho IH]; intros t Ht; cbn [fold_left]; [done|]. apply IH.
  destruct (m_waiting_accounts t !! ad); [by apply removed_homed|done].
Qed.

(** The account an operation may add. *)
Definition op_home (op : table_op) : Prop :=
  match op with
  | TPushSend tx => P (get_source_addr tx)
  | TPushRecv tx => P (get_target_addr tx)
  | TPushAck tx => P (get_source_addr tx)
  | _ => True
  end.

Lemma run_homed env op t t' : homed t -> op_home op -> table_run env op t = Some t' -> homed t'.
Proof.
  intros Ht Hop Hrun. destruct op; cbn in Hop, Hrun.
  - injection Hrun as <-. unfold tt_push_send_tx. repeat (case_match; [done|]). by apply on_account_homed.
  - apply fmap_Some in Hrun as ([r t1] & E & ->). unfold tt_push_recv_tx in E. destruct (failed _); [by injection E as _ <-|].
    destruct (check_receipt _ _ _ _ t) as [[r1 t2]|] eqn:Ec; [|done]. pose proof (check_receipt_homed _ _ _ _ _ _ _ Ht Ec) as Ht2.
    destruct (failed r1); [by injection E as _ <-|]. apply (inj Some), (f_equal snd) in E. cbn [snd] in E. subst t1. by apply on_account_homed.
  - apply fmap_Some in Hrun as ([r t1] & E & ->). unfold tt_push_recv_ack_tx in E. destruct (failed _); [by injection E as _ <-|].
    destruct (check_unconfirmed _ _ _ _ t) as [[r1 t2]|] eqn:Ec; [|done]. pose proof (check_unconfirmed_homed _ _ _ _ _ _ _ Ht Ec) as Ht2.
    destruct (negb _); [by injection E as _ <-|]. apply (inj Some), (f_equal snd) in E. cbn [snd] in E. subst t1. by apply on_account_homed.
  - apply fmap_Some in Hrun as (r & E & ->). unfold get_txs in E. pose proof (select_homed hash_order t Ht) as Hs.
    destruct (select_accounts hash_order t) as [sel t1]. by eapply fill_homed.
  - injection Hrun as <-. unfold get_accounts. pose proof (select_homed hash_order t Ht) as Hs. by destruct (select_accounts hash_order t).
  - unfold tt_get_account_txs in Hrun. destruct (m_waiting_accounts t !! account) as [o|] eqn:Eo; [|by injection Hrun as <-].
    apply fmap_Some in Hrun as (r & E & ->). by eapply batch_homed.
  - apply fmap_Some in Hrun as ([r t1] & E & ->). by eapply backup_homed.
  - unfold on_block_confirmed in Hrun. destruct b as [ad light|b|].
    + destruct (pe_account env ad) as [[n h]|]; [|done]. unfold update_committed_unit_block in Hrun.
      destruct (on_unit_update _ _ _ _) as [u|]; [|done]. apply (inj Some) in Hrun. subst t'.
      destruct (m_waiting_accounts (set_unconfirm u t) !! ad) as [o|] eqn:Eo; [by apply found_homed|done].
    + unfold update_committed_table_block in Hrun. destruct (update_tx_cache _ _ _) as [c out]. by eapply delete_homed; [|exact Hrun].
    + by injection Hrun as <-.
  - by injection Hrun as <-.
  - injection Hrun as <-. unfold tt_on_timer_check_cache. by destruct (on_timer_check_cache _ _ _ _) as [[rs c] u].
  - unfold tt_init in Hrun. destruct (pe_unconfirmed env); [|by injection Hrun as <-]. by apply fmap_Some in Hrun as (u & E & ->).
  - injection Hrun as <-. by apply clear_homed.
  - injection Hrun as <-. unfold tt_pop_tx_by_hash. destruct (m_waiting_accounts t !! address) as [o|] eqn:Eo; [by apply found_homed|done].
  - apply fmap_Some in Hrun as ([r t1] & E & ->). unfold tt_get_unconfirm_tx in E. destruct (get_unconfirm_tx _ _ _ _ _) as [[r1 u]|]; [|done].
    by injection E as _ <-.
Qed.
End Homed.

(** * The pool as a whole

    The pool is followed through the calls of its interface: every table stays
    in order and every account is in the table its address names.  The timer
    reaches every subscribed table within sixteen fires. *)

Inductive pool_op :=
| PPushSend (tx : xtransaction)
| PPushRecv (tx : xtransaction)
| PPushAck (tx : xtransaction)
| PReceipt (tx : xtransaction)
| PGetTxs (table_account : string) (ch : Z) (hash_order : list string) (set_order : list string -> list string)
| PGetAccounts (table_account : string) (hash_order : list string) (set_order : list string -> list string)
| PGetAccountTxs (account : string) (ch uh n : Z) (h : string) (now : Z)
| PVerify (account : string) (ch uh : Z) (txs : list xtransaction) (n : Z) (h : string)
| PBlock (b : db_block)
| PLock (table_account : string) (cert_block lock_block : lock_block)
| PPop (address hash : string) (subtype : Z)
| PGetUnconfirm (source hash : string)
| PSubscribe (zone front back : Z)
| PUnsubscribe (hash_order : table_place -> list string) (zone front back : Z)
| PTimer
| PTranceiver.

Section PoolRun.
Context `{TxEnv} `{TxVerify} `{XStringUtl}.

(** The pool after a call, each table in its environment. *)
Definition pool_run (envs : table_place -> pool_env) (op : pool_op) (p : txpool) : option txpool :=
  let at_ ad := envs (place_of_addr ad) in
  match op with
  | PPushSend tx => snd <$> tp_push_send_tx (at_ (get_source_addr tx)) tx p
  | PPushRecv tx => snd <$> tp_push_recv_tx (at_ (get_target_addr tx)) tx p
  | PPushAck tx => snd <$> tp_push_recv_ack_tx (at_ (get_source_addr tx)) tx p
  | PReceipt tx =>
      snd <$> on_receipt (at_ (if is_recv_tx tx then get_target_addr tx else get_source_addr tx)) tx p
  | PGetTxs account ch ho so => snd <$> tp_get_txs (at_ account) account ch ho so p
  | PGetAccounts account ho so => snd <$> tp_get_accounts account ho so p
  | PGetAccountTxs account ch uh n h now => snd <$> tp_get_account_txs (at_ account) account ch uh n h now p
  | PVerify account ch uh txs n h => snd <$> tp_verify_txs (at_ account) account ch uh txs n h p
  | PBlock b => snd <$> handle_block (at_ (bk_account b)) b p
  | PLock account cert lock => snd <$> on_table account (fun t => Some (tt, update_lock_blocks cert lock t)) p
  | PPop address hash subtype => snd <$> tp_pop_tx_by_hash address hash subtype p
  | PGetUnconfirm source hash => snd <$> tp_get_unconfirm_tx (at_ source) source hash p
  | PSubscribe zone front back => subscribe_tables envs zone front back p
  | PUnsubscribe ho zone front back => Some (unsubscribe_tables ho zone front back p)
  | PTimer => Some (tp_on_timer_fire envs p).2
  | PTranceiver => Some (set_receipt_tranceiver p)
  end.

(** The table operation behind a call, and the address that names the table. *)
Definition op_table (op : pool_op) : option (string * table_op) :=
  match op with
  | PPushSend tx => Some (get_source_addr tx, TPushSend tx)
  | PPushRecv tx => Some (get_target_addr tx, TPushRecv tx)
  | PPushAck tx => Some (get_source_addr tx, TPushAck tx)
  | PReceipt tx => Some (if is_recv_tx tx then (get_target_addr tx, TPushRecv tx) else (get_source_addr tx, TPushAck tx))
  | PGetTxs account ch ho so => Some (account, TGetTxs ch tableblock_batch_unitblock_max_num ho so)
  | PGetAccounts account ho so => Some (account, TGetAccounts tableblock_batch_unitblock_max_num ho so)
  | PGetAccountTxs account ch uh n h now => Some (account, TGetAccountTxs account ch uh n h now)
  | PVerify account ch uh txs n h => Some (account, TVerify ch uh txs n h)
  | PBlock b => Some (bk_account b, TConfirm (bk_confirm b))
  | PLock account cert lock => Some (account, TLock cert lock)
  | PPop address hash subtype => Some (address, TPop address hash subtype)
  | PGetUnconfirm source hash => Some (source, TGetUnconfirm source hash)
  | _ => None
  end.

Lemma on_table_run {R} ad (f : tx_table -> option (R * tx_table)) g p p' :
  (forall t, g t = snd <$> f t) -> snd <$> on_table ad f p = Some p' ->
  exists t p1 t', get_txpool_table_by_addr ad p = Some (t, p1) /\ g t = Some t' /\
    p' = set_tables (<[place_of_addr ad := t']> (m_txpool_tables p1)) p1.
Proof.
  intros Hg Hr. apply fmap_Some in Hr as ([r p2] & Hr & ->). unfold on_table in Hr.
  destruct (get_txpool_table_by_addr ad p) as [[t p1]|]; [|done]. destruct (f t) as [[r1 t1]|] eqn:E; [|done].
  injection Hr as _ <-. exists t, p1, t1. split_and!; [done| |done]. by rewrite Hg, E.
Qed.

Lemma pool_run_table envs op p p' ad top :
  op_table op = Some (ad, top) -> pool_run envs op p = Some p' ->
  exists t p1 t', get_txpool_table_by_addr ad p = Some (t, p1) /\ table_run (envs (place_of_addr ad)) top t = Some t' /\
    p' = set_tables (<[place_of_addr ad := t']> (m_txpool_tables p1)) p1.
Proof.
  destruct op; cbn [op_table pool_run]; intros E; try done.
  4: { destruct (is_recv_tx tx) eqn:Er; injection E as <- <-; intros Hr; unfold on_receipt in Hr; rewrite Er in Hr;
       apply (on_table_run _ _ _ p p' (fun t => eq_refl) Hr). }
  all: injection E as <- <-; intros Hr.
  8: { unfold handle_block in Hr. destruct (if _ && _ then _ else _) as [sent|]; [|done].
       refine (on_table_run _ _ _ p p' _ Hr). intros t. cbn. by destruct (on_block_confirmed _ _ _). }
  all: exact (on_table_run _ _ _ p p' (fun t => eq_refl) Hr).
Qed.

(** ** The invariant *)

Context (chain : table_place -> Z -> option table_block) (W : Z) (Hchain : forall k, chain_wf (chain k)).

Definition here (k : table_place) (ad : string) : Prop := place_of_addr ad = k.

Record place_ok (T : Z) (chains : string -> list lunit) (k : table_place) (t : tx_table) : Prop := {
  pl_bounds : in_bounds k = true;
  pl_home : homed (here k) t;
  pl_inv : table_inv (chain k) W T chains t
}.

Definition pool_ok (T : Z) (chains : string -> list lunit) (p : txpool) : Prop :=
  forall k t, m_txpool_tables p !! k = Some t -> place_ok T chains k t.

(** The environments of a call: one clock, and each what its table may rely on. *)
Record envs_ok (T T' : Z) (chains : string -> list lunit) (envs : table_place -> pool_env) (p : txpool) : Prop := {
  ev_time : T <= T' /\ forall k, ce_time (pe_recv (envs k)) = T';
  ev_table : forall k t, m_txpool_tables p !! k = Some t -> pool_env_ok (chain k) W T chains (envs k) t;
  ev_new : forall k, pool_env_ok (chain k) W T chains (envs k) new_tx_table
}.

Lemma place_run T T' chains k env op t t' :
  place_ok T chains k t -> pool_env_ok (chain k) W T chains env t -> ce_time (pe_recv env) = T' ->
  table_op_ok (chain k) op t -> op_home (here k) op -> table_run env op t = Some t' -> place_ok T' chains k t'.
Proof.
  intros [Hb Hh Hi] He <- Hop Hho Hr. split; [done|by eapply run_homed|]. by eapply run_inv.
Qed.

Lemma new_place_ok T chains k : in_bounds k = true -> place_ok T chains k new_tx_table.
Proof. intros Hb. split; [done| |apply new_table_inv]. intros ad o Ho. cbn in Ho. by rewrite lookup_empty in Ho. Qed.

Lemma pool_ok_mono T T' chains p : T <= T' -> pool_ok T chains p -> pool_ok T' chains p.
Proof. intros HT Hp k t Ht. destruct (Hp k t Ht). split; [done|done|]. by eapply table_inv_mono. Qed.

Lemma pool_ok_insert T chains k t p :
  pool_ok T chains p -> place_ok T chains k t -> pool_ok T chains (set_tables (<[k := t]> (m_txpool_tables p)) p).
Proof. intros Hp Ht k' t' Hl. cbn in Hl. apply lookup_insert_Some in Hl as [[<- <-]|[_ Hl]]; [done|by apply Hp]. Qed.

Lemma get_table_ok T T' chains envs k t p p1 :
  pool_ok T chains p -> envs_ok T T' chains envs p -> get_txpool_table k p = Some (t, p1) ->
  pool_ok T chains p1 /\ place_ok T chains k t /\ pool_env_ok (chain k) W T chains (envs k) t.
Proof.
  intros Hp He. unfold get_txpool_table. destruct (in_bounds k) eqn:Eb; [|done].
  destruct (m_txpool_tables p !! k) as [t0|] eqn:E; intros [= <- <-].
  - split; [done|]. split; [by apply Hp|by apply (ev_table _ _ _ _ _ He)].
  - assert (place_ok T chains k new_tx_table) as Hn by by apply new_place_ok. split; [by apply pool_ok_insert|].
    split; [done|apply (ev_new _ _ _ _ _ He)].
Qed.

(** ** Operations on several tables *)

(** An operation that leaves the cache of consumed receipts alone can be
    repeated under the same environment. *)
Definition keeps_recv (op : table_op) : Prop :=
  match op with TInit | TTimer _ | TClear _ => True | _ => False end.

Lemma light_run T chains k env op t t' :
  place_ok T chains k t -> pool_env_ok (chain k) W T chains env t -> ce_time (pe_recv env) = T -> keeps_recv op ->
  table_run env op t = Some t' -> place_ok T chains k t' /\ pool_env_ok (chain k) W T chains env t'.
Proof.
  intros Hp He HT Hk Hr. split.
  - apply (place_run T T chains k env op t t' Hp He HT); [..|exact Hr]; destruct op; destruct Hk; exact I.
  - assert (m_consensused_recvtx_cache t' = m_consensused_recvtx_cache t) as E.
    { destruct op; destruct Hk; cbn in Hr.
      - injection Hr as <-. unfold tt_on_timer_check_cache. by destruct (on_timer_check_cache _ _ _ _) as [[rs c] u].
      - unfold tt_init in Hr. destruct (pe_unconfirmed env); [|by injection Hr as <-]. by apply fmap_Some in Hr as (u & _ & ->).
      - injection Hr as <-. unfold tt_clear. clear Hp He. revert t. induction hash_order as [|ad ho IH]; intros t; cbn [fold_left]; [done|].
        rewrite IH. by destruct (m_waiting_accounts t !! ad). }
    destruct He. split; [done|by rewrite E|done|done].
Qed.

(** The pool and its environments at the time of the call. *)
Definition pool_now (T : Z) (chains : string -> list lunit) (envs : table_place -> pool_env) (p : txpool) : Prop :=
  pool_ok T chains p /\ envs_ok T T chains envs p.

Lemma pool_now_of T T' chains envs p : pool_ok T chains p -> envs_ok T T' chains envs p -> pool_now T' chains envs p.
Proof.
  intros Hp [[HT Hc] He Hn]. split; [by eapply pool_ok_mono|].
  assert (forall k t, pool_env_ok (chain k) W T chains (envs k) t -> pool_env_ok (chain k) W T' chains (envs k) t) as Hm.
  { intros k t [[? ? ? Ht] ? ? ?]. split; [|done..]. split; [done|done|done|]. by rewrite (Hc k). }
  split; [split; [lia|done]|auto|auto].
Qed.

Lemma pool_now_insert T chains envs k op t t' p :
  pool_now T chains envs p -> place_ok T chains k t -> pool_env_ok (chain k) W T chains (envs k) t -> keeps_recv op ->
  table_run (envs k) op t = Some t' -> pool_now T chains envs (set_tables (<[k := t']> (m_txpool_tables p)) p).
Proof.
  intros [Hp He] Hpl Hev Hk Hr. pose proof He as [[_ Hc] _ _].
  destruct (light_run T chains k (envs k) op t t' Hpl Hev (Hc k) Hk Hr) as [Hpl' Hev'].
  split; [by apply pool_ok_insert|]. destruct He as [Ht Htab Hn]. split; [done| |done].
  intros k' t1 Hl. cbn in Hl. apply lookup_insert_Some in Hl as [[<- <-]|[_ Hl]]; [done|by apply Htab].
Qed.

Lemma pool_now_same T chains envs p p' :
  m_txpool_tables p' = m_txpool_tables p -> pool_now T chains envs p -> pool_now T chains envs p'.
Proof. intros E [Hp [Ht Htab Hn]]. split; [unfold pool_ok in *; by rewrite E|]. split; [done|by rewrite E|done]. Qed.

Lemma get_table_now T chains envs k t p p1 :
  pool_now T chains envs p -> get_txpool_table k p = Some (t, p1) ->
  pool_now T chains envs p1 /\ place_ok T chains k t /\ pool_env_ok (chain k) W T chains (envs k) t.
Proof.
  intros [Hp He] E. destruct (get_table_ok T T chains envs k t p p1 Hp He E) as (Hp1 & Hpl & Hev). split; [|done].
  split; [done|]. unfold get_txpool_table in E. destruct (in_bounds k); [|done].
  destruct (m_txpool_tables p !! k) as [t0|]; injection E as <- <-; [done|]. destruct He as [Ht Htab Hn]. split; [done| |done].
  intros k' t1 Hl. cbn in Hl. apply lookup_insert_Some in Hl as [[<- <-]|[_ Hl]]; [done|by apply Htab].
Qed.

Lemma subscribe_now T chains envs zone ids p p' :
  pool_now T chains envs p -> subscribe_all envs zone ids p = Some p' -> pool_now T chains envs p'.
Proof.
  revert p. induction ids as [|i ids IH]; intros p Hp; cbn [subscribe_all]; [by intros [= <-]|].
  destruct (subscribe_one envs (zone, i) p) as [p1|] eqn:E; [|done]. apply IH. unfold subscribe_one in E.
  set (p0 := set_cover _ p) in E. assert (pool_now T chains envs p0) as Hp0 by by apply (pool_now_same T chains envs p).
  destruct (get_txpool_table (zone, i) p0) as [[t p2]|] eqn:Eg; [|done].
  destruct (get_table_now T chains envs _ t p0 p2 Hp0 Eg) as (Hp2 & Hpl & Hev).
  destruct (tt_init (envs (zone, i)) t) as [t1|] eqn:Ei; [|done]. cbn in E. injection E as <-.
  by apply (pool_now_insert T chains envs (zone, i) TInit t t1 p2).
Qed.

Lemma unsubscribe_now T chains envs ho zone ids p :
  pool_now T chains envs p ->
  pool_now T chains envs (fold_left (fun p table_id => unsubscribe_one ho (zone, table_id) p) ids p).
Proof.
  revert p. induction ids as [|i ids IH]; intros p Hp; cbn [fold_left]; [done|]. apply IH. unfold unsubscribe_one. cbv zeta.
  set (p0 := set_cover _ p). assert (pool_now T chains envs p0) as Hp0 by by apply (pool_now_same T chains envs p).
  destruct (_ =? 0); [|done]. case_match eqn:E; [|done].
  pose proof Hp0 as [Hpo Heo]. eapply (pool_now_insert T chains envs _ (TClear (ho (zone, i)))); [done|by apply Hpo|by apply (ev_table _ _ _ _ _ Heo)|done|done].
Qed.

Lemma timer_now T chains envs ks s :
  pool_now T chains envs s.2 -> pool_now T chains envs (fold_left (timer_visit envs) ks s).2.
Proof.
  revert s. induction ks as [|k ks IH]; intros [[sent c] p] Hp; cbn [fold_left]; [done|]. apply IH. unfold timer_visit.
  cbn [snd] in Hp. destruct (m_txpool_tables p !! k) as [t|] eqn:E; [|done]. destruct (negb _); [|done].
  destruct (tt_on_timer_check_cache (envs k) c t) as [[rs c1] t1] eqn:Et. cbn [snd].
  pose proof Hp as [Hpo Heo]. eapply (pool_now_insert T chains envs _ (TTimer c) t); [done|by apply Hpo|by apply (ev_table _ _ _ _ _ Heo)|done|].
  cbn. by rewrite Et.
Qed.

(** ** Executions *)

(** What the callers guarantee of a call on one table, at the table it reaches. *)
Definition pool_op_ok (op : pool_op) (p : txpool) : Prop :=
  match op_table op with
  | Some (ad, top) => forall t p1, get_txpool_table_by_addr ad p = Some (t, p1) -> table_op_ok (chain (place_of_addr ad)) top t
  | None => True
  end.

Inductive pool_step : Z * (string -> list lunit) * txpool -> Z * (string -> list lunit) * txpool -> Prop :=
| ps_run T T' chains p envs op p' :
    envs_ok T T' chains envs p -> pool_op_ok op p -> pool_run envs op p = Some p' ->
    pool_step (T, chains, p) (T', chains, p')
| ps_grow T chains chains' p :
    (forall address, exists newer, chains' address = newer ++ chains address) -> pool_step (T, chains, p) (T, chains', p).

Lemma op_table_home op ad top : op_table op = Some (ad, top) -> op_home (here (place_of_addr ad)) top.
Proof.
  destruct op; cbn; intros E; try done; try (by injection E as <- <-). destruct (is_recv_tx tx); by injection E as <- <-.
Qed.

Lemma pool_run_ok T T' chains envs op p p' :
  pool_ok T chains p -> envs_ok T T' chains envs p -> pool_op_ok op p -> pool_run envs op p = Some p' ->
  pool_ok T' chains p'.
Proof.
  intros Hp He Hop Hr. pose proof He as [[HT Hc] _ _]. unfold pool_op_ok in Hop.
  destruct (op_table op) as [[ad top]|] eqn:Eo.
  - destruct (pool_run_table envs op p p' ad top Eo Hr) as (t & p1 & t' & Eg & Et & ->).
    destruct (get_table_ok T T' chains envs _ t p p1 Hp He Eg) as (Hp1 & Hpl & Hev).
    apply pool_ok_insert; [by eapply pool_ok_mono|].
    eapply (place_run T T'); [exact Hpl|exact Hev|apply Hc|by eapply Hop|by eapply op_table_home|exact Et].
  - pose proof (pool_now_of T T' chains envs p Hp He) as Hn. destruct op; try done; cbn in Hr.
    + unfold subscribe_tables in Hr. destruct (bad_range _ _ _); [injection Hr as <-; apply Hn|]. by eapply subscribe_now.
    + injection Hr as <-. unfold unsubscribe_tables. destruct (bad_range _ _ _); [apply Hn|].
      by apply (unsubscribe_now T' chains envs).
    + injection Hr as <-. unfold tp_on_timer_fire. destruct (m_receipt_tranceiver p); [|apply Hn].
      pose proof (timer_now T' chains envs (timer_places (m_timer_fire_time p)) ([], ∅, p) Hn) as [Hp' _].
      by destruct (fold_left (timer_visit envs) _ _) as [[sent c] p2].
    + injection Hr as <-. apply Hn.
Qed.

Lemma pool_reached T0 chains0 T chains p :
  rtc pool_step (T0, chains0, new_txpool) (T, chains, p) -> pool_ok T chains p.
Proof.
  intros Hr. assert (pool_ok T0 chains0 new_txpool) as Hi by (intros k t Hl; cbn in Hl; by rewrite lookup_empty in Hl).
  change (pool_ok (T, chains, p).1.1 (T, chains, p).1.2 (T, chains, p).2).
  change (pool_ok (T0, chains0, new_txpool).1.1 (T0, chains0, new_txpool).1.2 (T0, chains0, new_txpool).2) in Hi.
  revert Hi. induction Hr as [|x y z Hs _ IH]; [done|]. intros Hi. apply IH.
  destruct Hs as [T1 T2 ch p1 envs op p2 He Hop E|T1 ch1 ch2 p1 Hg]; cbn in *.
  - by eapply pool_run_ok.
  - intros k t Hl. destruct (Hi k t Hl) as [? ? []]. split; [done|done|]. split; [done|done|by eapply accounts_grow|done].
Qed.

(** C29. In every state the pool reaches through its interface, each account has
    at most one object, in the table its address names: that object is stored
    under its own address, and its queues hold only what belongs to it, so a
    transaction waits in the table of its sender and a receipt in that of its
    receiver. *)
Theorem pool_one_object_per_account T0 chains0 T chains p k t address o :
  rtc pool_step (T0, chains0, new_txpool) (T, chains, p) ->
  m_txpool_tables p !! k = Some t -> m_waiting_accounts t !! address = Some o ->
  in_bounds k = true /\ k = place_of_addr address /\ m_address o = address /\
  Forall (fun e => place_of_addr (get_source_addr e) = k) (m_send_queue o ++ m_recv_ack_queue o) /\
  Forall (fun e => place_of_addr (get_target_addr e) = k) (m_recv_queue o) /\
  forall k' t' o', m_txpool_tables p !! k' = Some t' -> m_waiting_accounts t' !! address = Some o' -> k' = k /\ t' = t /\ o' = o.
Proof.
  intros Hr Hk Ho. pose proof (pool_reached T0 chains0 T chains p Hr) as Hp. destruct (Hp k t Hk) as [Hb Hh [[Hacc _] _ _ _]].
  pose proof (Hh address o Ho) as Eh. destruct (Hacc address o Ho) as [_ _ (Hs & Hv & Ha) Had]. unfold here in Eh.
  split; [done|]. split; [done|]. split; [done|]. split; [|split].
  - apply Forall_app. split; (eapply Forall_impl; [eassumption|]); by intros e ->.
  - eapply Forall_impl; [exact Hv|]. by intros e ->.
  - intros k' t' o' Hk' Ho'. destruct (Hp k' t' Hk') as [_ Hh' _]. pose proof (Hh' address o' Ho') as Eh'. unfold here in Eh'.
    assert (k' = k) as -> by congruence. rewrite Hk in Hk'. injection Hk' as <-. split; [done|]. split; [done|congruence].
Qed.
End PoolRun.

(** ** The timer *)

Section Timer.
Context `{TxEnv} `{TxVerify} `{XStringUtl}.

Lemma timer_places_spec f i j :
  0 <= f -> (i, j) ∈ timer_places f <-> 0 <= i < enum_xtxpool_table_type_max /\ 0 <= j < 256 /\ j / 16 = f mod 16.
Proof.
  intros Hf. unfold timer_places. rewrite list_elem_of_In, in_flat_map.
  assert (timer_begin f = 16 * (f mod 16)) as Eb.
  { unfold timer_begin, u32, traverse_table_num_once_per_time_fire. change enum_vbucket_has_tables_count with (16 * 16).
    rewrite Z.mod_mod_divide by (by exists (2 ^ 24)). rewrite (Z.mul_comm f 16). by rewrite Z.mul_mod_distr_l by lia. }
  assert (0 <= f mod 16 < 16) by by apply Z.mod_pos_bound. rewrite Eb. unfold traverse_table_num_once_per_time_fire. split.
  - intros (x & Hx & Hin). apply list_elem_of_In in Hx, Hin. apply elem_of_seqZ in Hx.
    apply list_elem_of_fmap in Hin as (y & [= -> ->] & Hy). apply elem_of_seqZ in Hy. split; [lia|]. split; [lia|].
    symmetry. apply (Z.div_unique y 16 (f mod 16) (y - 16 * (f mod 16))); lia.
  - intros (Hi & Hj & Ej). exists i. split; apply list_elem_of_In; [apply elem_of_seqZ; lia|].
    apply list_elem_of_fmap. exists j. split; [done|]. apply elem_of_seqZ. pose proof (Z.div_mod j 16). pose proof (Z.mod_pos_bound j 16). lia.
Qed.

Lemma timer_places_nodup f : NoDup (timer_places f).
Proof.
  unfold timer_places. generalize (NoDup_seqZ 0 enum_xtxpool_table_type_max). generalize (seqZ 0 enum_xtxpool_table_type_max) as m.
  induction m as [|i m IH]; cbn; [constructor|]. intros Hm. apply NoDup_cons in Hm as [Hi Hm]. apply NoDup_app. split_and!.
  - apply NoDup_fmap_2; [|apply NoDup_seqZ]. by intros x y [=].
  - intros [a b] Hx Hy. apply list_elem_of_fmap in Hx as (j & [= -> ->] & _). apply list_elem_of_In, in_flat_map in Hy as (i' & Hi' & Hy).
    apply list_elem_of_In, list_elem_of_fmap in Hy as (j' & [= <- _] & _). apply Hi. by apply list_elem_of_In.
  - by apply IH.
Qed.

(** What a run of visits leaves alone. *)
Record visit_frame (s s' : list (receipt * Z) * receiver_counter * txpool) : Prop := {
  vf_cover : m_table_cover_count s'.2 = m_table_cover_count s.2;
  vf_time : m_timer_fire_time s'.2 = m_timer_fire_time s.2;
  vf_tranceiver : m_receipt_tranceiver s'.2 = m_receipt_tranceiver s.2;
  vf_sent : exists l, s'.1.1 = s.1.1 ++ l
}.
#[local] Instance visit_frame_preorder : PreOrder visit_frame.
Proof.
  split; [by intros s; split; [..|exists []; rewrite app_nil_r]|]. intros x y z [? ? ? [l1 E1]] [? ? ? [l2 E2]].
  split; [congruence..|]. exists (l1 ++ l2). by rewrite E2, E1, app_assoc.
Qed.

Lemma timer_visit_frame envs k s : visit_frame s (timer_visit envs s k).
Proof.
  destruct s as [[sent c] p]. unfold timer_visit. cbv beta iota. destruct (m_txpool_tables p !! k) as [t|]; [|reflexivity].
  destruct (negb _); [|reflexivity]. destruct (tt_on_timer_check_cache _ _ _) as [[rs c1] t1]. split; try done. by exists rs.
Qed.
Lemma visits_frame envs ks s : visit_frame s (fold_left (timer_visit envs) ks s).
Proof.
  revert s. induction ks as [|k ks IH]; intros s; cbn [fold_left]; [reflexivity|]. etransitivity; [apply timer_visit_frame|apply IH].
Qed.

Lemma visit_other envs k k' s : k' <> k -> m_txpool_tables (timer_visit envs s k').2 !! k = m_txpool_tables s.2 !! k.
Proof.
  intros Hne. destruct s as [[sent c] p]. unfold timer_visit. cbv beta iota. destruct (m_txpool_tables p !! k') as [t|]; [|done].
  destruct (negb _); [|done]. destruct (tt_on_timer_check_cache _ _ _) as [[rs c1] t1]. cbn. by rewrite lookup_insert_ne.
Qed.
Lemma visits_other envs k ks s : k ∉ ks -> m_txpool_tables (fold_left (timer_visit envs) ks s).2 !! k = m_txpool_tables s.2 !! k.
Proof.
  revert s. induction ks as [|k' ks IH]; intros s; cbn [fold_left]; [done|]. rewrite not_elem_of_cons. intros [Hne Hk].
  rewrite IH by done. by apply visit_other.
Qed.

(** The check of a table, with the receipts it sends. *)
Definition table_checked (env : pool_env) (t t' : tx_table) (sent : list (receipt * Z)) : Prop :=
  exists counter counter' receipts, tt_on_timer_check_cache env counter t = (receipts, counter', t') /\
    forall r, r ∈ receipts -> r ∈ sent.

Lemma visits_checked envs k t ks s :
  NoDup ks -> k ∈ ks -> m_txpool_tables s.2 !! k = Some t -> cover_count k s.2 <> 0 ->
  let s' := fold_left (timer_visit envs) ks s in
  exists t', m_txpool_tables s'.2 !! k = Some t' /\ table_checked (envs k) t t' s'.1.1.
Proof.
  intros Hnd Hin. revert s. induction ks as [|k' ks IH]; intros s Ht Hc; [by apply elem_of_nil in Hin|].
  cbn [fold_left]. apply NoDup_cons in Hnd as [Hk' Hnd]. destruct (decide (k' = k)) as [->|Hne].
  - cbv zeta. rewrite visits_other by done. destruct (visits_frame envs ks (timer_visit envs s k)) as [_ _ _ [l El]]. rewrite El.
    destruct s as [[sent c] p]. unfold timer_visit. cbv beta iota. cbn [snd] in Ht, Hc. rewrite Ht.
    rewrite (proj2 (Z.eqb_neq _ _) Hc). cbn [negb]. destruct (tt_on_timer_check_cache (envs k) c t) as [[rs c1] t1] eqn:E.
    exists t1. cbn. rewrite lookup_insert_eq. split; [done|]. exists c, c1, rs. split; [done|].
    intros r Hr. rewrite !elem_of_app. by left; right.
  - apply elem_of_cons in Hin as [->|Hin]; [done|]. apply IH; [done|done| |].
    + by rewrite visit_other.
    + unfold cover_count in *. by rewrite (vf_cover _ _ (timer_visit_frame envs k' s)).
Qed.

Lemma pool_fire_frame envs p :
  m_receipt_tranceiver p = true ->
  let p' := (tp_on_timer_fire envs p).2 in
  m_receipt_tranceiver p' = true /\ m_table_cover_count p' = m_table_cover_count p /\
  m_timer_fire_time p' = u32 (m_timer_fire_time p + 1).
Proof.
  intros Hr. unfold tp_on_timer_fire. rewrite Hr.
  destruct (visits_frame envs (timer_places (m_timer_fire_time p)) ([], ∅, p)) as [Ec Et Er _].
  destruct (fold_left _ _ _) as [[sent c] p2]. cbn in *. split_and!; [congruence|done|by rewrite Et].
Qed.

(** One fire: the table is checked if its number is in the section of the fire. *)
Lemma fire_table envs p i j t :
  m_receipt_tranceiver p = true -> 0 <= m_timer_fire_time p ->
  0 <= i < enum_xtxpool_table_type_max -> 0 <= j < 256 ->
  m_txpool_tables p !! (i, j) = Some t -> cover_count (i, j) p <> 0 ->
  let '(sent, p') := tp_on_timer_fire envs p in
  if j / 16 =? m_timer_fire_time p mod 16
  then exists t', m_txpool_tables p' !! (i, j) = Some t' /\ table_checked (envs (i, j)) t t' sent
  else m_txpool_tables p' !! (i, j) = Some t.
Proof.
  intros Hr Hf Hi Hj Ht Hc. unfold tp_on_timer_fire. rewrite Hr. destruct (Z.eqb_spec (j / 16) (m_timer_fire_time p mod 16)) as [E|E].
  - destruct (visits_checked envs (i, j) t (timer_places (m_timer_fire_time p)) ([], ∅, p)) as (t' & Ht' & Hs);
      [apply timer_places_nodup|by apply timer_places_spec|done|done|].
    destruct (fold_left _ _ _) as [[sent c] p2]. by exists t'.
  - pose proof (visits_other envs (i, j) (timer_places (m_timer_fire_time p)) ([], ∅, p)) as Ho.
    destruct (fold_left _ _ _) as [[sent c] p2]. cbn [snd m_txpool_tables] in *. etransitivity; [apply Ho|done]. rewrite timer_places_spec by done. tauto.
Qed.

(** The pool before each of [n] fires, and what each sends. *)
Fixpoint fires (envs : nat -> table_place -> pool_env) (n : nat) (p : txpool) : txpool :=
  match n with
  | O => p
  | S n => (tp_on_timer_fire (envs n) (fires envs n p)).2
  end.
Definition fire_sends (envs : nat -> table_place -> pool_env) (n : nat) (p : txpool) : list (receipt * Z) :=
  (tp_on_timer_fire (envs n) (fires envs n p)).1.

Lemma fires_frame envs n p :
  m_receipt_tranceiver p = true -> 0 <= m_timer_fire_time p < 2 ^ 32 ->
  m_receipt_tranceiver (fires envs n p) = true /\ m_table_cover_count (fires envs n p) = m_table_cover_count p /\
  m_timer_fire_time (fires envs n p) = u32 (m_timer_fire_time p + Z.of_nat n).
Proof.
  intros Hr Hf. induction n as [|n (IH1 & IH2 & IH3)].
  - cbn. split_and!; [done|done|]. unfold u32. rewrite Z.add_0_r. by rewrite Z.mod_small.
  - cbn [fires]. destruct (pool_fire_frame (envs n) (fires envs n p) IH1) as (E1 & E2 & E3). split_and!; [done|congruence|].
    rewrite E3, IH3. unfold u32. rewrite Zplus_mod_idemp_l. f_equal. lia.
Qed.

(** C32. Every subscribed table is checked for receipts to resend exactly once in
    any sixteen fires of the timer, also when the 32-bit count of the fires wraps
    around in between: one of the fires runs the table's check and sends what it
    returns, the others leave the table alone. *)
Theorem timer_reaches_every_table envs p i j t :
  m_receipt_tranceiver p = true -> 0 <= m_timer_fire_time p < 2 ^ 32 ->
  0 <= i < enum_xtxpool_table_type_max -> 0 <= j < enum_vbucket_has_tables_count ->
  m_txpool_tables p !! (i, j) = Some t -> cover_count (i, j) p <> 0 ->
  exists n t', (n < 16)%nat /\ table_checked (envs n (i, j)) t t' (fire_sends envs n p) /\
    (forall m, (m <= n)%nat -> m_txpool_tables (fires envs m p) !! (i, j) = Some t) /\
    (forall m, (n < m <= 16)%nat -> m_txpool_tables (fires envs m p) !! (i, j) = Some t').
Proof.
  intros Hr Hf Hi Hj Ht Hc. change enum_vbucket_has_tables_count with 256 in Hj.
  set (f := m_timer_fire_time p) in *. set (n := Z.to_nat ((j / 16 - f) mod 16)).
  pose proof (Z.mod_pos_bound (j / 16 - f) 16) as Hn. assert (0 <= j / 16 < 16) as Hq by (split; [apply Z.div_pos; lia|apply Z.div_lt_upper_bound; lia]).
  assert (forall m, (j / 16 =? m_timer_fire_time (fires envs m p) mod 16) = bool_decide ((f + Z.of_nat m) mod 16 = j / 16)) as Hhit.
  { intros m. destruct (fires_frame envs m p Hr Hf) as (_ & _ & ->). unfold u32. rewrite Z.mod_mod_divide by (by exists (2 ^ 28)).
    fold f. destruct (Z.eqb_spec (j / 16) ((f + Z.of_nat m) mod 16)); [by rewrite bool_decide_eq_true_2|by rewrite bool_decide_eq_false_2]. }
  assert (forall m, (m < 16)%nat -> (f + Z.of_nat m) mod 16 = j / 16 <-> m = n) as Huniq.
  { intros m Hm. unfold n. split.
    - intros E. rewrite <- E. rewrite Zminus_mod_idemp_l. replace (f + Z.of_nat m - f) with (Z.of_nat m) by lia. rewrite Z.mod_small by lia. lia.
    - intros ->. rewrite Z2Nat.id by lia. rewrite Zplus_mod_idemp_r. replace (f + (j / 16 - f)) with (j / 16) by lia. by apply Z.mod_small. }
  assert (forall m t0, m_txpool_tables (fires envs m p) !! (i, j) = Some t0 ->
    if bool_decide ((f + Z.of_nat m) mod 16 = j / 16)
    then exists t', m_txpool_tables (fires envs (S m) p) !! (i, j) = Some t' /\ table_checked (envs m (i, j)) t0 t' (fire_sends envs m p)
    else m_txpool_tables (fires envs (S m) p) !! (i, j) = Some t0) as Hstep.
  { intros m t0 Hl. destruct (fires_frame envs m p Hr Hf) as (E1 & E2 & E3).
    pose proof (fire_table (envs m) (fires envs m p) i j t0 E1) as Hfire. rewrite Hhit in Hfire. cbn [fires]. unfold fire_sends.
    destruct (tp_on_timer_fire (envs m) (fires envs m p)) as [sent p']. cbn [fst snd]. apply Hfire; [|done|done|done|].
    - rewrite E3. unfold u32. by apply Z.mod_pos_bound.
    - unfold cover_count in *. by rewrite E2. }
  assert (n < 16)%nat as Hn16 by (unfold n; lia).
  assert (forall m, (m <= n)%nat -> m_txpool_tables (fires envs m p) !! (i, j) = Some t) as Hbefore.
  { induction m as [|m IH]; intros Hm; [done|]. specialize (Hstep m t (IH ltac:(lia))).
    rewrite bool_decide_eq_false_2 in Hstep; [done|]. rewrite Huniq by lia. lia. }
  pose proof (Hstep n t (Hbefore n (le_n n))) as Hat. rewrite bool_decide_eq_true_2 in Hat by by apply Huniq.
  destruct Hat as (t' & Ht' & Hs). exists n, t'. split; [done|]. split; [done|]. split; [done|].
  induction m as [|m IH]; [lia|]. intros [Hlt Hle]. destruct (decide (m = n)) as [->|Hne]; [done|].
  specialize (Hstep m t' (IH ltac:(lia))). rewrite bool_decide_eq_false_2 in Hstep; [done|]. rewrite Huniq by lia. lia.
Qed.
End Timer.
