(* ===== verification/TxPoolWitness.v ===== *)
(** * The theorems on the transaction pool at concrete inputs

    A node with one account [alice] that has an unconfirmed transfer and sends
    more, and a table whose first block consumed a receipt.  The library
    functions are instantiated: the hash by the length, the string conversions
    by digits of fixed width. *)

From stdpp Require Import prelude gmap strings.
From Stdlib Require Import ZArith Lia Ascii.
From S2P Require Import Prelude StdMap StoreBlock AccountAddr TxData AccountObj AccountSpec AccountWf AccountRefine AccountProps RecvCache.
From S2P Require Import RecvCacheFacts RecvCacheProps UnconfirmCache UnconfirmProps TxTable TableFacts TableProps TableSafety TxPool TxPoolProps.

(** ** Digits of fixed width *)

Definition digit_chars : list ascii := String.list_ascii_of_string "0123456789abcdef".
Definition digit_char (d : Z) : ascii := nth (Z.to_nat d) digit_chars "0"%char.
Definition char_digit (c : ascii) : Z :=
  let n := Z.of_nat (nat_of_ascii c) in if n <? 58 then n - 48 else n - 87.

Fixpoint digits (b : Z) (w : nat) (n : Z) : list ascii :=
  match w with O => [] | S w => digits b w (n / b) ++ [digit_char (n mod b)] end.
Definition undigits (b : Z) (l : list ascii) : Z := foldl (fun v c => v * b + char_digit c) 0 l.

Lemma char_digit_char d : 0 <= d < 16 -> char_digit (digit_char d) = d /\ digit_char d <> at_char.
Proof.
  intros Hd. assert (Forall (fun d => char_digit (digit_char d) = d /\ digit_char d <> at_char) (seqZ 0 16)) as Hf
    by (repeat constructor; done).
  rewrite Forall_forall in Hf. apply Hf, elem_of_seqZ. lia.
Qed.

Lemma undigits_digits b w n : 1 < b <= 16 -> 0 <= n < b ^ Z.of_nat w -> undigits b (digits b w n) = n.
Proof.
  intros Hb. revert n. induction w as [|w IH]; intros n Hn; cbn [digits]; [cbn in *; lia|].
  unfold undigits in *. rewrite foldl_app. cbn [foldl]. rewrite IH.
  - destruct (char_digit_char (n mod b)) as [-> _]; [pose proof (Z.mod_pos_bound n b); lia|]. pose proof (Z.div_mod n b). lia.
  - rewrite Nat2Z.inj_succ, Z.pow_succ_r in Hn by lia. split; [apply Z.div_pos; lia|apply Z.div_lt_upper_bound; lia].
Qed.
Lemma digits_no_at b w n : 1 < b <= 16 -> at_char ∉ digits b w n.
Proof.
  intros Hb. revert n. induction w as [|w IH]; intros n; cbn [digits]; [apply not_elem_of_nil|].
  rewrite not_elem_of_app, list_elem_of_singleton. split; [apply IH|]. intros E.
  destruct (char_digit_char (n mod b)) as [_ Hne]; [pose proof (Z.mod_pos_bound n b); lia|]. by symmetry in E.
Qed.
Lemma length_digits b w n : length (digits b w n) = w.
Proof. revert n. induction w as [|w IH]; intros n; cbn; [done|]. rewrite length_app, IH. cbn. lia. Qed.

#[export] Instance wit_strings : XStringUtl := {
  xhash64_digest s := Z.of_nat (String.length s);
  xtostring n := String.string_of_list_ascii (digits 10 5 n);
  toint32 s := undigits 10 (String.list_ascii_of_string s);
  uint642hex n := String.string_of_list_ascii (digits 16 4 n);
  hex2uint64 s := undigits 16 (String.list_ascii_of_string s)
}.

Lemma string_of_list_length l : String.length (String.string_of_list_ascii l) = length l.
Proof. induction l; cbn; congruence. Qed.

#[export] Instance wit_string_laws : XStringLaws.
Proof.
  split.
  - intros n Hn. cbn [xtostring toint32 wit_strings]. rewrite String.list_ascii_of_string_of_list_ascii. apply (undigits_digits 10 5); lia.
  - intros n Hn. unfold has_char. cbn [xtostring wit_strings]. rewrite String.list_ascii_of_string_of_list_ascii.
    apply bool_decide_eq_false_2, digits_no_at. lia.
  - intros n Hn. unfold has_char. cbn [uint642hex wit_strings]. rewrite String.list_ascii_of_string_of_list_ascii.
    apply bool_decide_eq_false_2, digits_no_at. lia.
  - intros n Hn. unfold str_size. cbn [uint642hex wit_strings]. rewrite string_of_list_length, length_digits. lia.
  - intros n Hn. unfold pad4, str_size. cbn [uint642hex wit_strings]. rewrite string_of_list_length, length_digits.
    change (Z.of_nat 4 <? 4) with false. cbv iota. cbn [hex2uint64 wit_strings].
    rewrite String.list_ascii_of_string_of_list_ascii. apply (undigits_digits 16 4); lia.
Qed.

Lemma account_address_round_trip_witness :
  let a := make_account_address_zone 97 0 1 12 3 "00000000000000000000" in
  get_vledger_zone_index (get_xid_from_account a) = 1 /\
  get_book_index_from_subaddr (get_vledger_subaddr (get_xid_from_account a)) = 12 /\
  get_table_index_from_subaddr (get_vledger_subaddr (get_xid_from_account a)) = 3.
Proof.
  destruct (account_address_round_trip 97 0 1 12 3 "00000000000000000000") as [Ha _]; [lia..|].
  destruct Ha as (_ & _ & Hz & _ & Hb & Ht); [by vm_compute|]. exact (conj Hz (conj Hb Ht)).
Defined.

(** ** Transactions *)

#[export] Instance wit_txenv : TxEnv := {
  xxh64_digest s := Z.of_nat (String.length s);
  account_send_queue_tx_max_num := 16;
  unitblock_confirm_tx_batch_num := 4;
  unitblock_recv_transfer_tx_batch_num := 4;
  unitblock_send_transfer_tx_batch_num := 4;
  tableblock_batch_tx_max_num := 10;
  tableblock_batch_unitblock_max_num := 4;
  tx_send_timestamp_tolerance := 300
}.
#[export] Instance wit_verify : TxVerify := {
  verify_send_tx_validation _ := xsuccess;
  verify_send_tx_legitimacy _ := xsuccess;
  digest_check _ := true;
  verify_cons_transaction _ := true;
  has_commit_prove _ := true;
  verify_muti_sign _ := true;
  is_sys_contract_address _ := false
}.

(** Two transfers of [alice] and a receipt for [bob]. *)
Definition wit_tx0 : xtransaction := XTransaction xtransaction_type_transfer 100 1000 0 32 "t0" "alice" "bob" enum_transaction_subtype_send 1000 0.
Definition wit_tx1 : xtransaction := XTransaction xtransaction_type_transfer 100 1000 1 2 "t01" "alice" "bob" enum_transaction_subtype_send 1000 0.
Definition wit_receipt : xtransaction := XTransaction xtransaction_type_transfer 100 1000 0 0 "r2" "carol" "bob" enum_transaction_subtype_recv 1000 8.

Definition wit_ops : list account_op := [OpPushSend wit_tx0; OpPushSend wit_tx1].
Definition wit_queue : aqueue := (run_spec wit_ops (empty_queue "alice" 0 uint256_zero)).2.
Definition wit_account : acct := (run_account wit_ops (Acct (new_accountobj "alice" 0 uint256_zero) (i32 0))).2.

Lemma wit_ops_ok : Forall op_ok wit_ops.
Proof. repeat (constructor; [by vm_compute|]). constructor. Qed.
Lemma wit_ops_chained : chained_run wit_ops (empty_queue "alice" 0 uint256_zero).
Proof. split; [intros Hp; vm_compute in Hp; lia|]. split; [|done]. intros Hp. vm_compute in Hp. lia. Qed.

Lemma account_refines_queue_witness :
  represents 0 wit_queue wit_account /\ queue_wf wit_queue /\ q_sends wit_queue = [wit_tx0; wit_tx1].
Proof.
  pose proof (account_refines_queue 0 "alice" 0 uint256_zero wit_ops) as Hr.
  assert (is_u64 0) as H0 by (unfold is_u64; lia). specialize (Hr H0 wit_ops_ok).
  unfold wit_queue, wit_account. destruct (run_account wit_ops _) as [rs a], (run_spec wit_ops _) as [rs' s] eqn:Es.
  destruct Hr as (_ & Hr & Hw). split; [exact Hr|]. split; [exact Hw|]. cbn [snd].
  change s with (rs', s).2. rewrite <- Es. by vm_compute.
Defined.

Lemma leader_batch_passes_backup_witness : nonces_continous 0 uint256_zero [wit_tx0; wit_tx1] = true.
Proof.
  destruct (leader_batch_passes_backup 0 "alice" 0 uint256_zero wit_ops 0 uint256_zero [wit_tx0; wit_tx1] wit_account) as (_ & _ & Hb);
    [unfold is_u64; lia|exact wit_ops_ok|exact wit_ops_chained|unfold is_u64; lia|by intros _; vm_compute|by vm_compute|].
  apply Hb; by vm_compute.
Defined.

(** ** Consumed receipts *)

Definition wit_block (h clock : Z) (d : string) : table_block :=
  TableBlock h true [TableUnit enum_xvblock_class_light [RecvInfo true clock "bob" d]].
Definition wit_chain (h : Z) : option table_block :=
  if h =? 1 then Some (wit_block 1 5 "r1") else if h =? 2 then Some (wit_block 2 6 "r3") else None.
Definition wit_cache_env : cache_env := CacheEnv wit_chain (Some (wit_block 1 5 "r1")) 1000 100.
Definition wit_cache : recv_cache := (update_tx_cache wit_cache_env (wit_block 1 5 "r1") new_recv_cache).1.

Lemma wit_chain_wf : chain_wf wit_chain.
Proof.
  intros h b. unfold wit_chain. destruct (Z.eqb_spec h 1) as [->|]; [intros [= <-]; by vm_compute|].
  destruct (Z.eqb_spec h 2) as [->|]; [intros [= <-]; by vm_compute|done].
Qed.
Lemma wit_cache_env_ok T : T <= 100 -> env_ok wit_chain 1000 T wit_cache_env.
Proof. intros HT. split; [done| |done|exact HT]. cbn. by intros b [= <-]. Qed.
Lemma wit_cache_reached : rtc (cache_step wit_chain 1000) (0, new_recv_cache) (100, wit_cache).
Proof.
  apply rtc_once. apply (step_update wit_chain 1000 0 new_recv_cache wit_cache_env (wit_block 1 5 "r1")); [by apply wit_cache_env_ok|done|cbn; lia|].
  cbn. by intros _ ?.
Qed.

Lemma receipt_check_correct_witness :
  (is_receipt_duplicated wit_cache_env 5 "r1" MAX_HEIGHT wit_cache).1 = xtxpool_error_sendtx_receipt_duplicate /\
  exists h b, wit_chain h = Some b /\ consumes b 5 "r1".
Proof.
  destruct (is_receipt_duplicated wit_cache_env 5 "r1" MAX_HEIGHT wit_cache) as [ret [c out]] eqn:E.
  assert (ret = xtxpool_error_sendtx_receipt_duplicate) as Hret by (apply (f_equal fst) in E; cbn [fst] in E; by rewrite <- E).
  destruct (receipt_check_correct wit_chain 1000 wit_chain_wf 100 wit_cache wit_cache_env 5 "r1" MAX_HEIGHT ret c out
    wit_cache_reached (wit_cache_env_ok 100 ltac:(lia))) as (Hd & _); [unfold MAX_HEIGHT; lia|by intros Hl; vm_compute in Hl|exact E|].
  split; [exact Hret|exact (Hd Hret)].
Defined.

Lemma old_receipt_missed_witness :
  exists c', is_receipt_duplicated wit_cache_env 1 "r0" 1 wit_cache = (xsuccess, (c', [])).
Proof.
  destruct (old_receipt_missed wit_cache_env 1 "r0" 1 wit_cache) as (c' & E & _);
    [by vm_compute|by vm_compute|by vm_compute|by right; vm_compute|by vm_compute|by vm_compute|]. exists c'. exact E.
Defined.

(** The genesis block cached, block 2 the latest: the receipt block 1 consumed is passed. *)
Definition wit_gap_env : cache_env := CacheEnv wit_chain (Some (wit_block 2 6 "r3")) 1000 100.
Definition wit_genesis_cache : recv_cache :=
  (is_receipt_duplicated (CacheEnv (fun _ => None) (Some (TableBlock 0 true [])) 1000 100) 7 "r7" MAX_HEIGHT new_recv_cache).2.1.
Lemma genesis_gap_passes_witness :
  (exists b, wit_chain 1 = Some b /\ consumes b 5 "r1") /\
  exists c' out, is_receipt_duplicated wit_gap_env 5 "r1" MAX_HEIGHT wit_genesis_cache = (xsuccess, (c', out)) /\
    m_min_cache_block_height c' = 0 /\ m_max_cache_block_height c' = 2.
Proof.
  split.
  - exists (wit_block 1 5 "r1"). split; [done|]. eexists _, _. split; [by left|]. split; [done|]. split; [by left|done].
  - destruct (genesis_gap_passes wit_gap_env 5 "r1" (wit_block 2 6 "r3") wit_genesis_cache) as (c' & out & E & E1 & E2 & _);
      [done|done|done|done|by vm_compute|by vm_compute|by vm_compute| |].
    + intros (u & tx & Hu & _ & Htx & _ & Hc & _). apply list_elem_of_singleton in Hu as ->.
      apply list_elem_of_singleton in Htx as ->. done.
    + by exists c', out.
Defined.

(** ** Unconfirmed receipts *)

Definition wit_unit : lunit :=
  LUnit 1 enum_xvblock_class_light true [LUnitTx "s0" enum_transaction_subtype_send "alice"] 1 true 500 10.
Definition wit_chains (ad : string) : list lunit := if decide (ad = "alice") then [wit_unit] else [].
Definition wit_genesis : lunit := LUnit 0 enum_xvblock_class_nil true [] 0 true 0 0.
Definition wit_unit_env : unit_env :=
  UnitEnv (fun ad => Some (default wit_genesis (head (wit_chains ad)))) (fun ad h => unit_at (wit_chains ad) h) 1000 100.

Lemma wit_chain_ok : unit_chain [wit_unit].
Proof. 
  apply chain_light; [constructor|done|done|by vm_compute|..].
  - cbn. apply NoDup_singleton.
  - intros d _. cbn. set_solver.
  - cbn. constructor.
  - intros d Hd. cbn in Hd. by apply elem_of_nil in Hd.
  - by vm_compute.
Qed.
Lemma wit_store_ok ad : store_ok wit_chains wit_unit_env ad.
Proof.
  unfold wit_unit_env. split; unfold wit_chains; cbn [ue_latest ue_load]; unfold wit_chains.
  - destruct (decide (ad = "alice")); [apply wit_chain_ok|constructor].
  - destruct (decide (ad = "alice")); [done|]. by intros v [= <-].
  - done.
  - by destruct (decide (ad = "alice")).
Qed.

Lemma unconfirm_cache_exact_witness :
  exists ret u', has_txhash_receipt wit_unit_env "alice" "s0" 600 0 new_unconfirm_cache = Some (ret, u') /\
    ret = xtxpool_error_unconfirm_sendtx_exist.
Proof.
  destruct (unconfirm_cache_exact wit_chains wit_chains new_unconfirm_cache wit_unit_env "alice" "s0" 600 0) as (ret & u' & E & He & _);
    [reflexivity|apply wit_store_ok|done|by left|].
  exists ret, u'. split; [exact E|]. apply He. by vm_compute.
Defined.

Definition wit_unconfirm : unconfirm_cache :=
  match check_and_update_cache wit_unit_env "alice" 600 0 new_unconfirm_cache with Some (_, u) => u | None => new_unconfirm_cache end.

Lemma timer_sends_due_receipts_witness :
  Z.of_nat (length (on_timer_check_cache wit_unit_env 700 ∅ wit_unconfirm).1.1) <= MAX_ONCE_PROCESS_RETRY_SENDTX_RECEIPT /\
  (on_timer_check_cache wit_unit_env 700 ∅ wit_unconfirm).1.1 <> [].
Proof.
  destruct (on_timer_check_cache wit_unit_env 700 ∅ wit_unconfirm) as [[rs c] u'] eqn:E.
  destruct (timer_sends_due_receipts wit_chains wit_chains wit_unconfirm wit_unit_env 700 ∅ rs c u') as (Hl & _); [|exact E|].
  - apply rtc_once. apply (us_check wit_chains new_unconfirm_cache wit_unit_env "alice" 600 0 xsuccess); [apply wit_store_ok|by vm_compute].
  - split; [exact Hl|]. change rs with (rs, c, u').1.1. rewrite <- E. by vm_compute.
Defined.

(** ** A table *)

Definition wit_pool_env : pool_env :=
  PoolEnv 1000 wit_cache_env wit_unit_env (fun ad => if decide (ad = "alice" \/ ad = "bob") then Some (0, uint256_zero) else None) None (fun _ => true).

Lemma wit_pool_env_ok T t :
  T <= 100 -> no_gap wit_cache_env (m_consensused_recvtx_cache t) -> pool_env_ok wit_chain 1000 T wit_chains wit_pool_env t.
Proof.
  intros HT Hg. split; [by apply wit_cache_env_ok|done|apply wit_store_ok|].
  cbn. intros ad n h. destruct (decide (ad = "alice" \/ ad = "bob")); [|done]. intros [= <- _]. unfold is_u64. lia.
Qed.
Lemma new_cache_no_gap : no_gap wit_cache_env (m_consensused_recvtx_cache new_tx_table).
Proof. by intros _ Hm. Qed.

(** [alice] has two transfers waiting, in [wit_locked] also [bob] a receipt; an
    uncommitted block there holds a unit of [alice]. *)
Definition wit_table0 : tx_table := (tt_push_send_tx wit_pool_env wit_tx0 new_tx_table).2.
Definition wit_table : tx_table := (tt_push_send_tx wit_pool_env wit_tx1 wit_table0).2.
Lemma wit_table_reached : rtc (table_step wit_chain 1000) (0, wit_chains, new_tx_table) (100, wit_chains, wit_table).
Proof.
  apply (rtc_l _ _ (100, wit_chains, wit_table0)); [|apply rtc_once].
  - apply (ts_run wit_chain 1000 0 wit_chains new_tx_table wit_pool_env (TPushSend wit_tx0) wit_table0); [|done|done].
    by apply wit_pool_env_ok; [|apply new_cache_no_gap].
  - apply (ts_run wit_chain 1000 100 wit_chains wit_table0 wit_pool_env (TPushSend wit_tx1) wit_table); [|done|done].
    apply wit_pool_env_ok; [done|]. by intros _ Hm; vm_compute in Hm.
Qed.
Lemma wit_table_no_gap : no_gap wit_cache_env (m_consensused_recvtx_cache wit_table).
Proof. by intros _ Hm; vm_compute in Hm. Qed.

Lemma table_well_typed_witness : m_send_tx_num wit_table = 2 /\ m_send_tx_num wit_table = i32 (send_total (m_waiting_accounts wit_table)).
Proof.
  destruct (table_well_typed wit_chain 1000 wit_chain_wf 0 wit_chains 100 wit_chains wit_table wit_table_reached) as [Hc _].
  split; [by vm_compute|exact Hc].
Defined.

(** A confirmation, a receipt and the two transfers in one batch. *)
Definition wit_confirm : xtransaction :=
  XTransaction xtransaction_type_transfer 100 1000 0 0 "s0" "alice" "bob" enum_transaction_subtype_confirm 1000 8.
Definition wit_batch : list xtransaction := [wit_confirm; wit_tx0; wit_receipt; wit_tx1].

Lemma verified_batch_valid_witness :
  (fst <$> verify_txs wit_pool_env 1 1 wit_batch 0 uint256_zero wit_table) = Some xsuccess /\
  follow_each_other 0 uint256_zero [wit_tx0; wit_tx1] /\ "s0" ∈ outstanding (wit_chains "alice") /\
  forall b, wit_chain 1 = Some b -> ~ consumes b 8 "r2".
Proof.
  destruct (verified_batch_valid wit_chain 1000 wit_chain_wf 0 wit_chains 100 wit_chains wit_table wit_pool_env 1 1 wit_batch 0 uint256_zero
    wit_table_reached (wit_pool_env_ok 100 wit_table ltac:(lia) wit_table_no_gap)) as (ret & t' & E & Hv); [unfold MAX_HEIGHT; lia|].
  assert (Es : (fst <$> verify_txs wit_pool_env 1 1 wit_batch 0 uint256_zero wit_table) = Some xsuccess) by by vm_compute.
  split; [exact Es|]. rewrite E in Es. injection Es as Er. destruct (Hv Er) as [Hf Htx]. split; [exact Hf|].
  split.
  - destruct (Htx wit_confirm) as (_ & Hc & _); [by left|]. by apply Hc.
  - intros b Hb. destruct (Htx wit_receipt) as (_ & _ & Hr); [right; right; by left|].
    destruct (Hr eq_refl) as (_ & lo & _ & Hlo & Hn). apply (Hn 1 b); [|exact Hb]. split; [by apply Hlo|lia].
Defined.

Definition wit_cert : lock_block := LockBlock false enum_xvblock_class_light 3 ["alice"].
Definition wit_lock : lock_block := LockBlock true enum_xvblock_class_light 2 ["bob"].
Definition wit_waiting : tx_table :=
  match tt_push_recv_tx wit_pool_env wit_receipt wit_table with Some (_, t) => t | None => wit_table end.
Definition wit_locked : tx_table := update_lock_blocks wit_cert wit_lock wit_waiting.
Lemma wit_waiting_reached : rtc (table_step wit_chain 1000) (0, wit_chains, new_tx_table) (100, wit_chains, wit_waiting).
Proof.
  eapply rtc_r; [exact wit_table_reached|].
  apply (ts_run wit_chain 1000 100 wit_chains wit_table wit_pool_env (TPushRecv wit_receipt) wit_waiting); [|done|].
  - apply wit_pool_env_ok; [done|]. exact wit_table_no_gap.
  - by vm_compute.
Qed.
Lemma wit_waiting_no_gap : no_gap wit_cache_env (m_consensused_recvtx_cache wit_waiting).
Proof. by intros Hm; vm_compute in Hm. Qed.
Lemma wit_locked_reached : rtc (table_step wit_chain 1000) (0, wit_chains, new_tx_table) (100, wit_chains, wit_locked).
Proof.
  eapply rtc_r; [exact wit_waiting_reached|].
  apply (ts_run wit_chain 1000 100 wit_chains wit_waiting wit_pool_env (TLock wit_cert wit_lock) wit_locked); [|done|done].
  apply wit_pool_env_ok; [done|]. exact wit_waiting_no_gap.
Qed.

(** The batch of [bob] is taken, with its receipt; [alice], whose unit is not committed, is passed over. *)
Lemma leader_batches_valid_witness :
  (fst <$> get_txs wit_pool_env 1 4 ["alice"; "bob"] id wit_locked) = Some [("bob", [wit_receipt])] /\
  uncommitted wit_cert /\ "bob" ∉ lb_accounts wit_cert /\ forall b, wit_chain 1 = Some b -> ~ consumes b 8 "r2".
Proof.
  assert (Ev : (fst <$> get_txs wit_pool_env 1 4 ["alice"; "bob"] id wit_locked) = Some [("bob", [wit_receipt])]) by by vm_compute.
  split; [exact Ev|]. assert (uncommitted wit_cert) as Hu by by split. split; [exact Hu|].
  destruct (get_txs wit_pool_env 1 4 ["alice"; "bob"] id wit_locked) as [[m t']|] eqn:E; [|done].
  injection Ev as ->.
  destruct (leader_batches_valid wit_chain 1000 wit_chain_wf 0 wit_chains 100 wit_chains wit_locked wit_pool_env 1 4 ["alice"; "bob"] id
    [("bob", [wit_receipt])] t' wit_locked_reached (wit_pool_env_ok 100 wit_locked ltac:(lia) wit_waiting_no_gap)
    ltac:(unfold MAX_HEIGHT; lia) ltac:(done) E "bob" [wit_receipt]) as (Hl & _ & _ & Hr); [by left|].
  split.
  - apply (Hl wit_cert wit_lock); [|by left|exact Hu]. exists 0, wit_chains, 100, wit_chains, wit_waiting.
    split; [exact wit_waiting_reached|]. apply rtc_refl.
  - intros b Hb. destruct (Hr wit_receipt) as [_ Hv]; [by left|].
    destruct (Hv eq_refl) as (_ & lo & _ & Hlo & Hn). apply (Hn 1 b); [|exact Hb]. split; [by apply Hlo|lia].
Defined.

(** [bob] has a receipt waiting and the next block, not cached, consumed another. *)
Definition wit_held : tx_table :=
  match tt_push_recv_tx wit_pool_env wit_receipt (set_recvtx_cache wit_cache new_tx_table) with Some (_, t) => t | None => new_tx_table end.

Lemma leader_check_deadlocks_witness :
  (exists o, m_waiting_accounts wit_held !! "bob" = Some o) /\ tt_get_account_txs wit_pool_env "bob" 2 0 0 uint256_zero 1000 wit_held = None.
Proof.
  destruct (m_waiting_accounts wit_held !! "bob") as [o|] eqn:Eo; [|by vm_compute in Eo]. split; [by exists o|].
  destruct (get_cons_txs 0 uint256_zero (clear_invalid_send_tx 1000 (Acct o (m_send_tx_num wit_held)))) as [txs a] eqn:Eg.
  assert (Some o = m_waiting_accounts wit_held !! "bob") as Eo' by by rewrite Eo.
  assert (txs = [wit_receipt]) as Etx.
  { assert ((fun o => (get_cons_txs 0 uint256_zero (clear_invalid_send_tx 1000 (Acct o (m_send_tx_num wit_held)))).1) <$>
      m_waiting_accounts wit_held !! "bob" = Some [wit_receipt]) as Ev by by vm_compute.
    rewrite Eo in Ev. cbn [fmap option_fmap option_map] in Ev. rewrite Eg in Ev. cbn [fst] in Ev. by injection Ev as ->. }
  subst txs.
  apply (leader_check_deadlocks wit_pool_env "bob" o 2 0 0 uint256_zero 1000 wit_held wit_receipt [] a (wit_block 2 6 "r3"));
    [exact Eo|exact Eg|done|by vm_compute|by vm_compute|by vm_compute|by vm_compute|done|done| |by vm_compute].
  exists 6, "r3". exists (TableUnit enum_xvblock_class_light [RecvInfo true 6 "bob" "r3"]), (RecvInfo true 6 "bob" "r3").
  split; [by left|]. split; [done|]. split; [by left|done].
Defined.

(** ** The pool *)

Definition wit_place_chain (k : table_place) (h : Z) : option table_block := wit_chain h.
Lemma wit_place_chain_wf k : chain_wf (wit_place_chain k).
Proof. exact wit_chain_wf. Qed.
Definition wit_pool : txpool :=
  match tp_push_send_tx wit_pool_env wit_tx0 new_txpool with Some (_, p) => p | None => new_txpool end.

Lemma wit_pool_reached : rtc (pool_step wit_place_chain 1000) (0, wit_chains, new_txpool) (100, wit_chains, wit_pool).
Proof.
  apply rtc_once. apply (ps_run _ _ 0 100 wit_chains new_txpool (fun _ => wit_pool_env) (PPushSend wit_tx0)).
  - split; [split; [lia|done]| |]; [intros k t Hl; cbn in Hl; by rewrite lookup_empty in Hl|].
    intros k. by apply wit_pool_env_ok; [|apply new_cache_no_gap].
  - intros t p1 _. by vm_compute.
  - by vm_compute.
Qed.

Lemma pool_one_object_per_account_witness :
  exists t o, m_txpool_tables wit_pool !! ((0, 0) : table_place) = Some t /\ m_waiting_accounts t !! "alice" = Some o /\
    (0, 0) = place_of_addr "alice" /\ m_address o = "alice".
Proof.
  destruct (m_txpool_tables wit_pool !! ((0, 0) : table_place)) as [t|] eqn:Et; [|by vm_compute in Et].
  destruct (m_waiting_accounts t !! "alice") as [o|] eqn:Eo.
  - destruct (pool_one_object_per_account wit_place_chain 1000 wit_place_chain_wf 0 wit_chains 100 wit_chains wit_pool (0, 0) t "alice" o
      wit_pool_reached Et Eo) as (_ & Hk & Ha & _). exists t, o. exact (conj eq_refl (conj Eo (conj Hk Ha))).
  - exfalso. assert ((fun t => m_waiting_accounts t !! "alice") <$> m_txpool_tables wit_pool !! ((0, 0) : table_place) = Some None) as E
      by (rewrite Et; cbn; by rewrite Eo). by vm_compute in E.
Defined.

(** The count of fires is about to wrap around. *)
Definition wit_timer_pool : txpool :=
  TxPool {[ ((0, 37) : table_place) := wit_table ]} {[ ((0, 37) : table_place) := 1 ]} (2 ^ 32 - 1) true.

Lemma timer_reaches_every_table_witness :
  exists n, (n < 16)%nat /\ forall m, (m <= n)%nat ->
    m_txpool_tables (fires (fun _ _ => wit_pool_env) m wit_timer_pool) !! ((0, 37) : table_place) = Some wit_table.
Proof.
  destruct (timer_reaches_every_table (fun _ _ => wit_pool_env) wit_timer_pool 0 37 wit_table) as (n & t' & Hn & _ & Hb & _);
    [done|cbn; lia|done|done|exact (lookup_singleton_eq (K := table_place) _ _)|by vm_compute|].
  exists n. exact (conj Hn Hb).
Defined.
