(* ===== verification/StdNum.v ===== *)
(** * Numbers as decimal strings: [std::to_string] and [std::stoull]

    Account properties keep counters as decimal strings.  [stoull] skips white
    space, takes an optional sign and reads digits up to the first character
    that is none; it throws ([None]) when there is no digit or the value leaves
    64 bits. *)

From stdpp Require Import prelude strings pretty.
From Stdlib Require Import ZArith Lia Ascii.
From S2P Require Import Prelude.
Open Scope Z_scope.

Definition to_string (n : Z) : string := pretty (Z.to_N n).

Definition digit_value (c : ascii) : option Z :=
  let v := Z.of_N (N_of_ascii c) - 48 in
  if (0 <=? v) && (v <? 10) then Some v else None.

(** The value of the digits in front and whether there was one. *)
Fixpoint read_digits (acc : Z) (seen : bool) (s : string) : Z * bool :=
  match s with
  | String c s' =>
      match digit_value c with
      | Some d => read_digits (acc * 10 + d) true s'
      | None => (acc, seen)
      end
  | EmptyString => (acc, seen)
  end.

Definition is_space (c : ascii) : bool :=
  let v := Z.of_N (N_of_ascii c) in (v =? 32) || ((9 <=? v) && (v <=? 13)).

Fixpoint skip_spaces (s : string) : string :=
  match s with
  | String c s' => if is_space c then skip_spaces s' else s
  | EmptyString => s
  end.

Definition stoull (s : string) : option Z :=
  let s := skip_spaces s in
  let '(neg, s) :=
    match s with
    | String c s' => if Ascii.eqb c "-" then (true, s') else if Ascii.eqb c "+" then (false, s') else (false, s)
    | EmptyString => (false, s)
    end in
  let '(n, seen) := read_digits 0 false s in
  if seen && (n <? 2 ^ 64) then Some (if neg then u64 (- n) else n) else None.

(** ** Reading back what was printed *)

(** The ten digits, one case each. *)
Ltac each_digit d Hd :=
  assert (d = 0 \/ d = 1 \/ d = 2 \/ d = 3 \/ d = 4 \/ d = 5 \/ d = 6 \/ d = 7 \/ d = 8 \/ d = 9)%N as Hin by lia;
  destruct_or! Hin; subst d.

Lemma pretty_N_char_digit d : (d < 10)%N -> digit_value (pretty_N_char d) = Some (Z.of_N d).
Proof. intros Hd. each_digit d Hd; reflexivity. Qed.

Lemma read_digits_go x : forall (s : string) seen, (0 < x)%N ->
  read_digits 0 seen (pretty_N_go x s) = read_digits (Z.of_N x) true s.
Proof.
  induction x as [x IH] using (well_founded_induction N.lt_wf_0). intros s seen Hx.
  rewrite pretty_N_go_step by done.
  assert (x mod 10 < 10)%N as Hm by (apply N.mod_lt; lia).
  assert (x = 10 * (x / 10) + x mod 10)%N as Hd by (apply N.div_mod; lia).
  revert Hm Hd. generalize (x / 10)%N (x mod 10)%N. intros q r Hm Hd.
  destruct (N.eq_0_gt_0_cases q) as [E|E].
  - rewrite E, pretty_N_go_0. cbn [read_digits]. rewrite pretty_N_char_digit by done. f_equal; lia.
  - rewrite IH by lia. cbn [read_digits]. rewrite pretty_N_char_digit by done. f_equal; lia.
Qed.

Lemma read_digits_pretty (n : N) : read_digits 0 false (pretty n) = (Z.of_N n, true).
Proof.
  unfold pretty, pretty_N. destruct (decide (n = 0%N)) as [->|Hn]; [reflexivity|].
  rewrite read_digits_go by lia. reflexivity.
Qed.

(** The first character of a printed number is a digit. *)
Lemma pretty_N_go_head x : forall (s : string), (0 < x)%N ->
  exists d s', (d < 10)%N /\ pretty_N_go x s = String (pretty_N_char d) s'.
Proof.
  induction x as [x IH] using (well_founded_induction N.lt_wf_0). intros s Hx.
  rewrite pretty_N_go_step by done.
  assert (x mod 10 < 10)%N as Hm by (apply N.mod_lt; lia).
  assert (x = 10 * (x / 10) + x mod 10)%N as Hd by (apply N.div_mod; lia).
  revert Hm Hd. generalize (x / 10)%N (x mod 10)%N. intros q r Hm Hd.
  destruct (N.eq_0_gt_0_cases q) as [E|E].
  - rewrite E, pretty_N_go_0. eauto.
  - apply IH; lia.
Qed.

Lemma pretty_head (n : N) : exists d s', (d < 10)%N /\ pretty n = String (pretty_N_char d) s'.
Proof.
  unfold pretty, pretty_N. destruct (decide (n = 0%N)); [|apply pretty_N_go_head; lia].
  exists 0%N. eexists. split; [lia|reflexivity].
Qed.

Lemma stoull_to_string n : is_u64 n -> stoull (to_string n) = Some n.
Proof.
  unfold is_u64, to_string. intros Hn. pose proof (read_digits_pretty (Z.to_N n)) as Hr.
  destruct (pretty_head (Z.to_N n)) as (d & s' & Hd & E). rewrite E in Hr |- *. unfold stoull.
  assert (is_space (pretty_N_char d) = false /\ Ascii.eqb (pretty_N_char d) "-" = false
          /\ Ascii.eqb (pretty_N_char d) "+" = false) as (H1 & H2 & H3).
  { clear -Hd. each_digit d Hd; done. }
  cbn [skip_spaces]. rewrite H1, H2, H3, Hr. cbn [andb].
  rewrite Z2N.id by lia. destruct (Z.ltb_spec n (2 ^ 64)); [done|lia].
Qed.

Lemma to_string_nonempty n : to_string n <> EmptyString.
Proof. unfold to_string. destruct (pretty_head (Z.to_N n)) as (d & s' & _ & ->). done. Qed.

Lemma to_string_inj a b : is_u64 a -> is_u64 b -> to_string a = to_string b -> a = b.
Proof. intros Ha Hb E. apply (inj Some). by rewrite <- (stoull_to_string a Ha), <- (stoull_to_string b Hb), E. Qed.

(** What is read is a 64-bit number. *)
Lemma read_digits_nonneg s : forall acc seen, 0 <= acc -> 0 <= (read_digits acc seen s).1.
Proof.
  induction s as [|c s IH]; intros acc seen Ha; cbn; [done|]. destruct (digit_value c) as [d|] eqn:E; [|done].
  apply IH. unfold digit_value in E. cbv zeta in E.
  destruct ((0 <=? Z.of_N (N_of_ascii c) - 48) && (Z.of_N (N_of_ascii c) - 48 <? 10)) eqn:Eb; [|done]. injection E as <-. lia.
Qed.
Lemma stoull_range s n : stoull s = Some n -> is_u64 n.
Proof.
  unfold stoull. destruct (match skip_spaces s with EmptyString => _ | String c s' => _ end) as [neg s'].
  pose proof (read_digits_nonneg s' 0 false ltac:(lia)) as Hn. destruct (read_digits 0 false s') as [x seen]. cbn in Hn.
  destruct (seen && (x <? 2 ^ 64)) eqn:E; [|done]. apply andb_true_iff in E as [_ E%Z.ltb_lt]. intros [= <-].
  destruct neg; [apply u64_range|]. split; lia.
Qed.

(** Numbers of at most [k] digits. *)
Lemma pretty_N_go_length k : forall x (s : string), (x < 10 ^ N.of_nat k)%N -> (String.length (pretty_N_go x s) <= String.length s + k)%nat.
Proof.
  induction k as [|k IH]; intros x s Hx.
  - change (10 ^ N.of_nat 0)%N with 1%N in Hx. assert (x = 0%N) as -> by lia. rewrite pretty_N_go_0. lia.
  - destruct (decide (x = 0%N)) as [->|Hx0]; [rewrite pretty_N_go_0; lia|]. rewrite pretty_N_go_step by lia.
    transitivity (String.length (String (pretty_N_char (x `mod` 10)) s) + k)%nat; [|cbn; lia]. apply IH.
    apply N.Div0.div_lt_upper_bound. by rewrite <- N.pow_succ_r', <- Nat2N.inj_succ.
Qed.
Lemma to_string_length k n : (0 < k)%nat -> 0 <= n < 10 ^ Z.of_nat k -> (String.length (to_string n) <= k)%nat.
Proof.
  intros Hk Hn. unfold to_string, pretty, pretty_N. case_decide; [cbn; lia|].
  pose proof (pretty_N_go_length k (Z.to_N n) "") as Hl. cbn in Hl. apply Hl.
  apply N2Z.inj_lt. rewrite Z2N.id, N2Z.inj_pow by lia. rewrite nat_N_Z. apply Hn.
Qed.
