(* ===== verification/NativeProp.v ===== *)
(** * Native properties of an account, and the maps they refine: [xdata/xnative_property.h], [xdata/src/xnative_property.cpp]

    A property is an object behind a pointer ([xstring_t], [xstrdeque_t],
    [xstrmap_t] of [xbase/xdata.h]); a property set maps names to pointers and
    remembers which were modified.  Copying a property set copies the pointers,
    so that two sets may share objects: the objects are in a heap, and a
    property set is read and written together with it.  [np_view] is what a set
    shows of the heap; on it the operations are those of a finite map. *)

From stdpp Require Import prelude strings gmap fin_maps.
From Stdlib Require Import ZArith Lia.
From S2P Require Import Prelude StdMap.
Open Scope Z_scope.

Inductive xdataunit :=
| XString (s : string)
| XStrdeque (l : list string)
| XStrmap (m : list (string * string)).
#[export] Instance xdataunit_eq_dec : EqDecision xdataunit.
Proof. solve_decision. Defined.

Abbreviation loc := nat.
Abbreviation heap := (list xdataunit).

Record xnative_property := XNativeProperty {
  m_objs : gmap string loc;
  m_modify_objs : gmap string loc
}.
Definition native_empty : xnative_property := XNativeProperty ∅ ∅.

(** A property set with the heap its objects are in. *)
Abbreviation np := (heap * xnative_property)%type.

Inductive np_code :=
| np_success
| np_not_same                       (* -1: the name has another object *)
| xdata_error_native_property_not_exist
| xdata_error_native_property_value_not_exist.
#[export] Instance np_code_eq_dec : EqDecision np_code.
Proof. solve_decision. Defined.

(** ** Objects *)

Definition property_get (s : np) (prop_name : string) : option (loc * xdataunit) :=
  match m_objs s.2 !! prop_name with
  | Some l => pair l <$> (s.1 !! l)
  | None => None
  end.
(** An object of another type is not returned. *)
Definition string_get (s : np) (prop_name : string) : option (loc * string) :=
  match property_get s prop_name with Some (l, XString v) => Some (l, v) | _ => None end.
Definition deque_get (s : np) (prop_name : string) : option (loc * list string) :=
  match property_get s prop_name with Some (l, XStrdeque v) => Some (l, v) | _ => None end.
Definition strmap_get (s : np) (prop_name : string) : option (loc * list (string * string)) :=
  match property_get s prop_name with Some (l, XStrmap v) => Some (l, v) | _ => None end.

Definition is_property_exist (s : np) (prop_name : string) : bool := bool_decide (is_Some (m_objs s.2 !! prop_name)).

Definition property_set (s : np) (prop_name : string) (property : loc) : np_code * np :=
  match m_objs s.2 !! prop_name with
  | None => (np_success, (s.1, XNativeProperty (<[prop_name := property]> (m_objs s.2)) (<[prop_name := property]> (m_modify_objs s.2))))
  | Some l =>
      if (l =? property)%nat
      then (np_success, (s.1, XNativeProperty (m_objs s.2) (<[prop_name := property]> (m_modify_objs s.2))))
      else (np_not_same, s)
  end.

(** Changing the object found, or a new one when there is none
    ([make_object_ptr]), followed by [property_set]. *)
Definition update_object (s : np) (prop_name : string) (found : option loc) (d : xdataunit) : np_code * np :=
  match found with
  | Some l => property_set (<[l := d]> s.1, s.2) prop_name l
  | None => property_set (s.1 ++ [d], s.2) prop_name (length s.1)
  end.

(** ** Strings *)

Definition native_string_set (s : np) (prop_name value : string) : np_code * np :=
  update_object s prop_name (fst <$> string_get s prop_name) (XString value).
Definition native_string_get (s : np) (prop_name : string) : option string :=
  snd <$> string_get s prop_name.

(** ** Maps *)

Definition map_value (o : option (loc * list (string * string))) : list (string * string) :=
  match o with Some (_, m) => m | None => [] end.

Definition native_map_set (s : np) (prop_name field value : string) : np_code * np :=
  let property := strmap_get s prop_name in
  update_object s prop_name (fst <$> property) (XStrmap (map_set field value (map_value property))).
Definition native_map_clear (s : np) (prop_name : string) : np_code * np :=
  match strmap_get s prop_name with
  | Some (l, _) => update_object s prop_name (Some l) (XStrmap [])
  | None => (xdata_error_native_property_not_exist, s)
  end.
Definition native_map_get (s : np) (prop_name field : string) : option string :=
  match strmap_get s prop_name with Some (_, m) => map_find field m | None => None end.
(** Erasing a field that is not there is reported in the log only. *)
Definition native_map_erase (s : np) (prop_name field : string) : np_code * np :=
  match strmap_get s prop_name with
  | Some (l, m) => update_object s prop_name (Some l) (XStrmap (map_erase field m))
  | None => (xdata_error_native_property_not_exist, s)
  end.
Definition native_map_size (s : np) (prop_name : string) : option Z :=
  match strmap_get s prop_name with Some (_, m) => Some (i32 (Z.of_nat (length m))) | None => None end.

(** ** Deques *)

Definition deque_value (o : option (loc * list string)) : list string :=
  match o with Some (_, l) => l | None => [] end.

Definition native_deque_push_back (s : np) (prop_name value : string) : np_code * np :=
  let property := deque_get s prop_name in
  update_object s prop_name (fst <$> property) (XStrdeque (deque_value property ++ [value])).
Definition native_deque_push_front (s : np) (prop_name value : string) : np_code * np :=
  let property := deque_get s prop_name in
  update_object s prop_name (fst <$> property) (XStrdeque (value :: deque_value property)).
Definition native_deque_pop_back (s : np) (prop_name : string) : np_code * np * string :=
  match deque_get s prop_name with
  | Some (l, q) =>
      match last q with
      | Some v => (update_object s prop_name (Some l) (XStrdeque (removelast q)), v)
      | None => (xdata_error_native_property_value_not_exist, s, EmptyString)
      end
  | None => (xdata_error_native_property_not_exist, s, EmptyString)
  end.
Definition native_deque_pop_front (s : np) (prop_name : string) : np_code * np * string :=
  match deque_get s prop_name with
  | Some (l, v :: q) => (update_object s prop_name (Some l) (XStrdeque q), v)
  | Some (_, []) => (xdata_error_native_property_value_not_exist, s, EmptyString)
  | None => (xdata_error_native_property_not_exist, s, EmptyString)
  end.

(** [xdeque_t::erase]: the first element with the value; [None] when there is none. *)
Fixpoint deque_erase (value : string) (q : list string) : option (list string) :=
  match q with
  | [] => None
  | v :: q' => if bool_decide (v = value) then Some q' else cons v <$> deque_erase value q'
  end.
Definition native_deque_erase (s : np) (prop_name value : string) : np_code * np :=
  match deque_get s prop_name with
  | Some (l, q) =>
      match deque_erase value q with
      | Some q' => update_object s prop_name (Some l) (XStrdeque q')
      | None => (xdata_error_native_property_value_not_exist, s)
      end
  | None => (xdata_error_native_property_not_exist, s)
  end.
Definition native_deque_clear (s : np) (prop_name : string) : np_code * np :=
  match deque_get s prop_name with
  | Some (l, _) => update_object s prop_name (Some l) (XStrdeque [])
  | None => (xdata_error_native_property_not_exist, s)
  end.
Definition native_deque_exist (s : np) (prop_name value : string) : bool :=
  match deque_get s prop_name with Some (_, q) => bool_decide (value ∈ q) | None => false end.
Definition native_deque_size (s : np) (prop_name : string) : option Z :=
  match deque_get s prop_name with Some (_, q) => Some (i32 (Z.of_nat (length q))) | None => None end.
Definition native_deque_get (s : np) (prop_name : string) : option (list string) :=
  snd <$> deque_get s prop_name.

(** ** Sets *)

Definition copy_modify_objs_only (rhs : xnative_property) : xnative_property := XNativeProperty (m_modify_objs rhs) ∅.
Definition add_property (p rhs : xnative_property) : xnative_property :=
  XNativeProperty (m_objs rhs ∪ m_objs p) (m_modify_objs p).
Definition is_empty (p : xnative_property) : bool := bool_decide (m_objs p = ∅).
Definition is_dirty (p : xnative_property) : bool := negb (bool_decide (m_modify_objs p = ∅)).
Definition clear_dirty (p : xnative_property) : xnative_property := XNativeProperty (m_objs p) ∅.

(** ** What a set shows of the heap *)

Definition np_view (s : np) : gmap string xdataunit := omap (fun l => s.1 !! l) (m_objs s.2).
#[global] Arguments np_view : simpl never.

(** Every pointer is to an object, and no two names share one. *)
Record np_wf (s : np) : Prop := {
  np_alloc : forall n l, m_objs s.2 !! n = Some l -> (l < length s.1)%nat;
  np_inj : forall n1 n2 l, m_objs s.2 !! n1 = Some l -> m_objs s.2 !! n2 = Some l -> n1 = n2
}.

Lemma np_view_lookup (s : np) n : np_view s !! n = m_objs s.2 !! n ≫= (fun l => s.1 !! l).
Proof. unfold np_view. by rewrite lookup_omap. Qed.

Lemma property_get_view (s : np) n : snd <$> property_get s n = np_view s !! n.
Proof. rewrite np_view_lookup. unfold property_get. destruct (m_objs s.2 !! n) as [l|]; [|done]. cbn. by destruct (s.1 !! l). Qed.

Lemma native_string_get_view (s : np) n :
  native_string_get s n = match np_view s !! n with Some (XString v) => Some v | _ => None end.
Proof.
  rewrite <- property_get_view. unfold native_string_get, string_get.
  by destruct (property_get s n) as [[l [v|v|v]]|].
Qed.
Lemma strmap_get_view (s : np) n :
  snd <$> strmap_get s n = match np_view s !! n with Some (XStrmap v) => Some v | _ => None end.
Proof. rewrite <- property_get_view. unfold strmap_get. by destruct (property_get s n) as [[l [v|v|v]]|]. Qed.
Lemma native_deque_get_view (s : np) n :
  native_deque_get s n = match np_view s !! n with Some (XStrdeque v) => Some v | _ => None end.
Proof.
  rewrite <- property_get_view. unfold native_deque_get, deque_get.
  by destruct (property_get s n) as [[l [v|v|v]]|].
Qed.

(** What an update does: it writes the object a name has, makes a new one for a
    name without object, or, when the name has an object of another type, leaves
    the property set alone. *)
Definition same_type (a b : xdataunit) : bool :=
  match a, b with
  | XString _, XString _ | XStrdeque _, XStrdeque _ | XStrmap _, XStrmap _ => true
  | _, _ => false
  end.

Inductive np_update (s : np) (n : string) (d : xdataunit) : np_code -> np -> Prop :=
| upd_set l : m_objs s.2 !! n = Some l ->
    np_update s n d np_success (<[l := d]> s.1, XNativeProperty (m_objs s.2) (<[n := l]> (m_modify_objs s.2)))
| upd_new : m_objs s.2 !! n = None ->
    np_update s n d np_success
      (s.1 ++ [d], XNativeProperty (<[n := length s.1]> (m_objs s.2)) (<[n := length s.1]> (m_modify_objs s.2)))
| upd_refused d0 : np_view s !! n = Some d0 -> same_type d0 d = false ->
    np_update s n d np_not_same (s.1 ++ [d], s.2).

Lemma update_object_update (s : np) n found d :
  np_wf s -> (found = fst <$> property_get s n \/
              (found = None /\ exists d0, np_view s !! n = Some d0 /\ same_type d0 d = false)) ->
  np_update s n d (update_object s n found d).1 (update_object s n found d).2.
Proof.
  intros [Ha _] Hf. assert (forall l, m_objs s.2 !! n = Some l -> is_Some (s.1 !! l)) as Hl
    by (intros l El; apply lookup_lt_is_Some_2; by eapply Ha).
  destruct Hf as [->|[-> (d0 & Hd & Ht)]].
  - unfold property_get. destruct (m_objs s.2 !! n) as [l|] eqn:E; cbn.
    + destruct (Hl l eq_refl) as [d0 ->]. cbn. unfold property_set. cbn. rewrite E, Nat.eqb_refl. by apply upd_set.
    + unfold property_set. cbn. rewrite E. by apply upd_new.
  - cbn. unfold property_set. cbn. pose proof Hd as Hd'. rewrite np_view_lookup in Hd.
    destruct (m_objs s.2 !! n) as [l|] eqn:E; [|done]. specialize (Ha _ _ E).
    destruct (Nat.eqb_spec l (length s.1)); [lia|]. by eapply upd_refused.
Qed.

(** Another property set over the same heap, whose objects the updated set has,
    if at all, under the same name. *)
Definition compatible (p q : xnative_property) : Prop :=
  forall n1 n2 l, m_objs p !! n1 = Some l -> m_objs q !! n2 = Some l -> n1 = n2.

(** It sees the new value where it shares the object, and nothing else. *)
Lemma np_update_other (s : np) n d c s' (q : xnative_property) :
  np_wf s -> np_update s n d c s' -> compatible s.2 q -> np_wf (s.1, q) ->
  np_wf (s'.1, q) /\ compatible s'.2 q /\
  (forall k, np_view (s'.1, q) !! k = np_view (s.1, q) !! k \/ (k = n /\ c = np_success /\ np_view (s'.1, q) !! k = Some d)).
Proof.
  intros Hw Hu Hc [Ha Hi]. cbn in *.
  assert (forall x, np_wf (s.1 ++ [x], q) /\ forall k, np_view (s.1 ++ [x], q) !! k = np_view (s.1, q) !! k) as Hg.
  { intros x. split.
    - split; cbn; [|done]. intros k l Hl%Ha. rewrite length_app. lia.
    - intros k. rewrite !np_view_lookup. cbn. destruct (m_objs q !! k) as [l|] eqn:E; [|done]. cbn.
      rewrite lookup_app_l; [done|]. by eapply Ha. }
  inversion Hu as [l El|En|d0 Hd Ht]; subst; cbn.
  - split_and!; [split; cbn; [intros ??; rewrite length_insert; apply Ha|apply Hi]|done|].
    intros k. rewrite !np_view_lookup. cbn. destruct (m_objs q !! k) as [l'|] eqn:E; [|by left]. cbn.
    destruct (decide (l' = l)) as [->|Hne].
    + right. split_and!; [symmetry; by eapply Hc|done|]. apply list_lookup_insert_eq. by eapply Ha.
    + left. by apply list_lookup_insert_ne.
  - split_and!; [by apply Hg| |left; apply Hg]. intros n1 n2 l. cbn. destruct (decide (n1 = n)) as [->|Hn].
    + rewrite lookup_insert_eq. intros [= <-] Hl%Ha. lia.
    + rewrite lookup_insert_ne by done. apply Hc.
  - split_and!; [by apply Hg|done|left; apply Hg].
Qed.

Lemma np_wf_compatible (s : np) : np_wf s -> compatible s.2 s.2.
Proof. intros [_ Hi] n1 n2 l. apply Hi. Qed.

(** The set itself is updated at the name. *)
Lemma np_update_view (s : np) n d c s' :
  np_wf s -> np_update s n d c s' ->
  np_wf s' /\ ((c = np_success /\ np_view s' = <[n := d]> (np_view s)) \/ (c <> np_success /\ np_view s' = np_view s)).
Proof.
  intros Hw Hu. assert (np_wf (s.1, s.2)) as Hw' by (by destruct s).
  destruct (np_update_other _ _ _ _ _ s.2 Hw Hu (np_wf_compatible _ Hw) Hw') as (Hq & _ & Hv).
  assert (forall k, np_view (s.1, s.2) !! k = np_view s !! k) as Es by (by destruct s).
  inversion Hu as [l El|En|d0 Hd Ht]; subst; cbn in *.
  - split; [by destruct Hq|]. left. split; [done|]. apply map_eq. intros k.
    destruct (decide (k = n)) as [->|Hk].
    + rewrite lookup_insert_eq, np_view_lookup. cbn. rewrite El. cbn. apply list_lookup_insert_eq. by eapply Hw.
    + rewrite lookup_insert_ne by done. destruct (Hv k) as [Hk'|[-> _]]; [|done]. by rewrite <- Es, <- Hk'.
  - destruct Hq as [Ha Hi]. split.
    + split; cbn.
      * intros k l. rewrite length_app. cbn. destruct (decide (k = n)) as [->|Hk].
        { rewrite lookup_insert_eq. intros [= <-]. lia. }
        { rewrite lookup_insert_ne by done. intros Hl%(np_alloc _ Hw). lia. }
      * intros k1 k2 l. destruct (decide (k1 = n)) as [->|H1], (decide (k2 = n)) as [->|H2];
          rewrite ?lookup_insert_eq, ?lookup_insert_ne by done; try done.
        { intros [= <-] Hl%(np_alloc _ Hw). lia. } { intros Hl%(np_alloc _ Hw) [= <-]. lia. } { apply Hi. }
    + left. split; [done|]. apply map_eq. intros k. rewrite np_view_lookup. cbn. destruct (decide (k = n)) as [->|Hk].
      * rewrite !lookup_insert_eq. cbn. by rewrite lookup_app_r, Nat.sub_diag.
      * rewrite !lookup_insert_ne by done. destruct (Hv k) as [Hk'|[-> _]]; [|done].
        rewrite np_view_lookup in Hk'. cbn in Hk'. by rewrite Hk', Es.
  - split; [done|]. right. split; [done|]. apply map_eq. intros k. by destruct (Hv k) as [->|[_ [? _]]].
Qed.

(** An operation on a name: an update, or nothing with the reason. *)
Definition np_step (s : np) (n : string) (d : xdataunit) (r : np_code * np) : Prop :=
  np_update s n d r.1 r.2 \/ (r.1 <> np_success /\ r.2 = s).

Lemma np_step_view (s : np) n d r :
  np_wf s -> np_step s n d r ->
  np_wf r.2 /\ ((r.1 = np_success /\ np_view r.2 = <[n := d]> (np_view s)) \/ (r.1 <> np_success /\ np_view r.2 = np_view s)).
Proof. intros Hw [Hu|[Hc ->]]; [by apply np_update_view with (s := s)|]. split; [done|]. by right. Qed.

Lemma string_get_found (s : np) n v :
  fst <$> string_get s n = fst <$> property_get s n \/
  (fst <$> string_get s n = None /\ exists d0, np_view s !! n = Some d0 /\ same_type d0 (XString v) = false).
Proof. rewrite <- property_get_view. unfold string_get. destruct (property_get s n) as [[l [x|x|x]]|]; cbn; eauto. Qed.
Lemma strmap_get_found (s : np) n v :
  fst <$> strmap_get s n = fst <$> property_get s n \/
  (fst <$> strmap_get s n = None /\ exists d0, np_view s !! n = Some d0 /\ same_type d0 (XStrmap v) = false).
Proof. rewrite <- property_get_view. unfold strmap_get. destruct (property_get s n) as [[l [x|x|x]]|]; cbn; eauto. Qed.
Lemma deque_get_found (s : np) n v :
  fst <$> deque_get s n = fst <$> property_get s n \/
  (fst <$> deque_get s n = None /\ exists d0, np_view s !! n = Some d0 /\ same_type d0 (XStrdeque v) = false).
Proof. rewrite <- property_get_view. unfold deque_get. destruct (property_get s n) as [[l [x|x|x]]|]; cbn; eauto. Qed.

Lemma native_string_set_step (s : np) n v : np_wf s -> np_step s n (XString v) (native_string_set s n v).
Proof. intros Hw. left. apply update_object_update; [done|]. apply string_get_found. Qed.
Lemma native_map_set_step (s : np) n f v :
  np_wf s -> np_step s n (XStrmap (map_set f v (map_value (strmap_get s n)))) (native_map_set s n f v).
Proof. intros Hw. left. apply update_object_update; [done|]. apply strmap_get_found. Qed.
Lemma native_deque_push_back_step (s : np) n v :
  np_wf s -> np_step s n (XStrdeque (deque_value (deque_get s n) ++ [v])) (native_deque_push_back s n v).
Proof. intros Hw. left. apply update_object_update; [done|]. apply deque_get_found. Qed.

Lemma native_map_erase_step (s : np) n f :
  np_wf s -> np_step s n (XStrmap (map_erase f (map_value (strmap_get s n)))) (native_map_erase s n f).
Proof.
  intros Hw. unfold native_map_erase. pose proof (strmap_get_found s n) as Hf.
  destruct (strmap_get s n) as [[l m]|]; cbn in Hf; [left; by apply update_object_update | by right].
Qed.
Lemma native_deque_erase_step (s : np) n v :
  np_wf s -> exists q', (forall x, x ∈ q' -> x ∈ deque_value (deque_get s n)) /\ np_step s n (XStrdeque q') (native_deque_erase s n v).
Proof.
  intros Hw. unfold native_deque_erase. pose proof (deque_get_found s n) as Hf.
  destruct (deque_get s n) as [[l q]|]; cbn in Hf; cbn [deque_value]; [|exists []; split; [set_solver|by right]].
  destruct (deque_erase v q) as [q'|] eqn:E; [|exists []; split; [set_solver|by right]].
  exists q'. split; [|left; by apply update_object_update]. clear Hf. revert q' E. induction q as [|x q IH]; cbn; [done|]. intros q'.
  case_bool_decide; [intros [= <-]; set_solver|]. destruct (deque_erase v q); [|done]. intros [= <-].
  specialize (IH _ eq_refl). set_solver.
Qed.

(** A write succeeds when the name has no object or one of the type. *)
Lemma np_update_succeeds (s : np) n d c s' :
  np_update s n d c s' -> (forall d0, np_view s !! n = Some d0 -> same_type d0 d = true) -> c = np_success.
Proof. intros Hu Ht. inversion Hu as [| |d0 Hd Hf]; subst; [done..|]. rewrite (Ht _ Hd) in Hf. done. Qed.

(** * Property sets refine finite maps

    Whatever operations run on a property set, it answers and ends as a finite
    map from names to values would, although it only holds pointers; a copy of
    the set made before sees the new values of the objects it shares and nothing
    else. *)

Inductive np_op :=
| OpStringSet (n v : string)
| OpMapSet (n f v : string)
| OpMapClear (n : string)
| OpMapErase (n f : string)
| OpPushBack (n v : string)
| OpPushFront (n v : string)
| OpPopBack (n : string)
| OpPopFront (n : string)
| OpDequeErase (n v : string)
| OpDequeClear (n : string).

Definition op_name (o : np_op) : string :=
  match o with
  | OpStringSet n _ | OpMapSet n _ _ | OpMapClear n | OpMapErase n _ | OpPushBack n _ | OpPushFront n _
  | OpPopBack n | OpPopFront n | OpDequeErase n _ | OpDequeClear n => n
  end.

(** The code: its answer, the set after it and the value popped. *)
Definition run_op (o : np_op) (s : np) : np_code * np * string :=
  match o with
  | OpStringSet n v => (native_string_set s n v, "")
  | OpMapSet n f v => (native_map_set s n f v, "")
  | OpMapClear n => (native_map_clear s n, "")
  | OpMapErase n f => (native_map_erase s n f, "")
  | OpPushBack n v => (native_deque_push_back s n v, "")
  | OpPushFront n v => (native_deque_push_front s n v, "")
  | OpPopBack n => native_deque_pop_back s n
  | OpPopFront n => native_deque_pop_front s n
  | OpDequeErase n v => (native_deque_erase s n v, "")
  | OpDequeClear n => (native_deque_clear s n, "")
  end.

(** What the operation does to one value: the new value and the value popped, or an error. *)
Definition spec_value (o : np_op) (d : option xdataunit) : np_code + xdataunit * string :=
  match o, d with
  | OpStringSet _ v, (None | Some (XString _)) => inr (XString v, "")
  | OpMapSet _ f v, None => inr (XStrmap [(f, v)], "")
  | OpMapSet _ f v, Some (XStrmap m) => inr (XStrmap (map_set f v m), "")
  | OpMapClear _, Some (XStrmap _) => inr (XStrmap [], "")
  | OpMapErase _ f, Some (XStrmap m) => inr (XStrmap (map_erase f m), "")
  | OpPushBack _ v, None | OpPushFront _ v, None => inr (XStrdeque [v], "")
  | OpPushBack _ v, Some (XStrdeque q) => inr (XStrdeque (q ++ [v]), "")
  | OpPushFront _ v, Some (XStrdeque q) => inr (XStrdeque (v :: q), "")
  | OpPopBack _, Some (XStrdeque q) =>
      match last q with Some v => inr (XStrdeque (removelast q), v) | None => inl xdata_error_native_property_value_not_exist end
  | OpPopFront _, Some (XStrdeque q) =>
      match q with v :: q' => inr (XStrdeque q', v) | [] => inl xdata_error_native_property_value_not_exist end
  | OpDequeErase _ v, Some (XStrdeque q) =>
      match deque_erase v q with Some q' => inr (XStrdeque q', "") | None => inl xdata_error_native_property_value_not_exist end
  | OpDequeClear _, Some (XStrdeque _) => inr (XStrdeque [], "")
  | (OpStringSet _ _ | OpMapSet _ _ _ | OpPushBack _ _ | OpPushFront _ _), Some _ => inl np_not_same
  | _, _ => inl xdata_error_native_property_not_exist
  end.
(** On a finite map. *)
Definition spec_op (o : np_op) (m : gmap string xdataunit) : np_code * gmap string xdataunit * string :=
  match spec_value o (m !! op_name o) with
  | inr (d, v) => (np_success, <[op_name o := d]> m, v)
  | inl c => (c, m, "")
  end.

Fixpoint run_ops (l : list np_op) (s : np) : list (np_code * string) * np :=
  match l with
  | [] => ([], s)
  | o :: l => let '(c, s, v) := run_op o s in let '(rs, s) := run_ops l s in ((c, v) :: rs, s)
  end.
Fixpoint spec_ops (l : list np_op) (m : gmap string xdataunit) : list (np_code * string) * gmap string xdataunit :=
  match l with
  | [] => ([], m)
  | o :: l => let '(c, m, v) := spec_op o m in let '(rs, m) := spec_ops l m in ((c, v) :: rs, m)
  end.

(** Every operation is an update of its name with the value the specification
    says, a refusal, or nothing. *)
Definition op_update (s : np) (o : np_op) (r : np_code * np * string) : Prop :=
  match spec_value o (np_view s !! op_name o) with
  | inr (d, v) => r.1.1 = np_success /\ np_update s (op_name o) d np_success r.1.2 /\ r.2 = v
  | inl c => r.1.1 = c /\ c <> np_success /\ r.2 = "" /\ (r.1.2 = s \/ exists d, np_update s (op_name o) d c r.1.2)
  end.

(** Updating the object that was found. *)
Lemma update_found s n d :
  np_wf s -> (update_object s n (fst <$> property_get s n) d).1 = np_success /\
  np_update s n d np_success (update_object s n (fst <$> property_get s n) d).2.
Proof.
  intros Hw. assert ((update_object s n (fst <$> property_get s n) d).1 = np_success) as Hc.
  { unfold property_get. destruct (m_objs s.2 !! n) as [l|] eqn:E; cbn.
    - destruct (lookup_lt_is_Some_2 s.1 l (np_alloc _ Hw _ _ E)) as [d0 ->]. cbn. unfold property_set. cbn. by rewrite E, Nat.eqb_refl.
    - unfold property_set. cbn. by rewrite E. }
  split; [done|]. rewrite <- Hc. apply update_object_update; [done|by left].
Qed.
Lemma update_refused s n d l d0 :
  np_wf s -> property_get s n = Some (l, d0) -> same_type d0 d = false ->
  (update_object s n None d).1 = np_not_same /\ np_update s n d np_not_same (update_object s n None d).2.
Proof.
  intros Hw Hp Ht. pose proof (property_get_view s n) as Hv. rewrite Hp in Hv. cbn in Hv.
  assert ((update_object s n None d).1 = np_not_same) as Hc.
  { unfold property_get in Hp. cbn. unfold property_set. cbn. destruct (m_objs s.2 !! n) as [l'|] eqn:E; [|done].
    pose proof (np_alloc _ Hw _ _ E). destruct (Nat.eqb_spec l' (length s.1)); [lia|done]. }
  split; [done|]. rewrite <- Hc. apply update_object_update; [done|]. right. eauto.
Qed.

Lemma run_op_update o s : np_wf s -> op_update s o (run_op o s).
Proof.
  intros Hw. unfold op_update. rewrite <- property_get_view.
  pose proof (update_found s (op_name o)) as Hf. pose proof (fun d l d0 => update_refused s (op_name o) d l d0 Hw) as Hr.
  destruct o; cbn [run_op op_name] in *;
    unfold native_string_set, native_map_set, native_map_clear, native_map_erase, native_deque_push_back, native_deque_push_front,
      native_deque_pop_back, native_deque_pop_front, native_deque_erase, native_deque_clear, string_get, strmap_get, deque_get in *;
    destruct (property_get s n) as [[l [x|x|x]]|] eqn:E; cbn [fmap option_fmap option_map fst snd spec_value map_value deque_value] in *;
    try (by split_and!; [apply Hf..|]); try (by split_and!; auto);
    try (edestruct Hr as [R1 R2]; [reflexivity| |split_and!; [exact R1|done|done|right; eexists; exact R2]]; done).
  - destruct (last x) as [v|]; cbn; [by split_and!; [apply Hf..|]|by split_and!; auto].
  - destruct x as [|v x]; cbn; [by split_and!; auto|by split_and!; [apply Hf..|]].
  - destruct (deque_erase v x) as [q|]; cbn; [by split_and!; [apply Hf..|]|by split_and!; auto].
Qed.

Lemma run_op_spec o s : np_wf s ->
  spec_op o (np_view s) = ((run_op o s).1.1, np_view (run_op o s).1.2, (run_op o s).2) /\ np_wf (run_op o s).1.2.
Proof.
  intros Hw. pose proof (run_op_update o s Hw) as Hu. unfold op_update in Hu. unfold spec_op.
  destruct (run_op o s) as [[c s'] v]. cbn in *. destruct (spec_value o (np_view s !! op_name o)) as [c'|[d v']].
  - destruct Hu as (-> & Hc & -> & [->|[d Hu]]); [done|]. destruct (np_update_view _ _ _ _ _ Hw Hu) as [Hw' [[? _]|[_ ->]]]; [done|]. done.
  - destruct Hu as (-> & Hu & ->). destruct (np_update_view _ _ _ _ _ Hw Hu) as [Hw' [[_ ->]|[? _]]]; done.
Qed.

(** What another set over the same heap sees of an operation. *)
Definition shares (p q : xnative_property) (n : string) : bool :=
  match m_objs p !! n, m_objs q !! n with Some l, Some l' => (l =? l')%nat | _, _ => false end.

Lemma run_op_shared o s q k : np_wf s -> np_wf (s.1, q) -> compatible s.2 q ->
  np_wf ((run_op o s).1.2.1, q) /\ compatible (run_op o s).1.2.2 q /\
  np_view ((run_op o s).1.2.1, q) !! k =
    (if shares s.2 q k then np_view (run_op o s).1.2 !! k else np_view (s.1, q) !! k).
Proof.
  intros Hw Hq Hc. pose proof (run_op_update o s Hw) as Hu. unfold op_update in Hu. destruct (run_op o s) as [[c s'] v]. cbn in *.
  assert (s' = s \/ exists d c', np_update s (op_name o) d c' s') as [->|(d & c' & Hd)].
  { destruct (spec_value o (np_view s !! op_name o)) as [c'|[d v']]; [destruct Hu as (_ & _ & _ & [->|[d Hu]])|destruct Hu as (_ & Hu & _)]; eauto. }
  - split_and!; [done..|]. unfold shares. rewrite !np_view_lookup. cbn.
    destruct (m_objs s.2 !! k) as [l|] eqn:E1, (m_objs q !! k) as [l'|] eqn:E2; try done. by destruct (Nat.eqb_spec l l') as [->|].
  - destruct (np_update_other _ _ _ _ _ q Hw Hd Hc Hq) as (Hq' & Hc' & _). split_and!; [done..|].
    destruct Hw as [Ha Hi], Hq as [Ha' Hi']. cbn in Ha', Hi'. unfold shares. rewrite !np_view_lookup. cbn.
    inversion Hd as [l El Es|En Es|d0 Hv Ht Es]; subst s'; cbn.
    + destruct (m_objs q !! k) as [l'|] eqn:E2; [|by destruct (m_objs s.2 !! k)]. cbn.
      destruct (m_objs s.2 !! k) as [l1|] eqn:E1; cbn; [destruct (Nat.eqb_spec l1 l') as [->|Hne]; [done|]|];
        rewrite list_lookup_insert_ne; try done; intros <-; pose proof (Hc _ _ _ El E2); simplify_eq.
    + destruct (m_objs q !! k) as [l'|] eqn:E2; [|by destruct (m_objs s.2 !! k)]. pose proof (Ha' _ _ E2).
      destruct (m_objs s.2 !! k) as [l1|] eqn:E1; cbn; [|by rewrite lookup_app_l].
      destruct (Nat.eqb_spec l1 l') as [->|Hne]; [|by rewrite lookup_app_l].
      destruct (decide (k = op_name o)) as [->|]; [congruence|]. by rewrite lookup_insert_ne, E1 by done.
    + destruct (m_objs q !! k) as [l'|] eqn:E2; [|by destruct (m_objs s.2 !! k)]. pose proof (Ha' _ _ E2).
      destruct (m_objs s.2 !! k) as [l1|] eqn:E1; cbn; [|by rewrite lookup_app_l].
      destruct (Nat.eqb_spec l1 l') as [->|Hne]; [done|by rewrite lookup_app_l].
Qed.

(** C7. Any sequence of operations on a well-formed set of native properties
    answers and ends as the same operations on a finite map from names to
    values; each operation's codes and popped values are those of the map. *)
Theorem native_properties_refine_map (ops : list np_op) (s : np) :
  np_wf s -> spec_ops ops (np_view s) = ((run_ops ops s).1, np_view (run_ops ops s).2) /\ np_wf (run_ops ops s).2.
Proof.
  revert s. induction ops as [|o ops IH]; intros s Hw; [done|]. destruct (run_op_spec o s Hw) as [E Hw']. cbn. rewrite E.
  destruct (run_op o s) as [[c s'] v]. cbn in *. destruct (IH s' Hw') as [E' Hw'']. rewrite E'. by destruct (run_ops ops s').
Qed.

(** A copy of a property set shares its objects with it: after any one
    operation on the set the copy shows, for every name whose object they share,
    the new value of the set, and for every other name its old value.  Results
    of executed transactions are such copies. *)
Theorem copies_share_objects (o : np_op) (s : np) (q : xnative_property) (k : string) :
  np_wf s -> np_wf (s.1, q) -> compatible s.2 q ->
  np_view ((run_op o s).1.2.1, q) !! k =
    (if shares s.2 q k then (spec_op o (np_view s)).1.2 !! k else np_view (s.1, q) !! k).
Proof.
  intros Hw Hq Hc. destruct (run_op_shared o s q k Hw Hq Hc) as (_ & _ & ->). by destruct (run_op_spec o s Hw) as [-> _].
Qed.
