(* ===== verification/Action.v ===== *)
(** * Actions of a transaction: [xdata/xaction_parse.h], [xdata/src/xaction_parse.cpp]

    A transaction has a source and a target action; what an action does is
    written to its parameter string.  A parser returns an error code or the
    fields; where the source has no [try], reading past the end throws the
    stream's exception ([None]). *)

From stdpp Require Import prelude strings.
From Stdlib Require Import ZArith Lia Ascii.
From S2P Require Import Prelude Stream StdMap NativeProp.
Open Scope Z_scope.

(** Return codes of execution ([int32_t] codes of several modules; success is 0). *)
Inductive xret :=
| xret_success
| xret_minus_one
| xchain_error_action_type_invalid
| xchain_error_action_param_empty
| xchain_error_action_param_not_empty
| xchain_error_action_param_size_too_large
| xchain_error_action_param_code_length_too_long
| xchain_error_set_account_key_len_invalid
| xchain_error_unlock_keys_num_invalid
| xchain_error_unlock_keys_len_invalid
| xchain_error_lock_token_time_param_invalid
| xchain_error_lock_token_pubkey_size_beyond_limit
| xaccount_balance_not_enough
| xaccount_account_not_exist
| xaccount_lock_less_min_deposit
| xaccount_transfer_less_than_safe_amount
| xaccount_unit_height_should_not_zero
| xaccount_property_lock_token_key_same
| xaccount_property_unlock_token_key_not_exist
| xaccount_property_unlock_token_time_not_reach
| xaccount_property_parent_account_exist
| xaccount_property_parent_account_not_exist
| xaccount_property_sub_account_exist
| xaccount_property_contract_sub_account_exist
| xaccount_property_sub_account_overflow
| xaccount_set_keys_key_illegal
| xaccount_contract_number_exceed_max
| xstore_user_contract_can_not_initiate_transaction
| xtransaction_not_enough_pledge_token_tgas
| xtransaction_not_enough_pledge_token_disk
| xtransaction_not_enough_token
| xtransaction_non_positive_pledge_token
| xtransaction_pledge_too_much_token
| xtransaction_contract_not_enough_tgas
| xtransaction_pledge_redeem_vote_err
| xtransaction_parse_type_invalid
| xtransaction_too_much_deposit
| xtransaction_not_enough_deposit
| xtransaction_contract_pledge_token_source_target_mismatch
| xconsensus_service_error_balance_not_enough
| xconsensus_service_error_min_deposit_error
| xconsensus_service_error_action_not_valid
| xconsensus_service_error_addr_type_error
| xconsensus_service_error_sign_error
| xverifier_error_src_dst_addr_same
| xverifier_error_tx_min_deposit_invalid
| xverifier_error_transfer_tx_min_amount_invalid
| xverifier_error_transfer_tx_amount_over_max
| xverifier_error_trnsafer_tx_src_dst_amount_not_same
| xunit_contract_exec_no_property_change
| enum_xtxexecutor_error_tx_nonce_not_match
| enum_xtxexecutor_error_account_have_no_tx
| enum_xtxexecutor_error_unit_state_behind
| enum_xtxexecutor_error_unit_property_behind
| enum_xtxexecutor_error_unit_height_not_equal_blockchain_height
| enum_xtxexecutor_error_unit_height_less_than_leader
| enum_xtxexecutor_error_unit_height_larger_than_leader
| enum_xtxexecutor_error_unit_leader_hash_not_equal_backup
| enum_xtxexecutor_error_proposal_unit_should_be_fullunit
| enum_xtxexecutor_error_proposal_unit_should_be_lightunit
| enum_xtxexecutor_error_leader_tableblock_behind
| enum_xtxexecutor_error_backup_tableblock_behind
| enum_xtxexecutor_error_proposal_tableblock_should_not_empty_block
| enum_xtxexecutor_error_backup_verify_fail_check_consensus_para
| enum_xtxexecutor_error_backup_verify_fail_table_input_hash
| enum_xtxexecutor_error_backup_verify_fail_table_output_hash
| enum_xtxexecutor_error_backup_verify_fail_table_header_hash
| enum_xconsensus_error_bad_height
| enum_xconsensus_error_bad_proposal
| txpool_ret (code : Z)              (* a code of the transaction pool, passed on *)
| native_ret (code : np_code)        (* a code of the native properties, passed on *)
| xvm_errno (code : Z).              (* an error of the contract engine *)
#[export] Instance xret_eq_dec : EqDecision xret.
Proof. solve_decision. Defined.

Definition ok (r : xret) : bool := bool_decide (r = xret_success).
Definition of_np (c : np_code) : xret := match c with np_success => xret_success | c => native_ret c end.

(** ** Data *)

Record xaction := XAction {
  get_action_type : Z;               (* uint16_t *)
  get_action_name : string;
  get_action_param : string;
  get_action_authorization : string
}.

Definition xaction_type_asset_out : Z := 0.
Definition xaction_type_source_null : Z := 1.
Definition xaction_type_create_contract_account : Z := 3.
Definition xaction_type_run_contract : Z := 5.
Definition xaction_type_asset_in : Z := 6.
Definition xaction_type_alias_name : Z := 8.
Definition xaction_type_set_account_keys : Z := 12.
Definition xaction_type_lock_token : Z := 13.
Definition xaction_type_unlock_token : Z := 14.
Definition xaction_type_pledge_token_vote : Z := 21.
Definition xaction_type_redeem_token_vote : Z := 22.
Definition xaction_type_pledge_token : Z := 23.
Definition xaction_type_redeem_token : Z := 24.

Record xproperty_asset := XAsset { m_token_name : string; m_amount : Z }.
Definition is_top_token (a : xproperty_asset) : bool :=
  bool_decide (m_token_name a = "") || bool_decide (m_token_name a = "TOP").

Definition str_len (s : string) : Z := Z.of_nat (String.length s).
Definition str_empty (s : string) : bool := bool_decide (s = "").
Definition action_is (t : Z) (a : xaction) : bool := get_action_type a =? t.

(** Fields read in order from a parameter. *)
Definition run_read {A} (m : reader A) (param : string) : option A := fst <$> m param.

(** ** Assets *)

Definition read_asset : reader xproperty_asset :=
  let* token := read_string in let* amount := read_u64 in ret (XAsset token amount).
Definition write_asset (a : xproperty_asset) : string := write_string (m_token_name a) +:+ write_u64 (m_amount a).

(** [xaction_asset_out::parse] and, for the type of the subclass, [xaction_asset_proc::parse]. *)
Definition asset_parse (action_type : Z) (a : xaction) : xret + xproperty_asset :=
  if negb (action_is action_type a) then inl xchain_error_action_type_invalid
  else if str_empty (get_action_param a) then inl xchain_error_action_param_empty
  else match run_read read_asset (get_action_param a) with
       | Some v => inr v
       | None => inl xchain_error_action_param_empty
       end.
Definition asset_out_parse : xaction -> xret + xproperty_asset := asset_parse xaction_type_asset_out.
Definition asset_serialze_to (action_type : Z) (a : xaction) (asset : xproperty_asset) : xaction :=
  XAction action_type (get_action_name a) (write_asset asset) (get_action_authorization a).

Definition source_null_parse (a : xaction) : xret + unit :=
  if negb (action_is xaction_type_source_null a) then inl xchain_error_action_type_invalid
  else if negb (str_empty (get_action_param a)) then inl xchain_error_action_param_not_empty
  else inr tt.
Definition source_null_serialze_to (a : xaction) : xaction :=
  XAction xaction_type_source_null (get_action_name a) "" (get_action_authorization a).

(** ** Contracts *)

Definition MAX_CONTRACT_CODE_SIZE : Z := 32768.

Definition read_deploy : reader (Z * string) :=
  let* tgas_limit := read_u64 in let* code := read_string in ret (tgas_limit, code).
Definition deploy_contract_parse (a : xaction) : xret + (Z * string) :=
  if negb (action_is xaction_type_create_contract_account a) then inl xchain_error_action_type_invalid
  else if str_empty (get_action_param a) then inl xchain_error_action_param_empty
  else match run_read read_deploy (get_action_param a) with
       | Some (tgas_limit, code) =>
           if MAX_CONTRACT_CODE_SIZE <? str_len code then inl xchain_error_action_param_code_length_too_long
           else inr (tgas_limit, code)
       | None => inl xchain_error_action_param_empty
       end.
Definition deploy_contract_serialze_to (a : xaction) (tgas_limit : Z) (code : string) : xret * xaction :=
  if str_empty code then (xchain_error_action_param_empty, a)
  else (xret_success, XAction xaction_type_create_contract_account (get_action_name a)
                        (write_u64 tgas_limit +:+ write_string code) (get_action_authorization a)).

Definition run_contract_parse (a : xaction) : xret + (string * string) :=
  if negb (action_is xaction_type_run_contract a) then inl xchain_error_action_type_invalid
  else inr (get_action_name a, get_action_param a).
Definition run_contract_serialze_to (a : xaction) (function_name para : string) : xaction :=
  XAction xaction_type_run_contract function_name para (get_action_authorization a).

(** ** Names and keys *)

Definition alias_name_parse (a : xaction) : xret + string :=
  if negb (action_is xaction_type_alias_name a) then inl xchain_error_action_type_invalid
  else if str_empty (get_action_param a) then inl xchain_error_action_param_empty
  else if 32 <? str_len (get_action_param a) then inl xchain_error_action_param_size_too_large
  else inr (get_action_param a).
(** The tests are on the parameter the action had before. *)
Definition alias_name_serialze_to (a : xaction) (name : string) : xret * xaction :=
  let a := XAction xaction_type_alias_name (get_action_name a) (get_action_param a) (get_action_authorization a) in
  if str_empty (get_action_param a) then (xchain_error_action_param_empty, a)
  else if 32 <? str_len (get_action_param a) then (xchain_error_action_param_size_too_large, a)
  else (xret_success, XAction xaction_type_alias_name (get_action_name a) name (get_action_authorization a)).

Definition read_keys : reader (string * string) :=
  let* k := read_string in let* v := read_string in ret (k, v).
Definition set_account_keys_parse (a : xaction) : option (xret + (string * string)) :=
  if negb (action_is xaction_type_set_account_keys a) then Some (inl xchain_error_action_type_invalid)
  else match run_read read_keys (get_action_param a) with
       | Some (k, v) => Some (if negb (str_len v =? 65) then inl xchain_error_set_account_key_len_invalid else inr (k, v))
       | None => None
       end.

(** ** Locked tokens *)

Definition UT_time : Z := 0.
Definition UT_alone_key : Z := 1.

Record lock_action := LockAction {
  la_version : Z;                 (* uint32_t *)
  la_amount : Z;                  (* uint64_t *)
  la_unlock_type : Z;             (* uint32_t *)
  la_unlock_values : list string;
  la_params : string
}.

(** A count and as many strings. *)
Fixpoint read_strings (n : nat) : reader (list string) :=
  match n with
  | O => ret []
  | S n' => let* s := read_string in let* r := read_strings n' in ret (s :: r)
  end.
Definition read_string_list : reader (list string) :=
  let* size := read_u32 in read_strings (Z.to_nat size).

Definition read_lock (param : string) : reader lock_action :=
  let* version := read_u32 in
  let* amount := read_u64 in
  let* unlock_type := read_u32 in
  let* values := read_string_list in
  ret (LockAction version amount unlock_type values param).

Definition starts_with_minus (s : string) : bool :=
  match s with String c _ => Ascii.eqb c "-" | EmptyString => false end.

Definition check_unlock_values (unlock_type : Z) (values : list string) : xret :=
  if unlock_type =? UT_time then
    match values with
    | [v] => if starts_with_minus v || (19 <? str_len v) then xchain_error_lock_token_time_param_invalid else xret_success
    | _ => xchain_error_unlock_keys_num_invalid
    end
  else if unlock_type =? UT_alone_key then
    match values with
    | [v] => if negb (str_len v =? 65) then xchain_error_unlock_keys_len_invalid else xret_success
    | _ => xchain_error_unlock_keys_num_invalid
    end
  else if bool_decide (values = []) then xchain_error_unlock_keys_num_invalid
  else if (8 <? length values)%nat then xchain_error_lock_token_pubkey_size_beyond_limit
  else if forallb (fun v => str_len v =? 65) values then xret_success
  else xchain_error_unlock_keys_len_invalid.

(** [xaction_lock_account_token::parse_param]. *)
Definition lock_parse_param (param : string) : option (xret + lock_action) :=
  match run_read (read_lock param) param with
  | Some la =>
      let ret := check_unlock_values (la_unlock_type la) (la_unlock_values la) in
      Some (if ok ret then inr la else inl ret)
  | None => None
  end.
Definition lock_token_parse (a : xaction) : option (xret + lock_action) :=
  if negb (action_is xaction_type_lock_token a) then Some (inl xchain_error_action_type_invalid)
  else lock_parse_param (get_action_param a).

Definition read_unlock : reader (Z * string * list string) :=
  let* version := read_u32 in
  let* lock_hash := read_string in
  let* signs := read_string_list in
  ret (version, lock_hash, signs).
Definition unlock_token_parse (a : xaction) : option (xret + (Z * string * list string)) :=
  if negb (action_is xaction_type_unlock_token a) then Some (inl xchain_error_action_type_invalid)
  else inr <$> run_read read_unlock (get_action_param a).

(** ** Votes *)

Definition read_pledge_vote : reader (Z * Z) :=
  let* num := read_u64 in let* duration := read_u16 in ret (num, duration).
Definition pledge_token_vote_parse (a : xaction) : option (xret + (Z * Z)) :=
  if negb (action_is xaction_type_pledge_token_vote a) then Some (inl xchain_error_action_type_invalid)
  else inr <$> run_read read_pledge_vote (get_action_param a).
Definition pledge_token_vote_serialze_to (a : xaction) (num duration : Z) : xaction :=
  XAction xaction_type_pledge_token_vote (get_action_name a) (write_u64 num +:+ write_u16 duration) (get_action_authorization a).

Definition redeem_token_vote_parse (a : xaction) : option (xret + Z) :=
  if negb (action_is xaction_type_redeem_token_vote a) then Some (inl xchain_error_action_type_invalid)
  else inr <$> run_read read_u64 (get_action_param a).
Definition redeem_token_vote_serialze_to (a : xaction) (num : Z) : xaction :=
  XAction xaction_type_redeem_token_vote (get_action_name a) (write_u64 num) (get_action_authorization a).

(** [operator >> (std::map)]: the first entry of a key stays. *)
Fixpoint read_vote_entries (n : nat) (m : list (string * Z)) : reader (list (string * Z)) :=
  match n with
  | O => ret m
  | S n' => let* k := read_string in let* v := read_u64 in read_vote_entries n' (map_emplace k v m).1
  end.
Definition read_vote_map : reader (list (string * Z)) :=
  let* item_size := read_u32 in
  let* rest := get in
  if u32 (str_len rest) <? u32 (2 * item_size) then ub else read_vote_entries (Z.to_nat item_size) [].

(** [xtransaction_face_t::parse_vote_info]. *)
Definition parse_vote_info (para : string) : option Z :=
  match run_read read_vote_map para with
  | Some m => Some (fold_left (fun vote_num e => u64 (vote_num + e.2)) m 0)
  | None => None
  end.

(** ** Reading back what was written *)

Lemma run_read_write {A} (m : reader A) w a : (forall r, m (w +:+ r) = Some (a, r)) -> run_read m w = Some a.
Proof.
  intros H. unfold run_read. specialize (H ""). assert (forall s : string, s +:+ "" = s) as E.
  { induction s as [|c s IH]; [done|]. by rewrite append_cons, IH. }
  rewrite E in H. by rewrite H.
Qed.

Lemma read_u64_write x r : is_u64 x -> read_u64 (write_u64 x +:+ r) = Some (x, r).
Proof. intros Hx. unfold read_u64, write_u64. rewrite read_le_write, mod_u64. by rewrite u64_small. Qed.
Lemma read_string_write s r : str_len s < 2 ^ 32 -> read_string (write_string s +:+ r) = Some (s, r).
Proof. intros Hs. unfold read_string, write_string. rewrite read_str_write, cut_str_fits; done. Qed.

Lemma read_asset_write a r : str_len (m_token_name a) < 2 ^ 32 -> is_u64 (m_amount a) ->
  read_asset (write_asset a +:+ r) = Some (a, r).
Proof.
  intros Ht Ha. unfold read_asset, write_asset. rewrite append_assoc.
  rewrite (bind_runs _ _ _ _ _ (read_string_write _ _ Ht)), (bind_runs _ _ _ _ _ (read_u64_write _ _ Ha)).
  by destruct a.
Qed.

Lemma write_string_nonempty s (r : string) : write_string s +:+ r <> "".
Proof. unfold write_string, write_str. cbn [write_le]. rewrite append_assoc, append_cons. done. Qed.

(** What a client packs into an action is what execution takes out of it. *)
Lemma actions_round_trip (a : xaction) (t : Z) (asset : xproperty_asset) (tgas num duration : Z) (code : string) :
  str_len (m_token_name asset) < 2 ^ 32 -> is_u64 (m_amount asset) ->
  is_u64 tgas -> is_u64 num -> 0 <= duration < 2 ^ 16 -> 0 < str_len code <= MAX_CONTRACT_CODE_SIZE ->
  asset_parse t (asset_serialze_to t a asset) = inr asset /\
  source_null_parse (source_null_serialze_to a) = inr tt /\
  deploy_contract_parse (deploy_contract_serialze_to a tgas code).2 = inr (tgas, code) /\
  pledge_token_vote_parse (pledge_token_vote_serialze_to a num duration) = Some (inr (num, duration)) /\
  redeem_token_vote_parse (redeem_token_vote_serialze_to a num) = Some (inr num).
Proof.
  intros Ht Ha Hg Hn Hd Hc. split_and!.
  - unfold asset_parse, asset_serialze_to, action_is, str_empty. cbn. rewrite Z.eqb_refl. cbn.
    rewrite bool_decide_eq_false_2 by apply write_string_nonempty.
    by rewrite (run_read_write _ _ asset) by (intros r; by apply read_asset_write).
  - done.
  - unfold deploy_contract_serialze_to, str_empty. rewrite bool_decide_eq_false_2.
    2:{ intros ->. unfold str_len in Hc. cbn in Hc. lia. }
    unfold deploy_contract_parse, action_is, str_empty. cbn [get_action_type get_action_param snd]. cbn [Z.eqb negb xaction_type_create_contract_account].
    rewrite bool_decide_eq_false_2 by done. change (negb (Z.eqb 3 3)) with false. cbv iota.
    rewrite (run_read_write _ _ (tgas, code)).
    + destruct (Z.ltb_spec MAX_CONTRACT_CODE_SIZE (str_len code)); [lia|done].
    + intros r. unfold read_deploy. rewrite append_assoc. unfold MAX_CONTRACT_CODE_SIZE in Hc.
      rewrite (bind_runs _ _ _ _ _ (read_u64_write _ _ Hg)).
      by rewrite (bind_runs _ _ _ _ _ (read_string_write code r ltac:(lia))).
  - unfold pledge_token_vote_parse, action_is. cbn [get_action_type get_action_param pledge_token_vote_serialze_to].
    change (negb (Z.eqb xaction_type_pledge_token_vote xaction_type_pledge_token_vote)) with false. cbv iota.
    rewrite (run_read_write _ _ (num, duration)); [done|].
    intros r. unfold read_pledge_vote. rewrite append_assoc.
    rewrite (bind_runs _ _ _ _ _ (read_u64_write _ _ Hn)). unfold read_u16, write_u16, bind. rewrite read_le_write, mod_u16.
    unfold u16. by rewrite Z.mod_small.
  - unfold redeem_token_vote_parse, action_is. cbn [get_action_type get_action_param redeem_token_vote_serialze_to].
    change (negb (Z.eqb xaction_type_redeem_token_vote xaction_type_redeem_token_vote)) with false. cbv iota.
    rewrite (run_read_write _ _ num); [done|]. intros r. by apply read_u64_write.
Qed.
