(* ===== verification/ConsTx.v ===== *)
(** * Transactions as execution sees them

    [xdata/xcons_transaction.h], [xdata/src/xcons_transaction.cpp] and the
    execution state of [xdata/xlightunit_info.h]: the header of [TxData], the
    deposit, length and actions, the execution state of the previous step that
    the receipt carries, and the state this execution writes.  Also the tests on
    addresses of [xdata/src/xgenesis_data.cpp]. *)

From stdpp Require Import prelude strings.
From Stdlib Require Import ZArith Lia Ascii.
From S2P Require Import Prelude AccountAddr TxData NativeProp Action.
Open Scope Z_scope.

(** ** Kinds of addresses *)

Definition enum_vaccount_addr_type_black_hole : Z := 33.                   (* '!' *)
Definition enum_vaccount_addr_type_secp256k1_user_account : Z := 48.       (* '0' *)
Definition enum_vaccount_addr_type_secp256k1_user_sub_account : Z := 49.   (* '1' *)
Definition enum_vaccount_addr_type_native_contract : Z := 50.              (* '2' *)
Definition enum_vaccount_addr_type_custom_contract : Z := 51.              (* '3' *)
Definition enum_chain_zone_beacon_index : Z := 1.
Definition enum_chain_zone_consensus_index : Z := 0.

Definition check_address_type (addr : string) (type : Z) : bool := type =? get_addrtype_from_account addr.
Definition check_address_type_and_zone `{XStringUtl} (addr : string) (type zone : Z) : bool :=
  let zone_index := u8 (get_vledger_zone_index (get_xid_from_account addr)) in
  (type =? get_addrtype_from_account addr) && (zone =? zone_index).

Definition is_account_address (addr : string) : bool := check_address_type addr enum_vaccount_addr_type_secp256k1_user_account.
Definition is_sub_account_address (addr : string) : bool := check_address_type addr enum_vaccount_addr_type_secp256k1_user_sub_account.
Definition is_sys_contract_address (addr : string) : bool := check_address_type addr enum_vaccount_addr_type_native_contract.
Definition is_black_hole_address (addr : string) : bool := check_address_type addr enum_vaccount_addr_type_black_hole.
Definition is_user_contract_address (addr : string) : bool := check_address_type addr enum_vaccount_addr_type_custom_contract.
Definition is_contract_address (addr : string) : bool := is_sys_contract_address addr || is_user_contract_address addr.
Definition is_beacon_contract_address `{XStringUtl} (addr : string) : bool :=
  check_address_type_and_zone addr enum_vaccount_addr_type_native_contract enum_chain_zone_beacon_index.
Definition is_sys_sharding_contract_address `{XStringUtl} (addr : string) : bool :=
  check_address_type_and_zone addr enum_vaccount_addr_type_native_contract enum_chain_zone_consensus_index.

(** ** The execution state of a transaction ([xtransaction_exec_state_t])

    The values are kept in a map of decimal strings; a missing value reads as 0,
    and a zero is not written: it leaves what was there. *)

Record exec_state := ExecState {
  es_send_tx_lock_tgas : Z;           (* uint32_t *)
  es_recv_tx_use_send_tx_tgas : Z;    (* uint32_t *)
  es_used_tgas : Z;                   (* uint32_t *)
  es_used_deposit : Z;                (* uint32_t *)
  es_used_disk : Z;                   (* uint32_t *)
  es_beacon_service_fee : Z;          (* uint64_t *)
  es_self_burn_balance : Z;           (* uint64_t *)
  es_status : Z                       (* the stored value; 0 when never set *)
}.
Definition exec_state_init : exec_state := ExecState 0 0 0 0 0 0 0 0.
#[export] Instance exec_state_eq_dec : EqDecision exec_state.
Proof. solve_decision. Defined.

Definition keep_if_zero (old v : Z) : Z := if v =? 0 then old else v.

Definition set_send_tx_lock_tgas (v : Z) (e : exec_state) : exec_state :=
  ExecState (keep_if_zero (es_send_tx_lock_tgas e) v) (es_recv_tx_use_send_tx_tgas e) (es_used_tgas e) (es_used_deposit e)
    (es_used_disk e) (es_beacon_service_fee e) (es_self_burn_balance e) (es_status e).
Definition set_recv_tx_use_send_tx_tgas (v : Z) (e : exec_state) : exec_state :=
  ExecState (es_send_tx_lock_tgas e) (keep_if_zero (es_recv_tx_use_send_tx_tgas e) v) (es_used_tgas e) (es_used_deposit e)
    (es_used_disk e) (es_beacon_service_fee e) (es_self_burn_balance e) (es_status e).
Definition set_used_tgas_state (v : Z) (e : exec_state) : exec_state :=
  ExecState (es_send_tx_lock_tgas e) (es_recv_tx_use_send_tx_tgas e) (keep_if_zero (es_used_tgas e) v) (es_used_deposit e)
    (es_used_disk e) (es_beacon_service_fee e) (es_self_burn_balance e) (es_status e).
Definition set_used_deposit (v : Z) (e : exec_state) : exec_state :=
  ExecState (es_send_tx_lock_tgas e) (es_recv_tx_use_send_tx_tgas e) (es_used_tgas e) (keep_if_zero (es_used_deposit e) v)
    (es_used_disk e) (es_beacon_service_fee e) (es_self_burn_balance e) (es_status e).
Definition set_used_disk_state (v : Z) (e : exec_state) : exec_state :=
  ExecState (es_send_tx_lock_tgas e) (es_recv_tx_use_send_tx_tgas e) (es_used_tgas e) (es_used_deposit e)
    (keep_if_zero (es_used_disk e) v) (es_beacon_service_fee e) (es_self_burn_balance e) (es_status e).
Definition set_beacon_service_fee (v : Z) (e : exec_state) : exec_state :=
  ExecState (es_send_tx_lock_tgas e) (es_recv_tx_use_send_tx_tgas e) (es_used_tgas e) (es_used_deposit e)
    (es_used_disk e) (keep_if_zero (es_beacon_service_fee e) v) (es_self_burn_balance e) (es_status e).
Definition set_self_burn_balance (v : Z) (e : exec_state) : exec_state :=
  ExecState (es_send_tx_lock_tgas e) (es_recv_tx_use_send_tx_tgas e) (es_used_tgas e) (es_used_deposit e)
    (es_used_disk e) (es_beacon_service_fee e) (keep_if_zero (es_self_burn_balance e) v) (es_status e).

Definition enum_xunit_tx_exec_status_success : Z := 1.
Definition enum_xunit_tx_exec_status_fail : Z := 2.

(** Success is the default and is not written: a failure stays. *)
Definition set_tx_exec_status (v : Z) (e : exec_state) : exec_state :=
  if v =? enum_xunit_tx_exec_status_success then e
  else ExecState (es_send_tx_lock_tgas e) (es_recv_tx_use_send_tx_tgas e) (es_used_tgas e) (es_used_deposit e)
         (es_used_disk e) (es_beacon_service_fee e) (es_self_burn_balance e) (keep_if_zero (es_status e) v).
Definition get_tx_exec_status (e : exec_state) : Z :=
  if es_status e =? 0 then enum_xunit_tx_exec_status_success else es_status e.

(** ** Consensus transactions *)

(** The part of a receipt that execution reads: which step it proves and its state. *)
Record tx_receipt := TxReceipt { rc_subtype : Z; rc_state : exec_state }.

Record xcons_tx := XConsTx {
  ct_tx : xtransaction;
  ct_deposit : Z;                    (* uint32_t *)
  ct_tx_len : Z;                     (* uint16_t *)
  ct_source_action : xaction;
  ct_target_action : xaction;
  ct_receipt : option tx_receipt;
  ct_exec : exec_state               (* m_execute_state, local member *)
}.

Definition set_subtype (t : Z) (tx : xtransaction) : xtransaction :=
  XTransaction (get_tx_type tx) (get_expire_duration tx) (get_fire_timestamp tx) (get_last_nonce tx) (get_last_hash tx)
    (digest tx) (get_source_addr tx) (get_target_addr tx) t (get_push_pool_timestamp tx) (get_clock tx).

(** [update_transation]: which step a transaction is in. *)
Definition update_transation (receipt : option tx_receipt) (tx : xtransaction) : xtransaction :=
  match receipt with
  | None =>
      if bool_decide (get_source_addr tx = get_target_addr tx) || is_black_hole_address (get_target_addr tx)
      then set_subtype enum_transaction_subtype_self tx
      else set_subtype enum_transaction_subtype_send tx
  | Some r =>
      if rc_subtype r =? enum_transaction_subtype_send then set_subtype enum_transaction_subtype_recv tx
      else if rc_subtype r =? enum_transaction_subtype_recv then set_subtype enum_transaction_subtype_confirm tx
      else tx
  end.

(** The constructors of [xcons_transaction_t]. *)
Definition make_cons_tx (tx : xtransaction) (deposit len : Z) (src tgt : xaction) (receipt : option tx_receipt) : xcons_tx :=
  XConsTx (update_transation receipt tx) deposit len src tgt receipt exec_state_init.

(** [do_write] and [do_read]: what is read back of a written transaction has no
    execution state, and its step is worked out again. *)
Definition reread (t : xcons_tx) : xcons_tx :=
  make_cons_tx (ct_tx t) (ct_deposit t) (ct_tx_len t) (ct_source_action t) (ct_target_action t) (ct_receipt t).

Definition get_receipt_source_account (t : xcons_tx) : string :=
  if is_recv_tx (ct_tx t) then get_source_addr (ct_tx t) else get_target_addr (ct_tx t).
Definition get_receipt_target_account (t : xcons_tx) : string :=
  if is_recv_tx (ct_tx t) then get_target_addr (ct_tx t) else get_source_addr (ct_tx t).

Definition from_receipt (f : exec_state -> Z) (t : xcons_tx) : Z :=
  match ct_receipt t with Some r => f (rc_state r) | None => 0 end.
Definition get_last_action_used_deposit : xcons_tx -> Z := from_receipt es_used_deposit.
Definition get_last_action_send_tx_lock_tgas : xcons_tx -> Z := from_receipt es_send_tx_lock_tgas.
Definition get_last_action_recv_tx_use_send_tx_tgas : xcons_tx -> Z := from_receipt es_recv_tx_use_send_tx_tgas.
Definition get_last_action_exec_status : xcons_tx -> Z := from_receipt get_tx_exec_status.

Definition with_exec (f : exec_state -> exec_state) (t : xcons_tx) : xcons_tx :=
  XConsTx (ct_tx t) (ct_deposit t) (ct_tx_len t) (ct_source_action t) (ct_target_action t) (ct_receipt t) (f (ct_exec t)).

(** The receipt of a step, as the next step gets it ([create_txreceipt]). *)
Definition next_step_tx (t : xcons_tx) : xcons_tx :=
  make_cons_tx (ct_tx t) (ct_deposit t) (ct_tx_len t) (ct_source_action t) (ct_target_action t)
    (Some (TxReceipt (get_tx_subtype (ct_tx t)) (ct_exec t))).

Lemma with_exec_tx f t : ct_tx (with_exec f t) = ct_tx t. Proof. done. Qed.
