(* ===== verification/ChainState.v ===== *)
(** * The state of an account's chain: [xdata/xblockchain.h], [xdata/src/xblockchain.cpp], [xdata/xaccount_mstate.h]

    Balances, locks, pledges and nonces of an account, what a committed unit
    changes of them, and the gas an account may use.  The values of the
    configuration are the class [ExecConfig]. *)

From stdpp Require Import prelude strings gmap.
From Stdlib Require Import ZArith Lia.
From S2P Require Import Prelude AccountAddr TxData StdNum NativeProp Action ConsTx.
Open Scope Z_scope.

Class ExecConfig := {
  min_account_deposit : Z;                 (* uint64_t *)
  min_tx_deposit : Z;                      (* uint32_t *)
  tx_deposit_gas_exchange_ratio : Z;       (* uint64_t *)
  min_free_gas_balance : Z;                (* uint64_t *)
  free_gas : Z;                            (* uint64_t *)
  initial_total_locked_token : Z;          (* uint64_t *)
  total_gas_shard : Z;                     (* uint64_t *)
  validator_group_count : Z;               (* uint16_t *)
  max_gas_contract : Z;                    (* uint64_t *)
  max_gas_account : Z;                     (* uint64_t *)
  usedgas_decay_cycle : Z;                 (* uint32_t *)
  cpu_gas_exchange_ratio : Z;              (* uint32_t *)
  beacon_tx_fee : Z;                       (* uint64_t *)
  min_stake_votes_num : Z;                 (* uint16_t *)
  unlock_gas_staked_delay_time : Z;        (* uint32_t *)
  config_property_alias_name_max_len : Z;  (* uint32_t *)
  contract_call_contracts_num : Z;         (* uint32_t *)
  fullunit_contain_of_unit_num : Z         (* uint32_t *)
}.

Definition TOP_UNIT : Z := 1000000.
Definition TOTAL_ISSUANCE : Z := 200 * 100000000 * TOP_UNIT.

(** Conversion to [int64_t] (two's complement). *)
Definition i64 (x : Z) : Z := (x + 2 ^ 63) mod 2 ^ 64 - 2 ^ 63.

Lemma i64_small x : - 2 ^ 63 <= x < 2 ^ 63 -> i64 x = x.
Proof. intros H. unfold i64. rewrite Z.mod_small by lia. lia. Qed.
Lemma u64_i64 x : u64 (i64 x) = u64 x.
Proof. unfold u64, i64. rewrite Zminus_mod_idemp_l. f_equal. lia. Qed.

(** Names of native properties ([xdata/xproperty.h]). *)
Definition XPROPERTY_ALIAS_NAME : string := "@3".
Definition XPROPERTY_LOCK_TOKEN_KEY : string := "@4".
Definition XPROPERTY_LOCK_TOKEN_SUM_KEY : string := "@5".
Definition XPROPERTY_AUTHORIZE_KEY : string := "@6".
Definition XPROPERTY_ACCOUNT_KEYS : string := "@7".
Definition XPROPERTY_ACCOUNT_VOTE_KEY : string := "@8".
Definition XPROPERTY_ACCOUNT_TRANSFER_KEY : string := "@9".
Definition XPROPERTY_ACCOUNT_DATA_KEY : string := "@10".
Definition XPROPERTY_ACCOUNT_CONSENSUS_KEY : string := "@11".
Definition XPORPERTY_PARENT_ACCOUNT_KEY : string := "@12".
Definition XPORPERTY_SUB_ACCOUNT_KEY : string := "@13".
Definition XPORPERTY_CONTRACT_SUB_ACCOUNT_KEY : string := "@14".
Definition XPORPERTY_CONTRACT_PARENT_ACCOUNT_KEY : string := "@15".
Definition XPORPERTY_CONTRACT_NATIVE_TOKEN_KEY : string := "@16".
Definition XPROPERTY_USED_TGAS_KEY : string := "@30".
Definition XPROPERTY_LAST_TX_HOUR_KEY : string := "@32".
Definition XPROPERTY_USED_DISK_KEY : string := "@34".
Definition XPROPERTY_CONTRACT_TGAS_LIMIT_KEY : string := "@37".
Definition XPROPERTY_PLEDGE_VOTE_KEY : string := "@45".
Definition XPROPERTY_EXPIRE_VOTE_TOKEN_KEY : string := "@46".

(** ** Main state of an account ([xaccount_mstate2]); its native properties are kept beside it *)

Record mstate := MState {
  ms_latest_send_trans_number : Z;
  ms_latest_send_trans_hash : string;
  ms_latest_recv_trans_number : Z;
  ms_latest_recv_trans_hash : string;
  ms_balance : Z;
  ms_burn_balance : Z;
  ms_pledge_tgas : Z;
  ms_pledge_disk : Z;
  ms_pledge_vote : Z;
  ms_lock_balance : Z;
  ms_lock_tgas : Z;
  ms_unvote_num : Z;
  ms_create_time : Z;
  ms_property_hash : gmap string string;
  ms_unconfirm_sendtx_num : Z           (* uint16_t *)
}.
Definition mstate_init : mstate :=
  MState 0 uint256_zero 0 uint256_zero 0 0 0 0 0 0 0 0 0 ∅ 0.

Definition set_pledge_tgas_balance (v : Z) (m : mstate) : mstate :=
  MState (ms_latest_send_trans_number m) (ms_latest_send_trans_hash m) (ms_latest_recv_trans_number m)
    (ms_latest_recv_trans_hash m) (ms_balance m) (ms_burn_balance m) v (ms_pledge_disk m) (ms_pledge_vote m)
    (ms_lock_balance m) (ms_lock_tgas m) (ms_unvote_num m) (ms_create_time m) (ms_property_hash m) (ms_unconfirm_sendtx_num m).
Definition set_pledge_disk_balance (v : Z) (m : mstate) : mstate :=
  MState (ms_latest_send_trans_number m) (ms_latest_send_trans_hash m) (ms_latest_recv_trans_number m)
    (ms_latest_recv_trans_hash m) (ms_balance m) (ms_burn_balance m) (ms_pledge_tgas m) v (ms_pledge_vote m)
    (ms_lock_balance m) (ms_lock_tgas m) (ms_unvote_num m) (ms_create_time m) (ms_property_hash m) (ms_unconfirm_sendtx_num m).
Definition set_latest_send_trans (number : Z) (hash : string) (m : mstate) : mstate :=
  MState number hash (ms_latest_recv_trans_number m)
    (ms_latest_recv_trans_hash m) (ms_balance m) (ms_burn_balance m) (ms_pledge_tgas m) (ms_pledge_disk m) (ms_pledge_vote m)
    (ms_lock_balance m) (ms_lock_tgas m) (ms_unvote_num m) (ms_create_time m) (ms_property_hash m) (ms_unconfirm_sendtx_num m).
Definition set_account_create_time (t : Z) (m : mstate) : mstate :=
  MState (ms_latest_send_trans_number m) (ms_latest_send_trans_hash m) (ms_latest_recv_trans_number m)
    (ms_latest_recv_trans_hash m) (ms_balance m) (ms_burn_balance m) (ms_pledge_tgas m) (ms_pledge_disk m) (ms_pledge_vote m)
    (ms_lock_balance m) (ms_lock_tgas m) (ms_unvote_num m) t (ms_property_hash m) (ms_unconfirm_sendtx_num m).

(** The changes a batch of transactions makes ([int64_t] members of the context and of a unit). *)
Record changes := Changes {
  c_balance : Z;
  c_tgas : Z;
  c_disk : Z;
  c_vote : Z;
  c_lock_balance : Z;
  c_lock_tgas : Z;
  c_unvote : Z
}.
Definition changes_zero : changes := Changes 0 0 0 0 0 0 0.
#[export] Instance changes_eq_dec : EqDecision changes.
Proof. solve_decision. Defined.

(** ** The chain of an account *)

Record xblockchain := XBlockchain {
  bc_account : string;
  bc_min_block_height : Z;
  bc_max_block_height : Z;
  bc_last_state_block_height : Z;
  bc_last_state_block_hash : string;
  bc_last_full_block_height : Z;
  bc_last_full_block_hash : string;
  bc_update_stamp : Z;
  bc_property_confirm_height : Z;
  bc_state : mstate
}.
Definition blockchain_init (account : string) : xblockchain := XBlockchain account 0 0 0 "" 0 "" 0 0 mstate_init.

Definition with_state (f : mstate -> mstate) (b : xblockchain) : xblockchain :=
  XBlockchain (bc_account b) (bc_min_block_height b) (bc_max_block_height b) (bc_last_state_block_height b)
    (bc_last_state_block_hash b) (bc_last_full_block_height b) (bc_last_full_block_hash b) (bc_update_stamp b)
    (bc_property_confirm_height b) (f (bc_state b)).

Definition balance (b : xblockchain) : Z := ms_balance (bc_state b).
Definition tgas_balance (b : xblockchain) : Z := ms_pledge_tgas (bc_state b).
Definition disk_balance (b : xblockchain) : Z := ms_pledge_disk (bc_state b).
Definition vote_balance (b : xblockchain) : Z := ms_pledge_vote (bc_state b).
Definition lock_balance (b : xblockchain) : Z := ms_lock_balance (bc_state b).
Definition lock_tgas (b : xblockchain) : Z := ms_lock_tgas (bc_state b).
Definition unvote_num (b : xblockchain) : Z := ms_unvote_num (bc_state b).
Definition account_send_trans_hash (b : xblockchain) : string := ms_latest_send_trans_hash (bc_state b).
Definition account_send_trans_number (b : xblockchain) : Z := ms_latest_send_trans_number (bc_state b).
Definition get_unconfirm_sendtx_num (b : xblockchain) : Z := ms_unconfirm_sendtx_num (bc_state b).

(** An account as the store keeps it: the chain object with its native properties, by value. *)
Record account_image := AccountImage { ai_chain : xblockchain; ai_native : gmap string xdataunit }.

(** ** Gas *)

Section Gas.
Context `{ExecConfig}.

Definition get_free_tgas (b : xblockchain) : Z :=
  let total_asset := u64 (balance b + lock_balance b + tgas_balance b + disk_balance b + vote_balance b) in
  if min_free_gas_balance <=? total_asset then free_gas else 0.

(** [None]: division by zero. *)
Definition get_token_price (onchain_total_pledge_token : Z) : option Z :=
  let total_pledge_token := u64 (onchain_total_pledge_token + initial_total_locked_token) in
  if total_pledge_token =? 0 then None
  else Some (u32 (u64 (u64 (total_gas_shard * validator_group_count) * TOP_UNIT) / total_pledge_token)).

Definition get_total_tgas (b : xblockchain) (token_price : Z) : Z :=
  let total_tgas := u64 (u64 (tgas_balance b * token_price) / TOP_UNIT + get_free_tgas b) in
  let max_tgas := if is_user_contract_address (bc_account b) then max_gas_contract else max_gas_account in
  Z.min total_tgas max_tgas.

(** A counter kept as a decimal string; 0 when it is missing ([None]: [stoull] throws). *)
Definition get_counter (s : np) (name : string) : option Z :=
  match native_string_get s name with Some v => stoull v | None => Some 0 end.

Definition chain_calc_decayed_tgas (s : np) (timer_height : Z) : option Z :=
  match get_counter s XPROPERTY_LAST_TX_HOUR_KEY with
  | Some hour =>
      let last_hour := u32 hour in
      if timer_height <=? last_hour then get_counter s XPROPERTY_USED_TGAS_KEY
      else if timer_height - last_hour <? usedgas_decay_cycle
           then (fun used => u64 ((usedgas_decay_cycle - (timer_height - last_hour)) * used) / usedgas_decay_cycle)
                  <$> get_counter s XPROPERTY_USED_TGAS_KEY
           else Some 0
  | None => None
  end.

Definition chain_get_available_tgas (b : xblockchain) (s : np) (timer_height token_price : Z) : option Z :=
  match chain_calc_decayed_tgas s timer_height with
  | Some used_tgas =>
      let total_tgas := get_total_tgas b token_price in
      Some (if used_tgas <? total_tgas then total_tgas - used_tgas else 0)
  | None => None
  end.
End Gas.

(** ** Units *)

(** A light unit: its transactions with their execution states, and the changes
    ([xlightunit_block_t] with [xlightunit_output_resource_t]). *)
Record xlightunit := XLightUnit {
  lu_txs : list xcons_tx;
  lu_change : changes;
  lu_native : gmap string xdataunit;
  lu_property_hash : gmap string string;
  lu_unconfirm_sendtx_num : Z;           (* uint16_t *)
  lu_prev_sendtx_confirmed : bool
}.

(** A full unit: the state with its native properties, the bytes of the other
    properties, and the full unit before it. *)
Record xfullunit := XFullUnit {
  fu_state : mstate;
  fu_native : gmap string xdataunit;
  fu_propertys : gmap string string;
  fu_first_unit_height : Z;
  fu_first_unit_hash : string
}.

Inductive unit_body :=
| LightUnit (u : xlightunit)
| FullUnit (u : xfullunit)
| EmptyUnit.

Record xunit := XUnit {
  un_height : Z;
  un_hash : string;
  un_last_hash : string;
  un_gmtime : Z;
  un_body : unit_body
}.

(** Number and hash of the last transaction sent: the greatest nonce. *)
Definition unit_send_trans_info (u : xlightunit) : Z * string :=
  fold_left (fun acc t =>
      if is_origin_tx (ct_tx t) && (acc.1 <? get_tx_nonce (ct_tx t)) then (get_tx_nonce (ct_tx t), digest (ct_tx t)) else acc)
    (lu_txs u) (0, uint256_zero).
Definition get_recv_trans_info (u : xlightunit) : Z * string :=
  fold_left (fun acc t => if is_recv_tx (ct_tx t) then (acc.1 + 1, digest (ct_tx t)) else acc) (lu_txs u) (0, uint256_zero).

Definition get_burn_balance_change (u : xlightunit) : Z :=
  fold_left (fun acc t =>
      let e := ct_exec t in
      let acc := if is_self_tx (ct_tx t) || is_confirm_tx (ct_tx t) then i64 (acc + es_used_deposit e) else acc in
      i64 (i64 (acc + es_beacon_service_fee e) + es_self_burn_balance e)) (lu_txs u) 0.

Definition add_light_unit (u : xlightunit) (a : account_image) : account_image :=
  let m := bc_state (ai_chain a) in
  let c := lu_change u in
  let '(snd_num, snd_hash) := unit_send_trans_info u in
  let '(rcv_num, rcv_hash) := get_recv_trans_info u in
  let m' := MState
    (if snd_num =? 0 then ms_latest_send_trans_number m else snd_num)
    (if snd_num =? 0 then ms_latest_send_trans_hash m else snd_hash)
    (if rcv_num =? 0 then ms_latest_recv_trans_number m else u64 (ms_latest_recv_trans_number m + rcv_num))
    (if rcv_num =? 0 then ms_latest_recv_trans_hash m else rcv_hash)
    (u64 (ms_balance m + c_balance c))
    (u64 (ms_burn_balance m + get_burn_balance_change u))
    (u64 (ms_pledge_tgas m + c_tgas c))
    (u64 (ms_pledge_disk m + c_disk c))
    (u64 (ms_pledge_vote m + c_vote c))
    (u64 (ms_lock_balance m + c_lock_balance c))
    (u64 (ms_lock_tgas m + c_lock_tgas c))
    (u64 (ms_unvote_num m + c_unvote c))
    (ms_create_time m)
    (lu_property_hash u ∪ ms_property_hash m)
    (lu_unconfirm_sendtx_num u) in
  AccountImage (with_state (fun _ => m') (ai_chain a)) (lu_native u ∪ ai_native a).

Definition set_last_full (height : Z) (hash : string) (b : xblockchain) : xblockchain :=
  XBlockchain (bc_account b) (bc_min_block_height b) (bc_max_block_height b) (bc_last_state_block_height b)
    (bc_last_state_block_hash b) height hash (bc_update_stamp b) (bc_property_confirm_height b) (bc_state b).
Definition set_last_state (height : Z) (hash : string) (b : xblockchain) : xblockchain :=
  XBlockchain (bc_account b) (bc_min_block_height b) (bc_max_block_height b) height hash
    (bc_last_full_block_height b) (bc_last_full_block_hash b) (bc_update_stamp b) (bc_property_confirm_height b) (bc_state b).
Definition on_chain (f : xblockchain -> xblockchain) (a : account_image) : account_image :=
  AccountImage (f (ai_chain a)) (ai_native a).

Definition add_full_unit (b : xunit) (u : xfullunit) (a : account_image) : account_image :=
  AccountImage (set_last_full (un_height b) (un_hash b) (with_state (fun _ => fu_state u) (ai_chain a))) (fu_native u).

Definition update_last_block_state (b : xunit) (a : account_image) : account_image :=
  match un_body b with
  | LightUnit u => add_light_unit u a
  | FullUnit u => add_full_unit b u a
  | EmptyUnit => a
  end.

Definition is_emptyblock (b : xunit) : bool := match un_body b with EmptyUnit => true | _ => false end.
Definition set_create_time_once (b : xunit) (a : account_image) : account_image :=
  if ms_create_time (bc_state (ai_chain a)) =? 0
  then on_chain (with_state (set_account_create_time (un_gmtime b))) a else a.

Definition update_state_by_genesis_block (b : xunit) (a : account_image) : account_image :=
  let a := if negb (is_emptyblock b) then set_create_time_once b a else a in
  let a :=
    if bc_last_state_block_height (ai_chain a) =? 0
    then on_chain (set_last_state (un_height b) (un_hash b)) (update_last_block_state b a) else a in
  if bc_last_full_block_height (ai_chain a) =? 0
  then on_chain (set_last_full (un_height b) (un_hash b)) a else a.

(** Only the block that continues the state is taken ([None]: the function answers false). *)
Definition update_state_by_next_height_block (b : xunit) (a : account_image) : option account_image :=
  if negb (u64 (bc_last_state_block_height (ai_chain a) + 1) =? un_height b)
     || (negb (bool_decide (bc_last_state_block_hash (ai_chain a) = un_last_hash b)) && (2 <=? un_height b))
  then None
  else
    let a := if un_height b =? 1 then set_create_time_once b a else a in
    Some (on_chain (set_last_state (un_height b) (un_hash b)) (update_last_block_state b a)).

Definition update_state_by_full_block (b : xunit) (a : account_image) : option account_image :=
  match un_body b with
  | FullUnit _ => Some (on_chain (set_last_state (un_height b) (un_hash b)) (update_last_block_state b a))
  | _ => None
  end.

Definition update_min_max_height (height : Z) (b : xblockchain) : xblockchain :=
  XBlockchain (bc_account b)
    (if (bc_min_block_height b =? 0) || (height <? bc_min_block_height b) then height else bc_min_block_height b)
    (if bc_max_block_height b <? height then height else bc_max_block_height b)
    (bc_last_state_block_height b) (bc_last_state_block_hash b) (bc_last_full_block_height b) (bc_last_full_block_hash b)
    (bc_update_stamp b) (bc_property_confirm_height b) (bc_state b).

(** ** Loading the properties of a stored account into a heap ([clone_account]) *)

Definition load_native (m : gmap string xdataunit) : np :=
  let l := map_to_list m in
  (snd <$> l, XNativeProperty (list_to_map (imap (fun i kv => (kv.1, i)) l)) ∅).
