(* ===== verification/AccountCtx.v ===== *)
(** * The context in which the transactions of an account run: [xstore/xaccount_context.h], [xstore/src/xaccount_context.cpp]

    A context has a private copy of the account, the native properties it
    changes and the sums of the changes made so far.  The copy's property set
    and the context's property set are copies of each other: they share the
    objects that existed before, and each has its own new ones.  Transactions
    are objects too, reached by pointer.

    What the base library gives without source is the class [ExecBase]: the
    conversions of [xstring_utl], and the arithmetic on [double] that turns votes
    into tokens.  [None] is a thrown exception or a division by zero. *)

From stdpp Require Import prelude strings gmap.
From Stdlib Require Import ZArith Lia.
From S2P Require Import Prelude Stream StdMap StdNum AccountAddr TxData NativeProp Action ConsTx ChainState.
Open Scope Z_scope.

Class ExecBase := {
  touint64 : string -> Z;                  (* xstring_utl::touint64 *)
  utostring : Z -> string;                 (* xstring_utl::tostring(uint64_t) *)
  vote_tokens : Z -> Z -> Z -> Z;          (* uint64_t(double(sum) + double(n) / config::get_top_vote_rate(duration)) *)
  tx_digest : xtransaction -> Z -> xaction -> xaction -> string;   (* xtransaction_t::set_digest *)
  tx_len_of : xtransaction -> Z -> xaction -> xaction -> Z         (* xtransaction_t::set_len *)
}.

Definition sys_contract_zec_reward_addr : string := "T200024uV5yB1ZCnXe7SbViA86ufhouFjpDKNRd3X@0".
Definition black_hole_addr : string := "T!000131R4UAjgF6ZBWnwZESMWx4nCnqL1GhM3nT3".

(** What [m_accountcmd] answers about the user's properties. *)
Record account_cmd := AccountCmd { cmd_property_hash : gmap string string; cmd_property_log : option string }.

Record ectx := ECtx {
  x_heap : heap;
  x_address : string;
  x_account : xblockchain;
  x_acct_native : xnative_property;       (* m_account's property set *)
  x_native : xnative_property;            (* m_native_property *)
  x_change : changes;
  x_cmd : account_cmd;
  x_contract_txs : list loc;
  x_txs : list xcons_tx;                  (* the transaction objects *)
  x_source_pay_info : xproperty_asset;
  x_timestamp : Z;
  x_timer_height : Z;
  x_tgas_limit : Z;
  x_cur_used_tgas : Z;                    (* uint32_t *)
  x_random_seed : string;
  x_sys_total_lock_tgas_token : Z
}.

(** ** Setters *)

Definition set_props (h : heap) (p : xnative_property) (s : ectx) : ectx :=
  ECtx h (x_address s) (x_account s) (x_acct_native s) p (x_change s) (x_cmd s) (x_contract_txs s) (x_txs s)
    (x_source_pay_info s) (x_timestamp s) (x_timer_height s) (x_tgas_limit s) (x_cur_used_tgas s) (x_random_seed s) (x_sys_total_lock_tgas_token s).
Definition on_account (f : xblockchain -> xblockchain) (s : ectx) : ectx :=
  ECtx (x_heap s) (x_address s) (f (x_account s)) (x_acct_native s) (x_native s) (x_change s) (x_cmd s) (x_contract_txs s) (x_txs s)
    (x_source_pay_info s) (x_timestamp s) (x_timer_height s) (x_tgas_limit s) (x_cur_used_tgas s) (x_random_seed s) (x_sys_total_lock_tgas_token s).
Definition on_change (f : changes -> changes) (s : ectx) : ectx :=
  ECtx (x_heap s) (x_address s) (x_account s) (x_acct_native s) (x_native s) (f (x_change s)) (x_cmd s) (x_contract_txs s) (x_txs s)
    (x_source_pay_info s) (x_timestamp s) (x_timer_height s) (x_tgas_limit s) (x_cur_used_tgas s) (x_random_seed s) (x_sys_total_lock_tgas_token s).
Definition set_txs (c : list loc) (t : list xcons_tx) (s : ectx) : ectx :=
  ECtx (x_heap s) (x_address s) (x_account s) (x_acct_native s) (x_native s) (x_change s) (x_cmd s) c t
    (x_source_pay_info s) (x_timestamp s) (x_timer_height s) (x_tgas_limit s) (x_cur_used_tgas s) (x_random_seed s) (x_sys_total_lock_tgas_token s).
Definition set_source_pay_info (a : xproperty_asset) (s : ectx) : ectx :=
  ECtx (x_heap s) (x_address s) (x_account s) (x_acct_native s) (x_native s) (x_change s) (x_cmd s) (x_contract_txs s) (x_txs s)
    a (x_timestamp s) (x_timer_height s) (x_tgas_limit s) (x_cur_used_tgas s) (x_random_seed s) (x_sys_total_lock_tgas_token s).
Definition set_tgas_limit (v : Z) (s : ectx) : ectx :=
  ECtx (x_heap s) (x_address s) (x_account s) (x_acct_native s) (x_native s) (x_change s) (x_cmd s) (x_contract_txs s) (x_txs s)
    (x_source_pay_info s) (x_timestamp s) (x_timer_height s) v (x_cur_used_tgas s) (x_random_seed s) (x_sys_total_lock_tgas_token s).
Definition set_cur_used_tgas (v : Z) (s : ectx) : ectx :=
  ECtx (x_heap s) (x_address s) (x_account s) (x_acct_native s) (x_native s) (x_change s) (x_cmd s) (x_contract_txs s) (x_txs s)
    (x_source_pay_info s) (x_timestamp s) (x_timer_height s) (x_tgas_limit s) v (x_random_seed s) (x_sys_total_lock_tgas_token s).
Definition set_context_para (clock : Z) (random_seed : string) (timestamp sys_total : Z) (s : ectx) : ectx :=
  ECtx (x_heap s) (x_address s) (x_account s) (x_acct_native s) (x_native s) (x_change s) (x_cmd s) (x_contract_txs s) (x_txs s)
    (x_source_pay_info s) timestamp clock (x_tgas_limit s) (x_cur_used_tgas s) random_seed sys_total.

Abbreviation eprog := (prog ectx).

Definition ctx_np (s : ectx) : np := (x_heap s, x_native s).
Definition acct_np (s : ectx) : np := (x_heap s, x_acct_native s).

(** An operation on [m_native_property]. *)
Definition run_np (f : np -> np_code * np) : eprog np_code :=
  fun s => let '(c, (h, p)) := f (ctx_np s) in Some (c, set_props h p s).
Definition string_set (k v : string) : eprog np_code := run_np (fun n => native_string_set n k v).

(** Sums of changes; the sum is computed modulo 2^64 and kept as [int64_t]. *)
Definition set_balance_change (d : Z) : eprog unit :=
  modify (on_change (fun c => Changes (i64 (c_balance c + d)) (c_tgas c) (c_disk c) (c_vote c) (c_lock_balance c) (c_lock_tgas c) (c_unvote c))).
Definition set_tgas_balance_change (d : Z) : eprog unit :=
  modify (on_change (fun c => Changes (c_balance c) (i64 (c_tgas c + d)) (c_disk c) (c_vote c) (c_lock_balance c) (c_lock_tgas c) (c_unvote c))).
Definition set_disk_balance_change (d : Z) : eprog unit :=
  modify (on_change (fun c => Changes (c_balance c) (c_tgas c) (i64 (c_disk c + d)) (c_vote c) (c_lock_balance c) (c_lock_tgas c) (c_unvote c))).
Definition set_vote_balance_change (d : Z) : eprog unit :=
  modify (on_change (fun c => Changes (c_balance c) (c_tgas c) (c_disk c) (i64 (c_vote c + d)) (c_lock_balance c) (c_lock_tgas c) (c_unvote c))).
Definition set_lock_balance_change (d : Z) : eprog unit :=
  modify (on_change (fun c => Changes (c_balance c) (c_tgas c) (c_disk c) (c_vote c) (i64 (c_lock_balance c + d)) (c_lock_tgas c) (c_unvote c))).
Definition set_lock_tgas_change (d : Z) : eprog unit :=
  modify (on_change (fun c => Changes (c_balance c) (c_tgas c) (c_disk c) (c_vote c) (c_lock_balance c) (i64 (c_lock_tgas c + d)) (c_unvote c))).
Definition set_unvote_num_change (d : Z) : eprog unit :=
  modify (on_change (fun c => Changes (c_balance c) (c_tgas c) (c_disk c) (c_vote c) (c_lock_balance c) (c_lock_tgas c) (i64 (c_unvote c + i64 d)))).

(** [add] of [xbasic/xutility.h]: throws on overflow. *)
Definition add2 (i j : Z) : option Z := let r := u64 (i + j) in if r <? j then None else Some r.
Definition add3 (i j k : Z) : option Z := match add2 i j with Some r => add2 r k | None => None end.

Section Context.
Context `{ExecConfig} `{ExecBase} `{TxEnv}.

(** ** Construction *)

Definition account_context (address : string) (stored : option account_image) (txs : list xcons_tx) : ectx :=
  match stored with
  | Some im =>
      let '(h, p) := load_native (ai_native im) in
      ECtx h address (ai_chain im) p (clear_dirty p) changes_zero (AccountCmd ∅ None) [] txs (XAsset "TOP" 0) 0 0 0 0 "" 0
  | None =>
      ECtx [] address (blockchain_init address) native_empty native_empty changes_zero (AccountCmd ∅ None) [] txs (XAsset "TOP" 0) 0 0 0 0 "" 0
  end.

(** ** Counters *)

Definition read_counter (name : string) : eprog Z := fun s => (fun v => (v, s)) <$> get_counter (ctx_np s) name.
Definition get_lock_token_sum : eprog Z := read_counter XPROPERTY_LOCK_TOKEN_SUM_KEY.
Definition set_lock_token_sum (sum : Z) : eprog unit := string_set XPROPERTY_LOCK_TOKEN_SUM_KEY (to_string sum) ;;; ret tt.
Definition get_used_tgas : eprog Z := read_counter XPROPERTY_USED_TGAS_KEY.
Definition get_last_tx_hour : eprog Z := read_counter XPROPERTY_LAST_TX_HOUR_KEY.
Definition get_tgas_limit : eprog Z := read_counter XPROPERTY_CONTRACT_TGAS_LIMIT_KEY.

Definition can_work : eprog bool :=
  let* a := gets x_address in
  if is_sys_contract_address a then ret true
  else let* lock_sum := get_lock_token_sum in ret (negb (lock_sum <? min_account_deposit)).

(** ** Sub accounts and names *)

Definition MAX_SUB_ACCOUNT : Z := 256.
Definition MAX_NORMAL_CONTRACT_ACCOUNT : Z := 32.

Definition account_check (key value : string) (limit : Z) : eprog xret :=
  let* n := gets ctx_np in
  if native_deque_exist n key value then ret xaccount_property_sub_account_exist
  else match native_deque_size n key with
       | Some size => if limit <=? size then ret xaccount_property_sub_account_overflow else ret xret_success
       | None => ret xret_success
       end.
Definition sub_contract_sub_account_check (value : string) : eprog xret :=
  account_check XPORPERTY_CONTRACT_SUB_ACCOUNT_KEY value MAX_NORMAL_CONTRACT_ACCOUNT.
Definition sub_account_check (value : string) : eprog xret :=
  account_check XPORPERTY_SUB_ACCOUNT_KEY value MAX_SUB_ACCOUNT.
Definition exist_sub_or_contract_account : eprog xret :=
  let* n := gets ctx_np in
  let nonempty key := match native_deque_size n key with Some size => 0 <? size | None => false end in
  ret (if nonempty XPORPERTY_SUB_ACCOUNT_KEY then xaccount_property_sub_account_exist
       else if nonempty XPORPERTY_CONTRACT_SUB_ACCOUNT_KEY then xaccount_property_contract_sub_account_exist
       else xret_success).
Definition set_contract_sub_account (value : string) : eprog xret :=
  let* c := run_np (fun n => native_deque_push_back n XPORPERTY_CONTRACT_SUB_ACCOUNT_KEY value) in ret (of_np c).
Definition set_sub_account (value : string) : eprog xret :=
  let* c := run_np (fun n => native_deque_push_back n XPORPERTY_SUB_ACCOUNT_KEY value) in ret (of_np c).
Definition remove_sub_account (value : string) : eprog xret :=
  let* c := run_np (fun n => native_deque_erase n XPORPERTY_SUB_ACCOUNT_KEY value) in ret (of_np c).
Definition remove_contract_sub_account (value : string) : eprog xret :=
  let* c := run_np (fun n => native_deque_erase n XPORPERTY_CONTRACT_SUB_ACCOUNT_KEY value) in ret (of_np c).

Definition get_parent_account : eprog (option string) :=
  let* n := gets ctx_np in ret (native_string_get n XPORPERTY_CONTRACT_PARENT_ACCOUNT_KEY).

Definition account_alias_name_set (name : string) : eprog xret :=
  let* _ := get_lock_token_sum in
  let* w := can_work in
  if negb w then ret xaccount_balance_not_enough
  else
    let* a := gets x_account in
    if bc_max_block_height a =? 0 then ret xaccount_unit_height_should_not_zero
    else let* c := string_set XPROPERTY_ALIAS_NAME name in ret (of_np c).

Definition account_set_keys (key value : string) : eprog xret :=
  let* _ := get_lock_token_sum in
  let* w := can_work in
  if negb w then ret xaccount_balance_not_enough
  else if bool_decide (key = XPROPERTY_ACCOUNT_VOTE_KEY) || bool_decide (key = XPROPERTY_ACCOUNT_TRANSFER_KEY)
          || bool_decide (key = XPROPERTY_ACCOUNT_DATA_KEY) || bool_decide (key = XPROPERTY_ACCOUNT_CONSENSUS_KEY)
       then let* c := run_np (fun n => native_map_set n XPROPERTY_ACCOUNT_KEYS key value) in ret (of_np c)
       else ret xaccount_set_keys_key_illegal.

Definition authorize_key (author_type : Z) (params : string) : eprog xret :=
  run_np (fun n => native_map_set n XPROPERTY_AUTHORIZE_KEY XPROPERTY_ACCOUNT_TRANSFER_KEY params) ;;; ret xret_success.

(** ** Transfers *)

Definition top_token_transfer_out (amount gas_fee service_fee : Z) : eprog xret :=
  let* a := gets x_account in
  if bool_decide (bc_account a = sys_contract_zec_reward_addr) then ret xret_success
  else
    let* _ := get_lock_token_sum in
    let* w := (if amount =? 0 then ret true else can_work) in
    if negb w then ret xaccount_balance_not_enough
    else
      let* deduct_fee := nonnull (add3 amount gas_fee service_fee) in
      let* c := gets x_change in
      if i64 (u64 (balance a + c_balance c)) <? i64 deduct_fee then ret xaccount_balance_not_enough
      else set_balance_change (- deduct_fee) ;;; ret xret_success.

Definition other_token_transfer_out (asset : xproperty_asset) (gas_fee service_fee : Z) : eprog xret :=
  let* n := gets ctx_np in
  match native_map_get n XPORPERTY_CONTRACT_NATIVE_TOKEN_KEY (m_token_name asset) with
  | Some token_value =>
      let* v := nonnull (stoull token_value) in
      if m_amount asset <=? v then
        let* c := run_np (fun n => native_map_set n XPORPERTY_CONTRACT_NATIVE_TOKEN_KEY (m_token_name asset)
                                    (to_string (v - m_amount asset))) in
        if bool_decide (c = np_success) && ((0 <? gas_fee) || (0 <? service_fee))
        then top_token_transfer_out 0 gas_fee service_fee
        else ret (of_np c)
      else ret xaccount_balance_not_enough
  | None => ret xaccount_balance_not_enough
  end.

Definition token_transfer_out (asset : xproperty_asset) (gas_fee service_fee : Z) : eprog xret :=
  if is_top_token asset then top_token_transfer_out (m_amount asset) gas_fee service_fee
  else other_token_transfer_out asset gas_fee service_fee.

(** Part of an incoming amount is locked until the account holds the minimum deposit. *)
Definition lock_part (lock_sum amount : Z) : Z :=
  if lock_sum =? 0 then (if min_account_deposit <? amount then min_account_deposit else amount)
  else if lock_sum <? min_account_deposit
       then (if min_account_deposit - lock_sum <? amount then min_account_deposit - lock_sum else amount)
       else 0.

Definition top_token_transfer_in (amount : Z) : eprog xret :=
  if amount =? 0 then ret xret_success
  else
    let* a := gets x_address in
    if is_sys_contract_address a then set_balance_change amount ;;; ret xret_success
    else
      let* lock_sum := get_lock_token_sum in
      if (lock_sum =? 0) && (amount <? 1) then ret xaccount_transfer_less_than_safe_amount
      else
        let lock_amount := lock_part lock_sum amount in
        (if (lock_sum =? 0) || (lock_sum <? min_account_deposit) then set_lock_token_sum (u64 (lock_amount + lock_sum)) else ret tt) ;;;
        set_balance_change (u64 (amount - lock_amount)) ;;;
        ret xret_success.

Definition other_token_transfer_in (asset : xproperty_asset) : eprog xret :=
  let* a := gets x_account in
  let* sum := (if balance a =? 0 then get_lock_token_sum else ret 1) in
  let* addr := gets x_address in
  if (balance a =? 0) && (sum =? 0) && negb (is_sys_contract_address addr) then ret xaccount_account_not_exist
  else
    let* n := gets ctx_np in
    let* total :=
      match native_map_get n XPORPERTY_CONTRACT_NATIVE_TOKEN_KEY (m_token_name asset) with
      | Some token_value => let* v := nonnull (stoull token_value) in nonnull (add2 v (m_amount asset))
      | None => ret (m_amount asset)
      end in
    let* c := run_np (fun n => native_map_set n XPORPERTY_CONTRACT_NATIVE_TOKEN_KEY (m_token_name asset) (to_string total)) in
    ret (of_np c).

Definition token_transfer_in (asset : xproperty_asset) : eprog xret :=
  if is_top_token asset then top_token_transfer_in (m_amount asset) else other_token_transfer_in asset.

(** [set_contract_parent_account] and [set_parent_account]: the minimum deposit is locked, the rest comes in. *)
Definition set_parent (key : string) (amount : Z) (value : string) : eprog xret :=
  let* n := gets ctx_np in
  match native_string_get n key with
  | Some _ => ret xaccount_property_parent_account_exist
  | None =>
      let balance := if min_account_deposit <? amount then amount - min_account_deposit else 0 in
      set_lock_token_sum min_account_deposit ;;;
      top_token_transfer_in balance ;;;
      let* c := string_set key value in ret (of_np c)
  end.
Definition set_contract_parent_account : Z -> string -> eprog xret := set_parent XPORPERTY_CONTRACT_PARENT_ACCOUNT_KEY.
Definition set_parent_account : Z -> string -> eprog xret := set_parent XPORPERTY_PARENT_ACCOUNT_KEY.

(** ** Pledged tokens *)

Definition set_pledge_token_tgas (num : Z) : eprog xret :=
  let* a := gets x_account in
  if num <=? 0 then ret xtransaction_non_positive_pledge_token
  else if balance a <? num then ret xtransaction_not_enough_token
  else
    set_tgas_balance_change num ;;;
    modify (on_account (with_state (set_pledge_tgas_balance (u64 (num + tgas_balance a))))) ;;;
    ret xret_success.
Definition redeem_pledge_token_tgas (num : Z) : eprog xret :=
  let* a := gets x_account in
  if tgas_balance a <? num then ret xtransaction_not_enough_pledge_token_tgas
  else
    set_tgas_balance_change (- num) ;;;
    modify (on_account (with_state (set_pledge_tgas_balance (tgas_balance a - num)))) ;;;
    ret xret_success.
Definition set_pledge_token_disk (num : Z) : eprog xret :=
  let* a := gets x_account in
  if balance a <? num then ret xtransaction_pledge_too_much_token
  else
    set_disk_balance_change num ;;;
    modify (on_account (with_state (set_pledge_disk_balance (u64 (num + disk_balance a))))) ;;;
    ret xret_success.
Definition redeem_pledge_token_disk (num : Z) : eprog xret :=
  let* a := gets x_account in
  if disk_balance a <? num then ret xtransaction_not_enough_pledge_token_disk
  else
    set_disk_balance_change (- num) ;;;
    modify (on_account (with_state (set_pledge_disk_balance (disk_balance a - num)))) ;;;
    ret xret_success.

(** ** Gas *)

Definition set_used_tgas (num : Z) : eprog xret :=
  let* t := gets x_timer_height in
  string_set XPROPERTY_USED_TGAS_KEY (to_string num) ;;;
  string_set XPROPERTY_LAST_TX_HOUR_KEY (to_string t) ;;;
  ret xret_success.

Definition calc_decayed_tgas : eprog Z :=
  let* hour := get_last_tx_hour in
  let* t := gets x_timer_height in
  let passed := u64 (t - u32 hour) in
  if passed <? usedgas_decay_cycle
  then let* used := get_used_tgas in ret (u64 ((usedgas_decay_cycle - passed) * used) / usedgas_decay_cycle)
  else ret 0.

Definition incr_used_tgas (num : Z) : eprog xret :=
  let* used_tgas := calc_decayed_tgas in set_used_tgas (u64 (num + used_tgas)).

(** The available gas is read from the account's own property set. *)
Definition get_available_tgas : eprog Z :=
  let* s := get in
  let* price := nonnull (get_token_price (x_sys_total_lock_tgas_token s)) in
  nonnull (chain_get_available_tgas (x_account s) (acct_np s) (x_timer_height s) price).

(** Returns the code, the gas taken from the account and the deposit used. *)
Definition check_used_tgas (cur_tgas_usage deposit deposit_usage : Z) : eprog (xret * Z * Z) :=
  let* available_tgas := get_available_tgas in
  if u64 (available_tgas + deposit / tx_deposit_gas_exchange_ratio) <? cur_tgas_usage
  then ret (xtransaction_not_enough_pledge_token_tgas, available_tgas, deposit)
  else if available_tgas <? cur_tgas_usage
       then ret (xret_success, available_tgas, u64 ((cur_tgas_usage - available_tgas) * tx_deposit_gas_exchange_ratio))
       else ret (xret_success, cur_tgas_usage, deposit_usage).

Definition update_tgas_sender (tgas_usage deposit deposit_usage : Z) : eprog (xret * Z) :=
  let* (r, tgas_usage, deposit_usage) := check_used_tgas tgas_usage deposit deposit_usage in
  (if ok r then incr_used_tgas tgas_usage else ret r) ;;;
  ret (r, deposit_usage).

(** Returns the code, the deposit used and what is left of the frozen gas. *)
Definition update_tgas_contract_recv (sender_used_deposit deposit send_frozen_tgas deal_used_tgas : Z) : eprog (xret * Z * Z) :=
  let* available_tgas := get_available_tgas in
  if deal_used_tgas <=? send_frozen_tgas then ret (xret_success, 0, send_frozen_tgas - deal_used_tgas)
  else
    let deal_used_tgas := deal_used_tgas - send_frozen_tgas in
    let* limit := gets x_tgas_limit in
    let min_tgas := Z.min available_tgas (Z.min send_frozen_tgas limit) in
    if deal_used_tgas <=? min_tgas then
      let* used_tgas := calc_decayed_tgas in
      modify (set_cur_used_tgas (u32 deal_used_tgas)) ;;;
      let* r := set_used_tgas (u64 (used_tgas + deal_used_tgas)) in
      ret (r, 0, 0)
    else
      let deal_used_tgas := deal_used_tgas - min_tgas in
      modify (set_cur_used_tgas (u32 min_tgas)) ;;;
      let deposit_tgas := u64 (u64 (deposit - sender_used_deposit) / tx_deposit_gas_exchange_ratio - send_frozen_tgas) in
      if deposit_tgas <? deal_used_tgas then ret (xtransaction_contract_not_enough_tgas, 0, 0)
      else
        let deposit_usage := u64 (deal_used_tgas * tx_deposit_gas_exchange_ratio) in
        let* used_tgas := calc_decayed_tgas in
        let* r := set_used_tgas (u64 (used_tgas + min_tgas)) in
        ret (r, deposit_usage, 0).

(** Returns the code, the gas and the deposit used. *)
Definition calc_resource (tgas deposit used_deposit : Z) : eprog (xret * Z * Z) :=
  let* used_tgas := calc_decayed_tgas in
  let* available_tgas := get_available_tgas in
  let* (r, tgas, used_deposit) :=
    (if u64 (available_tgas + u32 (deposit - used_deposit) / tx_deposit_gas_exchange_ratio) <? tgas then
       set_used_tgas (u64 (available_tgas + used_tgas)) ;;;
       ret (xtransaction_not_enough_pledge_token_tgas, u64 (available_tgas - used_tgas), deposit)
     else if available_tgas <? tgas then
       set_used_tgas (u64 (available_tgas + used_tgas)) ;;;
       ret (xret_success, tgas, u32 (used_deposit + u64 ((tgas - available_tgas) * tx_deposit_gas_exchange_ratio)))
     else
       set_used_tgas (u64 (used_tgas + tgas)) ;;;
       ret (xret_success, tgas, used_deposit)) in
  set_balance_change (- used_deposit) ;;;
  ret (r, tgas, used_deposit).

(** [update_disk]: the disk is free at present. *)
Definition update_disk (disk_usage : Z) : eprog xret := ret xret_success.

(** ** Locked tokens *)

Definition lock_record (clock : Z) (params : string) : string := write_u64 clock +:+ write_string params.
Definition read_lock_record : reader (Z * string) :=
  let* clock := read_u64 in let* raw := read_string in ret (clock, raw).
(** The lock behind a record: when it was made and its action. *)
Definition parse_lock_record (v : string) : option (Z * lock_action) :=
  match run_read read_lock_record v with
  | Some (clock, raw) => pair clock <$> run_read (read_lock raw) raw
  | None => None
  end.
(** The time of a lock has passed ([None]: there is no time, [at(0)] throws). *)
Definition lock_time_reached (now clock : Z) (la : lock_action) : option bool :=
  match la_unlock_values la with
  | v :: _ => Some (negb (u64 (u64 (now - clock) * 10) <? touint64 v))
  | [] => None
  end.

Definition lock_token (tran_hash : string) (amount : Z) (tran_params : string) : eprog xret :=
  let* lock_sum := get_lock_token_sum in
  let* w := can_work in
  if negb w then ret xaccount_balance_not_enough
  else
    let* s := get in
    if u64 (balance (x_account s) + c_balance (x_change s)) <? amount then ret xaccount_lock_less_min_deposit
    else
      match native_map_get (ctx_np s) XPROPERTY_LOCK_TOKEN_KEY tran_hash with
      | Some _ => ret xaccount_property_lock_token_key_same
      | None =>
          set_balance_change (- amount) ;;;
          run_np (fun n => native_map_set n XPROPERTY_LOCK_TOKEN_KEY tran_hash (lock_record (x_timer_height s) tran_params)) ;;;
          set_lock_token_sum (u64 (lock_sum + amount)) ;;;
          ret xret_success
      end.

(** Take a record out and pay its amount; the sum is written from [lock_sum]. *)
Definition release_lock (lock_sum : Z) (lock_hash : string) (la : lock_action) : eprog xret :=
  let* c := run_np (fun n => native_map_erase n XPROPERTY_LOCK_TOKEN_KEY lock_hash) in
  if negb (bool_decide (c = np_success)) then ret xaccount_property_unlock_token_key_not_exist
  else
    set_lock_token_sum (u64 (lock_sum - la_amount la)) ;;;
    set_balance_change (la_amount la) ;;;
    ret xret_success.

Definition unlock_token (lock_hash : string) : eprog xret :=
  let* lock_sum := get_lock_token_sum in
  let* w := can_work in
  if negb w then ret xaccount_balance_not_enough
  else
    let* s := get in
    match native_map_get (ctx_np s) XPROPERTY_LOCK_TOKEN_KEY lock_hash with
    | None => ret xaccount_property_unlock_token_key_not_exist
    | Some v =>
        let* (clock_timer, la) := nonnull (parse_lock_record v) in
        let* due := (if la_unlock_type la =? UT_time then nonnull (lock_time_reached (x_timer_height s) clock_timer la) else ret true) in
        if due then release_lock lock_sum lock_hash la else ret xaccount_property_unlock_token_time_not_reach
    end.

(** The loop of [unlock_all_token]: [lock_sum] was read before it and is not updated. *)
Fixpoint unlock_loop (lock_sum : Z) (lock_txs : list (string * string)) : eprog xret :=
  match lock_txs with
  | [] => ret xret_success
  | (tx_hash, v) :: lock_txs =>
      let* now := gets x_timer_height in
      let* (clock_timer, la) := nonnull (parse_lock_record v) in
      if la_unlock_type la =? UT_time then
        let* due := nonnull (lock_time_reached now clock_timer la) in
        if due then
          let* r := release_lock lock_sum tx_hash la in
          if ok r then unlock_loop lock_sum lock_txs else ret r
        else unlock_loop lock_sum lock_txs
      else unlock_loop lock_sum lock_txs
  end.
Definition unlock_all_token : eprog xret :=
  let* lock_sum := get_lock_token_sum in
  let* w := can_work in
  if negb w then ret xaccount_balance_not_enough
  else
    let* n := gets ctx_np in
    match strmap_get n XPROPERTY_LOCK_TOKEN_KEY with
    | None => ret xret_success
    | Some (_, lock_txs) => unlock_loop lock_sum lock_txs
    end.

(** ** Votes *)

Definition serilize_vote (vote_num duration lock_time : Z) : string := write_u64 vote_num +:+ write_u16 duration +:+ write_u64 lock_time.
Definition read_vote : reader (Z * Z * Z) :=
  let* n := read_u64 in let* d := read_u16 in let* t := read_u64 in ret (n, d, t).
Definition deserilize_vote (str : string) : option (Z * Z * Z) := run_read read_vote str.

Definition pledge_votes : eprog (list string) :=
  let* n := gets ctx_np in ret (deque_value (deque_get n XPROPERTY_PLEDGE_VOTE_KEY)).

(** Ten-second ticks in a day. *)
Definition ticks_per_day : Z := 24 * 60 * 6.

(** Erase the expired records; returns their votes and tokens. *)
Fixpoint merge_loop (ds : list string) (vote_sum expire_token : Z) : eprog (Z * Z) :=
  match ds with
  | [] => ret (vote_sum, expire_token)
  | str :: ds =>
      let* (vote_num, duration, lock_time) := nonnull (deserilize_vote str) in
      let* now := gets x_timer_height in
      if duration * ticks_per_day <=? u64 (now - lock_time) then
        run_np (fun n => native_deque_erase n XPROPERTY_PLEDGE_VOTE_KEY str) ;;;
        merge_loop ds (u64 (vote_sum + vote_num))
          (if negb (duration =? 0) then vote_tokens expire_token (u64 (TOP_UNIT * vote_num)) duration else expire_token)
      else merge_loop ds vote_sum expire_token
  end.

Definition expired_tokens : eprog Z :=
  let* n := gets ctx_np in
  ret (touint64 (default "" (native_string_get n XPROPERTY_EXPIRE_VOTE_TOKEN_KEY))).

Definition merge_pledge_vote_property : eprog xret :=
  let* n := gets ctx_np in
  match deque_get n XPROPERTY_PLEDGE_VOTE_KEY with
  | None => ret xret_success
  | Some (_, ds) =>
      let* (vote_sum, expire_token) := merge_loop ds 0 0 in
      (if 0 <? vote_sum
       then run_np (fun n => native_deque_push_back n XPROPERTY_PLEDGE_VOTE_KEY (serilize_vote vote_sum 0 0)) ;;; ret tt
       else ret tt) ;;;
      (if 0 <? expire_token
       then let* old := expired_tokens in
            string_set XPROPERTY_EXPIRE_VOTE_TOKEN_KEY (utostring (u64 (expire_token + old))) ;;; ret tt
       else ret tt) ;;;
      ret xret_success
  end.

(** The record a new pledge is merged with: same duration, made within a day.
    The lock time that leaves the loop is that of the last record read. *)
Fixpoint find_same_pledge (now duration lock_time : Z) (ds : list string) : option (Z * option (string * Z)) :=
  match ds with
  | [] => Some (lock_time, None)
  | str :: ds =>
      match deserilize_vote str with
      | Some (n, d, t) =>
          if (duration =? d) && (u64 (now - t) <? ticks_per_day) then Some (t, Some (str, n))
          else find_same_pledge now duration t ds
      | None => None
      end
  end.

Definition max_property_deque_size : Z := 128.

Definition insert_pledge_vote_property (vote_num duration : Z) : eprog xret :=
  let* n := gets ctx_np in
  let full := match native_deque_size n XPROPERTY_PLEDGE_VOTE_KEY with Some size => max_property_deque_size <=? size | None => false end in
  if full then ret xtransaction_pledge_redeem_vote_err
  else
    let* ds := pledge_votes in
    let* now := gets x_timer_height in
    let* (lock_time, same) := nonnull (find_same_pledge now duration 0 ds) in
    let* vote_num :=
      match same with
      | Some (str, n) => run_np (fun q => native_deque_erase q XPROPERTY_PLEDGE_VOTE_KEY str) ;;; ret (u64 (vote_num + n))
      | None => ret vote_num
      end in
    let* c := run_np (fun q => native_deque_push_back q XPROPERTY_PLEDGE_VOTE_KEY
                       (serilize_vote vote_num duration (if lock_time =? 0 then now else lock_time))) in
    ret (of_np c).

Definition update_pledge_vote_property (vote_num duration : Z) : eprog xret :=
  merge_pledge_vote_property ;;; insert_pledge_vote_property vote_num duration.

(** The first record of expired votes. *)
Fixpoint find_expired (ds : list string) : option (option (string * Z)) :=
  match ds with
  | [] => Some None
  | str :: ds =>
      match deserilize_vote str with
      | Some (n, d, _) => if d =? 0 then Some (Some (str, n)) else find_expired ds
      | None => None
      end
  end.

Definition redeem_pledge_vote_property (num : Z) : eprog xret :=
  let* ds := pledge_votes in
  let* found := nonnull (find_expired ds) in
  match found with
  | None => ret xtransaction_pledge_redeem_vote_err
  | Some (str, vote_num) =>
      if vote_num <? num then ret xtransaction_pledge_redeem_vote_err
      else
        run_np (fun n => native_deque_erase n XPROPERTY_PLEDGE_VOTE_KEY str) ;;;
        let* expire_token := expired_tokens in
        let* balance_change := (if vote_num =? 0 then ub else ret (i64 (u64 (num * expire_token) / vote_num))) in
        string_set XPROPERTY_EXPIRE_VOTE_TOKEN_KEY (utostring (u64 (expire_token - balance_change))) ;;;
        (if 0 <? vote_num - num
         then run_np (fun n => native_deque_push_back n XPROPERTY_PLEDGE_VOTE_KEY (serilize_vote (vote_num - num) 0 0)) ;;; ret tt
         else ret tt) ;;;
        set_unvote_num_change (- num) ;;;
        set_balance_change balance_change ;;;
        set_vote_balance_change (- balance_change) ;;;
        ret xret_success
  end.

(** ** Transactions a contract creates *)

(** A transaction that continues the account's chain, and the account after it. *)
Definition make_tx (type : Z) (src tgt : xaction) (to : string) (deposit : Z) : eprog xcons_tx :=
  let* s := get in
  let a := x_account s in
  let raw d := XTransaction type 0 (x_timestamp s) (account_send_trans_number a) (xxh64_digest (account_send_trans_hash a))
                 d (bc_account a) to 0 0 0 in
  let d := tx_digest (raw "") deposit src tgt in
  let tx := raw d in
  modify (on_account (with_state (set_latest_send_trans (get_tx_nonce tx) d))) ;;;
  ret (make_cons_tx tx deposit (tx_len_of tx deposit src tgt) src tgt None).

Definition no_action : xaction := XAction 0 "" "" "".
Definition make_transfer_tx (to : string) (amount deposit : Z) : eprog xcons_tx :=
  make_tx xtransaction_type_transfer
    (asset_serialze_to xaction_type_asset_out no_action (XAsset "TOP" amount))
    (asset_serialze_to xaction_type_asset_in no_action (XAsset "TOP" amount)) to deposit.
Definition xtransaction_type_run_contract : Z := 3.
Definition make_run_contract_tx (to func_name func_param : string) (amount deposit : Z) : eprog xcons_tx :=
  make_tx xtransaction_type_run_contract
    (asset_serialze_to xaction_type_asset_out no_action (XAsset "TOP" amount))
    (run_contract_serialze_to no_action func_name func_param) to deposit.

(** Append a created transaction unless there are too many. *)
Definition push_contract_tx (t : xcons_tx) : eprog xret :=
  let* s := get in
  if contract_call_contracts_num <=? Z.of_nat (length (x_contract_txs s)) then ret xaccount_contract_number_exceed_max
  else modify (set_txs (x_contract_txs s ++ [length (x_txs s)]) (x_txs s ++ [t])) ;;; ret xret_success.

Definition create_transfer_tx (receiver : string) (amount : Z) : eprog xret :=
  let* a := gets x_address in
  if is_user_contract_address a then ret xstore_user_contract_can_not_initiate_transaction
  else let* t := make_transfer_tx receiver amount 0 in push_contract_tx t.
Definition generate_tx (target_addr func_name func_param : string) : eprog xret :=
  let* a := gets x_address in
  if is_user_contract_address a then ret xstore_user_contract_can_not_initiate_transaction
  else let* t := make_run_contract_tx target_addr func_name func_param 0 0 in push_contract_tx t.
End Context.

(** ** The result of execution ([xtransaction_result_t]) *)

Record tx_result := TxResult {
  tr_change : changes;
  tr_props : gmap string string;
  tr_contract_txs : list loc;
  tr_native : xnative_property;       (* a copy of the pointers *)
  tr_prop_log : option string
}.
Definition tx_result_init : tx_result := TxResult changes_zero ∅ [] native_empty None.

Definition get_transaction_result (s : ectx) : tx_result :=
  TxResult (x_change s) (cmd_property_hash (x_cmd s)) (x_contract_txs s) (x_native s) (cmd_property_log (x_cmd s)).
