(* ===== verification/TxExec.v ===== *)
(** * Fees and execution of transactions.  Fees: [xtxexecutor/xtransaction_fee.h], [xtxexecutor/src/xtransaction_fee.cpp]

    Gas is taken from what the account has pledged and, when that is not enough,
    from the deposit of the transaction.  The deposit moves from the balance to
    the locked balance when a transaction is sent and back when it is confirmed,
    less what was used.  A transaction is a pointer [t] into the context's
    transactions. *)

From stdpp Require Import prelude strings gmap.
From Stdlib Require Import ZArith Lia.
From S2P Require Import Prelude Stream AccountAddr TxData StdNum NativeProp Action ConsTx ChainState AccountCtx.
Open Scope Z_scope.

(** What the contract engine reports ([xtransaction_trace]). *)
Record vm_trace := VmTrace {
  vt_errno : Z;                  (* 0 is ok *)
  vt_instruction_usage : Z;      (* uint32_t *)
  vt_tgas_usage : Z              (* uint32_t *)
}.

Definition get_tx (t : loc) : eprog xcons_tx := fun s => (fun x => (x, s)) <$> (x_txs s !! t).
Definition set_exec (t : loc) (f : exec_state -> exec_state) : eprog unit :=
  modify (fun s => set_txs (x_contract_txs s) (alter (with_exec f) t (x_txs s)) s).

Definition get_tgas_usage (tx : xcons_tx) : Z :=
  let multiple := if is_self_tx (ct_tx tx) then 1 else 3 in
  u32 (multiple * ct_tx_len tx).
(** [get_disk_usage] and with it [set_current_used_disk]: 0 at present. *)
Definition get_disk_usage (tx : xcons_tx) : Z := 0.

Definition need_use_tgas_disk (source_addr : string) : bool := negb (is_sys_contract_address source_addr).

Section Fee.
Context `{ExecConfig} `{ExecBase} `{XStringUtl}.

Definition cal_service_fee (source target : string) : Z :=
  if negb (is_sys_contract_address source) && is_beacon_contract_address target then beacon_tx_fee else 0.

(** Returns the code and the deposit used. *)
Definition fee_update_tgas_sender (t : loc) : eprog (xret * Z) :=
  let* tx := get_tx t in
  let tgas_usage := get_tgas_usage tx in
  let* (r, used_deposit) := update_tgas_sender tgas_usage (ct_deposit tx) 0 in
  set_exec t (set_used_tgas_state (u32 (u64 (tgas_usage - used_deposit / tx_deposit_gas_exchange_ratio)))) ;;;
  set_exec t (set_used_deposit (u32 used_deposit)) ;;;
  ret (r, used_deposit).

(** [update_tgas_disk_sender]: the code and [m_used_deposit]. *)
Definition update_tgas_disk_sender (t : loc) (amount : Z) (is_contract : bool) : eprog (xret * Z) :=
  let* tx := get_tx t in
  let* a := gets x_account in
  let deposit := ct_deposit tx in
  if balance a <? amount then ret (xconsensus_service_error_balance_not_enough, 0)
  else if balance a - amount <? deposit then ret (xtransaction_too_much_deposit, 0)
  else if negb (is_sys_contract_address (get_source_addr (ct_tx tx))) && (deposit <? min_tx_deposit)
       then ret (xtransaction_not_enough_deposit, 0)
  else
    let* (r, tgas_used_deposit) := fee_update_tgas_sender t in
    if negb (ok r) then ret (r, 0)
    else
      let* available := get_available_tgas in
      let frozen_tgas := Z.min (u64 (deposit - tgas_used_deposit) / tx_deposit_gas_exchange_ratio) (u64 (available - lock_tgas a)) in
      update_disk (get_disk_usage tx) ;;;
      set_exec t (set_used_disk_state (get_disk_usage tx)) ;;;
      (if is_contract then set_exec t (set_send_tx_lock_tgas (u32 frozen_tgas)) ;;; set_lock_tgas_change (i64 frozen_tgas) else ret tt) ;;;
      set_lock_balance_change deposit ;;;
      set_balance_change (- deposit) ;;;
      ret (xret_success, tgas_used_deposit).

(** [update_tgas_contract_recv] of the fee: the code and what is left of the frozen gas. *)
Definition fee_update_tgas_contract_recv (t : loc) (frozen_tgas deal_used_tgas : Z) : eprog (xret * Z) :=
  let* tx := get_tx t in
  let sender_used_deposit := get_last_action_used_deposit tx in
  let* (r, used_deposit, frozen_tgas) := update_tgas_contract_recv sender_used_deposit (ct_deposit tx) frozen_tgas deal_used_tgas in
  let* cur := gets x_cur_used_tgas in
  set_exec t (set_used_tgas_state cur) ;;;
  set_exec t (set_used_deposit (u32 (sender_used_deposit + used_deposit))) ;;;
  ret (r, frozen_tgas).

Definition update_tgas_disk_contract_recv (t : loc) (frozen_tgas deal_used_tgas : Z) : eprog (xret * Z) :=
  let* tx := get_tx t in
  if ct_deposit tx <? min_tx_deposit then ret (xtransaction_not_enough_deposit, frozen_tgas)
  else
    let* (r, frozen_tgas) := fee_update_tgas_contract_recv t frozen_tgas deal_used_tgas in
    if negb (ok r) then ret (r, frozen_tgas)
    else
      update_disk (get_disk_usage tx) ;;;
      set_exec t (set_used_disk_state (get_disk_usage tx)) ;;;
      ret (xret_success, frozen_tgas).

Definition update_tgas_disk_after_sc_exec (t : loc) (trace : vm_trace) : eprog xret :=
  let instruction_usage := u32 (vt_instruction_usage trace + vt_tgas_usage trace) in
  if (vt_errno trace =? 0) && (instruction_usage =? 0) then ret xret_success
  else
    let* tx := get_tx t in
    let send_tx_lock_tgas := get_last_action_send_tx_lock_tgas tx in
    let deal_used_tgas := u32 (instruction_usage * 40) / cpu_gas_exchange_ratio in
    let* (r, frozen_tgas) := update_tgas_disk_contract_recv t send_tx_lock_tgas deal_used_tgas in
    if negb (ok r) then ret r
    else
      set_exec t (set_send_tx_lock_tgas send_tx_lock_tgas) ;;;
      set_exec t (set_recv_tx_use_send_tx_tgas (u32 (send_tx_lock_tgas - frozen_tgas))) ;;;
      ret r.

Definition update_fee_recv (t : loc) : eprog xret :=
  let* tx := get_tx t in
  set_exec t (set_used_deposit (get_last_action_used_deposit tx)) ;;; ret xret_success.

(** The deposit comes back and what was used is taken; the code of the transfer is only asserted. *)
Definition return_deposit (deposit used_deposit : Z) : eprog unit :=
  set_lock_balance_change (- deposit) ;;;
  set_balance_change deposit ;;;
  top_token_transfer_out 0 used_deposit 0 ;;;
  ret tt.

Definition update_fee_recv_self (t : loc) (used_deposit : Z) : eprog xret :=
  let* tx := get_tx t in return_deposit (ct_deposit tx) used_deposit ;;; ret xret_success.

Definition update_fee_confirm (t : loc) : eprog xret :=
  let* tx := get_tx t in
  let last_action_used_deposit := get_last_action_used_deposit tx in
  set_lock_balance_change (- ct_deposit tx) ;;;
  set_balance_change (ct_deposit tx) ;;;
  set_exec t (set_used_deposit last_action_used_deposit) ;;;
  top_token_transfer_out 0 last_action_used_deposit 0 ;;;
  ret xret_success.

(** The end of a contract call at the caller: the deposit comes back less the
    gas used at the contract, and the amount is given up or, when the call
    failed, comes back. *)
Definition update_contract_fee_confirm (t : loc) (amount : Z) : eprog xret :=
  let* tx := get_tx t in
  let deposit := ct_deposit tx in
  set_lock_tgas_change (- get_last_action_send_tx_lock_tgas tx) ;;;
  set_lock_balance_change (- deposit) ;;;
  set_balance_change deposit ;;;
  let* (r, target_used_tgas, used_deposit) :=
    calc_resource (get_last_action_recv_tx_use_send_tx_tgas tx) deposit (get_last_action_used_deposit tx) in
  set_exec t (set_used_tgas_state (u32 target_used_tgas)) ;;;
  set_exec t (set_used_deposit used_deposit) ;;;
  let* a := gets x_account in
  (if get_last_action_exec_status tx =? enum_xunit_tx_exec_status_fail then
     if i64 amount <=? i64 (lock_balance a)
     then top_token_transfer_in amount ;;; set_lock_balance_change (- i64 amount)
     else ret tt
   else set_lock_balance_change (- i64 amount)) ;;;
  ret r.
End Fee.

(** * Execution of transactions: [xtxexecutor/xtransaction_context.h], [xtxexecutor/src/xtransaction_context.cpp], [xtxexecutor/src/xtransaction_executor.cpp]

    A transaction is parsed into an object of its kind and executed in up to
    three steps: at the sender, at the receiver, and again at the sender when the
    receipt comes back; a transaction to oneself does the first two at once.  The
    contract engine (xvm), the keys and the accounts in the store are the class
    [ExecWorld]. *)

Class ExecWorld := {
  pubkey_to_address : string -> string -> string;   (* xecpubkey_t(key).to_address(parent, custom contract, ledger) *)
  verify_sub_account : xcons_tx -> bool;            (* xkeyaddress_t(target).verify_signature(...) *)
  deal_transaction : xcons_tx -> ectx -> option (vm_trace * ectx);  (* xvm_service::deal_transaction *)
  stored_account : string -> option account_image   (* m_store->clone_account *)
}.

(** [enum_xtransaction_type] *)
Definition xtransaction_type_create_contract_account : Z := 1.
Definition xtransaction_type_alias_name : Z := 6.
Definition xtransaction_type_set_account_keys : Z := 11.
Definition xtransaction_type_lock_token : Z := 12.
Definition xtransaction_type_unlock_token : Z := 13.
Definition xtransaction_type_create_sub_account : Z := 16.
Definition xtransaction_type_vote : Z := 20.
Definition xtransaction_type_abolish_vote : Z := 21.
Definition xtransaction_type_pledge_token_tgas : Z := 22.
Definition xtransaction_type_redeem_token_tgas : Z := 23.
Definition xtransaction_type_pledge_token_disk : Z := 24.
Definition xtransaction_type_redeem_token_disk : Z := 25.
Definition xtransaction_type_pledge_token_vote : Z := 27.
Definition xtransaction_type_redeem_token_vote : Z := 28.

(** A parsed transaction, with the actions of its class. *)
Inductive face :=
| create_contract_account (src : xproperty_asset) (tgas_limit : Z) (code : string)
| run_contract (src : xproperty_asset) (function_name para : string)
| transfer (src tgt : xproperty_asset)
| set_keys (account_key key_value : string)
| lock_account_token (la : lock_action)
| unlock_account_token (lock_hash : string) (signs : list string)
| alias_name (name : string)
| create_sub_account (src tgt : xproperty_asset)
| vote (para : string)
| abolish_vote (para : string)
| pledge_token_tgas (asset : xproperty_asset)
| redeem_token_tgas (asset : xproperty_asset)
| pledge_token_disk (asset : xproperty_asset)
| redeem_token_disk (asset : xproperty_asset)
| pledge_token_vote (vote_num lock_duration : Z)
| redeem_token_vote (vote_num : Z).

(** ** Parsing *)

(** The source action first, then the target action. *)
Definition parse2 {A B} (p : xret + A) (q : xret + B) (f : A -> B -> face) : option (xret + face) :=
  Some match p with
       | inl r => inl r
       | inr a => match q with inl r => inl r | inr b => inr (f a b) end
       end.
Definition parse2_throws {A B} (p : xret + A) (q : option (xret + B)) (f : A -> B -> face) : option (xret + face) :=
  match p with
  | inl r => Some (inl r)
  | inr a => match q with
             | Some (inl r) => Some (inl r)
             | Some (inr b) => Some (inr (f a b))
             | None => None
             end
  end.
Definition parse1_throws {B} (q : option (xret + B)) (f : B -> face) : option (xret + face) :=
  match q with Some (inl r) => Some (inl r) | Some (inr b) => Some (inr (f b)) | None => None end.

(** [None]: the exception of the stream, which is no [std::exception], passes the [catch]. *)
Definition parse (tx : xcons_tx) : option (xret + face) :=
  let src := ct_source_action tx in
  let tgt := ct_target_action tx in
  let type := get_tx_type (ct_tx tx) in
  let null := source_null_parse src in
  if type =? xtransaction_type_create_contract_account then
    parse2 (asset_out_parse src) (deploy_contract_parse tgt) (fun a b => create_contract_account a b.1 b.2)
  else if type =? xtransaction_type_run_contract then
    parse2 (if str_empty (get_action_param src) then inr (XAsset "TOP" 0) else asset_out_parse src) (run_contract_parse tgt)
      (fun a b => run_contract a b.1 b.2)
  else if type =? xtransaction_type_transfer then
    parse2 (asset_out_parse src) (asset_parse xaction_type_asset_in tgt) transfer
  else if type =? xtransaction_type_set_account_keys then
    parse1_throws (set_account_keys_parse tgt) (fun b => set_keys b.1 b.2)
  else if type =? xtransaction_type_lock_token then parse1_throws (lock_token_parse tgt) lock_account_token
  else if type =? xtransaction_type_unlock_token then
    parse1_throws (unlock_token_parse tgt) (fun b => unlock_account_token b.1.2 b.2)
  else if type =? xtransaction_type_alias_name then parse2 null (alias_name_parse tgt) (fun _ n => alias_name n)
  else if type =? xtransaction_type_create_sub_account then
    parse2 (asset_out_parse src) (asset_out_parse tgt) create_sub_account
  else if type =? xtransaction_type_vote then parse2 null (run_contract_parse tgt) (fun _ b => vote b.2)
  else if type =? xtransaction_type_abolish_vote then parse2 null (run_contract_parse tgt) (fun _ b => abolish_vote b.2)
  else if type =? xtransaction_type_pledge_token_tgas then
    parse2 null (asset_parse xaction_type_pledge_token tgt) (fun _ => pledge_token_tgas)
  else if type =? xtransaction_type_redeem_token_tgas then
    parse2 null (asset_parse xaction_type_redeem_token tgt) (fun _ => redeem_token_tgas)
  else if type =? xtransaction_type_pledge_token_disk then
    parse2 null (asset_parse xaction_type_pledge_token tgt) (fun _ => pledge_token_disk)
  else if type =? xtransaction_type_redeem_token_disk then
    parse2 null (asset_parse xaction_type_redeem_token tgt) (fun _ => redeem_token_disk)
  else if type =? xtransaction_type_pledge_token_vote then
    parse2_throws null (pledge_token_vote_parse tgt) (fun _ b => pledge_token_vote b.1 b.2)
  else if type =? xtransaction_type_redeem_token_vote then
    parse2_throws null (redeem_token_vote_parse tgt) (fun _ => redeem_token_vote)
  else Some (inl xtransaction_parse_type_invalid).

Definition UNCOMPRESSED_PUBKEY_LEN : Z := 65.
Definition min_vote_lock_days : Z := 30.

Section Exec.
Context `{ExecConfig} `{ExecBase} `{TxEnv} `{XStringUtl} `{ExecWorld}.

(** ** Checks *)

Definition check_create_contract (tx : xcons_tx) (src : xproperty_asset) : xret :=
  let auth := get_action_authorization (ct_target_action tx) in
  if negb (is_top_token src) || (m_amount src <? min_account_deposit) then xconsensus_service_error_min_deposit_error
  else if negb (action_is xaction_type_asset_out (ct_source_action tx))
          || negb (action_is xaction_type_create_contract_account (ct_target_action tx)) then xconsensus_service_error_action_not_valid
  else if negb (is_user_contract_address (get_target_addr (ct_tx tx))) then xconsensus_service_error_addr_type_error
  else if str_empty auth || negb (str_len auth =? UNCOMPRESSED_PUBKEY_LEN) then xconsensus_service_error_sign_error
  else if negb (bool_decide (get_target_addr (ct_tx tx) = pubkey_to_address auth (get_source_addr (ct_tx tx))))
       then xconsensus_service_error_sign_error
  else xret_success.

Definition check_transfer (tx : xcons_tx) (src tgt : xproperty_asset) : xret :=
  if bool_decide (get_source_addr (ct_tx tx) = get_target_addr (ct_tx tx)) then xverifier_error_src_dst_addr_same
  else if negb (is_sys_contract_address (get_source_addr (ct_tx tx))) && (ct_deposit tx <? min_tx_deposit)
       then xverifier_error_tx_min_deposit_invalid
  else if m_amount src <=? 0 then xverifier_error_transfer_tx_min_amount_invalid
  else if TOTAL_ISSUANCE <? m_amount src then xverifier_error_transfer_tx_amount_over_max
  else if negb (m_amount src =? m_amount tgt) then xverifier_error_trnsafer_tx_src_dst_amount_not_same
  else xret_success.

Definition check_pledge_vote (vote_num lock_duration : Z) : xret :=
  if (vote_num <? min_stake_votes_num) || negb (lock_duration mod min_vote_lock_days =? 0) || (lock_duration =? 0)
  then xtransaction_pledge_redeem_vote_err else xret_success.

Definition check_set_keys (account_key : string) : xret :=
  if bool_decide (account_key = XPROPERTY_ACCOUNT_VOTE_KEY) || bool_decide (account_key = XPROPERTY_ACCOUNT_TRANSFER_KEY)
     || bool_decide (account_key = XPROPERTY_ACCOUNT_DATA_KEY) || bool_decide (account_key = XPROPERTY_ACCOUNT_CONSENSUS_KEY)
  then xret_success else xret_minus_one.

Definition check_create_sub_account (tx : xcons_tx) (src tgt : xproperty_asset) : xret :=
  if negb (is_top_token src) || negb (is_top_token tgt) || (m_amount src <? min_account_deposit)
     || negb (m_amount src =? m_amount tgt) then xconsensus_service_error_min_deposit_error
  else if negb (action_is xaction_type_asset_out (ct_source_action tx))
          || negb (action_is xaction_type_asset_out (ct_target_action tx)) then xconsensus_service_error_action_not_valid
  else if negb (is_sub_account_address (get_target_addr (ct_tx tx))) then xconsensus_service_error_addr_type_error
  else if negb (verify_sub_account tx) then xconsensus_service_error_sign_error
  else xret_success.

Definition check_alias_name (name : string) : xret :=
  if (str_len name =? 0) || (config_property_alias_name_max_len <? str_len name)
  then xconsensus_service_error_action_not_valid else xret_success.

Definition check_face (tx : xcons_tx) (f : face) : xret :=
  match f with
  | create_contract_account src _ _ => check_create_contract tx src
  | transfer src tgt => check_transfer tx src tgt
  | set_keys k _ => check_set_keys k
  | lock_account_token la => if la_amount la =? 0 then xret_minus_one else xret_success
  | alias_name n => check_alias_name n
  | create_sub_account src tgt => check_create_sub_account tx src tgt
  | pledge_token_vote n d => check_pledge_vote n d
  | _ => xret_success
  end.

(** [xtransaction_context_t::check]. *)
Definition tx_check (tx : xcons_tx) : option (xret + face) :=
  match parse tx with
  | Some (inr f) => Some (if ok (check_face tx f) then inr f else inl (check_face tx f))
  | p => p
  end.

(** ** At the sender *)

(** What the object of a transaction keeps between the steps of a transaction
    to oneself: the deposit used ([m_fee.m_used_deposit]) and the tokens to lock
    for votes ([m_lock_token]). *)
Record fee_state := FeeState { fs_used_deposit : Z; fs_lock_token : Z }.

Definition source_service_fee_exec (t : loc) : eprog xret :=
  let* tx := get_tx t in
  let service_fee := cal_service_fee (get_source_addr (ct_tx tx)) (get_target_addr (ct_tx tx)) in
  let* r := top_token_transfer_out 0 0 service_fee in
  set_exec t (set_beacon_service_fee service_fee) ;;;
  ret r.

Definition pay_fee (t : loc) (amount : Z) (is_contract : bool) (lock_token : Z) : eprog (xret * fee_state) :=
  let* (r, used_deposit) := update_tgas_disk_sender t amount is_contract in
  ret (r, FeeState used_deposit lock_token).
Definition no_fee : eprog (xret * fee_state) := ret (xret_success, FeeState 0 0).

Definition source_fee_exec (t : loc) (f : face) : eprog (xret * fee_state) :=
  let* tx := get_tx t in
  let source := get_source_addr (ct_tx tx) in
  match f with
  | create_contract_account src _ _ => if need_use_tgas_disk source then pay_fee t (m_amount src) true 0 else no_fee
  | run_contract src _ _ => if need_use_tgas_disk source then pay_fee t (m_amount src) true 0 else no_fee
  | transfer src _ => if negb (is_contract_address source) && negb (m_amount src =? 0) then pay_fee t (m_amount src) false 0 else no_fee
  | set_keys _ _ => pay_fee t 0 false 0
  | lock_account_token la => pay_fee t (la_amount la) false 0
  | unlock_account_token _ _ => pay_fee t 0 false 0
  | alias_name _ => pay_fee t 0 false 0
  | create_sub_account src _ => pay_fee t (m_amount src) false 0
  | vote _ => pay_fee t 0 false 0
  | abolish_vote _ => pay_fee t 0 false 0
  | pledge_token_tgas a => if is_sys_contract_address source then no_fee else pay_fee t (m_amount a) false 0
  | pledge_token_disk a => if is_sys_contract_address source then no_fee else pay_fee t (m_amount a) false 0
  | redeem_token_tgas _ => if is_sys_contract_address source then no_fee else pay_fee t 0 false 0
  | redeem_token_disk _ => if is_sys_contract_address source then no_fee else pay_fee t 0 false 0
  | pledge_token_vote n d =>
      let lock_token := vote_tokens 0 (u64 (TOP_UNIT * n)) d in
      pay_fee t lock_token false lock_token
  | redeem_token_vote _ => pay_fee t 0 false 0
  end.

(** The rest of a sequence runs only when the code is success. *)
Definition and_then (m k : eprog xret) : eprog xret := let* r := m in if ok r then k else ret r.

Definition create_contract_source (t : loc) (src : xproperty_asset) : eprog xret :=
  let* tx := get_tx t in
  and_then (top_token_transfer_out (m_amount src) 0 0)
    (set_lock_balance_change (m_amount src) ;;;
     and_then (sub_contract_sub_account_check (get_target_addr (ct_tx tx)))
     (and_then (set_contract_sub_account (get_target_addr (ct_tx tx)))
       (* try the target action in a context of its own, which is dropped *)
       (let* s := get in
        let target := get_target_addr (ct_tx tx) in
        let c := account_context target (stored_account target) (x_txs s) in
        let* (r, c) := nonnull (set_contract_parent_account (m_amount src) (get_source_addr (ct_tx tx)) c) in
        if negb (ok r) then ret r
        else
          let* (trace, _) := nonnull (deal_transaction tx (set_context_para (x_timer_height s) (x_random_seed s) 0 0 c)) in
          ret (if vt_errno trace =? 0 then xret_success else xvm_errno (vt_errno trace))))).

Definition run_contract_source (src : xproperty_asset) : eprog xret :=
  if m_amount src =? 0 then ret xret_success
  else and_then (top_token_transfer_out (m_amount src) 0 0)
         (set_lock_balance_change (m_amount src) ;;; ret xret_success).

Definition transfer_source (t : loc) (src : xproperty_asset) : eprog xret :=
  let* tx := get_tx t in
  and_then (if m_amount src =? 0 then ret xret_success else unlock_all_token)
  (and_then (token_transfer_out src 0 0)
    (if bool_decide (get_target_addr (ct_tx tx) = black_hole_addr)
     then set_exec t (set_self_burn_balance (m_amount src)) ;;; ret xret_success
     else ret xret_success)).

Definition create_sub_account_source (t : loc) (src : xproperty_asset) : eprog xret :=
  let* tx := get_tx t in
  and_then (sub_account_check (get_target_addr (ct_tx tx)))
  (and_then (top_token_transfer_out (m_amount src) 0 0) (set_sub_account (get_target_addr (ct_tx tx)))).

Definition vote_source (para : string) : eprog xret :=
  let* vote_num := nonnull (parse_vote_info para) in
  let* a := gets x_account in
  if unvote_num a <? vote_num then ret xtransaction_pledge_redeem_vote_err
  else set_unvote_num_change (- vote_num) ;;; ret xret_success.

Definition source_action_exec (t : loc) (f : face) : eprog xret :=
  match f with
  | create_contract_account src _ _ => create_contract_source t src
  | run_contract src _ _ => run_contract_source src
  | transfer src _ => transfer_source t src
  | create_sub_account src _ => create_sub_account_source t src
  | vote para => vote_source para
  | _ => ret xret_success
  end.

(** ** At the receiver *)

Definition contract_face (f : face) : bool :=
  match f with create_contract_account _ _ _ | run_contract _ _ _ => true | _ => false end.

Definition target_fee_exec (t : loc) (f : face) (fs : fee_state) : eprog xret :=
  let* tx := get_tx t in
  if contract_face f then ret xret_success
  else if is_self_tx (ct_tx tx) then update_fee_recv_self t (fs_used_deposit fs)
  else update_fee_recv t.

Definition check_parent (t : loc) : eprog xret :=
  let* tx := get_tx t in
  let* parent := get_parent_account in
  match parent with
  | None => ret xaccount_property_parent_account_not_exist
  | Some p => if bool_decide (get_source_addr (ct_tx tx) = p) then ret xret_success
              else ret xtransaction_contract_pledge_token_source_target_mismatch
  end.
Definition check_owner (t : loc) : eprog xret :=
  let* tx := get_tx t in
  if bool_decide (get_source_addr (ct_tx tx) = get_target_addr (ct_tx tx)) then ret xret_success else check_parent t.

Definition errno_or (trace : vm_trace) (r : xret) : xret := if vt_errno trace =? 0 then r else xvm_errno (vt_errno trace).
Definition run_vm (t : loc) : eprog vm_trace := let* tx := get_tx t in fun s => deal_transaction tx s.

Definition create_contract_target (t : loc) (src : xproperty_asset) (tgas_limit : Z) : eprog xret :=
  let* tx := get_tx t in
  and_then (set_contract_parent_account (m_amount src) (get_source_addr (ct_tx tx)))
    (modify (set_tgas_limit tgas_limit) ;;;
     let* trace := run_vm t in
     let* r := (if need_use_tgas_disk (get_target_addr (ct_tx tx)) then update_tgas_disk_after_sc_exec t trace else ret xret_success) in
     ret (errno_or trace r)).

Definition run_contract_target (t : loc) (src : xproperty_asset) : eprog xret :=
  let* tx := get_tx t in
  and_then (if m_amount src =? 0 then ret xret_success else top_token_transfer_in (m_amount src))
    (let* limit := get_tgas_limit in
     modify (set_tgas_limit limit) ;;;
     modify (set_source_pay_info src) ;;;
     let* trace := run_vm t in
     let* r :=
       (if need_use_tgas_disk (get_target_addr (ct_tx tx)) then update_tgas_disk_after_sc_exec t trace
        else
          set_exec t (set_send_tx_lock_tgas (get_last_action_send_tx_lock_tgas tx)) ;;;
          set_exec t (set_recv_tx_use_send_tx_tgas 0) ;;;
          set_exec t (set_used_deposit (get_last_action_used_deposit tx)) ;;;
          ret xret_success) in
     ret (errno_or trace r)).

Definition assemble_lock_token_param (amount version : Z) : string :=
  write_u32 version +:+ write_u64 amount +:+ write_u32 UT_time +:+ write_u32 1 +:+
  write_string (to_string (u32 (unlock_gas_staked_delay_time * 10))).

Definition pledge_target (t : loc) (asset : xproperty_asset) (pledge : Z -> eprog xret) : eprog xret :=
  and_then (check_owner t) (and_then (pledge (m_amount asset)) (top_token_transfer_out (m_amount asset) 0 0)).

Definition redeem_target (t : loc) (asset : xproperty_asset) (redeem : Z -> eprog xret) (redeem_type : Z) : eprog xret :=
  let* tx := get_tx t in
  and_then (check_owner t)
  (and_then (redeem (m_amount asset))
    (token_transfer_in asset ;;;
     lock_token (digest (ct_tx tx)) (m_amount asset) (assemble_lock_token_param (m_amount asset) redeem_type))).

Definition pledge_vote_target (lock_token vote_num lock_duration : Z) : eprog xret :=
  and_then (top_token_transfer_out lock_token 0 0)
    (set_vote_balance_change lock_token ;;;
     set_unvote_num_change vote_num ;;;
     update_pledge_vote_property vote_num lock_duration).

Definition redeem_vote_target (vote_num : Z) : eprog xret :=
  let* a := gets x_account in
  if unvote_num a <? vote_num then ret xtransaction_pledge_redeem_vote_err
  else merge_pledge_vote_property ;;; redeem_pledge_vote_property vote_num.

Definition vote_target (t : loc) : eprog xret := let* trace := run_vm t in ret (errno_or trace xret_success).

Definition target_action_exec (t : loc) (f : face) (fs : fee_state) : eprog xret :=
  let* tx := get_tx t in
  match f with
  | create_contract_account src tgas_limit _ => create_contract_target t src tgas_limit
  | run_contract src _ _ => run_contract_target t src
  | transfer _ tgt => token_transfer_in tgt
  | set_keys k v => account_set_keys k v
  | lock_account_token la => lock_token (digest (ct_tx tx)) (la_amount la) (la_params la)
  | unlock_account_token lock_hash _ => unlock_token lock_hash
  | alias_name n => account_alias_name_set n
  | create_sub_account _ tgt => set_parent_account (m_amount tgt) (get_source_addr (ct_tx tx))
  | vote _ => vote_target t
  | abolish_vote _ => vote_target t
  | pledge_token_tgas a => pledge_target t a set_pledge_token_tgas
  | redeem_token_tgas a => redeem_target t a redeem_pledge_token_tgas 0
  | pledge_token_disk a => pledge_target t a set_pledge_token_disk
  | redeem_token_disk a => redeem_target t a redeem_pledge_token_disk 1
  | pledge_token_vote n d => pledge_vote_target (fs_lock_token fs) n d
  | redeem_token_vote n => redeem_vote_target n
  end.

(** ** Back at the sender *)

Definition source_confirm_fee_exec (t : loc) (f : face) : eprog xret :=
  let* tx := get_tx t in
  match f with
  | create_contract_account src _ _ | run_contract src _ _ =>
      if is_self_tx (ct_tx tx) || is_sys_contract_address (get_source_addr (ct_tx tx)) then ret xret_success
      else update_contract_fee_confirm t (m_amount src)
  | _ => update_fee_confirm t
  end.

Definition source_confirm_action_exec (t : loc) (f : face) : eprog xret :=
  let* tx := get_tx t in
  match f with
  | vote para =>
      let* vote_num := nonnull (parse_vote_info para) in
      (if get_last_action_exec_status tx =? enum_xunit_tx_exec_status_fail then set_unvote_num_change vote_num else ret tt) ;;;
      ret xret_success
  | abolish_vote para =>
      if get_last_action_exec_status tx =? enum_xunit_tx_exec_status_fail then ret xret_success
      else
        let* vote_num := nonnull (parse_vote_info para) in
        set_unvote_num_change vote_num ;;; ret xret_success
  | _ => ret xret_success
  end.

(** ** One transaction ([xtransaction_context_t::exec]) *)

Definition exec_source (t : loc) (f : face) : eprog (xret * fee_state) :=
  let* r := source_service_fee_exec t in
  if negb (ok r) then ret (r, FeeState 0 0)
  else
    let* (r, fs) := source_fee_exec t f in
    if negb (ok r) then ret (r, fs)
    else let* r := source_action_exec t f in ret (r, fs).

Definition exec_target (t : loc) (f : face) (fs : fee_state) : eprog xret :=
  let* tx := get_tx t in
  and_then (target_fee_exec t f fs)
    (if is_self_tx (ct_tx tx) && is_black_hole_address (get_target_addr (ct_tx tx)) then ret xret_success
     else target_action_exec t f fs).

Definition exec_confirm (t : loc) (f : face) : eprog xret :=
  and_then (source_confirm_fee_exec t f) (source_confirm_action_exec t f).

(** The steps a transaction takes, by its kind. *)
Definition exec_steps (t : loc) (f : face) : eprog xret :=
  let* tx := get_tx t in
  let* (r, fs) := (if is_origin_tx (ct_tx tx) then exec_source t f else ret (xret_success, FeeState 0 0)) in
  if negb (ok r) then ret r
  else
    and_then (if is_self_tx (ct_tx tx) || is_recv_tx (ct_tx tx) then exec_target t f fs else ret xret_success)
             (if is_confirm_tx (ct_tx tx) then exec_confirm t f else ret xret_success).

Definition exec (t : loc) : eprog xret :=
  let* tx := get_tx t in
  let* c := nonnull (tx_check tx) in
  match c with inl r => ret r | inr f => exec_steps t f end.

(** ** Executing ([xtransaction_executor]) *)

(** The result is written only when the transaction succeeds. *)
Definition exec_one_tx (t : loc) (result : tx_result) : eprog (xret * tx_result) :=
  let* r := exec t in
  if negb (ok r) then ret (r, result)
  else
    let* result := gets get_transaction_result in
    let* tx := get_tx t in
    if is_self_tx (ct_tx tx) && is_sys_contract_address (get_source_addr (ct_tx tx))
       && negb (is_dirty (tr_native result)) && bool_decide (tr_prop_log result = None)
    then ret (xunit_contract_exec_no_property_change, result)
    else ret (xret_success, result).

(** The transactions the contract created, one after the other. *)
Fixpoint exec_created (txs : list loc) (result : tx_result) : eprog (xret * tx_result) :=
  match txs with
  | [] => ret (xret_success, result)
  | t :: txs =>
      let* (r, result) := exec_one_tx t result in
      if ok r then exec_created txs result else ret (r, result)
  end.

Definition exec_tx (t : loc) (result : tx_result) : eprog (xret * tx_result) :=
  let* tx := get_tx t in
  let* a := gets x_account in
  if is_origin_tx (ct_tx tx)
     && (negb (account_send_trans_number a =? get_last_nonce (ct_tx tx))
         || negb (check_last_trans_hash (ct_tx tx) (account_send_trans_hash a)))
  then ret (enum_xtxexecutor_error_tx_nonce_not_match, result)
  else
    (if is_origin_tx (ct_tx tx)
     then modify (on_account (with_state (set_latest_send_trans (get_tx_nonce (ct_tx tx)) (digest (ct_tx tx)))))
     else ret tt) ;;;
    let* (r, result) := exec_one_tx t result in
    if negb (ok r) then ret (r, result) else exec_created (tr_contract_txs result) result.

(** [xbatch_txs_result_t]. *)
Record batch_result := BatchResult {
  br_exec_succ_txs : list loc;
  br_exec_fail_tx : option loc;
  br_exec_fail_tx_ret : xret;
  br_succ_txs_result : tx_result
}.
Definition batch_init : batch_result := BatchResult [] None xret_success tx_result_init.

Fixpoint exec_batch (txs : list loc) (b : batch_result) : eprog (xret * batch_result) :=
  match txs with
  | [] => ret (xret_success, b)
  | t :: txs =>
      let* (r, result) := exec_tx t tx_result_init in
      let* tx := get_tx t in
      if ok r then
        set_exec t (set_tx_exec_status enum_xunit_tx_exec_status_success) ;;;
        exec_batch txs (BatchResult (br_exec_succ_txs b ++ [t]) (br_exec_fail_tx b) (br_exec_fail_tx_ret b) result)
      else
        set_exec t (set_tx_exec_status enum_xunit_tx_exec_status_fail) ;;;
        if is_recv_tx (ct_tx tx) || is_confirm_tx (ct_tx tx)
        then exec_batch txs (BatchResult (br_exec_succ_txs b ++ [t]) (br_exec_fail_tx b) (br_exec_fail_tx_ret b) (br_succ_txs_result b))
        else
          ret (match br_exec_succ_txs b with [] => r | _ => xret_success end,
               BatchResult (br_exec_succ_txs b) (Some t) r (br_succ_txs_result b))
  end.
Definition exec_batch_txs (txs : list loc) : eprog (xret * batch_result) := exec_batch txs batch_init.
End Exec.
