(* ===== verification/CsPara.v ===== *)
(** * Consensus parameters of a table block: [xdata/src/xblock.cpp], [xstore/src/xtgas_singleton.cpp], [xtxexecutor/src/xtxpool_block_maker.cpp]

    The parameters under which the transactions of a table block run: clock,
    view, random seed, the total of tokens locked for gas.  The leader chooses
    them, writes what cannot be computed again into the block, and a backup has to
    come to the same values from the block.  The total is cached per node. *)

From stdpp Require Import prelude strings gmap.
From Stdlib Require Import ZArith Lia.
From S2P Require Import Prelude Stream StdMap VBlock StdNum AccountAddr TxData NativeProp Action ConsTx ChainState AccountCtx.
Open Scope Z_scope.

(** [xblock_consensus_para_t]. *)
Record xblock_consensus_para := CsPara {
  cs_clock : Z;
  cs_validator : xvip2;
  cs_auditor : xvip2;
  cs_viewtoken : Z;                  (* uint32_t *)
  cs_viewid : Z;
  cs_timestamp : Z;
  cs_drand_height : Z;
  cs_random_seed : string;
  cs_total_lock_tgas_token : Z;
  cs_extra_data : string
}.
Definition cs_init : xblock_consensus_para := CsPara 0 (Xvip2 0 0) (Xvip2 0 0) 0 0 0 0 "" 0 "".

Definition set_common_consensus_para (clock : Z) (validator auditor : xvip2) (viewid viewtoken : Z) (p : xblock_consensus_para) :=
  CsPara clock validator auditor viewtoken viewid (cs_timestamp p) (cs_drand_height p) (cs_random_seed p)
    (cs_total_lock_tgas_token p) (cs_extra_data p).
Definition set_tableblock_consensus_para (timestamp drand_height : Z) (random_seed : string) (total : Z) (extra_data : string)
    (p : xblock_consensus_para) :=
  CsPara (cs_clock p) (cs_validator p) (cs_auditor p) (cs_viewtoken p) (cs_viewid p) timestamp drand_height random_seed total extra_data.

(** ** Certificates, as makers fill them in *)

Record qcert := QCert {
  qc_clock : Z;
  qc_viewid : Z;
  qc_viewtoken : Z;
  qc_validator : xvip2;
  qc_auditor : xvip2;
  qc_drand_height : Z;
  qc_parent_height : Z;
  qc_nonce : Z;
  qc_justify_cert_hash : string;
  qc_audit_cert : bool;              (* enum_xconsensus_flag_audit_cert *)
  qc_extend_cert : bool              (* enum_xconsensus_flag_extend_cert *)
}.
#[export] Instance qcert_eq_dec : EqDecision qcert.
Proof. solve_decision. Defined.

(** A certificate as its constructor leaves it, at any height but 0. *)
Class XCertBase := { fresh_cert : qcert }.

Definition TOP_BEGIN_GMTIME : Z := 1573189200.
Definition get_gmtime (c : qcert) : Z := u64 (u64 (qc_clock c * 10) + TOP_BEGIN_GMTIME).

Definition qc_set_parent_height (h : Z) (c : qcert) : qcert :=
  QCert (qc_clock c) (qc_viewid c) (qc_viewtoken c) (qc_validator c) (qc_auditor c) (qc_drand_height c) h (qc_nonce c)
    (qc_justify_cert_hash c) (qc_audit_cert c) (qc_extend_cert c).
Definition qc_set_justify (j : string) (c : qcert) : qcert :=
  QCert (qc_clock c) (qc_viewid c) (qc_viewtoken c) (qc_validator c) (qc_auditor c) (qc_drand_height c) (qc_parent_height c)
    (qc_nonce c) j (qc_audit_cert c) (qc_extend_cert c).
Definition qc_set_nonce (n : Z) (c : qcert) : qcert :=
  QCert (qc_clock c) (qc_viewid c) (qc_viewtoken c) (qc_validator c) (qc_auditor c) (qc_drand_height c) (qc_parent_height c)
    n (qc_justify_cert_hash c) (qc_audit_cert c) (qc_extend_cert c).
Definition qc_set_addresses (validator auditor : xvip2) (c : qcert) : qcert :=
  QCert (qc_clock c) (qc_viewid c) (qc_viewtoken c) validator auditor (qc_drand_height c) (qc_parent_height c)
    (qc_nonce c) (qc_justify_cert_hash c) (qc_audit_cert c) (qc_extend_cert c).

(** [create_blockcert] of a block above genesis. *)
Definition next_blockcert `{XCertBase} (extend : bool) (viewid clock : Z) : qcert :=
  QCert clock viewid (qc_viewtoken fresh_cert) (qc_validator fresh_cert) (qc_auditor fresh_cert) 0 (qc_parent_height fresh_cert)
    (qc_nonce fresh_cert) (qc_justify_cert_hash fresh_cert) (qc_audit_cert fresh_cert) (qc_extend_cert fresh_cert || extend).

(** [xblock_t::set_consensus_para]: auditor and token only when there is one. *)
Definition set_consensus_para (p : xblock_consensus_para) (c : qcert) : qcert :=
  QCert (cs_clock p) (cs_viewid p)
    (if cs_viewtoken p =? 0 then qc_viewtoken c else cs_viewtoken p)
    (cs_validator p)
    (if is_xip2_empty (cs_auditor p) then qc_auditor c else cs_auditor p)
    (cs_drand_height p) (qc_parent_height c) (qc_nonce c) (qc_justify_cert_hash c)
    (if is_xip2_empty (cs_auditor p) then qc_audit_cert c else true) (qc_extend_cert c).

(** ** Objects on streams *)

(** [xserializable_based_on<void>]: the object's own stream as one block of bytes. *)
Definition serialize_to (body : string) : string := write_string body.
Definition serialize_from {A} (do_read : reader A) : reader A :=
  let* body := read_string in nonnull (run_read do_read body).

(** ** Extra data of a header *)

Definition extra_data := list (Z * string).   (* std::map<uint16_t, std::string> *)
Definition enum_extra_data_type_tgas_total_lock_amount_property_height : Z := 0.

Definition extra_do_write (m : extra_data) : string :=
  write_u32 (u32 (Z.of_nat (length m))) +:+ foldr (fun e s => write_u16 e.1 +:+ (write_string e.2 +:+ s)) "" m.
Fixpoint extra_entries (n : nat) (m : extra_data) : reader extra_data :=
  match n with
  | O => ret m
  | S n' => let* k := read_u16 in let* v := read_string in extra_entries n' (map_emplace k v m).1
  end.
Definition extra_do_read : reader extra_data :=
  let* item_size := read_u32 in
  let* rest := get in
  if u32 (str_len rest) <? u32 (2 * item_size) then ub else extra_entries (Z.to_nat item_size) [].

Definition extra_deserialize_from_string (s : string) : option extra_data := run_read (serialize_from extra_do_read) s.
Definition extra_serialize_to_string (m : extra_data) : string :=
  match m with [] => "" | _ => serialize_to (extra_do_write m) end.

Section Para.
Context `{ExecBase} `{XStringUtl}.

Definition get_tgas_total_lock_amount_property_height (m : extra_data) : Z :=
  match map_find enum_extra_data_type_tgas_total_lock_amount_property_height m with
  | Some v => touint64 v
  | None => 0
  end.
Definition set_tgas_total_lock_amount_property_height (height : Z) (m : extra_data) : extra_data :=
  map_set enum_extra_data_type_tgas_total_lock_amount_property_height (utostring height) m.

(** ** The total of locked tokens, cached *)

Record xtgas_singleton := XTgas {
  m_last_update_time : Z;
  m_last_total_lock_tgas_token : Z;
  m_last_property_height : Z
}.
Definition tgas_init : xtgas_singleton := XTgas 0 0 0.
Definition m_tgas_update_interval : Z := 60.

(** The units of the workload contract in the block store: the height of the
    latest executed one, and of each its property of the total, [None] inside when
    the unit does not set it. *)
Record workload_chain := WorkloadChain {
  wc_latest : Z;
  wc_property : Z -> option (option string)
}.

(** The loop of [get_latest_property] down from a height; it ends at 0. *)
Fixpoint find_property (w : workload_chain) (height : nat) : option (string * Z) :=
  match height with
  | O => None
  | S below =>
      match wc_property w (Z.of_nat height) with
      | None => None
      | Some (Some value) => Some (value, Z.of_nat height)
      | Some None => find_property w below
      end
  end.
Definition get_latest_property (w : workload_chain) : option (string * Z) := find_property w (Z.to_nat (wc_latest w)).

(** The answer: total and height of the property. *)
Definition leader_get_total_lock_tgas_token (w : workload_chain) (timer_height : Z) (s : xtgas_singleton) : (Z * Z) * xtgas_singleton :=
  if u64 (timer_height - m_last_update_time s) <=? m_tgas_update_interval
  then ((m_last_total_lock_tgas_token s, m_last_property_height s), s)
  else
    let '(total, height) :=
      match get_latest_property w with
      | Some (value, height) =>
          if m_last_property_height s <? height then (touint64 value, height)
          else (m_last_total_lock_tgas_token s, m_last_property_height s)
      | None => (m_last_total_lock_tgas_token s, m_last_property_height s)
      end in
    ((total, height), XTgas timer_height total height).

Definition backup_get_total_lock_tgas_token (w : workload_chain) (timer_height property_height : Z) (s : xtgas_singleton)
    : option Z * xtgas_singleton :=
  if property_height =? 0 then (Some 0, s)
  else if property_height =? m_last_property_height s then (Some (m_last_total_lock_tgas_token s), s)
  else
    match wc_property w property_height with
    | Some (Some value) =>
        let total := touint64 value in
        (Some total, if m_last_property_height s <? property_height then XTgas timer_height total property_height else s)
    | _ => (None, s)
    end.

(** ** The seed *)

Definition calc_random_seed (last_block_nonce : Z) (drand_signature : string) (viewtoken : Z) : string :=
  utostring (xhash64_digest (utostring last_block_nonce +:+ utostring viewtoken +:+ drand_signature)).
End Para.
