(* ===== verification/UnitMaker.v ===== *)
(** * Units made from executed transactions: [xtxexecutor/src/xunit_blockmaker.cpp], [xdata/src/xlightunit.cpp]

    The leader executes the batch the pool hands it and packs the result into
    the next unit of the account; a backup executes the batch of the proposal in
    the same way.  What block store, pool and property database answer during a
    call is the record [maker_env]. *)

From stdpp Require Import prelude strings gmap.
From Stdlib Require Import ZArith Lia.
From S2P Require Import Prelude AccountAddr TxData StdNum NativeProp Action ConsTx ChainState AccountCtx TxExec CsPara.
Open Scope Z_scope.

(** The latest committed unit of the account, as the block store returns it. *)
Record prev_unit := PrevUnit {
  pu_height : Z;
  pu_hash : string;
  pu_is_genesis : bool;
  pu_is_full : bool;
  pu_last_full_height : Z;
  pu_last_full_hash : string;
  pu_connected_executed : bool;        (* is_connect_and_executed_block *)
  pu_hash_to_sign : string;
  pu_viewid : Z;
  pu_clock : Z
}.

(** What the call finds for one account: the block store, the pool and the
    property database. *)
Record maker_env := MakerEnv {
  me_latest : prev_unit;
  me_sign_hash : Z -> option string;   (* load_block_object(account, height): its hash to sign *)
  me_txs : list xcons_tx;              (* get_account_txs *)
  me_verify_txs : list xcons_tx -> xret;             (* verify_txs of the pool *)
  me_property : string -> option (string * string)   (* clone_property: hash and bytes *)
}.

(** A unit as it goes into a table block. *)
Record unit_block := UnitBlock {
  ub_account : string;
  ub_height : Z;
  ub_last_hash : string;
  ub_last_full_height : Z;
  ub_last_full_hash : string;
  ub_body : unit_body;
  ub_cert : qcert
}.

(** [xunit_proposal_input_t]: what a backup gets to make the unit again. *)
Record xunit_proposal_input := UnitInput {
  in_account : string;
  in_last_block_height : Z;
  in_last_block_hash : string;
  in_txs : list xcons_tx
}.

(** A transaction taken out of the pool because it failed: account, hash, step and code. *)
Record popped_tx := PoppedTx { pt_account : string; pt_hash : string; pt_subtype : Z; pt_ret : xret }.

(** ** Light units *)

Definition count_txs (f : xtransaction -> bool) (l : list xcons_tx) : Z := Z.of_nat (length (List.filter (fun t => f (ct_tx t)) l)).

(** [xlightunit_output_resource_t] and the entities of the body. *)
Definition lightunit_of (s : ectx) (input_txs : list loc) (res : tx_result) : xlightunit :=
  let at_loc ls := omap (fun l => x_txs s !! l) ls in
  let input := at_loc input_txs in
  let created := at_loc (tr_contract_txs res) in
  let send_tx_num := u32 (count_txs is_send_tx input + Z.of_nat (length created)) in
  let confirm_tx_num := count_txs is_confirm_tx input in
  let unconfirm := u16 (u32 (get_unconfirm_sendtx_num (x_account s) - confirm_tx_num)) in
  XLightUnit (input ++ created) (tr_change res) (np_view (x_heap s, copy_modify_objs_only (tr_native res)))
    (tr_props res) (u16 (unconfirm + send_tx_num)) (unconfirm =? 0).

Section Maker.
Context `{ExecConfig} `{ExecBase} `{TxEnv} `{XStringUtl} `{ExecWorld} `{XCertBase}.

(** [make_lightunit_output]: the unit holds all input transactions. *)
Definition make_lightunit_output (txs : list loc) : eprog (xret * option xlightunit * option popped_tx) :=
  let* (r, b) := exec_batch_txs txs in
  if negb (ok r) then
    let* t := nonnull (br_exec_fail_tx b) in
    let* tx := get_tx t in
    ret (r, None, Some (PoppedTx (get_source_addr (ct_tx tx)) (digest (ct_tx tx)) (get_tx_subtype (ct_tx tx)) (br_exec_fail_tx_ret b)))
  else
    let* s := get in ret (xret_success, Some (lightunit_of s txs (br_succ_txs_result b)), None).

(** ** Full units *)

Definition can_make_full_unit (a : xblockchain) (prev : prev_unit) : bool :=
  let current_height := u64 (pu_height prev + 1) in
  let current_fullunit_height := if pu_is_full prev then pu_height prev else pu_last_full_height prev in
  let current_lightunit_count := u64 (current_height - current_fullunit_height) in
  (fullunit_contain_of_unit_num <=? current_lightunit_count) && (get_unconfirm_sendtx_num a =? 0).

(** Some property of the account is not in the database with the hash of the state. *)
Definition property_behind (e : maker_env) (a : xblockchain) : bool :=
  existsb (fun '(name, hash) => match me_property e name with Some (h, _) => negb (bool_decide (h = hash)) | None => true end)
    (map_to_list (ms_property_hash (bc_state a))).
Definition fullunit_of (e : maker_env) (s : ectx) : xfullunit :=
  let a := x_account s in
  XFullUnit (bc_state a) (np_view (acct_np s)) (map_imap (fun name _ => snd <$> me_property e name) (ms_property_hash (bc_state a)))
    (bc_last_full_block_height a) (bc_last_full_block_hash a).
Definition make_fullunit_output (e : maker_env) : eprog (xret * option unit_body) :=
  let* s := get in
  if property_behind e (x_account s) then ret (enum_xtxexecutor_error_unit_property_behind, None)
  else ret (xret_success, Some (FullUnit (fullunit_of e s))).

(** ** Units *)

(** The body of the unit and the transactions that go into the proposal: none of
    them when it is time for a full unit. *)
Definition create_unit (e : maker_env) (txs : list loc) : eprog (xret * option (unit_body * list loc) * option popped_tx) :=
  let* a := gets x_account in
  if can_make_full_unit a (me_latest e) then
    let* (r, b) := make_fullunit_output e in ret (r, (fun b => (b, [])) <$> b, None)
  else
    let* (r, u, p) := make_lightunit_output txs in ret (r, (fun u => (LightUnit u, txs)) <$> u, p).

(** The block around the body: [create_next_lightunit] and [create_next_fullunit]. *)
Definition create_next_unit (account : string) (prev : prev_unit) (justify : string) (cs : xblock_consensus_para) (body : unit_body) : unit_block :=
  let after_full := pu_is_genesis prev || pu_is_full prev in
  UnitBlock account (u64 (pu_height prev + 1)) (pu_hash prev)
    (if after_full then pu_height prev else pu_last_full_height prev)
    (if after_full then pu_hash prev else pu_last_full_hash prev) body
    (set_consensus_para cs (qc_set_justify justify (next_blockcert true (u64 (pu_viewid prev + 1)) (u64 (pu_clock prev + 1))))).

Definition get_lock_block_sign_hash (e : maker_env) : option string :=
  let prev := me_latest e in
  if pu_height prev <? 2 then Some (pu_hash_to_sign prev) else me_sign_hash e (pu_height prev - 1).

(** A fresh context over the stored account, with the transactions of the call. *)
Definition maker_context (account : string) (cs : xblock_consensus_para) (txs : list xcons_tx) : ectx :=
  set_context_para (cs_clock cs) (cs_random_seed cs) (cs_timestamp cs) (cs_total_lock_tgas_token cs)
    (account_context account (stored_account account) txs).

Definition leader_check_state (latest : prev_unit) : xret :=
  if negb (pu_connected_executed latest) then enum_xtxexecutor_error_unit_state_behind else xret_success.

(** The transactions of the input are the objects that were executed. *)
Definition make_unit_block (account : string) (cs : xblock_consensus_para) (e : maker_env)
  : option (xret * option (unit_block * xunit_proposal_input) * option popped_tx) :=
  if negb (ok (leader_check_state (me_latest e))) then Some (leader_check_state (me_latest e), None, None)
  else
    let c := maker_context account cs (me_txs e) in
    if negb (bc_max_block_height (x_account c) =? pu_height (me_latest e))
    then Some (enum_xtxexecutor_error_unit_height_not_equal_blockchain_height, None, None)
    else if bool_decide (length (me_txs e) = 0%nat) then Some (enum_xtxexecutor_error_account_have_no_tx, None, None)
    else match get_lock_block_sign_hash e with
         | None => Some (enum_xtxexecutor_error_unit_state_behind, None, None)
         | Some justify =>
             match create_unit e (seq 0 (length (me_txs e))) c with
             | Some (r, Some (body, txs), p, c) =>
                 let u := create_next_unit account (me_latest e) justify cs body in
                 Some (r, Some (u, UnitInput account (u64 (ub_height u - 1)) (ub_last_hash u) (omap (fun l => x_txs c !! l) txs)), p)
             | Some (r, None, p, _) => Some (r, None, p)
             | None => None
             end
         end.

(** [backup_check_state]: the proposal continues the latest unit. *)
Definition backup_check_state (latest : prev_unit) (leader_height : Z) (leader_hash : string) : xret :=
  if negb (pu_connected_executed latest) then enum_xtxexecutor_error_unit_state_behind
  else if pu_height latest <? leader_height then enum_xtxexecutor_error_unit_height_less_than_leader
  else if leader_height <? pu_height latest then enum_xtxexecutor_error_unit_height_larger_than_leader
  else if negb (bool_decide (leader_hash = pu_hash latest)) then enum_xtxexecutor_error_unit_leader_hash_not_equal_backup
  else xret_success.

Definition verify_proposal_block_class (a : xblockchain) (body : unit_body) (latest : prev_unit) : xret :=
  let full := match body with FullUnit _ => true | _ => false end in
  let light := match body with LightUnit _ => true | _ => false end in
  if can_make_full_unit a latest && negb full then enum_xtxexecutor_error_proposal_unit_should_be_fullunit
  else if negb (can_make_full_unit a latest) && negb light then enum_xtxexecutor_error_proposal_unit_should_be_lightunit
  else xret_success.

Definition verify_unit_block (input : xunit_proposal_input) (cs : xblock_consensus_para) (e : maker_env)
  : option (xret * option unit_block * option popped_tx) :=
  let account := in_account input in
  let txs := in_txs input in
  let r := backup_check_state (me_latest e) (in_last_block_height input) (in_last_block_hash input) in
  if negb (ok r) then Some (r, None, None)
  else if negb (bool_decide (length txs = 0%nat)) && negb (ok (me_verify_txs e txs)) then Some (me_verify_txs e txs, None, None)
  else match get_lock_block_sign_hash e with
       | None => Some (enum_xtxexecutor_error_unit_state_behind, None, None)
       | Some justify =>
           match create_unit e (seq 0 (length txs)) (maker_context account cs txs) with
           | None => None
           | Some (r, None, p, _) => Some (r, None, p)
           | Some (r, Some (body, _), p, c) =>
               let rc := verify_proposal_block_class (x_account c) body (me_latest e) in
               if negb (ok rc) then Some (rc, None, p)
               else Some (r, Some (create_next_unit account (me_latest e) justify cs body), p)
           end
       end.
End Maker.
