(* ===== verification/TableMaker.v ===== *)
(** * Table blocks: [xtxexecutor/src/xtxpool_block_maker.cpp], [xtxexecutor/src/xblock_maker_para.cpp], [xdata/src/xtableblock.cpp]

    The leader of a table packs the units of several accounts into one block and
    sends, with the header, the input of every unit; a backup makes the units
    again from the input and compares the hashes of the two blocks.  Hashes and
    the bytes of a transaction are the classes [BlockHash] and [TxCodec]. *)

From stdpp Require Import prelude strings gmap.
From Stdlib Require Import ZArith Lia.
From S2P Require Import Prelude Stream StdMap VBlock AccountAddr TxData StdNum NativeProp Action ConsTx ChainState AccountCtx TxExec CsPara UnitMaker.
Open Scope Z_scope.

Inductive enum_xvblock_class := class_nil | class_light | class_full.
#[export] Instance block_class_eq_dec : EqDecision enum_xvblock_class.
Proof. solve_decision. Defined.

(** A block of the table in the store. *)
Record table_prev := TablePrev {
  tp_account : string;
  tp_height : Z;
  tp_hash : string;
  tp_is_genesis : bool;
  tp_class : enum_xvblock_class;
  tp_last_full_height : Z;
  tp_last_full_hash : string;
  tp_viewid : Z;
  tp_clock : Z;
  tp_nonce : Z;
  tp_committed : bool;
  tp_locked : bool;
  tp_connected_executed : bool         (* is_connect_and_executed_block *)
}.

Record table_header := TableHeader {
  th_account : string;
  th_height : Z;
  th_class : enum_xvblock_class;
  th_last_hash : string;
  th_last_full_height : Z;
  th_last_full_hash : string;
  th_extra_data : string;
  th_input_hash : string;
  th_output_hash : string
}.

(** The header of a unit. *)
Record unit_header := UnitHeader {
  uh_account : string;
  uh_height : Z;
  uh_class : enum_xvblock_class;
  uh_last_hash : string;
  uh_last_full_height : Z;
  uh_last_full_hash : string;
  uh_input_hash : string;
  uh_output_hash : string
}.
Definition body_class (b : unit_body) : enum_xvblock_class :=
  match b with LightUnit _ => class_light | FullUnit _ => class_full | EmptyUnit => class_nil end.

(** [xresource_unit_input_t] and [xresource_unit_output_t]: the bytes of a unit
    without its certificate. *)
Record xresource_unit_input := ResUnitInput {
  m_unit_header : string;
  m_unit_input : string;
  m_unit_input_resources : string
}.
Record xresource_unit_output := ResUnitOutput {
  m_unit_output : string;
  m_unit_output_resources : string;
  m_unit_justify_hash : string
}.
Definition res_input_do_write (x : xresource_unit_input) : string :=
  write_string (m_unit_header x) +:+ (write_string (m_unit_input x) +:+ write_string (m_unit_input_resources x)).
Definition res_input_do_read : reader xresource_unit_input :=
  let* header := read_string in
  let* input := read_string in
  let* resources := read_string in
  ret (ResUnitInput header input resources).
Definition res_output_do_write (x : xresource_unit_output) : string :=
  write_string (m_unit_output x) +:+ (write_string (m_unit_output_resources x) +:+ write_string (m_unit_justify_hash x)).
Definition res_output_do_read : reader xresource_unit_output :=
  let* output := read_string in
  let* resources := read_string in
  let* justify := read_string in
  ret (ResUnitOutput output resources justify).

(** The outputs are the hashes to sign of the units.  The resources of input and
    output hold the units; a block from the network comes without them, and
    without a link to its predecessor. *)
Record table_block := TableBlock {
  tb_header : table_header;
  tb_cert : qcert;
  tb_proposal : string;                (* get_input()->get_proposal() *)
  tb_outputs : list string;            (* entities of the output *)
  tb_units : option (list (string * string));   (* input and output resource of each unit *)
  tb_prev : option table_prev
}.

Class BlockHash := {
  body_input_hash : unit_body -> string;               (* what the header of a unit holds of its body *)
  body_output_hash : unit_body -> string;
  unit_header_hash : unit_header -> string;
  unit_hash_to_sign : unit_header -> qcert -> string;
  hash_input : list (string * Z * string) -> list string -> string;           (* entities and resources *)
  hash_output : list string -> list string -> string;
  header_hash : table_header -> string;
  hash_to_sign : string -> qcert -> string;                                   (* header hash and certificate *)
  input_matches : string -> list string -> bool;                              (* set_input_resources *)
  output_matches : string -> list string -> bool                              (* set_output_resources *)
}.
(** The base library's headers, inputs and outputs as bytes: [serialize_to_string],
    [create_header_object], [create_input_object], [create_output_object].  The
    entities are the objects an input or output holds for a body. *)
Class UnitCodec := {
  ventitys : Type;
  input_entitys : unit_body -> ventitys;
  output_entitys : unit_body -> ventitys;
  input_resources_data : unit_body -> string;          (* get_resources_data() *)
  output_resources_data : unit_body -> string;
  header_to_string : unit_header -> string;
  input_to_string : ventitys -> string;
  output_to_string : ventitys -> string;
  create_header_object : string -> option unit_header;
  create_input_object : string -> option ventitys;
  create_output_object : string -> option ventitys
}.
(** [xcons_transaction_t::serialize_to] and [serialize_from]. *)
Class TxCodec := { cons_tx_write : xcons_tx -> string; cons_tx_read : reader xcons_tx }.

(** ** The input of a proposal *)

Section Input.
Context `{TxCodec}.

Definition write_list {A} (f : A -> string) (l : list A) : string :=
  write_u32 (u32 (Z.of_nat (length l))) +:+ foldr (fun x s => f x +:+ s) "" l.
Fixpoint read_items {A} (m : reader A) (n : nat) : reader (list A) :=
  match n with
  | O => ret []
  | S n' => let* x := m in let* l := read_items m n' in ret (x :: l)
  end.
Definition read_list {A} (m : reader A) : reader (list A) := let* n := read_u32 in read_items m (Z.to_nat n).

Definition unit_input_do_write (i : xunit_proposal_input) : string :=
  write_string (in_account i) +:+ (write_u64 (in_last_block_height i) +:+
    (write_string (in_last_block_hash i) +:+ write_list cons_tx_write (in_txs i))).
Definition unit_input_do_read : reader xunit_proposal_input :=
  let* account := read_string in
  let* height := read_u64 in
  let* hash := read_string in
  let* txs := read_list cons_tx_read in
  ret (UnitInput account height hash txs).

Definition table_input_do_write (l : list xunit_proposal_input) : string :=
  write_list (fun i => serialize_to (unit_input_do_write i)) l.
Definition table_input_do_read : reader (list xunit_proposal_input) := read_list (serialize_from unit_input_do_read).
Definition table_input_to_string (l : list xunit_proposal_input) : string := serialize_to (table_input_do_write l).
Definition table_input_from_string (s : string) : option (list xunit_proposal_input) := run_read (serialize_from table_input_do_read) s.
End Input.

(** What the unit service gives the leader. *)
Record xblock_maker_para := MakerPara {
  mp_viewid : Z;
  mp_drand_height : Z;
  mp_validator_xip : xvip2;
  mp_auditor_xip : xvip2;
  mp_timer_height : Z;
  mp_timer_clock : Z;
  mp_drand_signature : string;         (* drand_block->get_cert()->get_verify_signature() *)
  mp_latest_cert_block : table_prev;
  mp_can_make_empty_block : bool;
  mp_unit_accounts : list string
}.

Section Table.
Context `{ExecConfig} `{ExecBase} `{TxEnv} `{XStringUtl} `{ExecWorld} `{XCertBase} `{BlockHash} `{TxCodec} `{UnitCodec}.
Context (tableblock_batch_tx_max_num : Z).   (* int32_t of the configuration *)

(** ** The blocks *)

Definition unit_with_parent (height : Z) (u : unit_block) : unit_block :=
  UnitBlock (ub_account u) (ub_height u) (ub_last_hash u) (ub_last_full_height u) (ub_last_full_hash u) (ub_body u)
    (qc_set_parent_height height (ub_cert u)).
Definition header_of (u : unit_block) : unit_header :=
  UnitHeader (ub_account u) (ub_height u) (body_class (ub_body u)) (ub_last_hash u) (ub_last_full_height u) (ub_last_full_hash u)
    (body_input_hash (ub_body u)) (body_output_hash (ub_body u)).
Definition input_entity (u : unit_block) : string * Z * string := (ub_account u, ub_height u, unit_header_hash (header_of u)).
Definition output_entity (u : unit_block) : string := unit_hash_to_sign (header_of u) (ub_cert u).

(** The constructors of the two resources, written to strings. *)
Definition res_input_of (u : unit_block) : xresource_unit_input :=
  ResUnitInput (header_to_string (header_of u)) (input_to_string (input_entitys (ub_body u))) (input_resources_data (ub_body u)).
Definition res_output_of (u : unit_block) : xresource_unit_output :=
  ResUnitOutput (output_to_string (output_entitys (ub_body u))) (output_resources_data (ub_body u)) (qc_justify_cert_hash (ub_cert u)).
Definition resource_of (u : unit_block) : string * string :=
  (serialize_to (res_input_do_write (res_input_of u)), serialize_to (res_output_do_write (res_output_of u))).

(** [create_tableblock]: the body has at most 65535 units. *)
Definition create_tableblock (account : string) (height : Z) (last_hash : string) (viewid clock : Z)
    (last_full_hash : string) (last_full_height : Z) (units : list unit_block) (extra_data : string) : table_block :=
  let units := map (unit_with_parent height) units in
  let body := take (Z.to_nat (u16 (Z.of_nat (length units)))) units in
  TableBlock
    (TableHeader account height class_light last_hash last_full_height last_full_hash extra_data
       (hash_input (map input_entity body) (map (fun u => (resource_of u).1) body))
       (hash_output (map output_entity body) (map (fun u => (resource_of u).2) body)))
    (next_blockcert false viewid clock) "" (map output_entity body) (Some (map resource_of body)) None.

Definition create_next_tableblock (units : list unit_block) (extra_data : string) (prev : table_prev) : table_block :=
  let after_full := tp_is_genesis prev || bool_decide (tp_class prev = class_full) in
  create_tableblock (tp_account prev) (u64 (tp_height prev + 1)) (tp_hash prev) (u64 (tp_viewid prev + 1)) (u64 (tp_clock prev + 1))
    (if after_full then tp_hash prev else tp_last_full_hash prev)
    (if after_full then tp_height prev else tp_last_full_height prev) units extra_data.

(** [xemptyblock_t::create_next_emptyblock] of a table. *)
Definition create_next_emptytable (prev : table_prev) : table_block :=
  let after_full := tp_is_genesis prev || bool_decide (tp_class prev = class_full) in
  TableBlock
    (TableHeader (tp_account prev) (u64 (tp_height prev + 1)) class_nil (tp_hash prev)
       (if after_full then tp_height prev else tp_last_full_height prev)
       (if after_full then tp_hash prev else tp_last_full_hash prev) "" "" "")
    (next_blockcert false (u64 (tp_viewid prev + 1)) (u64 (tp_clock prev + 1))) "" [] (Some []) None.

Definition on_cert (f : qcert -> qcert) (b : table_block) : table_block :=
  TableBlock (tb_header b) (f (tb_cert b)) (tb_proposal b) (tb_outputs b) (tb_units b) (tb_prev b).
Definition with_proposal (s : string) (b : table_block) : table_block :=
  TableBlock (tb_header b) (tb_cert b) s (tb_outputs b) (tb_units b) (tb_prev b).
Definition with_units (l : list (string * string)) (b : table_block) : table_block :=
  TableBlock (tb_header b) (tb_cert b) (tb_proposal b) (tb_outputs b) (Some l) (tb_prev b).
Definition with_prev (p : table_prev) (b : table_block) : table_block :=
  TableBlock (tb_header b) (tb_cert b) (tb_proposal b) (tb_outputs b) (tb_units b) (Some p).

(** ** The leader *)

Definition leader_set_consensus_para (w : workload_chain) (para : xblock_maker_para) (viewtoken : Z) (is_empty_block : bool)
    (s : xtgas_singleton) : xblock_consensus_para * xtgas_singleton :=
  let cs := set_common_consensus_para (mp_timer_clock para) (mp_validator_xip para) (mp_auditor_xip para) (mp_viewid para) viewtoken cs_init in
  if is_empty_block then (cs, s)
  else
    let '((total, property_height), s) := leader_get_total_lock_tgas_token w (mp_timer_height para) s in
    let extra := extra_serialize_to_string (set_tgas_total_lock_amount_property_height property_height []) in
    let timestamp := u64 (u64 (mp_timer_clock para * 10) + TOP_BEGIN_GMTIME) in
    let seed := calc_random_seed (tp_nonce (mp_latest_cert_block para)) (mp_drand_signature para) viewtoken in
    (set_tableblock_consensus_para timestamp (mp_drand_height para) seed total extra cs, s).

(** The loop over the accounts: the result of the last unit tried, and the units
    made with their inputs. *)
Fixpoint make_units (env : string -> maker_env) (cs : xblock_consensus_para) (residue : Z) (accounts : list string) (last : xret)
    : option (xret * list (unit_block * xunit_proposal_input)) :=
  match accounts with
  | [] => Some (last, [])
  | account :: accounts =>
      match make_unit_block account cs (env account) with
      | None => None
      | Some (r, made, _) =>
          if negb (ok r) then make_units env cs residue accounts r
          else
            match made with
            | None => None
            | Some (u, i) =>
                let residue := i32 (residue - Z.of_nat (length (in_txs i))) in
                if residue <=? 0 then Some (r, [(u, i)])
                else match make_units env cs residue accounts r with
                     | Some (r, l) => Some (r, (u, i) :: l)
                     | None => None
                     end
            end
      end
  end.

Definition make_tableblock (env : string -> maker_env) (cs : xblock_consensus_para) (accounts : list string) (prev : table_prev)
    : option (xret * option table_block) :=
  match make_units env cs tableblock_batch_tx_max_num accounts xret_success with
  | None => None
  | Some (r, []) => Some (r, None)
  | Some (_, l) =>
      Some (xret_success, Some (with_proposal (table_input_to_string (map snd l))
        (on_cert (set_consensus_para cs) (create_next_tableblock (map fst l) (cs_extra_data cs) prev))))
  end.

(** [make_block]: an empty block when there is nothing else; the two random
    numbers are those of the two places that may ask for one. *)
Definition make_table (env : string -> maker_env) (w : workload_chain) (para : xblock_maker_para) (viewtoken viewtoken' : Z)
    (s : xtgas_singleton) : option (option table_block * xtgas_singleton) :=
  let prev := mp_latest_cert_block para in
  let linked := with_prev prev in
  let empty cs s :=
    let '(cs, s) := if cs_clock cs =? 0 then leader_set_consensus_para w para viewtoken' true s else (cs, s) in
    Some (Some (linked (on_cert (set_consensus_para cs) (create_next_emptytable prev))), s) in
  match mp_unit_accounts para with
  | [] => empty cs_init s
  | accounts =>
      let '(cs, s) := leader_set_consensus_para w para viewtoken false s in
      match make_tableblock env cs accounts prev with
      | None => None
      | Some (r, b) =>
          if negb (ok r) && negb (mp_can_make_empty_block para) then Some (None, s)
          else match b with
               | Some b => Some (Some (linked b), s)
               | None => empty cs s
               end
      end
  end.

(** ** The backup *)

(** What the stores of a backup answer. *)
Record backup_env := BackupEnv {
  be_units : string -> maker_env;
  be_query_block : Z -> list table_prev;             (* query_block(table, height) *)
  be_load : Z -> option (bool * bool);               (* load_block_object(table, height): committed; connected and executed *)
  be_workload : workload_chain;
  be_drand_signature : string                         (* bind_drand_cert->get_verify_signature() *)
}.

Definition validity_check_for_proposal (b : table_block) : xret :=
  if (th_height (tb_header b) =? 1) && bool_decide (th_class (tb_header b) = class_nil)
  then enum_xtxexecutor_error_proposal_tableblock_should_not_empty_block else xret_success.

(** The walk of [check_cert_connect] down to a committed block, over at most seven blocks. *)
Definition enum_check_tableblock_connection_max_num : nat := 6.
Fixpoint walk_to_commit (env : backup_env) (steps : nat) (cur_height : Z) : bool :=
  match be_load env cur_height with
  | None => false
  | Some (true, connected_executed) => connected_executed
  | Some (false, _) => match steps with O => false | S steps => walk_to_commit env steps (u64 (cur_height - 1)) end
  end.
Definition check_cert_connect (env : backup_env) (p : table_prev) : xret :=
  if tp_is_genesis p || (tp_height p =? 1) then xret_success
  else if tp_committed p || tp_locked p then enum_xconsensus_error_bad_height
  else if walk_to_commit env enum_check_tableblock_connection_max_num (u64 (tp_height p - 1)) then xret_success
  else enum_xtxexecutor_error_leader_tableblock_behind.

Definition check_proposal_connect (env : backup_env) (b : table_block) : xret * table_block :=
  let b := match tb_prev b with
           | Some _ => b
           | None =>
               match List.find (fun p => bool_decide (tp_hash p = th_last_hash (tb_header b)))
                       (be_query_block env (u64 (th_height (tb_header b) - 1))) with
               | Some p => with_prev p b
               | None => b
               end
           end in
  match tb_prev b with
  | Some p => if ok (check_cert_connect env p) then (xret_success, b) else (enum_xtxexecutor_error_backup_tableblock_behind, b)
  | None => (enum_xtxexecutor_error_backup_tableblock_behind, b)
  end.

(** [None] inside: the answer false; no answer at all: the stream of the extra
    data threw an exception. *)
Definition backup_set_consensus_para (env : backup_env) (prev : table_prev) (b : table_block) (s : xtgas_singleton)
    : option (option xblock_consensus_para * xtgas_singleton) :=
  let c := tb_cert b in
  let cs := set_common_consensus_para (qc_clock c) (qc_validator c) (qc_auditor c) (qc_viewid c) (qc_viewtoken c) cs_init in
  let extra := th_extra_data (tb_header b) in
  let finish total s :=
    let seed := calc_random_seed (tp_nonce prev) (be_drand_signature env) (qc_viewtoken c) in
    Some (Some (set_tableblock_consensus_para (get_gmtime c) (qc_drand_height c) seed total extra cs), s) in
  if bool_decide (th_class (tb_header b) = class_nil) then Some (Some cs, s)
  else if bool_decide (extra = "") then finish 0 s
  else match extra_deserialize_from_string extra with
       | None => None
       | Some m =>
           match backup_get_total_lock_tgas_token (be_workload env) (qc_clock c) (get_tgas_total_lock_amount_property_height m) s with
           | (Some total, s) => finish total s
           | (None, s) => Some (None, s)
           end
       end.

Fixpoint verify_units (env : backup_env) (cs : xblock_consensus_para) (height : Z) (inputs : list xunit_proposal_input)
    : option (xret * list unit_block) :=
  match inputs with
  | [] => Some (xret_success, [])
  | i :: inputs =>
      match verify_unit_block i cs (be_units env (in_account i)) with
      | None => None
      | Some (r, made, _) =>
          if negb (ok r) then Some (r, [])
          else match made with
               | None => None
               | Some u =>
                   match verify_units env cs height inputs with
                   | Some (r, l) => Some (r, unit_with_parent height u :: l)
                   | None => None
                   end
               end
      end
  end.

(** [verify_out_tableblock]: the hashes, and then the resources of the local
    block go into the proposal. *)
Definition verify_out_tableblock (b local : table_block) : xret * table_block :=
  let h := tb_header b in
  let h' := tb_header local in
  if negb (bool_decide (th_input_hash h' = th_input_hash h)) then (enum_xtxexecutor_error_backup_verify_fail_table_input_hash, b)
  else if negb (bool_decide (th_output_hash h' = th_output_hash h)) then (enum_xtxexecutor_error_backup_verify_fail_table_output_hash, b)
  else if negb (bool_decide (header_hash h' = header_hash h)) then (enum_xtxexecutor_error_backup_verify_fail_table_header_hash, b)
  else if negb (bool_decide (hash_to_sign (header_hash h') (tb_cert local) = hash_to_sign (header_hash h) (tb_cert b)))
  then (enum_xconsensus_error_bad_proposal, b)
  else
    let units := default [] (tb_units local) in
    if negb (output_matches (th_output_hash h) units.*2) then (enum_xconsensus_error_bad_proposal, b)
    else if negb (input_matches (th_input_hash h) units.*1) then (enum_xconsensus_error_bad_proposal, b)
    else (xret_success, with_units units b).

(** The local block with the fields only the leader knows. *)
Definition local_tableblock (cs : xblock_consensus_para) (prev : table_prev) (units : list unit_block) (b : table_block) : table_block :=
  let c := tb_cert b in
  on_cert (fun l => qc_set_justify (qc_justify_cert_hash c) (qc_set_addresses (qc_validator c) (qc_auditor c)
                      (qc_set_nonce (qc_nonce c) (set_consensus_para cs l))))
    (create_next_tableblock units (cs_extra_data cs) prev).

Definition try_verify_tableblock (env : backup_env) (cs : xblock_consensus_para) (prev : table_prev) (b : table_block)
    : option (xret * table_block) :=
  match table_input_from_string (tb_proposal b) with
  | None => None
  | Some [] => Some (enum_xconsensus_error_bad_proposal, b)
  | Some inputs =>
      match verify_units env cs (th_height (tb_header b)) inputs with
      | None => None
      | Some (r, units) => if negb (ok r) then Some (r, b) else Some (verify_out_tableblock b (local_tableblock cs prev units b))
      end
  end.

Definition verify_table (env : backup_env) (b : table_block) (s : xtgas_singleton) : option (xret * table_block * xtgas_singleton) :=
  let r := validity_check_for_proposal b in
  if negb (ok r) then Some (r, b, s)
  else
    let '(r, b) := check_proposal_connect env b in
    if negb (ok r) then Some (r, b, s)
    else match tb_prev b with
         | None => None
         | Some prev =>
             if bool_decide (th_class (tb_header b) = class_nil) then Some (xret_success, b, s)
             else match backup_set_consensus_para env prev b s with
                  | None => None
                  | Some (None, s) => Some (enum_xtxexecutor_error_backup_verify_fail_check_consensus_para, b, s)
                  | Some (Some cs, s) =>
                      match try_verify_tableblock env cs prev b with
                      | Some (r, b) => Some (r, b, s)
                      | None => None
                      end
                  end
         end.

(** ** Units out of a table block *)

(** A unit as it is made again: header, certificate, input and output with
    their resources. *)
Record whole_unit := WholeUnit {
  wu_header : unit_header;
  wu_cert : qcert;
  wu_input : ventitys * string;
  wu_output : ventitys * string
}.
(** [create_whole_unit]; [None]: an object that is not there is used. *)
Definition create_whole_unit (header input input_res output output_res : string) : option whole_unit :=
  h ← create_header_object header;
  i ← create_input_object input;
  o ← create_output_object output;
  Some (WholeUnit h (next_blockcert true (qc_viewid fresh_cert) (qc_clock fresh_cert)) (i, input_res) (o, output_res)).
Definition on_unit_cert (f : qcert -> qcert) (u : whole_unit) : whole_unit :=
  WholeUnit (wu_header u) (f (wu_cert u)) (wu_input u) (wu_output u).

(** [recreate_unit_from_unit_input_output_resource], then the parameters of the
    table: the certificate of a unit is not stored. *)
Definition recreate_unit (b : table_block) (res : string * string) : option whole_unit :=
  let c := tb_cert b in
  let cs := CsPara (qc_clock c) (qc_validator c) (qc_auditor c) (qc_viewtoken c) (qc_viewid c) 0 (qc_drand_height c) "" 0 "" in
  i ← run_read (serialize_from res_input_do_read) res.1;
  o ← run_read (serialize_from res_output_do_read) res.2;
  u ← create_whole_unit (m_unit_header i) (m_unit_input i) (m_unit_input_resources i) (m_unit_output o) (m_unit_output_resources o);
  Some (on_unit_cert (fun q => set_consensus_para cs (qc_set_parent_height (th_height (tb_header b)) (qc_set_justify (m_unit_justify_hash o) q))) u).

(** [unpack_proposal_units]: a unit whose hash is not the output's is kept too, with an error in the log. *)
Definition unpack_proposal_units (b : table_block) : option (list whole_unit) :=
  mapM (recreate_unit b) (take (Z.to_nat (u16 (Z.of_nat (length (tb_outputs b))))) (default [] (tb_units b))).
End Table.
