(* ===== verification/ExecInv.v ===== *)
(** * Well-formed execution contexts

    The invariant of a context while transactions run in it: every property has
    the type and the contents its readers expect, the two property sets of the
    account agree on which name an object belongs to, and counters parse.  Every
    operation keeps it ([run_np_ok], [on_change_ok]), and none touches the
    committed balance, the account's name or the transactions themselves
    ([keeps]).  Sums of money are compared modulo 2^64 ([cong]), the way the code
    computes them. *)

From stdpp Require Import prelude strings gmap.
From Stdlib Require Import ZArith Lia.
From S2P Require Import Prelude Stream StdMap StdNum AccountAddr TxData NativeProp Action ConsTx ChainState AccountCtx.
Open Scope Z_scope.

(** ** Equality modulo 2^64 *)

Definition cong (a b : Z) : Prop := u64 a = u64 b.
Declare Scope money_scope.
Infix "≡₆₄" := cong (at level 70) : money_scope.
Open Scope money_scope.

#[export] Instance cong_equivalence : Equivalence cong.
Proof. split; unfold cong; red; congruence. Qed.
#[export] Instance cong_add : Proper (cong ==> cong ==> cong) Z.add.
Proof. intros a a' Ha b b' Hb. unfold cong, u64 in *. by rewrite (Zplus_mod a), Ha, Hb, <- Zplus_mod. Qed.
#[export] Instance cong_opp : Proper (cong ==> cong) Z.opp.
Proof. intros a a' Ha. unfold cong, u64 in *. rewrite <- !Z.sub_0_l, (Zminus_mod 0), Ha, <- Zminus_mod. done. Qed.
#[export] Instance cong_sub : Proper (cong ==> cong ==> cong) Z.sub.
Proof. intros a a' Ha b b' Hb. unfold Z.sub. by rewrite Ha, Hb. Qed.

Lemma cong_u64 x : u64 x ≡₆₄ x.
Proof. unfold cong, u64. by rewrite Zmod_mod. Qed.
Lemma cong_i64 x : i64 x ≡₆₄ x.
Proof. apply u64_i64. Qed.
Lemma cong_eq a b : a = b -> a ≡₆₄ b.
Proof. by intros ->. Qed.
Lemma i64_cong a b : a ≡₆₄ b -> i64 a = i64 b.
Proof. unfold cong, u64, i64. intros H. by rewrite <- (Zplus_mod_idemp_l a), H, Zplus_mod_idemp_l. Qed.
Lemma i64_range x : - 2 ^ 63 <= i64 x < 2 ^ 63.
Proof. unfold i64. pose proof (Z.mod_pos_bound (x + 2 ^ 63) (2 ^ 64)). lia. Qed.

(** Chain the congruences at hand and compare what is left. *)
Ltac cong_solve :=
  repeat match goal with
    | H : ?a ≡₆₄ _ |- context [?a] => rewrite H; clear H
    end;
  rewrite ?cong_u64, ?cong_i64; apply cong_eq; lia.

(** ** What the properties of an account hold *)

Inductive prop_kind := KCounter | KLocks | KVotes | KString | KMap | KTokens | KDeque.

Definition prop_kinds : list (string * prop_kind) :=
  [(XPROPERTY_LOCK_TOKEN_SUM_KEY, KCounter); (XPROPERTY_USED_TGAS_KEY, KCounter); (XPROPERTY_LAST_TX_HOUR_KEY, KCounter);
   (XPROPERTY_CONTRACT_TGAS_LIMIT_KEY, KCounter); (XPROPERTY_LOCK_TOKEN_KEY, KLocks); (XPROPERTY_PLEDGE_VOTE_KEY, KVotes);
   (XPROPERTY_ALIAS_NAME, KString); (XPROPERTY_EXPIRE_VOTE_TOKEN_KEY, KString); (XPORPERTY_PARENT_ACCOUNT_KEY, KString);
   (XPORPERTY_CONTRACT_PARENT_ACCOUNT_KEY, KString); (XPROPERTY_ACCOUNT_KEYS, KMap); (XPROPERTY_AUTHORIZE_KEY, KMap);
   (XPORPERTY_CONTRACT_NATIVE_TOKEN_KEY, KTokens); (XPORPERTY_SUB_ACCOUNT_KEY, KDeque); (XPORPERTY_CONTRACT_SUB_ACCOUNT_KEY, KDeque)].

(** A lock record parses, and one by time has a time. *)
Definition record_ok (v : string) : bool :=
  match parse_lock_record v with
  | Some (_, la) => negb (la_unlock_type la =? UT_time) || negb (bool_decide (la_unlock_values la = []))
  | None => false
  end.
(** A vote record parses, and one of expired votes has votes. *)
Definition vote_ok (str : string) : bool :=
  match deserilize_vote str with Some (n, d, _) => negb ((d =? 0) && (n =? 0)) | None => false end.
Definition counter_ok (v : string) : bool := bool_decide (is_Some (stoull v)).

Definition kind_ok (k : prop_kind) (d : xdataunit) : bool :=
  match k, d with
  | KCounter, XString v => counter_ok v
  | KLocks, XStrmap m => forallb (fun e => record_ok e.2) m
  | KVotes, XStrdeque q => forallb vote_ok q
  | KString, XString _ | KMap, XStrmap _ | KDeque, XStrdeque _ => true
  | KTokens, XStrmap m => forallb (fun e => counter_ok e.2) m
  | _, _ => false
  end.

Definition kind_of (n : string) : option prop_kind := map_find n prop_kinds.
Definition prop_ok (n : string) (d : xdataunit) : bool :=
  match kind_of n with Some k => kind_ok k d | None => true end.

Definition props_ok (m : gmap string xdataunit) : Prop := forall n d, m !! n = Some d -> prop_ok n d = true.

(** Values of one kind have one type. *)
Lemma kind_same_type k d d' : kind_ok k d = true -> kind_ok k d' = true -> same_type d d' = true.
Proof. by destruct k, d, d'. Qed.

(** ** The invariant *)

Section Inv.
Context `{ExecConfig}.

Record ctx_wf (s : ectx) : Prop := {
  cw_np : np_wf (ctx_np s);
  cw_acct : np_wf (acct_np s);
  cw_share : compatible (x_native s) (x_acct_native s);
  cw_props : props_ok (np_view (ctx_np s));
  cw_acct_props : props_ok (np_view (acct_np s));
  cw_dirty : m_modify_objs (x_native s) ⊆ m_objs (x_native s);
  cw_timer : is_u64 (x_timer_height s);
  cw_price : is_Some (get_token_price (x_sys_total_lock_tgas_token s))
}.

(** A transaction without what execution writes into it. *)
Definition static_tx : xcons_tx -> xcons_tx := with_exec (fun _ => exec_state_init).

(** An account without its pledges for gas and disk, which execution adds to the copy at once. *)
Definition unpledged : xblockchain -> xblockchain := with_state (fun m => set_pledge_tgas_balance 0 (set_pledge_disk_balance 0 m)).

(** What no operation on the context changes; a property that is not marked as
    modified keeps its value. *)
Record keeps (s s' : ectx) : Prop := {
  kp_address : x_address s' = x_address s;
  kp_unpledged : unpledged (x_account s') = unpledged (x_account s);
  kp_timer : x_timer_height s' = x_timer_height s;
  kp_txs : static_tx <$> x_txs s' = static_tx <$> x_txs s;
  kp_contract_txs : x_contract_txs s' = x_contract_txs s;
  kp_dirty : forall n, m_modify_objs (x_native s') !! n = None ->
    m_modify_objs (x_native s) !! n = None /\ np_view (ctx_np s') !! n = np_view (ctx_np s) !! n
}.
#[export] Instance keeps_preorder : PreOrder keeps.
Proof.
  split.
  - intros s. split; [done..|]. done.
  - intros s1 s2 s3 [] []. split; try congruence.
    intros n Hn. destruct (kp_dirty1 n Hn) as [H2 E2]. destruct (kp_dirty0 n H2) as [H1 E1]. split; congruence.
Qed.

Lemma kp_account s s' : keeps s s' -> bc_account (x_account s') = bc_account (x_account s).
Proof. intros Hk. exact (f_equal bc_account (kp_unpledged _ _ Hk)). Qed.
Lemma kp_balance s s' : keeps s s' -> balance (x_account s') = balance (x_account s).
Proof. intros Hk. exact (f_equal balance (kp_unpledged _ _ Hk)). Qed.

Definition Ok {A} : eprog A -> ectx -> (A -> ectx -> Prop) -> Prop := Keeps (u := False) ctx_wf keeps.

Lemma Ok_bind {A B} (m : eprog A) (k : A -> eprog B) s P Q :
  Ok m s P -> (forall a s1, ctx_wf s1 -> keeps s s1 -> P a s1 -> Ok (k a) s1 Q) -> Ok (bind m k) s Q.
Proof. apply Keeps_bind, _. Qed.
Lemma Ok_mono {A} (m : eprog A) s (P Q : A -> ectx -> Prop) :
  Ok m s P -> (forall a s', ctx_wf s' -> keeps s s' -> P a s' -> Q a s') -> Ok m s Q.
Proof. apply Keeps_mono. Qed.
Lemma Ok_ret {A} (a : A) s (Q : A -> ectx -> Prop) : ctx_wf s -> Q a s -> Ok (ret a) s Q.
Proof. apply Keeps_ret, _. Qed.
Lemma Ok_reads {A} (m : eprog A) a s (Q : A -> ectx -> Prop) : ctx_wf s -> reads m a s -> Q a s -> Ok m s Q.
Proof. apply Keeps_reads, _. Qed.
Lemma Ok_read_bind {A B} (m : eprog A) (k : A -> eprog B) a s Q : reads m a s -> Ok (k a) s Q -> Ok (bind m k) s Q.
Proof. apply Keeps_read_bind. Qed.

(** ** Writing a property *)

Lemma view_default (s : np) n : np_view s !! n = m_objs s.2 !! n ≫= (fun l => s.1 !! l).
Proof. apply np_view_lookup. Qed.

Lemma step_keeps_wf s n d c h p :
  ctx_wf s -> np_step (ctx_np s) n d (c, (h, p)) -> prop_ok n d = true ->
  ctx_wf (set_props h p s) /\ keeps s (set_props h p s).
Proof.
  intros Hw Hs Hd. pose proof (np_step_view _ _ _ _ (cw_np _ Hw) Hs) as [Hnw Hv]. cbn in Hnw, Hv.
  destruct Hs as [Hu|[Hc E]]; cbn in *.
  2:{ injection E as -> ->. assert (set_props (x_heap s) (x_native s) s = s) as -> by (destruct s; reflexivity). split; [done|reflexivity]. }
  destruct (np_update_other _ _ _ _ _ (x_acct_native s) (cw_np _ Hw) Hu (cw_share _ Hw) (cw_acct _ Hw)) as (Ha & Hsh & Hav).
  cbn in *. split.
  - split; try apply Hw; try done.
    + intros k x Hx. unfold ctx_np in Hx. cbn in Hx. destruct Hv as [[_ Ev]|[_ Ev]]; rewrite Ev in Hx; [|by apply Hw].
      destruct (decide (k = n)) as [->|Hk]; [|rewrite lookup_insert_ne in Hx by done; by apply Hw].
      rewrite lookup_insert_eq in Hx. by injection Hx as <-.
    + intros k x Hx. unfold acct_np in Hx. cbn in Hx. destruct (Hav k) as [Ek|(-> & _ & Ek)]; rewrite Ek in Hx; [by eapply (cw_acct_props _ Hw)|].
      by injection Hx as <-.
    + pose proof (cw_dirty _ Hw) as Hm. inversion Hu as [l El|En|]; subst; cbn in *; [| |done].
      * by apply insert_subseteq_l.
      * by apply insert_mono.
  - split; try done. intros k Hk. cbn in *. destruct (decide (k = n)) as [->|Hkn].
    + inversion Hu; subst; cbn in *; try (by rewrite lookup_insert_eq in Hk).
      split; [done|]. destruct Hv as [[? _]|[_ Ev]]; [done|]. unfold ctx_np in *. cbn in *. by rewrite Ev.
    + split.
      * inversion Hu; subst; cbn in *; rewrite ?lookup_insert_ne in Hk by done; done.
      * unfold ctx_np in *. cbn in *. destruct Hv as [[_ Ev]|[_ Ev]]; rewrite Ev; [by rewrite lookup_insert_ne|done].
Qed.

(** What an operation on the property [n] may do: [n] takes the value [d], or
    the properties stay. *)
Record wrote (n : string) (d : xdataunit) (c : np_code) (s s' : ectx) : Prop := {
  wr_frame : exists h p, s' = set_props h p s;
  wr_ok : c = np_success -> np_view (ctx_np s') = <[n := d]> (np_view (ctx_np s));
  wr_fail : c <> np_success -> np_view (ctx_np s') = np_view (ctx_np s)
}.

Lemma run_np_ok f n d s Q :
  ctx_wf s -> np_step (ctx_np s) n d (f (ctx_np s)) -> prop_ok n d = true ->
  (forall c s', ctx_wf s' -> keeps s s' -> wrote n d c s s' -> Q c s') -> Ok (run_np f) s Q.
Proof.
  intros Hw Hs Hd HQ. unfold Ok, Keeps, wpu, run_np. destruct (f (ctx_np s)) as [c [h p]] eqn:E.
  destruct (step_keeps_wf _ _ _ _ _ _ Hw Hs Hd) as [Hw' Hk]. split_and!; [done..|].
  apply HQ; [done..|]. pose proof (np_step_view _ _ _ _ (cw_np _ Hw) Hs) as [_ Hv]. cbn in Hv.
  split; [eauto|intros ->|intros Hc]; destruct Hv as [[? ?]|[? ?]]; done.
Qed.

(** Writing a value of the kind the name has succeeds. *)
Lemma run_np_set f n k d s Q :
  ctx_wf s -> np_update (ctx_np s) n d (f (ctx_np s)).1 (f (ctx_np s)).2 -> kind_of n = Some k -> kind_ok k d = true ->
  (forall s', ctx_wf s' -> keeps s s' -> wrote n d np_success s s' -> Q np_success s') -> Ok (run_np f) s Q.
Proof.
  intros Hw Hu Hk Hd HQ. assert ((f (ctx_np s)).1 = np_success) as Hc.
  { eapply np_update_succeeds; [exact Hu|]. intros d0 H0. apply (cw_props _ Hw) in H0. unfold prop_ok in H0. rewrite Hk in H0.
    by eapply kind_same_type. }
  assert (prop_ok n d = true) as Hp by (unfold prop_ok; by rewrite Hk).
  pose proof (run_np_ok f n d s (fun c s' => c = (f (ctx_np s)).1 -> Q c s') Hw (or_introl Hu) Hp) as Hr.
  unfold Ok, Keeps, wpu, run_np in *. destruct (f (ctx_np s)) as [c [h p]]. cbn in *. subst c.
  destruct Hr as (? & ? & HQ'); [|split_and!; try done; by apply HQ'].
  intros c s' ??? ->. by apply HQ.
Qed.

(** ** Counters *)

Definition counter_in (m : gmap string xdataunit) (name : string) : Z :=
  match m !! name with Some (XString v) => default 0 (stoull v) | _ => 0 end.
Definition counter (name : string) (s : ectx) : Z := counter_in (np_view (ctx_np s)) name.
Definition lsum : ectx -> Z := counter XPROPERTY_LOCK_TOKEN_SUM_KEY.

Lemma counter_in_range m name : is_u64 (counter_in m name).
Proof.
  unfold counter_in. destruct (m !! name) as [[v|v|v]|]; try (split; lia).
  destruct (stoull v) as [x|] eqn:E; [by eapply stoull_range|cbn; split; lia].
Qed.
Lemma lsum_range s : is_u64 (lsum s).
Proof. apply counter_in_range. Qed.

Lemma get_counter_ok (n : np) name :
  props_ok (np_view n) -> kind_of name = Some KCounter -> get_counter n name = Some (counter_in (np_view n) name).
Proof.
  intros Hp Hk. unfold get_counter, counter_in. rewrite native_string_get_view.
  destruct (np_view n !! name) as [d|] eqn:E; [|done]. apply Hp in E. unfold prop_ok in E. rewrite Hk in E.
  destruct d as [v|v|v]; [|done..]. cbn in E. unfold counter_ok in E. case_bool_decide as Hs; [|done].
  destruct Hs as [x ->]. done.
Qed.
Lemma read_counter_reads s name :
  ctx_wf s -> kind_of name = Some KCounter -> reads (read_counter name) (counter name s) s.
Proof. intros Hw Hk. unfold reads, read_counter. by rewrite (get_counter_ok _ _ (cw_props _ Hw) Hk). Qed.
Lemma lsum_reads s : ctx_wf s -> reads get_lock_token_sum (lsum s) s.
Proof. intros Hw. by apply read_counter_reads. Qed.

(** ** Money

    What belongs to the account beside the committed amounts: the changes so far
    and the locked tokens. *)

Definition worth (s : ectx) : Z :=
  let c := x_change s in c_balance c + c_lock_balance c + c_tgas c + c_disk c + c_vote c + lsum s.

(** The balance changes by [b] and all that belongs to the account by [w]. *)
Record money (s s' : ectx) (b w : Z) : Prop := {
  mn_balance : c_balance (x_change s') ≡₆₄ c_balance (x_change s) + b;
  mn_worth : worth s' ≡₆₄ worth s + w
}.
(** The same, and no transaction is written to. *)
Record delta (s s' : ectx) (b w : Z) : Prop := {
  dl_txs : x_txs s' = x_txs s;
  dl_money :> money s s' b w
}.

Lemma money_refl s b w : b ≡₆₄ 0 -> w ≡₆₄ 0 -> money s s b w.
Proof. intros Hb Hw. split; [rewrite Hb|rewrite Hw]; apply cong_eq; lia. Qed.
Lemma money_trans s1 s2 s3 b b' w w' b'' w'' :
  money s1 s2 b w -> money s2 s3 b' w' -> b'' ≡₆₄ b + b' -> w'' ≡₆₄ w + w' -> money s1 s3 b'' w''.
Proof.
  intros [B1 W1] [B2 W2] Hb Hw. split; [rewrite B2, B1, Hb|rewrite W2, W1, Hw]; apply cong_eq; lia.
Qed.
Lemma delta_refl s : delta s s 0 0.
Proof. split; [done|]. by apply money_refl. Qed.
Lemma delta_trans s1 s2 s3 b b' w w' b'' w'' :
  delta s1 s2 b w -> delta s2 s3 b' w' -> b'' ≡₆₄ b + b' -> w'' ≡₆₄ w + w' -> delta s1 s3 b'' w''.
Proof. intros [T1 M1] [T2 M2] Hb Hw. split; [congruence|by eapply money_trans]. Qed.
Lemma delta_cong s s' b w b' w' : delta s s' b w -> b' ≡₆₄ b -> w' ≡₆₄ w -> delta s s' b' w'.
Proof. intros Hd Hb Hw. eapply delta_trans; [exact Hd|apply delta_refl| |]; rewrite Z.add_0_r; done. Qed.

(** The same, and neither the sum of locked tokens nor the locks change. *)
Definition locks (s : ectx) : option xdataunit := np_view (ctx_np s) !! XPROPERTY_LOCK_TOKEN_KEY.
Record quiet (s s' : ectx) (b w : Z) : Prop := {
  qt_delta :> delta s s' b w;
  qt_lsum : lsum s' = lsum s;
  qt_locks : locks s' = locks s
}.
Lemma quiet_refl s : quiet s s 0 0.
Proof. split; [apply delta_refl|done..]. Qed.
Lemma quiet_trans s1 s2 s3 b b' w w' b'' w'' :
  quiet s1 s2 b w -> quiet s2 s3 b' w' -> b'' ≡₆₄ b + b' -> w'' ≡₆₄ w + w' -> quiet s1 s3 b'' w''.
Proof. intros [D1 L1 K1] [D2 L2 K2] Hb Hw. split; [by eapply delta_trans|congruence..]. Qed.
Lemma quiet_then s1 s2 s3 b w : quiet s1 s2 b w -> quiet s2 s3 0 0 -> quiet s1 s3 b w.
Proof. intros Q1 Q2. eapply quiet_trans; [exact Q1|exact Q2|apply cong_eq; lia..]. Qed.
Lemma quiet_cong s s' b w b' w' : quiet s s' b w -> b' ≡₆₄ b -> w' ≡₆₄ w -> quiet s s' b' w'.
Proof. intros [Hd Hl Hk] Hb Hw. split; [by eapply delta_cong|done..]. Qed.

Lemma wrote_other n d c s s' k :
  wrote n d c s s' -> k <> n -> np_view (ctx_np s') !! k = np_view (ctx_np s) !! k.
Proof.
  intros [_ H1 H2] Hn. destruct (decide (c = np_success)) as [->|Hc]; [rewrite H1 by done; by rewrite lookup_insert_ne|by rewrite H2].
Qed.
Lemma wrote_delta n d c s s' :
  wrote n d c s s' -> n <> XPROPERTY_LOCK_TOKEN_SUM_KEY -> delta s s' 0 0 /\ lsum s' = lsum s.
Proof.
  intros Hd Hn. assert (lsum s' = lsum s) as E.
  { unfold lsum, counter, counter_in. by rewrite (wrote_other _ _ _ _ _ XPROPERTY_LOCK_TOKEN_SUM_KEY Hd). }
  split; [|done]. destruct Hd as [(h & p & ->) _ _]. split; [done|]. split; [apply cong_eq; cbn; lia|].
  apply cong_eq. unfold worth. rewrite E. cbn [x_change set_props]. lia.
Qed.
Lemma wrote_quiet n d c s s' :
  wrote n d c s s' -> n <> XPROPERTY_LOCK_TOKEN_SUM_KEY -> n <> XPROPERTY_LOCK_TOKEN_KEY -> quiet s s' 0 0.
Proof.
  intros Hd Hn Hl. destruct (wrote_delta _ _ _ _ _ Hd Hn) as [Hq E]. split; [done..|]. unfold locks. by eapply wrote_other.
Qed.
Lemma wrote_sum v s s' :
  is_u64 v -> wrote XPROPERTY_LOCK_TOKEN_SUM_KEY (XString (to_string v)) np_success s s' ->
  lsum s' = v /\ delta s s' 0 (v - lsum s).
Proof.
  intros Hv [(h & p & ->) H1 _]. assert (lsum (set_props h p s) = v) as E.
  { unfold lsum, counter, counter_in. rewrite H1, lookup_insert_eq by done. by rewrite stoull_to_string. }
  split; [done|]. split; [done|]. split; [apply cong_eq; cbn; lia|]. apply cong_eq. unfold worth. rewrite E. cbn [x_change set_props]. lia.
Qed.

(** ** Changes of the sums *)

Lemma on_change_ok f s : ctx_wf s -> ctx_wf (on_change f s) /\ keeps s (on_change f s).
Proof. intros []. split; split; done. Qed.

Lemma change_ok f b w s (Q : unit -> ectx -> Prop) :
  ctx_wf s -> c_balance (f (x_change s)) ≡₆₄ c_balance (x_change s) + b ->
  (let c := f (x_change s) in let c0 := x_change s in
   c_balance c + c_lock_balance c + c_tgas c + c_disk c + c_vote c ≡₆₄
   c_balance c0 + c_lock_balance c0 + c_tgas c0 + c_disk c0 + c_vote c0 + w) ->
  (forall s', ctx_wf s' -> keeps s s' -> quiet s s' b w -> Q tt s') -> Ok (modify (on_change f)) s Q.
Proof.
  intros Hw Hb Hwo HQ. destruct (on_change_ok f s Hw) as [Hw' Hk]. unfold Ok, Keeps, wpu, modify. split_and!; [done..|].
  apply HQ; [done..|]. split; [|done..]. split; [done|]. split; [done|]. unfold worth. cbv zeta in Hwo. cbn [x_change on_change].
  change (lsum (on_change f s)) with (lsum s). rewrite Hwo. apply cong_eq. lia.
Qed.
End Inv.
#[global] Arguments Ok : simpl never.
