(* ===== verification/ExecOps.v ===== *)
(** * What the operations of an account context do to its money

    For every operation of [AccountCtx]: from a well-formed context it returns,
    without exception, in a well-formed context, and the balance and all that
    belongs to the account change by exactly what the operation says. *)

From stdpp Require Import prelude strings gmap.
From Stdlib Require Import ZArith Lia.
From S2P Require Import Prelude Stream StdMap AccountAddr TxData StdNum NativeProp Action ConsTx ChainState AccountCtx ExecInv.
Open Scope Z_scope.
Open Scope money_scope.

(** Run one operation of known effect. *)
Ltac ok_bind lem := eapply Ok_bind; [apply lem; try done | cbv beta iota].
(** Read a value of the state. *)
Ltac ok_read := eapply Ok_read_bind; [done | cbv beta iota].
Ltac ok_ret := apply Ok_ret; [done |].

Section Ops.
Context `{ExecConfig} `{ExecBase}.

(** ** Sums *)

Ltac change_tac := intros Hw; eapply change_ok; [exact Hw | | | by intros s' _ _ Hd];
  cbv zeta; cbn [c_balance c_tgas c_disk c_vote c_lock_balance c_lock_tgas c_unvote]; rewrite ?cong_i64; apply cong_eq; lia.

Lemma set_balance_change_ok d s : ctx_wf s -> Ok (set_balance_change d) s (fun _ s' => quiet s s' d d).
Proof. change_tac. Qed.
Lemma set_lock_balance_change_ok d s : ctx_wf s -> Ok (set_lock_balance_change d) s (fun _ s' => quiet s s' 0 d).
Proof. change_tac. Qed.
Lemma set_tgas_balance_change_ok d s : ctx_wf s -> Ok (set_tgas_balance_change d) s (fun _ s' => quiet s s' 0 d).
Proof. change_tac. Qed.
Lemma set_disk_balance_change_ok d s : ctx_wf s -> Ok (set_disk_balance_change d) s (fun _ s' => quiet s s' 0 d).
Proof. change_tac. Qed.
Lemma set_vote_balance_change_ok d s : ctx_wf s -> Ok (set_vote_balance_change d) s (fun _ s' => quiet s s' 0 d).
Proof. change_tac. Qed.
Lemma set_lock_tgas_change_ok d s : ctx_wf s -> Ok (set_lock_tgas_change d) s (fun _ s' => quiet s s' 0 0).
Proof. change_tac. Qed.
Lemma set_unvote_num_change_ok d s : ctx_wf s -> Ok (set_unvote_num_change d) s (fun _ s' => quiet s s' 0 0).
Proof. change_tac. Qed.

(** ** Properties *)

(** Writing a string of the right kind; the sum of locked tokens apart, money stays. *)
Lemma string_set_ok n k v s :
  ctx_wf s -> kind_of n = Some k -> kind_ok k (XString v) = true ->
  Ok (string_set n v) s (fun c s' => c = np_success /\ wrote n (XString v) c s s').
Proof.
  intros Hw Hk Hv. unfold string_set. eapply (run_np_set _ n k (XString v)); try done.
  destruct (native_string_set_step (ctx_np s) n v (cw_np _ Hw)) as [Hu|[Hc Hs]]; [done|].
  unfold native_string_set. apply update_object_update; [apply Hw|]. apply string_get_found.
Qed.

Lemma set_lock_token_sum_ok v s :
  ctx_wf s -> is_u64 v -> Ok (set_lock_token_sum v) s (fun _ s' => lsum s' = v /\ delta s s' 0 (v - lsum s)).
Proof.
  intros Hw Hv. unfold set_lock_token_sum. eapply Ok_bind.
  - apply (string_set_ok _ KCounter); [done|done|]. cbn. unfold counter_ok. rewrite stoull_to_string by done. by apply bool_decide_eq_true_2.
  - intros c s1 Hw1 Hk1 [-> Hd]. ok_ret. by apply wrote_sum.
Qed.

(** A counter other than the sum of locked tokens. *)
Lemma set_counter_ok n v s :
  ctx_wf s -> kind_of n = Some KCounter -> n <> XPROPERTY_LOCK_TOKEN_SUM_KEY -> is_u64 v ->
  Ok (string_set n (to_string v)) s (fun _ s' => quiet s s' 0 0).
Proof.
  intros Hw Hk Hn Hv. eapply Ok_mono.
  - apply (string_set_ok _ KCounter); [done|done|]. cbn. unfold counter_ok. rewrite stoull_to_string by done. by apply bool_decide_eq_true_2.
  - intros c s1 _ _ [-> Hd]. eapply wrote_quiet; [exact Hd|done|]. by intros ->.
Qed.
Lemma set_plain_string_ok n v s :
  ctx_wf s -> kind_of n = Some KString -> Ok (string_set n v) s (fun c s' => c = np_success /\ quiet s s' 0 0).
Proof.
  intros Hw Hk. eapply Ok_mono; [by apply (string_set_ok _ KString)|]. intros c s1 _ _ [-> Hd]. split; [done|].
  by eapply wrote_quiet; [exact Hd|intros ->..].
Qed.

(** What a name of a kind holds is of the kind. *)
Lemma votes_of_kind s n :
  ctx_wf s -> kind_of n = Some KVotes -> forallb vote_ok (deque_value (deque_get (ctx_np s) n)) = true.
Proof.
  intros Hw Hk. pose proof (native_deque_get_view (ctx_np s) n) as Hg. unfold native_deque_get in Hg. unfold deque_value.
  destruct (deque_get (ctx_np s) n) as [[l q]|]; [|done]. cbn in Hg.
  destruct (np_view (ctx_np s) !! n) as [[x|x|x]|] eqn:Ev; try done. injection Hg as ->.
  apply (cw_props _ Hw) in Ev. unfold prop_ok in Ev. by rewrite Hk in Ev.
Qed.
Lemma map_of_kind s n k :
  ctx_wf s -> kind_of n = Some k -> kind_ok k (XStrmap []) = true ->
  kind_ok k (XStrmap (map_value (strmap_get (ctx_np s) n))) = true.
Proof.
  intros Hw Hk H0k. pose proof (strmap_get_view (ctx_np s) n) as Hg. unfold map_value.
  destruct (strmap_get (ctx_np s) n) as [[l q]|]; [|done]. cbn in Hg.
  destruct (np_view (ctx_np s) !! n) as [[x|x|x]|] eqn:Ev; try done. injection Hg as ->.
  apply (cw_props _ Hw) in Ev. unfold prop_ok in Ev. by rewrite Hk in Ev.
Qed.

(** Appending to a deque and taking out of it. *)
Lemma push_back_ok n k v s :
  ctx_wf s -> kind_of n = Some k -> k = KDeque \/ (k = KVotes /\ vote_ok v = true) ->
  Ok (run_np (fun q => native_deque_push_back q n v)) s (fun c s' => c = np_success /\ quiet s s' 0 0).
Proof.
  intros Hw Hk Hv. eapply (run_np_set _ n k).
  - done.
  - unfold native_deque_push_back. apply update_object_update; [apply Hw|]. apply deque_get_found.
  - done.
  - destruct Hv as [->|[-> Hv]]; [done|]. cbn. rewrite forallb_app, votes_of_kind by done. cbn. by rewrite Hv.
  - intros s' _ _ Hd. split; [done|]. eapply wrote_quiet; [exact Hd|intros ->; cbn in Hk; injection Hk as <-; by destruct Hv as [?|[? _]]..].
Qed.
Lemma deque_erase_ok n k v s :
  ctx_wf s -> kind_of n = Some k -> k = KDeque \/ k = KVotes ->
  Ok (run_np (fun q => native_deque_erase q n v)) s (fun _ s' => quiet s s' 0 0).
Proof.
  intros Hw Hk Hv. destruct (native_deque_erase_step (ctx_np s) n v (cw_np _ Hw)) as (q' & Hq & Hs).
  eapply (run_np_ok _ n (XStrdeque q')); [done|done| |].
  - unfold prop_ok. rewrite Hk. destruct Hv as [->| ->]; [done|]. cbn. apply forallb_forall. intros x Hx%list_elem_of_In%Hq%list_elem_of_In.
    pose proof (votes_of_kind s n Hw Hk) as Ha. rewrite forallb_forall in Ha. by apply Ha.
  - intros c s' _ _ Hd. eapply wrote_quiet; [exact Hd|intros ->; cbn in Hk; injection Hk as <-; by destruct Hv..].
Qed.

(** Setting and erasing fields of a map. *)
Lemma kind_map_set k f v m :
  kind_ok k (XStrmap m) = true -> kind_ok k (XStrmap [(f, v)]) = true -> kind_ok k (XStrmap (map_set f v m)) = true.
Proof.
  destruct k; try done; cbn; rewrite !andb_true_r; intros Hm Hv; rewrite forallb_forall in *;
    intros e He%list_elem_of_In; destruct (map_set_in _ _ _ _ He) as [->|Hi]; try done; apply Hm; by apply list_elem_of_In.
Qed.
Lemma kind_map_erase k f m : kind_ok k (XStrmap m) = true -> kind_ok k (XStrmap (map_erase f m)) = true.
Proof.
  destruct k; try done; cbn; rewrite !forallb_forall; intros Hm e He; apply Hm; by apply filter_In in He as [? _].
Qed.

Lemma map_set_ok n k f v s :
  ctx_wf s -> kind_of n = Some k -> kind_ok k (XStrmap []) = true -> kind_ok k (XStrmap [(f, v)]) = true ->
  Ok (run_np (fun q => native_map_set q n f v)) s (fun c s' => c = np_success /\ delta s s' 0 0 /\ lsum s' = lsum s).
Proof.
  intros Hw Hk H0k Hv. eapply (run_np_set _ n k).
  - done.
  - unfold native_map_set. apply update_object_update; [apply Hw|]. apply strmap_get_found.
  - done.
  - apply kind_map_set; [by apply map_of_kind|done].
  - intros s' _ _ Hd. split; [done|]. eapply wrote_delta; [exact Hd|]. intros ->. cbn in Hk. by injection Hk as <-.
Qed.
Lemma map_erase_ok n k f s :
  ctx_wf s -> kind_of n = Some k -> kind_ok k (XStrmap []) = true ->
  Ok (run_np (fun q => native_map_erase q n f)) s (fun _ s' => delta s s' 0 0 /\ lsum s' = lsum s).
Proof.
  intros Hw Hk H0k. eapply run_np_ok; [done|by apply native_map_erase_step, cw_np| |].
  - unfold prop_ok. rewrite Hk. by apply kind_map_erase, map_of_kind.
  - intros c s' _ _ Hd. eapply wrote_delta; [exact Hd|]. intros ->. cbn in Hk. by injection Hk as <-.
Qed.

(** ** Transfers *)

(** What the code takes for the money at hand. *)
Definition funds (s : ectx) : Z := i64 (balance (x_account s) + c_balance (x_change s)).

Lemma funds_money s s' b w : money s s' b w -> keeps s s' -> funds s' = i64 (funds s + b).
Proof.
  intros [Hb _] Hk. unfold funds. rewrite (kp_balance _ _ Hk). apply i64_cong. rewrite Hb, cong_i64. apply cong_eq. lia.
Qed.

Definition working (s : ectx) : bool := is_sys_contract_address (x_address s) || negb (lsum s <? min_account_deposit).
Lemma can_work_reads s : ctx_wf s -> reads can_work (working s) s.
Proof.
  intros Hw. unfold reads, can_work, working, bind, gets. destruct (is_sys_contract_address (x_address s)); [done|].
  by rewrite (lsum_reads s Hw).
Qed.

Lemma add2_small i j : 0 <= i -> 0 <= j -> i + j < 2 ^ 64 -> add2 i j = Some (i + j).
Proof.
  intros Hi Hj Hs. unfold add2. rewrite u64_small by (split; lia). destruct (Z.ltb_spec (i + j) j); [lia|done].
Qed.
Lemma add3_small a g f : 0 <= g -> 0 <= f -> u64 a + g + f < 2 ^ 64 -> exists t, add3 a g f = Some t /\ t ≡₆₄ a + g + f.
Proof.
  intros Hg Hf Hs. pose proof (u64_range a) as Ha. unfold is_u64 in Ha. exists (u64 a + g + f). split.
  - unfold add3. assert (add2 a g = Some (u64 a + g)) as ->.
    { unfold add2. assert (u64 (a + g) = u64 a + g) as ->; [|destruct (Z.ltb_spec (u64 a + g) g); [lia|done]].
      transitivity (u64 (u64 a + g)); [|rewrite u64_small; [done|split; lia]].
      change (a + g ≡₆₄ u64 a + g). rewrite cong_u64. done. }
    apply add2_small; lia.
  - rewrite cong_u64. apply cong_eq. lia.
Qed.

(** Paying: the balance falls by the whole, or nothing happens and the account
    does not work or has too little. *)
Lemma top_token_transfer_out_ok a g f s :
  ctx_wf s -> bc_account (x_account s) <> sys_contract_zec_reward_addr -> 0 <= g -> 0 <= f -> u64 a + g + f < 2 ^ 64 ->
  Ok (top_token_transfer_out a g f) s (fun r s' =>
    (r = xret_success /\ quiet s s' (- (a + g + f)) (- (a + g + f)) /\ i64 (a + g + f) <= funds s) \/
    (r <> xret_success /\ s' = s /\ (a <> 0 \/ funds s < i64 (a + g + f)))).
Proof.
  intros Hw Hz Hg Hf Ht. unfold top_token_transfer_out. ok_read. rewrite bool_decide_eq_false_2 by done.
  eapply Ok_read_bind; [by apply lsum_reads|]. cbv beta.
  eapply (Ok_read_bind _ _ ((a =? 0) || working s)).
  { destruct (a =? 0); [done|]. by apply can_work_reads. }
  destruct ((a =? 0) || working s) eqn:Ew; cbn [negb].
  2:{ ok_ret. right. split_and!; try done. left. apply orb_false_iff in Ew as [Ea _]. lia. }
  destruct (add3_small a g f Hg Hf Ht) as (t & -> & Et). ok_read. ok_read.
  assert (i64 (u64 (balance (x_account s) + c_balance (x_change s))) = funds s) as -> by (apply i64_cong, cong_u64).
  rewrite (i64_cong _ _ Et). destruct (Z.ltb_spec (funds s) (i64 (a + g + f))).
  - ok_ret. right. split_and!; [done|done|lia].
  - ok_bind set_balance_change_ok. intros [] s1 Hw1 Hk1 Hd. ok_ret. left. split_and!; [done| |done].
    eapply quiet_cong; [exact Hd|..]; rewrite Et; done.
Qed.

(** The account can pay small amounts it has. *)
Lemma top_token_transfer_out_pays g f s :
  ctx_wf s -> bc_account (x_account s) <> sys_contract_zec_reward_addr -> 0 <= g -> 0 <= f -> g + f < 2 ^ 63 -> g + f <= funds s ->
  Ok (top_token_transfer_out 0 g f) s (fun r s' => r = xret_success /\ quiet s s' (- (g + f)) (- (g + f))).
Proof.
  intros Hw Hz Hg Hf Hs Hle. eapply Ok_mono; [apply top_token_transfer_out_ok; try done; change (u64 0) with 0; lia|].
  rewrite Z.add_0_l, i64_small by lia. intros r s' _ _ [(-> & Hd & _)|(_ & _ & [?|?])]; [|lia..]. done.
Qed.

Lemma top_token_transfer_in_ok a s :
  ctx_wf s -> is_u64 a -> Ok (top_token_transfer_in a) s (fun r s' => r = xret_success /\ exists b, delta s s' b a).
Proof.
  intros Hw [Ha Ha']. unfold top_token_transfer_in. destruct (Z.eqb_spec a 0) as [->|Hn].
  { ok_ret. split; [done|]. exists 0. apply delta_refl. }
  ok_read. destruct (is_sys_contract_address (x_address s)).
  { ok_bind set_balance_change_ok. intros [] s1 Hw1 Hk1 Hd. ok_ret. split; [done|]. exists a. apply Hd. }
  eapply Ok_read_bind; [by apply lsum_reads|]. cbv beta. destruct (Z.ltb_spec a 1); [lia|]. rewrite andb_false_r.
  set (la := lock_part (lsum s) a).
  eapply (Ok_bind _ _ _ (fun _ s1 => delta s s1 0 la)).
  - destruct ((lsum s =? 0) || (lsum s <? min_account_deposit)) eqn:E.
    + eapply Ok_mono; [apply set_lock_token_sum_ok; [done|apply u64_range]|]. intros _ s1 _ _ [_ Hd].
      eapply delta_cong; [exact Hd|done|]. rewrite cong_u64. apply cong_eq. lia.
    + ok_ret. apply orb_false_iff in E as [E1 E2]. unfold la, lock_part. rewrite E1, E2. apply delta_refl.
  - intros [] s1 Hw1 Hk1 Hd1. ok_bind set_balance_change_ok. intros [] s2 Hw2 Hk2 Hd2. ok_ret. split; [done|].
    eexists. eapply delta_trans; [exact Hd1|apply Hd2|reflexivity|]. rewrite cong_u64. apply cong_eq. lia.
Qed.

(** ** Locked tokens *)

Lemma lock_token_ok h a params s :
  ctx_wf s -> record_ok (lock_record (x_timer_height s) params) = true ->
  Ok (lock_token h a params) s (fun r s' =>
    (r = xret_success /\ delta s s' (- a) 0) \/ (r <> xret_success /\ s' = s)).
Proof.
  intros Hw Hr. unfold lock_token. eapply Ok_read_bind; [by apply lsum_reads|]. cbv beta.
  eapply Ok_read_bind; [by apply can_work_reads|]. cbv beta.
  destruct (working s); cbn [negb]; [|ok_ret; by right]. ok_read.
  destruct (_ <? a); [ok_ret; by right|]. destruct (native_map_get _ _ h); [ok_ret; by right|].
  ok_bind set_balance_change_ok. intros [] s1 Hw1 Hk1 Hd1.
  eapply Ok_bind; [apply (map_set_ok _ KLocks); try done; cbn; by rewrite Hr|]. intros c s2 Hw2 Hk2 (-> & Hd2 & El2).
  ok_bind set_lock_token_sum_ok. { apply u64_range. } intros [] s3 Hw3 Hk3 [_ Hd3]. ok_ret. left. split; [done|].
  assert (delta s s2 (- a) (- a)) as H2 by (eapply delta_trans; [apply Hd1|exact Hd2|apply cong_eq; lia..]).
  eapply delta_trans; [apply H2|exact Hd3|apply cong_eq; lia|].
  rewrite El2, (qt_lsum _ _ _ _ Hd1), cong_u64. apply cong_eq. lia.
Qed.

(** A lock whose time has come; locks of other kinds are not released by time. *)
Definition lock_due (now : Z) (v : string) : option Z :=
  match parse_lock_record v with
  | Some (clock, la) =>
      if (la_unlock_type la =? UT_time) && bool_decide (lock_time_reached now clock la = Some true) then Some (la_amount la) else None
  | None => None
  end.

Lemma release_lock_ok ls h la s :
  ctx_wf s ->
  Ok (release_lock ls h la) s (fun r s' =>
    (r = xret_success /\ delta s s' (la_amount la) (ls - lsum s) /\ lsum s' = u64 (ls - la_amount la)) \/ r <> xret_success).
Proof.
  intros Hw. unfold release_lock. eapply Ok_bind; [by apply (map_erase_ok _ KLocks)|]. intros c s1 Hw1 Hk1 [Hd1 El1].
  case_bool_decide; cbn [negb]; [|ok_ret; by right].
  ok_bind set_lock_token_sum_ok. { apply u64_range. } intros [] s2 Hw2 Hk2 [El2 Hd2].
  ok_bind set_balance_change_ok. intros [] s3 Hw3 Hk3 Hd3. ok_ret. left. split_and!; [done| |by rewrite (qt_lsum _ _ _ _ Hd3)].
  assert (delta s s2 0 (ls - la_amount la - lsum s)) as D2.
  { eapply delta_trans; [apply Hd1|exact Hd2|done|]. rewrite El1, cong_u64. apply cong_eq. lia. }
  eapply delta_trans; [exact D2|apply Hd3|apply cong_eq; lia..].
Qed.

(** The record of a lock parses, and one by time has its time. *)
Lemma record_ok_parse v now :
  record_ok v = true -> exists clock la, parse_lock_record v = Some (clock, la) /\
    (la_unlock_type la = UT_time -> exists b, lock_time_reached now clock la = Some b).
Proof.
  unfold record_ok. destruct (parse_lock_record v) as [[clock la]|]; [|done]. intros Hr. exists clock, la. split; [done|].
  intros Ht. rewrite Ht, Z.eqb_refl in Hr. cbn in Hr. unfold lock_time_reached. destruct (la_unlock_values la); [done|]. eauto.
Qed.

Lemma unlock_token_ok h s :
  ctx_wf s -> Ok (unlock_token h) s (fun r s' => r = xret_success -> exists b, delta s s' b 0).
Proof.
  intros Hw. unfold unlock_token. eapply Ok_read_bind; [by apply lsum_reads|]. cbv beta.
  eapply Ok_read_bind; [by apply can_work_reads|]. cbv beta.
  destruct (working s); cbn [negb]; [|by ok_ret]. ok_read.
  destruct (native_map_get (ctx_np s) XPROPERTY_LOCK_TOKEN_KEY h) as [v|] eqn:Ev; [|by ok_ret].
  assert (record_ok v = true) as Hv.
  { unfold native_map_get in Ev. pose proof (map_of_kind s XPROPERTY_LOCK_TOKEN_KEY KLocks Hw eq_refl eq_refl) as Hm.
    destruct (strmap_get (ctx_np s) XPROPERTY_LOCK_TOKEN_KEY) as [[l m]|]; [|done]. cbn in Hm. rewrite forallb_forall in Hm.
    apply (Hm (h, v)). apply list_elem_of_In. by apply map_find_Some_in. }
  destruct (record_ok_parse v (x_timer_height s) Hv) as (clock & la & -> & Hdue). ok_read.
  destruct (Z.eqb_spec (la_unlock_type la) UT_time) as [Et|Et].
  - destruct (Hdue Et) as [b ->]. ok_read. destruct b; [|by ok_ret].
    eapply Ok_mono; [by apply release_lock_ok|]. intros r s' _ _ [(_ & D & _)|?]; [|done]. intros _. eexists. eapply delta_cong; [exact D|done|apply cong_eq; lia].
  - ok_read. eapply Ok_mono; [by apply release_lock_ok|]. intros r s' _ _ [(_ & D & _)|?]; [|done]. intros _. eexists. eapply delta_cong; [exact D|done|apply cong_eq; lia].
Qed.

(** The amounts of the records that are due. *)
Definition due_of (now : Z) (recs : list (string * string)) : list Z := omap (fun e => lock_due now e.2) recs.
Definition due_locks (s : ectx) : list Z :=
  due_of (x_timer_height s) (map_value (strmap_get (ctx_np s) XPROPERTY_LOCK_TOKEN_KEY)).
Definition total (l : list Z) : Z := foldr Z.add 0 l.

(** Releasing all due locks moves their amounts to the balance.  The sum of
    locked tokens is written from the value read before the loop: only the last
    release counts, and the amounts of the others stay in the sum. *)
Lemma unlock_loop_ok ls recs s :
  ctx_wf s -> forallb (fun e => record_ok e.2) recs = true ->
  Ok (unlock_loop ls recs) s (fun r s' => r = xret_success ->
    let due := due_of (x_timer_height s) recs in
    delta s s' (total due) (match due with [] => 0 | _ => total due + (ls - List.last due 0) - lsum s end)).
Proof.
  revert s. induction recs as [|[h v] recs IH]; intros s Hw Hr; cbn [unlock_loop].
  { ok_ret. intros _. apply delta_refl. }
  cbn in Hr. apply andb_true_iff in Hr as [Hv Hr]. ok_read.
  assert (due_of (x_timer_height s) ((h, v) :: recs) =
    match lock_due (x_timer_height s) v with Some a => a :: due_of (x_timer_height s) recs | None => due_of (x_timer_height s) recs end) as -> by done.
  destruct (record_ok_parse v (x_timer_height s) Hv) as (clock & la & Hp & Hdue). unfold lock_due. rewrite Hp. ok_read.
  destruct (Z.eqb_spec (la_unlock_type la) UT_time) as [Et|Et]; cbn [andb]; [|by apply IH].
  destruct (Hdue Et) as [b Eb]. rewrite Eb. ok_read.
  destruct b; [|rewrite bool_decide_eq_false_2 by done; by apply IH]. rewrite bool_decide_eq_true_2 by done.
  eapply Ok_bind; [by apply release_lock_ok|]. intros r s1 Hw1 Hk1 [(-> & Hd1 & El1)|Hr1].
  - cbn [ok bool_decide]. eapply Ok_mono; [by apply IH|]. rewrite (kp_timer _ _ Hk1). cbv zeta. intros r s2 _ _ Hd2 Hs. specialize (Hd2 Hs).
    destruct (due_of (x_timer_height s) recs) as [|a l]; (eapply delta_trans; [exact Hd1|exact Hd2|apply cong_eq; cbn; lia|]).
    + cbn. apply cong_eq. lia.
    + rewrite El1. rewrite cong_u64. change (List.last (la_amount la :: a :: l) 0) with (List.last (a :: l) 0). apply cong_eq. cbn. lia.
  - unfold ok. rewrite bool_decide_eq_false_2 by done. by ok_ret.
Qed.

(** What the sum of locked tokens is short of: all due locks but the last. *)
Definition unlock_gain (s : ectx) : Z := match due_locks s with [] => 0 | l => total l - List.last l 0 end.

Lemma unlock_all_token_ok s :
  ctx_wf s -> Ok unlock_all_token s (fun r s' => r = xret_success -> delta s s' (total (due_locks s)) (unlock_gain s)).
Proof.
  intros Hw. unfold unlock_all_token. eapply Ok_read_bind; [by apply lsum_reads|]. cbv beta.
  eapply Ok_read_bind; [by apply can_work_reads|]. cbv beta.
  destruct (working s); cbn [negb]; [|by ok_ret]. ok_read.
  pose proof (map_of_kind s XPROPERTY_LOCK_TOKEN_KEY KLocks Hw eq_refl eq_refl) as Hm. unfold unlock_gain, due_locks in *.
  destruct (strmap_get (ctx_np s) XPROPERTY_LOCK_TOKEN_KEY) as [[l recs]|]; cbn [map_value] in *.
  - eapply Ok_mono; [by apply unlock_loop_ok|]. cbv zeta. intros r s' _ _ Hd Hs. eapply delta_cong; [by apply Hd|done|].
    destruct (due_of (x_timer_height s) recs) as [|a l']; [done|]. apply cong_eq. lia.
  - ok_ret. intros _. apply delta_refl.
Qed.

(** ** Pledges *)

Lemma ctx_on_account_ok f s (Q : unit -> ectx -> Prop) :
  ctx_wf s -> unpledged (f (x_account s)) = unpledged (x_account s) -> quiet s (on_account f s) 0 0 ->
  Q tt (on_account f s) -> Ok (modify (on_account f)) s Q.
Proof.
  intros Hw Ha Hq HQ. unfold Ok, Keeps, wpu, modify. split_and!; [destruct Hw; by split|by split|done].
Qed.
Lemma on_account_quiet f s : quiet s (on_account f s) 0 0.
Proof. split; [|done..]. split; [done|]. split; apply cong_eq; [|change (worth (on_account f s)) with (worth s)]; cbn [x_change on_account]; lia. Qed.

Definition pledges (p : Z -> eprog xret) (sign : Z) : Prop :=
  forall num s, ctx_wf s -> Ok (p num) s (fun r s' =>
    (r = xret_success /\ quiet s s' 0 (sign * num)) \/ (r <> xret_success /\ s' = s)).

Ltac pledge_tac lem :=
  intros num s Hw; ok_read; repeat (case_match; [ok_ret; by right|]);
  (eapply Ok_bind; [by apply lem|]); intros [] s1 Hw1 Hk1 Hd1; (eapply (Ok_bind _ _ _ (fun _ s2 => quiet s1 s2 0 0)); [apply ctx_on_account_ok; try done; apply on_account_quiet|]);
  cbv beta; intros [] s2 Hw2 Hk2 Hd2; ok_ret; left; (split; [done|]); (eapply quiet_trans; [exact Hd1|exact Hd2|apply cong_eq; lia..]).

Lemma set_pledge_token_tgas_ok : pledges set_pledge_token_tgas 1.
Proof. unfold pledges, set_pledge_token_tgas. pledge_tac set_tgas_balance_change_ok. Qed.
Lemma redeem_pledge_token_tgas_ok : pledges redeem_pledge_token_tgas (-1).
Proof. unfold pledges, redeem_pledge_token_tgas. pledge_tac set_tgas_balance_change_ok. Qed.
Lemma set_pledge_token_disk_ok : pledges set_pledge_token_disk 1.
Proof. unfold pledges, set_pledge_token_disk. pledge_tac set_disk_balance_change_ok. Qed.
Lemma redeem_pledge_token_disk_ok : pledges redeem_pledge_token_disk (-1).
Proof. unfold pledges, redeem_pledge_token_disk. pledge_tac set_disk_balance_change_ok. Qed.

(** ** Gas *)

Lemma set_used_tgas_ok n s : ctx_wf s -> is_u64 n -> Ok (set_used_tgas n) s (fun r s' => r = xret_success /\ quiet s s' 0 0).
Proof.
  intros Hw Hn. unfold set_used_tgas. ok_read. ok_bind set_counter_ok. intros c1 s1 Hw1 Hk1 Hd1.
  ok_bind set_counter_ok. { apply Hw. } intros c2 s2 Hw2 Hk2 Hd2. ok_ret. split; [done|].
  eapply quiet_trans; [exact Hd1|exact Hd2|done..].
Qed.

Lemma calc_decayed_tgas_reads s : ctx_wf s -> exists v, reads calc_decayed_tgas v s.
Proof.
  intros Hw. unfold reads, calc_decayed_tgas, bind, gets.
  unfold get_last_tx_hour, get_used_tgas. rewrite (read_counter_reads s XPROPERTY_LAST_TX_HOUR_KEY Hw eq_refl). cbv iota beta zeta.
  case_match; [|by eexists]. rewrite (read_counter_reads s XPROPERTY_USED_TGAS_KEY Hw eq_refl). by eexists.
Qed.

Lemma incr_used_tgas_ok n s : ctx_wf s -> Ok (incr_used_tgas n) s (fun r s' => r = xret_success /\ quiet s s' 0 0).
Proof.
  intros Hw. unfold incr_used_tgas. destruct (calc_decayed_tgas_reads s Hw) as [v Hv]. eapply Ok_read_bind; [exact Hv|]. cbv beta.
  apply set_used_tgas_ok; [done|apply u64_range].
Qed.

Lemma get_available_tgas_reads s : ctx_wf s -> exists v, 0 <= v /\ reads get_available_tgas v s.
Proof.
  intros Hw. unfold reads, get_available_tgas, bind, get. destruct (cw_price _ Hw) as [p ->]. cbn [nonnull ret].
  unfold chain_get_available_tgas, chain_calc_decayed_tgas.
  rewrite !(get_counter_ok _ _ (cw_acct_props _ Hw)) by done.
  repeat case_match; simplify_eq/=; try done; (eexists; split; [|reflexivity]); repeat case_match; lia.
Qed.

(** The part of the gas that is paid by deposit is not more than the deposit. *)
Lemma update_tgas_sender_ok use deposit s :
  ctx_wf s -> 0 <= deposit < 2 ^ 32 -> 0 <= tx_deposit_gas_exchange_ratio ->
  Ok (update_tgas_sender use deposit 0) s (fun r s' => (r.1 = xret_success -> 0 <= r.2 <= deposit) /\ quiet s s' 0 0).
Proof.
  intros Hw Hd Hr. unfold update_tgas_sender, check_used_tgas. destruct (get_available_tgas_reads s Hw) as (av & Hav & Hv).
  set (r := if u64 (av + deposit / tx_deposit_gas_exchange_ratio) <? use
            then (xtransaction_not_enough_pledge_token_tgas, av, deposit)
            else if av <? use then (xret_success, av, u64 ((use - av) * tx_deposit_gas_exchange_ratio)) else (xret_success, use, 0)).
  assert (r.1.1 = xret_success -> 0 <= r.2 <= deposit) as Hb.
  { unfold r. destruct (Z.ltb_spec (u64 (av + deposit / tx_deposit_gas_exchange_ratio)) use) as [|Hle]; [done|].
    destruct (Z.ltb_spec av use); cbn; [|lia]. intros _.
    assert (0 <= deposit / tx_deposit_gas_exchange_ratio) as Hq by (destruct (Z.eq_dec tx_deposit_gas_exchange_ratio 0) as [->|];
      [rewrite Z.div_0_r; lia|apply Z.div_pos; lia]).
    assert (u64 (av + deposit / tx_deposit_gas_exchange_ratio) <= av + deposit / tx_deposit_gas_exchange_ratio) by (apply Z.mod_le; lia).
    assert ((use - av) * tx_deposit_gas_exchange_ratio <= deposit) as Hm.
    { destruct (Z.eq_dec tx_deposit_gas_exchange_ratio 0) as [->|]; [lia|].
      transitivity (deposit / tx_deposit_gas_exchange_ratio * tx_deposit_gas_exchange_ratio); [nia|].
      rewrite Z.mul_comm. apply Z.mul_div_le. lia. }
    rewrite u64_small; [nia|split; nia]. }
  eapply (Ok_read_bind _ _ r).
  { unfold reads. rewrite (bind_runs _ _ _ _ _ Hv). unfold r. by repeat case_match. }
  destruct r as [[c tg] dep]. cbn in Hb. cbv iota beta. eapply (Ok_bind _ _ _ (fun _ s1 => quiet s s1 0 0)).
  - case_match; [|ok_ret; apply quiet_refl]. eapply Ok_mono; [by apply incr_used_tgas_ok|]. by intros r s1 _ _ [_ ?].
  - intros r s1 Hw1 Hk1 Hd1. by ok_ret.
Qed.

(** The deposit used after a contract call is not more than the deposit, and it is paid. *)
Lemma calc_resource_ok tgas deposit used s :
  ctx_wf s -> 0 <= used <= deposit -> deposit < 2 ^ 32 -> 0 <= tx_deposit_gas_exchange_ratio ->
  Ok (calc_resource tgas deposit used) s (fun r s' => 0 <= r.2 <= deposit /\ quiet s s' (- r.2) (- r.2)).
Proof.
  intros Hw Hu Hd Hr. unfold calc_resource. destruct (calc_decayed_tgas_reads s Hw) as [dc Hdc]. eapply Ok_read_bind; [exact Hdc|]. cbv beta.
  destruct (get_available_tgas_reads s Hw) as (av & Hav & Hv). eapply Ok_read_bind; [exact Hv|]. cbv beta.
  eapply (Ok_bind _ _ _ (fun r s1 => 0 <= r.2 <= deposit /\ quiet s s1 0 0)).
  - assert (forall n x, is_u64 n -> 0 <= x.2 <= deposit ->
      Ok (set_used_tgas n ;;; ret (x : xret * Z * Z)) s (fun r s1 => 0 <= r.2 <= deposit /\ quiet s s1 0 0)) as Hset.
    { intros n x Hn Hx. ok_bind set_used_tgas_ok. intros r s1 Hw1 Hk1 [_ Hq]. ok_ret. by split. }
    destruct (Z.ltb_spec (u64 (av + u32 (deposit - used) / tx_deposit_gas_exchange_ratio)) tgas) as [|Hle];
      [apply Hset; [apply u64_range|cbn; lia]|].
    destruct (Z.ltb_spec av tgas); apply Hset; try apply u64_range; cbn; [|lia].
    unfold u32 in Hle |- *. rewrite (Z.mod_small (deposit - used)) in Hle by lia.
    set (q := (deposit - used) / tx_deposit_gas_exchange_ratio) in *.
    assert (0 <= q /\ q * tx_deposit_gas_exchange_ratio <= deposit - used) as [Hq Hqm].
    { unfold q. destruct (Z.eq_dec tx_deposit_gas_exchange_ratio 0) as [->|]; [rewrite Z.div_0_r; lia|]. split; [apply Z.div_pos; lia|].
      rewrite Z.mul_comm. apply Z.mul_div_le. lia. }
    assert (u64 (av + q) <= av + q) by (apply Z.mod_le; lia).
    assert (0 <= (tgas - av) * tx_deposit_gas_exchange_ratio <= deposit - used) as Hm by nia.
    rewrite u64_small by (split; lia). rewrite Z.mod_small; lia.
  - intros [[r tg] ud] s1 Hw1 Hk1 [Hb Hq]. cbn in Hb. cbv iota beta. ok_bind set_balance_change_ok. intros [] s2 Hw2 Hk2 Hq2. ok_ret.
    split; [done|]. eapply quiet_trans; [exact Hq|exact Hq2|apply cong_eq; cbn; lia..].
Qed.

(** ** Names, keys and sub accounts *)

Lemma account_check_reads key value limit s : exists r, reads (account_check key value limit) r s.
Proof. unfold reads, account_check, bind, gets. repeat case_match; by eexists. Qed.

Lemma set_sub_ok key value s :
  ctx_wf s -> kind_of key = Some KDeque ->
  Ok (let* c := run_np (fun n => native_deque_push_back n key value) in ret (of_np c)) s (fun r s' => delta s s' 0 0).
Proof.
  intros Hw Hk. eapply Ok_bind; [apply (push_back_ok _ KDeque); auto|]. intros c s1 Hw1 Hk1 [-> Hd]. ok_ret. apply Hd.
Qed.

Lemma account_alias_name_set_ok name s : ctx_wf s -> Ok (account_alias_name_set name) s (fun r s' => delta s s' 0 0).
Proof.
  intros Hw. unfold account_alias_name_set. eapply Ok_read_bind; [by apply lsum_reads|]. cbv beta.
  eapply Ok_read_bind; [by apply can_work_reads|]. cbv beta. destruct (working s); cbn [negb]; [|ok_ret; apply delta_refl]. ok_read.
  case_match; [ok_ret; apply delta_refl|]. ok_bind set_plain_string_ok. intros c s1 Hw1 Hk1 [-> Hd]. ok_ret. apply Hd.
Qed.

Lemma account_set_keys_ok key value s : ctx_wf s -> Ok (account_set_keys key value) s (fun r s' => delta s s' 0 0).
Proof.
  intros Hw. unfold account_set_keys. eapply Ok_read_bind; [by apply lsum_reads|]. cbv beta.
  eapply Ok_read_bind; [by apply can_work_reads|]. cbv beta. destruct (working s); cbn [negb]; [|ok_ret; apply delta_refl].
  case_match; [|ok_ret; apply delta_refl]. eapply Ok_bind; [by apply (map_set_ok _ KMap)|].
  intros c s1 Hw1 Hk1 (-> & Hd & _). by ok_ret.
Qed.

(** The parent of a new account: the whole amount comes in, if nothing was locked before. *)
Lemma set_parent_ok key a value s :
  ctx_wf s -> kind_of key = Some KString -> is_u64 a -> is_u64 min_account_deposit -> min_account_deposit <= a -> lsum s = 0 ->
  Ok (set_parent key a value) s (fun r s' => (r = xret_success -> exists b, delta s s' b a) /\ exists b w, delta s s' b w).
Proof.
  intros Hw Hk Ha Hm Hle Hl. unfold set_parent. ok_read. case_match; [ok_ret; split; [done|]; eauto using delta_refl|].
  ok_bind set_lock_token_sum_ok. intros [] s1 Hw1 Hk1 [_ Hd1]. rewrite Hl in Hd1.
  ok_bind top_token_transfer_in_ok. { unfold is_u64 in *. destruct (Z.ltb_spec min_account_deposit a); lia. }
  intros r s2 Hw2 Hk2 [-> [b Hd2]]. ok_bind set_plain_string_ok. intros c s3 Hw3 Hk3 [-> Hd3]. ok_ret.
  assert (delta s s3 b a) as Hd; [|by split; eauto].
  eapply delta_trans; [eapply delta_trans; [exact Hd1|exact Hd2|reflexivity..]|apply Hd3|apply cong_eq; lia|].
  apply cong_eq. destruct (Z.ltb_spec min_account_deposit a); lia.
Qed.
End Ops.

(** * Votes and the sums behind them

    The records of pledged votes keep their format through every operation on
    them, and redeeming votes moves tokens between the pledged and the free
    balance. *)

(** ** Records *)

Lemma of_byte_range c : 0 <= of_byte c < 256.
Proof. unfold of_byte. pose proof (Ascii.N_ascii_bounded c). lia. Qed.

Lemma read_le_range n : forall s x r, read_le n s = Some (x, r) -> 0 <= x < 2 ^ (8 * Z.of_nat n).
Proof.
  induction n as [|n IH]; intros s x r; cbn [read_le]; [intros [= <- <-]; cbn; lia|].
  unfold bind. destruct s as [|c s]; [done|]. cbn. destruct (read_le n s) as [[y r']|] eqn:E; [|done]. intros [= <- <-].
  specialize (IH _ _ _ E). pose proof (of_byte_range c).
  replace (8 * Z.of_nat (S n)) with (8 + 8 * Z.of_nat n) by lia. rewrite Z.pow_add_r by lia. change (2 ^ 8) with 256. lia.
Qed.

Lemma deserilize_serilize n d t : deserilize_vote (serilize_vote n d t) = Some (u64 n, u16 d, u64 t).
Proof.
  unfold deserilize_vote. apply run_read_write. intros r. unfold read_vote, serilize_vote. rewrite !append_assoc.
  unfold read_u64, read_u16, write_u64, write_u16.
  rewrite (bind_runs _ _ _ _ _ (read_le_write _ _ _)), (bind_runs _ _ _ _ _ (read_le_write _ _ _)), (bind_runs _ _ _ _ _ (read_le_write _ _ _)).
  done.
Qed.
Lemma vote_ok_serilize n d t : u16 d <> 0 \/ u64 n <> 0 -> vote_ok (serilize_vote n d t) = true.
Proof. intros Hn. unfold vote_ok. rewrite deserilize_serilize. destruct (Z.eqb_spec (u16 d) 0), (Z.eqb_spec (u64 n) 0); try done. lia. Qed.

Lemma vote_ok_parse str : vote_ok str = true ->
  exists n d t, deserilize_vote str = Some (n, d, t) /\ is_u64 n /\ (d = 0 -> n <> 0).
Proof.
  unfold vote_ok. destruct (deserilize_vote str) as [[[n d] t]|] eqn:E; [|done]. intros Hv. exists n, d, t. split_and!; [done| |].
  - unfold deserilize_vote, run_read, read_vote, bind, read_u64, read_u16 in E. destruct (read_le 8 str) as [[n' r1]|] eqn:E1; [|done].
    apply read_le_range in E1. destruct (read_le 2 r1) as [[d' r2]|]; [|done]. destruct (read_le 8 r2) as [[t' r3]|]; [|done].
    cbn in E. by injection E as -> _ _.
  - intros -> ->. done.
Qed.

Section Votes.
Context `{ExecConfig} `{ExecBase}.

Lemma erase_vote_ok str s :
  ctx_wf s -> Ok (run_np (fun n => native_deque_erase n XPROPERTY_PLEDGE_VOTE_KEY str)) s (fun _ s' => quiet s s' 0 0).
Proof. intros Hw. apply (deque_erase_ok _ KVotes); auto. Qed.
Lemma push_vote_ok n d t s :
  ctx_wf s -> u16 d <> 0 \/ u64 n <> 0 ->
  Ok (run_np (fun q => native_deque_push_back q XPROPERTY_PLEDGE_VOTE_KEY (serilize_vote n d t))) s
     (fun c s' => c = np_success /\ quiet s s' 0 0).
Proof. intros Hw Hn. apply (push_back_ok _ KVotes); auto using vote_ok_serilize. Qed.

Lemma pledge_votes_reads s : reads pledge_votes (deque_value (deque_get (ctx_np s) XPROPERTY_PLEDGE_VOTE_KEY)) s.
Proof. done. Qed.

Lemma merge_loop_ok ds : forall vs et s,
  ctx_wf s -> forallb vote_ok ds = true -> is_u64 vs -> Ok (merge_loop ds vs et) s (fun r s' => is_u64 r.1 /\ quiet s s' 0 0).
Proof.
  induction ds as [|str ds IH]; intros vs et s Hw Hd Hv; cbn [merge_loop]; [ok_ret; split; [done|apply quiet_refl]|].
  cbn in Hd. apply andb_true_iff in Hd as [Hs Hd]. destruct (vote_ok_parse str Hs) as (n & d & t & -> & Hn & _). ok_read. ok_read.
  case_match; [|by apply IH]. ok_bind erase_vote_ok. intros c s1 Hw1 Hk1 D1.
  eapply Ok_mono; [apply IH; [done..|apply u64_range]|]. intros r s2 _ _ [Hr D2]. split; [done|].
  by eapply quiet_then.
Qed.

Lemma merge_pledge_vote_property_ok s :
  ctx_wf s -> Ok merge_pledge_vote_property s (fun r s' => r = xret_success /\ quiet s s' 0 0).
Proof.
  intros Hw. unfold merge_pledge_vote_property. ok_read.
  pose proof (votes_of_kind s XPROPERTY_PLEDGE_VOTE_KEY Hw eq_refl) as Hv.
  destruct (deque_get (ctx_np s) XPROPERTY_PLEDGE_VOTE_KEY) as [[l ds]|]; [|ok_ret; split; [done|apply quiet_refl]]. cbn in Hv.
  eapply Ok_bind; [apply merge_loop_ok; [done..|split; lia]|]. intros [vs et] s1 Hw1 Hk1 [Hvs D1]. cbn in Hvs. cbv iota beta.
  eapply (Ok_bind _ _ _ (fun _ s2 => quiet s1 s2 0 0)).
  { destruct (Z.ltb_spec 0 vs); [|ok_ret; apply quiet_refl]. ok_bind push_vote_ok. { right. rewrite u64_small by done. lia. }
    intros c s2 Hw2 Hk2 [_ D2]. by ok_ret. }
  intros [] s2 Hw2 Hk2 D2. eapply (Ok_bind _ _ _ (fun _ s3 => quiet s2 s3 0 0)).
  { destruct (0 <? et); [|ok_ret; apply quiet_refl]. ok_read. ok_bind set_plain_string_ok.
    intros c s3 Hw3 Hk3 [_ D3]. by ok_ret. }
  intros [] s3 Hw3 Hk3 D3. ok_ret. split; [done|]. eapply quiet_then; [|exact D3]. by eapply quiet_then.
Qed.

Lemma find_same_pledge_total now duration ds :
  forallb vote_ok ds = true -> forall t, is_Some (find_same_pledge now duration t ds).
Proof.
  induction ds as [|str ds IH]; cbn; [by eexists|]. intros [Hs Hd]%andb_true_iff t.
  destruct (vote_ok_parse str Hs) as (n & d & t' & -> & _ & _). case_match; [by eexists|]. by apply IH.
Qed.

Lemma insert_pledge_vote_property_ok n d s :
  ctx_wf s -> u16 d <> 0 -> Ok (insert_pledge_vote_property n d) s (fun _ s' => quiet s s' 0 0).
Proof.
  intros Hw Hd. unfold insert_pledge_vote_property. ok_read. case_match; [ok_ret; apply quiet_refl|]. ok_read. ok_read.
  destruct (find_same_pledge_total (x_timer_height s) d _ (votes_of_kind s XPROPERTY_PLEDGE_VOTE_KEY Hw eq_refl) 0) as [[t same] Ef].
  rewrite Ef. ok_read. eapply (Ok_bind _ _ _ (fun _ s1 => quiet s s1 0 0)).
  { destruct same as [[str n']|]; [|ok_ret; apply quiet_refl]. ok_bind erase_vote_ok. intros c s1 Hw1 Hk1 D1. by ok_ret. }
  intros n' s1 Hw1 Hk1 D1. ok_bind push_vote_ok. { by left. } intros c s2 Hw2 Hk2 [_ D2]. ok_ret.
  by eapply quiet_then.
Qed.

Lemma update_pledge_vote_property_ok n d s :
  ctx_wf s -> u16 d <> 0 -> Ok (update_pledge_vote_property n d) s (fun _ s' => quiet s s' 0 0).
Proof.
  intros Hw Hd. unfold update_pledge_vote_property. ok_bind merge_pledge_vote_property_ok. intros r s1 Hw1 Hk1 [_ D1].
  eapply Ok_mono; [by apply insert_pledge_vote_property_ok|]. intros r' s2 _ _ D2. by eapply quiet_then.
Qed.

(** The first record of expired votes has votes. *)
Lemma find_expired_total ds :
  forallb vote_ok ds = true -> exists o, find_expired ds = Some o /\ (forall str n, o = Some (str, n) -> is_u64 n /\ n <> 0).
Proof.
  induction ds as [|str ds IH]; cbn; [by eexists|]. intros [Hs Hd]%andb_true_iff.
  destruct (vote_ok_parse str Hs) as (n & d & t & -> & Hn & Hz). destruct (Z.eqb_spec d 0); [|by apply IH].
  eexists. split; [done|]. intros ? ? [= <- <-]. auto.
Qed.

Lemma redeem_pledge_vote_property_ok num s :
  ctx_wf s -> 0 <= num -> Ok (redeem_pledge_vote_property num) s (fun _ s' => exists b, delta s s' b 0).
Proof.
  intros Hw Hn. unfold redeem_pledge_vote_property. ok_read.
  destruct (find_expired_total _ (votes_of_kind s XPROPERTY_PLEDGE_VOTE_KEY Hw eq_refl)) as (o & Ho & Hp). rewrite Ho. ok_read.
  destruct o as [[str vn]|]; [|ok_ret; eauto using delta_refl]. destruct (Hp _ _ eq_refl) as [[Hv0 Hv1] Hvn].
  destruct (Z.ltb_spec vn num); [ok_ret; eauto using delta_refl|].
  ok_bind erase_vote_ok. intros c s1 Hw1 Hk1 D1. ok_read. destruct (Z.eqb_spec vn 0); [done|]. ok_read.
  set (bc := i64 _). ok_bind set_plain_string_ok. intros c2 s2 Hw2 Hk2 [_ D2].
  eapply (Ok_bind _ _ _ (fun _ s3 => quiet s2 s3 0 0)).
  { destruct (Z.ltb_spec 0 (vn - num)); [|ok_ret; apply quiet_refl]. ok_bind push_vote_ok.
    { right. rewrite u64_small by (split; lia). lia. } intros c3 s3 Hw3 Hk3 [_ D3]. by ok_ret. }
  intros [] s3 Hw3 Hk3 D3. ok_bind set_unvote_num_change_ok. intros [] s4 Hw4 Hk4 D4.
  ok_bind set_balance_change_ok. intros [] s5 Hw5 Hk5 D5. ok_bind set_vote_balance_change_ok. intros [] s6 Hw6 Hk6 D6. ok_ret.
  exists bc. apply qt_delta.
  assert (quiet s s4 0 0) as Q4.
  { eapply quiet_then; [|exact D4]. eapply quiet_then; [|exact D3]. by eapply quiet_then; [|exact D2]. }
  eapply quiet_trans; [eapply quiet_trans; [exact Q4|exact D5|reflexivity..]|exact D6|apply cong_eq; lia..].
Qed.
End Votes.
