(* ===== verification/ExecSteps.v ===== *)
(** * Fees and steps of a transaction: what the fees move

    [burns]: what the execution state of a transaction says was burnt.  A sender
    moves the deposit from its balance to its locked balance; when it comes back,
    exactly the used part is paid.  Nothing else of the account changes. *)

From stdpp Require Import prelude strings gmap.
From Stdlib Require Import ZArith Lia.
From S2P Require Import Prelude Stream StdMap AccountAddr TxData StdNum NativeProp Action ConsTx ChainState AccountCtx TxExec ExecInv ExecOps.
Open Scope Z_scope.
Open Scope money_scope.

Definition exec_of (t : loc) (s : ectx) : exec_state :=
  match x_txs s !! t with Some tx => ct_exec tx | None => exec_state_init end.
(** The deposit used, the service fee and the amount sent to the black hole. *)
Definition burns (t : loc) (s : ectx) : Z * Z * Z :=
  let e := exec_of t s in (es_used_deposit e, es_beacon_service_fee e, es_self_burn_balance e).

(** Money moves and the locks stay; transactions may be written to. *)
Record calm (s s' : ectx) (b w : Z) : Prop := {
  cl_money :> money s s' b w;
  cl_lsum : lsum s' = lsum s;
  cl_locks : locks s' = locks s
}.
Lemma calm_refl s : calm s s 0 0.
Proof. split; [by apply money_refl|done..]. Qed.
Lemma quiet_calm s s' b w : quiet s s' b w -> calm s s' b w.
Proof. intros [[_ Hm] Hl]. by split. Qed.
Lemma calm_trans s1 s2 s3 b b' w w' b'' w'' :
  calm s1 s2 b w -> calm s2 s3 b' w' -> b'' ≡₆₄ b + b' -> w'' ≡₆₄ w + w' -> calm s1 s3 b'' w''.
Proof. intros [D1 L1 K1] [D2 L2 K2] Hb Hw. split; [by eapply money_trans|congruence..]. Qed.
Lemma calm_then s1 s2 s3 b w : calm s1 s2 b w -> calm s2 s3 0 0 -> calm s1 s3 b w.
Proof. intros Q1 Q2. eapply calm_trans; [exact Q1|exact Q2|apply cong_eq; lia..]. Qed.
Lemma delta_burns t s s' b w : delta s s' b w -> burns t s' = burns t s.
Proof. intros [Ht _]. unfold burns, exec_of. by rewrite Ht. Qed.

Lemma static_tx_eq a b : static_tx a = static_tx b -> a = with_exec (fun _ => ct_exec a) b.
Proof. destruct a, b. unfold static_tx, with_exec. cbn. by intros [= -> -> -> -> -> ->]. Qed.

Lemma alter_static f t (l : list xcons_tx) : static_tx <$> alter (with_exec f) t l = static_tx <$> l.
Proof. revert t. induction l as [|x l IH]; intros [|t]; cbn; [done..|]. f_equal. apply IH. Qed.

Section Fee.
Context `{ExecConfig} `{ExecBase} `{XStringUtl}.
Context (t : loc) (tx : xcons_tx).

(** The transaction at [t] is [tx], up to what execution writes into it. *)
Definition has (s : ectx) : Prop := exists e, x_txs s !! t = Some (with_exec (fun _ => e) tx).

Lemma has_keeps s s' : has s -> keeps s s' -> has s'.
Proof.
  intros [e He] Hk. pose proof (kp_txs _ _ Hk) as Ht. apply (f_equal (fun l => l !! t)) in Ht.
  rewrite !list_lookup_fmap, He in Ht. destruct (x_txs s' !! t) as [tx'|] eqn:E; [|done]. cbn [fmap option_fmap option_map] in Ht.
  assert (static_tx tx' = static_tx tx) as Hs by (injection Ht; unfold static_tx, with_exec; congruence).
  exists (ct_exec tx'). rewrite E. f_equal. by apply static_tx_eq.
Qed.

Lemma get_tx_reads s : has s -> exists e, e = exec_of t s /\ reads (get_tx t) (with_exec (fun _ => e) tx) s.
Proof. intros [e He]. exists e. unfold exec_of, reads, get_tx. by rewrite He. Qed.

Lemma set_exec_ok f s :
  ctx_wf s -> has s -> Ok (set_exec t f) s (fun _ s' => calm s s' 0 0 /\ exec_of t s' = f (exec_of t s)).
Proof.
  intros Hw [e He]. unfold set_exec, Ok, Keeps, wpu, modify. split_and!.
  - destruct Hw. by split.
  - split; try done. apply alter_static.
  - split; [|done..]. split; apply cong_eq; cbn [x_change set_txs].
    + lia.
    + change (worth (set_txs (x_contract_txs s) (alter (with_exec f) t (x_txs s)) s)) with (worth s). lia.
  - unfold exec_of. cbn. rewrite list_lookup_alter, decide_True by done. by rewrite He.
Qed.

Ltac ok_tx Hh :=
  let e := fresh "e" in let He := fresh "He" in let Hr := fresh "Hr" in
  destruct (get_tx_reads _ Hh) as (e & He & Hr); eapply Ok_read_bind; [exact Hr | cbv beta]; clear Hr;
  cbn [with_exec ct_tx ct_deposit ct_tx_len ct_source_action ct_target_action ct_receipt].

Definition bd (p : Z * Z * Z) : Z := p.1.1.

Lemma keep_if_zero_new v : keep_if_zero 0 v = v.
Proof. unfold keep_if_zero. destruct (Z.eqb_spec v 0); lia. Qed.

(** Writing the deposit used into a transaction that has none. *)
Lemma set_used_deposit_ok v s :
  ctx_wf s -> has s -> bd (burns t s) = 0 ->
  Ok (set_exec t (set_used_deposit v)) s (fun _ s' => calm s s' 0 0 /\ burns t s' = (v, (burns t s).1.2, (burns t s).2)).
Proof.
  intros Hw Hh Hz. eapply Ok_mono; [by apply set_exec_ok|]. intros _ s1 _ _ [Hc He]. split; [done|].
  unfold burns in *. rewrite He. cbn in *. unfold bd in Hz. cbn in Hz. by rewrite Hz, keep_if_zero_new.
Qed.
(** Writing gas, disk or frozen gas. *)
Lemma set_exec_calm f s :
  ctx_wf s -> has s -> (forall e, es_used_deposit (f e) = es_used_deposit e /\ es_beacon_service_fee (f e) = es_beacon_service_fee e /\
    es_self_burn_balance (f e) = es_self_burn_balance e) ->
  Ok (set_exec t f) s (fun _ s' => calm s s' 0 0 /\ burns t s' = burns t s).
Proof.
  intros Hw Hh Hf. eapply Ok_mono; [by apply set_exec_ok|]. intros _ s1 _ _ [Hc He]. split; [done|].
  unfold burns. rewrite He. destruct (Hf (exec_of t s)) as (-> & -> & ->). done.
Qed.

Context (Hdep : 0 <= ct_deposit tx < 2 ^ 32) (Hratio : 0 <= tx_deposit_gas_exchange_ratio).

Lemma fee_update_tgas_sender_ok s :
  ctx_wf s -> has s -> bd (burns t s) = 0 ->
  Ok (fee_update_tgas_sender t) s (fun r s' => calm s s' 0 0 /\
    (r.1 = xret_success -> 0 <= r.2 <= ct_deposit tx /\ burns t s' = (r.2, (burns t s).1.2, (burns t s).2))).
Proof.
  intros Hw Hh Hz. unfold fee_update_tgas_sender. ok_tx Hh. ok_bind update_tgas_sender_ok.
  intros [r ud] s1 Hw1 Hk1 [Hr Hq1]. cbn in Hr. pose proof (delta_burns t _ _ _ _ Hq1) as Eb.
  assert (has s1) as Hh1 by (by eapply has_keeps).
  ok_bind set_exec_calm. intros [] s2 Hw2 Hk2 [Hc2 Eb2]. assert (has s2) as Hh2 by (by eapply has_keeps).
  ok_bind set_used_deposit_ok. { by rewrite Eb2, Eb. } intros [] s3 Hw3 Hk3 [Hc3 Eb3]. ok_ret. split.
  - eapply calm_then; [|exact Hc3]. eapply calm_then; [|exact Hc2]. by apply quiet_calm.
  - cbn. intros Hs. split; [by apply Hr|]. rewrite Eb3, Eb2, Eb. specialize (Hr Hs).
    unfold u32. rewrite Z.mod_small by lia. done.
Qed.

(** The sender's fee: the deposit moves to the locked balance. *)
Lemma update_tgas_disk_sender_ok amount c s :
  ctx_wf s -> has s -> bd (burns t s) = 0 ->
  Ok (update_tgas_disk_sender t amount c) s (fun r s' =>
    r.1 = xret_success -> calm s s' (- ct_deposit tx) 0 /\ 0 <= r.2 <= ct_deposit tx /\
      burns t s' = (r.2, (burns t s).1.2, (burns t s).2) /\ amount + ct_deposit tx <= balance (x_account s)).
Proof.
  intros Hw Hh Hz. unfold update_tgas_disk_sender. ok_tx Hh. ok_read.
  destruct (Z.ltb_spec (balance (x_account s)) amount); [by ok_ret|].
  destruct (Z.ltb_spec (balance (x_account s) - amount) (ct_deposit tx)); [by ok_ret|]. case_match; [by ok_ret|].
  ok_bind fee_update_tgas_sender_ok. intros [r ud] s1 Hw1 Hk1 [Hc1 Hr]. cbn in Hr.
  unfold ok at 1. case_bool_decide; cbn [negb]; [|by ok_ret]. destruct (Hr ltac:(done)) as [Hud Eb1].
  assert (has s1) as Hh1 by (by eapply has_keeps).
  destruct (get_available_tgas_reads s1 Hw1) as (av & _ & Hv). eapply Ok_read_bind; [exact Hv|]. cbv beta. ok_read.
  ok_bind set_exec_calm. intros [] s2 Hw2 Hk2 [Hc2 Eb2]. assert (has s2) as Hh2 by (by eapply has_keeps).
  eapply (Ok_bind _ _ _ (fun _ s3 => calm s2 s3 0 0 /\ burns t s3 = burns t s2)).
  { destruct c; [|ok_ret; split; [apply calm_refl|done]]. ok_bind set_exec_calm. intros [] s3 Hw3 Hk3 [Hc3 Eb3].
    eapply Ok_mono; [by apply set_lock_tgas_change_ok|]. intros [] s4 Hw4 Hk4 Hq4. split.
    - eapply calm_then; [exact Hc3|by apply quiet_calm].
    - rewrite <- Eb3. eapply delta_burns, Hq4. }
  intros [] s3 Hw3 Hk3 [Hc3 Eb3]. ok_bind set_lock_balance_change_ok. intros [] s4 Hw4 Hk4 Hq4.
  ok_bind set_balance_change_ok. intros [] s5 Hw5 Hk5 Hq5. ok_ret. intros _. cbn [fst snd]. split_and!; [|lia..| |lia].
  - assert (calm s s3 0 0) as C3 by (eapply calm_then; [|exact Hc3]; by eapply calm_then; [exact Hc1|]).
    eapply calm_trans; [eapply calm_trans; [exact C3|apply quiet_calm, Hq4|reflexivity..]|apply quiet_calm, Hq5|apply cong_eq; lia..].
  - by rewrite (delta_burns t _ _ _ _ Hq5), (delta_burns t _ _ _ _ Hq4), Eb3, Eb2, Eb1.
Qed.

(** The deposit comes back and the used part is paid. *)
Lemma return_deposit_ok used s :
  ctx_wf s -> bc_account (x_account s) <> sys_contract_zec_reward_addr -> 0 <= used < 2 ^ 32 ->
  used <= i64 (funds s + ct_deposit tx) ->
  Ok (return_deposit (ct_deposit tx) used) s (fun _ s' => quiet s s' (ct_deposit tx - used) (- used)).
Proof.
  intros Hw Hz Hu Hf. unfold return_deposit. ok_bind set_lock_balance_change_ok. intros [] s1 Hw1 Hk1 Q1.
  ok_bind set_balance_change_ok. intros [] s2 Hw2 Hk2 Q2.
  assert (quiet s s2 (ct_deposit tx) 0) as Q02 by (eapply quiet_trans; [exact Q1|exact Q2|apply cong_eq; lia..]).
  assert (keeps s s2) as Hk02 by (by etrans). ok_bind top_token_transfer_out_pays.
  { by rewrite (kp_account _ _ Hk02). } { lia. } { lia. } { rewrite (funds_money _ _ _ _ Q02 Hk02). lia. }
  intros r s3 Hw3 Hk3 [-> Q3]. ok_ret. eapply quiet_trans; [exact Q02|exact Q3|apply cong_eq; lia..].
Qed.

Lemma update_fee_recv_self_ok used s :
  ctx_wf s -> has s -> bc_account (x_account s) <> sys_contract_zec_reward_addr -> 0 <= used < 2 ^ 32 ->
  used <= i64 (funds s + ct_deposit tx) ->
  Ok (update_fee_recv_self t used) s (fun r s' => r = xret_success /\ quiet s s' (ct_deposit tx - used) (- used)).
Proof.
  intros Hw Hh Hz Hu Hf. unfold update_fee_recv_self. ok_tx Hh. ok_bind return_deposit_ok. intros [] s1 Hw1 Hk1 Q1. by ok_ret.
Qed.

(** The receiver notes the deposit the sender used. *)
Lemma update_fee_recv_ok s :
  ctx_wf s -> has s -> bd (burns t s) = 0 ->
  Ok (update_fee_recv t) s (fun r s' => r = xret_success /\ calm s s' 0 0 /\ (burns t s').1.2 = (burns t s).1.2 /\ (burns t s').2 = (burns t s).2).
Proof.
  intros Hw Hh Hz. unfold update_fee_recv. ok_tx Hh. ok_bind set_used_deposit_ok. intros [] s1 Hw1 Hk1 [Hc Eb]. ok_ret. by rewrite Eb.
Qed.

Lemma update_fee_confirm_ok s :
  ctx_wf s -> has s -> bd (burns t s) = 0 -> bc_account (x_account s) <> sys_contract_zec_reward_addr ->
  0 <= get_last_action_used_deposit tx <= ct_deposit tx -> 0 <= funds s < 2 ^ 63 - 2 ^ 32 ->
  Ok (update_fee_confirm t) s (fun r s' => r = xret_success /\
    calm s s' (ct_deposit tx - get_last_action_used_deposit tx) (- get_last_action_used_deposit tx) /\
    burns t s' = (get_last_action_used_deposit tx, (burns t s).1.2, (burns t s).2)).
Proof.
  intros Hw Hh Hz Ha Hu Hf. unfold update_fee_confirm. ok_tx Hh.
  change (get_last_action_used_deposit (with_exec (fun _ => e) tx)) with (get_last_action_used_deposit tx).
  ok_bind set_lock_balance_change_ok. intros [] s1 Hw1 Hk1 Q1. ok_bind set_balance_change_ok. intros [] s2 Hw2 Hk2 Q2.
  assert (keeps s s2) as Hk02 by (by etrans). assert (has s2) as Hh2 by (by eapply has_keeps).
  assert (quiet s s2 (ct_deposit tx) 0) as Q02 by (eapply quiet_trans; [exact Q1|exact Q2|apply cong_eq; lia..]).
  ok_bind set_used_deposit_ok. { by rewrite (delta_burns t _ _ _ _ Q02). } intros [] s3 Hw3 Hk3 [C3 Eb3].
  assert (keeps s s3) as Hk03 by (by etrans).
  assert (calm s s3 (ct_deposit tx) 0) as C03 by (eapply calm_then; [apply quiet_calm, Q02|done]).
  ok_bind top_token_transfer_out_pays.
  { by rewrite (kp_account _ _ Hk03). } { lia. } { lia. }
  { rewrite (funds_money _ _ _ _ C03 Hk03), i64_small; lia. }
  intros r s4 Hw4 Hk4 [-> Q4]. ok_ret. split_and!; [done| |].
  - eapply calm_trans; [exact C03|apply quiet_calm, Q4|apply cong_eq; lia..].
  - by rewrite (delta_burns t _ _ _ _ Q4), Eb3, (delta_burns t _ _ _ _ Q02).
Qed.

(** The end of a contract call: the deposit less the used part comes back; the
    amount leaves the account, or, when the call failed, stays its own. *)
Lemma update_contract_fee_confirm_ok amount s :
  ctx_wf s -> has s -> bd (burns t s) = 0 -> is_u64 amount ->
  0 <= get_last_action_used_deposit tx <= ct_deposit tx ->
  Ok (update_contract_fee_confirm t amount) s (fun _ s' => exists b,
    money s s' b (- bd (burns t s') - (if get_last_action_exec_status tx =? enum_xunit_tx_exec_status_fail then 0 else amount)) /\
    (burns t s').1.2 = (burns t s).1.2 /\ (burns t s').2 = (burns t s).2).
Proof.
  intros Hw Hh Hz Ha Hu. unfold update_contract_fee_confirm. ok_tx Hh.
  change (get_last_action_used_deposit (with_exec (fun _ => e) tx)) with (get_last_action_used_deposit tx).
  change (get_last_action_exec_status (with_exec (fun _ => e) tx)) with (get_last_action_exec_status tx).
  ok_bind set_lock_tgas_change_ok. intros [] s1 Hw1 Hk1 Q1. ok_bind set_lock_balance_change_ok. intros [] s2 Hw2 Hk2 Q2.
  ok_bind set_balance_change_ok. intros [] s3 Hw3 Hk3 Q3.
  assert (quiet s s3 (ct_deposit tx) 0) as Q03.
  { eapply quiet_trans; [eapply quiet_trans; [exact Q1|exact Q2|reflexivity..]|exact Q3|apply cong_eq; lia..]. }
  ok_bind calc_resource_ok. { lia. } intros [[r tg] ud] s4 Hw4 Hk4 [Hud Q4]. cbn in Hud, Q4. cbv iota beta.
  assert (quiet s s4 (ct_deposit tx - ud) (- ud)) as Q04 by (eapply quiet_trans; [exact Q03|exact Q4|apply cong_eq; lia..]).
  assert (has s4) as Hh4 by (eapply has_keeps; [|exact Hk4]; eapply has_keeps; [|exact Hk3]; eapply has_keeps; [|exact Hk2]; by eapply has_keeps).
  ok_bind set_exec_calm. intros [] s5 Hw5 Hk5 [C5 Eb5]. assert (has s5) as Hh5 by (by eapply has_keeps).
  ok_bind set_used_deposit_ok. { by rewrite Eb5, (delta_burns t _ _ _ _ Q04). } intros [] s6 Hw6 Hk6 [C6 Eb6]. ok_read.
  assert (calm s s6 (ct_deposit tx - ud) (- ud)) as C06.
  { eapply calm_then; [|exact C6]. eapply calm_then; [|exact C5]. by apply quiet_calm. }
  rewrite Eb5, (delta_burns t _ _ _ _ Q04) in Eb6.
  eapply (Ok_bind _ _ _ (fun _ s7 => exists b, delta s6 s7 b
    (- (if get_last_action_exec_status tx =? enum_xunit_tx_exec_status_fail then 0 else amount)))).
  { destruct (get_last_action_exec_status tx =? enum_xunit_tx_exec_status_fail).
    - case_match; [|ok_ret; exists 0; apply delta_refl]. ok_bind top_token_transfer_in_ok. intros r' s7 Hw7 Hk7 [-> [b D7]].
      eapply Ok_mono; [by apply set_lock_balance_change_ok|]. intros [] s8 _ _ Q8. eexists.
      eapply delta_trans; [exact D7|apply Q8|reflexivity|]. rewrite cong_i64. apply cong_eq. lia.
    - eapply Ok_mono; [by apply set_lock_balance_change_ok|]. intros [] s8 _ _ Q8. eexists.
      eapply delta_cong; [apply Q8|reflexivity|]. rewrite cong_i64. done. }
  intros [] s7 Hw7 Hk7 [b D7]. ok_ret. exists (ct_deposit tx - ud + b). rewrite (delta_burns t _ _ _ _ D7), Eb6. split; [|done].
  eapply money_trans; [apply C06|apply D7|done|]. unfold bd. cbn. apply cong_eq. lia.
Qed.
End Fee.

(** * What a checked transaction guarantees

    Amounts of a parsed transaction are 64-bit numbers, the two sides of a
    transfer agree, and what a lock or a redemption writes into the account can be
    read back later. *)

(** ** Reading *)

Lemma read_u64_range s x r : read_u64 s = Some (x, r) -> is_u64 x.
Proof. apply read_le_range. Qed.

Lemma run_bind {A B} (m : reader A) (k : A -> reader B) s b r :
  bind m k s = Some (b, r) -> exists a s', m s = Some (a, s') /\ k a s' = Some (b, r).
Proof. unfold bind. destruct (m s) as [[a s']|]; [eauto|done]. Qed.

Lemma asset_parse_range ty a v : asset_parse ty a = inr v -> is_u64 (m_amount v).
Proof.
  unfold asset_parse. repeat case_match; try done. intros [= ->].
  match goal with H : run_read read_asset _ = Some _ |- _ => unfold run_read in H; rename H into Hr end.
  destruct (read_asset _) as [[x r]|] eqn:E; [|done]. injection Hr as ->.
  apply run_bind in E as (tok & s1 & _ & E). apply run_bind in E as (am & s2 & E2 & E). injection E as <- _.
  by apply read_u64_range in E2.
Qed.

(** ** Records *)

Lemma parse_lock_record_made clock params :
  is_u64 clock -> str_len params < 2 ^ 32 ->
  parse_lock_record (lock_record clock params) = pair clock <$> run_read (read_lock params) params.
Proof.
  intros Hc Hp. unfold parse_lock_record. rewrite (run_read_write _ _ (clock, params)); [done|].
  intros r. unfold read_lock_record, lock_record. rewrite append_assoc.
  rewrite (bind_runs _ _ _ _ _ (read_u64_write _ _ Hc)). by rewrite (bind_runs _ _ _ _ _ (read_string_write params r Hp)).
Qed.

(** A lock that parsed is recorded so that it parses again. *)
Lemma lock_record_ok now param la :
  is_u64 now -> str_len param < 2 ^ 32 -> lock_parse_param param = Some (inr la) ->
  record_ok (lock_record now (la_params la)) = true.
Proof.
  intros Hn Hl. unfold lock_parse_param. destruct (run_read (read_lock param) param) as [la'|] eqn:E; [|done].
  destruct (ok (check_unlock_values _ _)) eqn:Ec; [|done]. intros [= ->].
  assert (la_params la = param) as ->.
  { unfold run_read in E. destruct (read_lock param param) as [[x r]|] eqn:Er; [|done]. injection E as ->.
    apply run_bind in Er as (? & ? & _ & Er). apply run_bind in Er as (? & ? & _ & Er). apply run_bind in Er as (? & ? & _ & Er).
    apply run_bind in Er as (? & ? & _ & Er). by injection Er as <- _. }
  unfold record_ok. rewrite parse_lock_record_made, E by done. cbn.
  destruct (Z.eqb_spec (la_unlock_type la) UT_time) as [Et|]; [|done]. cbn. unfold check_unlock_values in Ec. rewrite Et in Ec. cbn in Ec.
  destruct (la_unlock_values la); [done|]. by rewrite bool_decide_eq_false_2.
Qed.

Lemma write_le_length n : forall x, String.length (write_le n x) = n.
Proof. induction n as [|n IH]; intros x; cbn; [done|]. by rewrite IH. Qed.
Lemma length_append (a b : string) : String.length (a +:+ b) = (String.length a + String.length b)%nat.
Proof. induction a as [|c a IH]; [done|]. rewrite append_cons. cbn. by rewrite IH. Qed.

(** What a redemption records parses too. *)
Lemma redeem_record_ok `{ExecConfig} now amount version :
  is_u64 now -> record_ok (lock_record now (assemble_lock_token_param amount version)) = true.
Proof.
  intros Hn. unfold record_ok. set (v := to_string (u32 (unlock_gas_staked_delay_time * 10))).
  assert (String.length v <= 10)%nat as Hv.
  { apply to_string_length; [lia|]. unfold u32. pose proof (Z.mod_pos_bound (unlock_gas_staked_delay_time * 10) (2 ^ 32)). lia. }
  rewrite parse_lock_record_made; [|done|].
  2:{ unfold str_len, assemble_lock_token_param, write_string, write_str. fold v.
      unfold write_u32, write_u64. rewrite !length_append, !write_le_length. unfold cut_str. rewrite ?str_take_length. lia. }
  rewrite (run_read_write _ _ (LockAction (u32 version) (u64 amount) UT_time [v] (assemble_lock_token_param amount version))); [done|].
  intros r. generalize (assemble_lock_token_param amount version) at 1 3. intros p.
  unfold assemble_lock_token_param. fold v. rewrite !append_assoc.
  unfold read_lock, read_string_list, write_u32, write_u64, read_u32, read_u64.
  rewrite (bind_runs _ _ _ _ _ (read_le_write _ _ _)), (bind_runs _ _ _ _ _ (read_le_write _ _ _)), (bind_runs _ _ _ _ _ (read_le_write _ _ _)).
  assert (forall s, (let* size := read_le 4 in read_strings (Z.to_nat size)) (write_le 4 1 +:+ (write_string v +:+ s)) = Some ([v], s)) as Hs.
  { intros s. rewrite (bind_runs _ _ _ _ _ (read_le_write _ _ _)). change (Z.to_nat (1 mod 2 ^ (8 * Z.of_nat 4))) with 1%nat. cbn [read_strings].
    rewrite (bind_runs _ _ _ _ _ (read_string_write v s ltac:(unfold str_len; lia))). done. }
  rewrite (bind_runs _ _ _ _ _ (Hs r)). done.
Qed.

(** ** Faces *)

(** What a transaction that passed its checks has; [now] is the clock of the context. *)
Definition face_good `{ExecConfig} (now : Z) (f : face) : Prop :=
  match f with
  | create_contract_account src _ _ | run_contract src _ _ => is_u64 (m_amount src)
  | transfer src tgt => is_u64 (m_amount src) /\ m_amount tgt = m_amount src /\ 0 < m_amount src <= TOTAL_ISSUANCE
  | create_sub_account src tgt => is_u64 (m_amount src) /\ m_amount tgt = m_amount src /\ min_account_deposit <= m_amount src
  | lock_account_token la => record_ok (lock_record now (la_params la)) = true
  | pledge_token_tgas a | pledge_token_disk a | redeem_token_tgas a | redeem_token_disk a => is_u64 (m_amount a)
  | pledge_token_vote _ d => u16 d <> 0
  | redeem_token_vote n => 0 <= n
  | _ => True
  end.

Lemma ok_true r : ok r = true -> r = xret_success.
Proof. unfold ok. by case_bool_decide. Qed.
Lemma ok_false r : ok r = false -> r <> xret_success.
Proof. unfold ok. by case_bool_decide. Qed.

Section Good.
Context `{ExecConfig} `{ExecWorld}.

Lemma parse2_inr {A B} (p : xret + A) (q : xret + B) g f :
  parse2 p q g = Some (inr f) -> exists a b, p = inr a /\ q = inr b /\ f = g a b.
Proof. unfold parse2. destruct p as [|a], q as [|b]; try done. intros [= <-]. eauto. Qed.
Lemma parse2_throws_inr {A B} (p : xret + A) (q : option (xret + B)) g f :
  parse2_throws p q g = Some (inr f) -> exists a b, p = inr a /\ q = Some (inr b) /\ f = g a b.
Proof. unfold parse2_throws. destruct p as [|a], q as [[|b]|]; try done. intros [= <-]. eauto. Qed.
Lemma parse1_throws_inr {B} (q : option (xret + B)) g f :
  parse1_throws q g = Some (inr f) -> exists b, q = Some (inr b) /\ f = g b.
Proof. unfold parse1_throws. destruct q as [[|b]|]; try done. intros [= <-]. eauto. Qed.

(** The amounts of a parsed transaction, before its checks. *)
Definition face_parsed (now : Z) (f : face) : Prop :=
  match f with
  | create_contract_account src _ _ | run_contract src _ _ => is_u64 (m_amount src)
  | transfer src tgt | create_sub_account src tgt => is_u64 (m_amount src) /\ is_u64 (m_amount tgt)
  | lock_account_token la => record_ok (lock_record now (la_params la)) = true
  | pledge_token_tgas a | pledge_token_disk a | redeem_token_tgas a | redeem_token_disk a => is_u64 (m_amount a)
  | pledge_token_vote _ d => 0 <= d < 2 ^ 16
  | redeem_token_vote n => 0 <= n
  | _ => True
  end.

Lemma parse_face now tx f :
  is_u64 now -> str_len (get_action_param (ct_target_action tx)) < 2 ^ 32 -> parse tx = Some (inr f) -> face_parsed now f.
Proof.
  intros Hn Hl. unfold parse. cbv zeta.
  repeat (match goal with |- (if ?b then _ else _) = _ -> _ => destruct b end); try done;
    (intros (a & b & Ea & Eb & ->)%parse2_inr || intros (a & b & Ea & Eb & ->)%parse2_throws_inr || intros (b & Eb & ->)%parse1_throws_inr);
    cbn [face_parsed]; try done; try (by eapply asset_parse_range).
  - destruct (str_empty (get_action_param (ct_source_action tx))); [injection Ea as <-; split; cbn; lia|by eapply asset_parse_range].
  - split; by eapply asset_parse_range.
  - unfold lock_token_parse in Eb. case_match; [done|]. by eapply lock_record_ok.
  - split; by eapply asset_parse_range.
  - unfold pledge_token_vote_parse in Eb. case_match; [done|]. unfold run_read in Eb. destruct (read_pledge_vote _) as [[[n d] r]|] eqn:E; [|done].
    injection Eb as <-. apply run_bind in E as (? & ? & _ & E). apply run_bind in E as (? & ? & E & E2). injection E2 as <- <- _.
    by apply read_le_range in E.
  - unfold redeem_token_vote_parse in Eb. case_match; [done|]. unfold run_read in Eb. destruct (read_u64 _) as [[n r]|] eqn:E; [|done].
    injection Eb as <-. apply read_u64_range in E as [? _]. done.
Qed.

Lemma check_face_good now tx f :
  is_u64 now -> str_len (get_action_param (ct_target_action tx)) < 2 ^ 32 -> tx_check tx = Some (inr f) -> face_good now f.
Proof.
  intros Hn Hl Hc. unfold tx_check in Hc. destruct (parse tx) as [[|f']|] eqn:Ep; try done.
  destruct (ok (check_face tx f')) eqn:Ec; [|done]. injection Hc as ->. apply (parse_face now) in Ep; [|done..].
  apply ok_true in Ec. destruct f; cbn in *; try done.
  - unfold check_transfer in Ec. repeat case_match; try done. guards. split_and!; [apply Ep|lia..].
  - unfold check_create_sub_account in Ec. repeat case_match; try done. guards. split_and!; [apply Ep|lia..].
  - unfold check_pledge_vote in Ec. case_match; [done|]. unfold u16. rewrite Z.mod_small by lia. guards. lia.
Qed.
End Good.

(** * The steps of a transaction, one by one

    For each of the steps at the sender and at the receiver: it returns in a
    well-formed context, and when it succeeds the account has lost or gained
    exactly what the kind of the transaction says. *)

(** What the sender parts with and what the receiver gets. *)
Definition spent (f : face) : Z :=
  match f with transfer src _ | create_sub_account src _ => m_amount src | _ => 0 end.
Definition gained (f : face) : Z :=
  match f with transfer _ tgt | create_sub_account _ tgt => m_amount tgt | _ => 0 end.
(** What is sent to the black hole. *)
Definition self_burn (tx : xcons_tx) (f : face) : Z :=
  match f with
  | transfer src _ => if bool_decide (get_target_addr (ct_tx tx) = black_hole_addr) then m_amount src else 0
  | _ => 0
  end.

Record config_ok `{ExecConfig} : Prop := {
  cf_ratio : 0 <= tx_deposit_gas_exchange_ratio;
  cf_min_deposit : is_u64 min_account_deposit;
  cf_beacon_fee : 0 <= beacon_tx_fee < 2 ^ 63
}.

(** Reduce a test on a code. *)
Ltac ok_cases := unfold ok at 1; case_bool_decide; cbn [negb]; [subst|].

Section Steps.
Context `{ExecConfig} `{ExecBase} `{TxEnv} `{XStringUtl} `{ExecWorld}.
Context (t : loc) (tx : xcons_tx) (Hcf : config_ok) (Hdep : 0 <= ct_deposit tx < 2 ^ 32).

Abbreviation has := (has t tx).
Ltac ok_tx Hh :=
  let e := fresh "e" in let He := fresh "He" in let Hr := fresh "Hr" in
  destruct (get_tx_reads t tx _ Hh) as (e & He & Hr); eapply Ok_read_bind; [exact Hr | cbv beta]; clear Hr;
  cbn [with_exec ct_tx ct_deposit ct_tx_len ct_source_action ct_target_action ct_receipt].

Definition service : Z := cal_service_fee (get_source_addr (ct_tx tx)) (get_target_addr (ct_tx tx)).
Lemma service_range : 0 <= service < 2 ^ 63.
Proof. unfold service, cal_service_fee. destruct Hcf. case_match; lia. Qed.

(** Two steps in sequence. *)
Lemma and_then_ok (m k : eprog xret) s (P Q : xret -> ectx -> Prop) :
  Ok m s P -> (forall r s1, ctx_wf s1 -> keeps s s1 -> P r s1 -> r <> xret_success -> Q r s1) ->
  (forall s1, ctx_wf s1 -> keeps s s1 -> P xret_success s1 -> Ok k s1 Q) -> Ok (and_then m k) s Q.
Proof.
  intros Hm Hf Hk. unfold and_then. eapply Ok_bind; [exact Hm|]. intros r s1 Hw1 Hk1 HP. unfold ok. case_bool_decide.
  - subst. by apply Hk.
  - ok_ret. by apply Hf.
Qed.

(** ** At the sender *)

Lemma source_service_fee_exec_ok s :
  ctx_wf s -> has s -> burns t s = (0, 0, 0) -> bc_account (x_account s) <> sys_contract_zec_reward_addr ->
  Ok (source_service_fee_exec t) s (fun r s' =>
    r = xret_success -> calm s s' (- service) (- service) /\ burns t s' = (0, service, 0) /\ service <= funds s).
Proof.
  intros Hw Hh Hb Hz. pose proof service_range as Hs. unfold source_service_fee_exec. ok_tx Hh. fold service.
  ok_bind top_token_transfer_out_ok. { lia. } { change (u64 0) with 0. lia. }
  rewrite Z.add_0_l. intros r s1 Hw1 Hk1 Hr. assert (has s1) as Hh1 by (by eapply has_keeps).
  eapply Ok_bind; [by apply (set_exec_ok t tx)|]. intros [] s2 Hw2 Hk2 [C2 E2]. ok_ret. intros ->.
  destruct Hr as [(_ & Q1 & Hf)|(? & _)]; [|done]. split_and!.
  - eapply calm_then; [apply quiet_calm, Q1|done].
  - pose proof (delta_burns t _ _ _ _ Q1) as Eb. rewrite Hb in Eb. unfold burns in *. rewrite E2. cbn. injection Eb as -> -> ->.
    by rewrite keep_if_zero_new.
  - rewrite i64_small in Hf by lia. lia.
Qed.

Lemma pay_fee_ok amount c lt s F :
  ctx_wf s -> has s -> burns t s = (0, F, 0) ->
  Ok (pay_fee t amount c lt) s (fun r s' =>
    r.1 = xret_success -> calm s s' (- ct_deposit tx) 0 /\ 0 <= fs_used_deposit r.2 <= ct_deposit tx /\
      burns t s' = (fs_used_deposit r.2, F, 0)).
Proof.
  intros Hw Hh Hb. unfold pay_fee. eapply Ok_bind.
  - apply (update_tgas_disk_sender_ok t tx Hdep (cf_ratio Hcf)); [done..|]. by rewrite Hb.
  - intros [r ud] s1 Hw1 Hk1 Hr. cbv iota beta. ok_ret. intros Hs. cbn in Hs |- *. destruct (Hr Hs) as (C1 & Hu & Eb & _).
    rewrite Hb in Eb. done.
Qed.

Lemma source_fee_exec_ok f s F :
  ctx_wf s -> has s -> burns t s = (0, F, 0) ->
  Ok (source_fee_exec t f) s (fun r s' =>
    r.1 = xret_success -> exists D, (D = 0 \/ D = ct_deposit tx) /\ calm s s' (- D) 0 /\
      0 <= fs_used_deposit r.2 <= D /\ burns t s' = (fs_used_deposit r.2, F, 0)).
Proof.
  intros Hw Hh Hb.
  assert (Ok no_fee s (fun r s' => r.1 = xret_success -> exists D, (D = 0 \/ D = ct_deposit tx) /\ calm s s' (- D) 0 /\
      0 <= fs_used_deposit r.2 <= D /\ burns t s' = (fs_used_deposit r.2, F, 0))) as Hno.
  { unfold no_fee. ok_ret. intros _. exists 0. split_and!; [by left|apply calm_refl|cbn; lia..|done]. }
  assert (forall a c l, Ok (pay_fee t a c l) s (fun r s' => r.1 = xret_success -> exists D, (D = 0 \/ D = ct_deposit tx) /\ calm s s' (- D) 0 /\
      0 <= fs_used_deposit r.2 <= D /\ burns t s' = (fs_used_deposit r.2, F, 0))) as Hpay.
  { intros a c l. eapply Ok_mono; [by apply pay_fee_ok|]. intros r s' _ _ Hr Hs. destruct (Hr Hs) as (? & ? & ?).
    exists (ct_deposit tx). auto. }
  unfold source_fee_exec. ok_tx Hh. destruct f; try apply Hpay; case_match; try apply Hpay; apply Hno.
Qed.

(** ** The action of the sender *)

Lemma due_locks_nonneg s : Forall (fun a => 0 <= a) (due_locks s).
Proof.
  unfold due_locks, due_of. apply Forall_forall. intros a (e & _ & Ha)%list_elem_of_omap. unfold lock_due, parse_lock_record in Ha.
  destruct (run_read read_lock_record e.2) as [[clock raw]|]; [|done]. unfold run_read in Ha.
  destruct (read_lock raw raw) as [[la r]|] eqn:E; [|done]. cbn in Ha. case_match; [|done]. injection Ha as <-.
  apply run_bind in E as (? & ? & _ & E). apply run_bind in E as (am & ? & Ea & E). apply run_bind in E as (? & ? & _ & E).
  apply run_bind in E as (? & ? & _ & E). injection E as <- _. cbn. by apply read_u64_range in Ea as [? _].
Qed.
Lemma total_nonneg l : Forall (fun a => 0 <= a) l -> 0 <= total l.
Proof. unfold total. induction 1; cbn; lia. Qed.

Definition top_face (f : face) : bool :=
  match f with
  | transfer src tgt => is_top_token src && is_top_token tgt
  | redeem_token_tgas a | redeem_token_disk a => is_top_token a
  | _ => true
  end.

Lemma transfer_source_ok src s U F :
  ctx_wf s -> has s -> bc_account (x_account s) <> sys_contract_zec_reward_addr -> burns t s = (U, F, 0) ->
  is_top_token src = true -> 0 < m_amount src <= TOTAL_ISSUANCE ->
  Ok (transfer_source t src) s (fun r s' => r = xret_success ->
    money s s' (total (due_locks s) - m_amount src) (unlock_gain s - m_amount src) /\
    burns t s' = (U, F, if bool_decide (get_target_addr (ct_tx tx) = black_hole_addr) then m_amount src else 0) /\ 0 <= funds s').
Proof.
  intros Hw Hh Hz Hb Ht Ha. unfold TOTAL_ISSUANCE, TOP_UNIT in Ha. unfold transfer_source. ok_tx Hh. destruct (Z.eqb_spec (m_amount src) 0); [lia|].
  eapply and_then_ok; [by apply unlock_all_token_ok|done|]. intros s1 Hw1 Hk1 D1. specialize (D1 eq_refl).
  unfold token_transfer_out. rewrite Ht. eapply and_then_ok.
  - apply top_token_transfer_out_ok; [done|by rewrite (kp_account _ _ Hk1)|lia..|]. pose proof (u64_range (m_amount src)) as [_ ?]. lia.
  - done.
  - intros s2 Hw2 Hk2 [(_ & Q2 & Hle)|(? & _)]; [|done]. rewrite !Z.add_0_r in Q2, Hle. rewrite i64_small in Hle by lia.
    assert (0 <= funds s2) as Hf2 by (rewrite (funds_money _ _ _ _ Q2 Hk2), i64_small; pose proof (i64_range (balance (x_account s1) + c_balance (x_change s1))); unfold funds in *; lia).
    assert (money s s2 (total (due_locks s) - m_amount src) (unlock_gain s - m_amount src)) as M by (eapply money_trans; [apply D1|apply Q2|apply cong_eq; lia..]).
    assert (burns t s2 = (U, F, 0)) as Eb by (by rewrite (delta_burns t _ _ _ _ Q2), (delta_burns t _ _ _ _ D1)).
    case_bool_decide; [|ok_ret; done]. assert (has s2) as Hh2 by (eapply has_keeps; [|exact Hk2]; by eapply has_keeps).
    eapply Ok_bind; [by apply (set_exec_ok t tx)|]. intros [] s3 Hw3 Hk3 [C3 E3]. ok_ret. intros _. split_and!.
    + eapply money_trans; [exact M|apply C3|apply cong_eq; lia..].
    + unfold burns in *. rewrite E3. cbn. injection Eb as -> -> ->. by rewrite keep_if_zero_new.
    + rewrite (funds_money _ _ _ _ (cl_money _ _ _ _ C3) Hk3), Z.add_0_r, i64_small; [done|apply i64_range].
Qed.

Lemma create_sub_account_source_ok src s :
  ctx_wf s -> has s -> bc_account (x_account s) <> sys_contract_zec_reward_addr ->
  Ok (create_sub_account_source t src) s (fun r s' => r = xret_success -> quiet s s' (- m_amount src) (- m_amount src)).
Proof.
  intros Hw Hh Hz. unfold create_sub_account_source. ok_tx Hh.
  destruct (account_check_reads XPORPERTY_SUB_ACCOUNT_KEY (get_target_addr (ct_tx tx)) MAX_SUB_ACCOUNT s) as [r0 Hr0].
  eapply (and_then_ok _ _ _ (fun _ s1 => s1 = s)); [by eapply Ok_reads|done|]. intros s1 Hw1 Hk1 ->.
  eapply and_then_ok.
  - apply top_token_transfer_out_ok; [done..|lia|lia|]. pose proof (u64_range (m_amount src)) as [_ ?]. lia.
  - done.
  - intros s2 Hw2 Hk2 [(_ & Q2 & _)|(? & _)]; [|done]. rewrite !Z.add_0_r in Q2. unfold set_sub_account.
    eapply Ok_bind; [apply (push_back_ok _ KDeque); auto|]. intros c s3 Hw3 Hk3 [-> Q3]. ok_ret. intros _. by eapply quiet_then.
Qed.

Lemma run_contract_source_ok src s :
  ctx_wf s -> bc_account (x_account s) <> sys_contract_zec_reward_addr ->
  Ok (run_contract_source src) s (fun r s' => r = xret_success -> exists b, quiet s s' b 0).
Proof.
  intros Hw Hz. unfold run_contract_source. case_match; [ok_ret; intros _; exists 0; apply quiet_refl|].
  eapply and_then_ok.
  - apply top_token_transfer_out_ok; [done..|lia|lia|]. pose proof (u64_range (m_amount src)) as [_ ?]. lia.
  - done.
  - intros s2 Hw2 Hk2 [(_ & Q2 & _)|(? & _)]; [|done]. rewrite !Z.add_0_r in Q2.
    ok_bind set_lock_balance_change_ok. intros [] s3 Hw3 Hk3 Q3. ok_ret. intros _. eexists.
    eapply quiet_trans; [exact Q2|exact Q3|reflexivity|apply cong_eq; lia].
Qed.

Definition vote_parses (f : face) : Prop :=
  match f with vote p | abolish_vote p => is_Some (parse_vote_info p) | _ => True end.
Definition creates_contract (f : face) : bool := match f with create_contract_account _ _ _ => true | _ => false end.
(** Transfers release due locks; this is what they make of more than one. *)
Definition lock_gain (f : face) (s : ectx) : Z := match f with transfer _ _ => unlock_gain s | _ => 0 end.

(** The sender's action: the amount leaves; a due lock may come in. *)
Lemma source_action_exec_ok f s U F :
  ctx_wf s -> has s -> bc_account (x_account s) <> sys_contract_zec_reward_addr -> burns t s = (U, F, 0) ->
  face_good (x_timer_height s) f -> top_face f = true -> vote_parses f -> creates_contract f = false ->
  Ok (source_action_exec t f) s (fun r s' => r = xret_success -> exists b, money s s' b (lock_gain f s - spent f) /\
    burns t s' = (U, F, self_burn tx f) /\
    (contract_face f = false -> exists x, 0 <= x <= total (due_locks s) /\ b = x - spent f) /\
    (lsum s' = lsum s \/ exists src tgt, f = transfer src tgt)).
Proof.
  intros Hw Hh Hz Hb Hg Htop Hv Hc. pose proof (total_nonneg _ (due_locks_nonneg s)) as Hd.
  assert (Ok (ret xret_success) s (fun r s' => r = xret_success -> exists b, money s s' b (0 - 0) /\ burns t s' = (U, F, 0) /\
    (false = false -> exists x, 0 <= x <= total (due_locks s) /\ b = x - 0) /\ (lsum s' = lsum s \/ exists src tgt, f = transfer src tgt))) as Hnone.
  { ok_ret. intros _. exists 0. split_and!; [by apply money_refl|done| |by left]. intros _. exists 0. lia. }
  destruct f; try done; cbn in Htop, Hg.
  - eapply Ok_mono; [by apply run_contract_source_ok|]. intros r s' _ _ Hr Hs. destruct (Hr Hs) as [b Q]. exists b. cbn [lock_gain spent self_burn].
    split_and!; [apply Q|by rewrite (delta_burns t _ _ _ _ Q)|done|left; apply Q].
  - apply andb_true_iff in Htop as [Htop _]. destruct Hg as (_ & _ & Hne). eapply Ok_mono; [by apply transfer_source_ok|]. intros r s' _ _ Hr Hs.
    destruct (Hr Hs) as (M & Eb & _). cbn [lock_gain spent self_burn]. eexists. split_and!; [exact M|done| |eauto].
    intros _. exists (total (due_locks s)). split; [lia|done].
  - eapply Ok_mono; [by apply create_sub_account_source_ok|]. intros r s' _ _ Hr Hs. specialize (Hr Hs) as Q. cbn [lock_gain spent self_burn].
    eexists. split_and!; [apply Q|by rewrite (delta_burns t _ _ _ _ Q)| |left; apply Q]. intros _. exists 0. lia.
  - cbn [source_action_exec]. unfold vote_source. destruct Hv as [n ->]. ok_read. ok_read. case_match; [by ok_ret|].
    ok_bind set_unvote_num_change_ok. intros [] s1 Hw1 Hk1 Q. ok_ret. intros _. exists 0.
    split_and!; [apply Q|by rewrite (delta_burns t _ _ _ _ Q)| |left; apply Q]. intros _. exists 0. cbn [spent]. lia.
Qed.

Lemma due_locks_calm s s' b w : calm s s' b w -> keeps s s' -> due_locks s' = due_locks s.
Proof.
  intros Hc Hk. unfold due_locks. rewrite (kp_timer _ _ Hk). f_equal.
  assert (forall x, map_value (strmap_get (ctx_np x) XPROPERTY_LOCK_TOKEN_KEY) = match locks x with Some (XStrmap m) => m | _ => [] end) as E.
  { intros x. unfold map_value, locks. pose proof (strmap_get_view (ctx_np x) XPROPERTY_LOCK_TOKEN_KEY) as Hv.
    destruct (strmap_get _ _) as [[l m]|]; cbn in Hv; destruct (np_view _ !! _) as [[]|]; simplify_eq; done. }
  rewrite !E. by rewrite (cl_locks _ _ _ _ Hc).
Qed.

(** The whole step at the sender. *)
Lemma exec_source_ok f s :
  ctx_wf s -> has s -> bc_account (x_account s) <> sys_contract_zec_reward_addr -> burns t s = (0, 0, 0) ->
  face_good (x_timer_height s) f -> top_face f = true -> vote_parses f -> creates_contract f = false ->
  Ok (exec_source t f) s (fun r s' => r.1 = xret_success ->
    let used := fs_used_deposit r.2 in exists b D x, (D = 0 \/ D = ct_deposit tx) /\ 0 <= used <= D /\
      money s s' b (lock_gain f s - service - spent f) /\ burns t s' = (used, service, self_burn tx f) /\
      (contract_face f = false -> 0 <= x <= total (due_locks s) /\ b = x - service - D - spent f) /\
      (lsum s' = lsum s \/ exists src tgt, f = transfer src tgt)).
Proof.
  intros Hw Hh Hz Hb Hg Htop Hv Hc. unfold exec_source.
  ok_bind source_service_fee_exec_ok. intros r s1 Hw1 Hk1 Hr1. ok_cases; [|by ok_ret]. destruct (Hr1 eq_refl) as (C1 & Eb1 & _). clear Hr1.
  assert (has s1) as Hh1 by (by eapply has_keeps). eapply Ok_bind; [by apply source_fee_exec_ok|].
  intros [r fs] s2 Hw2 Hk2 Hr2. cbn in Hr2. cbv iota beta. ok_cases; [|by ok_ret].
  destruct (Hr2 eq_refl) as (D & HD & C2 & Hu & Eb2). clear Hr2. assert (has s2) as Hh2 by (by eapply has_keeps).
  assert (keeps s s2) as Hk02 by (by etrans).
  assert (calm s s2 (- service - D) (- service)) as C02 by (eapply calm_trans; [exact C1|exact C2|apply cong_eq; lia..]).
  pose proof (due_locks_calm _ _ _ _ C02 Hk02) as El.
  eapply Ok_bind; [apply source_action_exec_ok; try done|].
  { by rewrite (kp_account _ _ Hk02). } { by rewrite (kp_timer _ _ Hk02). }
  intros r s3 Hw3 Hk3 Hr3. ok_ret. cbn. intros ->. destruct (Hr3 eq_refl) as (b & M3 & Eb3 & Hx & Hs). rewrite El in Hx.
  assert (lock_gain f s2 = lock_gain f s) as Eg by (unfold lock_gain, unlock_gain; by rewrite El). rewrite Eg in M3.
  destruct (contract_face f) eqn:Ef.
  - exists (- service - D + b), D, 0. split_and!; [done|lia..| |done|done|].
    + eapply money_trans; [apply C02|exact M3|apply cong_eq; lia..].
    + destruct Hs as [Hs|?]; [left|by right]. rewrite Hs. apply C02.
  - destruct (Hx eq_refl) as (x & Hx1 & ->). exists (x - service - D - spent f), D, x. split_and!; [done|lia..| |done|done|].
    + eapply money_trans; [apply C02|exact M3|apply cong_eq; lia..].
    + destruct Hs as [Hs|?]; [left|by right]. rewrite Hs. apply C02.
Qed.

(** ** The action of the receiver *)

Lemma check_owner_reads s : has s -> exists r, reads (check_owner t) r s.
Proof.
  intros Hh. destruct (get_tx_reads t tx s Hh) as (e & _ & Hr). unfold check_owner, check_parent. unfold reads in *.
  rewrite (bind_runs _ _ _ _ _ Hr). case_bool_decide; [by eexists|]. rewrite (bind_runs _ _ _ _ _ Hr).
  unfold get_parent_account, bind, gets, ret. repeat case_match; by eexists.
Qed.

Lemma pledge_target_ok a p s :
  ctx_wf s -> has s -> bc_account (x_account s) <> sys_contract_zec_reward_addr -> pledges p 1 ->
  Ok (pledge_target t a p) s (fun r s' => r = xret_success -> exists b, delta s s' b 0).
Proof.
  intros Hw Hh Hz Hp. unfold pledge_target. destruct (check_owner_reads s Hh) as [r0 Hr0].
  eapply (and_then_ok _ _ _ (fun _ s1 => s1 = s)); [by eapply Ok_reads|done|]. intros s1 _ _ ->.
  eapply and_then_ok; [by apply Hp|done|]. intros s1 Hw1 Hk1 [[_ Q1]|[? _]]; [|done].
  eapply Ok_mono.
  - apply top_token_transfer_out_ok; [done|by rewrite (kp_account _ _ Hk1)|lia..|]. pose proof (u64_range (m_amount a)) as [_ ?]. lia.
  - intros r s2 _ _ [(_ & Q2 & _)|(? & _)]; [|done]. intros _. eexists. eapply delta_trans; [apply Q1|apply Q2|reflexivity|apply cong_eq; lia].
Qed.

Lemma redeem_target_ok a p ty s :
  ctx_wf s -> has s -> is_u64 (m_amount a) -> is_top_token a = true -> pledges p (-1) ->
  Ok (redeem_target t a p ty) s (fun r s' => r = xret_success -> exists b, delta s s' b 0).
Proof.
  intros Hw Hh Ha Ht Hp. unfold redeem_target. ok_tx Hh. destruct (check_owner_reads s Hh) as [r0 Hr0].
  eapply (and_then_ok _ _ _ (fun _ s1 => s1 = s)); [by eapply Ok_reads|done|]. intros s1 _ _ ->.
  eapply and_then_ok; [by apply Hp|done|]. intros s1 Hw1 Hk1 [[_ Q1]|[? _]]; [|done].
  unfold token_transfer_in. rewrite Ht. ok_bind top_token_transfer_in_ok. intros r s2 Hw2 Hk2 [_ [b D2]].
  eapply Ok_mono; [apply lock_token_ok; [done|apply redeem_record_ok, Hw2]|].
  intros r' s3 _ _ [[_ D3]|[? _]]; [|done]. intros _. eexists.
  eapply delta_trans; [eapply delta_trans; [apply Q1|exact D2|reflexivity..]|exact D3|reflexivity|apply cong_eq; lia].
Qed.

Lemma pledge_vote_target_ok lt n d s :
  ctx_wf s -> bc_account (x_account s) <> sys_contract_zec_reward_addr -> u16 d <> 0 ->
  Ok (pledge_vote_target lt n d) s (fun r s' => r = xret_success -> exists b, delta s s' b 0).
Proof.
  intros Hw Hz Hd. unfold pledge_vote_target. eapply and_then_ok.
  - apply top_token_transfer_out_ok; [done..|lia|lia|]. pose proof (u64_range lt) as [_ ?]. lia.
  - done.
  - intros s1 Hw1 Hk1 [(_ & Q1 & _)|(? & _)]; [|done]. ok_bind set_vote_balance_change_ok. intros [] s2 Hw2 Hk2 Q2.
    ok_bind set_unvote_num_change_ok. intros [] s3 Hw3 Hk3 Q3. eapply Ok_mono; [by apply update_pledge_vote_property_ok|].
    intros r s4 _ _ Q4 _. eexists. apply qt_delta. eapply quiet_then; [|exact Q4]. eapply quiet_then; [|exact Q3].
    eapply quiet_trans; [exact Q1|exact Q2|reflexivity|apply cong_eq; lia].
Qed.

Lemma redeem_vote_target_ok n s :
  ctx_wf s -> 0 <= n -> Ok (redeem_vote_target n) s (fun r s' => r = xret_success -> exists b, delta s s' b 0).
Proof.
  intros Hw Hn. unfold redeem_vote_target. ok_read. case_match; [by ok_ret|]. ok_bind merge_pledge_vote_property_ok.
  intros r s1 Hw1 Hk1 [_ Q1]. eapply Ok_mono; [by apply redeem_pledge_vote_property_ok|]. intros r' s2 _ _ [b D2] _. exists b.
  eapply delta_trans; [apply Q1|exact D2|apply cong_eq; lia..].
Qed.

(** The kinds whose receiving step calls the contract engine. *)
Definition target_runs_vm (f : face) : bool :=
  match f with create_contract_account _ _ _ | run_contract _ _ _ | vote _ | abolish_vote _ => true | _ => false end.
(** An account that becomes a sub account has nothing locked. *)
Definition nothing_locked (f : face) (s : ectx) : Prop := match f with create_sub_account _ _ => lsum s = 0 | _ => True end.

Lemma target_action_exec_ok f fs s :
  ctx_wf s -> has s -> bc_account (x_account s) <> sys_contract_zec_reward_addr -> face_good (x_timer_height s) f ->
  top_face f = true -> target_runs_vm f = false -> nothing_locked f s ->
  Ok (target_action_exec t f fs) s (fun r s' => r = xret_success -> exists b, delta s s' b (gained f)).
Proof.
  intros Hw Hh Hz Hg Ht Hv Hl. unfold target_action_exec. ok_tx Hh. destruct f; try done; cbn in Hg, Ht, Hl; cbn [gained].
  - apply andb_true_iff in Ht as [_ Ht]. unfold token_transfer_in. rewrite Ht.
    eapply Ok_mono; [apply top_token_transfer_in_ok; [done|]; destruct Hg as (? & -> & _); done|]. by intros r s' _ _ [_ ?] _.
  - eapply Ok_mono; [by apply account_set_keys_ok|]. intros r s' _ _ D _. exists 0. exact D.
  - eapply Ok_mono; [by apply lock_token_ok|]. intros r s' _ _ [[_ D]|[? _]]; [|done]. intros _. eexists. exact D.
  - by apply unlock_token_ok.
  - eapply Ok_mono; [by apply account_alias_name_set_ok|]. intros r s' _ _ D _. exists 0. exact D.
  - destruct Hg as (Ha & -> & Hm). eapply Ok_mono; [apply set_parent_ok; try done; apply Hcf|]. intros r s' _ _ [Hr _] Hs. exact (Hr Hs).
  - eapply pledge_target_ok; [done..|apply set_pledge_token_tgas_ok].
  - eapply redeem_target_ok; [done..|apply redeem_pledge_token_tgas_ok].
  - eapply pledge_target_ok; [done..|apply set_pledge_token_disk_ok].
  - eapply redeem_target_ok; [done..|apply redeem_pledge_token_disk_ok].
  - by apply pledge_vote_target_ok.
  - by apply redeem_vote_target_ok.
Qed.
End Steps.
