(* ===== verification/ExecProps.v ===== *)
(** * Execution neither loses nor makes money

    A transaction that runs to success changes what belongs to its account by
    exactly the amount it carries in or out, less what its execution state
    records as burnt; and execution always returns. *)

From stdpp Require Import prelude strings gmap.
From Stdlib Require Import ZArith Lia.
From S2P Require Import Prelude Stream StdMap AccountAddr TxData StdNum NativeProp Action ConsTx ChainState AccountCtx TxExec UnitMaker ExecInv.
From S2P Require Import ExecOps ExecSteps.
Open Scope Z_scope.
Open Scope money_scope.

Section Conserve.
Context `{ExecConfig} `{ExecBase} `{TxEnv} `{XStringUtl} `{ExecWorld}.

(** The amount of a contract call, which the caller gives up when the call did not fail. *)
Definition given_up (tx : xcons_tx) (f : face) : Z :=
  match f with
  | create_contract_account src _ _ | run_contract src _ _ =>
      if is_self_tx (ct_tx tx) || is_sys_contract_address (get_source_addr (ct_tx tx))
         || (get_last_action_exec_status tx =? enum_xunit_tx_exec_status_fail) then 0 else m_amount src
  | _ => 0
  end.

(** What a step takes from and brings to the account. *)
Definition debit (tx : xcons_tx) (f : face) : Z :=
  (if is_origin_tx (ct_tx tx) then spent f - self_burn tx f else 0) + (if is_confirm_tx (ct_tx tx) then given_up tx f else 0).
Definition credit (tx : xcons_tx) (f : face) : Z :=
  if is_recv_tx (ct_tx tx) || (is_self_tx (ct_tx tx) && negb (is_black_hole_address (get_target_addr (ct_tx tx)))) then gained f else 0.
(** What a step burns, as its unit will count it ([get_burn_balance_change]). *)
Definition burnt (tx : xcons_tx) (e : exec_state) : Z :=
  (if is_self_tx (ct_tx tx) || is_confirm_tx (ct_tx tx) then es_used_deposit e else 0) + es_beacon_service_fee e + es_self_burn_balance e.

(** What a transfer makes of due locks when it releases more than one. *)
Definition minted (tx : xcons_tx) (f : face) (s : ectx) : Z := if is_origin_tx (ct_tx tx) then lock_gain f s else 0.

(** The step calls the contract engine. *)
Definition calls_vm (tx : xcons_tx) (f : face) : bool :=
  ((is_self_tx (ct_tx tx) || is_recv_tx (ct_tx tx)) && target_runs_vm f) || (is_origin_tx (ct_tx tx) && creates_contract f).

(** A checked transaction [tx] of kind [f] about to run in the context [s]. *)
Record about_to_run (s : ectx) (t : loc) (tx : xcons_tx) (f : face) : Prop := {
  ar_tx : x_txs s !! t = Some tx;
  ar_new : ct_exec tx = exec_state_init;
  ar_check : tx_check tx = Some (inr f);
  ar_deposit : 0 <= ct_deposit tx < 2 ^ 32;
  ar_param : str_len (get_action_param (ct_target_action tx)) < 2 ^ 32;
  ar_account : bc_account (x_account s) <> sys_contract_zec_reward_addr;
  ar_vm : calls_vm tx f = false;
  ar_votes : vote_parses f;
  ar_top : top_face f = true;
  ar_sub : is_self_tx (ct_tx tx) || is_recv_tx (ct_tx tx) = true -> nothing_locked f s;
  (* the money for a transaction to oneself is there *)
  ar_self : is_self_tx (ct_tx tx) = true ->
    service tx + ct_deposit tx + spent f <= funds s /\ funds s + total (due_locks s) < 2 ^ 63 - 2 ^ 32;
  (* the receipt does not report more than the deposit *)
  ar_confirm : is_confirm_tx (ct_tx tx) = true ->
    0 <= funds s < 2 ^ 63 - 2 ^ 32 /\ 0 <= get_last_action_used_deposit tx <= ct_deposit tx
}.

Ltac ok_tx Hh :=
  let e := fresh "e" in let He := fresh "He" in let Hr := fresh "Hr" in
  destruct (get_tx_reads _ _ _ Hh) as (e & He & Hr); eapply Ok_read_bind; [exact Hr | cbv beta]; clear Hr;
  cbn [with_exec ct_tx ct_deposit ct_tx_len ct_source_action ct_target_action ct_receipt].

Section Run.
Context (t : loc) (tx : xcons_tx) (f : face) (Hcf : config_ok) (Hdep : 0 <= ct_deposit tx < 2 ^ 32).
Abbreviation has := (has t tx).

(** At the receiver, or the second half of a transaction to oneself. *)
Lemma exec_target_ok fs s :
  ctx_wf s -> has s -> bc_account (x_account s) <> sys_contract_zec_reward_addr -> face_good (x_timer_height s) f ->
  top_face f = true -> target_runs_vm f = false -> nothing_locked f s ->
  (if is_self_tx (ct_tx tx) then 0 <= fs_used_deposit fs < 2 ^ 32 /\ fs_used_deposit fs <= i64 (funds s + ct_deposit tx) else bd (burns t s) = 0) ->
  Ok (exec_target t f fs) s (fun r s' => r = xret_success -> exists b,
    money s s' b ((if is_self_tx (ct_tx tx) then - fs_used_deposit fs else 0) +
      (if is_self_tx (ct_tx tx) && is_black_hole_address (get_target_addr (ct_tx tx)) then 0 else gained f)) /\
    (is_self_tx (ct_tx tx) = true -> burns t s' = burns t s) /\ (burns t s').1.2 = (burns t s).1.2 /\ (burns t s').2 = (burns t s).2).
Proof.
  intros Hw Hh Hz Hg Ht Hv Hn Hu. unfold exec_target. ok_tx Hh.
  assert (contract_face f = false) as Hcfc by (by destruct f).
  eapply (and_then_ok _ _ _ (fun r s1 => r = xret_success ->
     calm s s1 (if is_self_tx (ct_tx tx) then ct_deposit tx - fs_used_deposit fs else 0) (if is_self_tx (ct_tx tx) then - fs_used_deposit fs else 0) /\
     (is_self_tx (ct_tx tx) = true -> burns t s1 = burns t s) /\ (burns t s1).1.2 = (burns t s).1.2 /\ (burns t s1).2 = (burns t s).2)).
  - unfold target_fee_exec. ok_tx Hh. rewrite Hcfc. destruct (is_self_tx (ct_tx tx)).
    + eapply Ok_mono; [by apply (update_fee_recv_self_ok t tx); destruct Hu|]. intros r s1 _ _ [_ Q] _.
      split; [by apply quiet_calm|]. by rewrite (delta_burns t _ _ _ _ Q).
    + eapply Ok_mono; [by apply (update_fee_recv_ok t tx)|]. intros r s1 _ _ (_ & C & E1 & E2) _. done.
  - done.
  - intros s1 Hw1 Hk1 Hp. destruct (Hp eq_refl) as (C1 & E1 & E2 & E3). clear Hp.
    destruct (is_self_tx (ct_tx tx) && is_black_hole_address (get_target_addr (ct_tx tx))).
    + ok_ret. intros _. eexists. split_and!; [|done..]. rewrite Z.add_0_r. apply C1.
    + assert (has s1) as Hh1 by (by eapply has_keeps). eapply Ok_mono; [eapply target_action_exec_ok; try done|].
      * by rewrite (kp_account _ _ Hk1).
      * by rewrite (kp_timer _ _ Hk1).
      * unfold nothing_locked in *. destruct f; try done. by rewrite (cl_lsum _ _ _ _ C1).
      * intros r s2 _ _ Hr Hs. destruct (Hr Hs) as [b D2]. eexists. split.
        { eapply money_trans; [apply C1|apply D2|reflexivity..]. }
        rewrite (delta_burns t _ _ _ _ D2). done.
Qed.

(** Back at the sender. *)
Lemma exec_confirm_ok s :
  ctx_wf s -> has s -> bc_account (x_account s) <> sys_contract_zec_reward_addr -> face_good (x_timer_height s) f -> vote_parses f ->
  burns t s = (0, 0, 0) -> 0 <= funds s < 2 ^ 63 - 2 ^ 32 -> 0 <= get_last_action_used_deposit tx <= ct_deposit tx ->
  Ok (exec_confirm t f) s (fun r s' => r = xret_success -> exists b,
    money s s' b (- bd (burns t s') - given_up tx f) /\ (burns t s').1.2 = 0 /\ (burns t s').2 = 0).
Proof.
  intros Hw Hh Hz Hg Hv Hb Hf Hu. unfold exec_confirm.
  eapply (and_then_ok _ _ _ (fun r s1 => r = xret_success -> exists b,
    money s s1 b (- bd (burns t s1) - given_up tx f) /\ (burns t s1).1.2 = 0 /\ (burns t s1).2 = 0)).
  - unfold source_confirm_fee_exec. ok_tx Hh.
    assert (given_up tx f = 0 -> Ok (update_fee_confirm t) s (fun r s1 => r = xret_success -> exists b,
      money s s1 b (- bd (burns t s1) - given_up tx f) /\ (burns t s1).1.2 = 0 /\ (burns t s1).2 = 0)) as Hplain.
    { intros Hgu. eapply Ok_mono; [apply (update_fee_confirm_ok t tx Hdep); try done; by rewrite Hb|].
      intros r s1 _ _ (_ & C & Eb) _. rewrite Hb in Eb. eexists. rewrite Eb, Hgu. split; [|done]. unfold bd. cbn. rewrite Z.sub_0_r. apply C. }
    assert (forall src, is_u64 (m_amount src) -> given_up tx f = (if is_self_tx (ct_tx tx) || is_sys_contract_address (get_source_addr (ct_tx tx))
         || (get_last_action_exec_status tx =? enum_xunit_tx_exec_status_fail) then 0 else m_amount src) ->
      Ok (if is_self_tx (ct_tx tx) || is_sys_contract_address (get_source_addr (ct_tx tx)) then ret xret_success
          else update_contract_fee_confirm t (m_amount src)) s (fun r s1 => r = xret_success -> exists b,
      money s s1 b (- bd (burns t s1) - given_up tx f) /\ (burns t s1).1.2 = 0 /\ (burns t s1).2 = 0)) as Hcontract.
    { intros src Ha ->. destruct (is_self_tx (ct_tx tx) || is_sys_contract_address (get_source_addr (ct_tx tx))).
      - ok_ret. intros _. exists 0. rewrite Hb. split; [|done]. by apply money_refl.
      - eapply Ok_mono; [apply (update_contract_fee_confirm_ok t tx Hdep (cf_ratio Hcf)); try done; by rewrite Hb|].
        intros r s1 _ _ (b & M & E1 & E2) _. rewrite Hb in E1, E2. cbn in E1, E2. exists b. split; [|done]. cbn [orb]. exact M. }
    destruct f; try (by apply Hplain); by apply Hcontract.
  - done.
  - intros s1 Hw1 Hk1 Hp. destruct (Hp eq_refl) as (b & M1 & E1 & E2). clear Hp.
    assert (has s1) as Hh1 by (by eapply has_keeps). unfold source_confirm_action_exec. ok_tx Hh1.
    assert (Ok (ret xret_success) s1 (fun r s' => r = xret_success -> exists b,
      money s s' b (- bd (burns t s') - given_up tx f) /\ (burns t s').1.2 = 0 /\ (burns t s').2 = 0)) as Hnone by (ok_ret; eauto).
    assert (forall n, Ok (set_unvote_num_change n ;;; ret xret_success) s1 (fun r s' => r = xret_success -> exists b,
      money s s' b (- bd (burns t s') - given_up tx f) /\ (burns t s').1.2 = 0 /\ (burns t s').2 = 0)) as Hvote.
    { intros n. ok_bind set_unvote_num_change_ok. intros [] s2 Hw2 Hk2 Q2. ok_ret. intros _. exists b.
      rewrite (delta_burns t _ _ _ _ Q2). split; [|done]. eapply money_trans; [exact M1|apply Q2|apply cong_eq; lia..]. }
    destruct f; try done.
    + destruct Hv as [n ->]. ok_read. case_match; [apply Hvote|]. ok_read. done.
    + case_match; [done|]. destruct Hv as [n ->]. ok_read. apply Hvote.
Qed.
End Run.

Lemma subtype_cases (x : xtransaction) :
  (is_self_tx x = true /\ is_origin_tx x = true /\ is_recv_tx x = false /\ is_confirm_tx x = false) \/
  (is_self_tx x = false /\ is_origin_tx x = true /\ is_recv_tx x = false /\ is_confirm_tx x = false) \/
  (is_self_tx x = false /\ is_origin_tx x = false /\ is_recv_tx x = true /\ is_confirm_tx x = false) \/
  (is_self_tx x = false /\ is_origin_tx x = false /\ is_recv_tx x = false /\ is_confirm_tx x = true) \/
  (is_self_tx x = false /\ is_origin_tx x = false /\ is_recv_tx x = false /\ is_confirm_tx x = false).
Proof.
  unfold is_origin_tx, is_self_tx, is_recv_tx, is_confirm_tx, is_send_tx.
  unfold enum_transaction_subtype_self, enum_transaction_subtype_send, enum_transaction_subtype_recv, enum_transaction_subtype_confirm.
  repeat match goal with |- context [?a =? ?b] => destruct (Z.eqb_spec a b) end; try lia;
    repeat first [left; by split_and! | right | by split_and!].
Qed.

(** Execution returns, keeps the context well-formed, and on success moves
    exactly what the kind of the transaction says. *)
Lemma exec_ok s t tx f :
  config_ok -> ctx_wf s -> about_to_run s t tx f ->
  Ok (exec t) s (fun r s' => r = xret_success ->
    worth s' ≡₆₄ worth s + credit tx f - debit tx f - burnt tx (exec_of t s') + minted tx f s).
Proof.
  intros Hcf Hw [Etx Enew Ec Hdep Hpar Hz Hvm Hv Ht Hsub Hself Hconf].
  assert (has t tx s) as Hh by (exists (ct_exec tx); rewrite Etx; by destruct tx).
  assert (burns t s = (0, 0, 0)) as Hb by (unfold burns, exec_of; by rewrite Etx, Enew).
  pose proof (check_face_good (x_timer_height s) tx f (cw_timer _ Hw) Hpar Ec) as Hg.
  unfold exec. eapply (Ok_read_bind _ _ tx); [unfold reads, get_tx; by rewrite Etx|]. cbv beta. rewrite Ec. ok_read.
  unfold exec_steps. ok_tx Hh. unfold credit, debit, burnt, minted, calls_vm in *.
  destruct (subtype_cases (ct_tx tx)) as [E|[E|[E|[E|E]]]]; destruct E as (Es & Eo & Er & Ef);
    rewrite Es, Eo, Er, ?Ef in *; cbn [andb orb] in *.
  - apply orb_false_iff in Hvm as [Hvm Hcc]. eapply Ok_bind; [by apply (exec_source_ok t tx Hcf Hdep); auto|].
    intros [r fs] s1 Hw1 Hk1 Hr1. cbn in Hr1. cbv iota beta. ok_cases; [|by ok_ret].
    destruct (Hr1 eq_refl) as (b & D & x & HD & Hu & M1 & Eb1 & Hx & Hl). clear Hr1.
    assert (contract_face f = false) as Hcf' by (by destruct f). destruct (Hx Hcf') as [Hx1 ->]. clear Hx.
    destruct (Hself eq_refl) as [Hs1 Hs2]. pose proof (service_range tx Hcf) as Hsv.
    assert (0 <= spent f) as Hsp by (destruct f; cbn in *; try lia; destruct Hg as ([? ?] & _); lia).
    assert (has t tx s1) as Hh1 by (by eapply has_keeps).
    assert (funds s1 = funds s + (x - service tx - D - spent f)) as Ef1.
    { rewrite (funds_money _ _ _ _ M1 Hk1). apply i64_small. destruct HD as [-> | ->]; lia. }
    eapply and_then_ok.
    + eapply (exec_target_ok t tx f Hcf); try done.
      * by rewrite (kp_account _ _ Hk1).
      * by rewrite (kp_timer _ _ Hk1).
      * specialize (Hsub eq_refl). destruct f; try done. cbn in *. destruct Hl as [->|(? & ? & ?)]; done.
      * rewrite Es. split; [lia|]. rewrite Ef1, i64_small; destruct HD as [-> | ->]; lia.
    + done.
    + intros s2 Hw2 Hk2 Hr2. destruct (Hr2 eq_refl) as (b & M2 & E2 & _). rewrite Es in *. specialize (E2 eq_refl). ok_ret. intros _.
      rewrite (mn_worth _ _ _ _ M2), (mn_worth _ _ _ _ M1). unfold burns in E2, Eb1. rewrite Eb1 in E2. injection E2 as -> -> ->.
      apply cong_eq. cbn [andb]. destruct (is_black_hole_address (get_target_addr (ct_tx tx))); cbn [negb]; lia.
  - eapply Ok_bind; [by apply (exec_source_ok t tx Hcf Hdep); auto|].
    intros [r fs] s1 Hw1 Hk1 Hr1. cbn in Hr1. cbv iota beta. ok_cases; [|by ok_ret].
    destruct (Hr1 eq_refl) as (b & D & x & _ & _ & M1 & Eb1 & _). unfold and_then. ok_read. ok_ret. intros _.
    rewrite (mn_worth _ _ _ _ M1). unfold burns in Eb1. injection Eb1 as _ -> ->. apply cong_eq. lia.
  - ok_read. eapply and_then_ok.
    + eapply (exec_target_ok t tx f Hcf); try done; [by destruct f|by apply Hsub|by rewrite Es, Hb].
    + done.
    + intros s1 Hw1 Hk1 Hr1. destruct (Hr1 eq_refl) as (b & M1 & _ & E1 & E2). rewrite Es in M1. ok_ret. intros _.
      rewrite Hb in E1, E2. unfold burns in E1, E2. cbn in E1, E2. rewrite (mn_worth _ _ _ _ M1), E1, E2. apply cong_eq. cbn [andb]. lia.
  - ok_read. unfold and_then at 1. ok_read. destruct (Hconf eq_refl) as [Hf Hu].
    eapply Ok_mono; [by apply (exec_confirm_ok t tx f Hcf Hdep)|]. intros r s1 _ _ Hr1 Hs. destruct (Hr1 Hs) as (b & M1 & E1 & E2).
    unfold burns, bd in M1, E1, E2. cbn in M1, E1, E2. rewrite (mn_worth _ _ _ _ M1), E1, E2. apply cong_eq. lia.
  - ok_read. unfold and_then. ok_read. ok_ret. intros _. unfold exec_of. rewrite Etx, Enew. cbn. apply cong_eq. lia.
Qed.

(** Committing a change of a balance the code takes to be positive does not wrap. *)
Lemma funds_committed s : 0 <= funds s -> u64 (balance (x_account s) + c_balance (x_change s)) = funds s.
Proof.
  intros Hf. unfold funds in *. pose proof (i64_range (balance (x_account s) + c_balance (x_change s))).
  rewrite <- u64_i64. apply u64_small. split; lia.
Qed.

Lemma transfer_ok s t tx src tgt :
  config_ok -> ctx_wf s -> about_to_run s t tx (transfer src tgt) -> is_send_tx (ct_tx tx) = true ->
  Ok (exec t) s (fun r s' => r = xret_success -> 0 <= funds s').
Proof.
  intros Hcf Hw [Etx Enew Ec Hdep Hpar Hz Hvm Hv Ht Hsub Hself Hconf] Hsend.
  assert (has t tx s) as Hh by (exists (ct_exec tx); rewrite Etx; by destruct tx).
  assert (burns t s = (0, 0, 0)) as Hb by (unfold burns, exec_of; by rewrite Etx, Enew).
  pose proof (check_face_good (x_timer_height s) tx _ (cw_timer _ Hw) Hpar Ec) as (_ & _ & Ha).
  unfold exec. eapply (Ok_read_bind _ _ tx); [unfold reads, get_tx; by rewrite Etx|]. cbv beta. rewrite Ec. ok_read.
  unfold exec_steps. ok_tx Hh. unfold is_origin_tx. rewrite Hsend. cbn [orb].
  destruct (subtype_cases (ct_tx tx)) as [E|[E|[E|[E|E]]]]; destruct E as (Es & Eo & Er & Ef); unfold is_origin_tx in Eo; rewrite Hsend in Eo; try done.
  { exfalso. unfold is_self_tx, is_send_tx in *. rewrite Z.eqb_eq in *. rewrite Es in Hsend. done. }
  rewrite Es, Er, Ef. cbn [orb]. eapply (Ok_bind _ _ _ (fun r s' => r.1 = xret_success -> 0 <= funds s')).
  - unfold exec_source. ok_bind source_service_fee_exec_ok. intros r s1 Hw1 Hk1 Hr1. ok_cases; [|by ok_ret].
    destruct (Hr1 eq_refl) as (C1 & Eb1 & _). assert (has t tx s1) as Hh1 by (by eapply has_keeps).
    eapply Ok_bind; [by apply (source_fee_exec_ok t tx Hcf Hdep)|]. intros [r fs] s2 Hw2 Hk2 Hr2. cbn in Hr2. cbv iota beta. ok_cases; [|by ok_ret].
    destruct (Hr2 eq_refl) as (D & HD & C2 & Hu & Eb2). assert (has t tx s2) as Hh2 by (by eapply has_keeps).
    eapply Ok_bind.
    + apply (transfer_source_ok t tx); try done; [by rewrite (kp_account _ _ Hk2), (kp_account _ _ Hk1)|]. by apply andb_true_iff in Ht as [? _].
    + intros r s3 Hw3 Hk3 Hr3. ok_ret. intros Hr. by apply Hr3.
  - intros [r fs] s1 Hw1 Hk1 Hr1. cbn in Hr1. cbv iota beta. ok_cases; [|by ok_ret]. unfold and_then. ok_read. ok_ret. done.
Qed.
End Conserve.


(** C6. A transfer of the TOP token ([about_to_run]: checked, not executed before,
    from any account but the reward contract's) that succeeds at the sender,
    wherever it stands in a batch and whatever the transactions before it did,
    leaves a balance that is below 2^63 when it is committed: the sender is not
    overdrawn by it, and the balance does not wrap around.  Of other tokens and
    other kinds of transactions [unpaid_deposit_wraps_balance] shows the
    contrary. *)
Theorem transfer_never_overdraws `{ExecConfig} `{ExecBase} `{XStringUtl} `{ExecWorld} s t tx src tgt :
  config_ok -> ctx_wf s -> about_to_run s t tx (transfer src tgt) -> is_send_tx (ct_tx tx) = true ->
  exists r s', exec t s = Some (r, s') /\
    (r = xret_success -> u64 (balance (x_account s') + c_balance (x_change s')) < 2 ^ 63).
Proof.
  intros Hcf Hw Ha Hs. destruct (Keeps_defined _ _ _ _ _ id (transfer_ok s t tx src tgt Hcf Hw Ha Hs)) as (r & s' & E & _ & _ & Hr).
  exists r, s'. split; [done|]. intros Hok. specialize (Hr Hok). rewrite funds_committed by done. apply i64_range.
Qed.

(** C38. The sender's deposit is checked against the balance the account had
    before the batch, not against what the batch and the transaction itself have
    left of it: whenever less than the deposit is left and the fee step answers
    success all the same, the committed balance held the amount and the deposit
    and the balance the account gets is 2^63 or more: it has wrapped around.  No
    kind of transaction and no token is excluded. *)
Theorem unpaid_deposit_wraps_balance `{ExecConfig} `{ExecBase} `{XStringUtl} `{ExecWorld} s t tx amount is_contract :
  config_ok -> ctx_wf s -> x_txs s !! t = Some tx -> es_used_deposit (ct_exec tx) = 0 -> 0 <= ct_deposit tx < 2 ^ 32 ->
  0 <= funds s < ct_deposit tx ->
  exists r s', update_tgas_disk_sender t amount is_contract s = Some (r, s') /\
    (r.1 = xret_success -> amount + ct_deposit tx <= balance (x_account s) /\
       2 ^ 63 <= u64 (balance (x_account s') + c_balance (x_change s'))).
Proof.
  intros Hcf Hw Ht Hz Hdep Hf.
  assert (has t tx s) as Hh by (exists (ct_exec tx); rewrite Ht; by destruct tx).
  assert (bd (burns t s) = 0) as Hb by (unfold bd, burns, exec_of; by rewrite Ht).
  destruct (Keeps_defined _ _ _ _ _ id (update_tgas_disk_sender_ok t tx Hdep (cf_ratio Hcf) amount is_contract s Hw Hh Hb)) as (r & s' & E & _ & Hk & Hr).
  exists r, s'. split; [done|]. intros Hok. destruct (Hr Hok) as (Hc & _ & _ & Hle). split; [done|].
  pose proof (funds_money s s' _ _ (cl_money _ _ _ _ Hc) Hk) as Ef.
  rewrite (i64_small (funds s + - ct_deposit tx)) in Ef by lia.
  unfold funds in Ef at 1. rewrite <- u64_i64, Ef. unfold u64. rewrite <- (Z.mod_add _ 1) by done. rewrite Z.mod_small by lia. lia.
Qed.

(** * From a stored account to the next one

    The context a unit maker starts from is well-formed when the stored account
    is, and a unit of one transaction moves exactly the transaction's amount
    between the accounts: what is burnt is counted. *)

(** ** Loading properties *)

Lemma load_objs (m : gmap string xdataunit) n i :
  m_objs (load_native m).2 !! n = Some i <-> exists v, map_to_list m !! i = Some (n, v).
Proof.
  cbn. set (l := map_to_list m). assert (NoDup (imap (fun i (kv : string * xdataunit) => (kv.1, i)) l).*1) as Hn.
  { replace ((imap _ l).*1) with (l.*1); [apply NoDup_fst_map_to_list|]. apply list_eq. intros k.
    rewrite !list_lookup_fmap, list_lookup_imap. by destruct (l !! k). }
  rewrite <- elem_of_list_to_map by done. rewrite elem_of_lookup_imap. split.
  - intros (j & [n' v] & [= -> ->] & Hl). eauto.
  - intros [v Hv]. exists i, (n, v). done.
Qed.

Lemma load_native_ok (m : gmap string xdataunit) : np_wf (load_native m) /\ np_view (load_native m) = m.
Proof.
  split.
  - split.
    + intros n i [v Hv]%load_objs. cbn. rewrite length_fmap. by eapply lookup_lt_Some.
    + intros n1 n2 i [v1 H1]%load_objs [v2 H2]%load_objs. congruence.
  - apply map_eq. intros n. rewrite np_view_lookup. destruct (m_objs (load_native m).2 !! n) as [i|] eqn:E.
    + apply load_objs in E as [v Hv]. cbn. rewrite list_lookup_fmap, Hv. cbn. symmetry. by eapply elem_of_map_to_list, list_elem_of_lookup_2.
    + cbn. destruct (m !! n) as [v|] eqn:Ev; [|done]. exfalso. apply elem_of_map_to_list, list_elem_of_lookup in Ev as [i Hi].
      assert (m_objs (load_native m).2 !! n = Some i) as E' by (apply load_objs; eauto). congruence.
Qed.

Lemma alter_same {A} (f : A -> A) t (l : list A) : (forall x, f x = x) -> alter f t l = l.
Proof. intros Hf. revert t. induction l as [|x l IH]; intros [|t]; cbn; [done..|by rewrite Hf|]. f_equal. apply IH. Qed.

Section Unit.
Context `{ExecConfig} `{ExecBase} `{TxEnv} `{XStringUtl} `{ExecWorld}.

(** The context of one call of the unit maker over the account [im]. *)
Definition start (address : string) (im : account_image) (txs : list xcons_tx) (clock : Z) (seed : string) (now locked : Z) : ectx :=
  set_context_para clock seed now locked (account_context address (Some im) txs).

Lemma start_ctx_wf address im txs clock seed now locked :
  props_ok (ai_native im) -> is_u64 clock -> is_Some (get_token_price locked) -> ctx_wf (start address im txs clock seed now locked).
Proof.
  intros Hp Hc Hl. destruct (load_native_ok (ai_native im)) as [Hw Hv]. unfold start, account_context.
  destruct (load_native (ai_native im)) as [h p]. cbn.
  assert (np_view (h, clear_dirty p) = ai_native im) as Hv' by (rewrite <- Hv; done).
  split; cbn; try done.
  - unfold ctx_np. cbn. destruct Hw. by split.
  - intros n1 n2 l. apply Hw.
  - unfold ctx_np. cbn. by rewrite Hv'.
  - unfold acct_np. cbn. by rewrite Hv.
  - apply map_empty_subseteq.
Qed.

Lemma start_view address im txs clock seed now locked :
  np_view (ctx_np (start address im txs clock seed now locked)) = ai_native im.
Proof.
  destruct (load_native_ok (ai_native im)) as [_ Hv]. unfold start, account_context, ctx_np.
  destruct (load_native (ai_native im)) as [h p]. cbn. rewrite <- Hv. done.
Qed.
Lemma start_fields address im txs clock seed now locked :
  let c := start address im txs clock seed now locked in
  x_change c = changes_zero /\ x_account c = ai_chain im /\ x_contract_txs c = [] /\ m_modify_objs (x_native c) = ∅ /\
  x_txs c = txs /\ x_timer_height c = clock.
Proof. unfold start, account_context. destruct (load_native (ai_native im)) as [h p]. done. Qed.

(** ** All that belongs to an account *)

Definition assets (im : account_image) : Z :=
  let m := bc_state (ai_chain im) in
  ms_balance m + ms_burn_balance m + ms_pledge_tgas m + ms_pledge_disk m + ms_pledge_vote m + ms_lock_balance m
  + counter_in (ai_native im) XPROPERTY_LOCK_TOKEN_SUM_KEY.

Definition sum_of (c : changes) : Z := c_balance c + c_lock_balance c + c_tgas c + c_disk c + c_vote c.

Lemma assets_add_light_unit u im :
  assets (add_light_unit u im) ≡₆₄ assets im + sum_of (lu_change u) + get_burn_balance_change u
    + counter_in (lu_native u ∪ ai_native im) XPROPERTY_LOCK_TOKEN_SUM_KEY - counter_in (ai_native im) XPROPERTY_LOCK_TOKEN_SUM_KEY.
Proof.
  unfold assets, add_light_unit, sum_of. destruct (unit_send_trans_info u) as [sn sh], (get_recv_trans_info u) as [rn rh]. cbn.
  rewrite !cong_u64. apply cong_eq. lia.
Qed.

Lemma burn_of_one u tx : lu_txs u = [tx] -> get_burn_balance_change u ≡₆₄ burnt tx (ct_exec tx).
Proof.
  intros E. unfold get_burn_balance_change. rewrite E. cbn. unfold burnt.
  destruct (is_self_tx (ct_tx tx) || is_confirm_tx (ct_tx tx)); rewrite !cong_i64; apply cong_eq; lia.
Qed.

(** The properties of a unit over those of the account show what the context shows. *)
Lemma native_after c s :
  ctx_wf s -> (forall n, m_modify_objs (x_native s) !! n = None -> np_view (ctx_np s) !! n = np_view (ctx_np c) !! n) ->
  np_view (x_heap s, copy_modify_objs_only (x_native s)) ∪ np_view (ctx_np c) = np_view (ctx_np s).
Proof.
  intros Hw Hk. apply map_eq. intros n. rewrite lookup_union, !np_view_lookup. cbn.
  destruct (m_modify_objs (x_native s) !! n) as [l|] eqn:E.
  - pose proof (lookup_weaken _ _ _ _ E (cw_dirty _ Hw)) as El. rewrite El. cbn.
    destruct (lookup_lt_is_Some_2 (x_heap s) l) as [d Ed]; [by apply (np_alloc _ (cw_np _ Hw) n)|]. rewrite Ed. by rewrite union_Some_l.
  - pose proof (Hk n E) as Ev. rewrite !np_view_lookup in Ev. cbn in Ev. rewrite Ev. by rewrite (left_id _ _).
Qed.

(** ** One transaction *)

Lemma sent_wf n h s :
  ctx_wf s -> ctx_wf (on_account (with_state (set_latest_send_trans n h)) s).
Proof. by intros []. Qed.
Lemma sent_about n h s t tx f :
  about_to_run s t tx f -> about_to_run (on_account (with_state (set_latest_send_trans n h)) s) t tx f.
Proof. intros []. by split. Qed.

(** The transaction fails, or it succeeds and the result is that of the context. *)
Lemma exec_tx_one s t tx f :
  config_ok -> ctx_wf s -> about_to_run s t tx f -> x_contract_txs s = [] ->
  exists r res s', exec_tx t tx_result_init s = Some (r, res, s') /\ has t tx s' /\ x_contract_txs s' = [] /\
    (r = xret_success -> res = get_transaction_result s' /\ ctx_wf s' /\
       (forall n, m_modify_objs (x_native s') !! n = None ->
          m_modify_objs (x_native s) !! n = None /\ np_view (ctx_np s') !! n = np_view (ctx_np s) !! n) /\
       worth s' ≡₆₄ worth s + credit tx f - debit tx f - burnt tx (exec_of t s') + minted tx f s).
Proof.
  intros Hcf Hw Ha Hc.
  assert (has t tx s) as Hh by (exists (ct_exec tx); rewrite (ar_tx _ _ _ _ Ha); by destruct tx).
  assert (get_tx t s = Some (tx, s)) as Hg by (unfold get_tx; by rewrite (ar_tx _ _ _ _ Ha)).
  unfold exec_tx. rewrite (bind_runs _ _ _ _ _ Hg). unfold gets at 1. erewrite bind_runs by done. cbv beta.
  case_match eqn:En; [by do 3 eexists|]. clear En.
  assert (exists s0, (if is_origin_tx (ct_tx tx)
     then modify (on_account (with_state (set_latest_send_trans (get_tx_nonce (ct_tx tx)) (digest (ct_tx tx))))) else ret tt) s = Some (tt, s0) /\
     ctx_wf s0 /\ about_to_run s0 t tx f /\ x_contract_txs s0 = [] /\ worth s0 = worth s /\ minted tx f s0 = minted tx f s /\
     x_native s0 = x_native s /\ ctx_np s0 = ctx_np s) as (s0 & E0 & Hw0 & Ha0 & Hc0 & Ew0 & Em0 & En0 & Enp0).
  { destruct (is_origin_tx (ct_tx tx)); (eexists; split_and!; [reflexivity|..]); try done; [by apply sent_wf|by apply sent_about]. }
  rewrite (bind_runs _ _ _ _ _ E0). cbv beta. unfold exec_one_tx.
  pose proof (exec_ok s0 t tx f Hcf Hw0 Ha0) as Hx. destruct (Keeps_defined _ _ _ _ _ id Hx) as (r & s' & Ex & Hw' & Hk & Hr).
  assert (has t tx s') as Hh' by (eapply has_keeps; [|exact Hk]; exists (ct_exec tx); rewrite (ar_tx _ _ _ _ Ha0); by destruct tx).
  assert (x_contract_txs s' = []) as Hc' by (by rewrite (kp_contract_txs _ _ Hk)).
  destruct (get_tx_reads t tx s' Hh') as (e & _ & Hr'). unfold reads in Hr'.
  unfold bind at 1. unfold bind at 1. rewrite Ex. unfold ok at 1. case_bool_decide; cbn [negb]; [subst r|].
  2:{ cbn. unfold ok. rewrite bool_decide_eq_false_2 by done. cbn. do 3 eexists. split_and!; done. }
  unfold gets at 1. erewrite bind_runs by done. cbv beta. rewrite (bind_runs _ _ _ _ _ Hr').
  set (b := is_self_tx _ && _ && _ && _). destruct b; cbn -[worth credit debit burnt minted get_transaction_result].
  { do 3 eexists. split_and!; done. }
  change (tr_contract_txs (get_transaction_result s')) with (x_contract_txs s'). rewrite Hc'. cbn -[worth credit debit burnt minted get_transaction_result].
  do 3 eexists. split_and!; [done..|]. intros _. split_and!; [done|done| |by rewrite (Hr eq_refl), Ew0, Em0].
  intros n Hn. destruct (kp_dirty _ _ Hk n Hn) as [K1 K2]. rewrite En0 in K1. rewrite Enp0 in K2. done.
Qed.

(** The outcome of a unit of one transaction: no unit, because the transaction
    could not be sent; a unit without effect, because it failed at the receiver
    or when it came back; or a unit that moves its amount. *)
Definition unit_outcome (im : account_image) (tx : xcons_tx) (f : face) (gain : Z) (r : xret) (u : option xlightunit) : Prop :=
  match u with
  | None => r <> xret_success /\ is_recv_tx (ct_tx tx) || is_confirm_tx (ct_tx tx) = false
  | Some u => r = xret_success /\ exists tx', lu_txs u = [tx'] /\ static_tx tx' = static_tx tx /\
      ((is_recv_tx (ct_tx tx) || is_confirm_tx (ct_tx tx) = true /\ lu_change u = changes_zero /\ lu_native u = ∅ /\
        get_tx_exec_status (ct_exec tx') = enum_xunit_tx_exec_status_fail) \/
       assets (add_light_unit u im) ≡₆₄ assets im + credit tx f - debit tx f + gain)
  end.

Lemma np_view_empty h : np_view (h, copy_modify_objs_only native_empty) = ∅.
Proof. apply map_eq. intros n. by rewrite np_view_lookup. Qed.

Lemma lightunit_one im tx f address clock seed now locked :
  config_ok -> props_ok (ai_native im) -> is_u64 clock -> is_Some (get_token_price locked) ->
  let c := start address im [tx] clock seed now locked in
  about_to_run c 0 tx f ->
  exists r u p s', make_lightunit_output [0%nat] c = Some (r, u, p, s') /\ unit_outcome im tx f (minted tx f c) r u.
Proof.
  intros Hcf Hp Hcl Hpr c Ha. pose proof (start_ctx_wf address im [tx] clock seed now locked Hp Hcl Hpr) as Hw. fold c in Hw.
  destruct (start_fields address im [tx] clock seed now locked) as (Ech & Eac & Ect & Emo & _ & _). fold c in Ech, Eac, Ect, Emo.
  pose proof (start_view address im [tx] clock seed now locked) as Ev. fold c in Ev.
  destruct (exec_tx_one c 0 tx f Hcf Hw Ha Ect) as (r & res & s' & Ex & Hh & Hc' & Hs). clearbody c.
  unfold make_lightunit_output, exec_batch_txs. cbn [exec_batch].
  unfold bind at 1. unfold bind at 1. rewrite Ex. cbv iota beta.
  destruct (get_tx_reads 0 tx s' Hh) as (e & He & Hr'). unfold reads in Hr'. rewrite (bind_runs _ _ _ _ _ Hr').
  destruct Hh as [e' He']. assert (e' = e) as -> by (rewrite He; unfold exec_of; by rewrite He').
  unfold ok at 1. case_bool_decide as Hok; [subst r|].
  - destruct (Hs eq_refl) as (-> & Hw' & Hd & Hwo). clear Hs.
    unfold bind at 1, set_exec, modify. cbn [exec_batch ret br_exec_succ_txs batch_init]. cbv iota beta. unfold bind at 1. cbv iota beta.
    unfold ok. cbn [bool_decide negb]. rewrite bool_decide_eq_true_2 by done. cbn [negb]. unfold bind, get, ret.
    do 4 eexists. split; [reflexivity|]. cbn [unit_outcome]. split; [done|].
    assert (alter (with_exec (set_tx_exec_status enum_xunit_tx_exec_status_success)) 0%nat (x_txs s') = x_txs s') as Ealt.
    { apply alter_same. intros x. by destruct x. }
    exists (with_exec (fun _ => e) tx). unfold lightunit_of. cbn [lu_txs]. cbn -[worth assets credit debit minted]. rewrite Ealt, He', Hc'. cbn -[worth assets credit debit minted].
    split_and!; [done|done|]. right.
    set (u := XLightUnit _ _ _ _ _ _). assert (get_burn_balance_change u ≡₆₄ burnt tx e) as Hburn by (by apply (burn_of_one u (with_exec (fun _ => e) tx))).
    rewrite assets_add_light_unit, Hburn. unfold u.
    cbn [lu_change lu_native get_transaction_result tr_change tr_native set_txs x_heap].
    assert (counter_in (np_view (x_heap s', copy_modify_objs_only (x_native s')) ∪ ai_native im) XPROPERTY_LOCK_TOKEN_SUM_KEY = lsum s') as ->.
    { unfold lsum, counter. rewrite <- (native_after c s' Hw'), Ev; [done|]. intros n Hn. by apply Hd. }
    assert (worth s' = sum_of (x_change s') + lsum s') as Ew' by done.
    assert (worth c = counter_in (ai_native im) XPROPERTY_LOCK_TOKEN_SUM_KEY) as Ewc by (unfold worth, lsum, counter; by rewrite Ech, Ev).
    rewrite Ew', Ewc in Hwo. assert (exec_of 0 s' = e) as Ee by done. rewrite Ee in Hwo.
    assert (sum_of (x_change s') ≡₆₄ counter_in (ai_native im) XPROPERTY_LOCK_TOKEN_SUM_KEY + credit tx f - debit tx f - burnt tx e + minted tx f c - lsum s') as ->.
    { rewrite <- Hwo. apply cong_eq. lia. }
    apply cong_eq. lia.
  - clear Hs. unfold bind at 1, set_exec, modify. cbn [with_exec ct_tx]. cbv iota beta.
    destruct (is_recv_tx (ct_tx tx) || is_confirm_tx (ct_tx tx)) eqn:Erc.
    + cbn [exec_batch ret]. unfold bind at 1. cbv iota beta. unfold ok. rewrite bool_decide_eq_true_2 by done. cbn [negb]. unfold bind, get, ret.
      do 4 eexists. split; [reflexivity|]. cbn [unit_outcome]. split; [done|].
      exists (with_exec (set_tx_exec_status enum_xunit_tx_exec_status_fail) (with_exec (fun _ => e) tx)).
      unfold lightunit_of. cbn -[np_view]. rewrite list_lookup_alter, decide_True, He' by done. cbn -[np_view].
      split_and!; [done|done|]. left. split_and!; [done|done|apply np_view_empty|done].
    + cbn [ret br_exec_succ_txs batch_init]. unfold bind at 1. cbv iota beta. unfold ok. rewrite bool_decide_eq_false_2 by done. cbn [negb].
      unfold bind, get_tx. cbn [br_exec_fail_tx nonnull ret x_txs set_txs].
      rewrite list_lookup_alter, decide_True, He' by done. cbn.
      do 4 eexists. split; [reflexivity|]. cbn [unit_outcome]. done.
Qed.
End Unit.

