(* ===== verification/ExecFrame.v ===== *)
(** * What the backups check of a proposed unit

    Execution without the contract engine never changes how many transactions of
    the account are unconfirmed, nor anything of the transactions it is given but
    their execution state; with it a backup decides as the leader did whether the next unit is a
    full unit, and rebuilds the leader's unit from what the leader sends.  The
    frame property goes through every operation of the executor: each has a lemma
    in the hint database [stable]. *)

From stdpp Require Import prelude strings gmap.
From Stdlib Require Import ZArith Lia.
From S2P Require Import Prelude Stream StdMap AccountAddr TxData StdNum NativeProp Action ConsTx ChainState AccountCtx TxExec CsPara UnitMaker ExecSteps.
Open Scope Z_scope.

(** The count of unconfirmed transactions. *)
Definition unconfirmed (s : ectx) : Z := get_unconfirm_sendtx_num (x_account s).
Section EngineFree.
Context `{ExecConfig} `{ExecBase} `{TxEnv} `{XStringUtl} `{ExecWorld}.

(** The transaction, at the stage it is in, is not handed to the contract engine. *)
Definition engine_free (t : xcons_tx) : Prop :=
  forall f, parse t = Some (inr f) -> (is_self_tx (ct_tx t) || is_recv_tx (ct_tx t)) && target_runs_vm f = false.
Definition all_engine_free (s : ectx) : Prop := Forall engine_free (x_txs s).

(** A transaction without its execution state. *)
Definition bare (t : xcons_tx) : xcons_tx := with_exec (fun _ => exec_state_init) t.
Lemma engine_free_bare t : engine_free (bare t) <-> engine_free t.
Proof. reflexivity. Qed.
Lemma reread_bare t t' : bare t = bare t' -> reread t = reread t'.
Proof. intros E. change (reread (bare t) = reread (bare t')). by rewrite E. Qed.

(** What execution leaves alone: the count, and of each transaction all but the
    execution state. *)
Definition framed (s s' : ectx) : Prop :=
  unconfirmed s' = unconfirmed s /\ length (x_txs s') = length (x_txs s) /\
  forall l t, x_txs s !! l = Some t -> bare <$> x_txs s' !! l = Some (bare t).
Definition stable {A} (m : eprog A) : Prop := forall s a s', all_engine_free s -> m s = Some (a, s') -> framed s s'.

#[export] Instance framed_preorder : PreOrder framed.
Proof.
  split.
  - intros s. split_and!; [done..|]. by intros l t ->.
  - intros s1 s2 s3 (U1 & L1 & T1) (U2 & L2 & T2). split_and!; [congruence..|]. intros l t El. specialize (T1 l t El).
    destruct (x_txs s2 !! l) as [t2|] eqn:E2; [|done]. rewrite (T2 l t2 E2). exact T1.
Qed.
Lemma framed_engine_free s s' : framed s s' -> all_engine_free s -> all_engine_free s'.
Proof.
  intros (_ & Hl & Ht) Hs. apply Forall_lookup. intros i t' E'.
  destruct (lookup_lt_is_Some_2 (x_txs s) i) as [t E]; [rewrite <- Hl; by eapply lookup_lt_Some|].
  specialize (Ht i t E). rewrite E' in Ht. apply (inj Some) in Ht. apply (proj1 (engine_free_bare t')). rewrite Ht.
  apply (proj2 (engine_free_bare t)). unfold all_engine_free in Hs. rewrite Forall_lookup in Hs. by eapply Hs.
Qed.

Lemma stable_ret {A} (a : A) : stable (ret a).
Proof. by intros s b s' _ [= <- <-]. Qed.
Lemma stable_ub {A} : stable (@ub ectx A).
Proof. done. Qed.
Lemma stable_get : stable (@get ectx).
Proof. by intros s b s' _ [= <- <-]. Qed.
Lemma stable_gets {A} (f : ectx -> A) : stable (gets f).
Proof. by intros s b s' _ [= <- <-]. Qed.
Lemma stable_nonnull {A} (o : option A) : stable (@nonnull ectx A o).
Proof. destruct o; [apply stable_ret|apply stable_ub]. Qed.
Lemma stable_bind {A B} (m : eprog A) (k : A -> eprog B) : stable m -> (forall a, stable (k a)) -> stable (bind m k).
Proof.
  intros Hm Hk s b s2 Hs. unfold bind. destruct (m s) as [[a s1]|] eqn:E; [|done]. intros E2.
  pose proof (Hm _ _ _ Hs E) as Hf. transitivity s1; [done|]. eapply Hk; [|done]. by eapply framed_engine_free.
Qed.
Lemma stable_change f : stable (modify (on_change f)).
Proof. intros s b s' _ [= <- <-]. split_and!; [done..|]. intros l t El. cbn. by rewrite El. Qed.
Lemma stable_modify f :
  (forall s, unconfirmed (f s) = unconfirmed s) -> (forall s, x_txs (f s) = x_txs s) -> stable (modify f).
Proof. intros Hf Ht s b s' _ [= <- <-]. split_and!; [done|by rewrite Ht|]. intros l t. rewrite Ht. by intros ->. Qed.
Lemma stable_run_np f : stable (run_np f).
Proof. intros s c s' _. unfold run_np. destruct (f (ctx_np s)) as [c' [h p]]. intros [= <- <-]. split_and!; [done..|]. intros l t El. cbn. by rewrite El. Qed.
Lemma stable_read_counter n : stable (read_counter n).
Proof. intros s v s' _. unfold read_counter. destruct (get_counter (ctx_np s) n); [|done]. by intros [= <- <-]. Qed.
Lemma stable_get_tx t : stable (get_tx t).
Proof. intros s v s' _. unfold get_tx. destruct (x_txs s !! t); [|done]. by intros [= <- <-]. Qed.
Lemma stable_set_exec t f : stable (set_exec t f).
Proof.
  intros s b s' _ [= <- <-]. split_and!; [done|by cbn; rewrite length_alter|]. intros l t' El. cbn.
  rewrite list_lookup_alter. case_decide; subst; by rewrite El.
Qed.
End EngineFree.

Create HintDb stable.
#[export] Hint Resolve stable_ret stable_ub stable_get stable_gets stable_nonnull stable_change stable_run_np stable_read_counter
  stable_get_tx stable_set_exec : stable.

(** Walk through the code; the operations it calls have their lemmas. *)
Ltac stable :=
  repeat first
    [ progress intros
    | solve [auto with stable nocore]
    | apply stable_bind
    | apply stable_modify; intros; reflexivity
    | match goal with
      | |- stable (if ?b then _ else _) => destruct b
      | |- stable (match ?x with _ => _ end) => destruct x
      | |- stable (let '_ := ?x in _) => destruct x
      end ].

Section Frame.
Context `{ExecConfig} `{ExecBase} `{TxEnv} `{XStringUtl} `{ExecWorld}.

(** ** The context *)

Lemma stable_string_set k v : stable (string_set k v).
Proof. unfold string_set. stable. Qed.
Hint Resolve stable_string_set : stable.
Lemma stable_set_lock_token_sum v : stable (set_lock_token_sum v).
Proof. unfold set_lock_token_sum. stable. Qed.
Lemma stable_get_lock_token_sum : stable get_lock_token_sum.
Proof. unfold get_lock_token_sum. stable. Qed.
Hint Resolve stable_set_lock_token_sum stable_get_lock_token_sum : stable.
Lemma stable_can_work : stable can_work.
Proof. unfold can_work. stable. Qed.
Hint Resolve stable_can_work : stable.

Lemma stable_sums d : stable (set_balance_change d) /\ stable (set_tgas_balance_change d) /\ stable (set_disk_balance_change d) /\
  stable (set_vote_balance_change d) /\ stable (set_lock_balance_change d) /\ stable (set_lock_tgas_change d) /\ stable (set_unvote_num_change d).
Proof. split_and!; apply stable_change. Qed.
Lemma stable_set_balance_change d : stable (set_balance_change d).
Proof. apply stable_sums. Qed.
Hint Resolve stable_set_balance_change : stable.
Hint Extern 1 (stable (set_tgas_balance_change _)) => apply stable_sums : stable.
Hint Extern 1 (stable (set_disk_balance_change _)) => apply stable_sums : stable.
Hint Extern 1 (stable (set_vote_balance_change _)) => apply stable_sums : stable.
Hint Extern 1 (stable (set_lock_balance_change _)) => apply stable_sums : stable.
Hint Extern 1 (stable (set_lock_tgas_change _)) => apply stable_sums : stable.
Hint Extern 1 (stable (set_unvote_num_change _)) => apply stable_sums : stable.

Lemma stable_top_token_transfer_out a g f : stable (top_token_transfer_out a g f).
Proof. unfold top_token_transfer_out. stable. Qed.
Lemma stable_top_token_transfer_in a : stable (top_token_transfer_in a).
Proof. unfold top_token_transfer_in. stable. Qed.
Hint Resolve stable_top_token_transfer_out stable_top_token_transfer_in : stable.
Lemma stable_token_transfer_out a g f : stable (token_transfer_out a g f).
Proof. unfold token_transfer_out, other_token_transfer_out. stable. Qed.
Lemma stable_token_transfer_in a : stable (token_transfer_in a).
Proof. unfold token_transfer_in, other_token_transfer_in. stable. Qed.
Lemma stable_set_parent k a v : stable (set_parent k a v).
Proof. unfold set_parent. stable. Qed.
Lemma stable_account_check k v n : stable (account_check k v n).
Proof. unfold account_check. stable. Qed.
Hint Resolve stable_token_transfer_out stable_token_transfer_in stable_set_parent stable_account_check : stable.

Lemma stable_set_used_tgas n : stable (set_used_tgas n).
Proof. unfold set_used_tgas. stable. Qed.
Lemma stable_calc_decayed_tgas : stable calc_decayed_tgas.
Proof. unfold calc_decayed_tgas, get_last_tx_hour, get_used_tgas. stable. Qed.
Lemma stable_get_available_tgas : stable get_available_tgas.
Proof. unfold get_available_tgas. stable. Qed.
Hint Resolve stable_set_used_tgas stable_calc_decayed_tgas stable_get_available_tgas : stable.
Lemma stable_incr_used_tgas n : stable (incr_used_tgas n).
Proof. unfold incr_used_tgas. stable. Qed.
Hint Resolve stable_incr_used_tgas : stable.
Lemma stable_update_tgas_sender u d x : stable (update_tgas_sender u d x).
Proof. unfold update_tgas_sender, check_used_tgas. stable. Qed.
Lemma stable_update_tgas_contract_recv a b c d : stable (update_tgas_contract_recv a b c d).
Proof. unfold update_tgas_contract_recv. stable. Qed.
Lemma stable_calc_resource a b c : stable (calc_resource a b c).
Proof. unfold calc_resource. stable. Qed.
Hint Resolve stable_update_tgas_sender stable_update_tgas_contract_recv stable_calc_resource : stable.

Lemma stable_lock_token h a p : stable (lock_token h a p).
Proof. unfold lock_token. stable. Qed.
Lemma stable_release_lock l h la : stable (release_lock l h la).
Proof. unfold release_lock. stable. Qed.
Hint Resolve stable_lock_token stable_release_lock : stable.
Lemma stable_unlock_token h : stable (unlock_token h).
Proof. unfold unlock_token. stable. Qed.
Lemma stable_unlock_loop l : forall n, stable (unlock_loop n l).
Proof. induction l as [|[h v] l IH]; intros n; cbn [unlock_loop]; stable; apply IH. Qed.
Hint Resolve stable_unlock_token stable_unlock_loop : stable.
Lemma stable_unlock_all_token : stable unlock_all_token.
Proof. unfold unlock_all_token. stable. Qed.
Hint Resolve stable_unlock_all_token : stable.

Lemma stable_merge_loop l : forall a b, stable (merge_loop l a b).
Proof. induction l as [|v l IH]; intros a b; cbn [merge_loop]; stable; apply IH. Qed.
Hint Resolve stable_merge_loop : stable.
Lemma stable_merge_pledge_vote_property : stable merge_pledge_vote_property.
Proof. unfold merge_pledge_vote_property, expired_tokens. stable. Qed.
Lemma stable_insert_pledge_vote_property n d : stable (insert_pledge_vote_property n d).
Proof. unfold insert_pledge_vote_property, pledge_votes. stable. Qed.
Lemma stable_redeem_pledge_vote_property n : stable (redeem_pledge_vote_property n).
Proof. unfold redeem_pledge_vote_property, pledge_votes, expired_tokens. stable. Qed.
Hint Resolve stable_merge_pledge_vote_property stable_insert_pledge_vote_property stable_redeem_pledge_vote_property : stable.

Lemma stable_account_ops k v : stable (account_set_keys k v) /\ stable (account_alias_name_set v).
Proof. unfold account_set_keys, account_alias_name_set. split; stable. Qed.

(** ** Fees and steps *)

Lemma stable_fee_update_tgas_sender t : stable (fee_update_tgas_sender t).
Proof. unfold fee_update_tgas_sender. stable. Qed.
Hint Resolve stable_fee_update_tgas_sender : stable.
Lemma stable_update_tgas_disk_sender t a c : stable (update_tgas_disk_sender t a c).
Proof. unfold update_tgas_disk_sender, update_disk. stable. Qed.
Hint Resolve stable_update_tgas_disk_sender : stable.
Lemma stable_update_tgas_disk_after_sc_exec t tr : stable (update_tgas_disk_after_sc_exec t tr).
Proof. unfold update_tgas_disk_after_sc_exec, update_tgas_disk_contract_recv, fee_update_tgas_contract_recv, update_disk. stable. Qed.
Lemma stable_update_contract_fee_confirm t a : stable (update_contract_fee_confirm t a).
Proof. unfold update_contract_fee_confirm. stable. Qed.
Hint Resolve stable_update_tgas_disk_after_sc_exec stable_update_contract_fee_confirm : stable.

Lemma stable_and_then m k : stable m -> stable k -> stable (and_then m k).
Proof. intros Hm Hk. unfold and_then. apply stable_bind; [done|]. intros r. by destruct (ok r); [|apply stable_ret]. Qed.
Lemma stable_pay_fee t a c l : stable (pay_fee t a c l).
Proof. unfold pay_fee. stable. Qed.
Lemma stable_no_fee : stable no_fee.
Proof. unfold no_fee. stable. Qed.
Hint Resolve stable_pay_fee stable_no_fee : stable.

(** Sequences of steps. *)
Ltac steps := repeat first [apply stable_and_then | progress stable].

Lemma stable_source t f : stable (source_service_fee_exec t) /\ stable (source_fee_exec t f) /\ stable (source_action_exec t f).
Proof.
  unfold source_service_fee_exec, source_fee_exec, source_action_exec. split_and!; [stable|stable|].
  destruct f; try apply stable_ret.
  - unfold create_contract_source, sub_contract_sub_account_check, set_contract_sub_account. steps.
  - unfold run_contract_source. steps.
  - unfold transfer_source. steps.
  - unfold create_sub_account_source, sub_account_check, set_sub_account. steps.
  - unfold vote_source. stable.
Qed.

Lemma stable_check_owner t : stable (check_owner t).
Proof. unfold check_owner, check_parent, get_parent_account. stable. Qed.
Hint Resolve stable_check_owner : stable.

Lemma stable_target t f fs : target_runs_vm f = false -> stable (target_fee_exec t f fs) /\ stable (target_action_exec t f fs).
Proof.
  intros Hf. split.
  - unfold target_fee_exec, update_fee_recv_self, update_fee_recv, return_deposit. stable.
  - unfold target_action_exec. apply stable_bind; [apply stable_get_tx|]. intros tx. destruct f; try done.
    + stable.
    + apply stable_account_ops.
    + stable.
    + stable.
    + apply (stable_account_ops "").
    + unfold set_parent_account. stable.
    + unfold pledge_target. steps.
    + unfold redeem_target. steps.
    + unfold pledge_target. steps.
    + unfold redeem_target. steps.
    + unfold pledge_vote_target, update_pledge_vote_property. steps.
    + unfold redeem_vote_target. stable.
Qed.

Lemma stable_confirm t f : stable (exec_confirm t f).
Proof.
  unfold exec_confirm. apply stable_and_then.
  - unfold source_confirm_fee_exec, update_fee_confirm. stable.
  - unfold source_confirm_action_exec. stable.
Qed.

Lemma stable_exec_source t f : stable (exec_source t f).
Proof.
  destruct (stable_source t f) as (S1 & S2 & S3). unfold exec_source. apply stable_bind; [done|]. intros r. destruct (ok r); cbn; [|stable].
  apply stable_bind; [done|]. intros [r' fs]. destruct (ok r'); cbn; [|stable]. apply stable_bind; [done|]. stable.
Qed.
Lemma stable_exec_target t f fs : target_runs_vm f = false -> stable (exec_target t f fs).
Proof.
  intros Hf. destruct (stable_target t f fs Hf) as [S1 S2]. unfold exec_target. apply stable_bind; [stable|]. intros tx. apply stable_and_then; [done|].
  by destruct (_ && _); [stable|].
Qed.
Hint Resolve stable_exec_source stable_confirm : stable.

Lemma stable_exec t : stable (exec t).
Proof.
  intros s a s' Hs. pose proof Hs as Hall. unfold all_engine_free in Hall. rewrite Forall_lookup in Hall.
  unfold exec, bind at 1, get_tx. destruct (x_txs s !! t) as [tx|] eqn:Et; [|done]. specialize (Hall _ _ Et).
  cbn [fmap option_fmap option_map]. unfold bind at 1. destruct (tx_check tx) as [[r|f]|] eqn:Ec; cbn [nonnull ret ub]; [intros [= <- <-]; reflexivity| |done].
  assert (parse tx = Some (inr f)) as Ep.
  { unfold tx_check in Ec. destruct (parse tx) as [[|g]|]; [done| |done]. destruct (ok _); [|done]. by injection Ec as ->. }
  specialize (Hall f Ep).
  unfold exec_steps, bind at 1, get_tx. rewrite Et. cbn [fmap option_fmap option_map]. revert s a s' Hs Et.
  enough (stable (let* (r, fs) := (if is_origin_tx (ct_tx tx) then exec_source t f else ret (xret_success, FeeState 0 0)) in
    if negb (ok r) then ret r
    else and_then (if is_self_tx (ct_tx tx) || is_recv_tx (ct_tx tx) then exec_target t f fs else ret xret_success)
             (if is_confirm_tx (ct_tx tx) then exec_confirm t f else ret xret_success))) as Hst
    by (intros s a s' Hs _; by apply Hst).
  apply stable_bind; [stable|]. intros [r fs]. destruct (ok r); cbn [negb]; [|stable]. apply stable_and_then; [|stable].
  destruct (is_self_tx (ct_tx tx) || is_recv_tx (ct_tx tx)); [|stable]. by apply stable_exec_target.
Qed.
Hint Resolve stable_exec : stable.

(** ** Batches *)

Lemma stable_exec_one_tx t r : stable (exec_one_tx t r).
Proof. unfold exec_one_tx. stable. Qed.
Hint Resolve stable_exec_one_tx : stable.
Lemma stable_exec_created l : forall r, stable (exec_created l r).
Proof. induction l as [|t l IH]; intros r; cbn [exec_created]; stable; apply IH. Qed.
Hint Resolve stable_exec_created : stable.
Lemma stable_exec_tx t r : stable (exec_tx t r).
Proof. unfold exec_tx. stable. Qed.
Hint Resolve stable_exec_tx : stable.
Lemma stable_exec_batch l : forall b, stable (exec_batch l b).
Proof. induction l as [|t l IH]; intros b; cbn [exec_batch]; stable; apply IH. Qed.
Hint Resolve stable_exec_batch : stable.
Lemma stable_make_lightunit_output txs : stable (make_lightunit_output txs).
Proof. unfold make_lightunit_output, exec_batch_txs. stable. Qed.

Lemma full_unit_stable a a' prev :
  get_unconfirm_sendtx_num a = get_unconfirm_sendtx_num a' -> can_make_full_unit a prev = can_make_full_unit a' prev.
Proof. unfold can_make_full_unit. by intros ->. Qed.

Lemma stable_create_unit e txs : stable (create_unit e txs).
Proof. unfold create_unit, make_fullunit_output. pose proof (stable_make_lightunit_output txs). stable. Qed.

Lemma create_unit_eq e txs c :
  create_unit e txs c =
    if can_make_full_unit (x_account c) (me_latest e) then
      if property_behind e (x_account c) then Some (enum_xtxexecutor_error_unit_property_behind, None, None, c)
      else Some (xret_success, Some (FullUnit (fullunit_of e c), []), None, c)
    else match make_lightunit_output txs c with
         | Some (r, u, p, c') => Some (r, (fun u => (LightUnit u, txs)) <$> u, p, c')
         | None => None
         end.
Proof.
  unfold create_unit, bind, gets, make_fullunit_output, get. destruct (can_make_full_unit _ _); cbn; [by destruct (property_behind e (x_account c))|].
  by destruct (make_lightunit_output txs c) as [[[[r u] p] c']|].
Qed.

(** The class of the unit the maker builds is the one its account calls for, also after execution. *)
Lemma create_unit_class e txs c r b l p c' :
  all_engine_free c -> create_unit e txs c = Some (r, Some (b, l), p, c') -> verify_proposal_block_class (x_account c') b (me_latest e) = xret_success.
Proof.
  intros Hef Hc. pose proof (stable_create_unit _ _ _ _ _ Hef Hc) as [Hu _]. unfold verify_proposal_block_class.
  rewrite (full_unit_stable _ (x_account c)) by exact Hu. rewrite create_unit_eq in Hc.
  destruct (can_make_full_unit (x_account c) (me_latest e)).
  - destruct (property_behind _ _); [done|]. by injection Hc as <- <- <- <- <-.
  - destruct (make_lightunit_output txs c) as [[[[r' [u|]] p'] s']|]; [|done..]. by injection Hc as <- <- <- <- <-.
Qed.

(** What the executed objects are when they have been sent. *)
Lemma reread_executed c c' txs :
  framed c c' -> x_txs c = txs -> Forall (fun t => reread t = t) txs ->
  map reread (omap (fun l => x_txs c' !! l) (seq 0 (length txs))) = txs.
Proof.
  intros (_ & _ & Ht) Ex Hf. rewrite Ex in Ht. clear Ex. set (g := fun l => x_txs c' !! l).
  assert (forall k, (k <= length txs)%nat -> map reread (omap g (seq 0 k)) = take k txs) as Hk; [|by rewrite Hk, firstn_all].
  induction k as [|k IH]; intros Hle; [done|]. destruct (lookup_lt_is_Some_2 txs k) as [t Et]; [lia|].
  specialize (Ht k t Et). rewrite (take_S_r _ _ _ Et), seq_S, omap_app, map_app, IH by lia. f_equal.
  cbn [omap list_omap]. unfold g. cbn [Nat.add]. destruct (x_txs c' !! k) as [t'|]; [|done]. apply (inj Some), reread_bare in Ht.
  cbn [map]. rewrite Ht. f_equal. rewrite Forall_lookup in Hf. by apply (Hf k).
Qed.

(** The two environments look alike to the makers. *)
Record same_chain (e e' : maker_env) : Prop := {
  sc_latest : me_latest e' = me_latest e;
  sc_sign : forall h, me_sign_hash e' h = me_sign_hash e h;
  sc_property : forall n, me_property e' n = me_property e n
}.

Definition reread_input (i : xunit_proposal_input) : xunit_proposal_input :=
  UnitInput (in_account i) (in_last_block_height i) (in_last_block_hash i) (map reread (in_txs i)).

Lemma create_unit_env e e' txs c : same_chain e e' -> create_unit e' txs c = create_unit e txs c.
Proof.
  intros [E1 _ E3]. rewrite !create_unit_eq, E1. destruct (can_make_full_unit _ _); [|done].
  assert (property_behind e' (x_account c) = property_behind e (x_account c)) as ->.
  { unfold property_behind. induction (map_to_list _) as [|[n h] m IH]; [done|]. cbn. by rewrite IH, E3. }
  assert (fullunit_of e' c = fullunit_of e c) as ->; [|done]. unfold fullunit_of. f_equal. apply map_eq. intros n.
  rewrite !map_lookup_imap. destruct (_ !! n); [|done]. cbn. by rewrite E3.
Qed.

(** A context made of other transactions makes the same full unit, and the
    transactions sent make the same light unit. *)
Lemma maker_context_txs account cs txs : x_txs (maker_context account cs txs) = txs.
Proof. unfold maker_context, account_context. destruct (stored_account account); [|done]. by destruct (load_native _). Qed.
Lemma create_unit_again e account cs r b l p c' :
  Forall engine_free (me_txs e) -> Forall (fun t => reread t = t) (me_txs e) ->
  create_unit e (seq 0 (length (me_txs e))) (maker_context account cs (me_txs e)) = Some (r, Some (b, l), p, c') ->
  let sent := map reread (omap (fun l => x_txs c' !! l) l) in
  (sent = [] \/ sent = me_txs e) /\
  exists l2 c2, create_unit e (seq 0 (length sent)) (maker_context account cs sent) = Some (r, Some (b, l2), p, c2).
Proof.
  intros Hef Hf Hc sent. set (c := maker_context account cs (me_txs e)) in *.
  assert (x_txs c = me_txs e) as Hx by apply maker_context_txs.
  assert (all_engine_free c) as Hec by (unfold all_engine_free; by rewrite Hx).
  pose proof (stable_create_unit _ _ _ _ _ Hec Hc) as Hs.
  assert (forall txs, x_account (maker_context account cs txs) = x_account c /\ acct_np (maker_context account cs txs) = acct_np c) as Ha.
  { intros txs. unfold c, maker_context, account_context. destruct (stored_account account); [|done]. by destruct (load_native _). }
  destruct (can_make_full_unit (x_account c) (me_latest e)) eqn:Ef.
  - rewrite create_unit_eq. destruct (Ha sent) as [-> Hn]. rewrite create_unit_eq, Ef in Hc. rewrite Ef.
    destruct (property_behind _ _); [done|]. injection Hc as <- <- <- <- <-. split; [by left|].
    assert (fullunit_of e (maker_context account cs sent) = fullunit_of e c) as ->; [|by do 2 eexists].
    unfold fullunit_of. destruct (Ha sent) as [-> ->]. done.
  - assert (l = seq 0 (length (me_txs e))) as ->.
    { rewrite create_unit_eq, Ef in Hc. destruct (make_lightunit_output _ c) as [[[[r' [u|]] p'] s']|]; [|done..].
      by injection Hc as _ _ <- _ _. }
    assert (sent = me_txs e) as -> by by apply reread_executed with c. split; [by right|]. by do 2 eexists.
Qed.

Lemma unit_rebuilt `{XCertBase} account cs e e' u i q :
  is_u64 (pu_height (me_latest e)) -> Forall engine_free (me_txs e) -> Forall (fun t => reread t = t) (me_txs e) -> same_chain e e' ->
  make_unit_block account cs e = Some (xret_success, Some (u, i), q) ->
  me_verify_txs e' (me_txs e) = xret_success ->
  verify_unit_block (reread_input i) cs e' = Some (xret_success, Some u, q).
Proof.
  intros Hh Hef Hf Hs Hm Hv. pose proof Hs as [S1 S2 _]. unfold make_unit_block, leader_check_state in Hm.
  destruct (pu_connected_executed (me_latest e)) eqn:Ec; [|done]. cbn [negb] in Hm. unfold ok in Hm at 1.
  rewrite bool_decide_eq_true_2 in Hm by done. cbn [negb] in Hm.
  destruct (bc_max_block_height _ =? _); [|done]. cbn [negb] in Hm. case_bool_decide; [done|].
  destruct (get_lock_block_sign_hash e) as [justify|] eqn:Ej; [|done].
  assert (get_lock_block_sign_hash e' = Some justify) as Ej'.
  { rewrite <- Ej. unfold get_lock_block_sign_hash. rewrite S1. by rewrite S2. }
  destruct (create_unit e _ _) as [[[[r [[b l]|]] p] c']|] eqn:Eu; [|done..]. injection Hm as -> <- <- ->.
  destruct (create_unit_again _ _ _ _ _ _ _ _ Hef Hf Eu) as (Hsent & l2 & c2 & E2).
  unfold verify_unit_block, backup_check_state. cbn [reread_input in_account in_txs in_last_block_height in_last_block_hash] in *.
  rewrite S1, Ec. cbn [negb create_next_unit ub_height ub_last_hash].
  assert (u64 (u64 (pu_height (me_latest e) + 1) - 1) = pu_height (me_latest e)) as ->.
  { unfold u64, is_u64 in *. rewrite Zminus_mod_idemp_l. rewrite Z.mod_small; lia. }
  rewrite Z.ltb_irrefl, bool_decide_eq_true_2 by done. cbn [negb]. unfold ok at 1. rewrite bool_decide_eq_true_2 by done.
  set (sent := map reread _) in *. cbn [negb].
  assert (negb (bool_decide (length sent = 0%nat)) && negb (ok (me_verify_txs e' sent)) = false) as ->.
  { destruct Hsent as [->| ->]; [done|]. rewrite Hv. by rewrite andb_false_r. }
  rewrite Ej', (create_unit_env e) by done. rewrite E2.
  assert (all_engine_free (maker_context account cs sent)) as Hec.
  { unfold all_engine_free. rewrite maker_context_txs. by destruct Hsent as [->| ->]. }
  rewrite (create_unit_class _ _ _ _ _ _ _ _ Hec E2). unfold ok. by rewrite bool_decide_eq_true_2.
Qed.

(** ** A batch that stops in the middle *)

Lemma set_fail_status e : get_tx_exec_status (set_tx_exec_status enum_xunit_tx_exec_status_fail e) = enum_xunit_tx_exec_status_fail.
Proof. done. Qed.

(** The transaction a batch stops at is marked failed; the ones before it count
    as executed, the ones behind it were not tried. *)
Lemma exec_batch_stops txs : forall b s r b' s' t,
  br_exec_fail_tx b = None -> exec_batch txs b s = Some (r, b', s') -> br_exec_fail_tx b' = Some t ->
  exists k tx, txs !! k = Some t /\ br_exec_succ_txs b' = br_exec_succ_txs b ++ take k txs /\
    x_txs s' !! t = Some tx /\ get_tx_exec_status (ct_exec tx) = enum_xunit_tx_exec_status_fail.
Proof.
  induction txs as [|t0 txs IH]; intros b s r b' s' t Hb; cbn [exec_batch]; [intros [= <- <- <-]; by rewrite Hb|].
  unfold bind at 1. destruct (exec_tx t0 tx_result_init s) as [[[r0 result] s1]|]; [|done].
  unfold bind at 1, get_tx. destruct (x_txs s1 !! t0) as [tx0|] eqn:E0; [|done]. cbn [fmap option_fmap option_map].
  assert (forall b1 s2, br_exec_fail_tx b1 = None -> br_exec_succ_txs b1 = br_exec_succ_txs b ++ [t0] ->
    exec_batch txs b1 s2 = Some (r, b', s') -> br_exec_fail_tx b' = Some t ->
    exists k tx, (t0 :: txs) !! k = Some t /\ br_exec_succ_txs b' = br_exec_succ_txs b ++ take k (t0 :: txs) /\
      x_txs s' !! t = Some tx /\ get_tx_exec_status (ct_exec tx) = enum_xunit_tx_exec_status_fail) as Hrec.
  { intros b1 s2 Hf1 Hs1 E Ht. destruct (IH _ _ _ _ _ _ Hf1 E Ht) as (k & tx & Hk & Hs & Htx). exists (S k), tx.
    split_and!; [done| |apply Htx..]. rewrite Hs, Hs1. by rewrite <- app_assoc. }
  destruct (ok r0); unfold bind at 1; cbn [set_exec modify].
  - by apply Hrec.
  - destruct (is_recv_tx (ct_tx tx0) || is_confirm_tx (ct_tx tx0)); [by apply Hrec|].
    intros [= _ <- <-] [= <-]. exists 0%nat. eexists. cbn [lookup list_lookup take]. rewrite app_nil_r.
    split_and!; [done..| |].
    + cbn. rewrite list_lookup_alter. rewrite decide_True by done. by rewrite E0.
    + apply set_fail_status.
Qed.
End Frame.

