(* ===== verification/TableMakerProps.v ===== *)
(** * Leader and backup of a table block

    The consensus parameters and the inputs of the units survive the way to the
    backup, which comes to the same block; a block it accepts holds the units of
    its own execution. *)

From stdpp Require Import prelude strings gmap.
From Stdlib Require Import ZArith Lia.
From S2P Require Import Prelude Stream StdMap VBlock AccountAddr TxData StdNum NativeProp Action ConsTx ChainState AccountCtx TxExec CsPara UnitMaker.
From S2P Require Import TableMaker ExecFrame.
Open Scope Z_scope.

(** ** Streams *)

Lemma read_u32_write x r : 0 <= x < 2 ^ 32 -> read_u32 (write_u32 x +:+ r) = Some (x, r).
Proof. intros Hx. unfold read_u32, write_u32. rewrite read_le_write, mod_u32. unfold u32. by rewrite Z.mod_small. Qed.

(** [survives f m g x]: what [f] writes of [x] is read by [m] as [g x]. *)
Definition survives {A B} (f : A -> string) (m : reader B) (g : A -> B) (x : A) : Prop :=
  forall r, m (f x +:+ r) = Some (g x, r).

Lemma read_items_write {A B} (f : A -> string) (m : reader B) g (l : list A) r :
  Forall (survives f m g) l -> read_items m (length l) (foldr (fun x s => f x +:+ s) "" l +:+ r) = Some (map g l, r).
Proof.
  induction 1 as [|x l Hx Hl IH]; [done|]. cbn. rewrite append_assoc.
  rewrite (bind_runs _ _ _ _ _ (Hx _)). by rewrite (bind_runs _ _ _ _ _ IH).
Qed.
Lemma write_list_survives {A B} (f : A -> string) (m : reader B) g (l : list A) :
  Forall (survives f m g) l -> Z.of_nat (length l) < 2 ^ 32 -> survives (write_list f) (read_list m) (map g) l.
Proof.
  intros Hl Hn r. assert (0 <= Z.of_nat (length l) < 2 ^ 32) as Hb by lia.
  unfold write_list, read_list. rewrite append_assoc. unfold u32. rewrite Z.mod_small by done.
  rewrite (bind_runs _ _ _ _ _ (read_u32_write _ _ Hb)). rewrite Nat2Z.id. by apply read_items_write.
Qed.
Lemma serialize_survives {A B} (f : A -> string) (m : reader B) g x :
  survives f m g x -> str_len (f x) < 2 ^ 32 -> survives (fun x => serialize_to (f x)) (serialize_from m) g x.
Proof.
  intros Hx Hs r. unfold serialize_to, serialize_from. rewrite (bind_runs _ _ _ _ _ (read_string_write _ _ Hs)).
  by rewrite (run_read_write _ _ (g x) Hx).
Qed.

(** ** The input of a proposal *)

Section Input.
Context `{TxCodec}.

Record unit_input_fits (i : xunit_proposal_input) : Prop := {
  uf_account : str_len (in_account i) < 2 ^ 32;
  uf_height : is_u64 (in_last_block_height i);
  uf_hash : str_len (in_last_block_hash i) < 2 ^ 32;
  uf_count : Z.of_nat (length (in_txs i)) < 2 ^ 32;
  uf_txs : Forall (survives cons_tx_write cons_tx_read reread) (in_txs i);
  uf_size : str_len (unit_input_do_write i) < 2 ^ 32
}.
(** Every field, and the whole, fits the width of its length. *)
Definition inputs_fit (l : list xunit_proposal_input) : Prop :=
  Forall unit_input_fits l /\ Z.of_nat (length l) < 2 ^ 32 /\ str_len (table_input_do_write l) < 2 ^ 32.

Lemma unit_input_survives i : unit_input_fits i -> survives unit_input_do_write unit_input_do_read reread_input i.
Proof.
  intros [F1 F2 F3 F4 F5 _] r. unfold unit_input_do_write, unit_input_do_read. rewrite !append_assoc.
  rewrite (bind_runs _ _ _ _ _ (read_string_write _ _ F1)), (bind_runs _ _ _ _ _ (read_u64_write _ _ F2)),
    (bind_runs _ _ _ _ _ (read_string_write _ _ F3)).
  by rewrite (bind_runs _ _ _ _ _ (write_list_survives _ _ _ _ F5 F4 _)).
Qed.
Lemma table_input_survives l : inputs_fit l -> table_input_from_string (table_input_to_string l) = Some (map reread_input l).
Proof.
  intros (Hl & Hn & Hs). apply run_read_write. apply (serialize_survives _ _ (map reread_input)); [|done].
  apply write_list_survives; [|done]. eapply Forall_impl; [exact Hl|]. intros i Hi.
  by apply serialize_survives; [apply unit_input_survives|apply Hi].
Qed.
End Input.

(** ** Extra data *)

Lemma str_len_append a b : str_len (a +:+ b) = str_len a + str_len b.
Proof.
  unfold str_len. induction a as [|c a IH]; [done|]. rewrite append_cons. cbn [String.length]. rewrite !Nat2Z.inj_succ, IH. lia.
Qed.
Lemma str_len_write_le n x : str_len (write_le n x) = Z.of_nat n.
Proof. unfold str_len. f_equal. revert x. induction n as [|n IH]; intros x; [done|]. cbn. by rewrite IH. Qed.
Lemma str_len_write_string v : str_len v < 2 ^ 32 -> str_len (write_string v) = 4 + str_len v.
Proof.
  intros Hv. unfold write_string, write_str. rewrite str_len_append, str_len_write_le, str_take_all; [done|].
  unfold cut_size, str_len in *. rewrite Z.mod_small; lia.
Qed.

Lemma extra_survives v : str_len v < 2 ^ 16 -> extra_deserialize_from_string (extra_serialize_to_string [(0, v)]) = Some [(0, v)].
Proof.
  intros Hv. pose proof (Nat2Z.is_nonneg (String.length v)) as H0. fold (str_len v) in H0.
  set (body := write_u16 0 +:+ (write_string v +:+ "")).
  assert (str_len body = 6 + str_len v) as Hb.
  { unfold body, write_u16. rewrite !str_len_append, str_len_write_le, str_len_write_string by lia. unfold str_len at 2. cbn [String.length]. lia. }
  assert (run_read extra_do_read (write_u32 1 +:+ body) = Some [(0, v)]) as Hr.
  { unfold run_read, extra_do_read. rewrite (bind_runs _ _ 1 _ _ (read_u32_write 1 body ltac:(lia))). unfold bind at 1, get.
    rewrite Hb. destruct (Z.ltb_spec (u32 (6 + str_len v)) (u32 (2 * 1))) as [Hlt|_].
    { unfold u32 in Hlt. rewrite !Z.mod_small in Hlt; lia. }
    change (Z.to_nat 1) with 1%nat. cbn [extra_entries]. unfold body, write_u16.
    rewrite (bind_runs read_u16 _ _ _ _ (read_le_write 2 0 _)), (bind_runs _ _ _ _ _ (read_string_write v _ ltac:(lia))). done. }
  unfold extra_deserialize_from_string, extra_serialize_to_string, serialize_to, serialize_from. apply run_read_write. intros r.
  change (extra_do_write [(0, v)]) with (write_u32 1 +:+ body).
  assert (str_len (write_u32 1 +:+ body) < 2 ^ 32) as Hw by (unfold write_u32; rewrite str_len_append, Hb, str_len_write_le; lia).
  rewrite (bind_runs _ _ _ _ _ (read_string_write _ _ Hw)). by rewrite Hr.
Qed.

(** ** The cached total *)

Section Total.
Context `{ExecBase} `{XStringUtl}.

(** The total is that of the height, and 0 before there is one. *)
Definition total_of (w : workload_chain) (total height : Z) : Prop :=
  (height = 0 /\ total = 0) \/ (0 < height /\ exists v, wc_property w height = Some (Some v) /\ total = touint64 v).
Definition tgas_ok (w : workload_chain) (s : xtgas_singleton) : Prop :=
  total_of w (m_last_total_lock_tgas_token s) (m_last_property_height s).

Lemma find_property_sound w n v h :
  find_property w n = Some (v, h) -> wc_property w h = Some (Some v) /\ 0 < h <= Z.of_nat n.
Proof.
  induction n as [|n IH]; [done|]. cbn [find_property]. destruct (wc_property w (Z.of_nat (S n))) as [[v'|]|] eqn:E; [| |done].
  - intros [= <- <-]. split; [done|lia].
  - intros Hf. destruct (IH Hf). split; [done|lia].
Qed.

Lemma leader_total_ok w timer s :
  tgas_ok w s ->
  let '((total, height), s') := leader_get_total_lock_tgas_token w timer s in
  total_of w total height /\ tgas_ok w s' /\ (height = m_last_property_height s \/ height <= wc_latest w).
Proof.
  intros Hs. unfold leader_get_total_lock_tgas_token. destruct (_ <=? _); [by split_and!; [| |left]|].
  unfold get_latest_property. destruct (find_property w (Z.to_nat (wc_latest w))) as [[v h]|] eqn:E; [|by split_and!; [| |left]].
  destruct (find_property_sound _ _ _ _ E) as [E' Hh]. destruct (_ <? h); [|by split_and!; [| |left]].
  assert (total_of w (touint64 v) h) by (right; split; [lia|eauto]). split_and!; [done..|right; lia].
Qed.

Lemma backup_total_ok w w' timer height total s :
  (forall h, wc_property w' h = wc_property w h) -> tgas_ok w' s -> total_of w total height ->
  exists s', backup_get_total_lock_tgas_token w' timer height s = (Some total, s') /\ tgas_ok w' s'.
Proof.
  intros Hw Hs Ht. unfold backup_get_total_lock_tgas_token.
  destruct Ht as [[-> ->]|(Hh & v & Hv & ->)]; [by exists s|].
  destruct (Z.eqb_spec height 0) as [|_]; [lia|]. destruct (Z.eqb_spec height (m_last_property_height s)) as [->|_].
  - exists s. split; [|done]. destruct Hs as [[? _]|(_ & v' & Hv' & ->)]; [lia|]. rewrite Hw, Hv in Hv'. by injection Hv' as <-.
  - rewrite Hw, Hv. eexists. split; [done|]. destruct (_ <? height); [|done]. right. split; [done|]. exists v. by rewrite Hw.
Qed.
End Total.

(** ** The parameters *)

Section Table.
Context `{ExecConfig} `{ExecBase} `{TxEnv} `{XStringUtl} `{ExecWorld} `{XCertBase} `{BlockHash} `{TxCodec} `{UnitCodec}.
Context (tableblock_batch_tx_max_num : Z).

Lemma xip2_empty_eq a b : is_xip2_empty a = true -> is_xip2_empty b = true -> a = b.
Proof. destruct a, b. unfold is_xip2_empty. cbn. rewrite !andb_true_iff, !Z.eqb_eq. by intros [-> ->] [-> ->]. Qed.

(** What the layers between leader and backup change of a block: the nonce, the
    justification, and neither units nor predecessor go with it. *)
Definition received (nonce : Z) (justify : string) (b : table_block) : table_block :=
  TableBlock (tb_header b) (qc_set_justify justify (qc_set_nonce nonce (tb_cert b))) (tb_proposal b) (tb_outputs b) None None.

(** Two nodes' views of one block differ in its flags only. *)
Definition same_block (p p' : table_prev) : Prop :=
  p' = TablePrev (tp_account p) (tp_height p) (tp_hash p) (tp_is_genesis p) (tp_class p) (tp_last_full_height p) (tp_last_full_hash p)
         (tp_viewid p) (tp_clock p) (tp_nonce p) (tp_committed p') (tp_locked p') (tp_connected_executed p').

Lemma create_next_same p p' units extra : same_block p p' -> create_next_tableblock units extra p' = create_next_tableblock units extra p.
Proof. by intros ->. Qed.

(** The parameters read from the certificate are those put into it. *)
Lemma cert_para_back cs c nonce justify :
  is_xip2_empty (qc_auditor c) = true -> cs_viewtoken cs <> 0 ->
  let c' := qc_set_justify justify (qc_set_nonce nonce (set_consensus_para cs c)) in
  qc_auditor c' = cs_auditor cs /\ qc_viewtoken c' = cs_viewtoken cs.
Proof.
  intros Ha Ht. cbn. destruct (Z.eqb_spec (cs_viewtoken cs) 0) as [|_]; [done|]. split; [|done].
  destruct (is_xip2_empty (cs_auditor cs)) eqn:E; [|done]. by rewrite (xip2_empty_eq _ _ Ha E).
Qed.

(** The certificate a backup builds from them, with the fields it copies, is the one it received. *)
Lemma cert_rebuilt cs c nonce justify :
  is_xip2_empty (qc_auditor c) = true -> cs_viewtoken cs <> 0 ->
  let c' := qc_set_justify justify (qc_set_nonce nonce (set_consensus_para cs c)) in
  qc_set_justify (qc_justify_cert_hash c') (qc_set_addresses (qc_validator c') (qc_auditor c') (qc_set_nonce (qc_nonce c') (set_consensus_para cs c))) = c'.
Proof. done. Qed.

Lemma backup_para_agrees w para viewtoken s env prev b s0 nonce justify cs s1 :
  leader_set_consensus_para w para viewtoken false s = (cs, s1) ->
  viewtoken <> 0 -> is_xip2_empty (qc_auditor fresh_cert) = true ->
  (forall h, is_u64 h -> touint64 (utostring h) = h /\ str_len (utostring h) < 2 ^ 16) ->
  is_u64 (wc_latest w) -> is_u64 (m_last_property_height s) -> tgas_ok w s -> tgas_ok (be_workload env) s0 ->
  (forall h, wc_property (be_workload env) h = wc_property w h) ->
  be_drand_signature env = mp_drand_signature para -> tp_nonce prev = tp_nonce (mp_latest_cert_block para) ->
  th_class (tb_header b) = class_light -> th_extra_data (tb_header b) = cs_extra_data cs ->
  (exists c, is_xip2_empty (qc_auditor c) = true /\ tb_cert b = set_consensus_para cs c) ->
  exists s2, backup_set_consensus_para env prev (received nonce justify b) s0 = Some (Some cs, s2) /\ tgas_ok (be_workload env) s2.
Proof.
  intros Hl Hv Hf Hn Hw Hm Ok1 Ok2 Hp Hd Hno Hc He (c & Ha & Hcert). unfold leader_set_consensus_para in Hl.
  pose proof (leader_total_ok w (mp_timer_height para) s Ok1) as Ht.
  destruct (leader_get_total_lock_tgas_token w (mp_timer_height para) s) as [[total height] s1']. destruct Ht as (Ht & _ & Hh).
  assert (is_u64 height) as Hu. { destruct Hh as [->|Hh]; [done|]. destruct Ht as [[-> _]|[? _]]; unfold is_u64 in *; lia. }
  destruct (Hn height Hu) as [N1 N2].
  set (extra := extra_serialize_to_string (set_tgas_total_lock_amount_property_height height [])) in *.
  assert (extra_deserialize_from_string extra = Some (set_tgas_total_lock_amount_property_height height [])) as Hex by by apply extra_survives.
  assert (get_tgas_total_lock_amount_property_height (set_tgas_total_lock_amount_property_height height []) = height) as Hpg by exact N1.
  injection Hl as <- <-. change (th_extra_data (tb_header b) = extra) in He. set (cs := set_tableblock_consensus_para _ _ _ _ _ _) in *.
  assert (cs_viewtoken cs = viewtoken) as Hcv by done. pose proof (cert_para_back cs c nonce justify Ha ltac:(by rewrite Hcv)) as Hback.
  unfold backup_set_consensus_para. cbn [received tb_header tb_cert]. rewrite Hc, He, Hcert.
  rewrite bool_decide_eq_false_2 by done. rewrite bool_decide_eq_false_2 by done.
  rewrite Hex, Hpg.
  destruct (backup_total_ok w (be_workload env) (qc_clock (qc_set_justify justify (qc_set_nonce nonce (set_consensus_para cs c)))) height total s0 Hp Ok2 Ht)
    as (s2 & -> & Ok3). exists s2. split; [|done]. destruct Hback as [B1 B2]. by rewrite B1, B2, Hd, Hno.
Qed.
(** ** Units *)

Lemma made_input_account account cs e r u i q : make_unit_block account cs e = Some (r, Some (u, i), q) -> in_account i = account.
Proof.
  unfold make_unit_block. destruct (negb _); [done|]. destruct (negb _); [done|]. case_bool_decide; [done|].
  destruct (get_lock_block_sign_hash e); [|done]. destruct (create_unit _ _ _) as [[[[r' [[b l]|]] p] c]|]; [|done..].
  by intros [= _ _ <- _].
Qed.

(** Leader and backup for one account: same chain, transactions that do not run a
    contract and were not executed before, and the backup's pool accepts them. *)
Record unit_agreed (e e' : maker_env) : Prop := {
  ua_height : is_u64 (pu_height (me_latest e));
  ua_engine : Forall engine_free (me_txs e);
  ua_fresh : Forall (fun t => reread t = t) (me_txs e);
  ua_chain : same_chain e e';
  ua_pool : me_verify_txs e' (me_txs e) = xret_success
}.

Lemma verify_units_rebuilt env benv cs height accounts :
  (forall a, a ∈ accounts -> unit_agreed (env a) (be_units benv a)) ->
  forall residue last r l, make_units env cs residue accounts last = Some (r, l) ->
  verify_units benv cs height (map reread_input (map snd l)) = Some (xret_success, map (unit_with_parent height) (map fst l)).
Proof.
  induction accounts as [|a accounts IH]; intros Ha residue last r l; cbn [make_units]; [by intros [= <- <-]|].
  assert (forall a, a ∈ accounts -> unit_agreed (env a) (be_units benv a)) as Ha' by (intros; apply Ha; by right).
  destruct (make_unit_block a cs (env a)) as [[[r' [[u i]|]] q]|] eqn:E; [| |done].
  2:{ destruct (ok r'); [done|]. cbn. by apply IH. }
  destruct (ok r') eqn:Eok; cbn [negb]; [|by apply IH]. unfold ok in Eok. apply bool_decide_eq_true_1 in Eok as ->.
  assert (verify_unit_block (reread_input i) cs (be_units benv (in_account i)) = Some (xret_success, Some u, q)) as Hu.
  { rewrite (made_input_account _ _ _ _ _ _ _ E). destruct (Ha a ltac:(by left)) as [U1 U2 U3 U4 U5]. by eapply unit_rebuilt. }
  assert (forall l, verify_units benv cs height (map reread_input (map snd l)) = Some (xret_success, map (unit_with_parent height) (map fst l)) ->
    verify_units benv cs height (map reread_input (map snd ((u, i) :: l))) = Some (xret_success, map (unit_with_parent height) (map fst ((u, i) :: l)))) as Hcons.
  { intros l' Hl'. cbn [map snd fst verify_units]. cbn [reread_input in_account]. rewrite Hu. cbn. by rewrite Hl'. }
  destruct (_ <=? 0); [intros [= <- <-]; by apply Hcons|].
  destruct (make_units env cs _ accounts xret_success) as [[r2 l2]|] eqn:E2; [|done]. intros [= <- <-]. apply Hcons. by eapply IH.
Qed.

Lemma unit_with_parent_last h h' u : unit_with_parent h (unit_with_parent h' u) = unit_with_parent h u.
Proof. done. Qed.
Lemma create_next_parent h units extra prev :
  create_next_tableblock (map (unit_with_parent h) units) extra prev = create_next_tableblock units extra prev.
Proof.
  unfold create_next_tableblock, create_tableblock. rewrite map_map.
  by rewrite (map_ext _ (unit_with_parent (u64 (tp_height prev + 1)))) by (intros; apply unit_with_parent_last).
Qed.

(** ** Blocks *)

(** What the base library promises. *)
Record base_ok : Prop := {
  bo_auditor : is_xip2_empty (qc_auditor fresh_cert) = true;
  bo_number : forall h, is_u64 h -> touint64 (utostring h) = h /\ str_len (utostring h) < 2 ^ 16;
  bo_output : forall l res, output_matches (hash_output l res) res = true;
  bo_input : forall l res, input_matches (hash_input l res) res = true
}.

(** The predecessor [p] continues a committed, connected and executed block: all
    blocks between, at most six, are stored and not committed yet. *)
Definition connected_to_commit (env : backup_env) (p : table_prev) : Prop :=
  tp_is_genesis p = true \/ tp_height p = 1 \/
  (tp_committed p = false /\ tp_locked p = false /\
   exists k : nat, (k <= 6)%nat /\ be_load env (u64 (tp_height p - 1 - Z.of_nat k)) = Some (true, true) /\
     forall j : nat, (j < k)%nat -> exists c, be_load env (u64 (tp_height p - 1 - Z.of_nat j)) = Some (false, c)).

Lemma walk_to_commit_spec env n : forall h,
  walk_to_commit env n (u64 h) = true <->
  exists k : nat, (k <= n)%nat /\ be_load env (u64 (h - Z.of_nat k)) = Some (true, true) /\
    forall j : nat, (j < k)%nat -> exists c, be_load env (u64 (h - Z.of_nat j)) = Some (false, c).
Proof.
  assert (forall h, u64 (u64 h - 1) = u64 (h - 1)) as Hu by (intros; unfold u64; by rewrite Zminus_mod_idemp_l).
  induction n as [|n IH]; intros h; cbn [walk_to_commit]; destruct (be_load env (u64 h)) as [[[] ce]|] eqn:E.
  - split.
    + intros ->. exists 0%nat. rewrite Z.sub_0_r. split_and!; [lia|done|lia].
    + intros (k & Hk & El & _). replace k with 0%nat in El by lia. rewrite Z.sub_0_r, E in El. by injection El as ->.
  - split; [done|]. intros (k & Hk & El & _). replace k with 0%nat in El by lia. rewrite Z.sub_0_r, E in El. done.
  - split; [done|]. intros (k & Hk & El & _). replace k with 0%nat in El by lia. rewrite Z.sub_0_r, E in El. done.
  - split.
    + intros ->. exists 0%nat. rewrite Z.sub_0_r. split_and!; [lia|done|lia].
    + intros ([|k] & Hk & El & Hj); [rewrite Z.sub_0_r, E in El; by injection El as ->|].
      destruct (Hj 0%nat ltac:(lia)) as [c Ec]. rewrite Z.sub_0_r, E in Ec. done.
  - rewrite Hu, IH. split.
    + intros (k & Hk & El & Hj). exists (S k). replace (h - Z.of_nat (S k)) with (h - 1 - Z.of_nat k) by lia.
      split_and!; [lia|done|]. intros [|j] Hlt; [rewrite Z.sub_0_r; eauto|].
      replace (h - Z.of_nat (S j)) with (h - 1 - Z.of_nat j) by lia. apply Hj. lia.
    + intros ([|k] & Hk & El & Hj); [by rewrite Z.sub_0_r, E in El|]. exists k.
      replace (h - 1 - Z.of_nat k) with (h - Z.of_nat (S k)) by lia. split_and!; [lia|done|].
      intros j Hlt. replace (h - 1 - Z.of_nat j) with (h - Z.of_nat (S j)) by lia. apply Hj. lia.
  - split; [done|]. intros ([|k] & Hk & El & Hj); [by rewrite Z.sub_0_r, E in El|].
    destruct (Hj 0%nat ltac:(lia)) as [c Ec]. by rewrite Z.sub_0_r, E in Ec.
Qed.
Lemma check_cert_connect_spec env p : check_cert_connect env p = xret_success <-> connected_to_commit env p.
Proof.
  unfold check_cert_connect, connected_to_commit. rewrite <- walk_to_commit_spec.
  destruct (tp_is_genesis p); cbn [orb]; [by split; [left|]|].
  destruct (Z.eqb_spec (tp_height p) 1); [by split; [right; left|]|].
  destruct (tp_committed p); cbn [orb]; [by split; [done|intros [?|[?|[? _]]]]|].
  destruct (tp_locked p); [by split; [done|intros [?|[?|[_ [? _]]]]]|].
  destruct (walk_to_commit _ _ _); split; try done; [by right; right|]. by intros [?|[?|(_ & _ & ?)]].
Qed.


(** Leader and backup stand at the same point: the backup knows the predecessor
    [p] of the block, both caches of the total are right, and what is sent fits. *)
Record table_agreed (env : string -> maker_env) (w : workload_chain) (para : xblock_maker_para) (viewtoken : Z) (s : xtgas_singleton)
    (benv : backup_env) (s0 : xtgas_singleton) (p : table_prev) : Prop := {
  ta_units : forall a, a ∈ mp_unit_accounts para -> unit_agreed (env a) (be_units benv a);
  ta_height : is_u64 (tp_height (mp_latest_cert_block para));
  ta_find : List.find (fun q => bool_decide (tp_hash q = tp_hash (mp_latest_cert_block para)))
              (be_query_block benv (tp_height (mp_latest_cert_block para))) = Some p;
  ta_prev : same_block (mp_latest_cert_block para) p;
  ta_connect : connected_to_commit benv p;
  ta_token : viewtoken <> 0;
  ta_drand : be_drand_signature benv = mp_drand_signature para;
  ta_workload : forall h, wc_property (be_workload benv) h = wc_property w h;
  ta_latest : is_u64 (wc_latest w);
  ta_property : is_u64 (m_last_property_height s);
  ta_leader : tgas_ok w s;
  ta_backup : tgas_ok (be_workload benv) s0;
  ta_fits : forall r l, make_units env (leader_set_consensus_para w para viewtoken false s).1 tableblock_batch_tx_max_num
              (mp_unit_accounts para) xret_success = Some (r, l) -> inputs_fit (map snd l)
}.

Lemma make_table_light env w para t t' s b s1 :
  make_table tableblock_batch_tx_max_num env w para t t' s = Some (Some b, s1) -> th_class (tb_header b) = class_light ->
  exists cs r l, leader_set_consensus_para w para t false s = (cs, s1) /\
    make_units env cs tableblock_batch_tx_max_num (mp_unit_accounts para) xret_success = Some (r, l) /\ l <> [] /\
    b = with_prev (mp_latest_cert_block para) (with_proposal (table_input_to_string (map snd l))
          (on_cert (set_consensus_para cs) (create_next_tableblock (map fst l) (cs_extra_data cs) (mp_latest_cert_block para)))).
Proof.
  unfold make_table. destruct (mp_unit_accounts para) as [|a accounts] eqn:Ea.
  { destruct (if _ =? 0 then _ else _). by intros [= <- <-]. }
  destruct (leader_set_consensus_para w para t false s) as [cs s2] eqn:El. unfold make_tableblock.
  destruct (make_units env cs _ (a :: accounts) xret_success) as [[r [|[u i] l]]|] eqn:Em; [| |done].
  - destruct (_ && _); [done|]. destruct (if _ =? 0 then _ else _). by intros [= <- <-].
  - cbn [ok]. destruct (_ && _); [done|]. intros [= <- <-] _. exists cs, r, ((u, i) :: l). done.
Qed.

Lemma resources_fst l : (map resource_of l).*1 = map (fun u => (resource_of u).1) l.
Proof. induction l as [|u l IH]; [done|]. cbn [map fmap list_fmap]. by f_equal. Qed.
Lemma resources_snd l : (map resource_of l).*2 = map (fun u => (resource_of u).2) l.
Proof. induction l as [|u l IH]; [done|]. cbn [map fmap list_fmap]. by f_equal. Qed.

Lemma verify_out_same b units prev :
  base_ok -> tb_header b = tb_header (create_next_tableblock units (th_extra_data (tb_header b)) prev) ->
  forall local, tb_header local = tb_header b -> tb_cert local = tb_cert b ->
  tb_units local = tb_units (create_next_tableblock units (th_extra_data (tb_header b)) prev) ->
  verify_out_tableblock b local = (xret_success, with_units (default [] (tb_units local)) b).
Proof.
  intros Hb Hh local Q1 Q2 Q3. unfold verify_out_tableblock. rewrite Q1, Q2, !bool_decide_eq_true_2 by done. cbn [negb].
  rewrite Q3, Hh. cbn [create_next_tableblock create_tableblock tb_units tb_header default from_option th_output_hash th_input_hash].
  unfold id. rewrite resources_fst, resources_snd. by rewrite (bo_output Hb), (bo_input Hb).
Qed.

Lemma backup_accepts env w para t t' s b s1 benv s0 p nonce justify :
  base_ok -> table_agreed env w para t s benv s0 p ->
  make_table tableblock_batch_tx_max_num env w para t t' s = Some (Some b, s1) -> th_class (tb_header b) = class_light ->
  exists s2, verify_table benv (received nonce justify b) s0 =
    Some (xret_success, TableBlock (tb_header b) (tb_cert (received nonce justify b)) (tb_proposal b) (tb_outputs b) (tb_units b) (Some p), s2) /\
    tgas_ok (be_workload benv) s2.
Proof.
  intros Hb Ha Hm Hc. destruct (make_table_light _ _ _ _ _ _ _ _ Hm Hc) as (cs & r & l & El & Em & Hl & ->). clear Hm.
  set (prev := mp_latest_cert_block para) in *. set (b := with_prev prev _) in *. pose proof (ta_prev _ _ _ _ _ _ _ _ Ha) as Hp.
  fold prev in Hp. set (rb := received nonce justify b).
  assert (u64 (u64 (tp_height prev + 1) - 1) = tp_height prev) as Hh.
  { pose proof (ta_height _ _ _ _ _ _ _ _ Ha) as Hu. fold prev in Hu. unfold u64, is_u64 in *. rewrite Zminus_mod_idemp_l, Z.mod_small; lia. }
  unfold verify_table, validity_check_for_proposal. replace (th_class (tb_header rb)) with class_light by done.
  rewrite bool_decide_eq_false_2, andb_false_r by done. cbn [negb ok]. unfold ok at 1. rewrite bool_decide_eq_true_2 by done. cbn [negb].
  assert (check_proposal_connect benv rb = (xret_success, with_prev p rb)) as ->.
  { unfold check_proposal_connect. replace (tb_prev rb) with (@None table_prev) by done.
    replace (th_height (tb_header rb)) with (u64 (tp_height prev + 1)) by done. replace (th_last_hash (tb_header rb)) with (tp_hash prev) by done.
    pose proof (ta_find _ _ _ _ _ _ _ _ Ha) as Hfind. fold prev in Hfind. rewrite Hh, Hfind. cbn [with_prev tb_prev].
    by rewrite (proj2 (check_cert_connect_spec _ _) (ta_connect _ _ _ _ _ _ _ _ Ha)). }
  cbn [ok negb]. unfold ok at 1. rewrite bool_decide_eq_true_2 by done. cbn [negb with_prev tb_prev tb_header].
  replace (th_class (tb_header rb)) with class_light by done. rewrite bool_decide_eq_false_2 by done.
  change (with_prev p rb) with (TableBlock (tb_header rb) (tb_cert rb) (tb_proposal rb) (tb_outputs rb) (tb_units rb) (Some p)).
  edestruct (backup_para_agrees w para t s benv p b s0 nonce justify cs s1) as (s2 & Hpara & Hs2);
    [exact El|apply Ha|apply Hb|apply Hb|apply Ha|apply Ha|apply Ha|apply Ha|apply Ha|apply Ha| |done|done| |].
  { by rewrite Hp. }
  { exists (next_blockcert false (u64 (tp_viewid prev + 1)) (u64 (tp_clock prev + 1))). split; [apply Hb|done]. }
  unfold backup_set_consensus_para in *. cbn [tb_header tb_cert rb received] in *. rewrite Hpara. clear Hpara.
  unfold try_verify_tableblock. cbn [tb_proposal].
  replace (tb_proposal rb) with (table_input_to_string (map snd l)) by done.
  assert (inputs_fit (map snd l)) as Hfit. { eapply (ta_fits _ _ _ _ _ _ _ _ Ha). rewrite El. exact Em. }
  rewrite (table_input_survives _ Hfit).
  assert (forall h, verify_units benv cs h (map reread_input (map snd l)) = Some (xret_success, map (unit_with_parent h) (map fst l))) as Hv.
  { intros h. eapply verify_units_rebuilt; [apply (ta_units _ _ _ _ _ _ _ _ Ha)|exact Em]. }
  destruct (map reread_input (map snd l)) as [|i il] eqn:Ei; [by destruct l|]. rewrite Hv.
  unfold ok at 1. rewrite bool_decide_eq_true_2 by done. cbn [negb].
  set (rp := TableBlock (tb_header b) _ _ _ (tb_units rb) (Some p)).
  assert (local_tableblock cs p (map (unit_with_parent (th_height (tb_header rp))) (map fst l)) rp =
    TableBlock (tb_header b) (tb_cert rb) "" (tb_outputs b) (tb_units b) None) as ->.
  { unfold local_tableblock. by rewrite (create_next_same prev), create_next_parent by done. }
  rewrite (verify_out_same rp (map fst l) prev Hb); [|done..]. by exists s2.
Qed.
(** ** What a backup accepts *)

(** The unit is what the backup makes of the input over its own latest unit,
    which is connected, executed and the one the input names. *)
Record executed_here (env : backup_env) (cs : xblock_consensus_para) (i : xunit_proposal_input) (u : unit_block) : Prop := {
  eh_latest : let latest := me_latest (be_units env (in_account i)) in
    pu_connected_executed latest = true /\ in_last_block_height i = pu_height latest /\ in_last_block_hash i = pu_hash latest;
  eh_place : (ub_account u, ub_height u, ub_last_hash u) =
    (in_account i, u64 (pu_height (me_latest (be_units env (in_account i))) + 1), pu_hash (me_latest (be_units env (in_account i))));
  eh_pool : in_txs i = [] \/ me_verify_txs (be_units env (in_account i)) (in_txs i) = xret_success;
  eh_body : exists l p c,
    create_unit (be_units env (in_account i)) (seq 0 (length (in_txs i))) (maker_context (in_account i) cs (in_txs i))
      = Some (xret_success, Some (ub_body u, l), p, c) /\
    body_class (ub_body u) =
      (if can_make_full_unit (x_account c) (me_latest (be_units env (in_account i))) then class_full else class_light);
  eh_cert : exists justify, get_lock_block_sign_hash (be_units env (in_account i)) = Some justify /\
    u = create_next_unit (in_account i) (me_latest (be_units env (in_account i))) justify cs (ub_body u)
}.

Lemma backup_state_spec latest height hash :
  ok (backup_check_state latest height hash) = true ->
  pu_connected_executed latest = true /\ height = pu_height latest /\ hash = pu_hash latest.
Proof.
  unfold backup_check_state. destruct (pu_connected_executed latest); [|done]. cbn [negb].
  destruct (Z.ltb_spec (pu_height latest) height); [done|]. destruct (Z.ltb_spec height (pu_height latest)); [done|].
  case_bool_decide; [|done]. intros _. split_and!; [done|lia|done].
Qed.
Lemma block_class_spec a body latest :
  ok (verify_proposal_block_class a body latest) = true ->
  body_class body = if can_make_full_unit a latest then class_full else class_light.
Proof. unfold verify_proposal_block_class. by destruct (can_make_full_unit a latest), body. Qed.

Lemma verify_unit_executed env i cs u q :
  verify_unit_block i cs (be_units env (in_account i)) = Some (xret_success, Some u, q) -> executed_here env cs i u.
Proof.
  unfold verify_unit_block. destruct (ok (backup_check_state _ _ _)) eqn:Es; cbn [negb]; [|done].
  destruct (negb (bool_decide _) && _) eqn:Ep; [done|]. destruct (get_lock_block_sign_hash _) as [j|] eqn:Ej; [|done].
  destruct (create_unit _ _ _) as [[[[r [[body l]|]] p] c]|] eqn:Ec; [|done..].
  destruct (ok (verify_proposal_block_class _ _ _)) eqn:Ek; cbn [negb]; [|done]. intros [= -> <- <-].
  split; [by apply backup_state_spec|done| | |by exists j].
  - apply andb_false_iff in Ep as [Ep|Ep]; apply negb_false_iff in Ep.
    + left. apply bool_decide_eq_true_1 in Ep. by destruct (in_txs i).
    + right. unfold ok in Ep. by apply bool_decide_eq_true_1 in Ep.
  - exists l, p, c. split; [done|by apply block_class_spec].
Qed.

Lemma verify_units_executed env cs h inputs : forall units',
  verify_units env cs h inputs = Some (xret_success, units') ->
  exists units, units' = map (unit_with_parent h) units /\ Forall2 (executed_here env cs) inputs units.
Proof.
  induction inputs as [|i inputs IH]; intros units'; cbn [verify_units]; [intros [= <-]; by exists []|].
  destruct (verify_unit_block i cs _) as [[[r [u|]] q]|] eqn:E; [| |done].
  2:{ destruct (ok r) eqn:Eo; cbn; [done|]. intros [= ->]. done. }
  destruct (ok r) eqn:Eo; cbn [negb]; [|by intros [= ->]]. unfold ok in Eo. apply bool_decide_eq_true_1 in Eo as ->.
  destruct (verify_units env cs h inputs) as [[r l]|]; [|done]. intros [= -> <-].
  destruct (IH l eq_refl) as (units & -> & Hf). exists (u :: units). split; [done|]. constructor; [|done].
  by eapply verify_unit_executed.
Qed.

Lemma verify_out_success b local b' :
  verify_out_tableblock b local = (xret_success, b') ->
  th_input_hash (tb_header local) = th_input_hash (tb_header b) /\ th_output_hash (tb_header local) = th_output_hash (tb_header b) /\
  header_hash (tb_header local) = header_hash (tb_header b) /\
  hash_to_sign (header_hash (tb_header local)) (tb_cert local) = hash_to_sign (header_hash (tb_header b)) (tb_cert b) /\
  b' = with_units (default [] (tb_units local)) b.
Proof.
  unfold verify_out_tableblock. repeat case_bool_decide; cbn [negb]; try done.
  destruct (output_matches _ _), (input_matches _ _); try done. cbn. by intros [= <-].
Qed.

(** The parameters a backup works with. *)
Lemma backup_para_extra env prev b s cs s' :
  th_class (tb_header b) <> class_nil -> backup_set_consensus_para env prev b s = Some (Some cs, s') -> cs_extra_data cs = th_extra_data (tb_header b).
Proof.
  intros Hc. unfold backup_set_consensus_para. rewrite bool_decide_eq_false_2 by done. case_bool_decide; [by intros [= <- _]|].
  destruct (extra_deserialize_from_string _); [|done]. destruct (backup_get_total_lock_tgas_token _ _ _ _) as [[t|] s2]; [|done].
  by intros [= <- _].
Qed.

(** The predecessor came with the block, or is the stored block of the height
    below that has the hash the header names. *)
Definition predecessor (env : backup_env) (b : table_block) (prev : table_prev) : Prop :=
  tb_prev b = Some prev \/
  (tb_prev b = None /\ prev ∈ be_query_block env (u64 (th_height (tb_header b) - 1)) /\ tp_hash prev = th_last_hash (tb_header b)).

(** A block is backed by the local block of the units executed here. *)
Definition backed_by_execution (env : backup_env) (s : xtgas_singleton) (b b' : table_block) : Prop :=
  exists prev cs s2 inputs units,
    predecessor env b prev /\ tb_prev b' = Some prev /\ connected_to_commit env prev /\
    backup_set_consensus_para env prev b s = Some (Some cs, s2) /\
    table_input_from_string (tb_proposal b) = Some inputs /\ inputs <> [] /\ Forall2 (executed_here env cs) inputs units /\
    let local := local_tableblock cs prev units b in
    tb_units b' = tb_units local /\ header_hash (tb_header local) = header_hash (tb_header b) /\
    th_input_hash (tb_header local) = th_input_hash (tb_header b) /\
    th_output_hash (tb_header local) = th_output_hash (tb_header b) /\
    hash_to_sign (header_hash (tb_header local)) (tb_cert local) = hash_to_sign (header_hash (tb_header b)) (tb_cert b).

Lemma local_parent cs prev h units b : local_tableblock cs prev (map (unit_with_parent h) units) b = local_tableblock cs prev units b.
Proof. unfold local_tableblock. by rewrite create_next_parent. Qed.
Lemma connect_keeps env b r b1 :
  check_proposal_connect env b = (r, b1) -> tb_header b1 = tb_header b /\ tb_cert b1 = tb_cert b /\ tb_proposal b1 = tb_proposal b /\
  (ok r = true -> exists p, tb_prev b1 = Some p /\ predecessor env b p /\ connected_to_commit env p).
Proof.
  unfold check_proposal_connect. set (b2 := match tb_prev b with Some _ => b | None => _ end).
  assert (tb_header b2 = tb_header b /\ tb_cert b2 = tb_cert b /\ tb_proposal b2 = tb_proposal b) as (E1 & E2 & E3).
  { unfold b2. destruct (tb_prev b); [done|]. by destruct (List.find _ _). }
  assert (forall p, tb_prev b2 = Some p -> predecessor env b p) as Hpre.
  { intros p. unfold b2, predecessor. destruct (tb_prev b) as [p0|] eqn:E0; [rewrite E0; by left|].
    destruct (List.find _ _) as [p1|] eqn:Ef; [|by rewrite E0]. intros [= <-]. right.
    apply List.find_some in Ef as [Hin Hh]. split_and!; [done|by apply list_elem_of_In|by apply bool_decide_eq_true_1 in Hh]. }
  destruct (tb_prev b2) as [p|] eqn:Ep; [|by intros [= <- <-]]. destruct (ok (check_cert_connect env p)) eqn:Eo; intros [= <- <-]; [|done].
  split_and!; [done..|]. intros _. exists p. split_and!; [done|by apply Hpre|]. unfold ok in Eo.
  apply bool_decide_eq_true_1 in Eo. by apply check_cert_connect_spec.
Qed.

Lemma accepted_executed env b s b' s' :
  verify_table env b s = Some (xret_success, b', s') -> th_class (tb_header b) <> class_nil ->
  tb_header b' = tb_header b /\ tb_cert b' = tb_cert b /\ backed_by_execution env s b b'.
Proof.
  intros Hv Hc. unfold verify_table in Hv. destruct (ok (validity_check_for_proposal b)) eqn:Eo; cbn [negb] in Hv.
  2:{ injection Hv as Hr _ _. by rewrite Hr in Eo. }
  destruct (check_proposal_connect env b) as [r b1] eqn:Ec. destruct (connect_keeps _ _ _ _ Ec) as (E1 & E2 & E3 & Hp).
  destruct (ok r) eqn:Eor; cbn [negb] in Hv; [|by injection Hv as -> _ _]. destruct (Hp eq_refl) as (prev & Ep & Hpre & Hcc). rewrite Ep in Hv.
  rewrite E1, bool_decide_eq_false_2 in Hv by done.
  destruct (backup_set_consensus_para env prev b1 s) as [[[cs|] s2]|] eqn:Es; [|done..].
  unfold try_verify_tableblock in Hv. rewrite E3 in Hv. destruct (table_input_from_string (tb_proposal b)) as [inputs|] eqn:Ei; [|done].
  destruct inputs as [|i0 il]; [done|]. set (inputs := i0 :: il) in *.
  destruct (verify_units env cs (th_height (tb_header b1)) inputs) as [[r3 units']|] eqn:Eu; [|done].
  destruct (ok r3) eqn:Eo3; cbn [negb] in Hv; [|by injection Hv as -> _ _]. unfold ok in Eo3. apply bool_decide_eq_true_1 in Eo3 as ->.
  destruct (verify_units_executed _ _ _ _ _ Eu) as (units & -> & Hf). rewrite local_parent in Hv.
  destruct (verify_out_tableblock b1 _) as [r4 b4] eqn:Eout. injection Hv as -> -> ->.
  destruct (verify_out_success _ _ _ Eout) as (V1 & V2 & V3 & V4 & ->). cbn [with_units tb_header tb_cert].
  split_and!; [done..|]. exists prev, cs, s', inputs, units.
  assert (backup_set_consensus_para env prev b s = Some (Some cs, s')) as Es2.
  { rewrite <- Es. unfold backup_set_consensus_para. by rewrite E1, E2. }
  assert (local_tableblock cs prev units b1 = local_tableblock cs prev units b) as El by (unfold local_tableblock; by rewrite E2).
  rewrite <- El, <- E1, <- E2. cbn. split_and!; done.
Qed.
(** ** Units out of a block *)

(** How the certificate of a unit for these parameters looks. *)
Definition unit_cert_of (cs : xblock_consensus_para) (u : unit_block) : Prop :=
  exists j v c, ub_cert u = set_consensus_para cs (qc_set_justify j (next_blockcert true v c)).

Lemma made_units_cert env cs accounts : forall residue last r l,
  make_units env cs residue accounts last = Some (r, l) -> Forall (unit_cert_of cs) (map fst l).
Proof.
  induction accounts as [|a accounts IH]; intros residue last r l; cbn [make_units]; [by intros [= <- <-]; constructor|].
  destruct (make_unit_block a cs (env a)) as [[[r' [[u i]|]] q]|] eqn:E; [| |done].
  2:{ destruct (ok r'); [done|]. cbn. by apply IH. }
  destruct (ok r'); cbn [negb]; [|by apply IH].
  assert (unit_cert_of cs u) as Hu.
  { revert E. unfold make_unit_block. destruct (negb _); [done|]. destruct (negb _); [done|]. case_bool_decide; [done|].
    destruct (get_lock_block_sign_hash _) as [j|]; [|done]. destruct (create_unit _ _ _) as [[[[r2 [[b l']|]] p] c]|]; [|done..].
    intros [= _ <- _ _]. by do 3 eexists. }
  destruct (_ <=? 0); [intros [= <- <-]; by constructor|].
  destruct (make_units env cs _ accounts r') as [[r2 l2]|] eqn:E2; [|done]. intros [= <- <-]. constructor; [done|]. by eapply IH.
Qed.

(** The layers may change nonce and justification of the table's certificate. *)
Definition certified (nonce : Z) (justify : string) (b : table_block) : table_block :=
  on_cert (fun c => qc_set_justify justify (qc_set_nonce nonce c)) b.

(** The unit with the objects its bytes stand for. *)
Definition whole_of (u : unit_block) : whole_unit :=
  WholeUnit (header_of u) (ub_cert u) (input_entitys (ub_body u), input_resources_data (ub_body u))
    (output_entitys (ub_body u), output_resources_data (ub_body u)).

(** The fields of a header fit their widths. *)
Record header_fits (h : unit_header) : Prop := {
  hf_account : str_len (uh_account h) < 2 ^ 32;
  hf_height : is_u64 (uh_height h);
  hf_last_hash : str_len (uh_last_hash h) < 2 ^ 32;
  hf_full_height : is_u64 (uh_last_full_height h);
  hf_full_hash : str_len (uh_last_full_hash h) < 2 ^ 32;
  hf_input : str_len (uh_input_hash h) < 2 ^ 32;
  hf_output : str_len (uh_output_hash h) < 2 ^ 32
}.
(** What the base library promises of the bytes of headers, inputs and outputs. *)
Record codec_ok : Prop := {
  co_header : forall h, header_fits h -> create_header_object (header_to_string h) = Some h;
  co_input : forall b, create_input_object (input_to_string (input_entitys b)) = Some (input_entitys b);
  co_output : forall b, create_output_object (output_to_string (output_entitys b)) = Some (output_entitys b)
}.
(** Every string fits the width of its length. *)
Record unit_fits (u : unit_block) : Prop := {
  ut_fields : header_fits (header_of u);
  ut_header : str_len (header_to_string (header_of u)) < 2 ^ 32;
  ut_input : str_len (input_to_string (input_entitys (ub_body u))) < 2 ^ 32;
  ut_input_res : str_len (input_resources_data (ub_body u)) < 2 ^ 32;
  ut_output : str_len (output_to_string (output_entitys (ub_body u))) < 2 ^ 32;
  ut_output_res : str_len (output_resources_data (ub_body u)) < 2 ^ 32;
  ut_justify : str_len (qc_justify_cert_hash (ub_cert u)) < 2 ^ 32;
  ut_in : str_len (res_input_do_write (res_input_of u)) < 2 ^ 32;
  ut_out : str_len (res_output_do_write (res_output_of u)) < 2 ^ 32
}.

Lemma three_strings_survive {A} (mk : string -> string -> string -> A) x y z :
  str_len x < 2 ^ 32 -> str_len y < 2 ^ 32 -> str_len z < 2 ^ 32 -> forall rest,
  (let* a := read_string in let* b := read_string in let* c := read_string in ret (mk a b c))
    ((write_string x +:+ (write_string y +:+ write_string z)) +:+ rest) = Some (mk x y z, rest).
Proof.
  intros Hx Hy Hz rest. rewrite !append_assoc.
  by rewrite (bind_runs _ _ _ _ _ (read_string_write _ _ Hx)), (bind_runs _ _ _ _ _ (read_string_write _ _ Hy)),
    (bind_runs _ _ _ _ _ (read_string_write _ _ Hz)).
Qed.
Lemma resource_read u :
  unit_fits u ->
  run_read (serialize_from res_input_do_read) (resource_of u).1 = Some (res_input_of u) /\
  run_read (serialize_from res_output_do_read) (resource_of u).2 = Some (res_output_of u).
Proof.
  intros [_ F1 F2 F3 F4 F5 F6 F7 F8]. split.
  - apply run_read_write. apply (serialize_survives res_input_do_write res_input_do_read (fun x => x)); [|done].
    intros rest. exact (three_strings_survive ResUnitInput _ _ _ F1 F2 F3 rest).
  - apply run_read_write. apply (serialize_survives res_output_do_write res_output_do_read (fun x => x)); [|done].
    intros rest. exact (three_strings_survive ResUnitOutput _ _ _ F4 F5 F6 rest).
Qed.

Lemma recreate_made cs nonce justify b u c :
  codec_ok -> is_xip2_empty (qc_auditor c) = true -> cs_viewtoken cs <> 0 ->
  tb_cert b = set_consensus_para cs c -> unit_cert_of cs u -> unit_fits (unit_with_parent (th_height (tb_header b)) u) ->
  recreate_unit (certified nonce justify b) (resource_of (unit_with_parent (th_height (tb_header b)) u))
    = Some (whole_of (unit_with_parent (th_height (tb_header b)) u)).
Proof.
  intros [C1 C2 C3] Ha Ht Hc (j & v & k & Hu) Hf. destruct (cert_para_back cs c nonce justify Ha Ht) as [B1 B2].
  unfold recreate_unit. destruct (resource_read _ Hf) as [-> ->]. apply ut_fields in Hf. cbn [mbind option_bind].
  destruct u as [ua uh ul uf ug ub uc]. cbn in Hu. subst uc. unfold create_whole_unit, res_input_of, res_output_of.
  cbn [m_unit_header m_unit_input m_unit_input_resources m_unit_output m_unit_output_resources m_unit_justify_hash].
  rewrite C1, C2, C3 by exact Hf. cbn [mbind option_bind]. f_equal. unfold on_unit_cert, whole_of. f_equal.
  cbn [certified on_cert tb_cert tb_header unit_with_parent ub_account ub_height ub_last_hash ub_last_full_height ub_last_full_hash ub_body ub_cert wu_cert].
  rewrite Hc, B1, B2. done.
Qed.

(** The units the leader made, in the block. *)
Definition packed_units (height : Z) (l : list (unit_block * xunit_proposal_input)) : list unit_block :=
  map (unit_with_parent height) (take (Z.to_nat (u16 (Z.of_nat (length l)))) (map fst l)).

Lemma mapM_map_Forall {A B C} (f : B -> option C) (k : A -> B) (g : A -> C) l :
  Forall (fun x => f (k x) = Some (g x)) l -> mapM f (map k l) = Some (map g l).
Proof. induction 1 as [|x l E _ IH]; [done|]. cbn. rewrite E. cbn. by rewrite IH. Qed.

Lemma units_recreated env w para t t' s b s1 nonce justify :
  codec_ok -> is_xip2_empty (qc_auditor fresh_cert) = true -> t <> 0 ->
  make_table tableblock_batch_tx_max_num env w para t t' s = Some (Some b, s1) -> th_class (tb_header b) = class_light ->
  exists r l, make_units env (leader_set_consensus_para w para t false s).1 tableblock_batch_tx_max_num (mp_unit_accounts para) xret_success
                = Some (r, l) /\
    let units := packed_units (th_height (tb_header b)) l in
    tb_units b = Some (map resource_of units) /\ tb_outputs b = map output_entity units /\
    (Forall unit_fits units ->
     unpack_proposal_units (certified nonce justify b) = Some (map whole_of units)).
Proof.
  intros Hco Hf Ht Hm Hc. destruct (make_table_light _ _ _ _ _ _ _ _ Hm Hc) as (cs & r & l & El & Em & _ & ->).
  exists r, l. rewrite El. split; [exact Em|].
  set (prev := mp_latest_cert_block para) in *. set (b := with_prev prev _) in *.
  assert (cs_viewtoken cs <> 0) as Hv.
  { unfold leader_set_consensus_para in El. destruct (leader_get_total_lock_tgas_token _ _ _) as [[tot ph] s2]. by injection El as <- _. }
  set (h := u64 (tp_height prev + 1)). assert (th_height (tb_header b) = h) as -> by done.
  assert (take (Z.to_nat (u16 (Z.of_nat (length (map (unit_with_parent h) (map fst l)))))) (map (unit_with_parent h) (map fst l)) = packed_units h l) as Hbody.
  { unfold packed_units. by rewrite firstn_map, !length_map. }
  assert (tb_units b = Some (map resource_of (packed_units h l)) /\ tb_outputs b = map output_entity (packed_units h l)) as [Hu Ho].
  { rewrite <- Hbody. done. }
  cbv zeta. split_and!; [done..|]. intros Hfit.
  unfold unpack_proposal_units. cbn [certified on_cert tb_outputs tb_units]. rewrite Ho, Hu. cbn [default from_option]. unfold id.
  rewrite length_map, firstn_map.
  assert (take (Z.to_nat (u16 (Z.of_nat (length (packed_units h l))))) (packed_units h l) = packed_units h l) as ->.
  { apply take_ge. unfold packed_units at 2. unfold packed_units. rewrite !length_map, length_take, !length_map. unfold u16.
    pose proof (Z.mod_pos_bound (Z.of_nat (length l)) (2 ^ 16) ltac:(lia)).
    pose proof (Z.mod_le (Z.of_nat (length l)) (2 ^ 16) ltac:(lia) ltac:(lia)).
    rewrite Nat.min_l, (Z.mod_small (Z.of_nat (Z.to_nat _))); lia. }
  apply mapM_map_Forall. revert Hfit. unfold packed_units. rewrite !Forall_map. intros Hfit.
  assert (Forall (unit_cert_of cs) (take (Z.to_nat (u16 (Z.of_nat (length l)))) (map fst l))) as Hcert
    by apply Forall_take, (made_units_cert _ _ _ _ _ _ _ Em).
  eapply Forall_impl; [exact (proj2 (Forall_and _ _) (conj Hcert Hfit))|]. intros u [Hcu Hfu].
  eapply (recreate_made cs nonce justify b u); [done| |done|reflexivity|done|done]. exact Hf.
Qed.
End Table.

(** C9. A table block that an honest leader makes passes the check of every backup
    that stands at the same point of the chain: after its way through the layers,
    which add nonce and justification and leave out the units, the backup reads
    the inputs back, comes to the same consensus parameters from the certificate
    and the cached total, executes the same units, light or full, builds the same
    block and accepts it with the leader's units in it.  At the same point
    ([table_agreed]) means: same chains and properties of the accounts, the same
    connected predecessor and drand signature, right caches of the total, a view
    token that is not 0, inputs that fit their widths; and of the transactions:
    none runs a contract, none was executed before on the leader, and the backup's
    pool accepts them.  [stale_state_rejected] is a block refused for a
    transaction executed before. *)
Theorem backup_accepts_leader_block `{ExecConfig} `{ExecBase} `{TxEnv} `{XStringUtl} `{ExecWorld} `{XCertBase} `{BlockHash} `{TxCodec} `{UnitCodec}
    max_num env w para t t' s b s1 benv s0 p nonce justify :
  base_ok -> table_agreed max_num env w para t s benv s0 p ->
  make_table max_num env w para t t' s = Some (Some b, s1) -> th_class (tb_header b) = class_light ->
  exists s2, verify_table benv (received nonce justify b) s0 =
    Some (xret_success, TableBlock (tb_header b) (tb_cert (received nonce justify b)) (tb_proposal b) (tb_outputs b) (tb_units b) (Some p), s2).
Proof. intros Hb Ha Hm Hc. destruct (backup_accepts max_num _ _ _ _ _ _ _ _ _ _ _ nonce justify Hb Ha Hm Hc) as (s2 & E & _). eauto. Qed.

(** C8. Whatever block with units (class not nil) a backup accepts, from any
    leader: its predecessor came with it or is the stored block that has the hash
    its header names, and leads, over at most six stored blocks that are not
    committed, to a committed, connected and executed block (or is genesis or
    block 1); every unit of the inputs continues the backup's latest unit of the
    account, which is connected, executed and the one the input names, by the
    backup's own execution of the transactions its pool accepts, and is full
    exactly when a full unit is due; and the hashes of input, output and header
    and the hash to sign of the block are those of the block of these units, which
    the accepted block ends with. *)
Theorem accepted_block_is_executed `{ExecConfig} `{ExecBase} `{TxEnv} `{XStringUtl} `{ExecWorld} `{XCertBase} `{BlockHash} `{TxCodec} `{UnitCodec}
    env b s b' s' :
  verify_table env b s = Some (xret_success, b', s') -> th_class (tb_header b) <> class_nil ->
  tb_header b' = tb_header b /\ tb_cert b' = tb_cert b /\ backed_by_execution env s b b'.
Proof. apply accepted_executed. Qed.

