(* ===== verification/ExecWitness.v ===== *)
(** * Execution at concrete inputs

    Two users and the registration contract, with the parameters of a test
    chain.  The theorems on execution apply to a transfer between the users; the
    rest of the file shows what happens outside their hypotheses. *)

From stdpp Require Import prelude strings gmap.
From Stdlib Require Import ZArith Lia.
From S2P Require Import Prelude Stream StdMap VBlock AccountAddr TxData TxPoolWitness StdNum NativeProp Action ConsTx ChainState AccountCtx TxExec.
From S2P Require Import CsPara UnitMaker TableMaker ExecInv ExecOps ExecSteps ExecProps ExecFrame TableMakerProps.
Open Scope Z_scope.
Open Scope money_scope.

#[export] Instance wit_config : ExecConfig := {|
  min_account_deposit := 0; min_tx_deposit := 100000; tx_deposit_gas_exchange_ratio := 20; min_free_gas_balance := 100000000;
  free_gas := 25000; initial_total_locked_token := 1000000000000000; total_gas_shard := 2160000000000; validator_group_count := 4;
  max_gas_contract := 50000000; max_gas_account := 1000000; usedgas_decay_cycle := 8640; cpu_gas_exchange_ratio := 40;
  beacon_tx_fee := 100000000; min_stake_votes_num := 1; unlock_gas_staked_delay_time := 8640;
  config_property_alias_name_max_len := 32; contract_call_contracts_num := 25; fullunit_contain_of_unit_num := 21 |}.
#[export] Instance wit_base : ExecBase := {|
  touint64 s := default 0 (stoull s); utostring := to_string; vote_tokens a x d := a + x;
  tx_digest _ _ _ _ := "d"; tx_len_of _ _ _ _ := 100 |}.
#[export] Instance wit_world : ExecWorld := {|
  pubkey_to_address _ s := s; verify_sub_account _ := true; deal_transaction tx s := Some (VmTrace 0 0 0, s);
  stored_account _ := None |}.

Definition user : string := "T00000LhCXJC54t4MYNsqRKGjKRwkBvJ4sWMaEcH".
Definition user2 : string := "T00000LfhWJA5JPcKPJovoBVtN4seYnnsVjx2VuB".
Definition registration : string := "T2000138NZjvNJjRNG5iEqVKydpqAqoeNjBuFmNbj@0".

Definition account_with (name : string) (b : Z) (native : gmap string xdataunit) : account_image :=
  AccountImage (XBlockchain name 0 5 5 "h5" 0 "h0" 0 5 (MState 0 uint256_zero 0 uint256_zero b 0 0 0 0 0 0 0 1 ∅ 0)) native.
Definition raw (ty nonce : Z) (last_hash hash : string) (to : string) : xtransaction :=
  XTransaction ty 100 0 nonce (xxh64_digest last_hash) hash user to 0 0 0.
Definition empty_action : xaction := XAction 0 "" "" "".

(** The transfer number [nonce + 1] of [user] to [user2]. *)
Definition pay (nonce : Z) (last_hash hash : string) (amount : Z) : xcons_tx :=
  make_cons_tx (raw xtransaction_type_transfer nonce last_hash hash user2) 100000 200
    (asset_serialze_to xaction_type_asset_out empty_action (XAsset "" amount))
    (asset_serialze_to xaction_type_asset_in empty_action (XAsset "" amount)) None.

Definition wit_start (im : account_image) (txs : list xcons_tx) : ectx := start (bc_account (ai_chain im)) im txs 1000 "s" 0 0.

Lemma wit_config_ok : config_ok.
Proof. split; cbn; [lia|split; lia|lia]. Qed.
Lemma wit_price : is_Some (get_token_price 0).
Proof. vm_compute. by eexists. Qed.

(** A transaction at a concrete place. *)
Ltac about := split; [reflexivity|reflexivity|vm_compute; reflexivity|vm_compute; intuition congruence|vm_compute; reflexivity
  |vm_compute; discriminate|vm_compute; reflexivity|exact I|vm_compute; reflexivity|try exact (fun _ => I)|try (vm_compute; discriminate)|try (vm_compute; discriminate)].

Definition rich : account_image := account_with user 100000000 ∅.
Definition sending : ectx := wit_start rich [pay 0 uint256_zero "t1" 5000000].

Lemma no_props : props_ok ∅.
Proof. intros n d Hn. by rewrite lookup_empty in Hn. Qed.
Lemma sending_wf : ctx_wf sending.
Proof. apply start_ctx_wf; [apply no_props|split; lia|apply wit_price]. Qed.
Lemma sending_about : about_to_run sending 0 (pay 0 uint256_zero "t1" 5000000) (transfer (XAsset "" 5000000) (XAsset "" 5000000)).
Proof. about. Qed.


Lemma transfer_never_overdraws_witness :
  match exec 0 sending with
  | Some (r, s') => (r, u64 (balance (x_account s') + c_balance (x_change s'))) = (xret_success, 94900000)
  | None => False
  end /\
  exists r s', exec 0 sending = Some (r, s') /\ (r = xret_success -> u64 (balance (x_account s') + c_balance (x_change s')) < 2 ^ 63).
Proof.
  split; [vm_compute; reflexivity|].
  exact (transfer_never_overdraws sending 0 _ _ _ wit_config_ok sending_wf sending_about eq_refl).
Defined.


(** ** Property sets *)

Definition two_objects : np :=
  ([XString "a"; XStrdeque ["x"; "y"]], XNativeProperty (<["s" := 0%nat]> (<["q" := 1%nat]> ∅)) ∅).
Lemma two_objects_wf : np_wf two_objects.
Proof.
  split; cbn.
  - intros n l. rewrite !lookup_insert_Some. intros [[_ <-]|[_ [[_ <-]|[_ ?]]]]; [lia..|]. by rewrite lookup_empty in *.
  - intros n1 n2 l. rewrite !lookup_insert_Some, !lookup_empty. naive_solver.
Qed.

Lemma native_properties_refine_map_witness :
  (run_ops [OpPopBack "q"; OpMapSet "s" "f" "v"; OpStringSet "s" "b"] two_objects).1 = [(np_success, "y"); (np_not_same, ""); (np_success, "")] /\
  spec_ops [OpPopBack "q"; OpMapSet "s" "f" "v"; OpStringSet "s" "b"] (np_view two_objects) =
    ((run_ops [OpPopBack "q"; OpMapSet "s" "f" "v"; OpStringSet "s" "b"] two_objects).1,
     np_view (run_ops [OpPopBack "q"; OpMapSet "s" "f" "v"; OpStringSet "s" "b"] two_objects).2) /\
  np_wf (run_ops [OpPopBack "q"; OpMapSet "s" "f" "v"; OpStringSet "s" "b"] two_objects).2.
Proof. split; [vm_compute; reflexivity|]. exact (native_properties_refine_map _ _ two_objects_wf). Defined.

Lemma copies_share_objects_witness :
  shares two_objects.2 two_objects.2 "q" = true /\
  (if shares two_objects.2 two_objects.2 "q" then (spec_op (OpPopBack "q") (np_view two_objects)).1.2 !! "q" else None)
    = Some (XStrdeque ["x"]) /\
  np_view ((run_op (OpPopBack "q") two_objects).1.2.1, two_objects.2) !! "q" =
    (if shares two_objects.2 two_objects.2 "q" then (spec_op (OpPopBack "q") (np_view two_objects)).1.2 !! "q"
     else np_view (two_objects.1, two_objects.2) !! "q").
Proof.
  split; [vm_compute; reflexivity|]. split; [vm_compute; reflexivity|].
  exact (copies_share_objects (OpPopBack "q") two_objects two_objects.2 "q" two_objects_wf two_objects_wf (np_wf_compatible _ two_objects_wf)).
Defined.

(** * What execution gets wrong

    Runs of the executor outside the hypotheses of [exec_conserves] and
    [unit_conserves], each evaluated from the pool's batch to the committed
    account: several transactions in one unit, a fee on top of the deposit, more
    than one due lock, tokens locked at the wrong account. *)

Definition balance_of (im : account_image) : Z := ms_balance (bc_state (ai_chain im)).

(** The unit of a batch over an account, and the account with the unit added. *)
Definition commit (im : account_image) (txs : list xcons_tx) : option (xret * xlightunit * account_image) :=
  match make_lightunit_output (seq 0 (length txs)) (start (bc_account (ai_chain im)) im txs 10000 "s" 0 0) with
  | Some (r, Some u, _, _) => Some (r, u, add_light_unit u im)
  | _ => None
  end.

(** ** A fee the balance does not cover *)

Definition register_call : xcons_tx :=
  make_cons_tx (raw xtransaction_type_run_contract 0 uint256_zero "t1" registration) 100000000 200 empty_action
    (XAction xaction_type_run_contract "f" "p" "") None.

(** The check that a sender can pay its deposit looks at the committed
    balance and not at the service fee already taken in the same transaction: a
    user with a balance of 100000000 calls a beacon contract with a deposit of
    100000000 and a service fee of 100000000, the call succeeds, and the
    committed balance wraps around to 2^64 - 100000000. *)
Theorem beacon_call_wraps_balance :
  (fun p => (p.1.1, balance_of p.2)) <$> commit rich [register_call] = Some (xret_success, 2 ^ 64 - 100000000).
Proof. vm_compute. reflexivity. Qed.

(** The context of the same call when the fee of the contract has been taken. *)
Definition calling : ectx := wit_start rich [register_call].
Definition fee_taken : ectx := match source_service_fee_exec 0 calling with Some (_, s) => s | None => calling end.
Lemma fee_taken_wf : ctx_wf fee_taken.
Proof.
  assert (ctx_wf calling) as Hw by (apply start_ctx_wf; [apply no_props|split; lia|apply wit_price]).
  assert (has 0 register_call calling) as Hh by (by exists exec_state_init).
  destruct (Keeps_defined _ _ _ _ _ id (source_service_fee_exec_ok 0 register_call wit_config_ok calling Hw Hh eq_refl ltac:(by vm_compute)))
    as (r & s' & E & Hw' & _). unfold fee_taken. by rewrite E.
Qed.

Lemma unpaid_deposit_wraps_balance_witness :
  (fun p => p.1.1) <$> update_tgas_disk_sender 0 0 true fee_taken = Some xret_success /\
  exists r s', update_tgas_disk_sender 0 0 true fee_taken = Some (r, s') /\
    (r.1 = xret_success -> 0 + 100000000 <= balance (x_account fee_taken) /\
       2 ^ 63 <= u64 (balance (x_account s') + c_balance (x_change s'))).
Proof.
  split; [vm_compute; reflexivity|].
  destruct (x_txs fee_taken !! 0%nat) as [tx|] eqn:Et; [|by vm_compute in Et].
  assert (es_used_deposit (ct_exec tx) = 0 /\ ct_deposit tx = 100000000) as [E1 E2]
    by (vm_compute in Et; injection Et as <-; by split).
  destruct (unpaid_deposit_wraps_balance fee_taken 0 tx 0 true wit_config_ok fee_taken_wf Et E1) as (r & s' & E & Hr);
    [rewrite E2; lia|rewrite E2; vm_compute; by split|]. exists r, s'. split; [exact E|]. rewrite <- E2. exact Hr.
Defined.

(** ** A batch that fails in the middle *)

Definition poor : account_image := account_with user 10000000 ∅.
Definition two_payments : list xcons_tx := [pay 0 uint256_zero "t1" 5000000; pay 1 "t1" "t2" 9000000].
Definition receiver : account_image := account_with user2 0 ∅.

(** When a transaction in the middle of a batch fails, the unit is made with
    all transactions of the batch and the changes of the first ones only.  A user
    with a balance of 10000000 sends 5000000 and then 9000000: the unit holds both
    transfers, the sender pays the first alone (5000000 and the deposit), and the
    receipt of the second, which failed, still credits the receiver with 9000000. *)
Theorem failed_transfer_is_paid_out :
  match commit poor two_payments with
  | Some (r, u, im) =>
      (r, length (lu_txs u), balance_of im) = (xret_success, 2%nat, 4900000) /\
      match lu_txs u !! 1%nat with
      | Some t => get_tx_exec_status (ct_exec t) = enum_xunit_tx_exec_status_fail /\
          (fun p => (p.1.1, balance_of p.2)) <$> commit receiver [next_step_tx t] = Some (xret_success, 9000000)
      | None => False
      end
  | None => False
  end.
Proof. vm_compute. by split. Qed.


(** ** Two due locks *)

Definition lock_of (amount : Z) : string := lock_record 0 (assemble_lock_token_param amount 0).
Definition two_locks : account_image :=
  account_with user 100000000
    (<[XPROPERTY_LOCK_TOKEN_KEY := XStrmap [("l1", lock_of 1000000); ("l2", lock_of 2000000)]]>
     (<[XPROPERTY_LOCK_TOKEN_SUM_KEY := XString (to_string 3000000)]> ∅)).

(** A transfer that finds two due locks, of 1000000 and 2000000, releases
    both into the balance but takes only the last out of the sum of locked
    tokens, because the sum was read before the loop: the account ends with
    1000000 more than it had, less the 5000000 it sent. *)
Theorem two_due_locks_mint :
  (fun p => (p.1.1, assets p.2, counter_in (ai_native p.2) XPROPERTY_LOCK_TOKEN_SUM_KEY)) <$> commit two_locks [pay 0 uint256_zero "t1" 5000000]
  = Some (xret_success, assets two_locks - 5000000 + 1000000, 1000000).
Proof. vm_compute. reflexivity. Qed.

(** ** Votes at another account *)

Definition vote_for_other : xcons_tx :=
  make_cons_tx (raw xtransaction_type_pledge_token_vote 0 uint256_zero "t1" user2) 100000 200
    (source_null_serialze_to empty_action) (pledge_token_vote_serialze_to empty_action 10 30) None.

(** Tokens pledged for votes are worked out at the sender and kept in the
    transaction's object, which the receiver does not have: votes pledged to
    another account arrive there without any tokens being locked. *)
Theorem votes_without_tokens :
  match commit rich [vote_for_other] with
  | Some (r, u, im) =>
      r = xret_success /\ ms_pledge_vote (bc_state (ai_chain im)) = 0 /\ assets im = assets rich /\
      match lu_txs u !! 0%nat with
      | Some t =>
          (fun p => (p.1.1, ms_unvote_num (bc_state (ai_chain p.2)), ms_pledge_vote (bc_state (ai_chain p.2)), assets p.2))
            <$> commit receiver [next_step_tx t] = Some (xret_success, 10, 0, assets receiver)
      | None => False
      end
  | None => False
  end.
Proof. vm_compute. repeat split; reflexivity. Qed.

(** ** A failed receipt in a batch *)

Definition contract : string := "T30000LfhWJA5JPcKPJovoBVtN4seYnnsVjx2VuB".
Definition owned_contract : account_image :=
  account_with contract 10000000 (<[XPORPERTY_CONTRACT_PARENT_ACCOUNT_KEY := XString user]> ∅).
Definition pledge (hash : string) (amount : Z) : xcons_tx :=
  make_cons_tx (raw xtransaction_type_pledge_token_tgas 0 uint256_zero hash contract) 100000 200
    (source_null_serialze_to empty_action) (asset_serialze_to xaction_type_pledge_token empty_action (XAsset "" amount))
    (Some (TxReceipt enum_transaction_subtype_send exec_state_init)).

(** The changes of a receipt that fails half way stay in the context, and the
    next receipt of the batch that succeeds commits them: of three pledges, of
    9000000, 9000000 and 100000, over a balance of 10000000 the second fails, and
    yet the account has pledged 18100000 for a price of 9100000. *)
Theorem failed_receipt_leaks :
  (fun p => (p.1.1, balance_of p.2, ms_pledge_tgas (bc_state (ai_chain p.2)))) <$>
    commit owned_contract [pledge "p1" 9000000; pledge "p2" 9000000; pledge "p3" 100000]
  = Some (xret_success, 900000, 18100000).
Proof. vm_compute. reflexivity. Qed.

(** ** An exception nobody catches *)

Definition keys_without_value : xcons_tx :=
  make_cons_tx (raw xtransaction_type_set_account_keys 0 uint256_zero "t1" user) 100000 200 empty_action
    (XAction xaction_type_set_account_keys "" "" "") None.

(** A parameter that is too short makes the stream throw a value that is no
    [std::exception]; the handler around parsing does not catch it and executing
    the batch never returns. *)
Theorem short_parameter_throws :
  make_lightunit_output [0%nat] (wit_start rich [keys_without_value]) = None.
Proof. vm_compute. reflexivity. Qed.

(** * A table block at work

    The leader of a table packs one transfer; a backup receives the block and
    checks it.  The hashes are written out, so that blocks differ when their
    fields do. *)

Definition with_account (im : account_image) : ExecWorld := {|
  pubkey_to_address _ s := s; verify_sub_account _ := true; deal_transaction tx s := Some (VmTrace 0 0 0, s);
  stored_account _ := Some im |}.
#[export] Instance wit_served : ExecWorld | 0 := with_account rich.
#[export] Instance wit_cert : XCertBase := {| fresh_cert := QCert 0 0 0 (Xvip2 0 0) (Xvip2 0 0) 0 0 0 "" false false |}.

Definition show (l : list Z) : string := foldr (fun x s => to_string x +:+ ("," +:+ s)) "" l.
Definition show_tx (t : xcons_tx) : string :=
  digest (ct_tx t) +:+ show [get_tx_subtype (ct_tx t); es_used_deposit (ct_exec t); es_used_tgas (ct_exec t); es_status (ct_exec t)].
Definition show_header (h : unit_header) : string :=
  uh_account h +:+ show [uh_height h] +:+ uh_last_hash h +:+ uh_input_hash h +:+ uh_output_hash h.
#[export] Instance wit_hash : BlockHash := {|
  body_input_hash b := match b with LightUnit l => foldr (fun t s => digest (ct_tx t) +:+ s) "" (lu_txs l) | _ => "full" end;
  body_output_hash b := match b with LightUnit l => foldr (fun t s => show_tx t +:+ s) "" (lu_txs l) | _ => "full" end;
  unit_header_hash := show_header;
  unit_hash_to_sign h c := show_header h +:+ show [qc_clock c; qc_parent_height c];
  hash_input l _ := foldr (fun e s => e.1.1 +:+ show [e.1.2] +:+ e.2 +:+ s) "" l;
  hash_output l _ := foldr (fun e s => e +:+ s) "" l;
  header_hash h := th_account h +:+ show [th_height h] +:+ th_last_hash h +:+ th_extra_data h +:+ th_input_hash h +:+ th_output_hash h;
  hash_to_sign hh c := hh +:+ show [qc_clock c; qc_viewid c; qc_viewtoken c; qc_nonce c] +:+ qc_justify_cert_hash c;
  input_matches _ _ := true;
  output_matches _ _ := true |}.

(** Headers and entities on the stream. *)
Definition class_tag (c : enum_xvblock_class) : Z := match c with class_nil => 0 | class_light => 1 | class_full => 2 end.
Definition tag_class (z : Z) : enum_xvblock_class := if z =? 1 then class_light else if z =? 2 then class_full else class_nil.
#[export] Instance wit_units : UnitCodec := {|
  ventitys := string;
  input_entitys := body_input_hash;
  output_entitys := body_output_hash;
  input_resources_data _ := "";
  output_resources_data _ := "changes";
  header_to_string h := write_string (uh_account h) +:+ (write_u64 (uh_height h) +:+ (write_u8 (class_tag (uh_class h)) +:+
    (write_string (uh_last_hash h) +:+ (write_u64 (uh_last_full_height h) +:+ (write_string (uh_last_full_hash h) +:+
    (write_string (uh_input_hash h) +:+ write_string (uh_output_hash h)))))));
  input_to_string x := x;
  output_to_string x := x;
  create_header_object s := run_read
    (let* a := read_string in let* h := read_u64 in let* c := read_u8 in let* l := read_string in
     let* f := read_u64 in let* g := read_string in let* i := read_string in let* o := read_string in
     ret (UnitHeader a h (tag_class c) l f g i o)) s;
  create_input_object s := Some s;
  create_output_object s := Some s |}.
Lemma wit_codec_ok : codec_ok.
Proof.
  split; [|done|done]. intros h [F1 F2 F3 F4 F5 F6 F7]. cbn [create_header_object header_to_string wit_units].
  apply run_read_write. intros rest. rewrite !append_assoc.
  rewrite (bind_runs _ _ _ _ _ (read_string_write _ _ F1)), (bind_runs _ _ _ _ _ (read_u64_write _ _ F2)),
    (bind_runs read_u8 _ _ _ _ (read_le_write 1 _ _)), (bind_runs _ _ _ _ _ (read_string_write _ _ F3)),
    (bind_runs _ _ _ _ _ (read_u64_write _ _ F4)), (bind_runs _ _ _ _ _ (read_string_write _ _ F5)),
    (bind_runs _ _ _ _ _ (read_string_write _ _ F6)), (bind_runs _ _ _ _ _ (read_string_write _ _ F7)).
  destruct h as [a x c l f g i o]. by destruct c.
Qed.

Definition transfer_tx : xcons_tx := pay 0 uint256_zero "t1" 5000000.
(** On this wire there is one transaction. *)
#[export] Instance wit_codec : TxCodec := {| cons_tx_write _ := "t"; cons_tx_read := let* _ := read_byte in ret transfer_tx |}.

Definition last_unit : prev_unit := PrevUnit 5 "h5" false false 0 "h0" true "s5" 50 900.
Definition unit_env_of (txs : list xcons_tx) : maker_env :=
  MakerEnv last_unit (fun _ => Some "s4") txs (fun _ => xret_success) (fun _ => None).
Definition last_table : table_prev := TablePrev "Ta0000table@1" 7 "h7" false class_light 0 "h0" 70 990 5 false false false.
Definition para_of (accounts : list string) : xblock_maker_para :=
  MakerPara 71 3 (Xvip2 11 1) (Xvip2 0 0) 1000 1000 "drand" last_table false accounts.
Definition workload : workload_chain := WorkloadChain 2 (fun h => if h =? 1 then Some (Some "500") else if h =? 2 then Some None else None).
Definition backup : backup_env :=
  BackupEnv (fun _ => unit_env_of []) (fun h => if h =? 7 then [last_table] else []) (fun h => if h =? 6 then Some (true, true) else None) workload "drand".

Definition made (txs : list xcons_tx) : option table_block :=
  match make_table 100 (fun _ => unit_env_of txs) workload (para_of [user]) 77 78 tgas_init with
  | Some (b, _) => b
  | None => None
  end.

Lemma wit_base_ok : base_ok.
Proof.
  split; [done| |done|done].
  intros h Hh. cbn. rewrite stoull_to_string by done. split; [done|]. unfold str_len.
  pose proof (to_string_length 20 h ltac:(lia) ltac:(unfold is_u64 in Hh; lia)). lia.
Qed.

Lemma wit_agreed : table_agreed 100 (fun _ => unit_env_of [transfer_tx]) workload (para_of [user]) 77 tgas_init backup tgas_init last_table.
Proof.
  split.
  - intros a _. split; [split; cbn; lia| |by constructor|by split|done].
    constructor; [|constructor]. intros f _. reflexivity.
  - split; cbn; lia.
  - done.
  - done.
  - right. right. split_and!; [done..|]. exists 0%nat. split_and!; [lia|done|lia].
  - done.
  - done.
  - done.
  - split; cbn; lia.
  - split; cbn; lia.
  - by left.
  - by left.
  - intros r l E. vm_compute in E. injection E as <- <-. split_and!; [|vm_compute; done|vm_compute; done].
    constructor; [|constructor]. split; [vm_compute; done|split; cbn; lia|vm_compute; done|vm_compute; done| |vm_compute; done].
    constructor; [|constructor]. intros rest. reflexivity.
Qed.

(** The block of one fresh transfer, as the backup receives it. *)
Definition sent : option table_block := received 42 "justify" <$> made [transfer_tx].

Lemma backup_accepts_leader_block_witness :
  match made [transfer_tx] with
  | Some b => th_class (tb_header b) = class_light /\ (length <$> tb_units b) = Some 1%nat /\
      exists s2, verify_table backup (received 42 "justify" b) tgas_init =
        Some (xret_success, TableBlock (tb_header b) (tb_cert (received 42 "justify" b)) (tb_proposal b) (tb_outputs b) (tb_units b) (Some last_table), s2)
  | None => False
  end.
Proof.
  unfold made. destruct (make_table 100 (fun _ => unit_env_of [transfer_tx]) workload (para_of [user]) 77 78 tgas_init) as [[[b|] s1]|] eqn:E;
    [|by vm_compute in E..].
  assert (th_class (tb_header b) = class_light /\ (length <$> tb_units b) = Some 1%nat) as [Hc Hl].
  { clear -E. vm_compute in E. injection E as <- _. split; reflexivity. }
  split; [exact Hc|]. split; [exact Hl|].
  exact (backup_accepts_leader_block 100 _ _ _ _ _ _ b s1 _ _ _ 42 "justify" wit_base_ok wit_agreed E Hc).
Defined.

Lemma accepted_block_is_executed_witness :
  match sent with
  | Some b =>
      match verify_table backup b tgas_init with
      | Some (r, b', _) => r = xret_success /\ tb_header b' = tb_header b /\ tb_cert b' = tb_cert b /\ backed_by_execution backup tgas_init b b'
      | None => False
      end
  | None => False
  end.
Proof.
  destruct sent as [b|] eqn:Eb; [|by vm_compute in Eb].
  assert (th_class (tb_header b) <> class_nil) as Hc. { clear -Eb. vm_compute in Eb. injection Eb as <-. discriminate. }
  destruct (verify_table backup b tgas_init) as [[[r b'] s']|] eqn:E.
  - assert (r = xret_success) as ->. { clear -Eb E. vm_compute in Eb. injection Eb as <-. vm_compute in E. by injection E. }
    split; [reflexivity|]. exact (accepted_block_is_executed backup b tgas_init b' s' E Hc).
  - clear -Eb E. vm_compute in Eb. injection Eb as <-. by vm_compute in E.
Defined.


(** ** A transaction that was executed before *)

(** The state that [exec_batch] leaves in a transaction that failed. *)
Definition failed_before : xcons_tx := with_exec (set_tx_exec_status enum_xunit_tx_exec_status_fail) transfer_tx.

(** The execution state of a transaction is never reset: the setters skip
    success and zero.  When a transfer has failed on the leader once and succeeds
    in a later attempt, the leader's block still says failed; a backup, whose copy
    came over the network without a state, says success, and refuses the block for
    its input hash, which covers the header hashes of the units. *)
Theorem stale_state_rejected :
  match made [failed_before] with
  | Some b => (fun p => p.1.1) <$> verify_table backup (received 42 "justify" b) tgas_init
              = Some enum_xtxexecutor_error_backup_verify_fail_table_input_hash
  | None => False
  end.
Proof. vm_compute. reflexivity. Qed.

(** Extra data too short for its map makes the stream throw: the check that the
    reader answers a positive number never sees a failure. *)
Theorem short_extra_data_throws :
  match sent with
  | Some b =>
      let h := tb_header b in
      verify_table backup
        (TableBlock (TableHeader (th_account h) (th_height h) (th_class h) (th_last_hash h) (th_last_full_height h) (th_last_full_hash h) "x"
           (th_input_hash h) (th_output_hash h)) (tb_cert b) (tb_proposal b) (tb_outputs b) None None) tgas_init = None
  | None => False
  end.
Proof. vm_compute. reflexivity. Qed.
